(* ===== verification/_CoqProject ===== *)
-Q . S2P
Prelude.v
Chains.v
Timers.v
TimersThms.v
KTypes.v
KProc.v
KSched.v
KIpcSend.v
KIpcVm.v
KIpcRecv.v
KSysCall.v
KStep.v
KProcThms.v
KReady.v
KSchedOps.v
KIpcInv.v
KCore.v
KRecvOps.v
KSchedThms.v
KSendThms.v
KRecvThms.v
KNotifyThms.v
KAuth.v
KProxyThms.v
KCallThms.v
KClock.v
KClockThms.v
KAlarmThms.v
KWp.v
KMem.v
KMemCalls.v
KIrq.v
KProcCalls.v
KSysTask.v
KVmm.v
KMemThms.v
KCopyThms.v
KSignalThms.v
KForkThms.v
KClearThms.v
KVmTextThms.v
KVmmThms.v
FsTypes.v
FsCache.v
FsCacheInv.v
FsHash.v
FsIo.v
FsFlush.v
FsGet.v
FsPut.v
FsStore.v
FsProps.v
FsMap.v
FsBitsThms.v
FsAlloc.v
FsInode.v
FsMapThms.v
FsCopyThms.v
FsInodeThms.v
FsTable.v
FsPath.v
FsPathThms.v
FsSelect.v
FsFd.v
FsFdThms.v
DsStore.v
DsProps.v
PmAlloc.v
PmHoles.v
PmAllocThms.v
PmTypes.v
PmProc.v
PmTree.v
PmCalls.v
PmExec.v
PmMain.v
PmTreeThms.v
PmThms.v
VmServer.v
VmThms.v
