(* ===== verification/Prelude.v ===== *)
(** * A verification library for MHYPER

    MHYPER is MINIX 3.1.2a turned into a hypervisor: one kernel runs several
    virtual machines (VMs), each a complete MINIX system of tasks, servers and user
    processes.  VM0 is the hypervisor's own; the other VMs are guests.  The kernel
    schedules all processes, passes messages inside a VM, between VMs, and between
    a guest and the process on VM0 that stands for one of its devices (its proxy or
    a promiscuous server).

    ** The parts and the files

    - Prelude ([Prelude]): field updates [r .[f := v]], C integers and arrays, the
      state and error monad [M], loops with fuel, the closure of "preserves" under
      the monad ([pres]), total weakest preconditions ([twp]), the tactics and the hint
      databases.  [Chains]: a C linked
      list in a table holds exactly a given list, for any key type.
    - Kernel data ([KTypes]): the constants and structures of [kernel/proc.h],
      [priv.h], [ipc.h], [glo.h], [const.h] and of [include/minix].  The state
      [kstate] is the record of the kernel's global variables.  A
      [struct proc *] is a pair (VM, process number), looked up in the map [procs]
      that stands for [vm_hyper[vm].vm_proc]; a [struct priv *] is a pair (VM,
      privilege id) of [privs]; a [struct vm_struct] is an entry of [vms].  A
      [struct proc **] is a location, a queue head or the link field of a process.
      [panic] appends its message to a log and goes on, as the code does until the
      shutdown it asked for.
    - Addressing ([KProc], theorems [KProcThms]): [proc_addr_vm], [get_proc_addr]
      ([kernel/utility.c]), endpoints ([include/minix/endpoint.h]), [isokendpt_f],
      [isokendpt_vm], bit maps ([kernel/const.h]), and the message macros, with
      memory at the granularity of messages.
    - Scheduler ([KSched]): [sched], [pick_proc], [enqueue], [dequeue] of
      [kernel/proc.c].  [KReady] and [KSchedOps] give its abstract state, a list of
      processes per priority, and show each operation on it; [KSchedThms] has the
      properties.
    - Interprocess communication: [KIpcSend] ([MH_send], [MH_notify],
      [notify_proxy]), [KIpcRecv] ([MH_receive], [MH_recvas], [MH_recvvm]),
      [KIpcVm] ([MH_sendas], [MH_ntfyas], [MH_sendvm], [MH_ntfyvm], [MH_relay]), and
      the trap handler [KSysCall] ([sys_call] with its checks, [deadlock],
      [lock_send] and the other gateways), all of [kernel/proc.c].
      [KIpcInv] states the invariant of blocked and ready processes, [KCore]
      what is left of a state without queues, [KRecvOps] follows the scan of
      [MH_receive]; [KSendThms], [KRecvThms], [KProxyThms], [KNotifyThms],
      [KAuth] and [KCallThms] have the properties.  [KStep] (symbolic execution, and
      a running system for the witnesses) and the operations that only read or log
      (in [KSysCall]) are shared.
    - Timers ([Timers], [TimersThms]): [src/lib/timers], on any state that holds a
      queue (class [Timed]).  The kernel's clock task is an instance.
    - Clock task ([KClock], [KClockThms], [KAlarmThms]): [kernel/clock.c] with the
      token buckets of the VMs, and [kernel/system/do_setalarm.c].
    - Memory ([KMem]): physical memory as bytes; the mapping of virtual addresses
      ([umap_local], [umap_remote], [umap_bios]), the copies between address spaces
      inside a VM and between VMs ([virtual_copy], [virtual_copy_vm],
      [kernel/system.c]), and [phys_copy] and [phys_memset] of [klib386.s].
    - System task ([KSysTask]): one round of [sys_task], with the call vector; the
      calls that are not modelled are its argument.  The handlers: [KMemCalls]
      ([do_copy], [do_vcopy], [do_vcopyvm], [do_umap], [do_umapvm], [do_memset]),
      [KIrq] ([cause_sig], [send_sig], [do_getksig], [do_endksig]), [KProcCalls]
      ([get_priv], [clear_endpoint], [do_fork], [do_exit], [do_kill], [do_killvm],
      [do_nice], [do_newmap], [do_getvmid], [do_times]), [do_privctl] (in [KSysTask]),
      [KIrq] (the hooks of [kernel/i8259.c], [do_irqctl], [generic_handler]).
      [KWp] is the weakest precondition of the monad; [KMemThms], [KCopyThms],
      [KSignalThms], [KForkThms] and [KClearThms] have the properties.
    - Life cycle of a VM ([KVmm]): the calls of the VM manager in
      [kernel/system/do_vmmreq.c], with [ul2a] of [kernel/utility.c], [get_value] of
      [kernel/start.c] and the default drivers of [kernel/drivers.h].
      [hyper_call_vec] is the call vector with [do_vmmreq].  Arguments are the
      addresses of kernel variables ([kaddr]), the sizes and the layout in memory of
      the two structures that are copied from user space ([read_vmm_desc],
      [read_proc_cfg]), and the variable that is read before it is set
      ([uninit_i]).  [KClearThms] shows which handlers leave the status of VMs alone;
      [KVmmThms], which loads and starts a small VM, and [KVmTextThms] have the
      properties.
    - Data store server ([DsStore], [DsProps]): [servers/ds/store.c] and
      the dispatch of [servers/ds/main.c].
    - Memory holes of the process manager ([PmAlloc]; [PmHoles] the abstract regions and
      the lists that hold them, [PmAllocThms] the properties):
      [servers/pm/alloc.c].
    - Process manager ([servers/pm]).  [PmTypes]: the process table and the globals in
      the record [pms], a [struct mproc *] is an index of the table; the sets of signals;
      [utility.c] and [timers.c].  What the system task and the file system answer to a
      call is the argument [kernel], from the calls made so far; the calls are recorded.
      [PmProc]: [break.c], [signal.c], [forkexit.c], [trace.c].  [pm_exit], [sig_proc] and
      [check_sig] call each other: each is given what the next does, and [pm_exit_n]
      ties them, to a depth.  [PmCalls]: [getset.c], [time.c], [misc.c], [vmmreq.c].
      [PmExec]: [exec.c].  [PmMain]: [main.c] with the start-up and one round of the loop
      ([pm_round]), the call vector of [table.c], and [do_getsysinfo], where [layout] is
      how the compiler lays the tables out.  [PmTree] and [PmTreeThms] have the processes as an
      abstract tree, with the steps fork, exit and collection of a zombie ([tstep]), and
      the properties of processes; [PmThms] those of pids, signals and [waitpid].
    - VM manager ([servers/vmm], [VmServer]): the table of VMs ([vms]), the calls of
      [main.c] with the library functions below them, the start-up and one round of the
      loop ([vmm_round]).  What the kernel, PM and the loaders answer is the argument
      [world].  [VmThms] has the life cycle of a VM as an abstract machine ([vm_step]).
    - File system server ([servers/fs]).  [FsTypes]: its tables and globals, buffers,
      super blocks, inodes, file and process slots, in the record [fsstate]; a pointer
      to an element of a table is its index, a block is its bytes.  [FsCache]: [dev_io]
      of [device.c], where the driver is the argument [task_io] of everything that
      does I/O; [cache.c] and [buf_pool] of [main.c].  [FsMap]: the bit
      maps of [super.c] with [alloc_zone] and [free_zone]; [read_map] of
      [read.c] and [write_map] of [write.c] with their helpers.  [FsInode]: [inode.c],
      truncation of [link.c], [read_super] of [super.c].  [FsPath]: [path.c] and the
      permissions of [protect.c].
      Their theorems are about a driver that keeps its promises (law [works] of [FsIo]:
      a transfer on a device with a geometry moves its bytes and reports so), with
      [demo_io] of [FsProps] as one that does.
      [FsCacheInv] and [FsHash] have the chains of the cache as lists, [FsIo] what a
      transfer does, [FsFlush] (with the Shell sort), [FsGet] and [FsPut] the
      operations, [FsStore] the abstract store that the cache refines: an array of
      blocks ([refines]), with the steps get, change and put; [FsProps] the
      properties.  [FsBitsThms] and [FsAlloc] are about bit maps and zones, [FsMapThms]
      about the blocks of files, [FsCopyThms] and [FsInodeThms] about inodes on disk,
      [FsTable] about the table of inodes, [FsPathThms] about path names.
      [FsSelect]: [filedes.c], [select.c], [timers.c], and from [pipe.c] the suspension and
      revival of processes.  [FsFd]: [lock.c], the opening and closing of devices of
      [device.c], the calls of [open.c] and [misc.c] on descriptors, [do_pipe] and
      [do_unpause].  What the kernel answers there is the argument [sys_calls]; replies,
      signals and alarms are recorded.  [FsFdThms]: [do_select] changes no descriptor, and
      the table of locks stays free of conflicts.

    ** How the model corresponds to the code

    A C function is a definition of the same name in [M S], from a state to
    [Ret a s'] (it returned [a]), [Crash] (it followed a null pointer, indexed an
    array out of range, or a server panicked) or [Spin] (a loop used up its fuel).
    An early [return] in the middle of a function is the result [inl] of the part
    before it.  Integers are [Z]; where the code can overflow, the result is reduced
    to the width of the C type ([u8], [u32], [s8], [s32]).

    In the kernel, physical memory ([kmem]) is kept apart from the tables of the kernel: a
    message that is stored, or a physical copy, at the address of one of these tables
    overwrites it in the program, and not in the model.  The theorems on what no call changes
    are theorems on the handlers, not on such addresses.  Nothing is printed, but in the
    servers DS and VMM the strings that are printed are read: one that does not end where
    its array ends is a [Crash].

    Fuel: [list_fuel] is 417, one more than the 4 * 104 process slots, so
    that no list without repetition exhausts it; [hole_fuel] is 205, one more than
    the table of holes; [vm_fuel] is 5, one more than the VMs; the loops on
    timers may run once more than there are timers; [hook_fuel] is 18, one more
    than the 17 interrupt hooks; [image_fuel] is 22, two more than an image has
    processes; [ul2a_room] is the 11 digits of its buffer; [MH_notify] and [notify_proxy] call
    each other to depth 2, and [MH_notify_depth] shows that more changes nothing.
    In the process manager [proc_fuel] is 101, one more than the slots, for loops on the table
    and for the depth of [pm_exit] ([pm_exit_depth] shows that more changes nothing);
    [pid_fuel] is 202, two more than the pids and groups of the table ([get_free_pid_first]);
    a line of a script has at most 256 words; [ksig_fuel] and [trace_fuel] are 1024
    rounds of loops that last as long as the kernel has signals or registers to hand out.
    In the VM manager [refuse_fuel] is 1024 requests refused while the kernel says that
    this is not VM0.
    In the file system, [buf_fuel] is 1202, two more than the buffers; [gap_fuel] is 20,
    as gaps grow threefold; the loops on bit maps, directories and queues get one or two
    rounds more than they have elements; [path_fuel] is 257, two more than PATH_MAX;
    [mount_fuel] is 14, two more than NR_SUPERS; [select_fuel] is 26, one more than MAXSELECTS; [parse_fuel] is 5000, more than the
    components of a path with SYMLOOP links.  A mount point without its super block makes
    [cross_mount] spin, as it makes the code.
    The theorems that give an operation's result prove that it returns.

    ** What the theorems show

    - Scheduling: [pick_proc] implements the policy the code encodes; [enqueue] and
      [dequeue] refine insertion and removal; [sched] renews a quantum and never
      reaches the idle queue.
    - Sending and receiving: delivery to a waiting process, blocking, the order in
      which senders are taken, error results that change nothing, the crash when the
      last sender of a queue is taken; the invariant [kbase] is kept throughout.
    - Isolation: no call changes identities, memory maps, privileges or VM states;
      guests cannot use the hypervisor's calls; the trap mask is enforced, and is
      the only check that is.
    - Memory protection: a copy for a process of a guest touches memory of that
      guest, of the process on VM0 behind one of its devices, or of a kernel task, only; mapped
      addresses lie in the text or between the start of the data and the end of the stack; physical copies are not checked at all;
      [phys_copy] equals the byte by byte copy.
    - Processes and signals: [do_fork], the end of an endpoint, the invariant that
      signals are not lost and block their process, the order of [do_getksig].
    - Notifications: pend and take are inverse.
    - Virtual machines and time: round robin among VMs, conservation of tokens,
      the refill that never happens, load accounting, alarms and the timer queue.
    - Life cycle: a VM goes from free to loaded to running, by successful requests of
      the VM manager only; its memory is laid out without gaps; its boot parameters
      and their numbers are read back as written; a new driver replaces the first.
    - Free memory of the process manager: first fit and coalescing, their inverse.
    - Process manager: every round of its loop is a sequence of steps of the tree of
      processes; parents live, pids are not shared, the count of processes is right; the
      recursion of [pm_exit] ends; no process arms itself against SIGKILL, which ends
      the process that [sig_proc] is called for; a signal without permission changes nothing; [waitpid] takes
      the first child that has news; a free pid is always found.
    - VM manager: its rounds are steps of the life cycle of one VM at most, no token is
      lost, a start is described on every branch, and so are the names of VMs.
    - Data store: publication and retrieval are a round trip, the server is safe on
      every sequence of requests, and the behaviour of deletion.

    - Block cache: it refines an array of blocks under every sequence of operations, a
      block that is asked for is returned, a flush writes every block, the Shell sort
      sorts.
    - Disk structures: first fit in the bit maps, allocation and release of zones are
      inverse, [read_map] finds the block that inode and indirect blocks give, an inode
      is read back as it was written, references to inodes are counted right (and an inode has
      one slot, as long as the bit map says of no inode in use that it is free), a name
      is looked up in all blocks of its directory.

    ** What is not modelled

    Left out of the modelled files: debug output and tracing, the interrupt lock
    (kernel code runs without interruption), port I/O and chip programming of the
    clock and the interrupt controller, the statistics under [MHSCHED_STATS], the swapping code (compiled out),
    the shutdown started by [panic].  Not modelled at all: assembly (except message
    copying), drivers, boot and image tools, the network stack, the C library and
    commands.  Page tables and the registers of processes are left out of the
    system task's calls.  In the file system [panic] ends the server at once: the
    flush that it tries first is left out.  The rest of the file system server, its message
    loop, [read_write], links, mounting, status and the mapping of drivers, is a set of calls over the
    modelled blocks, inodes and paths, and is left out, as are [do_exec], [do_trace] and
    the signal frames of the system task, which are about the registers.  In the process
    manager a panic ends the run (the code signals the terminal driver and exits), [do_x86_vm] and
    [patch_init] of [main.c] are never called, and the bytes that an earlier [exec] has left
    in its static buffer are taken as zero. *)
From stdpp Require Import base gmap list numbers strings.
From Stdlib Require Import ZArith Lia.

#[global] Open Scope Z_scope.

(** ** Field updates

    [r .[f := v]] is the record [r] with field [f] set to [v].  An update is an
    instance of [FieldUpd], found from the record's [Eta] instance. *)
Class FieldUpd {R T : Type} (get : R → T) := fupd : (T → T) → R → R.
#[global] Arguments fupd {R T} get {_} f r.

Class Eta (R : Type) := eta : R → R.

Ltac solve_fupd R get :=
  let f := fresh "f" in
  let r := fresh "r" in
  intros f r;
  let e := eval hnf in (@eta R _ r) in
  let g := eval cbv beta in (get r) in
  lazymatch e with
  | context C [g] => let t := context C [f g] in exact t
  end.

#[export] Hint Extern 1 (FieldUpd ?get) =>
  match goal with
  | |- @FieldUpd ?R _ _ => unfold FieldUpd; solve_fupd R get
  end : typeclass_instances.

Declare Scope mh_scope.
Delimit Scope mh_scope with mh.
#[global] Open Scope mh_scope.

Notation "r '.[' f := v ]" := (fupd f (λ _, v) r)
  (at level 1, left associativity, f at level 9, v at level 200,
   format "r .[ f  :=  v ]") : mh_scope.

(** ** Machine integers

    C integers are [Z] values; each arithmetic result is reduced to its width. *)
Definition u8 (z : Z) : Z := z mod 2 ^ 8.
Definition u16 (z : Z) : Z := z mod 2 ^ 16.
Definition u32 (z : Z) : Z := z mod 2 ^ 32.
Definition s8 (z : Z) : Z := (z + 2 ^ 7) mod 2 ^ 8 - 2 ^ 7.
Definition s16 (z : Z) : Z := (z + 2 ^ 15) mod 2 ^ 16 - 2 ^ 15.
Definition s32 (z : Z) : Z := (z + 2 ^ 31) mod 2 ^ 32 - 2 ^ 31.

(** [x & m] used as a condition. *)
Definition band (x m : Z) : bool := negb (Z.land x m =? 0).
(** [x & ~m]. *)
Definition bclr (x m : Z) : Z := Z.land x (Z.lnot m).

(** ** C arrays

    An array is a list; an access out of range yields [None]. *)
Definition aget {A} (l : list A) (i : Z) : option A :=
  if 0 <=? i then l !! Z.to_nat i else None.
Definition aset {A} (l : list A) (i : Z) (x : A) : option (list A) :=
  if (0 <=? i) && (i <? Z.of_nat (length l)) then Some (<[Z.to_nat i := x]> l)
  else None.

(** The characters before the first NUL. *)
Fixpoint c_str (l : list Z) : list Z :=
  match l with
  | [] => []
  | c :: l => if c =? 0 then [] else c :: c_str l
  end.

(** Does a string end within the [n] bytes at [o]? *)
Definition str_in (l : list Z) (o n : nat) : bool := existsb (Z.eqb 0) (take n (drop o l)).

(** ** The state and error monad of the C functions

    [Ret a s]: the function returned [a] in state [s].  [Crash]: it dereferenced
    a null pointer or indexed an array out of range.  [Spin]: a loop ran out of
    its fuel. *)
Inductive outcome (S A : Type) :=
  | Ret (a : A) (s : S)
  | Crash
  | Spin.
#[global] Arguments Ret {S A} a s.
#[global] Arguments Crash {S A}.
#[global] Arguments Spin {S A}.

Definition M (S A : Type) := S → outcome S A.

Definition ret {S A} (a : A) : M S A := λ s, Ret a s.
Definition bind {S A B} (m : M S A) (k : A → M S B) : M S B := λ s,
  match m s with
  | Ret a s' => k a s'
  | Crash => Crash
  | Spin => Spin
  end.
Definition crash {S A} : M S A := λ _, Crash.
Definition spin {S A} : M S A := λ _, Spin.
Definition get {S} : M S S := λ s, Ret s s.
Definition modify {S} (f : S → S) : M S unit := λ s, Ret tt (f s).
Definition of_option {S A} (o : option A) : M S A :=
  match o with Some a => ret a | None => crash end.
Definition skip {S} : M S unit := ret tt.

Notation "'let*' x := m 'in' k" := (bind m (λ x, k))
  (at level 10, x name, m at level 100, k at level 200,
   format "'[' 'let*'  x  :=  m  'in' ']' '//' k") : mh_scope.
Notation "'let*' ' p := m 'in' k" := (bind m (λ x, match x with p => k end))
  (at level 10, p strict pattern, m at level 100, k at level 200) : mh_scope.
Notation "m ;;; k" := (bind m (λ _, k))
  (at level 100, k at level 200, right associativity,
   format "m ;;; '//' k") : mh_scope.

Definition when {S} (b : bool) (m : M S unit) : M S unit :=
  if b then m else skip.

(** [loop n body a] runs [body] from [a] until it yields [inr]; [n] bounds the
    number of rounds. *)
Fixpoint loop {S A B} (n : nat) (body : A → M S (A + B)) (a : A) : M S B :=
  match n with
  | O => spin
  | Datatypes.S n' =>
      let* r := body a in
      match r with
      | inl a' => loop n' body a'
      | inr b => ret b
      end
  end.

(** [for_list l body] runs [body] on each element of [l] in order. *)
Fixpoint for_list {S A} (l : list A) (body : A → M S unit) : M S unit :=
  match l with
  | [] => skip
  | x :: l' => body x;;; for_list l' body
  end.

(** The integers [a], [a+1], ..., [b-1]. *)
Definition zrange (a b : Z) : list Z :=
  map (λ i, a + Z.of_nat i) (seq 0 (Z.to_nat (b - a))).

(** ** Generic lemmas *)
Lemma elem_of_zrange a b i : i ∈ zrange a b ↔ a <= i < b.
Proof.
  unfold zrange. rewrite list_elem_of_fmap. setoid_rewrite elem_of_seq. split.
  - intros (n & -> & ?). lia.
  - intros ?. exists (Z.to_nat (i - a)). lia.
Qed.

Lemma bind_Ret {S A B} (m : M S A) (k : A → M S B) s a s' :
  m s = Ret a s' → bind m k s = k a s'.
Proof. intros H. unfold bind. by rewrite H. Qed.

Lemma bind_Crash {S A B} (m : M S A) (k : A → M S B) s :
  m s = Crash → bind m k s = Crash.
Proof. intros H. unfold bind. by rewrite H. Qed.

Lemma bind_inv {S A B} (m : M S A) (k : A → M S B) s b s2 :
  bind m k s = Ret b s2 → ∃ a s1, m s = Ret a s1 ∧ k a s1 = Ret b s2.
Proof. unfold bind. destruct (m s); naive_solver. Qed.

Lemma bind_assoc {S A B C} (m : M S A) (k : A → M S B) (h : B → M S C) s :
  bind (bind m k) h s = bind m (λ a, bind (k a) h) s.
Proof. unfold bind. by destruct (m s). Qed.

Lemma loop_S {S A B} n (body : A → M S (A + B)) a s :
  loop (Datatypes.S n) body a s =
  match body a s with
  | Ret (inl a') s' => loop n body a' s'
  | Ret (inr b) s' => Ret b s'
  | Crash => Crash
  | Spin => Spin
  end.
Proof. cbn. unfold bind. by destruct (body a s) as [[|] ?| |]. Qed.

(** Fuel is monotone: a loop that ends keeps its result with more fuel. *)
Lemma loop_fuel_mono {S A B} n m (body : A → M S (A + B)) a s :
  (n ≤ m)%nat → loop n body a s ≠ Spin → loop m body a s = loop n body a s.
Proof.
  revert m a s. induction n as [|n IH]; intros m a s Hle Hns; [done|].
  destruct m as [|m]; [lia|]. rewrite !loop_S in *.
  destruct (body a s) as [[|] ?| |]; try done. apply IH; [lia|done].
Qed.

Lemma aget_Some {A} (l : list A) i x :
  aget l i = Some x → 0 <= i < Z.of_nat (length l).
Proof.
  unfold aget. destruct (Z.leb_spec 0 i); [|done]. intros H'%lookup_lt_Some. lia.
Qed.

Lemma aset_aget_eq {A} (l l' : list A) i x :
  aset l i x = Some l' → aget l' i = Some x.
Proof.
  unfold aset, aget. destruct (Z.leb_spec 0 i); cbn; [|done].
  destruct (Z.ltb_spec i (Z.of_nat (length l))); [|done].
  intros [= <-]. apply list_lookup_insert_eq. lia.
Qed.

Lemma aset_aget_ne {A} (l l' : list A) i j x :
  aset l i x = Some l' → i ≠ j → aget l' j = aget l j.
Proof.
  unfold aset, aget. destruct (Z.leb_spec 0 i); cbn; [|done].
  destruct (Z.ltb_spec i (Z.of_nat (length l))); [|done].
  intros [= <-] Hne. destruct (Z.leb_spec 0 j); [|done].
  apply list_lookup_insert_ne. lia.
Qed.

Lemma aset_length {A} (l l' : list A) i x :
  aset l i x = Some l' → length l' = length l.
Proof.
  unfold aset. case_match; [|done]. intros [= <-]. apply length_insert.
Qed.

Lemma u8_range z : 0 <= u8 z < 256.
Proof. apply Z.mod_pos_bound. lia. Qed.
Lemma s32_id z : - 2 ^ 31 <= z < 2 ^ 31 → s32 z = z.
Proof. intros H. unfold s32. rewrite Z.mod_small; lia. Qed.
Lemma u32_id z : 0 <= z < 2 ^ 32 → u32 z = z.
Proof. intros H. unfold u32. by rewrite Z.mod_small. Qed.

Lemma s8_id z : - 2 ^ 7 <= z < 2 ^ 7 → s8 z = z.
Proof. intros H. unfold s8. rewrite Z.mod_small; lia. Qed.

(** ** Bits *)
Lemma band_shiftl x i : 0 <= i → band x (Z.shiftl 1 i) = Z.testbit x i.
Proof.
  intros Hi. unfold band. rewrite Z.shiftl_1_l. destruct (Z.testbit x i) eqn:E.
  - apply negb_true_iff, Z.eqb_neq. intros H. apply (f_equal (λ z, Z.testbit z i)) in H.
    rewrite Z.land_spec, Z.pow2_bits_true, E, Z.bits_0 in H by done. done.
  - apply negb_false_iff, Z.eqb_eq. apply Z.bits_inj'. intros j Hj.
    rewrite Z.land_spec, Z.bits_0. destruct (decide (j = i)) as [->|Hne].
    + by rewrite E.
    + rewrite Z.pow2_bits_false by done. apply andb_false_r.
Qed.

Lemma u16_testbit x i : 0 <= i < 16 → Z.testbit (u16 x) i = Z.testbit x i.
Proof. intros Hi. unfold u16. by rewrite Z.mod_pow2_bits_low by lia. Qed.

(** ** Ranges *)
Lemma zrange_length a b : length (zrange a b) = Z.to_nat (b - a).
Proof. unfold zrange. by rewrite length_map, length_seq. Qed.
Lemma zrange_cons a b : a < b → zrange a b = a :: zrange (a + 1) b.
Proof.
  intros H. unfold zrange. replace (Z.to_nat (b - a)) with (Datatypes.S (Z.to_nat (b - (a + 1)))) by lia.
  cbn [seq map]. f_equal; [lia|]. rewrite <-seq_shift, map_map. apply map_ext. intros n. lia.
Qed.
Lemma zrange_nil a b : b <= a → zrange a b = [].
Proof. intros H. unfold zrange. by replace (Z.to_nat (b - a)) with 0%nat by lia. Qed.
Lemma zrange_lookup a b i x : zrange a b !! i = Some x ↔ x = a + Z.of_nat i ∧ x < b.
Proof.
  unfold zrange. change (map ?f ?l) with (f <$> l). rewrite list_lookup_fmap, fmap_Some. split.
  - intros (k & Hk & ->). apply lookup_seq in Hk. lia.
  - intros [-> Hx]. exists i. split; [|done]. apply lookup_seq. lia.
Qed.
Lemma zrange_nodup a b : NoDup (zrange a b).
Proof. unfold zrange. apply NoDup_fmap_2; [intros i j; lia|apply NoDup_seq]. Qed.

(** ** Runs on concrete states *)

(** The state in which a run ended, [d] when it did not end. *)
Definition in_state {S A} (o : outcome S A) (d : S) : S :=
  match o with Ret _ s => s | _ => d end.

(** How a run ends, without its final state. *)
Definition answers {S A} (o : outcome S A) (a : A) : Prop :=
  match o with Ret b _ => b = a | _ => False end.

Lemma answers_eq {S A} (o : outcome S A) a d : answers o a → o = Ret a (in_state o d).
Proof. by destruct o as [b s| |]; cbn; intros H; subst. Qed.

(** ** Preservation

    [pres R m]: whenever [m] returns, its two states are related by [R].  For a
    preorder [R] the property is closed under the monad's operations; [presto]
    applies the closure lemmas and the hints of the database [pres]. *)
Definition pres {S A} (R : S → S → Prop) (m : M S A) : Prop :=
  ∀ s a s', m s = Ret a s' → R s s'.

Section preservation.
Context {S : Type} (R : S → S → Prop) `{!PreOrder R}.

Lemma pres_ret {A} (a : A) : pres R (ret a).
Proof. intros s b s' [= _ <-]. reflexivity. Qed.
Lemma pres_skip : pres R skip.
Proof. apply pres_ret. Qed.
Lemma pres_get : pres R get.
Proof. intros s b s' [= _ <-]. reflexivity. Qed.
Lemma pres_crash {A} : pres R (@crash S A).
Proof. by intros s b s'. Qed.
Lemma pres_spin {A} : pres R (@spin S A).
Proof. by intros s b s'. Qed.
Lemma pres_of_option {A} (o : option A) : pres R (of_option o).
Proof. destruct o; [apply pres_ret|apply pres_crash]. Qed.
Lemma pres_bind {A B} (m : M S A) (k : A → M S B) :
  pres R m → (∀ a, pres R (k a)) → pres R (bind m k).
Proof.
  intros Hm Hk s b s' H. apply bind_inv in H as (a & s1 & H1 & H2).
  transitivity s1; [by eapply Hm|by eapply Hk].
Qed.
Lemma pres_when b (m : M S unit) : pres R m → pres R (when b m).
Proof. destruct b; [done|intros _; apply pres_skip]. Qed.
Lemma pres_modify f : (∀ s, R s (f s)) → pres R (modify f).
Proof. intros H s a s' [= _ <-]. apply H. Qed.
Lemma pres_loop {A B} n (body : A → M S (A + B)) a :
  (∀ a, pres R (body a)) → pres R (loop n body a).
Proof.
  intros Hb. revert a. induction n as [|n IH]; intros a; [apply pres_spin|].
  apply pres_bind; [apply Hb|]. intros [a'|b]; [apply IH|apply pres_ret].
Qed.
Lemma pres_for_list {A} (l : list A) body :
  (∀ a, pres R (body a)) → pres R (for_list l body).
Proof.
  intros Hb. induction l as [|a l IH]; [apply pres_skip|].
  apply pres_bind; [apply Hb|]. by intros [].
Qed.
End preservation.

(** ** Automation *)
Create HintDb pres discriminated.
Create HintDb mh discriminated.
Create Rewrite HintDb mh_rw.
#[export] Hint Resolve u8_range : mh.
#[export] Hint Rewrite @bind_assoc : mh_rw.

(** Reduce the monad's plumbing and the record projections in the goal. *)
Ltac msimp := cbn [bind ret get modify skip when of_option crash spin].

(** Split a hypothesis [bind m k s = Ret b s']. *)
Ltac minv H :=
  let a := fresh "a" in
  let s := fresh "s" in
  let H1 := fresh H in
  apply bind_inv in H as (a & s & H1 & H).

Ltac presto_step :=
  match goal with
  | |- ∀ _, _ => intro
  | |- pres ?R (ret ?a) => exact (pres_ret R a)
  | |- pres ?R skip => exact (pres_skip R)
  | |- pres ?R get => exact (pres_get R)
  | |- pres ?R crash => exact (pres_crash R)
  | |- pres ?R spin => exact (pres_spin R)
  | |- pres ?R (of_option ?o) => exact (pres_of_option R o)
  | |- pres ?R (when ?b ?m) => refine (pres_when R b m _)
  | |- pres _ _ => solve [auto with pres nocore]
  | |- pres ?R (bind ?m ?k) => refine (pres_bind R m k _ _)
  | |- pres ?R (loop ?n ?b ?a) => refine (pres_loop R n b a _)
  | |- pres ?R (for_list ?l ?b) => refine (pres_for_list R l b _)
  | |- pres _ (match ?x with _ => _ end) => destruct x
  | |- pres _ (let _ := _ in _) => cbv zeta
  end.
Ltac presto := repeat (cbv beta; presto_step).

(** ** Total weakest preconditions

    [twp m Q s]: [m] returns from [s], and its result and final state satisfy [Q].
    The file system is specified with it: a function that crashes or does not end
    satisfies no specification. *)
Definition twp {S A} (m : M S A) (Q : A → S → Prop) (s : S) : Prop :=
  match m s with Ret a s' => Q a s' | _ => False end.

Section rules.
Context {S : Type}.

Lemma twp_intro {A} (m : M S A) Q s a s' : m s = Ret a s' → Q a s' → twp m Q s.
Proof. unfold twp. by intros ->. Qed.
Lemma twp_inv {A} (m : M S A) Q s : twp m Q s → ∃ a s', m s = Ret a s' ∧ Q a s'.
Proof. unfold twp. destruct (m s); [eauto|done..]. Qed.
Lemma twp_ret {A} (a : A) (Q : A → S → Prop) s : Q a s → twp (ret a) Q s.
Proof. done. Qed.
Lemma twp_skip (Q : unit → S → Prop) s : Q tt s → twp skip Q s.
Proof. done. Qed.
Lemma twp_get (Q : S → S → Prop) s : Q s s → twp get Q s.
Proof. done. Qed.
Lemma twp_modify f (Q : unit → S → Prop) s : Q tt (f s) → twp (modify f) Q s.
Proof. done. Qed.
Lemma twp_of_option {A} (o : option A) a (Q : A → S → Prop) s :
  o = Some a → Q a s → twp (of_option o) Q s.
Proof. by intros ->. Qed.
Lemma twp_bind {A B} (m : M S A) (k : A → M S B) Q s :
  twp m (λ a s', twp (k a) Q s') s → twp (bind m k) Q s.
Proof. unfold twp, bind. by destruct (m s). Qed.
Lemma twp_mono {A} (m : M S A) (Q Q' : A → S → Prop) s :
  twp m Q s → (∀ a s', Q a s' → Q' a s') → twp m Q' s.
Proof. unfold twp. destruct (m s); auto. Qed.
Lemma twp_if {A} (b : bool) (m1 m2 : M S A) Q s :
  (b = true → twp m1 Q s) → (b = false → twp m2 Q s) → twp (if b then m1 else m2) Q s.
Proof. destruct b; auto. Qed.
Lemma twp_when (b : bool) (m : M S unit) Q s :
  (b = true → twp m Q s) → (b = false → Q tt s) → twp (when b m) Q s.
Proof. destruct b; intros H1 H2; [by apply H1|by apply H2]. Qed.

(** A loop that follows a list: [I l a s] holds before the rounds for [l]. *)
Lemma twp_loop {X A B} (I : list X → A → S → Prop) n (body : A → M S (A + B)) l a Q s :
  (length l < n)%nat → I l a s →
  (∀ a s, I [] a s → twp (body a) (λ r s', match r with inl _ => False | inr b => Q b s' end) s) →
  (∀ x l a s, I (x :: l) a s →
     twp (body a) (λ r s', match r with inl a' => I l a' s' | inr b => Q b s' end) s) →
  twp (loop n body a) Q s.
Proof.
  intros Hn HI Hnil Hcons. revert l a s Hn HI. induction n as [|n IH]; intros l a s Hn HI; [lia|].
  cbn [loop]. apply twp_bind. destruct l as [|x l].
  - eapply twp_mono; [by apply Hnil|]. by intros [a'|b] s' H.
  - eapply twp_mono; [by apply (Hcons x l)|]. intros [a'|b] s' H; [|done].
    cbn in Hn. apply (IH l); [lia|done].
Qed.

(** A loop with a measure. *)
Lemma twp_loop_measure {A B} (I : A → S → Prop) (f : A → nat) n (body : A → M S (A + B)) a Q s :
  (f a < n)%nat → I a s →
  (∀ a s, I a s → twp (body a) (λ r s', match r with
                                         | inl a' => I a' s' ∧ (f a' < f a)%nat
                                         | inr b => Q b s' end) s) →
  twp (loop n body a) Q s.
Proof.
  intros Hn HI Hb. revert a s Hn HI. induction n as [|n IH]; intros a s Hn HI; [lia|].
  cbn [loop]. apply twp_bind. eapply twp_mono; [by apply Hb|].
  intros [a'|b] s'; [|done]. intros [HI' Hlt]. apply IH; [lia|done].
Qed.

Lemma twp_for_list {A} (I : list A → S → Prop) (l : list A) (body : A → M S unit) s :
  I l s → (∀ a l s, I (a :: l) s → twp (body a) (λ _, I l) s) → twp (for_list l body) (λ _, I []) s.
Proof.
  intros HI Hb. revert s HI. induction l as [|a l IH]; intros s HI; [done|].
  cbn [for_list]. apply twp_bind. eapply twp_mono; [by apply Hb|]. intros [] s' Hs'. by apply IH.
Qed.
End rules.

Ltac twpstep :=
  cbv beta;
  lazymatch goal with
  | |- twp (bind _ _) _ _ => apply twp_bind
  | |- twp (ret _) _ _ => apply twp_ret
  | |- twp skip _ _ => apply twp_skip
  | |- twp get _ _ => apply twp_get
  | |- twp (modify _) _ _ => apply twp_modify
  | |- twp (let _ := _ in _) _ _ => cbv zeta
  | |- twp (match Some _ with _ => _ end) _ _ => cbv iota
  | |- twp (match None with _ => _ end) _ _ => cbv iota
  | |- twp (match inl _ with _ => _ end) _ _ => cbv iota
  | |- twp (match inr _ with _ => _ end) _ _ => cbv iota
  | |- twp (match (_, _) with _ => _ end) _ _ => cbv iota
  | |- twp (if true then _ else _) _ _ => cbv iota
  | |- twp (if false then _ else _) _ _ => cbv iota
  end.
Ltac twpgo := repeat twpstep; cbv beta.
Ltac twpif :=
  lazymatch goal with
  | |- twp (if ?b then _ else _) _ _ => apply twp_if; intros ?
  | |- twp (when ?b _) _ _ => apply twp_when; intros ?
  end.
