(* ===== verification/Chains.v ===== *)
(** * Linked structures in a table

    The abstraction of the C code's linked lists: [chain f pm x l] says that
    following the link field [f] from [x] in the table [pm] visits exactly [l]. *)
From stdpp Require Import base gmap list numbers strings.
From Stdlib Require Import ZArith Lia.
From S2P Require Import Prelude.

Fixpoint chain {K} `{Countable K} {R} (f : R → option K) (pm : gmap K R) (x : option K)
    (l : list K) : Prop :=
  match l with
  | [] => x = None
  | a :: l => x = Some a ∧ ∃ r, pm !! a = Some r ∧ chain f pm (f r) l
  end.

(** The list, computed in at most [n] steps. *)
Fixpoint walk {K} `{Countable K} {R} (n : nat) (f : R → option K) (pm : gmap K R)
    (x : option K) : option (list K) :=
  match x with
  | None => Some []
  | Some a =>
      match n with
      | O => None
      | S n => r ← pm !! a; l ← walk n f pm (f r); Some (a :: l)
      end
  end.

Section chains.
Context {K : Type} `{Countable K} {R : Type} (f : R → option K).

Lemma chain_det pm x l l' : chain f pm x l → chain f pm x l' → l = l'.
Proof.
  revert x l'. induction l as [|a l IH]; intros x [|b l']; cbn;
    [done|intros -> (? & _); done|intros (-> & _) ?; done|].
  intros (-> & r & Hr & Hl) (Heq & r' & Hr' & Hl'). simplify_eq.
  f_equal. by eapply IH.
Qed.

Lemma chain_elem pm x l a : chain f pm x l → a ∈ l → is_Some (pm !! a).
Proof.
  revert x. induction l as [|b l IH]; intros x; cbn; [set_solver|].
  intros (-> & r & Hr & Hl) [->|Hin]%elem_of_cons; eauto.
Qed.

Lemma chain_insert_ne pm x l a r :
  a ∉ l → chain f pm x l → chain f (<[a := r]> pm) x l.
Proof.
  revert x. induction l as [|b l IH]; intros x; cbn; [done|].
  intros Hni (-> & r' & Hr & Hl). split; [done|]. exists r'.
  rewrite lookup_insert_ne by set_solver. split; [done|]. apply IH; set_solver.
Qed.

Lemma chain_insert_link pm x l a r r' :
  pm !! a = Some r → f r' = f r → chain f pm x l → chain f (<[a := r']> pm) x l.
Proof.
  intros Ha Hf. revert x. induction l as [|b l IH]; intros x; cbn; [done|].
  intros (-> & rb & Hr & Hl). split; [done|].
  destruct (decide (a = b)) as [->|Hne].
  - exists r'. rewrite lookup_insert_eq. split; [done|]. simplify_eq.
    rewrite Hf. auto.
  - exists rb. rewrite lookup_insert_ne by done. auto.
Qed.

Lemma chain_app pm x l1 a l2 :
  chain f pm x (l1 ++ a :: l2) →
  ∃ r, pm !! a = Some r ∧ chain f pm (f r) l2.
Proof.
  revert x. induction l1 as [|b l1 IH]; intros x; cbn.
  - intros (-> & r & Hr & Hl). eauto.
  - intros (-> & r & Hr & Hl). eauto.
Qed.

(** Redirecting the link of [z], the last element before [l2]. *)
Lemma chain_redirect pm x l1 z l2 l2' rz rz' :
  NoDup (l1 ++ [z]) → z ∉ l2' → pm !! z = Some rz →
  chain f pm x (l1 ++ z :: l2) → chain f pm (f rz') l2' →
  chain f (<[z := rz']> pm) x (l1 ++ z :: l2').
Proof.
  intros Hnd Hz Hpz. revert x. induction l1 as [|b l1 IH]; intros x; cbn.
  - intros (-> & r & Hr & Hl) Hl'. split; [done|]. exists rz'.
    rewrite lookup_insert_eq. split; [done|]. by apply chain_insert_ne.
  - intros (-> & r & Hr & Hl) Hl'. split; [done|]. exists r.
    apply NoDup_cons in Hnd as [Hb Hnd].
    rewrite lookup_insert_ne by set_solver. split; [done|]. by apply IH.
Qed.

Lemma walk_chain pm n x l : walk n f pm x = Some l → chain f pm x l.
Proof.
  revert x l. induction n as [|n IH]; intros [a|] l; cbn; try done;
    try (by intros [= <-]).
  destruct (pm !! a) as [r|] eqn:Hr; cbn; [|done].
  destruct (walk n f pm (f r)) as [l'|] eqn:Hw; cbn; [|done].
  intros [= <-]. cbn. eauto.
Qed.

Lemma chain_walk pm n x l :
  chain f pm x l → (length l < n)%nat → walk n f pm x = Some l.
Proof.
  revert x l. induction n as [|n IH]; intros x l; cbn; [lia|].
  destruct l as [|a l]; cbn; [by intros -> _|].
  intros (-> & r & Hr & Hl) Hn. rewrite Hr. cbn. rewrite (IH _ l); [done..|lia].
Qed.

Lemma chain_agree pm pm' x l :
  (∀ a, a ∈ l → pm' !! a = pm !! a) → chain f pm x l → chain f pm' x l.
Proof.
  revert x. induction l as [|a l IH]; intros x; cbn; [done|].
  intros Ha (-> & r & Hr & Hl). split; [done|]. exists r.
  rewrite Ha by (by left). split; [done|]. apply IH; [|done].
  intros b Hb. apply Ha. by right.
Qed.

Lemma chain_links pm pm' x l :
  (∀ a r, a ∈ l → pm !! a = Some r → ∃ r', pm' !! a = Some r' ∧ f r' = f r) →
  chain f pm x l → chain f pm' x l.
Proof.
  revert x. induction l as [|a l IH]; intros x; cbn; [done|].
  intros Hag (-> & r & Hr & Hl). split; [done|].
  destruct (Hag a r) as (r' & Hr' & Hf); [by left|done|]. exists r'. split; [done|].
  rewrite Hf. apply IH; [|done]. intros b rb Hb. apply Hag. by right.
Qed.

Lemma chain_null pm l : chain f pm None l → l = [].
Proof. destruct l as [|a l]; cbn; [done|]. by intros [? _]. Qed.

Lemma chain_head pm x l : chain f pm x l → x = head l.
Proof. destruct l; cbn; [done|]. by intros [? _]. Qed.
End chains.

#[export] Hint Resolve chain_insert_ne : mh.
