(* ===== verification/Timers.v ===== *)
(** * Watchdog timers ([src/lib/timers/])

    A queue of timers linked through [tmr_next] and sorted by expiration time.
    The functions work on any state that holds a queue (class [Timed]); the
    watchdog functions are an argument of [tmrs_exptimers]. *)
From stdpp Require Import base gmap list numbers strings.
From Stdlib Require Import ZArith Lia Sorted.
From S2P Require Import Prelude.

Definition TMR_NEVER : Z := 2 ^ 31 - 1.

(** A [timer_t *]. *)
Abbreviation tid := (Z * Z)%type.

Set Primitive Projections.
Record timer := Timer {
  tmr_next : option tid;
  tmr_exp_time : Z;
  tmr_func : Z;
  tmr_arg : option (Z * Z) }.

(** The head pointer [*tmrs] and the timer structures. *)
Record tqueue := TQueue { tmrs : option tid; tm_store : gmap tid timer }.
Unset Primitive Projections.

#[export] Instance timer_eta : Eta timer := λ t,
  Timer (tmr_next t) (tmr_exp_time t) (tmr_func t) (tmr_arg t).
#[export] Instance tqueue_eta : Eta tqueue := λ q, TQueue (tmrs q) (tm_store q).

(** ** States that hold a timer queue *)
Class Timed (S : Type) := {
  tq : S → tqueue;
  set_tq : tqueue → S → S;
  tq_set q s : tq (set_tq q s) = q;
  set_set q q' s : set_tq q (set_tq q' s) = set_tq q s;
  set_tq_same s : set_tq (tq s) s = s }.

(** [timer_t **]: the head or the link of a timer. *)
Inductive tloc := TmrHead | TmrNext (t : tid).

Section ops.
Context {S : Type} `{Timed S}.

Definition gett (t : tid) : M S timer := λ s,
  match tm_store (tq s) !! t with Some r => Ret r s | None => Crash end.

Definition putt (t : tid) (f : timer → timer) : M S unit := λ s,
  match tm_store (tq s) !! t with
  | Some r => Ret tt (set_tq ((tq s).[tm_store := <[t := f r]> (tm_store (tq s))]) s)
  | None => Crash
  end.

Definition tload (x : tloc) : M S (option tid) :=
  match x with
  | TmrHead => let* s := get in ret (tmrs (tq s))
  | TmrNext t => let* r := gett t in ret (tmr_next r)
  end.

Definition tstore (x : tloc) (v : option tid) : M S unit :=
  match x with
  | TmrHead => modify (λ s, set_tq ((tq s).[tmrs := v]) s)
  | TmrNext t => putt t (λ r, r.[tmr_next := v])
  end.

(** [( *tmrs) ? ( *tmrs)->tmr_exp_time : 0]. *)
Definition head_time : M S Z :=
  let* h := tload TmrHead in
  match h with
  | Some t => let* r := gett t in ret (tmr_exp_time r)
  | None => ret 0
  end.

(** A queue holds a timer at most once. *)
Definition tm_fuel (s : S) : nat := Datatypes.S (size (tm_store (tq s))).

(** ** [tmrs_clrtimer]: the result and the value for [*next_time] *)
Definition clr_scan (tp : tid) : tloc → M S (tloc + unit) := λ atp,
  let* x := tload atp in
  match x with
  | None => ret (inr tt)
  | Some t =>
      if bool_decide (t = tp) then
        let* r := gett tp in tstore atp (tmr_next r);;; ret (inr tt)
      else ret (inl (TmrNext t))
  end.

Definition tmrs_clrtimer (tp : tid) : M S (Z * Z) :=
  let* prev_time := head_time in
  putt tp (λ r, r.[tmr_exp_time := TMR_NEVER]);;;
  let* s := get in
  loop (tm_fuel s) (clr_scan tp) TmrHead;;;
  let* next_time := head_time in
  ret (prev_time, next_time).

(** ** [tmrs_settimer]: the old head's time and the value for [*new_head] *)
Definition set_scan (exp_time : Z) : tloc → M S (tloc + tloc) := λ atp,
  let* x := tload atp in
  match x with
  | None => ret (inr atp)
  | Some t =>
      let* r := gett t in
      if exp_time <? tmr_exp_time r then ret (inr atp) else ret (inl (TmrNext t))
  end.

Definition tmrs_settimer (tp : tid) (exp_time watchdog : Z) : M S (Z * Z) :=
  let* old_head := head_time in
  tmrs_clrtimer tp;;;
  putt tp (λ r, r.[tmr_exp_time := exp_time].[tmr_func := watchdog]);;;
  let* s := get in
  let* atp := loop (tm_fuel s) (set_scan exp_time) TmrHead in
  let* x := tload atp in
  putt tp (λ r, r.[tmr_next := x]);;;
  tstore atp (Some tp);;;
  let* new_head := head_time in
  ret (old_head, new_head).

(** ** [tmrs_exptimers], given what the watchdog functions do; [n] bounds the
    number of timers that expire *)
Definition exp_step (run : Z → tid → M S unit) (now : Z) (_ : unit) : M S (unit + unit) :=
  let* h := tload TmrHead in
  match h with
  | None => ret (inr tt)
  | Some tp =>
      let* r := gett tp in
      if tmr_exp_time r <=? now then
        tstore TmrHead (tmr_next r);;;
        putt tp (λ r, r.[tmr_exp_time := TMR_NEVER]);;;
        run (tmr_func r) tp;;;
        ret (inl tt)
      else ret (inr tt)
  end.

Definition tmrs_exptimers (run : Z → tid → M S unit) (n : nat) (now : Z) : M S Z :=
  loop n (exp_step run now) tt;;;
  head_time.
End ops.
