(* ===== verification/TimersThms.v ===== *)
(** * Correctness of the timer queue

    [queue_rep q l]: the queue [q] holds the timers [l] in order.  Setting a timer
    is removal followed by a stable sorted insertion; expiry runs exactly the
    timers that are due, in order. *)
From stdpp Require Import base gmap list numbers strings.
From Stdlib Require Import ZArith Lia Sorted.
From S2P Require Import Prelude.
From S2P Require Import Chains.
From S2P Require Import Timers.

Record queue_rep (q : tqueue) (l : list tid) : Prop := {
  qr_chain : chain tmr_next (tm_store q) (tmrs q) l;
  qr_nodup : NoDup l }.

Definition exp_of (q : tqueue) (t : tid) : Z :=
  match tm_store q !! t with Some r => tmr_exp_time r | None => TMR_NEVER end.

(** The queue is sorted by expiration time. *)
Definition sorted (q : tqueue) (l : list tid) : Prop :=
  StronglySorted (λ a b, exp_of q a <= exp_of q b) l.

Definition head_exp (q : tqueue) (l : list tid) : Z :=
  match l with [] => 0 | t :: _ => exp_of q t end.

(** Insertion in the order of expiration, after the timers due at the same time. *)
Fixpoint insert_timer (q : tqueue) (e : Z) (tp : tid) (l : list tid) : list tid :=
  match l with
  | [] => [tp]
  | t :: l => if e <? exp_of q t then tp :: t :: l else t :: insert_timer q e tp l
  end.

Definition without (tp : tid) (l : list tid) : list tid := filter (λ t, t ≠ tp) l.

(** What a timer is, its link apart. *)
Definition payload (r : timer) : Z * Z * option (Z * Z) :=
  (tmr_exp_time r, tmr_func r, tmr_arg r).

Lemma without_absent tp l : tp ∉ l → without tp l = l.
Proof.
  unfold without. induction l as [|t l IH]; [done|]. intros Ht.
  rewrite filter_cons_True by set_solver. f_equal. apply IH. set_solver.
Qed.

Lemma without_split tp l1 l2 :
  tp ∉ l1 ++ l2 → without tp (l1 ++ tp :: l2) = l1 ++ l2.
Proof.
  intros Ht. unfold without. rewrite filter_app, filter_cons_False by (intros H; by apply H).
  fold (without tp l1) (without tp l2). rewrite !without_absent; set_solver.
Qed.

Lemma queue_length q l : queue_rep q l → (length l <= size (tm_store q))%nat.
Proof.
  intros [Hc Hnd]. rewrite <-size_dom. rewrite <-(size_list_to_set (C := gset tid)) by done.
  apply subseteq_size. intros t Ht%elem_of_list_to_set.
  by apply elem_of_dom, (chain_elem tmr_next _ _ _ _ Hc).
Qed.

Lemma elem_of_insert_timer q e tp l t : t ∈ insert_timer q e tp l ↔ t = tp ∨ t ∈ l.
Proof.
  induction l as [|a l IH]; cbn; [set_solver|].
  destruct (e <? exp_of q a); rewrite !elem_of_cons; [tauto|]. rewrite IH. tauto.
Qed.

(** The insertion keeps the queue sorted. *)
Lemma insert_timer_sorted q e tp l :
  exp_of q tp = e → sorted q l → sorted q (insert_timer q e tp l).
Proof.
  intros He. induction 1 as [|t l Hs IH Hall]; cbn; [repeat constructor|].
  destruct (Z.ltb_spec e (exp_of q t)).
  - constructor; [by constructor|]. constructor; [lia|].
    eapply Forall_impl; [done|]. cbn. lia.
  - constructor; [done|]. apply Forall_forall. intros b [->|Hb]%elem_of_insert_timer; [lia|].
    rewrite Forall_forall in Hall. auto.
Qed.

Lemma without_sorted q tp l : sorted q l → sorted q (without tp l).
Proof.
  induction 1 as [|t l Hs IH Hall]; [constructor|]. unfold without.
  destruct (decide (t = tp)) as [->|Hne].
  - by rewrite filter_cons_False by (intros H; by apply H).
  - rewrite filter_cons_True by done. constructor; [done|].
    rewrite Forall_forall in Hall |- *. intros b [_ Hb]%list_elem_of_filter. auto.
Qed.

Lemma sorted_ext q q' l :
  (∀ t, t ∈ l → exp_of q' t = exp_of q t) → sorted q l → sorted q' l.
Proof.
  intros He. induction 1 as [|t l Hs IH Hall]; [constructor|].
  constructor; [apply IH; set_solver|]. rewrite Forall_forall in Hall |- *.
  intros b Hb. rewrite !He by set_solver. auto.
Qed.

Lemma insert_timer_ext q q' e tp l :
  (∀ t, t ∈ l → exp_of q' t = exp_of q t) → insert_timer q' e tp l = insert_timer q e tp l.
Proof.
  induction l as [|t l IH]; cbn; [done|]. intros H.
  rewrite H by set_solver. rewrite IH by set_solver. done.
Qed.

(** ** Running the functions on a queue *)
Section run.
Context {S : Type} `{Timed S}.
Implicit Types (s : S) (q : tqueue).

Lemma gett_run {B} q s t r (k : timer → M S B) :
  tm_store q !! t = Some r → bind (gett t) k (set_tq q s) = k r (set_tq q s).
Proof. intros Hr. unfold bind, gett. by rewrite tq_set, Hr. Qed.
Lemma putt_run {B} q s t r f (k : unit → M S B) :
  tm_store q !! t = Some r →
  bind (putt t f) k (set_tq q s) =
  k tt (set_tq (q.[tm_store := <[t := f r]> (tm_store q)]) s).
Proof. intros Hr. unfold bind, putt. by rewrite tq_set, Hr, set_set. Qed.
Lemma get_run {B} q s (k : S → M S B) :
  bind get k (set_tq q s) = k (set_tq q s) (set_tq q s).
Proof. done. Qed.

Definition tloc_after (l : list tid) : tloc :=
  match last l with None => TmrHead | Some z => TmrNext z end.

Lemma tload_run q s l1 l2 :
  queue_rep q (l1 ++ l2) → tload (tloc_after l1) (set_tq q s) = Ret (head l2) (set_tq q s).
Proof.
  intros [Hc _]. unfold tloc_after. destruct (last l1) as [z|] eqn:Hz.
  - apply last_Some in Hz as [l0 ->]. rewrite <-app_assoc in Hc.
    destruct (chain_app _ _ _ _ _ _ Hc) as (r & Hr & Hc').
    apply chain_head in Hc'. cbn [tload]. rewrite (gett_run q s z r) by done.
    by assert (tmr_next r = head l2) as -> by exact Hc'.
  - apply last_None in Hz as ->. apply chain_head in Hc. cbn [tload].
    rewrite get_run, tq_set. by assert (tmrs q = head l2) as -> by exact Hc.
Qed.

(** [q'] has the same timers with other links. *)
Definition same_payload q q' : Prop := payload <$> tm_store q' = payload <$> tm_store q.

Lemma same_payload_trans q1 q2 q3 :
  same_payload q1 q2 → same_payload q2 q3 → same_payload q1 q3.
Proof. unfold same_payload. congruence. Qed.

Lemma same_payload_exp q q' t : same_payload q q' → exp_of q' t = exp_of q t.
Proof.
  intros Hp. apply (f_equal (lookup t)) in Hp. rewrite !lookup_fmap in Hp.
  unfold exp_of. destruct (tm_store q' !! t) as [r'|], (tm_store q !! t) as [r|];
    try done. apply (inj Some) in Hp. exact (f_equal (λ x, fst (fst x)) Hp).
Qed.

Lemma same_payload_put q t r v :
  tm_store q !! t = Some r →
  same_payload q (q.[tm_store := <[t := r.[tmr_next := v]]> (tm_store q)]).
Proof.
  intros Hr. unfold same_payload. cbn. rewrite fmap_insert.
  change (payload (r.[tmr_next := v])) with (payload r). rewrite <-fmap_insert.
  by rewrite insert_id.
Qed.

(** Storing [v] after [l1] replaces the rest of the queue by the chain of [v]. *)
Lemma tstore_run q s l1 l2 l2' v :
  queue_rep q (l1 ++ l2) → chain tmr_next (tm_store q) v l2' → NoDup (l1 ++ l2') →
  ∃ q', tstore (tloc_after l1) v (set_tq q s) = Ret tt (set_tq q' s) ∧
        queue_rep q' (l1 ++ l2') ∧ same_payload q q'.
Proof.
  intros [Hc Hnd] Hv Hnd'. unfold tloc_after. destruct (last l1) as [z|] eqn:Hz.
  - apply last_Some in Hz as [l0 Hl]. rewrite Hl in *.
    destruct (chain_elem tmr_next _ _ _ z Hc) as [r Hr]; [set_solver|].
    exists (q.[tm_store := <[z := r.[tmr_next := v]]> (tm_store q)]). split.
    { cbn [tstore]. unfold putt. by rewrite tq_set, Hr, set_set. }
    split; [|by apply same_payload_put]. split; [|done].
    rewrite <-app_assoc in *. cbn [app] in *.
    assert (Hz : z ∉ l2').
    { apply NoDup_app in Hnd' as (_ & _ & Hn). by apply NoDup_cons in Hn as [? _]. }
    apply (chain_redirect _ _ _ l0 z l2 l2' r); try done.
    rewrite cons_middle, app_assoc in Hnd. by apply NoDup_app in Hnd as (? & _ & _).
  - apply last_None in Hz as ->. exists (q.[tmrs := v]).
    split; [cbn [tstore]; unfold modify; by rewrite tq_set, set_set|].
    split; [by split|done].
Qed.

(** [q] with the expiration and function of [t] changed. *)
Lemma queue_rep_put q l t r r' :
  tm_store q !! t = Some r → tmr_next r' = tmr_next r → queue_rep q l →
  queue_rep (q.[tm_store := <[t := r']> (tm_store q)]) l.
Proof. intros Hr Hn [Hc Hnd]. split; [|done]. by apply (chain_insert_link _ _ _ _ _ r). Qed.

Lemma head_time_run q s l :
  queue_rep q l → head_time (set_tq q s) = Ret (head_exp q l) (set_tq q s).
Proof.
  intros Hq. unfold head_time.
  change TmrHead with (tloc_after []). rewrite (bind_Ret _ _ _ _ _ (tload_run q s [] l Hq)).
  destruct l as [|t l]; cbn [head head_exp]; [done|].
  destruct Hq as [(_ & r & Hr & _) _]. rewrite (gett_run q s t r) by done.
  unfold exp_of. by rewrite Hr.
Qed.

(** ** [tmrs_clrtimer] *)
Lemma tloc_after_snoc l t : tloc_after (l ++ [t]) = TmrNext t.
Proof. unfold tloc_after. by rewrite last_snoc. Qed.

Lemma clr_scan_run q s tp r l2 : ∀ l1 n,
  queue_rep q (l1 ++ l2) → tp ∉ l1 → tm_store q !! tp = Some r → (length l2 < n)%nat →
  ∃ q', loop n (clr_scan tp) (tloc_after l1) (set_tq q s) = Ret tt (set_tq q' s) ∧
        queue_rep q' (l1 ++ without tp l2) ∧ same_payload q q'.
Proof.
  induction l2 as [|t l2 IH]; intros l1 n Hq Hni Hr Hn;
    (destruct n as [|n]; [cbn in Hn; lia|]); rewrite loop_S; unfold clr_scan;
    rewrite (bind_Ret _ _ _ _ _ (tload_run q s l1 _ Hq)); cbn [head].
  - exists q. by split_and!.
  - case_bool_decide as Heq.
    + subst t. rewrite (gett_run q s tp r) by done.
      pose proof (qr_nodup _ _ Hq) as Hnd.
      assert (Hnd' : NoDup (l1 ++ l2) ∧ tp ∉ l1 ++ l2).
      { rewrite <-Permutation_middle in Hnd. by apply NoDup_cons in Hnd as [? ?]. }
      destruct (tstore_run q s l1 (tp :: l2) l2 (tmr_next r) Hq) as (q' & Hst & Hq' & Hp).
      { destruct (chain_app _ _ _ _ _ _ (qr_chain _ _ Hq)) as (r' & Hr' & Hc).
        by simplify_eq. }
      { apply Hnd'. }
      rewrite (bind_Ret _ _ _ _ _ Hst). exists q'. split; [done|]. split; [|done].
      replace (without tp (tp :: l2)) with l2; [done|].
      symmetry. apply (without_split tp [] l2). destruct Hnd' as [_ ?]. set_solver.
    + unfold ret. rewrite <-(tloc_after_snoc l1).
      destruct (IH (l1 ++ [t]) n) as (q' & Hrun & Hq' & Hp);
        [by rewrite <-app_assoc|set_solver|done|cbn in Hn; lia|].
      exists q'. split; [done|]. split; [|done]. rewrite <-app_assoc in Hq'.
      unfold without. rewrite filter_cons_True by done. exact Hq'.
Qed.

(** The states of one timer after an operation on it. *)
Definition with_timer q (tp : tid) (r : timer) : tqueue :=
  q.[tm_store := <[tp := r]> (tm_store q)].

Lemma clrtimer_run q s l tp r :
  queue_rep q l → tm_store q !! tp = Some r →
  ∃ q', tmrs_clrtimer tp (set_tq q s) =
          Ret (head_exp q l, head_exp q' (without tp l)) (set_tq q' s) ∧
        queue_rep q' (without tp l) ∧
        same_payload (with_timer q tp (r.[tmr_exp_time := TMR_NEVER])) q'.
Proof.
  intros Hq Hr. unfold tmrs_clrtimer.
  rewrite (bind_Ret _ _ _ _ _ (head_time_run q s l Hq)).
  rewrite (putt_run q s tp r) by done. fold (with_timer q tp (r.[tmr_exp_time := TMR_NEVER])).
  set (q1 := with_timer q tp _).
  assert (Hq1 : queue_rep q1 l) by (by apply (queue_rep_put q l tp r)).
  rewrite get_run.
  destruct (clr_scan_run q1 s tp (r.[tmr_exp_time := TMR_NEVER]) l []
              (tm_fuel (set_tq q1 s))) as (q' & Hrun & Hq' & Hp); try done.
  { set_solver. }
  { cbn. by rewrite lookup_insert_eq. }
  { unfold tm_fuel. rewrite tq_set. apply queue_length in Hq1. lia. }
  exists q'. split; [|done]. cbn [app] in *. change TmrHead with (tloc_after []).
  rewrite (bind_Ret _ _ _ _ _ Hrun).
  by rewrite (bind_Ret _ _ _ _ _ (head_time_run q' s _ Hq')).
Qed.

(** ** [tmrs_settimer] *)
Lemma set_scan_run q s e tp l2 : ∀ l1 n,
  queue_rep q (l1 ++ l2) → (length l2 < n)%nat →
  ∃ l3 l4, loop n (set_scan e) (tloc_after l1) (set_tq q s) =
             Ret (tloc_after (l1 ++ l3)) (set_tq q s) ∧
           l2 = l3 ++ l4 ∧ insert_timer q e tp l2 = l3 ++ tp :: l4.
Proof.
  induction l2 as [|t l2 IH]; intros l1 n Hq Hn;
    (destruct n as [|n]; [cbn in Hn; lia|]); rewrite loop_S; unfold set_scan;
    rewrite (bind_Ret _ _ _ _ _ (tload_run q s l1 _ Hq)); cbn [head].
  - exists [], []. by rewrite app_nil_r.
  - destruct (chain_app _ _ _ _ _ _ (qr_chain _ _ Hq)) as (r & Hr & _).
    rewrite (gett_run q s t r) by done.
    assert (He : exp_of q t = tmr_exp_time r) by (unfold exp_of; by rewrite Hr).
    cbn [insert_timer]. rewrite He. destruct (e <? tmr_exp_time r).
    + exists [], (t :: l2). by rewrite app_nil_r.
    + unfold ret. rewrite <-(tloc_after_snoc l1).
      destruct (IH (l1 ++ [t]) n) as (l3 & l4 & Hrun & -> & Hins);
        [by rewrite <-app_assoc|cbn in Hn; lia|].
      exists (t :: l3), l4. rewrite <-app_assoc in Hrun. cbn [app] in *.
      by rewrite Hins.
Qed.

Lemma settimer_run q s l tp r e w :
  queue_rep q l → tm_store q !! tp = Some r →
  let l' := insert_timer q e tp (without tp l) in
  ∃ q', tmrs_settimer tp e w (set_tq q s) =
          Ret (head_exp q l, head_exp q' l') (set_tq q' s) ∧
        queue_rep q' l' ∧
        same_payload (with_timer q tp (r.[tmr_exp_time := e].[tmr_func := w])) q'.
Proof.
  intros Hq Hr l'. unfold tmrs_settimer.
  rewrite (bind_Ret _ _ _ _ _ (head_time_run q s l Hq)).
  destruct (clrtimer_run q s l tp r Hq Hr) as (q1 & Hclr & Hq1 & Hp1).
  rewrite (bind_Ret _ _ _ _ _ Hclr).
  assert (∃ r1, tm_store q1 !! tp = Some r1 ∧ tmr_arg r1 = tmr_arg r) as (r1 & Hr1 & Harg).
  { apply (f_equal (lookup tp)) in Hp1. rewrite !lookup_fmap in Hp1. cbn in Hp1.
    rewrite lookup_insert_eq in Hp1. destruct (tm_store q1 !! tp) as [r1|]; [|done].
    exists r1. split; [done|]. apply (inj Some) in Hp1.
    exact (f_equal (λ x, snd x) Hp1). }
  rewrite (putt_run q1 s tp r1) by done.
  set (r2 := r1.[tmr_exp_time := e].[tmr_func := w]).
  fold (with_timer q1 tp r2). set (q2 := with_timer q1 tp r2).
  assert (Hq2 : queue_rep q2 (without tp l)) by (by apply (queue_rep_put q1 _ tp r1)).
  assert (Htp : tp ∉ without tp l).
  { unfold without. intros [Hx _]%list_elem_of_filter. by apply Hx. }
  rewrite get_run.
  destruct (set_scan_run q2 s e tp (without tp l) [] (tm_fuel (set_tq q2 s)))
    as (l3 & l4 & Hscan & Hl & Hins); [done| |].
  { unfold tm_fuel. rewrite tq_set. apply queue_length in Hq2. lia. }
  cbn [app] in Hscan. change (tloc_after []) with TmrHead in Hscan.
  rewrite (bind_Ret _ _ _ _ _ Hscan). rewrite Hl in Hq2.
  rewrite (bind_Ret _ _ _ _ _ (tload_run q2 s l3 l4 Hq2)).
  assert (Hr2 : tm_store q2 !! tp = Some r2) by (cbn; by rewrite lookup_insert_eq).
  rewrite (putt_run q2 s tp r2) by done.
  set (q3 := q2.[tm_store := _]).
  rewrite Hl in Htp.
  assert (Hq3 : queue_rep q3 (l3 ++ l4)).
  { destruct Hq2 as [Hc Hnd]. split; [|done]. by apply chain_insert_ne. }
  assert (Hl' : l' = l3 ++ tp :: l4).
  { rewrite <-Hins. unfold l'. symmetry. apply insert_timer_ext. intros t Ht.
    unfold exp_of. cbn. rewrite lookup_insert_ne by (intros <-; rewrite Hl in Ht; done).
    fold (exp_of q1 t). rewrite (same_payload_exp _ _ _ Hp1). unfold exp_of. cbn.
    rewrite lookup_insert_ne; [done|]. intros <-. by rewrite Hl in Ht. }
  destruct (tstore_run q3 s l3 l4 (tp :: l4) (Some tp) Hq3) as (q' & Hst & Hq' & Hp).
  { split; [done|]. exists (r2.[tmr_next := head l4]). split.
    - cbn. by rewrite lookup_insert_eq.
    - cbn [tmr_next fupd]. destruct Hq2 as [Hc _]. apply chain_insert_ne; [set_solver|].
      destruct l3 as [|z l3 _] using rev_ind; cbn [app] in Hc.
      + pose proof (chain_head _ _ _ _ Hc) as Hh. by rewrite Hh in Hc.
      + rewrite <-app_assoc in Hc. apply chain_app in Hc as (rz & _ & Hc).
        pose proof (chain_head _ _ _ _ Hc) as Hh. by rewrite Hh in Hc. }
  { rewrite <-Permutation_middle. apply NoDup_cons. split; [done|apply Hq3]. }
  rewrite (bind_Ret _ _ _ _ _ Hst). rewrite <-Hl' in Hq'.
  exists q'. split; [by rewrite (bind_Ret _ _ _ _ _ (head_time_run q' s _ Hq'))|].
  split; [done|]. apply (same_payload_trans _ q3); [|done].
  unfold same_payload in *. cbn in Hp1 |- *. rewrite !fmap_insert. rewrite Hp1.
  rewrite fmap_insert, !insert_insert_eq. f_equal.
  exact (f_equal (λ x, (e, w, x)) Harg).
Qed.
End run.

(** ** [tmrs_exptimers] *)
Definition func_of (q : tqueue) (t : tid) : Z :=
  match tm_store q !! t with Some r => tmr_func r | None => 0 end.

Definition due (q : tqueue) (now : Z) (l : list tid) : list tid :=
  filter (λ t, exp_of q t <= now) l.
Definition not_due (q : tqueue) (now : Z) (l : list tid) : list tid :=
  filter (λ t, now < exp_of q t) l.

Lemma not_due_all q now t l :
  sorted q (t :: l) → now < exp_of q t → due q now (t :: l) = [] ∧ not_due q now (t :: l) = t :: l.
Proof.
  intros Hs Ht. assert (Hall : Forall (λ a, now < exp_of q a) (t :: l)).
  { apply StronglySorted_inv in Hs as [_ Hs]. constructor; [done|].
    eapply Forall_impl; [done|]. cbn. lia. }
  unfold due, not_due. revert Hall. generalize (t :: l) as l'. clear.
  induction l' as [|a l IH]; [done|]. intros [Ha Hl]%Forall_cons.
  rewrite filter_cons_False by lia. rewrite filter_cons_True by lia.
  destruct (IH Hl) as [-> ->]. done.
Qed.

Lemma due_ext (q q' : tqueue) now l :
  (∀ b, b ∈ l → exp_of q' b = exp_of q b) →
  due q' now l = due q now l ∧ not_due q' now l = not_due q now l.
Proof.
  unfold due, not_due. induction l as [|b l IH]; intros Hexp; [done|].
  destruct IH as [IH1 IH2]; [set_solver|].
  rewrite !filter_cons, Hexp, IH1, IH2 by (by left). done.
Qed.

Section expire.
Context {S : Type} `{Timed S}.
Context (run : Z → tid → M S unit) (eff : Z → tid → S → S).
(** The watchdogs return and leave the queue alone. *)
Context (Hrun : ∀ f t q s, run f t (set_tq q s) = Ret tt (set_tq q (eff f t s))).

(** The effects of the watchdogs of the timers [l], in order. *)
Definition effects (q : tqueue) (l : list tid) (s : S) : S :=
  fold_left (λ s t, eff (func_of q t) t s) l s.

Lemma effects_cons q t l s :
  effects q (t :: l) s = effects q l (eff (func_of q t) t s).
Proof. done. Qed.

Lemma effects_ext q q' l s :
  (∀ t, t ∈ l → func_of q' t = func_of q t) → effects q' l s = effects q l s.
Proof.
  revert s. induction l as [|t l IH]; intros s He; [done|]. cbn.
  rewrite He by (by left). apply IH. intros b Hb. apply He. by right.
Qed.

Lemma exptimers_loop_run now l : ∀ n q s,
  queue_rep q l → sorted q l → (length l < n)%nat →
  ∃ q', loop n (exp_step run now) tt (set_tq q s) =
          Ret tt (set_tq q' (effects q (due q now l) s)) ∧
        queue_rep q' (not_due q now l) ∧
        ∀ t, t ∈ not_due q now l → tm_store q' !! t = tm_store q !! t.
Proof using Hrun.
  induction l as [|t l IH]; intros n q s Hq Hs Hn;
    (destruct n as [|n]; [cbn in Hn; lia|]); rewrite loop_S; unfold exp_step;
    change TmrHead with (tloc_after []);
    rewrite (bind_Ret _ _ _ _ _ (tload_run q s [] _ Hq)); cbn [head].
  - by exists q.
  - destruct (qr_chain _ _ Hq) as (_ & r & Hr & Hc).
    rewrite (gett_run q s t r) by done.
    assert (He : exp_of q t = tmr_exp_time r) by (unfold exp_of; by rewrite Hr).
    destruct (Z.leb_spec (tmr_exp_time r) now) as [Hle|Hlt].
    2:{ rewrite <-He in Hlt. destruct (not_due_all q now t l Hs Hlt) as [-> ->]. by exists q. }
    destruct (tstore_run q s [] (t :: l) l (tmr_next r) Hq) as (q1 & Hst & Hq1 & Hp1).
    { done. }
    { pose proof (qr_nodup _ _ Hq) as Hnd. by apply NoDup_cons in Hnd as [_ ?]. }
    assert (Hst1 : tm_store q1 = tm_store q).
    { revert Hst. unfold modify. cbn. intros [= Hst]. rewrite tq_set, set_set in Hst.
      apply (f_equal tq) in Hst. rewrite !tq_set in Hst. by rewrite <-Hst. }
    rewrite (bind_Ret _ _ _ _ _ Hst). rewrite (putt_run q1 s t r) by (by rewrite Hst1).
    unfold bind at 1. rewrite Hrun. unfold ret.
    set (q2 := q1.[tm_store := _]).
    pose proof (qr_nodup _ _ Hq) as Hnd. apply NoDup_cons in Hnd as [Hni Hnd].
    assert (Hsame : ∀ b, b ∈ l → tm_store q2 !! b = tm_store q !! b).
    { intros b Hb. cbn. rewrite lookup_insert_ne by (intros <-; done). by rewrite Hst1. }
    assert (Hexp : ∀ b, b ∈ l → exp_of q2 b = exp_of q b)
      by (intros b Hb; unfold exp_of; by rewrite Hsame).
    assert (Hdue : due q2 now l = due q now l ∧ not_due q2 now l = not_due q now l).
    { by apply due_ext. }
    destruct Hdue as [Hd Hn'].
    destruct (IH n q2 (eff (tmr_func r) t s)) as (q' & Hloop & Hq' & Hfin).
    { destruct Hq1 as [Hc1 _]. split; [|done]. cbn. by apply chain_insert_ne. }
    { apply StronglySorted_inv in Hs as [Hs _]. by apply (sorted_ext q). }
    { cbn in Hn. lia. }
    exists q'. rewrite Hd in Hloop. rewrite Hn' in Hq', Hfin.
    assert (Hdt : due q now (t :: l) = t :: due q now l).
    { unfold due. by rewrite filter_cons_True by lia. }
    assert (Hnt : not_due q now (t :: l) = not_due q now l).
    { unfold not_due. by rewrite filter_cons_False by lia. }
    assert (Hf : func_of q t = tmr_func r) by (unfold func_of; by rewrite Hr).
    rewrite Hdt, Hnt, effects_cons, Hf. split; [|split; [done|]].
    + etransitivity; [exact Hloop|]. do 2 f_equal. apply effects_ext. intros b [_ Hb]%list_elem_of_filter.
      unfold func_of. by rewrite Hsame.
    + intros b Hb. rewrite Hfin by done. apply Hsame.
      by apply list_elem_of_filter in Hb as [_ ?].
Qed.
End expire.

(** ** Properties *)

(** [tmrs_settimer] removes the timer if it was set and inserts it at its place
    in the order of expiration, after the timers due at the same time; the queue
    stays sorted and duplicate free, no other timer changes, and the reported
    head times are the old and the new earliest expiration. *)
Theorem tmrs_settimer_sorted {S} `{Timed S} (q : tqueue) (s : S) l tp r e w :
  queue_rep q l → sorted q l → tm_store q !! tp = Some r →
  let l' := insert_timer q e tp (without tp l) in
  ∃ q', tmrs_settimer tp e w (set_tq q s) =
          Ret (head_exp q l, head_exp q' l') (set_tq q' s) ∧
        queue_rep q' l' ∧ sorted q' l' ∧ exp_of q' tp = e ∧ func_of q' tp = w ∧
        ∀ t, t ≠ tp → payload <$> tm_store q' !! t = payload <$> tm_store q !! t.
Proof.
  intros Hq Hs Hr l'. destruct (settimer_run q s l tp r e w Hq Hr) as (q' & Hrun & Hq' & Hp).
  exists q'. split; [done|]. split; [done|].
  assert (Hlook : ∀ t, payload <$> tm_store q' !! t =
    if decide (t = tp) then Some (e, w, tmr_arg r) else payload <$> tm_store q !! t).
  { intros t. rewrite <-!lookup_fmap, Hp. cbn. rewrite lookup_fmap. case_decide as Ht.
    - subst t. by rewrite lookup_insert_eq.
    - rewrite lookup_insert_ne by done. by rewrite lookup_fmap. }
  assert (Hother : ∀ t, t ≠ tp → exp_of q' t = exp_of q t).
  { intros t Ht. specialize (Hlook t). rewrite decide_False in Hlook by done.
    unfold exp_of. destruct (tm_store q' !! t) as [r1|], (tm_store q !! t) as [r2|]; try done.
    apply (inj Some) in Hlook. exact (f_equal (λ x, fst (fst x)) Hlook). }
  pose proof (Hlook tp) as Htp. rewrite decide_True in Htp by done.
  unfold func_of. assert (exp_of q' tp = e) as Hetp.
  { unfold exp_of. destruct (tm_store q' !! tp) as [r1|]; [|done].
    apply (inj Some) in Htp. exact (f_equal (λ x, fst (fst x)) Htp). }
  assert (Hwo : ∀ t, t ∈ without tp l → exp_of q' t = exp_of q t).
  { intros t [Hne _]%list_elem_of_filter. auto. }
  split_and!; [|done| |].
  - unfold l'. rewrite <-(insert_timer_ext q q') by done.
    apply insert_timer_sorted; [done|]. apply (sorted_ext q); [done|]. by apply without_sorted.
  - destruct (tm_store q' !! tp) as [r1|]; [|done]. apply (inj Some) in Htp.
    exact (f_equal (λ x, snd (fst x)) Htp).
  - intros t Ht. by rewrite Hlook, decide_False.
Qed.

(** A queue with a log of the watchdogs run, for the witnesses. *)
Definition logged : Type := tqueue * list (Z * tid).
#[export] Program Instance logged_timed : Timed logged := {
  tq := fst; set_tq q s := (q, snd s) }.
Next Obligation. done. Qed.
Next Obligation. done. Qed.
Next Obligation. by intros []. Qed.

Definition log_run (f : Z) (t : tid) : M logged unit :=
  modify (λ s, (fst s, snd s ++ [(f, t)])).

Definition demo_queue : tqueue :=
  TQueue (Some (0, 1)) (list_to_map [
    ((0, 1), Timer (Some (0, 2)) 10 1 None);
    ((0, 2), Timer None 20 2 None);
    ((0, 3), Timer None TMR_NEVER 0 None)]).

Lemma demo_queue_rep : queue_rep demo_queue [(0, 1); (0, 2)].
Proof.
  split; [apply (walk_chain _ _ 5); vm_compute; reflexivity|].
  apply (bool_decide_eq_true_1 _). vm_compute. reflexivity.
Qed.
Lemma demo_queue_sorted : sorted demo_queue [(0, 1); (0, 2)].
Proof. repeat constructor; vm_compute; discriminate. Qed.

Theorem tmrs_settimer_sorted_witness :
  ∃ q', tmrs_settimer (0, 3) 10 7 (demo_queue, []) = Ret (10, 10) (q', []) ∧
        queue_rep q' [(0, 1); (0, 3); (0, 2)].
Proof.
  destruct (tmrs_settimer_sorted demo_queue ((demo_queue, []) : logged) [(0, 1); (0, 2)] (0, 3)
              (Timer None TMR_NEVER 0 None) 10 7 demo_queue_rep demo_queue_sorted)
    as (q' & Hrun & Hq & _ & He & _ & Hother).
  - vm_compute. reflexivity.
  - exists q'. split; [|exact Hq]. etransitivity; [exact Hrun|]. f_equal. f_equal.
    pose proof (Hother (0, 1) ltac:(discriminate)) as H1.
    change (head_exp q' _) with (exp_of q' (0, 1)). unfold exp_of.
    destruct (tm_store q' !! (0, 1)) as [r1|]; [|discriminate H1].
    apply (inj Some) in H1. exact (f_equal (λ x, fst (fst x)) H1).
Defined.

(** [tmrs_exptimers] always ends when the watchdogs leave the queue alone.  It
    runs the watchdogs of exactly the timers that are due, earliest first, and
    leaves the others in the queue untouched. *)
Theorem tmrs_exptimers_due {S} `{Timed S} run eff now n (q : tqueue) (s : S) l :
  (∀ f t q s, run f t (set_tq q s) = Ret tt (set_tq q (eff f t s))) →
  queue_rep q l → sorted q l → (length l < n)%nat →
  ∃ q' next, tmrs_exptimers run n now (set_tq q s) =
          Ret next (set_tq q' (effects eff q (due q now l) s)) ∧
        queue_rep q' (not_due q now l) ∧
        (∀ t, t ∈ not_due q now l → tm_store q' !! t = tm_store q !! t).
Proof.
  intros Hrun Hq Hs Hn.
  destruct (exptimers_loop_run run eff Hrun now l n q s Hq Hs Hn) as (q' & Hl & Hq' & Hsame).
  exists q', (head_exp q' (not_due q now l)). split; [|done].
  unfold tmrs_exptimers. rewrite (bind_Ret _ _ _ _ _ Hl). by apply head_time_run.
Qed.

Theorem tmrs_exptimers_due_witness :
  ∃ q' next, tmrs_exptimers log_run 3 15 ((demo_queue, []) : logged) =
               Ret next (q', [(1, (0, 1))]) ∧ queue_rep q' [(0, 2)].
Proof.
  destruct (tmrs_exptimers_due log_run (λ f t s, (fst s, snd s ++ [(f, t)])) 15 3 demo_queue
              ((demo_queue, []) : logged) [(0, 1); (0, 2)])
    as (q' & next & Hrun & Hq & _).
  - intros f t q [q0 l]. reflexivity.
  - exact demo_queue_rep.
  - exact demo_queue_sorted.
  - cbn. lia.
  - exists q', next. split; [exact Hrun|exact Hq].
Defined.
