(* ===== verification/KTypes.v ===== *)
(** * Kernel data: constants, process and privilege structures, global state

    The C declarations of [src/kernel/proc.h], [priv.h], [type.h], [glo.h],
    [ipc.h] and the configuration headers they use.  A [struct proc *] is a
    pair (VM, process number), as every process structure lives in
    [vm_hyper[vmid].vm_proc]; a [struct priv *] is a pair (VM, privilege id).  The
    constants that the servers share with the kernel, endpoints and the words of
    blocks are here too. *)
From stdpp Require Import base gmap list numbers strings.
From Stdlib Require Import ZArith Lia.
From S2P Require Import Prelude.
From S2P Require Import Timers.

(** ** Configuration ([include/minix/config.h], [sys_config.h], [com.h]) *)
Definition NR_VMS : Z := 4.
Definition NR_TASKS : Z := 4.
Definition NR_PROCS : Z := 100.
Definition NR_SYS_PROCS : Z := 32.
Definition VM0 : Z := 0.
Definition ANY_VM : Z := -1.
Definition IDLE : Z := -4.
Definition CLOCK : Z := -3.
Definition SYSTEM : Z := -2.
Definition HARDWARE : Z := -1.
Definition PM_PROC_NR : Z := 0.
Definition ANY : Z := 0x7ace.
Definition NONE : Z := 0x6ace.
Definition SELF : Z := 0x8ace.
Definition NOT_PROC : Z := 0x400.
Definition MAXTOKENS : Z := 256.
Definition TICKS_TO_SWITCH : Z := 8.
Definition KERNEL_CALL : Z := 0x600.
Definition NOTIFY_MESSAGE : Z := 0x1000.
Definition TASK_LEVEL : Z := 0x0100.
Definition MH_LEVEL (x : Z) : Z := Z.land x 0x0F00.
Definition BITCHUNK_BITS : Z := 16.

(** VM status flags ([include/minix/vmachine.h]). *)
Definition VM_FREE : Z := 0.
Definition VM_LOADED : Z := 1.
Definition VM_RUNNING : Z := 2.

(** Error numbers ([include/errno.h], with [_SYSTEM] defined). *)
Definition OK : Z := 0.
Definition EPERM : Z := -1.
Definition ESRCH : Z := -3.
Definition E2BIG : Z := -7.
Definition EAGAIN : Z := -11.
Definition ENOMEM : Z := -12.
Definition EACCES : Z := -13.
Definition EFAULT : Z := -14.
Definition EINVAL : Z := -22.
Definition ENOSPC : Z := -28.
Definition EDOM : Z := -33.
Definition ERANGE : Z := -34.
Definition ENOSYS : Z := -38.
Definition ELOCKED : Z := -101.
Definition EBADCALL : Z := -102.
Definition EBADSRCDST : Z := -103.
Definition ECALLDENIED : Z := -104.
Definition EDEADSRCDST : Z := -105.
Definition EBADREQUEST : Z := -107.
Definition ESRCDIED : Z := -108.
Definition EDSTDIED : Z := -109.
Definition ETRAPDENIED : Z := -110.
Definition EDONTREPLY : Z := -201.
Definition EBADVMID : Z := -401.
Definition EVMSTATUS : Z := -402.
Definition EVIRTUALTASK : Z := -403.
Definition EPROCSTATUS : Z := -405.
Definition EPROMISCUOUS : Z := -407.

(** Trap numbers ([kernel/ipc.h]). *)
Definition SYSCALL_FUNC : Z := 0x0F.
Definition SEND : Z := 1.
Definition RECEIVE : Z := 2.
Definition SENDREC : Z := 3.
Definition NOTIFY : Z := 4.
Definition HDEBUG : Z := 5.
Definition PRTMSG : Z := 6.
Definition SENDAS : Z := 7.
Definition ECHO : Z := 8.
Definition RECVAS : Z := 9.
Definition SENDVM : Z := 10.
Definition RECVVM : Z := 11.
Definition SENDRECVM : Z := 12.
Definition NOTIFYVM : Z := 13.
Definition NOTIFYAS : Z := 14.
Definition RELAY : Z := 15.

(** Run-time flags, miscellaneous flags and scheduling queues ([kernel/proc.h]). *)
Definition SLOT_FREE : Z := 0x01.
Definition NO_MAP : Z := 0x02.
Definition SENDING : Z := 0x04.
Definition RECEIVING : Z := 0x08.
Definition SIGNALED : Z := 0x10.
Definition SIG_PENDING : Z := 0x20.
Definition P_STOP : Z := 0x40.
Definition NO_PRIV : Z := 0x80.
Definition NO_PRIORITY : Z := 0x100.
Definition NO_ENDPOINT : Z := 0x200.
Definition NOTIFYING : Z := 0x400.

Definition REPLY_PENDING : Z := 0x0001.
Definition VMID_PENDING : Z := 0x0002.
Definition NOT_GETFROM : Z := 0x0004.
Definition PROXY_SERVER : Z := 0x0010.
Definition VIRTUAL_TASK : Z := 0x0020.
Definition PROMICUOUS_TASK : Z := 0x0040.
Definition DISABLED_TASK : Z := 0x0080.
Definition PARAVIR_TASK : Z := 0x1000.

Definition NR_SCHED_QUEUES : Z := 16.
Definition IDLE_Q : Z := 15.

(** Privilege flags ([kernel/priv.h]). *)
Definition PREEMPTIBLE : Z := 0x02.
Definition BILLABLE : Z := 0x04.
Definition SYS_PROC : Z := 0x10.
Definition STACK_GUARD : Z := 0xDEADBEEF.

(** ** Processes, signals, memory and files, as the servers see them *)
Definition INIT_PROC_NR : Z := 8.
Definition FS_PROC_NR : Z := 1.
Definition RS_PROC_NR : Z := 2.
Definition VMM_PROC_NR : Z := 7.
Definition ENOENT : Z := -2.
Definition EIO : Z := -5.
Definition EINTR : Z := -4.
Definition SUSPEND : Z := -998.
Definition CLICK_SHIFT : Z := 12.
Definition CLICK_SIZE : Z := 4096.
Definition HZ : Z := 60.
Definition PRIO_MIN : Z := -20.
Definition PRIO_MAX : Z := 20.
Definition PRIO_STOP : Z := 76.
Definition MAX_USER_Q : Z := 0.
Definition MIN_USER_Q : Z := 14.
Definition SIGKILL : Z := 9.
Definition SIGKSIG : Z := 30.
Definition VMM_LOAD : Z := 0x901.
Definition VMM_KILL : Z := 0x904.
Definition I_TYPE : Z := 0xF000.
Definition I_REGULAR : Z := 0x8000.
Definition X_BIT : Z := 1.
Definition PATH_MAX : Z := 255.
Definition O_NONBLOCK : Z := 2048.

(** ** Endpoints ([src/include/minix/endpoint.h])

    C division and remainder truncate toward zero: [Z.quot] and [Z.rem]. *)
Definition ENDPOINT_GENERATION_SIZE : Z := NR_TASKS + SELF + 1.
Definition ENDPOINT_MAX_GENERATION : Z :=
  (2 ^ 31 - 1) ÷ ENDPOINT_GENERATION_SIZE - 1.
Definition ENDPOINT (g p : Z) : Z := s32 (g * ENDPOINT_GENERATION_SIZE + p).
Definition ENDPOINT_G (e : Z) : Z := s32 (e + NR_TASKS) ÷ ENDPOINT_GENERATION_SIZE.
Definition ENDPOINT_P (e : Z) : Z :=
  Z.rem (s32 (e + NR_TASKS)) ENDPOINT_GENERATION_SIZE - NR_TASKS.

(** A 16-bit or 32-bit word at byte [o] of a union or buffer. *)
Definition get16 (d : Z → Z) (o : Z) : Z := d o + 256 * d (o + 1).
Definition get32 (d : Z → Z) (o : Z) : Z := get16 d o + 65536 * get16 d (o + 2).
Definition put8 (d : Z → Z) (o v : Z) : Z → Z := λ i, if i =? o then v mod 256 else d i.
Definition put16 (d : Z → Z) (o v : Z) : Z → Z := put8 (put8 d o v) (o + 1) (v / 256).
Definition put32 (d : Z → Z) (o v : Z) : Z → Z := put16 (put16 d o v) (o + 2) (v / 65536).

Definition A_SEP : Z := 0x20.

(** ** Messages ([include/minix/ipc.h])

    The union is seven 32-bit words; each variant names some of them.  The
    notification fields of [com.h] are words of [mess_2]. *)
Set Primitive Projections.
Record message := Message {
  m_source : Z;
  m_type : Z;
  m_w0 : Z; m_w1 : Z; m_w2 : Z; m_w3 : Z; m_w4 : Z; m_w5 : Z; m_w6 : Z }.
Unset Primitive Projections.
#[export] Instance message_eta : Eta message := λ m,
  Message (m_source m) (m_type m) (m_w0 m) (m_w1 m) (m_w2 m) (m_w3 m)
    (m_w4 m) (m_w5 m) (m_w6 m).
Abbreviation NOTIFY_VMID := m_w1 (only parsing).
Abbreviation NOTIFY_COUNT := m_w2 (only parsing).
Abbreviation NOTIFY_ARG := m_w3 (only parsing).
Abbreviation NOTIFY_TIMESTAMP := m_w4 (only parsing).
Abbreviation NOTIFY_VMBITMAP := m_w5 (only parsing).

Definition msg0 : message := Message 0 0 0 0 0 0 0 0 0.

(** [NOTIFY_FROM] ([include/minix/com.h]). *)
Definition NOTIFY_FROM (p_nr : Z) : Z := Z.lor NOTIFY_MESSAGE (p_nr + NR_TASKS).

(** ** Process and privilege structures *)
Abbreviation ptr := (option (Z * Z)).

Set Primitive Projections.
Record mem_map := MemMap { mem_vir : Z; mem_phys : Z; mem_len : Z }.

(** [struct far_mem] ([include/minix/type.h]). *)
Record far_mem := FarMem { far_in_use : Z; far_mem_phys : Z; far_mem_len : Z }.

Record proc := Proc {
  p_retreg : Z;
  p_nr : Z;
  p_priv : ptr;
  p_rts_flags : Z;
  p_misc_flags : Z;
  p_priority : Z;
  p_max_priority : Z;
  p_ticks_left : Z;
  p_quantum_size : Z;
  p_memmap_T : mem_map;
  p_memmap_D : mem_map;
  p_memmap_S : mem_map;
  p_user_time : Z;
  p_sys_time : Z;
  p_nextready : ptr;
  p_caller_q : ptr;
  p_q_link : ptr;
  p_messbuf : Z;
  p_getfrom_e : Z;
  p_sendto_e : Z;
  p_pending : Z;
  p_name : string;
  p_endpoint : Z;
  p_vmid : Z;
  p_proxy : Z;
  p_recv_vm : Z }.

Record priv := Priv {
  s_proc_nr : Z;
  s_id : Z;
  s_flags : Z;
  s_trap_mask : Z;
  s_ipc_from : list Z;
  s_ipc_to : list Z;
  s_call_mask : Z;
  s_notify_pending : list Z;
  s_int_pending : Z;
  s_sig_pending : Z;
  s_stack_guard : Z;
  s_vm_bitmap : Z;
  s_dr_bitmap : Z;
  s_call2proxy : Z;
  s_ntfy_cnt : list Z;
  s_nr : list Z;
  s_farmem : list far_mem;
  s_nr_io_range : Z;
  s_io_tab : list (Z * Z);
  s_nr_mem_range : Z;
  s_nr_irq : Z;
  s_irq_tab : list Z;
  s_vmid : Z }.

(** [struct loadinfo] ([include/minix/type.h]). *)
Record loadinfo := LoadInfo {
  proc_load_history : list Z;
  proc_last_slot : Z;
  last_clock : Z }.

(** The fields of [struct vm_struct] that run-time code uses; those that only the
    life cycle of a VM uses are in [vm_boot] below.  [vm_vmm_endpoint] is
    [vm_VMM.vmm_endpoint]. *)
Record vm_struct := VmStruct {
  vm_flags : Z;
  vm_start : Z;
  vm_end : Z;
  vm_tokens : Z;
  vm_bsize : Z;
  vm_time : Z;
  vm_uptime : Z;
  vm_vmm_endpoint : Z;
  vm_kloadinfo : loadinfo;
  vm_pproc_addr : gmap Z (Z * Z);
  vm_ppriv_addr : gmap Z (Z * Z) }.
Unset Primitive Projections.

#[export] Instance mem_map_eta : Eta mem_map := λ r,
  MemMap (mem_vir r) (mem_phys r) (mem_len r).
#[export] Instance far_mem_eta : Eta far_mem := λ r,
  FarMem (far_in_use r) (far_mem_phys r) (far_mem_len r).
#[export] Instance proc_eta : Eta proc := λ r,
  Proc (p_retreg r) (p_nr r) (p_priv r) (p_rts_flags r) (p_misc_flags r)
    (p_priority r) (p_max_priority r) (p_ticks_left r) (p_quantum_size r)
    (p_memmap_T r) (p_memmap_D r) (p_memmap_S r) (p_user_time r) (p_sys_time r)
    (p_nextready r) (p_caller_q r) (p_q_link r) (p_messbuf r) (p_getfrom_e r)
    (p_sendto_e r) (p_pending r) (p_name r) (p_endpoint r) (p_vmid r) (p_proxy r)
    (p_recv_vm r).
#[export] Instance priv_eta : Eta priv := λ r,
  Priv (s_proc_nr r) (s_id r) (s_flags r) (s_trap_mask r) (s_ipc_from r)
    (s_ipc_to r) (s_call_mask r) (s_notify_pending r) (s_int_pending r)
    (s_sig_pending r) (s_stack_guard r) (s_vm_bitmap r) (s_dr_bitmap r)
    (s_call2proxy r) (s_ntfy_cnt r) (s_nr r) (s_farmem r) (s_nr_io_range r)
    (s_io_tab r) (s_nr_mem_range r) (s_nr_irq r) (s_irq_tab r) (s_vmid r).
#[export] Instance loadinfo_eta : Eta loadinfo := λ r,
  LoadInfo (proc_load_history r) (proc_last_slot r) (last_clock r).
#[export] Instance vm_struct_eta : Eta vm_struct := λ r,
  VmStruct (vm_flags r) (vm_start r) (vm_end r) (vm_tokens r) (vm_bsize r) (vm_time r) (vm_uptime r)
    (vm_vmm_endpoint r) (vm_kloadinfo r) (vm_pproc_addr r) (vm_ppriv_addr r).

(** An interrupt hook ([irq_hook_t], [kernel/type.h]).  [hk_next] and the heads
    of the handler lists are pointers to hooks, known by their index in
    [irq_hooks], or [clock_hook] for the hook of the clock task; the handler is
    one of the two functions the kernel installs. *)
Set Primitive Projections.
Record irq_hook := IrqHook {
  hk_next : option Z;
  hk_handler : Z;
  hk_irq : Z;
  hk_id : Z;
  hk_proc_nr_e : Z;
  hk_notify_id : Z;
  hk_policy : Z;
  hk_vmid : Z }.
Unset Primitive Projections.
#[export] Instance irq_hook_eta : Eta irq_hook := λ h,
  IrqHook (hk_next h) (hk_handler h) (hk_irq h) (hk_id h) (hk_proc_nr_e h)
    (hk_notify_id h) (hk_policy h) (hk_vmid h).

(** ** What the life cycle of a VM uses ([include/minix/vmimage.h], [vmachine.h]) *)
Set Primitive Projections.
(** [struct boot_image] and the sizes of [struct image_header] ([minix/image.h]). *)
Record boot_image := BootImage {
  bi_proc_nr : Z;
  bi_flags : Z;
  bi_quantum : Z;
  bi_priority : Z;
  bi_trap_mask : Z;
  bi_ipc_to : Z;
  bi_call_mask : Z;
  bi_proc_name : string;
  bi_endpoint : Z }.
Record image_header := ImageHeader {
  a_text : Z;
  a_total : Z;
  a_syms : Z;
  a_flags : Z }.

(** [vmm_desc_t] with its [imginfo_t], less [vmm_endpoint]. *)
Record vmm_desc := VmmDesc {
  vmm_id : Z;
  img_addr : Z;
  img_stk_addr : Z;
  img_vmsize : Z;
  img_nr_bprocs : Z;
  img_bytes : Z;
  img_hdr : list image_header;
  img_image : list boot_image }.

(** [vm_mmap_t], [vm_drivers_t], [struct kinfo] and [struct machine]; [ki_rest]
    are the fields of [kinfo] that are copied and never changed. *)
Record vm_mmap := VmMmap {
  vmmap_start : mem_map;
  vmmap_image : mem_map;
  vmmap_bottom : mem_map;
  vmmap_top : mem_map }.
Record vm_drv := VmDrv { drv_name : string; drv_type : Z; drv_bitmap : Z }.
Record kinfo_t := Kinfo {
  ki_proc_addr : Z;
  kmem_base : Z;
  kmem_size : Z;
  bootdev_base : Z;
  bootdev_size : Z;
  ramdev_base : Z;
  ramdev_size : Z;
  params_base : Z;
  params_size : Z;
  ki_vmid : Z;
  ki_rest : list Z }.

(** The other fields of [struct vm_struct]. *)
Record vm_boot := VmBoot {
  vm_mmap_of : vm_mmap;
  vm_kinfo : kinfo_t;
  vm_machine : list Z;
  vm_driver : list vm_drv;
  vm_VMM : vmm_desc;
  vm_boot_params : string }.
Unset Primitive Projections.

#[export] Instance vmm_desc_eta : Eta vmm_desc := λ r,
  VmmDesc (vmm_id r) (img_addr r) (img_stk_addr r) (img_vmsize r) (img_nr_bprocs r)
    (img_bytes r) (img_hdr r) (img_image r).
#[export] Instance boot_image_eta : Eta boot_image := λ r,
  BootImage (bi_proc_nr r) (bi_flags r) (bi_quantum r) (bi_priority r) (bi_trap_mask r)
    (bi_ipc_to r) (bi_call_mask r) (bi_proc_name r) (bi_endpoint r).
#[export] Instance vm_mmap_eta : Eta vm_mmap := λ r,
  VmMmap (vmmap_start r) (vmmap_image r) (vmmap_bottom r) (vmmap_top r).
#[export] Instance vm_drv_eta : Eta vm_drv := λ r,
  VmDrv (drv_name r) (drv_type r) (drv_bitmap r).
#[export] Instance kinfo_eta : Eta kinfo_t := λ r,
  Kinfo (ki_proc_addr r) (kmem_base r) (kmem_size r) (bootdev_base r) (bootdev_size r)
    (ramdev_base r) (ramdev_size r) (params_base r) (params_size r) (ki_vmid r) (ki_rest r).
#[export] Instance vm_boot_eta : Eta vm_boot := λ r,
  VmBoot (vm_mmap_of r) (vm_kinfo r) (vm_machine r) (vm_driver r) (vm_VMM r) (vm_boot_params r).

(** [p_promiscuous] is [p_nextready] under another name ([kernel/proc.h]). *)
Abbreviation p_promiscuous := p_nextready (only parsing).

(** ** The kernel's global state

    [procs] and [privs] are the tables inside [vm_hyper]; [vms] and [boots] the
    rest of each [vm_hyper] entry.  [kmem] holds messages by physical address, the
    granularity at which [cp_mess] works.  [m_receive], [m_notify], ... are the
    functions' static message buffers;
    [pmem] is physical memory byte by byte, as [phys_copy] sees it;
    [hooks] holds [irq_hooks] and the hook of the clock; [timers] is [clock_timers] of
    [kernel/clock.c].  [panics] is the log of [panic] calls:
    [panic] returns to its caller. *)
Set Primitive Projections.
Record kstate := KState {
  procs : gmap (Z * Z) proc;
  privs : gmap (Z * Z) priv;
  vms : gmap Z vm_struct;
  rdy_head : gmap Z (Z * Z);
  rdy_tail : gmap Z (Z * Z);
  running_vm : Z;
  proc_ptr : ptr;
  prev_ptr : ptr;
  next_ptr : ptr;
  bill_ptr : ptr;
  systask_ptr : ptr;
  clock_ptr : ptr;
  hard_ptr : ptr;
  idle_ptr : ptr;
  next_vm : Z;
  switch_vm : Z;
  VM_bitmap : Z;
  realtime : Z;
  lost_ticks : Z;
  next_timeout : Z;
  kmem : gmap Z message;
  m_receive : message;
  m_notify : message;
  m_recvas : message;
  m_ntfyas : message;
  m_recvvm : message;
  m_stack : message;
  timers : tqueue;
  who_e : Z;
  who_p : Z;
  pmem : Z → Z;
  hooks : gmap Z irq_hook;
  irq_handlers : list (option Z);
  irq_actids : list Z;
  irq_use : Z;
  boots : gmap Z vm_boot;
  panics : list (string * Z) }.
Unset Primitive Projections.
#[export] Instance kstate_eta : Eta kstate := λ s,
  KState (procs s) (privs s) (vms s) (rdy_head s) (rdy_tail s) (running_vm s)
    (proc_ptr s) (prev_ptr s) (next_ptr s) (bill_ptr s) (systask_ptr s)
    (clock_ptr s) (hard_ptr s) (idle_ptr s) (next_vm s) (switch_vm s)
    (VM_bitmap s) (realtime s) (lost_ticks s) (next_timeout s) (kmem s)
    (m_receive s) (m_notify s) (m_recvas s) (m_ntfyas s) (m_recvvm s)
    (m_stack s) (timers s) (who_e s) (who_p s) (pmem s) (hooks s)
    (irq_handlers s) (irq_actids s) (irq_use s) (boots s) (panics s).

(** [clock_timers] of [kernel/clock.c]; the timer structures are the
    [s_alarm_timer] fields of the privilege structures. *)
#[export] Program Instance kstate_timed : Timed kstate := {
  tq := timers; set_tq q s := s.[timers := q] }.
Next Obligation. done. Qed.
Next Obligation. done. Qed.
Next Obligation. done. Qed.

Abbreviation K := (M kstate).

(** ** Access through pointers *)
Definition getp (p : ptr) : K proc := λ s,
  match p with
  | Some a => match procs s !! a with Some r => Ret r s | None => Crash end
  | None => Crash
  end.

Definition putp (p : ptr) (f : proc → proc) : K unit := λ s,
  match p with
  | Some a =>
      match procs s !! a with
      | Some r => Ret tt (s.[procs := <[a := f r]> (procs s)])
      | None => Crash
      end
  | None => Crash
  end.

Definition getpriv (p : ptr) : K priv := λ s,
  match p with
  | Some a => match privs s !! a with Some r => Ret r s | None => Crash end
  | None => Crash
  end.

Definition putpriv (p : ptr) (f : priv → priv) : K unit := λ s,
  match p with
  | Some a =>
      match privs s !! a with
      | Some r => Ret tt (s.[privs := <[a := f r]> (privs s)])
      | None => Crash
      end
  | None => Crash
  end.

Definition getvm (v : Z) : K vm_struct := λ s,
  match vms s !! v with Some r => Ret r s | None => Crash end.

Definition putvm (v : Z) (f : vm_struct → vm_struct) : K unit := λ s,
  match vms s !! v with
  | Some r => Ret tt (s.[vms := <[v := f r]> (vms s)])
  | None => Crash
  end.

(** [priv(rp)], the macro of [kernel/priv.h]. *)
Definition priv_of (p : ptr) : K priv :=
  let* r := getp p in getpriv (p_priv r).

Definition panic (mess : string) (nr : Z) : K unit :=
  modify (λ s, s.[panics := panics s ++ [(mess, nr)]]).

(** [MHASSERT(C)] of [kernel/debug.h]. *)
Definition MHASSERT (c : bool) : K unit :=
  when (negb c) (panic "proc.c" 0).

(** Pointer-to-pointer locations, as the list code of [proc.c] uses them. *)
Inductive ploc :=
  | RdyHead (q : Z)
  | NextReady (p : Z * Z)
  | CallerQ (p : Z * Z)
  | QLink (p : Z * Z).

(** An index of the arrays [rdy_head] and [rdy_tail]. *)
Definition rdy_index (q : Z) : bool := (0 <=? q) && (q <? NR_SCHED_QUEUES).

Definition load (x : ploc) : K ptr :=
  match x with
  | RdyHead q => λ s, if rdy_index q then Ret (rdy_head s !! q) s else Crash
  | NextReady p => let* r := getp (Some p) in ret (p_nextready r)
  | CallerQ p => let* r := getp (Some p) in ret (p_caller_q r)
  | QLink p => let* r := getp (Some p) in ret (p_q_link r)
  end.

Definition store (x : ploc) (v : ptr) : K unit :=
  match x with
  | RdyHead q => λ s,
      if rdy_index q
      then Ret tt (s.[rdy_head := partial_alter (λ _, v) q (rdy_head s)])
      else Crash
  | NextReady p => putp (Some p) (λ r, r.[p_nextready := v])
  | CallerQ p => putp (Some p) (λ r, r.[p_caller_q := v])
  | QLink p => putp (Some p) (λ r, r.[p_q_link := v])
  end.

Definition load_tail (q : Z) : K ptr := λ s,
  if rdy_index q then Ret (rdy_tail s !! q) s else Crash.
Definition store_tail (q : Z) (v : ptr) : K unit := λ s,
  if rdy_index q
  then Ret tt (s.[rdy_tail := partial_alter (λ _, v) q (rdy_tail s)])
  else Crash.

(** Every process structure is on a list at most once, so a scan of
    [NR_VMS * (NR_TASKS + NR_PROCS) + 1] steps reaches the end of any list. *)
Definition list_fuel : nat := 417.

(** ** Slots and queues *)
(** The addresses of the process structures of all VMs. *)
Definition all_slots : list (Z * Z) :=
  v ← zrange 0 NR_VMS; n ← zrange (- NR_TASKS) NR_PROCS; [(v, n)].

Definition valid_slot (a : Z * Z) : Prop := a ∈ all_slots.
#[export] Instance valid_slot_dec a : Decision (valid_slot a).
Proof. unfold valid_slot. apply _. Defined.

(** A duplicate-free list of slots is shorter than the fuel of the scans. *)
Lemma slots_bound l : NoDup l → Forall valid_slot l → (length l < list_fuel)%nat.
Proof.
  intros Hnd Hall. rewrite Forall_forall in Hall.
  pose proof (NoDup_submseteq l all_slots Hnd Hall) as Hs.
  apply submseteq_length in Hs.
  replace (length all_slots) with 416%nat in Hs by (vm_compute; done).
  unfold list_fuel. lia.
Qed.

(** Where the scan for the end of a caller queue stops. *)
Definition end_loc (d : Z * Z) (l : list (Z * Z)) : ploc :=
  match last l with None => CallerQ d | Some z => QLink z end.
