(* ===== verification/KProc.v ===== *)
(** * Process addressing, endpoints, bit maps and message building

    [proc_addr_vm] and [get_proc_addr] ([src/kernel/utility.c]), the endpoint
    arithmetic of [src/include/minix/endpoint.h], [isokendpt_f] and
    [isokendpt_vm] ([src/kernel/proc.c]), the system bit maps
    ([src/kernel/const.h]) and the message macros [BuildMess] and [CopyMess]. *)
From stdpp Require Import base gmap list numbers strings.
From Stdlib Require Import ZArith Lia.
From S2P Require Import Prelude.
From S2P Require Import KTypes.

(** ** Process table addresses *)
Definition isokprocn (n : Z) : bool := u32 (n + NR_TASKS) <? NR_PROCS + NR_TASKS.
Definition iskerneln (n : Z) : bool := (n <? 0) && (IDLE <=? n).

Definition proc_addr_vm (vmid proc_nr : Z) : K ptr :=
  let* s := get in
  ret (if negb (isokprocn proc_nr) || ((vmid <? VM0) || (NR_VMS <=? vmid))
       then None
       else if proc_nr =? SYSTEM then systask_ptr s
       else if proc_nr =? CLOCK then clock_ptr s
       else if proc_nr =? HARDWARE then hard_ptr s
       else if proc_nr =? IDLE then idle_ptr s
       else Some (vmid, proc_nr)).

Definition get_proc_addr (proc_nr : Z) : K ptr :=
  let* s := get in
  if negb (isokprocn proc_nr) then ret None
  else if (running_vm s <? 0) || (NR_VMS <=? running_vm s) then ret None
  else if proc_nr =? SYSTEM then ret (systask_ptr s)
  else if proc_nr =? CLOCK then ret (clock_ptr s)
  else if proc_nr =? HARDWARE then ret (hard_ptr s)
  else if proc_nr =? IDLE then ret (idle_ptr s)
  else let* vm := getvm (running_vm s) in ret (vm_pproc_addr vm !! proc_nr).

Abbreviation proc_addr := get_proc_addr.

(** [id_to_nr] and [nr_to_id] ([src/kernel/priv.h]). *)
Definition id_to_nr (id : Z) : K Z :=
  let* s := get in
  let* vm := getvm (running_vm s) in
  let* r := getpriv (vm_ppriv_addr vm !! id) in
  ret (s_proc_nr r).

Definition nr_to_id (nr : Z) : K Z :=
  let* rp := proc_addr nr in
  let* r := priv_of rp in
  ret (s_id r).

Definition is_task (p : Z) : bool :=
  (p =? SYSTEM) || (p =? CLOCK) || (p =? HARDWARE) || (p =? IDLE).

(** [isokendpt_f]: the result and the process number stored through [p].  The
    fall-back to the promiscuous process on VM0 only replaces [rp]; the result
    stays 0 on that branch. *)
Definition isokendpt_f (e : Z) (fatalflag : bool) : K (Z * Z) :=
  let p := ENDPOINT_P e in
  if is_task p then ret (1, p)
  else
    let* rp := proc_addr p in
    let* ok :=
      (if negb (isokprocn p) then ret 0
       else
         let* r := getp rp in
         if negb (p_endpoint r =? e) then
           (if band (p_misc_flags r) PROMICUOUS_TASK then
              let* rp := proc_addr_vm VM0 p in
              let* _ := getp rp in
              ret 0
            else ret 0)
         else if p_rts_flags r =? SLOT_FREE then ret 0
         else ret 1) in
    when ((ok =? 0) && fatalflag) (panic "invalid endpoint " e);;;
    ret (ok, p).

Definition isokendpt (e : Z) : K (Z * Z) := isokendpt_f e false.
Definition okendpt (e : Z) : K (Z * Z) := isokendpt_f e true.

Definition isokendpt_vm (vmid e : Z) : K (Z * Z) :=
  let p := ENDPOINT_P e in
  if is_task p then ret (1, p)
  else
    let* rp := proc_addr_vm vmid p in
    let* ok :=
      (if negb (isokprocn p) then ret 0
       else
         let* r := getp rp in
         if negb (p_endpoint r =? e) then
           (if band (p_misc_flags r) PROMICUOUS_TASK then
              let* rp := proc_addr_vm VM0 p in
              let* _ := getp rp in
              ret 0
            else ret 0)
         else if p_rts_flags r =? SLOT_FREE then ret 0
         else ret 1) in
    ret (ok, p).

(** ** Bit maps over system ids ([src/kernel/const.h]) *)
Definition get_sys_bit (map : list Z) (bit : Z) : option bool :=
  c ← aget map (bit ÷ BITCHUNK_BITS);
  Some (band c (Z.shiftl 1 (Z.rem bit BITCHUNK_BITS))).

Definition set_sys_bit (map : list Z) (bit : Z) : option (list Z) :=
  c ← aget map (bit ÷ BITCHUNK_BITS);
  aset map (bit ÷ BITCHUNK_BITS)
    (u16 (Z.lor c (Z.shiftl 1 (Z.rem bit BITCHUNK_BITS)))).

Definition unset_sys_bit (map : list Z) (bit : Z) : option (list Z) :=
  c ← aget map (bit ÷ BITCHUNK_BITS);
  aset map (bit ÷ BITCHUNK_BITS)
    (u16 (bclr c (Z.shiftl 1 (Z.rem bit BITCHUNK_BITS)))).

(** ** Messages *)
Definition get_uptime : K Z :=
  let* s := get in
  let* vm := getvm (running_vm s) in
  ret (s32 (realtime s - vm_uptime vm)).

(** [BuildMess] and [BuildMess_ptr]: fill the kernel's message buffer [m], whose
    other words keep what an earlier notification left there. *)
Definition build_mess (m : message) (src : Z) (src_ptr dst_ptr : ptr) : K message :=
  let* sp := getp src_ptr in
  let* t := get_uptime in
  let* dp := priv_of dst_ptr in
  let* spr := getpriv (p_priv sp) in
  let* cnt := of_option (aget (s_ntfy_cnt dp) (s_id spr)) in
  let m := m.[m_source := p_endpoint sp].[m_type := NOTIFY_FROM src]
            .[NOTIFY_TIMESTAMP := t].[NOTIFY_VMID := p_vmid sp]
            .[NOTIFY_VMBITMAP := s_vm_bitmap dp].[NOTIFY_COUNT := cnt] in
  if src =? HARDWARE then
    let* s := get in
    let* hp := priv_of (hard_ptr s) in
    let* hcnt := of_option (aget (s_ntfy_cnt dp) (s_id hp)) in
    let* dst := getp dst_ptr in
    when (hcnt =? 0) (putpriv (p_priv dst) (λ r, r.[s_int_pending := 0]));;;
    ret (m.[NOTIFY_ARG := s_int_pending dp])
  else if src =? SYSTEM then
    let* dst := getp dst_ptr in
    putpriv (p_priv dst) (λ r, r.[s_sig_pending := 0]);;;
    ret (m.[NOTIFY_ARG := s_sig_pending dp])
  else ret m.

Definition BuildMess (m : message) (src : Z) (dst_ptr : ptr) : K message :=
  let* sp := proc_addr src in build_mess m src sp dst_ptr.

Definition BuildMess_ptr (m : message) (src_ptr dst_ptr : ptr) : K message :=
  let* sp := getp src_ptr in build_mess m (p_nr sp) src_ptr dst_ptr.

(** [cp_mess] copies a message between physical addresses and overwrites its
    source word. *)
Definition phys_addr (clicks vir : Z) : Z := u32 (Z.shiftl clicks 12 + vir).

Definition cp_mess (src_ep src_clicks src_vir dst_clicks dst_vir : Z) : K unit :=
  modify (λ s,
    let m := default msg0 (kmem s !! phys_addr src_clicks src_vir) in
    s.[kmem := <[phys_addr dst_clicks dst_vir := m.[m_source := src_ep]]> (kmem s)]).

Definition CopyMess_ep (sep : Z) (sp : ptr) (sm : Z) (dp : ptr) (dm : Z) : K unit :=
  let* s := getp sp in
  let* d := getp dp in
  cp_mess sep (mem_phys (p_memmap_D s)) sm (mem_phys (p_memmap_D d)) dm.

(** [CopyMess_ep] from the kernel's own buffer [m]. *)
Definition CopyMess_kernel (sep : Z) (m : message) (dp : ptr) (dm : Z) : K unit :=
  let* d := getp dp in
  modify (λ s, s.[kmem := <[phys_addr (mem_phys (p_memmap_D d)) dm :=
                            m.[m_source := sep]]> (kmem s)]).
