(* ===== verification/KSched.v ===== *)
(** * The scheduler: [sched], [pick_proc], [enqueue], [dequeue]

    [src/kernel/proc.c].  The ready queues are linked through [p_nextready];
    the code walks them with pointer pointers, here [ploc] locations. *)
From stdpp Require Import base gmap list numbers strings.
From Stdlib Require Import ZArith Lia.
From S2P Require Import Prelude.
From S2P Require Import KTypes.
From S2P Require Import KProc.

(** ** [sched]: returns the queue and whether to insert at its front *)
Definition sched (rp : ptr) : K (Z * bool) :=
  let* r := getp rp in
  let time_left := 0 <? p_ticks_left r in
  when (negb time_left)
    (putp rp (λ r, r.[p_ticks_left := p_quantum_size r]);;;
     when (p_priority r <? IDLE_Q - 1)
       (putp rp (λ r, r.[p_priority := s8 (p_priority r + 1)])));;;
  let* r := getp rp in
  ret (p_priority r, time_left).

(** ** [pick_proc] *)

(** The candidates the scan keeps: task with tokens, process of [next_vm],
    process with tokens, task without tokens, any process. *)
Record cands := Cands {
  rp_TwT : ptr; rp_nvmT : ptr; rp_PwT : ptr; rp_TwoT : ptr; rp_PwoT : ptr }.

Definition no_cands : cands := Cands None None None None None.

Definition is_null (p : ptr) : bool := match p with None => true | Some _ => false end.

(** The chain of tests on one ready process of a VM other than VM0. *)
Definition update_cands (c : cands) (p : Z * Z) (task tokens nvm nvm_on : bool) : cands :=
  let c' :=
    if is_null (rp_TwT c) then
      (if task && tokens
       then Cands (Some p) (rp_nvmT c) (rp_PwT c) (rp_TwoT c) (rp_PwoT c) else c)
    else if is_null (rp_nvmT c) && nvm_on then
      (if nvm
       then Cands (rp_TwT c) (Some p) (rp_PwT c) (rp_TwoT c) (rp_PwoT c) else c)
    else if is_null (rp_PwT c) then
      (if negb task && tokens
       then Cands (rp_TwT c) (rp_nvmT c) (Some p) (rp_TwoT c) (rp_PwoT c) else c)
    else if is_null (rp_TwoT c) then
      (if task
       then Cands (rp_TwT c) (rp_nvmT c) (rp_PwT c) (Some p) (rp_PwoT c) else c)
    else c in
  if is_null (rp_PwoT c')
  then Cands (rp_TwT c') (rp_nvmT c') (rp_PwT c') (rp_TwoT c') (Some p) else c'.

Definition bill (p : ptr) : K unit :=
  let* pr := priv_of p in
  when (band (s_flags pr) BILLABLE) (modify (λ s, s.[bill_ptr := p])).

(** One queue: [inr None] is the early [return] of the C code. *)
Definition pick_scan : ptr * cands → K (ptr * cands + option cands) := λ '(rp, c),
  match rp with
  | None => ret (inr (Some c))
  | Some p =>
      modify (λ s, s.[next_ptr := rp]);;;
      let* r := getp rp in
      if (p_nr r =? SYSTEM) || (p_nr r =? CLOCK) then ret (inr None)
      else if p_vmid r =? VM0 then bill rp;;; ret (inr None)
      else
        let* rvm := getvm (p_vmid r) in
        let* s := get in
        let c' := update_cands c p (MH_LEVEL (p_misc_flags r) =? TASK_LEVEL)
                    (0 <? vm_tokens rvm) (p_vmid r =? next_vm s)
                    (negb (next_vm s =? VM0)) in
        ret (inl (p_nextready r, c'))
  end.

Fixpoint pick_queues (qs : list Z) (c : cands) : K (option cands) :=
  match qs with
  | [] => ret (Some c)
  | q :: qs =>
      let* rp := load (RdyHead q) in
      let* r := loop list_fuel pick_scan (rp, c) in
      match r with
      | None => ret None
      | Some c => pick_queues qs c
      end
  end.

Definition pick_proc : K unit :=
  let* r := pick_queues (zrange 0 (NR_SCHED_QUEUES - 1)) no_cands in
  match r with
  | None => skip
  | Some c =>
      let* next :=
        (if negb (is_null (rp_TwT c)) then ret (rp_TwT c)
         else if negb (is_null (rp_nvmT c)) then ret (rp_nvmT c)
         else if negb (is_null (rp_PwT c)) then ret (rp_PwT c)
         else if negb (is_null (rp_TwoT c)) then ret (rp_TwoT c)
         else if negb (is_null (rp_PwoT c)) then ret (rp_PwoT c)
         else load (RdyHead IDLE_Q)) in
      modify (λ s, s.[next_ptr := next]);;;
      bill next
  end.

(** ** [enqueue] *)
Definition enqueue (rp : ptr) : K unit :=
  let* '(q, front) := sched rp in
  let* s := get in
  let* r := getp rp in
  let* cur := getp (proc_ptr s) in
  let front :=
    if ((p_nr r =? CLOCK) && (p_nr cur =? SYSTEM))
       || ((p_nr r =? SYSTEM) && (p_nr cur =? CLOCK))
    then false else front in
  let* head := load (RdyHead q) in
  (if is_null head then
     store_tail q rp;;;
     store (RdyHead q) rp;;;
     putp rp (λ r, r.[p_nextready := None])
   else if front then
     putp rp (λ r, r.[p_nextready := head]);;;
     store (RdyHead q) rp
   else
     let* tail := load_tail q in
     putp tail (λ r, r.[p_nextready := rp]);;;
     store_tail q rp;;;
     putp rp (λ r, r.[p_nextready := None]));;;
  pick_proc.

(** ** [dequeue] *)
Definition ptr_eqb (p q : ptr) : bool := bool_decide (p = q).

(** The search loop over one queue; its state is the pointer pointer [xpp] and
    the previous process. *)
Definition dequeue_scan (rp : ptr) (q : Z) :
    ploc * ptr → K ((ploc * ptr) + unit) := λ '(xpp, prev_xp),
  let* x := load xpp in
  match x with
  | None => ret (inr tt)
  | Some p =>
      if ptr_eqb x rp then
        let* r := getp x in
        store xpp (p_nextready r);;;
        let* tail := load_tail q in
        when (ptr_eqb rp tail) (store_tail q prev_xp);;;
        let* s := get in
        when (ptr_eqb rp (proc_ptr s) || ptr_eqb rp (next_ptr s)) pick_proc;;;
        ret (inr tt)
      else ret (inl (NextReady p, x))
  end.

Definition dequeue (rp : ptr) : K unit :=
  let* r := getp rp in
  let q := p_priority r in
  (if iskerneln (p_nr r) then
     let* pr := priv_of rp in
     when (negb (s_stack_guard pr =? STACK_GUARD))
       (panic "stack overrun by task" (p_nr r))
   else skip);;;
  loop list_fuel (dequeue_scan rp q) (RdyHead q, None).
