(* ===== verification/KIpcSend.v ===== *)
(** * Sending: [MH_send], [MH_notify] and [notify_proxy]

    [src/kernel/proc.c].  A function's [return] in the middle of its body is an
    [inl] result of the part before it; debug tracing is left out.  What sending
    and receiving share (unblocking a process, appending it to a caller queue) is
    here too. *)
From stdpp Require Import base gmap list numbers strings.
From Stdlib Require Import ZArith Lia.
From S2P Require Import Prelude.
From S2P Require Import KTypes.
From S2P Require Import KProc.
From S2P Require Import KSched.

(** ** Shared steps *)

(** [1 << n] on a 32-bit machine. *)
Definition bit32 (n : Z) : Z := u32 (Z.shiftl 1 (n mod 32)).

(** [p->p_rts_flags &= ~flags; if (p->p_rts_flags == 0) enqueue(p)]. *)
Definition unblock (p : ptr) (flags : Z) : K unit :=
  putp p (λ r, r.[p_rts_flags := bclr (p_rts_flags r) flags]);;;
  let* r := getp p in
  when (p_rts_flags r =? 0) (enqueue p).

(** The scan for the end of a caller queue and the insertion there. *)
Definition end_scan : ploc → K (ploc + ploc) := λ xpp,
  let* x := load xpp in
  match x with
  | None => ret (inr xpp)
  | Some p => ret (inl (QLink p))
  end.

Definition append_caller (dst : ptr) (caller : ptr) : K unit :=
  match dst with
  | None => crash
  | Some d =>
      let* xpp := loop list_fuel end_scan (CallerQ d) in
      store xpp caller;;;
      putp caller (λ r, r.[p_q_link := None])
  end.

Definition is_receiving (r : proc) : bool :=
  Z.land (p_rts_flags r) (Z.lor RECEIVING SENDING) =? RECEIVING.

(** A process with [VMID_PENDING] waits in [MH_recvvm]: its filter on virtual
    machines and sources, for a message of [c]. *)
Definition vm_source_ok (d c : proc) : bool :=
  (p_getfrom_e d =? p_endpoint c) || (p_getfrom_e d =? ANY)
  || band (p_misc_flags d) NOT_GETFROM.
Definition not_getfrom_match (d c : proc) : bool :=
  band (p_misc_flags d) NOT_GETFROM && (p_getfrom_e d =? p_nr c).

(** ** [MH_send] *)

(** The branch for a paravirtualised caller whose kernel call may be served by
    SYSTASK instead of the proxy: the resulting [dst_ptr]. *)
Definition send_paravirtual (caller_ptr : ptr) (m_ptr : Z) (dst_ptr : ptr) : K ptr :=
  let* d := getp dst_ptr in
  let* c := getp caller_ptr in
  if (p_nr d =? SYSTEM)
     && (Z.land (p_misc_flags c) (Z.lor PARAVIR_TASK REPLY_PENDING)
           =? Z.lor PARAVIR_TASK REPLY_PENDING) then
    let* s := get in
    let m := default msg0 (kmem s !! phys_addr (mem_phys (p_memmap_D c)) m_ptr) in
    let call_nr := s32 (m_type m - KERNEL_CALL) in
    let* cp := priv_of caller_ptr in
    if negb (band (s_call2proxy cp) (bit32 call_nr)) then proc_addr SYSTEM
    else ret dst_ptr
  else ret dst_ptr.

(** The proxy of the running VM, for a caller in that VM. *)
Definition virtual_proxy (caller_ptr : ptr) : K (Z + ptr) :=
  let* s := get in
  let* vm := getvm (running_vm s) in
  let* '(ok, proxy_nr) := isokendpt_vm VM0 (vm_vmm_endpoint vm) in
  if ok =? 0 then ret (inl EVIRTUALTASK)
  else
    let* dst0_ptr := proc_addr_vm VM0 proxy_nr in
    let* d0 := getp dst0_ptr in
    let* c := getp caller_ptr in
    if negb (p_proxy d0 =? p_vmid c) then ret (inl EVIRTUALTASK)
    else ret (inr dst0_ptr).

(** The destination of a message from a caller inside a VM: the descriptor that
    receives it and the descriptor in the caller's VM. *)
Definition send_redirect (caller_ptr : ptr) (m_ptr : Z) (dst_ptr : ptr) :
    K (Z + (ptr * ptr)) :=
  let* c := getp caller_ptr in
  let* d := getp dst_ptr in
  if band (p_misc_flags d) PROMICUOUS_TASK then
    let dst0_ptr := p_promiscuous d in
    let* d0p := priv_of dst0_ptr in
    if band (s_vm_bitmap d0p) (bit32 (p_vmid c))
    then ret (inr (dst0_ptr, dst_ptr))
    else ret (inl EPROMISCUOUS)
  else if band (p_misc_flags d) VIRTUAL_TASK then
    let* dst' := send_paravirtual caller_ptr m_ptr dst_ptr in
    let* d' := getp dst' in
    if band (p_misc_flags d') VIRTUAL_TASK then
      let* p := virtual_proxy caller_ptr in
      match p with
      | inl e => ret (inl e)
      | inr _ => ret (inr (dst', dst'))
      end
    else ret (inr (dst', dst_ptr))
  else ret (inr (dst_ptr, dst_ptr)).

Definition send_resolve (caller_ptr : ptr) (dst_ep m_ptr : Z) : K (Z + (ptr * ptr)) :=
  let* '(rcode, dst_p) := isokendpt dst_ep in
  if rcode =? 0 then ret (inl EDSTDIED)
  else
    let* c := getp caller_ptr in
    let* dst_ptr :=
      (if band (p_misc_flags c) PARAVIR_TASK && (dst_p =? SYSTEM) then
         let* s := get in
         MHASSERT (VM0 <? running_vm s);;;
         ret (Some (running_vm s, SYSTEM))
       else proc_addr dst_p) in
    let* d := getp dst_ptr in
    if band (p_rts_flags d) NO_ENDPOINT then ret (inl EDSTDIED)
    else if VM0 <? p_vmid c then send_redirect caller_ptr m_ptr dst_ptr
    else ret (inr (dst_ptr, dst_ptr)).

(** Delivery to a waiting destination; [false] when it does not wait for this
    message. *)
Definition send_deliver (caller_ptr : ptr) (m_ptr : Z) (dst_ptr dstX_ptr : ptr) :
    K bool :=
  let* d := getp dst_ptr in
  let* c := getp caller_ptr in
  if negb (is_receiving d) then ret false
  else if band (p_misc_flags d) VMID_PENDING then
    let* dX := getp dstX_ptr in
    MHASSERT (band (p_misc_flags dX) PROMICUOUS_TASK || (p_vmid c =? VM0));;;
    if not_getfrom_match d c then ret false
    else if ((p_recv_vm d =? ANY_VM) || (p_recv_vm d =? p_vmid c))
            && vm_source_ok d c then
      CopyMess_ep (p_endpoint c) caller_ptr m_ptr dst_ptr (p_messbuf d);;;
      putp dst_ptr (λ r,
        r.[p_retreg := u32 (p_vmid c)]
         .[p_misc_flags := bclr (p_misc_flags r)
             (Z.lor (Z.lor VMID_PENDING NOT_GETFROM) REPLY_PENDING)]
         .[p_getfrom_e := NONE].[p_recv_vm := ANY_VM]);;;
      unblock dst_ptr RECEIVING;;;
      ret true
    else ret false
  else
    MHASSERT (negb (band (p_misc_flags d) NOT_GETFROM));;;
    if ((p_vmid d =? p_vmid c) || (p_nr d =? SYSTEM))
       && ((p_getfrom_e d =? ANY) || (p_getfrom_e d =? p_endpoint c)) then
      let* s := get in
      when (p_nr d =? SYSTEM)
        (putp (systask_ptr s) (λ r, r.[p_vmid := p_vmid c]));;;
      CopyMess_ep (p_endpoint c) caller_ptr m_ptr dst_ptr (p_messbuf d);;;
      putp dst_ptr (λ r,
        r.[p_misc_flags := bclr (p_misc_flags r)
             (Z.lor (Z.lor VMID_PENDING NOT_GETFROM) REPLY_PENDING)]
         .[p_getfrom_e := NONE].[p_recv_vm := ANY_VM]);;;
      unblock dst_ptr RECEIVING;;;
      ret true
    else ret false.

(** The caller blocks at the end of the destination's queue. *)
Definition block_sender (caller_ptr : ptr) (m_ptr dst_ep : Z) (dst_ptr : ptr) : K unit :=
  putp caller_ptr (λ r, r.[p_messbuf := m_ptr]);;;
  let* c := getp caller_ptr in
  when (p_rts_flags c =? 0) (dequeue caller_ptr);;;
  putp caller_ptr (λ r,
    r.[p_rts_flags := Z.lor (p_rts_flags r) SENDING].[p_sendto_e := dst_ep]);;;
  append_caller dst_ptr caller_ptr.

(** ** [MH_notify] and [notify_proxy] *)

(** [notify_proxy], given [MH_notify]. *)
Definition notify_proxy_with (notify : ptr → Z → K Z) (driver_id : Z) : K Z :=
  let* s := get in
  let* vm := getvm (running_vm s) in
  let proxy_nr := ENDPOINT_P (vm_vmm_endpoint vm) in
  let* px := proc_addr_vm VM0 proxy_nr in
  let* p := getp px in
  let* pr := getpriv (p_priv p) in
  if band (s_dr_bitmap pr) (bit32 driver_id) then
    putpriv (p_priv p) (λ r, r.[s_int_pending := bit32 driver_id]);;;
    modify (λ s, s.[running_vm := VM0]);;;
    let* hw := proc_addr_vm VM0 HARDWARE in
    let* rcode := notify hw proxy_nr in
    modify (λ s', s'.[running_vm := running_vm s]);;;
    ret rcode
  else ret EACCES.

(** Destination of a notification: [dst_ptr], [dstX_ptr] and [dst0_ptr]. *)
Definition notify_resolve (caller_ptr : ptr) (dst_p : Z) :
    K (Z + (ptr * ptr * ptr)) :=
  let* dst_ptr := proc_addr dst_p in
  let* d := getp dst_ptr in
  let* c := getp caller_ptr in
  if band (p_rts_flags d) NO_ENDPOINT then ret (inl EDSTDIED)
  else if negb (p_vmid c =? VM0) then
    if band (p_misc_flags d) PROMICUOUS_TASK then
      let dst0_ptr := p_promiscuous d in
      let* expected := proc_addr_vm VM0 dst_p in
      MHASSERT (ptr_eqb dst0_ptr expected);;;
      let* d0p := priv_of dst0_ptr in
      if band (s_vm_bitmap d0p) (bit32 (p_vmid c)) then
        let* d0 := getp dst0_ptr in
        MHASSERT (band (p_misc_flags d0) VMID_PENDING);;;
        ret (inr (dst0_ptr, dst_ptr, dst0_ptr))
      else ret (inl EPROMISCUOUS)
    else if band (p_misc_flags d) VIRTUAL_TASK then
      let* p := virtual_proxy caller_ptr in
      match p with
      | inl e => ret (inl e)
      | inr dst0_ptr => ret (inr (dst_ptr, dst_ptr, dst0_ptr))
      end
    else ret (inr (dst_ptr, dst_ptr, None))
  else ret (inr (dst_ptr, dst_ptr, None)).

(** Delivery of a notification to a waiting destination. *)
Definition notify_deliver (caller_ptr dst_ptr dstX_ptr : ptr) : K bool :=
  let* d := getp dst_ptr in
  let* dX := getp dstX_ptr in
  let* c := getp caller_ptr in
  if negb (is_receiving d && negb (band (p_misc_flags d) REPLY_PENDING))
  then ret false
  else if band (p_misc_flags d) VMID_PENDING then
    MHASSERT (band (p_misc_flags dX) PROMICUOUS_TASK || (p_vmid c =? VM0));;;
    if not_getfrom_match d c then ret false
    else if ((p_recv_vm d =? ANY_VM) || (p_recv_vm d =? p_vmid c)
             || (p_nr c =? HARDWARE)) && vm_source_ok d c then
      let* s := get in
      let* m := BuildMess_ptr (m_notify s) caller_ptr dst_ptr in
      modify (λ s, s.[m_notify := m]);;;
      CopyMess_kernel (p_endpoint c) m dst_ptr (p_messbuf d);;;
      putp dst_ptr (λ r,
        r.[p_retreg := u32 (if p_nr c =? HARDWARE then
                              (if p_recv_vm d =? ANY_VM then VM0 else p_recv_vm d)
                            else p_vmid c)]
         .[p_misc_flags := bclr (p_misc_flags r) (Z.lor VMID_PENDING NOT_GETFROM)]
         .[p_recv_vm := ANY_VM].[p_getfrom_e := NONE]);;;
      unblock dst_ptr RECEIVING;;;
      ret true
    else ret false
  else
    MHASSERT (negb (band (p_misc_flags d) NOT_GETFROM));;;
    if negb (p_vmid c =? VM0) && band (p_misc_flags dX) PROMICUOUS_TASK
    then ret false
    else if (p_getfrom_e d =? ANY) || (p_getfrom_e d =? p_endpoint c) then
      let* s := get in
      when (p_nr d =? SYSTEM)
        (putp (systask_ptr s) (λ r, r.[p_vmid := p_vmid c]));;;
      let* m := BuildMess_ptr (m_notify s) caller_ptr dst_ptr in
      modify (λ s, s.[m_notify := m]);;;
      CopyMess_kernel (p_endpoint c) m dst_ptr (p_messbuf d);;;
      putp dst_ptr (λ r, r.[p_getfrom_e := NONE]);;;
      unblock dst_ptr RECEIVING;;;
      ret true
    else ret false.

(** A notification that cannot be delivered is counted in the destination's
    privilege structure, under the source's system id. *)
Definition notify_pend (src_id : Z) (dst_ptr : ptr) : K unit :=
  let* d := getp dst_ptr in
  let* dp := getpriv (p_priv d) in
  let* map := of_option (set_sys_bit (s_notify_pending dp) src_id) in
  let* n := of_option (aget (s_ntfy_cnt dp) src_id) in
  let* cnt := of_option (aset (s_ntfy_cnt dp) src_id (u8 (n + 1))) in
  putpriv (p_priv d) (λ r, r.[s_notify_pending := map].[s_ntfy_cnt := cnt]).

(** [MH_notify], given [notify_proxy]. *)
Definition MH_notify_with (notify_proxy : Z → K Z) (caller_ptr : ptr) (dst_p : Z) : K Z :=
  let* r := notify_resolve caller_ptr dst_p in
  match r with
  | inl e => ret e
  | inr (dst_ptr, dstX_ptr, dst0_ptr) =>
      let* done := notify_deliver caller_ptr dst_ptr dstX_ptr in
      if done : bool then ret OK
      else
        let* c := getp caller_ptr in
        let* dX := getp dstX_ptr in
        if negb (p_vmid c =? VM0)
           && (band (p_misc_flags dX) PROMICUOUS_TASK
               || band (p_misc_flags dX) VIRTUAL_TASK) then
          dequeue caller_ptr;;;
          putp caller_ptr (λ r, r.[p_rts_flags := Z.lor (p_rts_flags r) NOTIFYING]);;;
          append_caller (if band (p_misc_flags dX) PROMICUOUS_TASK
                         then dst0_ptr else dstX_ptr) caller_ptr;;;
          putp caller_ptr (λ r, r.[p_sendto_e := p_endpoint dX]);;;
          if band (p_misc_flags dX) VIRTUAL_TASK then
            let* d0p := priv_of dst0_ptr in notify_proxy (s_id d0p)
          else ret OK
        else
          let* cp := priv_of caller_ptr in
          notify_pend (s_id cp) dst_ptr;;;
          ret OK
  end.

(** [MH_notify] and [notify_proxy] call each other; the proxy is notified on
    behalf of HARDWARE, which runs on VM0, so the second level never notifies a
    proxy again and a depth of two is enough. *)
Fixpoint MH_notify_n (n : nat) (caller_ptr : ptr) (dst_p : Z) : K Z :=
  match n with
  | O => spin
  | S n => MH_notify_with (notify_proxy_with (MH_notify_n n)) caller_ptr dst_p
  end.

Definition MH_notify : ptr → Z → K Z := MH_notify_n 2.
Definition notify_proxy : Z → K Z := notify_proxy_with MH_notify.

Definition MH_send (caller_ptr : ptr) (dst_ep m_ptr : Z) : K Z :=
  let* r := send_resolve caller_ptr dst_ep m_ptr in
  match r with
  | inl e => ret e
  | inr (dst_ptr, dstX_ptr) =>
      let* done := send_deliver caller_ptr m_ptr dst_ptr dstX_ptr in
      if done : bool then ret OK
      else
        block_sender caller_ptr m_ptr dst_ep dst_ptr;;;
        let* c := getp caller_ptr in
        let* d := getp dst_ptr in
        if negb (p_vmid c =? VM0) && band (p_misc_flags d) VIRTUAL_TASK then
          let* dp := priv_of dst_ptr in notify_proxy (s_id dp)
        else ret OK
  end.
