(* ===== verification/KIpcVm.v ===== *)
(** * Sending on behalf of others: [MH_sendas], [MH_ntfyas], [MH_sendvm],
      [MH_ntfyvm] and [MH_relay]

    [src/kernel/proc.c].  A proxy on VM0 speaks as a virtual task of the VM it
    represents; a promiscuous process on VM0 speaks to any VM it serves. *)
From stdpp Require Import base gmap list numbers strings.
From Stdlib Require Import ZArith Lia.
From S2P Require Import Prelude.
From S2P Require Import KTypes.
From S2P Require Import KProc.
From S2P Require Import KSched.
From S2P Require Import KIpcSend.

(** A destination reserved to the hypervisor cannot be addressed from VM0. *)
Definition is_pseudo (r : proc) : bool :=
  band (p_misc_flags r) VIRTUAL_TASK || band (p_misc_flags r) PROMICUOUS_TASK.

(** ** [MH_sendas] *)
Definition MH_sendas (caller_ptr : ptr) (dst_ep m_ptr src_ep : Z) : K Z :=
  let* c := getp caller_ptr in
  let dst_vmid := p_proxy c in
  let* '(ok, dst_p) := isokendpt_vm dst_vmid dst_ep in
  if ok =? 0 then ret EDSTDIED
  else
    let* dst_ptr := proc_addr_vm dst_vmid dst_p in
    let* d := getp dst_ptr in
    if band (p_rts_flags d) NO_ENDPOINT then ret EDSTDIED
    else if is_pseudo d then ret EBADSRCDST
    else
      let* src_ptr :=
        (if dst_p =? SYSTEM then ret (Some (dst_vmid, SYSTEM))
         else proc_addr_vm dst_vmid src_ep) in
      let* sp := getp src_ptr in
      if negb (band (p_misc_flags sp) VIRTUAL_TASK) then ret EVIRTUALTASK
      else if negb (band (p_rts_flags d) RECEIVING) then ret EPROCSTATUS
      else if band (p_rts_flags d) SENDING then ret EPROCSTATUS
      else if negb (p_getfrom_e d =? p_endpoint sp) && negb (p_getfrom_e d =? ANY)
      then ret ESRCDIED
      else
        putp dst_ptr (λ r, r.[p_getfrom_e := NONE]);;;
        CopyMess_ep (p_endpoint sp) caller_ptr m_ptr dst_ptr (p_messbuf d);;;
        unblock dst_ptr RECEIVING;;;
        ret OK.

(** ** [MH_ntfyas] *)
Definition MH_ntfyas (caller_ptr : ptr) (dst_p src_p : Z) : K Z :=
  let* c := getp caller_ptr in
  let dst_vmid := p_proxy c in
  let* dst_ptr := proc_addr_vm dst_vmid dst_p in
  let* d := getp dst_ptr in
  if band (p_rts_flags d) NO_ENDPOINT then ret EDSTDIED
  else if is_pseudo d then ret EBADSRCDST
  else
    let* src_ptr := proc_addr_vm dst_vmid src_p in
    let* sp := getp src_ptr in
    if negb (band (p_misc_flags sp) VIRTUAL_TASK) then ret EVIRTUALTASK
    else if is_receiving d && negb (band (p_misc_flags d) REPLY_PENDING)
            && ((p_getfrom_e d =? ANY) || (p_getfrom_e d =? p_endpoint sp)) then
      let* s := get in
      let* m := BuildMess_ptr (m_ntfyas s) src_ptr dst_ptr in
      modify (λ s, s.[m_ntfyas := m]);;;
      CopyMess_kernel (p_endpoint sp) m dst_ptr (p_messbuf d);;;
      putp dst_ptr (λ r, r.[p_getfrom_e := NONE].[p_recv_vm := ANY_VM]);;;
      unblock dst_ptr RECEIVING;;;
      ret OK
    else
      let* spp := priv_of src_ptr in
      notify_pend (s_id spp) dst_ptr;;;
      ret OK.

(** ** [MH_sendvm], compiled with [MH_BLOCK_CALLER] *)

(** The descriptor of the promiscuous process [caller_ptr] in VM [vmid]. *)
Definition caller_in_vm (caller_ptr : ptr) (vmid : Z) : K ptr :=
  let* cp := priv_of caller_ptr in
  let* nr := of_option (aget (s_nr cp) vmid) in
  proc_addr_vm vmid nr.

Definition MH_sendvm (caller_ptr : ptr) (dst_ep m_ptr dst_vmid : Z) : K Z :=
  let* '(ok, dst_p) := isokendpt_vm dst_vmid dst_ep in
  if ok =? 0 then ret EDSTDIED
  else
    let* dst_ptr := proc_addr_vm dst_vmid dst_p in
    let* d := getp dst_ptr in
    if band (p_rts_flags d) NO_ENDPOINT then ret EDSTDIED
    else if is_pseudo d then ret EBADSRCDST
    else
      let* callerX_ptr := caller_in_vm caller_ptr dst_vmid in
      let* c := getp caller_ptr in
      when (band (p_misc_flags c) REPLY_PENDING)
        (putp caller_ptr (λ r, r.[p_misc_flags := Z.lor (p_misc_flags r) VMID_PENDING]));;;
      let* d := getp dst_ptr in
      let* done :=
        (if is_receiving d then
           MHASSERT (negb (band (p_misc_flags d) NOT_GETFROM));;;
           let* cX := getp callerX_ptr in
           if (p_getfrom_e d =? ANY) || (p_getfrom_e d =? p_endpoint cX) then
             CopyMess_ep (p_endpoint cX) caller_ptr m_ptr dst_ptr (p_messbuf d);;;
             putp dst_ptr (λ r, r.[p_getfrom_e := NONE]);;;
             unblock dst_ptr RECEIVING;;;
             ret true
           else ret false
         else ret false) in
      if done : bool then ret OK
      else
        block_sender caller_ptr m_ptr dst_ep dst_ptr;;;
        ret OK.

(** ** [MH_ntfyvm]: its message buffer is on the stack *)
Definition MH_ntfyvm (caller_ptr : ptr) (dst_p dst_vmid : Z) : K Z :=
  let* dst_ptr := proc_addr_vm dst_vmid dst_p in
  let* d := getp dst_ptr in
  if band (p_rts_flags d) NO_ENDPOINT then ret EDSTDIED
  else
    MHASSERT (negb (band (p_misc_flags d) VIRTUAL_TASK));;;
    MHASSERT (negb (band (p_misc_flags d) PROMICUOUS_TASK));;;
    let* callerX_ptr := caller_in_vm caller_ptr dst_vmid in
    let* done :=
      (if is_receiving d && negb (band (p_misc_flags d) REPLY_PENDING) then
         MHASSERT (negb (band (p_misc_flags d) NOT_GETFROM));;;
         if p_getfrom_e d =? ANY then ret true
         else
           let* cX := getp callerX_ptr in
           ret (p_getfrom_e d =? p_endpoint cX)
       else ret false) in
    if done : bool then
      let* s := get in
      let* m := BuildMess_ptr (m_stack s) callerX_ptr dst_ptr in
      let* cX := getp callerX_ptr in
      CopyMess_kernel (p_endpoint cX) m dst_ptr (p_messbuf d);;;
      putp dst_ptr (λ r, r.[p_getfrom_e := NONE]);;;
      unblock dst_ptr RECEIVING;;;
      ret OK
    else
      let* cp := priv_of caller_ptr in
      notify_pend (s_id cp) dst_ptr;;;
      ret OK.

(** ** [MH_relay] *)

(** Destination of a relayed message; unlike [send_redirect], a promiscuous
    destination is looked up by number on VM0. *)
Definition relay_redirect (caller_ptr : ptr) (dst_p : Z) (dst_ptr : ptr) :
    K (Z + (ptr * ptr)) :=
  let* c := getp caller_ptr in
  let* d := getp dst_ptr in
  if negb (p_vmid c =? VM0) then
    if band (p_misc_flags d) PROMICUOUS_TASK then
      let* dst0_ptr := proc_addr_vm VM0 dst_p in
      let* d0p := priv_of dst0_ptr in
      if band (s_vm_bitmap d0p) (bit32 (p_vmid c))
      then ret (inr (dst0_ptr, dst_ptr))
      else ret (inl EPROMISCUOUS)
    else if band (p_misc_flags d) VIRTUAL_TASK then
      let* p := virtual_proxy caller_ptr in
      match p with
      | inl e => ret (inl e)
      | inr _ => ret (inr (dst_ptr, dst_ptr))
      end
    else ret (inr (dst_ptr, dst_ptr))
  else ret (inr (dst_ptr, dst_ptr)).

(** The checks on both endpoints: [dst_p], [dst_ptr] and [src_ptr]. *)
Definition relay_check (caller_ptr : ptr) (dst_ep src_ep : Z) :
    K (Z + (Z * ptr * ptr)) :=
  let* '(ok, dst_p) := isokendpt dst_ep in
  if ok =? 0 then ret (inl EDSTDIED)
  else
    let* dst_ptr := proc_addr dst_p in
    let* d := getp dst_ptr in
    if band (p_rts_flags d) NO_ENDPOINT then ret (inl EDSTDIED)
    else
      let* '(ok, src_p) := isokendpt src_ep in
      if ok =? 0 then ret (inl ESRCDIED)
      else
        let* src_ptr := proc_addr src_p in
        let* sp := getp src_ptr in
        let* c := getp caller_ptr in
        if band (p_rts_flags sp) NO_ENDPOINT then ret (inl ESRCDIED)
        else if negb (band (p_misc_flags sp) REPLY_PENDING) || negb (is_receiving sp)
        then ret (inl EPROCSTATUS)
        else if negb (p_vmid c =? p_vmid sp) then ret (inl EBADVMID)
        else ret (inr (dst_p, dst_ptr, src_ptr)).

(** Delivery as [src_ptr], which then waits for the destination's reply. *)
Definition relay_deliver (caller_ptr src_ptr : ptr) (m_ptr : Z) (dst_ptr : ptr) :
    K bool :=
  let* d := getp dst_ptr in
  let* c := getp caller_ptr in
  let* sp := getp src_ptr in
  if negb (is_receiving d) then ret false
  else if band (p_misc_flags d) VMID_PENDING then
    if not_getfrom_match d c then ret false
    else if ((p_recv_vm d =? ANY_VM) || (p_recv_vm d =? p_vmid c))
            && vm_source_ok d c then
      CopyMess_ep (p_endpoint sp) caller_ptr m_ptr dst_ptr (p_messbuf d);;;
      putp src_ptr (λ r, r.[p_getfrom_e := p_endpoint d]);;;
      putp dst_ptr (λ r,
        r.[p_retreg := u32 (p_vmid c)]
         .[p_misc_flags := bclr (p_misc_flags r)
             (Z.lor (Z.lor VMID_PENDING NOT_GETFROM) REPLY_PENDING)]
         .[p_getfrom_e := NONE].[p_recv_vm := ANY_VM]);;;
      unblock dst_ptr RECEIVING;;;
      ret true
    else ret false
  else
    MHASSERT (negb (band (p_misc_flags d) NOT_GETFROM));;;
    if ((p_vmid d =? p_vmid c) || (p_nr d =? SYSTEM))
       && ((p_getfrom_e d =? ANY) || (p_getfrom_e d =? p_endpoint c)) then
      let* s := get in
      when (p_nr d =? SYSTEM)
        (putp (systask_ptr s) (λ r, r.[p_vmid := p_vmid c]));;;
      CopyMess_ep (p_endpoint sp) caller_ptr m_ptr dst_ptr (p_messbuf d);;;
      putp src_ptr (λ r, r.[p_getfrom_e := p_endpoint d]);;;
      putp dst_ptr (λ r,
        r.[p_misc_flags := bclr (p_misc_flags r) REPLY_PENDING]
         .[p_getfrom_e := NONE].[p_recv_vm := ANY_VM]);;;
      unblock dst_ptr RECEIVING;;;
      ret true
    else ret false.

Definition MH_relay (caller_ptr : ptr) (dst_ep m_ptr src_ep : Z) : K Z :=
  let* r := relay_check caller_ptr dst_ep src_ep in
  match r with
  | inl e => ret e
  | inr (dst_p, dst_ptr, src_ptr) =>
      let* r := relay_redirect caller_ptr dst_p dst_ptr in
      match r with
      | inl e => ret e
      | inr (dst_ptr, _) =>
          let* done := relay_deliver caller_ptr src_ptr m_ptr dst_ptr in
          if done : bool then ret OK
          else
            let* c := getp caller_ptr in
            MHASSERT (negb (p_nr c =? SYSTEM));;;
            let* sp := getp src_ptr in
            CopyMess_ep (p_endpoint sp) caller_ptr m_ptr src_ptr (p_messbuf sp);;;
            putp src_ptr (λ r,
              r.[p_rts_flags := Z.lor (p_rts_flags r) SENDING].[p_sendto_e := dst_ep]);;;
            append_caller dst_ptr src_ptr;;;
            let* c := getp caller_ptr in
            let* d := getp dst_ptr in
            if negb (p_vmid c =? VM0) && band (p_misc_flags d) VIRTUAL_TASK then
              let* dp := priv_of dst_ptr in notify_proxy (s_id dp)
            else ret OK
      end
  end.
