(* ===== verification/KIpcRecv.v ===== *)
(** * Receiving: [MH_receive], [MH_recvas] and [MH_recvvm]

    [src/kernel/proc.c].  Each function first looks at the pending notification
    bits, then walks a caller queue with a pointer pointer, then blocks (or, for
    a proxy, gives up). *)
From stdpp Require Import base gmap list numbers strings.
From Stdlib Require Import ZArith Lia.
From S2P Require Import Prelude.
From S2P Require Import KTypes.
From S2P Require Import KProc.
From S2P Require Import KSched.
From S2P Require Import KIpcSend.

(** ** Pending notifications *)

(** [for (i=0; ! ( *chunk & (1<<i)); ++i) {}]: the lowest bit set. *)
Fixpoint low_bit (fuel : nat) (chunk i : Z) : option Z :=
  match fuel with
  | O => None
  | S fuel =>
      if band chunk (Z.shiftl 1 i) then Some i else low_bit fuel chunk (i + 1)
  end.

(** The loop over the chunks, from chunk [k] on: the chunk, bit, system id and
    process number of the notification to deliver.  A chunk's lowest bit alone
    is examined before the loop goes on to the next chunk. *)
Fixpoint pending_scan (accept : Z → bool) (chunks : list Z) (k : Z) :
    K (option (Z * Z * Z * Z)) :=
  match chunks with
  | [] => ret None
  | chunk :: chunks =>
      if chunk =? 0 then pending_scan accept chunks (k + 1)
      else
        match low_bit 16 chunk 0 with
        | None => spin
        | Some i =>
            let src_id := k * BITCHUNK_BITS + i in
            if NR_SYS_PROCS <=? src_id then ret None
            else
              let* src_proc_nr := id_to_nr src_id in
              if accept src_proc_nr then ret (Some (k, i, src_id, src_proc_nr))
              else pending_scan accept chunks (k + 1)
        end
  end.

(** [if (--s_ntfy_cnt[src_id] == 0) *chunk &= ~(1 << i)]. *)
Definition take_pending (pp : ptr) (k i src_id : Z) : K unit :=
  let* p := getpriv pp in
  let* n := of_option (aget (s_ntfy_cnt p) src_id) in
  let n := u8 (n - 1) in
  let* cnt := of_option (aset (s_ntfy_cnt p) src_id n) in
  putpriv pp (λ r, r.[s_ntfy_cnt := cnt]);;;
  when (n =? 0)
    (let* chunk := of_option (aget (s_notify_pending p) k) in
     let* map := of_option
       (aset (s_notify_pending p) k (u16 (bclr chunk (Z.shiftl 1 i)))) in
     putpriv pp (λ r, r.[s_notify_pending := map])).

(** ** [MH_receive] *)

(** The notification part: [true] when a message was delivered. *)
Definition receive_pending (caller_ptr : ptr) (src_ep src_p m_ptr : Z) : K bool :=
  let* c := getp caller_ptr in
  let* cp := getpriv (p_priv c) in
  let* r := pending_scan (λ nr, (src_ep =? ANY) || (src_p =? nr))
              (s_notify_pending cp) 0 in
  match r with
  | None => ret false
  | Some (k, i, src_id, src_proc_nr) =>
      take_pending (p_priv c) k i src_id;;;
      let* s := get in
      let* m := BuildMess (m_receive s) src_proc_nr caller_ptr in
      modify (λ s, s.[m_receive := m]);;;
      let* sp := proc_addr src_proc_nr in
      let* sr := getp sp in
      CopyMess_kernel (p_endpoint sr) m caller_ptr m_ptr;;;
      ret true
  end.

(** Is the head of the queue a promiscuous process of VM0 in the middle of
    [sendrecvm] to the caller's VM ([cond0])? *)
Definition sendrecvm_sender (c x : proc) : bool :=
  negb (p_vmid c =? VM0) && (p_vmid x =? VM0)
  && band (p_misc_flags x) VMID_PENDING
  && (Z.land (p_rts_flags x) (Z.lor RECEIVING SENDING) =? Z.lor RECEIVING SENDING).

(** The endpoint under which sender [x] is known to the caller. *)
Definition sender_endpoint (c x : proc) : K Z :=
  if sendrecvm_sender c x then
    let* xp := getpriv (p_priv x) in
    let* nr := of_option (aget (s_nr xp) (p_vmid c)) in
    let* srcX_ptr := proc_addr nr in
    let* sX := getp srcX_ptr in
    ret (p_endpoint sX)
  else ret (p_endpoint x).

(** Take the message of the sender at [xpp] and unlink it.  The last test reads
    [*xpp], which is by then the sender's successor in the queue. *)
Definition receive_take (caller_ptr : ptr) (m_ptr : Z) (xpp : ploc) (xa : Z * Z) (ep : Z) :
    K unit :=
  let* c := getp caller_ptr in
  let* x := getp (Some xa) in
  when (p_nr c =? SYSTEM)
    (modify (λ s, s.[running_vm := p_vmid x]);;;
     let* s := get in
     putp (systask_ptr s) (λ r, r.[p_vmid := p_vmid x]));;;
  (if band (p_rts_flags x) NOTIFYING then
     let* s := get in
     let* m := BuildMess_ptr (m_receive s) (Some xa) caller_ptr in
     modify (λ s, s.[m_receive := m]);;;
     CopyMess_kernel (p_endpoint x) m caller_ptr m_ptr;;;
     unblock (Some xa) NOTIFYING
   else
     CopyMess_ep ep (Some xa) (p_messbuf x) caller_ptr m_ptr;;;
     unblock (Some xa) SENDING);;;
  putp (Some xa) (λ r, r.[p_sendto_e := NONE]);;;
  let* x := getp (Some xa) in
  store xpp (p_q_link x);;;
  putp caller_ptr (λ r,
    r.[p_misc_flags := bclr (p_misc_flags r)
         (Z.lor (Z.lor VMID_PENDING NOT_GETFROM) REPLY_PENDING)]);;;
  let* next := load xpp in
  let* nx := getp next in
  when (p_rts_flags nx =? 0) (enqueue next).

Definition receive_scan (caller_ptr : ptr) (src_ep m_ptr : Z) :
    ploc → K (ploc + bool) := λ xpp,
  let* x := load xpp in
  match x with
  | None => ret (inr false)
  | Some xa =>
      let* c := getp caller_ptr in
      let* xr := getp x in
      let* ep := sender_endpoint c xr in
      if ((p_vmid c =? p_vmid xr) || (p_nr c =? SYSTEM) || sendrecvm_sender c xr)
         && ((src_ep =? ANY) || (src_ep =? ep)) then
        receive_take caller_ptr m_ptr xpp xa ep;;;
        ret (inr true)
      else ret (inl (QLink xa))
  end.

(** The first checks; [inr] is [src_p]. *)
Definition receive_check (caller_ptr : ptr) (src_ep : Z) : K (Z + Z) :=
  let* c := getp caller_ptr in
  when (((p_nr c =? SYSTEM) || (p_nr c =? CLOCK)) && (src_ep =? ANY))
    (putp caller_ptr (λ r, r.[p_vmid := VM0]);;;
     modify (λ s, s.[running_vm := VM0]));;;
  if src_ep =? ANY then ret (inr ANY)
  else
    let* '(ok, src_p) := isokendpt src_ep in
    if ok =? 0 then ret (inl ESRCDIED)
    else
      let* sp := proc_addr src_p in
      let* sr := getp sp in
      if band (p_rts_flags sr) NO_ENDPOINT then ret (inl ESRCDIED)
      else ret (inr src_p).

(** Nothing acceptable: the caller blocks. *)
Definition block_receiver (caller_ptr : ptr) (src_ep m_ptr : Z) : K Z :=
  putp caller_ptr (λ r, r.[p_getfrom_e := src_ep].[p_messbuf := m_ptr]);;;
  let* c := getp caller_ptr in
  when (p_rts_flags c =? 0) (dequeue caller_ptr);;;
  putp caller_ptr (λ r,
    r.[p_rts_flags := Z.lor (p_rts_flags r) RECEIVING].[p_recv_vm := p_vmid r]);;;
  ret OK.

Definition MH_receive (caller_ptr : ptr) (src_ep m_ptr : Z) : K Z :=
  let* r := receive_check caller_ptr src_ep in
  match r with
  | inl e => ret e
  | inr src_p =>
      let* c := getp caller_ptr in
      let* got :=
        (if band (p_rts_flags c) SENDING then ret false
         else
           let* ntf :=
             (if band (p_misc_flags c) REPLY_PENDING then ret false
              else receive_pending caller_ptr src_ep src_p m_ptr) in
           if ntf : bool then ret true
           else
             match caller_ptr with
             | None => crash
             | Some ca =>
                 loop list_fuel (receive_scan caller_ptr src_ep m_ptr) (CallerQ ca)
             end) in
      if got : bool then ret OK
      else
        block_receiver caller_ptr src_ep m_ptr
  end.

(** ** [MH_recvas] *)
Definition recvas_scan (caller_ptr : ptr) (src_ep m_ptr : Z) :
    ploc → K (ploc + bool) := λ xpp,
  let* x := load xpp in
  match x with
  | None => ret (inr false)
  | Some xa =>
      let* xr := getp x in
      if (src_ep =? ANY) || (src_ep =? p_endpoint xr) then
        CopyMess_ep (p_endpoint xr) x (p_messbuf xr) caller_ptr m_ptr;;;
        unblock x (Z.lor SENDING NOTIFYING);;;
        putp x (λ r, r.[p_sendto_e := NONE]);;;
        let* xr := getp x in
        store xpp (p_q_link xr);;;
        ret (inr true)
      else ret (inl (QLink xa))
  end.

(** The virtual task the proxy stands for, and the wanted source. *)
Definition recvas_check (caller_ptr : ptr) (src_ep dst_ep : Z) : K (Z + (ptr * Z)) :=
  let* c := getp caller_ptr in
  let src_vmid := p_proxy c in
  let* dst_ptr :=
    (if dst_ep =? SYSTEM then ret (Some (src_vmid, SYSTEM))
     else proc_addr_vm src_vmid dst_ep) in
  if is_null dst_ptr then ret (inl EDSTDIED)
  else
    let* d := getp dst_ptr in
    if negb (band (p_misc_flags d) VIRTUAL_TASK) then ret (inl EVIRTUALTASK)
    else if src_ep =? ANY then ret (inr (dst_ptr, ANY))
    else
      let* '(ok, src_p) := isokendpt_vm src_vmid src_ep in
      if ok =? 0 then ret (inl ESRCDIED)
      else
        let* sp := proc_addr_vm src_vmid src_p in
        let* sr := getp sp in
        if band (p_rts_flags sr) NO_ENDPOINT then ret (inl ESRCDIED)
        else ret (inr (dst_ptr, src_p)).

Definition MH_recvas (caller_ptr : ptr) (src_ep m_ptr dst_ep : Z) : K Z :=
  let* r := recvas_check caller_ptr src_ep dst_ep in
  match r with
  | inl e => ret e
  | inr (dst_ptr, src_p) =>
      let* d := getp dst_ptr in
      let* dp := getpriv (p_priv d) in
      let* r := pending_scan (λ nr, (src_ep =? ANY) || (src_p =? nr))
                  (s_notify_pending dp) 0 in
      match r with
      | Some (k, i, src_id, src_proc_nr) =>
          take_pending (p_priv d) k i src_id;;;
          let* s := get in
          let* m := BuildMess (m_recvas s) src_proc_nr caller_ptr in
          modify (λ s, s.[m_recvas := m]);;;
          let* sp := proc_addr src_proc_nr in
          let* sr := getp sp in
          CopyMess_kernel (p_endpoint sr) m caller_ptr m_ptr;;;
          ret OK
      | None =>
          match dst_ptr with
          | None => crash
          | Some da =>
              let* got := loop list_fuel (recvas_scan caller_ptr src_ep m_ptr)
                            (CallerQ da) in
              ret (if got : bool then OK else EAGAIN)
          end
      end
  end.

(** ** [MH_recvvm] *)

(** The source filter: result code, [src_ep] and [src_p] after the flag
    [NOT_PROC] is stripped, and [not_flag]. *)
Definition recvvm_check (c : proc) (src_ep src_vmid : Z) : K (Z * Z * Z * bool) :=
  let check :=
    (let* '(ok, src_p) := isokendpt_vm src_vmid src_ep in
     ret (if ok =? 0 then ESRCDIED else OK, src_ep, src_p, false)) in
  if negb (band (p_misc_flags c) REPLY_PENDING) then
    if src_ep =? ANY then ret (OK, src_ep, src_ep, false)
    else if band src_ep NOT_PROC then
      ret (OK, bclr src_ep NOT_PROC, bclr src_ep NOT_PROC, true)
    else if negb (src_vmid =? ANY_VM) then check
    else ret (EBADSRCDST, src_ep, 0, false)
  else check.

(** Notifications: only HARDWARE's for another VM, any for VM0 or [ANY_VM].  The
    result is the VM to report. *)
Definition recvvm_pending (caller_ptr : ptr) (src_ep src_p src_vmid m_ptr : Z)
    (not_flag : bool) : K (option Z) :=
  let* c := getp caller_ptr in
  let* cp := getpriv (p_priv c) in
  let* s := get in
  if negb (src_vmid =? ANY_VM) && negb (src_vmid =? VM0) then
    let* hp := priv_of (hard_ptr s) in
    let src_id := s_id hp in
    let* on := of_option (get_sys_bit (s_notify_pending cp) src_id) in
    if on : bool then
      take_pending (p_priv c) (src_id ÷ BITCHUNK_BITS) (Z.rem src_id BITCHUNK_BITS) src_id;;;
      let* m := BuildMess_ptr (m_recvvm s) (hard_ptr s) caller_ptr in
      modify (λ s, s.[m_recvvm := m]);;;
      let* hw := proc_addr HARDWARE in
      let* hr := getp hw in
      CopyMess_kernel (p_endpoint hr) m caller_ptr m_ptr;;;
      ret (Some src_vmid)
    else ret None
  else
    let* r := pending_scan
                (λ nr, if not_flag then negb (src_p =? nr)
                       else (src_ep =? ANY) || (src_p =? nr))
                (s_notify_pending cp) 0 in
    match r with
    | None => ret None
    | Some (k, i, src_id, src_proc_nr) =>
        take_pending (p_priv c) k i src_id;;;
        let* m := BuildMess (m_recvvm s) src_proc_nr caller_ptr in
        modify (λ s, s.[m_recvvm := m]);;;
        let* sp := proc_addr src_proc_nr in
        let* sr := getp sp in
        CopyMess_kernel (p_endpoint sr) m caller_ptr m_ptr;;;
        ret (Some VM0)
    end.

(** Does the caller want the message of queued process [x]? *)
Definition recvvm_wants (src_ep src_p src_vmid : Z) (not_flag : bool) (x : proc) : bool :=
  if not_flag then
    negb ((src_p =? p_nr x) && ((src_vmid =? ANY_VM) || (src_vmid =? p_vmid x)))
  else ((src_ep =? ANY) || (src_ep =? p_endpoint x))
       && ((src_vmid =? p_vmid x) || (src_vmid =? ANY_VM)).

Definition recvvm_take (caller_ptr : ptr) (m_ptr : Z) (xa : Z * Z) : K Z :=
  let* x := getp (Some xa) in
  let vmid := p_vmid x in
  (if negb (vmid =? VM0) then
     let* cp := priv_of caller_ptr in
     let* nr := of_option (aget (s_nr cp) vmid) in
     MHASSERT (negb (nr =? NONE));;;
     let* callerX_ptr := proc_addr_vm vmid nr in
     let* cX := getp callerX_ptr in
     MHASSERT (band (p_misc_flags cX) PROMICUOUS_TASK);;;
     MHASSERT (band (s_vm_bitmap cp) (bit32 vmid));;;
     if band (p_rts_flags x) NOTIFYING then
       let* s := get in
       let* m := BuildMess_ptr (m_recvvm s) (Some xa) caller_ptr in
       modify (λ s, s.[m_recvvm := m]);;;
       CopyMess_kernel (p_endpoint x) m caller_ptr m_ptr;;;
       unblock (Some xa) NOTIFYING
     else
       CopyMess_ep (p_endpoint x) (Some xa) (p_messbuf x) caller_ptr m_ptr;;;
       unblock (Some xa) SENDING
   else
     CopyMess_ep (p_endpoint x) (Some xa) (p_messbuf x) caller_ptr m_ptr;;;
     unblock (Some xa) SENDING);;;
  ret vmid.

Definition recvvm_scan (caller_ptr : ptr) (src_ep src_p src_vmid m_ptr : Z)
    (not_flag : bool) : ploc → K (ploc + option Z) := λ xpp,
  let* x := load xpp in
  match x with
  | None => ret (inr None)
  | Some xa =>
      let* xr := getp x in
      if recvvm_wants src_ep src_p src_vmid not_flag xr then
        let* vmid := recvvm_take caller_ptr m_ptr xa in
        putp x (λ r, r.[p_sendto_e := NONE]);;;
        let* xr := getp x in
        store xpp (p_q_link xr);;;
        putp caller_ptr (λ r,
          r.[p_misc_flags := bclr (p_misc_flags r)
               (Z.lor (Z.lor VMID_PENDING NOT_GETFROM) REPLY_PENDING)]
           .[p_recv_vm := ANY_VM]);;;
        ret (inr (Some vmid))
      else ret (inl (QLink xa))
  end.

Definition block_recvvm (caller_ptr : ptr) (src_ep m_ptr src_vmid : Z) (not_flag : bool) :
    K Z :=
  putp caller_ptr (λ r, r.[p_getfrom_e := src_ep].[p_messbuf := m_ptr]);;;
  let* c := getp caller_ptr in
  when (p_rts_flags c =? 0) (dequeue caller_ptr);;;
  putp caller_ptr (λ r,
    r.[p_rts_flags := Z.lor (p_rts_flags r) RECEIVING]
     .[p_misc_flags := Z.lor (Z.lor (p_misc_flags r) VMID_PENDING)
         (if not_flag then NOT_GETFROM else 0)]
     .[p_recv_vm := src_vmid]);;;
  ret OK.

Definition MH_recvvm (caller_ptr : ptr) (src_ep m_ptr src_vmid : Z) : K Z :=
  putp caller_ptr (λ r,
    r.[p_misc_flags := bclr (p_misc_flags r) (Z.lor VMID_PENDING NOT_GETFROM)]);;;
  let* c := getp caller_ptr in
  let* '(rcode, src_ep, src_p, not_flag) := recvvm_check c src_ep src_vmid in
  if negb (rcode =? OK) then ret rcode
  else
    let* ntf :=
      (if band (p_misc_flags c) REPLY_PENDING then ret None
       else recvvm_pending caller_ptr src_ep src_p src_vmid m_ptr not_flag) in
    match ntf with
    | Some vmid => ret vmid
    | None =>
        match caller_ptr with
        | None => crash
        | Some ca =>
            let* got := loop list_fuel
              (recvvm_scan caller_ptr src_ep src_p src_vmid m_ptr not_flag)
              (CallerQ ca) in
            match got with
            | Some vmid => ret vmid
            | None =>
                block_recvvm caller_ptr src_ep m_ptr src_vmid not_flag
            end
        end
    end.
