(* ===== verification/KSysCall.v ===== *)
(** * The trap handler: [sys_call], [deadlock], [raw_notify] and the [lock_]
      gateways

    [src/kernel/proc.c].  The interrupt lock around the gateways has no state
    in the model: kernel code runs without interruption.  Before it, the operations
    that only read the state ([pure]) or only log a failed assertion ([logging]). *)
From stdpp Require Import base gmap list numbers strings.
From Stdlib Require Import ZArith Lia.
From S2P Require Import Prelude.
From S2P Require Import KTypes.
From S2P Require Import KProc.
From S2P Require Import KSched.
From S2P Require Import KIpcSend.
From S2P Require Import KIpcVm.
From S2P Require Import KIpcRecv.

(** ** Operations that only read the state *)
Abbreviation pure := (pres (@eq kstate)).

Lemma pure_getp p : pure (getp p).
Proof.
  intros s a s'. unfold getp. destruct p as [b|]; [|done].
  destruct (procs s !! b); [|done]. by intros [= _ <-].
Qed.
Lemma pure_getpriv p : pure (getpriv p).
Proof.
  intros s a s'. unfold getpriv. destruct p as [b|]; [|done].
  destruct (privs s !! b); [|done]. by intros [= _ <-].
Qed.
Lemma pure_getvm v : pure (getvm v).
Proof. intros s a s'. unfold getvm. destruct (vms s !! v); [|done]. by intros [= _ <-]. Qed.
Lemma pure_load x : pure (load x).
Proof.
  destruct x; cbn; [|intros s a s' H; apply bind_inv in H as (r & s1 & H1 & H2);
    apply pure_getp in H1 as <-; by injection H2 as _ <-..].
  intros s a s'. destruct (rdy_index q); [|done]. by intros [= _ <-].
Qed.
#[export] Hint Resolve pure_getp pure_getpriv pure_getvm pure_load : pres.

Ltac pure_tac := presto.
Lemma pure_priv_of p : pure (priv_of p).
Proof. unfold priv_of. pure_tac. Qed.
Lemma pure_proc_addr_vm v n : pure (proc_addr_vm v n).
Proof. unfold proc_addr_vm. pure_tac. Qed.
Lemma pure_get_proc_addr n : pure (get_proc_addr n).
Proof. unfold get_proc_addr. pure_tac. Qed.
#[export] Hint Resolve pure_priv_of pure_proc_addr_vm pure_get_proc_addr : pres.
Lemma pure_id_to_nr id : pure (id_to_nr id).
Proof. unfold id_to_nr. pure_tac. Qed.
Lemma pure_nr_to_id nr : pure (nr_to_id nr).
Proof. unfold nr_to_id. pure_tac. Qed.
Lemma pure_isokendpt e : pure (isokendpt e).
Proof.
  unfold isokendpt, isokendpt_f.
  repeat (first [ match goal with
                  | |- pres _ (when (_ && false) _) => rewrite andb_false_r; exact (pres_skip eq)
                  end
                | presto_step ]; cbv beta).
Qed.
Lemma pure_isokendpt_vm v e : pure (isokendpt_vm v e).
Proof. unfold isokendpt_vm. pure_tac. Qed.
#[export] Hint Resolve pure_id_to_nr pure_nr_to_id pure_isokendpt pure_isokendpt_vm : pres.
Lemma pure_pending_scan f l k : pure (pending_scan f l k).
Proof.
  revert k. induction l as [|c l IH]; intros k; cbn [pending_scan]; presto.
Qed.
Lemma pure_recvas_check c e d : pure (recvas_check c e d).
Proof. unfold recvas_check. pure_tac. Qed.

(** ** Logging *)
Definition logged (s s' : kstate) : Prop := ∃ l, s' = s.[panics := panics s ++ l].

#[export] Instance logged_preorder : PreOrder logged.
Proof.
  split.
  - intros s. exists []. by rewrite app_nil_r.
  - intros s _ _ [l ->] [l' ->]. exists (l ++ l'). cbn. by rewrite app_assoc.
Qed.

Abbreviation logging := (pres logged).

Lemma pure_logging {A} (m : K A) : pure m → logging m.
Proof. intros H s a s' Hm. rewrite <-(H s a s' Hm). reflexivity. Qed.

Lemma logging_panic m n : logging (panic m n).
Proof. apply pres_modify. intros s. by eexists. Qed.
Lemma logging_MHASSERT b : logging (MHASSERT b).
Proof. apply pres_when; [apply _|apply logging_panic]. Qed.
#[export] Hint Resolve logging_MHASSERT : pres.
#[export] Hint Extern 5 (pres logged (getp _)) => exact (pure_logging _ (pure_getp _)) : pres.
#[export] Hint Extern 5 (pres logged (getvm _)) => exact (pure_logging _ (pure_getvm _)) : pres.
#[export] Hint Extern 5 (pres logged (priv_of _)) => exact (pure_logging _ (pure_priv_of _)) : pres.
#[export] Hint Extern 5 (pres logged (get_proc_addr _)) =>
  exact (pure_logging _ (pure_get_proc_addr _)) : pres.
#[export] Hint Extern 5 (pres logged (proc_addr_vm _ _)) =>
  exact (pure_logging _ (pure_proc_addr_vm _ _)) : pres.
#[export] Hint Extern 5 (pres logged (isokendpt _)) =>
  exact (pure_logging _ (pure_isokendpt _)) : pres.
#[export] Hint Extern 5 (pres logged (isokendpt_vm _ _)) =>
  exact (pure_logging _ (pure_isokendpt_vm _ _)) : pres.

Lemma pure_send_paravirtual c m d : pure (send_paravirtual c m d).
Proof. unfold send_paravirtual. pure_tac. Qed.
Lemma pure_virtual_proxy c : pure (virtual_proxy c).
Proof. unfold virtual_proxy. pure_tac. Qed.
#[export] Hint Resolve pure_send_paravirtual pure_virtual_proxy : pres.
Lemma pure_send_redirect c m d : pure (send_redirect c m d).
Proof. unfold send_redirect. pure_tac. Qed.
#[export] Hint Extern 5 (pres logged (send_redirect _ _ _)) =>
  exact (pure_logging _ (pure_send_redirect _ _ _)) : pres.
Lemma logging_send_resolve c e m : logging (send_resolve c e m).
Proof. unfold send_resolve. presto. Qed.

(** ** [deadlock] *)
Definition deadlock_step (function : Z) (cp : proc) :
    Z * Z → K (Z * Z + Z) := λ '(src_dst, group_size),
  if src_dst =? ANY then ret (inr 0)
  else
    let* xp := proc_addr src_dst in
    let group_size := group_size + 1 in
    let* x := getp xp in
    let* next :=
      (if band (p_rts_flags x) RECEIVING then
         if p_getfrom_e x =? ANY then ret (Some ANY)
         else let* '(_, p) := okendpt (p_getfrom_e x) in ret (Some p)
       else if band (p_rts_flags x) SENDING then
         let* '(_, p) := okendpt (p_sendto_e x) in ret (Some p)
       else ret None) in
    match next with
    | None => ret (inr 0)
    | Some src_dst =>
        if src_dst =? p_nr cp then
          if (group_size =? 2)
             && band (Z.lxor (p_rts_flags x) (Z.shiftl function 2)) SENDING
          then ret (inr 0)
          else ret (inr group_size)
        else ret (inl (src_dst, group_size))
    end.

Definition deadlock (function : Z) (cp : ptr) (src_dst : Z) : K Z :=
  let* c := getp cp in
  loop list_fuel (deadlock_step function c) (src_dst, 1).

(** ** [sys_call] *)

(** The checks of the first [switch]: [Some r] is an immediate [return(r)]. *)
Definition check_proxy (c : proc) : option Z :=
  if negb (p_vmid c =? VM0) then Some EPERM
  else if negb (band (p_misc_flags c) PROXY_SERVER) then Some EPERM
  else if (p_proxy c <? VM0) || (NR_VMS <=? p_proxy c) then Some EBADVMID
  else None.

Definition check_promiscuous (caller_ptr : ptr) (function vmid : Z) : K (option Z) :=
  let* c := getp caller_ptr in
  if negb (p_vmid c =? VM0) then ret (Some EPERM)
  else if negb (function =? RECVVM) || negb (vmid =? ANY_VM) then
    if (vmid <? VM0) || (NR_VMS <=? vmid) then ret (Some EBADVMID)
    else
      let* vm := getvm vmid in
      if negb (vmid =? VM0) && negb (vm_flags vm =? Z.lor VM_LOADED VM_RUNNING)
      then ret (Some EVMSTATUS)
      else
        let* cp := priv_of caller_ptr in
        if negb (band (s_vm_bitmap cp) (bit32 vmid)) then ret (Some EBADVMID)
        else ret None
  else ret None.

Definition call_class (caller_ptr : ptr) (function vmid : Z) : K (option Z) :=
  let* c := getp caller_ptr in
  if function =? HDEBUG then ret (Some (p_vmid c))
  else if function =? PRTMSG then ret (Some OK)
  else if (function =? SENDAS) || (function =? RECVAS) || (function =? NOTIFYAS)
  then ret (check_proxy c)
  else if (function =? SENDVM) || (function =? RECVVM) || (function =? SENDRECVM)
          || (function =? NOTIFYVM)
  then check_promiscuous caller_ptr function vmid
  else if (function =? NOTIFY) || (function =? ECHO) || (function =? SENDREC)
          || (function =? SEND) || (function =? RECEIVE) || (function =? RELAY)
  then ret None
  else ret (Some EBADCALL).

(** The endpoint argument: [Some src_dst], or [None] for [EDEADSRCDST]. *)
Definition call_src_dst (function src_dst_e : Z) : K (option Z) :=
  if negb (src_dst_e =? ANY) && negb (function =? ECHO) then
    if (function =? RECVVM) && band src_dst_e NOT_PROC
    then ret (Some (bclr src_dst_e NOT_PROC))
    else
      let* '(ok, src_dst) := isokendpt src_dst_e in
      ret (if ok =? 0 then None else Some src_dst)
  else ret (Some src_dst_e).

(** The masks of the three remaining checks; [sys_call] leaves them at 0. *)
Definition check_ptr : Z := 0.
Definition check_dest : Z := 0.
Definition check_dead : Z := 0.
Definition MESS_SIZE : Z := 36.

(** Message pointer inside the caller's data and stack segments. *)
Definition message_ptr_ok (c : proc) (m_ptr : Z) : bool :=
  let vlo := Z.shiftr (u32 m_ptr) 12 in
  let vhi := Z.shiftr (u32 (m_ptr + MESS_SIZE - 1)) 12 in
  negb ((vlo <? mem_vir (p_memmap_D c)) || (vhi <? vlo)
        || (u32 (mem_vir (p_memmap_S c) + mem_len (p_memmap_S c)) <=? vhi)).

Definition call_checks (caller_ptr : ptr) (function src_dst m_ptr : Z) : K (option Z) :=
  let* c := getp caller_ptr in
  let* cp := priv_of caller_ptr in
  if negb (band (s_trap_mask cp) (Z.shiftl 1 function))
     || (iskerneln src_dst && negb (function =? SENDREC) && negb (function =? RECEIVE))
  then ret (Some ETRAPDENIED)
  else if band function check_ptr && negb (message_ptr_ok c m_ptr)
  then ret (Some EFAULT)
  else
    let* denied :=
      (if band function check_dest then
         let* id := nr_to_id src_dst in
         let* allowed := of_option (get_sys_bit (s_ipc_to cp) id) in
         ret (negb allowed)
       else ret false) in
    if denied : bool then ret (Some ECALLDENIED)
    else
      let* dead := (if negb (check_dead =? 0) then deadlock function caller_ptr src_dst
                    else ret 0) in
      ret (if dead =? 0 then None else Some ELOCKED).

(** Send half and receive half of the calls on a VM. *)
Definition call_sendvm (caller_ptr : ptr) (src_dst_e m_ptr vmid : Z) : K Z :=
  let* c := getp caller_ptr in
  if p_vmid c =? vmid then MH_send caller_ptr src_dst_e m_ptr
  else MH_sendvm caller_ptr src_dst_e m_ptr vmid.

Definition call_recvvm (caller_ptr : ptr) (src_dst_e m_ptr vmid : Z) : K Z :=
  let* c := getp caller_ptr in
  if p_vmid c =? vmid then
    putp caller_ptr (λ r, r.[p_misc_flags := Z.lor (p_misc_flags r) VMID_PENDING]);;;
    MH_receive caller_ptr src_dst_e m_ptr
  else MH_recvvm caller_ptr src_dst_e m_ptr vmid.

Definition set_reply_pending (caller_ptr : ptr) : K unit :=
  putp caller_ptr (λ r, r.[p_misc_flags := Z.lor (p_misc_flags r) REPLY_PENDING]).

(** The second [switch], with its fall-throughs. *)
Definition call_dispatch (caller_ptr : ptr) (function src_dst_e src_dst m_ptr vmid : Z) :
    K Z :=
  if function =? SENDREC then
    set_reply_pending caller_ptr;;;
    let* result := MH_send caller_ptr src_dst_e m_ptr in
    if negb (result =? OK) then ret result else MH_receive caller_ptr src_dst_e m_ptr
  else if function =? SEND then MH_send caller_ptr src_dst_e m_ptr
  else if function =? RECEIVE then MH_receive caller_ptr src_dst_e m_ptr
  else if function =? NOTIFY then MH_notify caller_ptr src_dst
  else if function =? ECHO then ret OK
  else if function =? RELAY then MH_relay caller_ptr src_dst_e m_ptr vmid
  else if function =? SENDAS then MH_sendas caller_ptr src_dst_e m_ptr vmid
  else if function =? RECVAS then MH_recvas caller_ptr src_dst_e m_ptr vmid
  else if function =? NOTIFYAS then MH_ntfyas caller_ptr src_dst vmid
  else if function =? SENDRECVM then
    set_reply_pending caller_ptr;;;
    let* result := call_sendvm caller_ptr src_dst_e m_ptr vmid in
    if negb (result =? OK) then ret result
    else call_recvvm caller_ptr src_dst_e m_ptr vmid
  else if function =? SENDVM then call_sendvm caller_ptr src_dst_e m_ptr vmid
  else if function =? RECVVM then call_recvvm caller_ptr src_dst_e m_ptr vmid
  else if function =? NOTIFYVM then
    let* c := getp caller_ptr in
    if p_vmid c =? vmid then MH_notify caller_ptr src_dst
    else MH_ntfyvm caller_ptr src_dst vmid
  else ret EBADCALL.

Definition sys_call (call_nr src_dst_e m_ptr bit_map : Z) : K Z :=
  let* s := get in
  let caller_ptr := proc_ptr s in
  let function := Z.land call_nr SYSCALL_FUNC in
  let vmid := s32 bit_map in
  let* r := call_class caller_ptr function vmid in
  match r with
  | Some result => ret result
  | None =>
      let* r := call_src_dst function src_dst_e in
      match r with
      | None => ret EDEADSRCDST
      | Some src_dst =>
          let* r := call_checks caller_ptr function src_dst m_ptr in
          match r with
          | Some result => ret result
          | None =>
              putp caller_ptr (λ r,
                r.[p_rts_flags := 0]
                 .[p_misc_flags := bclr (p_misc_flags r)
                     (Z.lor REPLY_PENDING VMID_PENDING)]);;;
              call_dispatch caller_ptr function src_dst_e src_dst m_ptr vmid
          end
      end
  end.

(** ** Gateways *)
Definition raw_notify (src_p dst_p : Z) : K Z :=
  let* src_ptr := proc_addr src_p in
  let* rcode := MH_notify src_ptr dst_p in
  when (negb (rcode =? 0)) (panic "raw_notify: src_p" src_p);;;
  ret rcode.

Definition lock_send (dst_ep m_ptr : Z) : K Z :=
  let* s := get in MH_send (proc_ptr s) dst_ep m_ptr.

Definition lock_notify (src_e dst_e : Z) : K Z :=
  let* '(ok_src, src) := isokendpt src_e in
  when (ok_src =? 0) (panic "lock_notify1: src" src);;;
  let* '(ok_dst, dst) := isokendpt dst_e in
  when (ok_dst =? 0) (panic "lock_notify2: dst" dst);;;
  if (ok_src =? 0) || (ok_dst =? 0) then ret EDEADSRCDST
  else
    let* result := raw_notify src dst in
    when (negb (result =? 0)) (panic "lock_notify3: src" src);;;
    ret result.

Definition lock_enqueue (rp : ptr) : K unit := enqueue rp.
Definition lock_dequeue (rp : ptr) : K unit := dequeue rp.
