(* ===== verification/KStep.v ===== *)
(** * Symbolic execution of the kernel monad

    Equations that run one statement of a kernel function, and the tactic
    [mrun] that applies them, looking up process, privilege and VM structures
    through the updates made so far.  Before them a running system for the witnesses. *)
From stdpp Require Import base gmap list numbers strings.
From Stdlib Require Import ZArith Lia.
From S2P Require Import Prelude.
From S2P Require Import Timers.
From S2P Require Import KTypes.
From S2P Require Import KProc.

Definition demo_map (base : Z) : mem_map := MemMap 0 base 16.

(** A process in slot [nr] of [vmid], with privilege structure [id]. *)
Definition mk_proc (vmid nr id rts misc : Z) : proc :=
  Proc 0 nr (Some (vmid, id)) rts misc 7 7 8 8
    (MemMap 0 0 0) (demo_map (1000 * (vmid + 1) + 16 * (nr + 4)))
    (MemMap 16 (1000 * (vmid + 1) + 16 * (nr + 4) + 16) 0) 0 0 None None None 0 NONE NONE 0 EmptyString (ENDPOINT 0 nr) vmid VM0 ANY_VM.

Definition mk_priv (nr id vmid flags : Z) : priv :=
  Priv nr id flags (-1) [0xFFFF; 0xFFFF] [0xFFFF; 0xFFFF] (-1) [0; 0] 0 0
    STACK_GUARD (Z.shiftl 1 vmid) 0 0 (replicate 32 0) (replicate 4 NONE)
    (replicate 3 (FarMem 0 0 0)) 0 (replicate 10 (0, 0)) 0 0 (replicate 4 0) vmid.

Definition demo_vm (flags tokens bsize endp : Z) (vmid : Z) : vm_struct :=
  VmStruct flags (1000 * (vmid + 1) * 4096) (1000 * (vmid + 2) * 4096 - 1) tokens bsize 0 0 endp (LoadInfo (replicate 150 0) 0 1000)
    (list_to_map (map (λ n, (n, (vmid, n))) (zrange (-4) 100)))
    (list_to_map (map (λ n, (n, (vmid, n))) (zrange 0 32))).

Definition demo_procs : gmap (Z * Z) proc := list_to_map [
  ((0, IDLE), (mk_proc 0 IDLE 0 0 0).[p_priority := IDLE_Q]);
  ((0, CLOCK), (mk_proc 0 CLOCK 1 RECEIVING 0).[p_getfrom_e := ANY].[p_priority := 0]);
  ((0, SYSTEM), (mk_proc 0 SYSTEM 2 RECEIVING 0).[p_getfrom_e := ANY].[p_priority := 0]);
  ((0, HARDWARE), mk_proc 0 HARDWARE 3 NO_MAP 0);
  ((0, 0), mk_proc 0 0 4 0 0x0200);
  ((0, 7), mk_proc 0 7 5 0 0x0200);
  ((0, 9), (mk_proc 0 9 6 0 PROXY_SERVER).[p_proxy := 1]);
  ((0, 20), mk_proc 0 20 0 0 0x0400);
  ((0, 21), mk_proc 0 21 0 0 0x0400);
  ((1, SYSTEM), mk_proc 1 SYSTEM 2 0 VIRTUAL_TASK);
  ((1, 5), mk_proc 1 5 7 0 VIRTUAL_TASK);
  ((1, 7), (mk_proc 1 7 5 0 PROMICUOUS_TASK).[p_nextready := Some (0, 7)]);
  ((1, 20), mk_proc 1 20 0 0 0x0400);
  ((1, 21), mk_proc 1 21 0 0 0x0400)].

Definition demo_privs : gmap (Z * Z) priv := list_to_map [
  ((0, 0), mk_priv NONE 0 0 (Z.lor PREEMPTIBLE BILLABLE));
  ((0, 1), mk_priv CLOCK 1 0 SYS_PROC);
  ((0, 2), mk_priv SYSTEM 2 0 SYS_PROC);
  ((0, 3), mk_priv HARDWARE 3 0 SYS_PROC);
  ((0, 4), mk_priv 0 4 0 SYS_PROC);
  ((0, 5), (mk_priv 7 5 0 SYS_PROC).[s_vm_bitmap := 3].[s_nr := [7; 7; NONE; NONE]]);
  ((0, 6), (mk_priv 9 6 0 SYS_PROC).[s_dr_bitmap := Z.lor (Z.shiftl 1 7) (Z.shiftl 1 2)]);
  ((1, 0), mk_priv NONE 0 1 (Z.lor PREEMPTIBLE BILLABLE));
  ((1, 2), mk_priv SYSTEM 2 1 SYS_PROC);
  ((1, 5), mk_priv 7 5 1 SYS_PROC);
  ((1, 7), mk_priv 5 7 1 SYS_PROC)].

(** The alarm timers of the system processes, none of them set. *)
Definition demo_timers : tqueue :=
  TQueue None ((λ _, Timer None TMR_NEVER 0 None) <$> demo_privs).

(** The interrupt hooks, none of them in use. *)
Definition demo_hooks : gmap Z irq_hook :=
  list_to_map (map (λ i, (i, IrqHook None 0 0 i NONE 0 0 VM0)) (zrange (-1) 16)).

(** Only IDLE is on a ready queue; [cur] is the running process. *)
Definition demo (cur : Z * Z) : kstate :=
  KState demo_procs demo_privs
    {[0 := demo_vm (Z.lor VM_LOADED VM_RUNNING) 224 MAXTOKENS 0 0;
      1 := demo_vm (Z.lor VM_LOADED VM_RUNNING) 32 32 9 1;
      2 := demo_vm VM_FREE 0 0 0 2; 3 := demo_vm VM_FREE 0 0 0 3]}
    {[IDLE_Q := (0, IDLE)]} {[IDLE_Q := (0, IDLE)]} (fst cur) (Some cur) None
    (Some (0, IDLE)) (Some (0, IDLE)) (Some (0, SYSTEM)) (Some (0, CLOCK))
    (Some (0, HARDWARE)) (Some (0, IDLE)) 0 8 3 1000 0 2000 ∅
    msg0 msg0 msg0 msg0 msg0 msg0 demo_timers NONE 0
    (λ _, 0) demo_hooks (replicate 16 None) (replicate 16 0) 0 ∅ [].

(** The whole process tables of the two machines: the other slots are free. *)
Definition free_slots : gmap (Z * Z) proc :=
  list_to_map (flat_map (λ v, map (λ n, ((v, n), mk_proc v n 0 SLOT_FREE 0)) (zrange (-4) NR_PROCS)) [0; 1]).

Definition full_demo (cur : Z * Z) : kstate := (demo cur).[procs := demo_procs ∪ free_slots].

(** A property of the entries of a table that is given as a list. *)
Lemma table_forall {A} (P : Z * Z → A → Prop) (l : list (Z * Z * A)) x r :
  Forall (λ e, P (fst e) (snd e)) l → (list_to_map l : gmap _ A) !! x = Some r → P x r.
Proof.
  intros H Hx%elem_of_list_to_map_2. rewrite Forall_forall in H. by apply (H (x, r)).
Qed.

Section steps.
Context {B : Type}.
Implicit Types (s : kstate).

Lemma bind_ret {S A} (a : A) (k : A → M S B) (s : S) : bind (ret a) k s = k a s.
Proof. done. Qed.
Lemma bind_skip {S} (k : unit → M S B) (s : S) : bind skip k s = k tt s.
Proof. done. Qed.
Lemma bind_get {S} (k : S → M S B) (s : S) : bind get k s = k s s.
Proof. done. Qed.
Lemma bind_modify {S} f (k : unit → M S B) (s : S) : bind (modify f) k s = k tt (f s).
Proof. done. Qed.
Lemma bind_getp s a r (k : proc → K B) :
  procs s !! a = Some r → bind (getp (Some a)) k s = k r s.
Proof. intros H. unfold bind, getp. by rewrite H. Qed.
Lemma bind_putp s a r f (k : unit → K B) :
  procs s !! a = Some r →
  bind (putp (Some a) f) k s = k tt (s.[procs := <[a := f r]> (procs s)]).
Proof. intros H. unfold bind, putp. by rewrite H. Qed.
Lemma bind_getpriv s a r (k : priv → K B) :
  privs s !! a = Some r → bind (getpriv (Some a)) k s = k r s.
Proof. intros H. unfold bind, getpriv. by rewrite H. Qed.
Lemma bind_putpriv s a r f (k : unit → K B) :
  privs s !! a = Some r →
  bind (putpriv (Some a) f) k s = k tt (s.[privs := <[a := f r]> (privs s)]).
Proof. intros H. unfold bind, putpriv. by rewrite H. Qed.
Lemma bind_getvm s v r (k : vm_struct → K B) :
  vms s !! v = Some r → bind (getvm v) k s = k r s.
Proof. intros H. unfold bind, getvm. by rewrite H. Qed.
Lemma bind_putvm s v r f (k : unit → K B) :
  vms s !! v = Some r →
  bind (putvm v f) k s = k tt (s.[vms := <[v := f r]> (vms s)]).
Proof. intros H. unfold bind, putvm. by rewrite H. Qed.
Lemma bind_when_true {S} m (k : unit → M S B) (s : S) :
  bind (when true m) k s = bind m k s.
Proof. done. Qed.
Lemma bind_when_false {S} m (k : unit → M S B) (s : S) :
  bind (when false m) k s = k tt s.
Proof. done. Qed.
Lemma bind_of_option {S A} o (a : A) (k : A → M S B) (s : S) :
  o = Some a → bind (of_option o) k s = k a s.
Proof. by intros ->. Qed.
End steps.

(** The last statement of a function has no continuation. *)
Lemma tail_putp s a r f :
  procs s !! a = Some r →
  putp (Some a) f s = Ret tt (s.[procs := <[a := f r]> (procs s)]).
Proof. intros H. unfold putp. by rewrite H. Qed.
Lemma tail_putpriv s a r f :
  privs s !! a = Some r →
  putpriv (Some a) f s = Ret tt (s.[privs := <[a := f r]> (privs s)]).
Proof. intros H. unfold putpriv. by rewrite H. Qed.
Lemma tail_getp s a r : procs s !! a = Some r → getp (Some a) s = Ret r s.
Proof. intros H. unfold getp. by rewrite H. Qed.
Lemma tail_getpriv s a r : privs s !! a = Some r → getpriv (Some a) s = Ret r s.
Proof. intros H. unfold getpriv. by rewrite H. Qed.

(** Find the value of a lookup through the updates of the state. *)
Ltac look :=
  cbn [procs privs vms rdy_head rdy_tail running_vm proc_ptr prev_ptr next_ptr
    bill_ptr systask_ptr clock_ptr hard_ptr idle_ptr next_vm switch_vm VM_bitmap
    realtime lost_ticks next_timeout kmem m_receive m_notify m_recvas m_ntfyas
    m_recvvm m_stack timers who_e who_p pmem hooks irq_handlers irq_actids
    irq_use panics fupd eta kstate_eta];
  first [ eassumption
        | rewrite lookup_insert_eq; reflexivity
        | rewrite lookup_insert_ne by congruence; look ].

(** One statement. *)
Ltac mstep :=
  first
    [ rewrite bind_assoc
    | rewrite bind_ret | rewrite bind_skip | rewrite bind_get
    | rewrite bind_modify
    | rewrite bind_when_true | rewrite bind_when_false
    | erewrite bind_getp by look | erewrite bind_putp by look
    | erewrite bind_getpriv by look | erewrite bind_putpriv by look
    | erewrite bind_getvm by look | erewrite bind_putvm by look
    | erewrite bind_of_option by eassumption
    | erewrite tail_putp by look | erewrite tail_putpriv by look
    | erewrite tail_getp by look | erewrite tail_getpriv by look ].
Ltac mrun := repeat (mstep; cbv beta).

#[global] Arguments band : simpl never.
#[global] Arguments bclr : simpl never.
#[global] Arguments u8 : simpl never.
#[global] Arguments u16 : simpl never.
#[global] Arguments u32 : simpl never.
#[global] Arguments s8 : simpl never.
#[global] Arguments s32 : simpl never.
#[global] Arguments list_fuel : simpl never.
#[global] Arguments getp : simpl never.
#[global] Arguments putp : simpl never.
#[global] Arguments getpriv : simpl never.
#[global] Arguments putpriv : simpl never.
#[global] Arguments getvm : simpl never.
#[global] Arguments putvm : simpl never.
