(* ===== verification/KProcThms.v ===== *)
(** * Properties of endpoints, bit maps and process addressing *)
From stdpp Require Import base gmap list numbers strings.
From Stdlib Require Import ZArith Lia.
From S2P Require Import Prelude.
From S2P Require Import KTypes.
From S2P Require Import KProc.
From S2P Require Import KStep.

(** ** Bits *)
Lemma bit_chunk bit : 0 <= bit →
  bit ÷ BITCHUNK_BITS = bit / 16 ∧ Z.rem bit BITCHUNK_BITS = bit mod 16 ∧ 0 <= bit mod 16 < 16.
Proof.
  intros H. unfold BITCHUNK_BITS. rewrite Z.quot_div_nonneg, Z.rem_mod_nonneg by lia.
  split; [done|]. split; [done|]. apply Z.mod_pos_bound. lia.
Qed.

(** The bit of [i] in a map, as a test. *)
Definition sys_bit (map : list Z) (i : Z) : option bool :=
  c ← aget map (i / 16); Some (Z.testbit c (i mod 16)).

Lemma get_sys_bit_eq map i : 0 <= i → get_sys_bit map i = sys_bit map i.
Proof.
  intros Hi. unfold get_sys_bit, sys_bit. destruct (bit_chunk i Hi) as (-> & -> & ?).
  destruct (aget map (i / 16)); [|done]. cbn. by rewrite band_shiftl by lia.
Qed.

(** Both updates of a bit map, at once: bit [i] becomes [b]. *)
Definition put_sys_bit (b : bool) := if b then set_sys_bit else unset_sys_bit.

Lemma put_sys_bit_spec b map i map' :
  0 <= i → put_sys_bit b map i = Some map' →
  length map' = length map ∧
  ∀ j, 0 <= j → get_sys_bit map' j = if decide (j = i) then Some b else get_sys_bit map j.
Proof.
  intros Hi Hput. destruct (bit_chunk i Hi) as (Hq & Hr & Hm).
  assert (∃ c, aget map (i / 16) = Some c ∧
    aset map (i / 16) (u16 (if b then Z.lor c (Z.shiftl 1 (i mod 16))
                            else bclr c (Z.shiftl 1 (i mod 16)))) = Some map')
    as (c & Hc & Hset).
  { destruct b; unfold put_sys_bit, set_sys_bit, unset_sys_bit in Hput; rewrite Hq, Hr in Hput;
      (destruct (aget map (i / 16)) as [c|]; [|done]); by exists c. }
  split; [by apply aset_length in Hset|]. intros j Hj. rewrite !get_sys_bit_eq by done.
  unfold sys_bit. destruct (Z.eq_dec (j / 16) (i / 16)) as [E|E].
  - rewrite E, (aset_aget_eq _ _ _ _ Hset), Hc. cbn.
    pose proof (Z.mod_pos_bound j 16 ltac:(lia)) as Hjm. rewrite u16_testbit by lia.
    rewrite Z.shiftl_1_l. pose proof (Z.div_mod j 16 ltac:(lia)).
    pose proof (Z.div_mod i 16 ltac:(lia)). case_decide as Hji.
    + subst j. f_equal. destruct b.
      * by rewrite Z.lor_spec, Z.pow2_bits_true, orb_true_r by lia.
      * unfold bclr. rewrite Z.land_spec, Z.lnot_spec, Z.pow2_bits_true by lia.
        apply andb_false_r.
    + f_equal. assert (j mod 16 ≠ i mod 16) by lia. destruct b.
      * rewrite Z.lor_spec, Z.pow2_bits_false by lia. apply orb_false_r.
      * unfold bclr. rewrite Z.land_spec, Z.lnot_spec, Z.pow2_bits_false by lia.
        apply andb_true_r.
  - rewrite (aset_aget_ne _ _ _ _ _ Hset) by congruence.
    rewrite decide_False; [done|]. by intros ->.
Qed.

(** ** Properties *)

(** Endpoints: composing a generation and a process number and taking them
    apart again loses nothing, for every generation up to the maximum and every
    slot, and the composed endpoint is never one of the reserved values. *)
Theorem endpoint_roundtrip g p :
  0 <= g <= ENDPOINT_MAX_GENERATION → - NR_TASKS <= p < NR_PROCS →
  ENDPOINT_P (ENDPOINT g p) = p ∧ ENDPOINT_G (ENDPOINT g p) = g ∧
  ENDPOINT g p ≠ ANY ∧ ENDPOINT g p ≠ NONE ∧ ENDPOINT g p ≠ SELF.
Proof.
  unfold ENDPOINT_MAX_GENERATION, ENDPOINT_P, ENDPOINT_G, ENDPOINT, NR_TASKS, NR_PROCS,
    ANY, NONE, SELF.
  replace ENDPOINT_GENERATION_SIZE with 35539 by reflexivity.
  replace ((2 ^ 31 - 1) ÷ 35539 - 1) with 60425 by reflexivity. intros Hg Hp.
  rewrite (s32_id (g * 35539 + p)) by lia. rewrite s32_id by lia.
  rewrite Z.quot_div_nonneg, Z.rem_mod_nonneg by lia.
  replace (g * 35539 + p + 4) with (p + 4 + g * 35539) by lia.
  rewrite Z.mod_add, Z.div_add, Z.mod_small, Z.div_small by lia.
  assert (g = 0 ∨ 1 <= g) as [->|?] by lia; split_and!; lia.
Qed.

Theorem endpoint_roundtrip_witness :
  ENDPOINT_P (ENDPOINT 2 9) = 9 ∧ ENDPOINT_G (ENDPOINT 2 9) = 2.
Proof.
  destruct (endpoint_roundtrip 2 9) as (H1 & H2 & _).
  - vm_compute. split; discriminate.
  - vm_compute. split; [discriminate|reflexivity].
  - split; [exact H1|exact H2].
Defined.

(** Bit maps: setting or clearing a system id changes that bit and no other. *)
Theorem sys_bit_update b map i map' j :
  0 <= i → 0 <= j → (if b : bool then set_sys_bit map i else unset_sys_bit map i) = Some map' →
  get_sys_bit map' j = if decide (j = i) then Some b else get_sys_bit map j.
Proof.
  intros Hi Hj Hput. assert (put_sys_bit b map i = Some map') as H by by destruct b.
  by apply (put_sys_bit_spec b map i map' Hi H).
Qed.

Theorem sys_bit_update_witness :
  set_sys_bit [0; 1] 20 = Some [0; 17] ∧ get_sys_bit [0; 17] 16 = Some true.
Proof.
  split; [vm_compute; reflexivity|].
  rewrite (sys_bit_update true [0; 1] 20 [0; 17] 16); [vm_compute; reflexivity|lia|lia|].
  vm_compute. reflexivity.
Defined.

(** [isokendpt] accepts an endpoint exactly when it belongs to a kernel task
    or when the slot it names is in use under that very endpoint; it always
    returns and never changes the state.  In particular the fall-back to the
    promiscuous process of VM0 never makes an endpoint acceptable. *)
Theorem isokendpt_exact s e a r :
  let p := ENDPOINT_P e in
  proc_addr p s = Ret (Some a) s → procs s !! a = Some r →
  is_Some (procs s !! (VM0, p)) →
  isokendpt e s =
  Ret (if is_task p || (isokprocn p && (p_endpoint r =? e) && negb (p_rts_flags r =? SLOT_FREE))
       then 1 else 0, p) s.
Proof.
  intros p Haddr Hr Hp0. unfold isokendpt, isokendpt_f. fold p. cbv zeta.
  destruct (is_task p) eqn:Ht; [done|]. cbn [orb].
  rewrite (bind_Ret _ _ _ _ _ Haddr).
  assert (Hlog : ∀ ok s, (when ((ok =? 0) && false) (panic "invalid endpoint " e);;;
    ret (ok, p)) s = Ret (ok, p) s) by (intros ok s0; by rewrite andb_false_r).
  destruct (isokprocn p) eqn:Hok; cbn [negb andb]; [|by rewrite bind_ret, Hlog].
  rewrite bind_assoc, (bind_getp s a r) by done.
  destruct (p_endpoint r =? e); cbn [negb andb].
  - destruct (p_rts_flags r =? SLOT_FREE); cbn [negb]; by rewrite bind_ret, Hlog.
  - destruct (band (p_misc_flags r) PROMICUOUS_TASK); [|by rewrite bind_ret, Hlog].
    destruct Hp0 as [r0 Hr0]. unfold proc_addr_vm. rewrite bind_assoc.
    unfold is_task in Ht. apply orb_false_iff in Ht as [Ht Hi].
    apply orb_false_iff in Ht as [Ht Hh]. apply orb_false_iff in Ht as [Hs Hc].
    rewrite Hok, Hi, Hh, Hs, Hc. cbn [negb orb].
    replace ((VM0 <? VM0) || (NR_VMS <=? VM0)) with false by done.
    rewrite !bind_assoc, bind_get, bind_ret, bind_assoc, (bind_getp s (VM0, p) r0) by done.
    by rewrite bind_ret, Hlog.
Qed.

(** The descriptor of the promiscuous process 7 in VM1 under another endpoint. *)
Theorem isokendpt_exact_witness :
  isokendpt (ENDPOINT 1 7) (demo (1, 20)) = Ret (0, 7) (demo (1, 20)) ∧
  isokendpt (ENDPOINT 0 7) (demo (1, 20)) = Ret (1, 7) (demo (1, 20)).
Proof.
  split.
  - rewrite (isokendpt_exact (demo (1, 20)) (ENDPOINT 1 7) (1, 7)
      ((mk_proc 1 7 5 0 PROMICUOUS_TASK).[p_nextready := Some (0, 7)]));
      [vm_compute; reflexivity..|eexists; vm_compute; reflexivity].
  - rewrite (isokendpt_exact (demo (1, 20)) (ENDPOINT 0 7) (1, 7)
      ((mk_proc 1 7 5 0 PROMICUOUS_TASK).[p_nextready := Some (0, 7)]));
      [vm_compute; reflexivity..|eexists; vm_compute; reflexivity].
Defined.
