(* ===== verification/KReady.v ===== *)
(** * Ready queues and the choice of the next process

    The abstract view of the scheduler of [src/kernel/proc.c]: [ready_queues s Q]
    says that the sixteen linked queues of [s] hold exactly the lists [Q].
    [pick_proc] is proved equal to a choice computed from [Q]. *)
From stdpp Require Import base gmap list numbers strings.
From Stdlib Require Import ZArith Lia.
From S2P Require Import Prelude.
From S2P Require Import Chains.
From S2P Require Import KTypes.
From S2P Require Import KProc.
From S2P Require Import KSched.
From S2P Require Import KStep.

Abbreviation queues := (Z → list (Z * Z)).

(** What [pick_proc] reads of a ready process. *)
Definition ready_proc (s : kstate) (q : Z) (a : Z * Z) : bool :=
  match procs s !! a with
  | Some r =>
      (p_priority r =? q) && bool_decide (is_Some (vms s !! p_vmid r))
      && match p_priv r with
         | Some pa => bool_decide (is_Some (privs s !! pa))
         | None => false
         end
  | None => false
  end.

Record ready_queues (s : kstate) (Q : queues) : Prop := {
  rq_chain q : rdy_index q → chain p_nextready (procs s) (rdy_head s !! q) (Q q);
  rq_tail q : rdy_index q → Q q ≠ [] → rdy_tail s !! q = last (Q q);
  rq_nodup q : NoDup (Q q);
  rq_slots q a : a ∈ Q q → rdy_index q ∧ valid_slot a ∧ ready_proc s q a;
  rq_idle : Q IDLE_Q ≠ [] }.

(** The same property, computed. *)
Definition queue_of (s : kstate) : queues := λ q,
  if rdy_index q
  then default [] (walk list_fuel p_nextready (procs s) (rdy_head s !! q)) else [].

Definition queue_ok (s : kstate) (q : Z) : bool :=
  match walk list_fuel p_nextready (procs s) (rdy_head s !! q) with
  | Some l =>
      (bool_decide (l = []) || bool_decide (rdy_tail s !! q = last l))
      && bool_decide (NoDup l)
      && forallb (λ a, bool_decide (valid_slot a) && ready_proc s q a) l
  | None => false
  end.

Definition ready_queuesb (s : kstate) : bool :=
  forallb (queue_ok s) (zrange 0 NR_SCHED_QUEUES)
  && negb (bool_decide (queue_of s IDLE_Q = [])).

(** The processes the scan of [pick_proc] visits, in its order. *)
Definition scanned (Q : queues) : list (Z * Z) :=
  Q 0 ++ Q 1 ++ Q 2 ++ Q 3 ++ Q 4 ++ Q 5 ++ Q 6 ++ Q 7 ++ Q 8 ++ Q 9 ++ Q 10
  ++ Q 11 ++ Q 12 ++ Q 13 ++ Q 14.

Definition sat (s : kstate) (P : proc → bool) (a : Z * Z) : bool :=
  match procs s !! a with Some r => P r | None => false end.

(** A process of the hypervisor: it ends the scan. *)
Definition is_host (r : proc) : bool :=
  (p_nr r =? SYSTEM) || (p_nr r =? CLOCK) || (p_vmid r =? VM0).
Definition vm_has_tokens (s : kstate) (r : proc) : bool :=
  match vms s !! p_vmid r with Some vm => 0 <? vm_tokens vm | None => false end.
Definition guest_task (s : kstate) (r : proc) : bool :=
  (MH_LEVEL (p_misc_flags r) =? TASK_LEVEL) && vm_has_tokens s r.

Fixpoint first_such (P : Z * Z → bool) (l : list (Z * Z)) : ptr :=
  match l with [] => None | a :: l => if P a then Some a else first_such P l end.

(** The scheduling policy. *)
Definition choice (s : kstate) (Q : queues) : ptr :=
  match first_such (sat s is_host) (scanned Q) with
  | Some a => Some a
  | None =>
      match first_such (sat s (guest_task s)) (scanned Q) with
      | Some a => Some a
      | None =>
          match head (scanned Q) with Some a => Some a | None => head (Q IDLE_Q) end
      end
  end.

(** SYSTEM and CLOCK are never billed; others are when they are BILLABLE. *)
Definition billed (s : kstate) (a : Z * Z) (stop : bool) : bool :=
  sat s (λ r,
    negb (stop && ((p_nr r =? SYSTEM) || (p_nr r =? CLOCK)))
    && match p_priv r with
       | Some pa =>
           match privs s !! pa with
           | Some pr => band (s_flags pr) BILLABLE
           | None => false
           end
       | None => false
       end) a.

Definition after_pick (s : kstate) (Q : queues) : kstate :=
  match choice s Q with
  | Some a =>
      s.[next_ptr := Some a]
       .[bill_ptr := if billed s a (negb (is_null (first_such (sat s is_host) (scanned Q))))
                     then Some a else bill_ptr s]
  | None => s
  end.

(** ** Lists *)
Lemma first_such_app P l l' :
  first_such P (l ++ l') =
  match first_such P l with Some a => Some a | None => first_such P l' end.
Proof. induction l as [|a l IH]; cbn; [done|]. by destruct (P a). Qed.

Lemma first_such_Some P l a : first_such P l = Some a → a ∈ l ∧ P a.
Proof.
  induction l as [|b l IH]; cbn; [done|]. destruct (P b) eqn:E.
  - intros [= ->]. rewrite E. by split; [left|].
  - intros [? ?]%IH. by split; [right|].
Qed.

Lemma first_such_None P l a : first_such P l = None → a ∈ l → P a = false.
Proof.
  induction l as [|b l IH]; cbn; [set_solver|]. destruct (P b) eqn:E; [done|].
  intros H [->|Hin]%elem_of_cons; auto.
Qed.

Lemma head_app_case {A} (l l' : list A) :
  head (l ++ l') = match head l with Some a => Some a | None => head l' end.
Proof. by destruct l. Qed.

Lemma ready_queuesb_sound s : ready_queuesb s = true → ready_queues s (queue_of s).
Proof.
  intros [Hq Hidle]%andb_true_iff. rewrite forallb_forall in Hq.
  assert (Hok : ∀ q, rdy_index q → ∃ l, queue_of s q = l ∧
    chain p_nextready (procs s) (rdy_head s !! q) l ∧
    (l ≠ [] → rdy_tail s !! q = last l) ∧ NoDup l ∧
    ∀ a, a ∈ l → valid_slot a ∧ ready_proc s q a).
  { intros q Hi%Is_true_true. specialize (Hq q). unfold queue_of. rewrite Hi.
    assert (Hin : In q (zrange 0 NR_SCHED_QUEUES)).
    { apply list_elem_of_In, elem_of_zrange. unfold rdy_index in Hi. lia. }
    specialize (Hq Hin). unfold queue_ok in Hq.
    destruct (walk _ _ _ _) as [l|] eqn:Hw; [|done]. exists l. cbn.
    apply andb_true_iff in Hq as [[Ht%orb_true_iff Hnd]%andb_true_iff Hall].
    split; [done|]. split; [by eapply walk_chain|].
    rewrite !bool_decide_eq_true in Ht. rewrite bool_decide_eq_true in Hnd.
    split; [tauto|]. split; [done|]; rewrite forallb_forall in Hall.
    intros a Ha%list_elem_of_In%Hall. apply andb_true_iff in Ha as [Hv Hr].
    rewrite bool_decide_eq_true in Hv. split; [done|]. by rewrite Hr. }
  split.
  - intros q Hi. by destruct (Hok q Hi) as (l & -> & ? & _).
  - intros q Hi. by destruct (Hok q Hi) as (l & -> & ? & ? & _).
  - intros q. destruct (rdy_index q) eqn:Hi.
    + destruct (Hok q) as (l & -> & ? & ? & ? & _); [by rewrite Hi|done].
    + unfold queue_of. rewrite Hi. constructor.
  - intros q a. destruct (rdy_index q) eqn:Hi.
    + destruct (Hok q) as (l & -> & ? & ? & ? & Hl); [by rewrite Hi|].
      intros Ha. destruct (Hl a Ha). done.
    + unfold queue_of. rewrite Hi. set_solver.
  - apply negb_true_iff, bool_decide_eq_false in Hidle. done.
Qed.

(** The abstraction is a function of the state. *)
Lemma ready_queues_queue_of s Q q : ready_queues s Q → rdy_index q → queue_of s q = Q q.
Proof.
  intros H Hi. unfold queue_of. destruct (rdy_index q) eqn:E; [|done].
  rewrite (chain_walk _ _ _ _ (Q q)); [done|by apply H; rewrite E|].
  apply slots_bound; [apply H|]. rewrite Forall_forall. intros a Ha.
  by apply H in Ha as (_ & ? & _).
Qed.

Lemma ready_queue_length s Q q : ready_queues s Q → (length (Q q) < list_fuel)%nat.
Proof.
  intros H. apply slots_bound; [apply H|]. rewrite Forall_forall.
  intros a Ha. by apply H in Ha as (_ & ? & _).
Qed.

Lemma ready_proc_inv s q a :
  ready_proc s q a →
  ∃ r vm pa pr, procs s !! a = Some r ∧ p_priority r = q ∧
    vms s !! p_vmid r = Some vm ∧ p_priv r = Some pa ∧ privs s !! pa = Some pr.
Proof.
  unfold ready_proc. destruct (procs s !! a) as [r|]; [|done].
  intros [[Hp Hv]%andb_prop_elim Hpr]%andb_prop_elim.
  apply bool_decide_unpack in Hv as [vm Hv]. destruct (p_priv r) as [pa|] eqn:E; [|done].
  apply bool_decide_unpack in Hpr as [pr Hpr].
  exists r, vm, pa, pr. repeat split; try done. by apply Is_true_true, Z.eqb_eq in Hp.
Qed.

Lemma ready_proc_intro s q a r vm pa pr :
  procs s !! a = Some r → p_priority r = q → vms s !! p_vmid r = Some vm →
  p_priv r = Some pa → privs s !! pa = Some pr → ready_proc s q a.
Proof.
  intros Hr <- Hv Hpa Hpr. unfold ready_proc.
  rewrite Hr, Hpa, Hv, Hpr, Z.eqb_refl, !bool_decide_true; by eauto.
Qed.

(** ** [pick_proc] *)
Lemma bill_run s v a r pa pr :
  procs s !! a = Some r → p_priv r = Some pa → privs s !! pa = Some pr →
  bill (Some a) (s.[next_ptr := v]) =
  Ret tt (s.[next_ptr := v].[bill_ptr := if band (s_flags pr) BILLABLE then Some a
                                          else bill_ptr s]).
Proof.
  intros Hr Hpa Hpr. unfold bill, priv_of. rewrite bind_assoc.
  rewrite (bind_getp _ _ r) by done. rewrite Hpa.
  rewrite (bind_getpriv _ _ pr) by done. unfold when, skip, modify, ret.
  by destruct (band (s_flags pr) BILLABLE).
Qed.

Definition cand_ok (s : kstate) (l : list (Z * Z)) (c : cands) : Prop :=
  rp_TwT c = first_such (sat s (guest_task s)) l ∧ rp_PwoT c = head l ∧
  (rp_TwT c = None → rp_nvmT c = None ∧ rp_PwT c = None ∧ rp_TwoT c = None).

Lemma update_cands_ok s l c a r vm nvm on :
  cand_ok s l c → procs s !! a = Some r → vms s !! p_vmid r = Some vm →
  cand_ok s (l ++ [a])
    (update_cands c a (MH_LEVEL (p_misc_flags r) =? TASK_LEVEL) (0 <? vm_tokens vm)
       nvm on).
Proof.
  intros (Ht & Hp & Hn) Hr Hv. unfold cand_ok.
  rewrite first_such_app, head_app_case, <-Ht, <-Hp. cbn.
  unfold sat, guest_task, vm_has_tokens. rewrite Hr, Hv.
  destruct c as [t n p w o]; cbn in *. unfold update_cands. cbn.
  destruct t as [t|]; cbn.
  - split_and!; repeat (case_match; cbn in *; try done).
  - destruct (Hn eq_refl) as (-> & -> & ->).
    split_and!; repeat (case_match; cbn in *; try done).
Qed.

Definition host_picked (s : kstate) (a : Z * Z) : kstate :=
  s.[next_ptr := Some a].[bill_ptr := if billed s a true then Some a else bill_ptr s].

Lemma pick_scan_run s q l : ∀ n x v c pre,
  chain p_nextready (procs s) x l → (∀ a, a ∈ l → ready_proc s q a) →
  (length l < n)%nat → cand_ok s pre c →
  match first_such (sat s is_host) l with
  | Some a => loop n pick_scan (x, c) (s.[next_ptr := v]) = Ret None (host_picked s a)
  | None => ∃ c' v', loop n pick_scan (x, c) (s.[next_ptr := v])
                     = Ret (Some c') (s.[next_ptr := v']) ∧ cand_ok s (pre ++ l) c'
  end.
Proof.
  induction l as [|a l IH]; intros n x v c pre Hc Hall Hn Hok;
    (destruct n as [|n]; [cbn in Hn; lia|]); rewrite loop_S.
  - cbn in Hc. subst x. cbn. exists c, v. by rewrite app_nil_r.
  - destruct Hc as (-> & r & Hr & Hc). destruct (ready_proc_inv s q a) as
      (r' & vm & pa & pr & Hr' & Hq & Hv & Hpa & Hpr); [apply Hall; by left|].
    rewrite Hr in Hr'. injection Hr' as <-. cbn [first_such].
    assert (Hsat : sat s is_host a = is_host r) by (unfold sat; by rewrite Hr).
    rewrite Hsat. unfold is_host. cbn [pick_scan]. mrun. cbn [next_ptr fupd].
    destruct ((p_nr r =? SYSTEM) || (p_nr r =? CLOCK)) eqn:Hk; cbn [orb].
    + unfold host_picked, billed, sat. rewrite Hr, Hk. done.
    + destruct (p_vmid r =? VM0) eqn:Hv0.
      * unfold bind at 1.
        pose proof (bill_run s (Some a) a r pa pr Hr Hpa Hpr) as Hb.
        cbn in Hb |- *. unfold fupd in Hb |- *. cbn in Hb |- *. rewrite Hb.
        unfold host_picked, billed, sat. rewrite Hr, Hk, Hpa, Hpr. done.
      * mrun. cbn.
        set (c' := update_cands c a _ _ _ _).
        pose proof (update_cands_ok s pre c a r vm (p_vmid r =? next_vm s)
                      (negb (next_vm s =? VM0)) Hok Hr Hv) as Hok'.
        specialize (IH n (p_nextready r) (Some a) c' (pre ++ [a]) Hc).
        rewrite <-app_assoc in IH. cbn in IH. apply IH; [|cbn in Hn; lia|done].
        intros b Hb. apply Hall. by right.
Qed.

Lemma pick_queues_run s Q qs : ∀ v c pre,
  ready_queues s Q → Forall (λ q, Is_true (rdy_index q)) qs → cand_ok s pre c →
  match first_such (sat s is_host) (concat (map Q qs)) with
  | Some a => pick_queues qs c (s.[next_ptr := v]) = Ret None (host_picked s a)
  | None => ∃ c' v', pick_queues qs c (s.[next_ptr := v])
                     = Ret (Some c') (s.[next_ptr := v'])
                     ∧ cand_ok s (pre ++ concat (map Q qs)) c'
  end.
Proof.
  induction qs as [|q qs IH]; intros v c pre HQ Hqs Hok;
    cbn [map concat].
  - exists c, v. by rewrite app_nil_r.
  - apply Forall_cons in Hqs as [Hq Hqs]. rewrite first_such_app.
    pose proof (pick_scan_run s q (Q q) list_fuel (rdy_head s !! q) v c pre) as Hscan.
    specialize (Hscan ltac:(by apply HQ)
      ltac:(intros a Ha; by apply HQ in Ha as (_ & _ & ?))
      (ready_queue_length _ _ _ HQ) Hok).
    assert (Hstep : pick_queues (q :: qs) c (s.[next_ptr := v]) =
      bind (loop list_fuel pick_scan (rdy_head s !! q, c))
        (λ r, match r with None => ret None | Some c => pick_queues qs c end)
        (s.[next_ptr := v])).
    { cbn. unfold bind at 1. by rewrite (proj1 (Is_true_true _) Hq). }
    rewrite Hstep.
    destruct (first_such _ (Q q)) as [a|].
    + by rewrite (bind_Ret _ _ _ _ _ Hscan).
    + destruct Hscan as (c' & v' & Hrun & Hok'). rewrite (bind_Ret _ _ _ _ _ Hrun).
      specialize (IH v' c' _ HQ Hqs Hok'). rewrite <-app_assoc in IH. exact IH.
Qed.

Lemma scanned_concat Q :
  scanned Q = concat (map Q (zrange 0 (NR_SCHED_QUEUES - 1))).
Proof.
  change (zrange 0 (NR_SCHED_QUEUES - 1))
    with [0; 1; 2; 3; 4; 5; 6; 7; 8; 9; 10; 11; 12; 13; 14].
  cbn [map concat]. by rewrite app_nil_r.
Qed.

Lemma ready_ready s Q q a : ready_queues s Q → a ∈ Q q → ready_proc s q a.
Proof. intros H Ha. by apply H in Ha as (_ & _ & ?). Qed.

Lemma elem_of_scanned Q a : a ∈ scanned Q → ∃ q, 0 <= q < IDLE_Q ∧ a ∈ Q q.
Proof.
  rewrite scanned_concat. intros (l & Hin & Ha)%list_elem_of_In%in_concat.
  apply in_map_iff in Hin as (q & <- & Hq). exists q.
  apply list_elem_of_In, elem_of_zrange in Hq. by apply list_elem_of_In in Ha.
Qed.

Lemma choice_ready s Q : ready_queues s Q → ∃ q a, choice s Q = Some a ∧ a ∈ Q q.
Proof.
  intros H. unfold choice.
  destruct (first_such (sat s is_host) _) as [a|] eqn:E1.
  { apply first_such_Some in E1 as [(q & _ & ?)%elem_of_scanned _]. eauto. }
  destruct (first_such (sat s (guest_task s)) _) as [a|] eqn:E2.
  { apply first_such_Some in E2 as [(q & _ & ?)%elem_of_scanned _]. eauto. }
  destruct (scanned Q) as [|a l] eqn:E3; cbn.
  - pose proof (rq_idle _ _ H) as Hi. exists IDLE_Q.
    destruct (Q IDLE_Q) as [|a l]; [done|]. exists a. split; [done|by left].
  - assert (a ∈ scanned Q) as (q & _ & ?)%elem_of_scanned by (rewrite E3; by left).
    eauto.
Qed.

Lemma pick_proc_run s Q : ready_queues s Q → pick_proc s = Ret tt (after_pick s Q).
Proof.
  intros HQ. unfold pick_proc, after_pick.
  pose proof (pick_queues_run s Q (zrange 0 (NR_SCHED_QUEUES - 1)) (next_ptr s)
                no_cands [] HQ) as Hrun.
  rewrite <-scanned_concat in Hrun.
  change (s.[next_ptr := next_ptr s]) with s in Hrun.
  specialize (Hrun ltac:(apply (bool_decide_eq_true_1 _); vm_compute; done)
                   ltac:(done)).
  destruct (choice_ready s Q HQ) as (q & a & Hch & Ha). rewrite Hch.
  unfold choice in Hch.
  destruct (first_such (sat s is_host) (scanned Q)) as [b|] eqn:Eh.
  - injection Hch as ->. by rewrite (bind_Ret _ _ _ _ _ Hrun).
  - destruct Hrun as (c & v & Hrun & Ht & Ho & Hnone). cbn [app] in *.
    rewrite (bind_Ret _ _ _ _ _ Hrun).
    apply ready_ready with (s := s) in Ha; [|done].
    apply ready_proc_inv in Ha as (r & vm & pa & pr & Hr & _ & _ & Hpa & Hpr).
    assert (Hbill : billed s a false = band (s_flags pr) BILLABLE).
    { unfold billed, sat. by rewrite Hr, Hpa, Hpr. }
    cbn [is_null negb]. rewrite Hbill, Ht, Ho.
    destruct (first_such (sat s (guest_task s)) (scanned Q)) as [b|] eqn:Et.
    + injection Hch as ->.
      exact (bill_run s (Some a) a r pa pr Hr Hpa Hpr).
    + destruct (Hnone Ht) as (-> & -> & ->).
      destruct (head (scanned Q)) as [b|] eqn:Eo.
      * injection Hch as ->.
        exact (bill_run s (Some a) a r pa pr Hr Hpa Hpr).
      * assert (Hhd : rdy_head s !! IDLE_Q = Some a).
        { pose proof (rq_chain _ _ HQ IDLE_Q I) as Hc.
          destruct (Q IDLE_Q) as [|b l]; [done|]. cbn in *. destruct Hc as [-> _].
          congruence. }
        unfold bind. cbn. rewrite Hhd.
        exact (bill_run s (Some a) a r pa pr Hr Hpa Hpr).
Qed.

(** ** Changing one queue *)
Definition q_update (Q : queues) (q : Z) (l : list (Z * Z)) : queues := λ q',
  if q' =? q then l else Q q'.

Lemma q_update_eq Q q l : q_update Q q l q = l.
Proof. unfold q_update. by rewrite Z.eqb_refl. Qed.
Lemma q_update_ne Q q l q' : q' ≠ q → q_update Q q l q' = Q q'.
Proof. intros H. unfold q_update. by rewrite (proj2 (Z.eqb_neq _ _) H). Qed.

Lemma ready_proc_agree s s' q a :
  procs s' !! a = procs s !! a → vms s' = vms s → privs s' = privs s →
  ready_proc s' q a = ready_proc s q a.
Proof. unfold ready_proc. by intros -> -> ->. Qed.

Lemma ready_queues_disjoint s Q q q' a :
  ready_queues s Q → a ∈ Q q → a ∈ Q q' → q = q'.
Proof.
  intros H H1 H2. apply (ready_ready s) in H1, H2; [|done..].
  apply ready_proc_inv in H1 as (r & ? & ? & ? & Hr & <- & _).
  apply ready_proc_inv in H2 as (r' & ? & ? & ? & Hr' & <- & _). congruence.
Qed.

Lemma ready_queues_update s s' Q q l :
  ready_queues s Q → rdy_index q → vms s' = vms s → privs s' = privs s →
  chain p_nextready (procs s') (rdy_head s' !! q) l →
  (l ≠ [] → rdy_tail s' !! q = last l) → NoDup l →
  (∀ a, a ∈ l → valid_slot a ∧ ready_proc s' q a) → (q = IDLE_Q → l ≠ []) →
  (∀ q', q' ≠ q → rdy_head s' !! q' = rdy_head s !! q' ∧
                  rdy_tail s' !! q' = rdy_tail s !! q') →
  (∀ q' a, q' ≠ q → a ∈ Q q' → procs s' !! a = procs s !! a) →
  ready_queues s' (q_update Q q l).
Proof.
  intros HQ Hi Hvm Hpr Hc Ht Hnd Hall Hidle Hht Hsame.
  assert (Hcase : ∀ P : Z → list (Z * Z) → Prop,
    P q l → (∀ q', q' ≠ q → P q' (Q q')) → ∀ q', P q' (q_update Q q l q')).
  { intros P H1 H2 q'. destruct (decide (q' = q)) as [->|Hne];
      rewrite ?q_update_eq, ?q_update_ne by done; auto. }
  split.
  - apply (Hcase (λ q l, rdy_index q → chain p_nextready (procs s') (rdy_head s' !! q) l));
      [done|]. intros q' Hne Hi'. destruct (Hht q' Hne) as [-> _].
    apply (chain_agree _ (procs s)); [eauto|]. by apply HQ.
  - apply (Hcase (λ q l, rdy_index q → l ≠ [] → rdy_tail s' !! q = last l)); [done|].
    intros q' Hne Hi'. destruct (Hht q' Hne) as [_ ->]. by apply HQ.
  - apply (Hcase (λ _ l, NoDup l)); [done|]. intros q' _. apply HQ.
  - intros q'. revert q'. apply (Hcase (λ q l, ∀ a, a ∈ l →
      rdy_index q ∧ valid_slot a ∧ ready_proc s' q a)).
    { intros a Ha. by apply Hall in Ha. }
    intros q' Hne a Ha. destruct (rq_slots _ _ HQ q' a Ha) as (? & ? & ?).
    split; [done|]. split; [done|]. rewrite (ready_proc_agree s); eauto.
  - destruct (decide (IDLE_Q = q)) as [<-|]; rewrite ?q_update_eq, ?q_update_ne by done;
      auto. apply HQ.
Qed.

(** A change of [next_ptr] and [bill_ptr] does not touch the queues. *)
Lemma ready_queues_same s s' Q :
  procs s' = procs s → rdy_head s' = rdy_head s → rdy_tail s' = rdy_tail s →
  vms s' = vms s → privs s' = privs s → ready_queues s Q → ready_queues s' Q.
Proof.
  intros Hp Hh Ht Hv Hpr [H1 H2 H3 H4 H5]. split; rewrite ?Hp, ?Hh, ?Ht; auto.
  intros q a Ha. destruct (H4 q a Ha) as (? & ? & ?). split_and!; try done.
  rewrite (ready_proc_agree s); [done| |done..]. by rewrite Hp.
Qed.

Lemma ready_queues_after_pick s Q Q' :
  ready_queues s Q → ready_queues (after_pick s Q') Q.
Proof.
  intros H. unfold after_pick. destruct (choice s Q'); [|done].
  by apply (ready_queues_same s).
Qed.

(** ** States up to scheduling

    [unsched] erases what the scheduler writes: two states with the same image
    differ only in scheduling. *)
Definition erase (r : proc) : proc :=
  r.[p_nextready := None].[p_priority := 0].[p_ticks_left := 0].
Definition unsched (s : kstate) : kstate :=
  s.[procs := erase <$> procs s].[rdy_head := ∅].[rdy_tail := ∅]
   .[next_ptr := None].[bill_ptr := None].

Lemma unsched_lookup s s' a r :
  unsched s' = unsched s → procs s !! a = Some r →
  ∃ r', procs s' !! a = Some r' ∧ erase r' = erase r.
Proof.
  intros H Hr. assert (Hm : erase <$> procs s' = erase <$> procs s).
  { change (procs (unsched s') = procs (unsched s)). by rewrite H. }
  apply (f_equal (lookup a)) in Hm. rewrite !lookup_fmap, Hr in Hm. cbn in Hm.
  destruct (procs s' !! a) as [r'|]; [|done]. exists r'.
  split; [done|]. by apply (inj Some).
Qed.

Lemma unsched_putp s a r r' :
  procs s !! a = Some r → erase r' = erase r →
  unsched (s.[procs := <[a := r']> (procs s)]) = unsched s.
Proof.
  intros Hr He.
  assert (Hm : erase <$> <[a := r']> (procs s) = erase <$> procs s).
  { rewrite fmap_insert, He, <-fmap_insert. by rewrite insert_id. }
  transitivity ((unsched s).[procs := erase <$> <[a := r']> (procs s)]);
    [reflexivity|]. rewrite Hm. reflexivity.
Qed.

Lemma unsched_after_pick s Q : unsched (after_pick s Q) = unsched s.
Proof. unfold after_pick. by destruct (choice s Q). Qed.

(** A chain through a link the scheduler does not use. *)
Lemma unsched_chain f s s' x l :
  (∀ r, f (erase r) = f r) → unsched s' = unsched s →
  chain f (procs s) x l → chain f (procs s') x l.
Proof.
  intros Hf Hu. revert x. induction l as [|a l IH]; intros x; cbn; [done|].
  intros (-> & r & Hr & Hl). split; [done|].
  destruct (unsched_lookup s s' a r) as (r' & Hr' & He); [done..|].
  exists r'. split; [done|]. rewrite <-Hf, He, Hf. auto.
Qed.

Lemma is_host_erase r : is_host (erase r) = is_host r.
Proof. done. Qed.
