(* ===== verification/KSchedOps.v ===== *)
(** * [sched], [enqueue] and [dequeue] on the abstract queues

    [src/kernel/proc.c].  Each operation is shown to end, to keep
    [ready_queues] and to change nothing but scheduling ([unsched]). *)
From stdpp Require Import base gmap list numbers strings.
From Stdlib Require Import ZArith Lia.
From S2P Require Import Prelude.
From S2P Require Import Chains.
From S2P Require Import KTypes.
From S2P Require Import KProc.
From S2P Require Import KSched.
From S2P Require Import KStep.
From S2P Require Import KReady.

Lemma unsched_putp_at s pm a r r' :
  procs s = pm → pm !! a = Some r → erase r' = erase r →
  unsched (s.[procs := <[a := r']> pm]) = unsched s.
Proof. intros <-. apply unsched_putp. Qed.

(** What [sched] does to the descriptor. *)
Definition sched_proc (r : proc) : proc :=
  if 0 <? p_ticks_left r then r
  else
    let r' := r.[p_ticks_left := p_quantum_size r] in
    if p_priority r <? IDLE_Q - 1 then r'.[p_priority := s8 (p_priority r + 1)]
    else r'.

Lemma putp_same s a r :
  procs s !! a = Some r → s.[procs := <[a := r]> (procs s)] = s.
Proof. intros H. unfold fupd. cbn. by rewrite insert_id by done. Qed.

Lemma sched_run s a r :
  procs s !! a = Some r →
  sched (Some a) s =
  Ret (p_priority (sched_proc r), 0 <? p_ticks_left r)
      (s.[procs := <[a := sched_proc r]> (procs s)]).
Proof.
  intros Hr. unfold sched, sched_proc. mrun.
  destruct (0 <? p_ticks_left r); cbn [negb]; mrun.
  - by rewrite putp_same.
  - cbn [p_priority p_ticks_left fupd proc_eta eta].
    destruct (p_priority r <? IDLE_Q - 1); mrun; cbn; unfold ret, fupd; cbn;
      by rewrite ?insert_insert_eq.
Qed.

Lemma sched_proc_fields r :
  erase (sched_proc r) = erase r ∧ p_nextready (sched_proc r) = p_nextready r ∧
  p_priv (sched_proc r) = p_priv r ∧ p_vmid (sched_proc r) = p_vmid r ∧
  p_nr (sched_proc r) = p_nr r.
Proof. unfold sched_proc. by repeat case_match. Qed.

Lemma sched_proc_priority r :
  0 <= p_priority r <= IDLE_Q →
  0 <= p_priority (sched_proc r) <= IDLE_Q.
Proof.
  unfold sched_proc, IDLE_Q. intros H. case_match; [done|].
  destruct (Z.ltb_spec (p_priority r) (15 - 1)); cbn; [|done].
  unfold s8. rewrite Z.mod_small; lia.
Qed.

Lemma rdy_index_iff q : rdy_index q ↔ 0 <= q <= IDLE_Q.
Proof. unfold rdy_index, NR_SCHED_QUEUES, IDLE_Q. split; [|intros H]; destruct
  (Z.leb_spec 0 q), (Z.ltb_spec q 16); cbn; try done; lia. Qed.

(** The abstract [enqueue]. *)
Definition enqueued (Q : queues) (q : Z) (front : bool) (a : Z * Z) : queues :=
  q_update Q q (if front then a :: Q q else Q q ++ [a]).

(** CLOCK and SYSTEM do not overtake one another. *)
Definition enqueue_front (r cur : proc) : bool :=
  if ((p_nr r =? CLOCK) && (p_nr cur =? SYSTEM))
     || ((p_nr r =? SYSTEM) && (p_nr cur =? CLOCK))
  then false else 0 <? p_ticks_left r.

(** A process that may be put on a ready queue. *)
Definition can_enqueue (s : kstate) (a : Z * Z) (r : proc) : Prop :=
  procs s !! a = Some r ∧ valid_slot a ∧ 0 <= p_priority r <= IDLE_Q ∧
  is_Some (vms s !! p_vmid r) ∧
  ∃ pa, p_priv r = Some pa ∧ is_Some (privs s !! pa).

Lemma load_head_run {B} s q (k : ptr → K B) :
  rdy_index q → bind (load (RdyHead q)) k s = k (rdy_head s !! q) s.
Proof. intros H%Is_true_true. unfold bind, load. by rewrite H. Qed.
Lemma store_head_run {B} s q v (k : unit → K B) :
  rdy_index q → bind (store (RdyHead q) v) k s =
  k tt (s.[rdy_head := partial_alter (λ _, v) q (rdy_head s)]).
Proof. intros H%Is_true_true. unfold bind, store. by rewrite H. Qed.
Lemma load_tail_run {B} s q (k : ptr → K B) :
  rdy_index q → bind (load_tail q) k s = k (rdy_tail s !! q) s.
Proof. intros H%Is_true_true. unfold bind, load_tail. by rewrite H. Qed.
Lemma store_tail_run {B} s q v (k : unit → K B) :
  rdy_index q → bind (store_tail q v) k s =
  k tt (s.[rdy_tail := partial_alter (λ _, v) q (rdy_tail s)]).
Proof. intros H%Is_true_true. unfold bind, store_tail. by rewrite H. Qed.

Lemma tail_store_head s q v :
  rdy_index q →
  store (RdyHead q) v s = Ret tt (s.[rdy_head := partial_alter (λ _, v) q (rdy_head s)]).
Proof. intros H%Is_true_true. unfold store. by rewrite H. Qed.

Ltac qstep :=
  first [ rewrite tail_store_head by eassumption | rewrite load_head_run by eassumption | rewrite store_head_run by eassumption
        | rewrite load_tail_run by eassumption | rewrite store_tail_run by eassumption ].
Ltac qrun := repeat (first [mstep | qstep]; cbv beta).

(** The insertion part of [enqueue]. *)
Definition insert_ready (rp : ptr) (q : Z) (front : bool) : K unit :=
  let* head := load (RdyHead q) in
  (if is_null head then
     store_tail q rp;;;
     store (RdyHead q) rp;;;
     putp rp (λ r, r.[p_nextready := None])
   else if front then
     putp rp (λ r, r.[p_nextready := head]);;;
     store (RdyHead q) rp
   else
     let* tail := load_tail q in
     putp tail (λ r, r.[p_nextready := rp]);;;
     store_tail q rp;;;
     putp rp (λ r, r.[p_nextready := None])).

Lemma lookup_partial_alter_const_eq {V} (m : gmap Z V) q v :
  partial_alter (λ _, v) q m !! q = v.
Proof. by rewrite lookup_partial_alter_eq. Qed.
Lemma lookup_partial_alter_const_ne {V} (m : gmap Z V) q q' v :
  q ≠ q' → partial_alter (λ _, v) q m !! q' = m !! q'.
Proof. intros. by rewrite lookup_partial_alter_ne. Qed.

Lemma ready_proc_fields s s' q a r r' :
  procs s !! a = Some r → procs s' !! a = Some r' →
  p_priority r' = p_priority r → p_vmid r' = p_vmid r → p_priv r' = p_priv r →
  vms s' = vms s → privs s' = privs s →
  ready_proc s' q a = ready_proc s q a.
Proof. unfold ready_proc. by intros -> -> -> -> -> -> ->. Qed.

(** Changing the link of a process leaves it ready. *)
Lemma ready_proc_link s s' q a r v :
  procs s !! a = Some r → procs s' !! a = Some (r.[p_nextready := v]) →
  vms s' = vms s → privs s' = privs s → ready_proc s q a → ready_proc s' q a.
Proof. intros. by erewrite ready_proc_fields. Qed.

Definition frame (Q : queues) (q : Z) (a : Z * Z) (s s' : kstate) : Prop :=
  unsched s' = unsched s ∧ next_ptr s' = next_ptr s ∧ bill_ptr s' = bill_ptr s ∧
  ∀ b, b ≠ a → b ∉ Q q → procs s' !! b = procs s !! b.

Section insert.
Context (s : kstate) (Q : queues) (a : Z * Z) (r : proc).
Context (HQ : ready_queues s Q) (Hr : procs s !! a = Some r).
Context (Hfresh : ∀ q, a ∉ Q q) (Hva : valid_slot a).
Let q := p_priority r.
Context (Hi : rdy_index q) (Hready : ready_proc s q a).

Lemma insert_empty :
  Q q = [] →
  let s' := s.[rdy_tail := partial_alter (λ _, Some a) q (rdy_tail s)]
             .[rdy_head := partial_alter (λ _, Some a) q (rdy_head s)]
             .[procs := <[a := r.[p_nextready := None]]> (procs s)] in
  ready_queues s' (q_update Q q [a]) ∧ frame Q q a s s'.
Proof.
  intros Hempty s'. split.
  - apply (ready_queues_update s); try done.
    + cbn. rewrite lookup_partial_alter_const_eq. split; [done|].
      exists (r.[p_nextready := None]). by rewrite lookup_insert_eq.
    + intros _. cbn. by rewrite lookup_partial_alter_const_eq.
    + apply NoDup_singleton.
    + intros b ->%list_elem_of_singleton. split; [done|].
      apply (ready_proc_link s s' q a r None); try done. apply lookup_insert_eq.
    + intros q' Hne. cbn. by rewrite !lookup_partial_alter_const_ne.
    + intros q' b _ Hb. cbn. apply lookup_insert_ne. intros <-. by apply Hfresh in Hb.
  - split; [|split; [done|split; [done|]]].
    + by apply (unsched_putp s a r).
    + intros b Hb _. cbn. by apply lookup_insert_ne.
Qed.

Lemma insert_front h :
  rdy_head s !! q = Some h →
  let s' := s.[procs := <[a := r.[p_nextready := Some h]]> (procs s)]
             .[rdy_head := partial_alter (λ _, Some a) q (rdy_head s)] in
  ready_queues s' (q_update Q q (a :: Q q)) ∧ frame Q q a s s'.
Proof.
  intros Hh s'. pose proof (rq_chain _ _ HQ q Hi) as Hc. rewrite Hh in Hc. split.
  - apply (ready_queues_update s); try done.
    + cbn. rewrite lookup_partial_alter_const_eq. split; [done|].
      exists (r.[p_nextready := Some h]). rewrite lookup_insert_eq.
      split; [done|]. apply chain_insert_ne; [apply Hfresh|done].
    + intros _. cbn. rewrite (rq_tail _ _ HQ q Hi).
      * destruct (Q q); [done|]. done.
      * intros E. by rewrite E in Hc.
    + apply NoDup_cons. split; [apply Hfresh|apply HQ].
    + intros b [->|Hb]%elem_of_cons.
      * split; [done|]. apply (ready_proc_link s s' q a r (Some h)); try done.
        apply lookup_insert_eq.
      * destruct (rq_slots _ _ HQ q b Hb) as (_ & ? & ?). split; [done|].
        rewrite (ready_proc_agree s); try done. cbn. apply lookup_insert_ne.
        intros <-. by apply Hfresh in Hb.
    + intros q' Hne. cbn. by rewrite !lookup_partial_alter_const_ne.
    + intros q' b _ Hb. cbn. apply lookup_insert_ne. intros <-. by apply Hfresh in Hb.
  - split; [|split; [done|split; [done|]]].
    + by apply (unsched_putp s a r).
    + intros b Hb _. cbn. by apply lookup_insert_ne.
Qed.

Lemma insert_back l z rz :
  Q q = l ++ [z] → procs s !! z = Some rz →
  let s' := s.[procs := <[z := rz.[p_nextready := Some a]]> (procs s)]
             .[rdy_tail := partial_alter (λ _, Some a) q (rdy_tail s)]
             .[procs := <[a := r.[p_nextready := None]]>
                (<[z := rz.[p_nextready := Some a]]> (procs s))] in
  ready_queues s' (q_update Q q (Q q ++ [a])) ∧ frame Q q a s s'.
Proof.
  intros Hl Hz s'. pose proof (rq_chain _ _ HQ q Hi) as Hc.
  pose proof (rq_nodup _ _ HQ q) as Hnd. pose proof (Hfresh q) as Haq.
  assert (Hza : z ≠ a) by (intros ->; rewrite Hl in Haq; set_solver).
  assert (Hsame : ∀ b, b ≠ a → b ≠ z → procs s' !! b = procs s !! b).
  { intros b Hb1 Hb2. cbn. by rewrite !lookup_insert_ne. }
  assert (Hs'a : procs s' !! a = Some (r.[p_nextready := None]))
    by (apply lookup_insert_eq).
  assert (Hs'z : procs s' !! z = Some (rz.[p_nextready := Some a])).
  { cbn. rewrite lookup_insert_ne by done. apply lookup_insert_eq. }
  split.
  - apply (ready_queues_update s); try done.
    + rewrite Hl in Hc |- *. rewrite <-app_assoc. cbn [procs fupd app rdy_head].
      apply (chain_agree _ (<[z := rz.[p_nextready := Some a]]>
                              (<[a := r.[p_nextready := None]]> (procs s)))).
      { intros b _. cbn. by rewrite insert_insert_ne. }
      apply (chain_redirect _ _ _ l z [] [a] rz).
      * by rewrite <-Hl.
      * set_solver.
      * by rewrite lookup_insert_ne.
      * apply chain_insert_ne; [by rewrite <-Hl|done].
      * cbn. split; [done|]. exists (r.[p_nextready := None]).
        by rewrite lookup_insert_eq.
    + intros _. cbn. by rewrite lookup_partial_alter_const_eq, last_snoc.
    + apply NoDup_app. split; [done|]. split; [set_solver|apply NoDup_singleton].
    + intros b [Hb| ->%list_elem_of_singleton]%elem_of_app.
      * destruct (rq_slots _ _ HQ q b Hb) as (_ & ? & ?). split; [done|].
        destruct (decide (b = z)) as [->|].
        -- by apply (ready_proc_link s s' q z rz (Some a)).
        -- rewrite (ready_proc_agree s); try done. apply Hsame; [|done].
           intros ->. done.
      * split; [done|]. by apply (ready_proc_link s s' q a r None).
    + intros _ E. by apply app_eq_nil in E as [_ ?].
    + intros q' Hne. cbn. by rewrite !lookup_partial_alter_const_ne.
    + intros q' b Hne Hb. apply Hsame.
      * intros ->. by apply Hfresh in Hb.
      * intros ->. apply Hne. eapply ready_queues_disjoint; [done..|].
        rewrite Hl. set_solver.
  - split; [|split; [done|split; [done|]]].
    + unfold s'. erewrite unsched_putp_at; [by apply (unsched_putp s z rz)| | |];
        [reflexivity|by rewrite lookup_insert_ne|done].
    + intros b Hb Hbq. apply Hsame; [done|]. intros ->. apply Hbq. rewrite Hl. set_solver.
Qed.
End insert.

Lemma insert_ready_run s Q a r front :
  ready_queues s Q → procs s !! a = Some r → (∀ q, a ∉ Q q) → valid_slot a →
  rdy_index (p_priority r) → ready_proc s (p_priority r) a →
  ∃ s', insert_ready (Some a) (p_priority r) front s = Ret tt s' ∧
        ready_queues s' (enqueued Q (p_priority r) front a) ∧
        frame Q (p_priority r) a s s'.
Proof.
  intros HQ Hr Hfresh Hva Hi Hready. unfold insert_ready, enqueued.
  rewrite load_head_run by done. pose proof (rq_chain _ _ HQ _ Hi) as Hc.
  destruct (rdy_head s !! p_priority r) as [h|] eqn:Hh; cbn [is_null].
  - destruct front.
    + qrun. eexists. split; [done|]. by apply (insert_front s Q a r).
    + assert (Hne : Q (p_priority r) ≠ []) by (intros E; by rewrite E in Hc).
      pose proof (rq_tail _ _ HQ _ Hi Hne) as Ht.
      destruct (exists_last Hne) as (l & z & Hl).
      rewrite Hl, last_snoc in Ht. rewrite load_tail_run by done. rewrite Ht.
      destruct (chain_elem _ _ _ _ z Hc) as [rz Hz]; [rewrite Hl; set_solver|].
      assert (Hza : z ≠ a) by (intros ->; apply (Hfresh (p_priority r)); rewrite Hl; set_solver).
      qrun. 
      eexists. split; [done|]. by apply (insert_back s Q a r HQ Hr Hfresh Hva Hi Hready l z rz).
  - apply chain_null in Hc. qrun. eexists. split; [done|]. rewrite Hc. cbn [app].
    replace (if front then [a] else [a]) with [a] by (by destruct front).
    by apply (insert_empty s Q a r).
Qed.

(** Changing a process that is on no queue. *)
Lemma ready_queues_putp s Q a r' :
  ready_queues s Q → (∀ q, a ∉ Q q) →
  ready_queues (s.[procs := <[a := r']> (procs s)]) Q.
Proof.
  intros HQ Hfresh.
  assert (Hsame : ∀ q b, b ∈ Q q → <[a := r']> (procs s) !! b = procs s !! b).
  { intros q b Hb. apply lookup_insert_ne. intros <-. by apply Hfresh in Hb. }
  destruct HQ as [H1 H2 H3 H4 H5]. split; [|done|done| |done].
  - intros q Hi. cbn. apply (chain_agree _ (procs s)); eauto.
  - intros q b Hb. destruct (H4 q b Hb) as (? & ? & ?). split_and!; try done.
    rewrite (ready_proc_agree s); [done| |done..]. by apply (Hsame q).
Qed.

(** The result of a scheduling operation that ends in [pick_proc]. *)
Definition scheduled (Q : queues) (s s' : kstate) : Prop :=
  ready_queues s' Q ∧ unsched s' = unsched s ∧ next_ptr s' = choice s' Q.

Lemma choice_same s s' Q :
  procs s' = procs s → vms s' = vms s → choice s' Q = choice s Q.
Proof. unfold choice, sat, guest_task, vm_has_tokens. by intros -> ->. Qed.

Lemma pick_scheduled s Q : ready_queues s Q → scheduled Q s (after_pick s Q).
Proof.
  intros HQ. split; [by apply ready_queues_after_pick|].
  split; [apply unsched_after_pick|].
  destruct (choice_ready s Q HQ) as (q & a & Hc & _).
  unfold after_pick. rewrite Hc. cbn. by rewrite (choice_same s).
Qed.

Lemma procs_after_pick s Q : procs (after_pick s Q) = procs s.
Proof. unfold after_pick. by destruct (choice s Q). Qed.

Lemma enqueue_run s Q a r c cur :
  ready_queues s Q → can_enqueue s a r → (∀ q, a ∉ Q q) →
  proc_ptr s = Some c → procs s !! c = Some cur →
  ∃ s', enqueue (Some a) s = Ret tt s' ∧
        scheduled (enqueued Q (p_priority (sched_proc r)) (enqueue_front r cur) a) s s' ∧
        ∀ b, b ≠ a → (∀ q, b ∉ Q q) → procs s' !! b = procs s !! b.
Proof.
  intros HQ (Hr & Hva & Hp & [vm Hvm] & pa & Hpa & [pr Hpr]) Hfresh Hc Hcur.
  set (s1 := s.[procs := <[a := sched_proc r]> (procs s)]).
  destruct (sched_proc_fields r) as (He & _ & Hpa' & Hv' & Hnr').
  assert (Hi : rdy_index (p_priority (sched_proc r)))
    by (by apply rdy_index_iff, sched_proc_priority).
  assert (Hr1 : procs s1 !! a = Some (sched_proc r)) by (apply lookup_insert_eq).
  assert (Hcur1 : ∃ cur1, procs s1 !! c = Some cur1 ∧ p_nr cur1 = p_nr cur).
  { cbn. destruct (decide (a = c)) as [<-|]; [|by rewrite lookup_insert_ne; eauto].
    rewrite lookup_insert_eq. exists (sched_proc r). simplify_eq. done. }
  destruct Hcur1 as (cur1 & Hcur1 & Hnr).
  destruct (insert_ready_run s1 Q a (sched_proc r) (enqueue_front r cur))
    as (s2 & Hrun & HQ2 & Hu & Hn & Hb & Hsame); try done.
  { by apply ready_queues_putp. }
  { apply (ready_proc_intro s1 _ a (sched_proc r) vm pa pr); try done; [by rewrite Hv'|by rewrite Hpa']. }
  exists (after_pick s2 (enqueued Q (p_priority (sched_proc r)) (enqueue_front r cur) a)).
  split; [|split].
  - unfold enqueue. rewrite (bind_Ret _ _ _ _ _ (sched_run s a r Hr)). fold s1.
    rewrite bind_get. change (proc_ptr s1) with (proc_ptr s). rewrite Hc.
    rewrite (bind_getp _ _ (sched_proc r)) by done. rewrite (bind_getp _ _ cur1) by done.
    rewrite Hnr, Hnr'. unfold insert_ready in Hrun. rewrite <-bind_assoc.
    unfold enqueue_front in Hrun |- *. cbv zeta. rewrite (bind_Ret _ _ _ _ _ Hrun).
    by apply pick_proc_run.
  - destruct (pick_scheduled s2 _ HQ2) as (? & Hu' & ?). split_and!; try done.
    rewrite Hu', Hu. by apply (unsched_putp s a r).
  - intros b Hb1 Hb2. rewrite procs_after_pick, Hsame by done. by apply lookup_insert_ne.
Qed.

(** ** [dequeue] *)
Definition loc_after (q : Z) (l : list (Z * Z)) : ploc :=
  match last l with None => RdyHead q | Some z => NextReady z end.

(** What the search loop does when it meets the process. *)
Definition unlink (l : list (Z * Z)) (a : Z * Z) (q : Z) : K unit :=
  let* r := getp (Some a) in
  store (loc_after q l) (p_nextready r);;;
  let* tail := load_tail q in
  when (ptr_eqb (Some a) tail) (store_tail q (last l));;;
  let* s := get in
  when (ptr_eqb (Some a) (proc_ptr s) || ptr_eqb (Some a) (next_ptr s)) pick_proc.

Lemma load_loc_after s Q q l l' :
  ready_queues s Q → rdy_index q → Q q = l ++ l' →
  load (loc_after q l) s = Ret (head l') s.
Proof.
  intros HQ Hi Hl. pose proof (rq_chain _ _ HQ q Hi) as Hc. rewrite Hl in Hc.
  unfold loc_after. destruct (last l) as [z|] eqn:Hz.
  - apply last_Some in Hz as [l0 ->]. rewrite <-app_assoc in Hc. cbn [app] in Hc.
    destruct (chain_app _ _ _ _ _ _ Hc) as (r & Hr & Hc').
    apply chain_head in Hc'. rewrite <-Hc'. cbn [load].
    by rewrite (bind_getp _ _ r) by done.
  - apply last_None in Hz as ->. cbn in *. rewrite (proj1 (Is_true_true _) Hi).
    by rewrite (chain_head _ _ _ _ Hc).
Qed.

Lemma loc_after_snoc q l b : loc_after q (l ++ [b]) = NextReady b.
Proof. unfold loc_after. by rewrite last_snoc. Qed.

Lemma dequeue_scan_found s Q q a : ∀ l l1 l2 n,
  ready_queues s Q → rdy_index q → Q q = l ++ l1 ++ a :: l2 → a ∉ l1 →
  (length l1 < n)%nat →
  loop n (dequeue_scan (Some a) q) (loc_after q l, last l) s = unlink (l ++ l1) a q s.
Proof.
  intros l l1. revert l. induction l1 as [|b l1 IH]; intros l l2 n HQ Hi Hl Ha Hn;
    (destruct n as [|n]; [cbn in Hn; lia|]).
  - cbn [app] in *. rewrite app_nil_r. rewrite loop_S. cbn [dequeue_scan].
    unfold bind at 1. rewrite (load_loc_after s Q q l (a :: l2)) by done.
    cbn [head]. unfold ptr_eqb at 1. rewrite bool_decide_true by done. unfold unlink.
    unfold bind. destruct (getp (Some a) s) as [r s1| |]; [|done..].
    destruct (store _ _ s1) as [[] s2| |]; [|done..].
    destruct (load_tail q s2) as [t s3| |]; [|done..].
    destruct (when (ptr_eqb (Some a) t) _ s3) as [[] s4| |]; [|done..].
    unfold get. by destruct (when _ pick_proc s4) as [[] s5| |].
  - rewrite loop_S. cbn [dequeue_scan].
    unfold bind at 1. rewrite (load_loc_after s Q q l (b :: l1 ++ a :: l2)) by done.
    cbn [head]. unfold ptr_eqb at 1. rewrite bool_decide_false by set_solver.
    unfold ret. specialize (IH (l ++ [b]) l2 n HQ Hi).
    rewrite loc_after_snoc, last_snoc, <-!app_assoc in IH. apply IH; [done| |cbn in Hn; lia].
    set_solver.
Qed.

Lemma dequeue_scan_absent s Q q a : ∀ l l1 n,
  ready_queues s Q → rdy_index q → Q q = l ++ l1 → a ∉ l1 → (length l1 < n)%nat →
  loop n (dequeue_scan (Some a) q) (loc_after q l, last l) s = Ret tt s.
Proof.
  intros l l1. revert l. induction l1 as [|b l1 IH]; intros l n HQ Hi Hl Ha Hn;
    (destruct n as [|n]; [cbn in Hn; lia|]); rewrite loop_S; cbn [dequeue_scan];
    unfold bind at 1.
  - by rewrite (load_loc_after s Q q l []).
  - rewrite (load_loc_after s Q q l (b :: l1)) by done.
    cbn [head]. unfold ptr_eqb at 1. rewrite bool_decide_false by set_solver.
    unfold ret. specialize (IH (l ++ [b]) n HQ Hi).
    rewrite loc_after_snoc, last_snoc, <-!app_assoc in IH. apply IH; [done| |cbn in Hn; lia].
    set_solver.
Qed.

Lemma unsched_head s v : unsched (s.[rdy_head := v]) = unsched s.
Proof. done. Qed.
Lemma unsched_tail s v : unsched (s.[rdy_tail := v]) = unsched s.
Proof. done. Qed.

(** The tail pointers after the removal of [a], which followed [l]. *)
Definition tail_without (s : kstate) (q : Z) (a : Z * Z) (l : list (Z * Z)) :
    gmap Z (Z * Z) :=
  if ptr_eqb (Some a) (rdy_tail s !! q)
  then partial_alter (λ _, last l) q (rdy_tail s) else rdy_tail s.

Section remove.
Context (s : kstate) (Q : queues) (a : Z * Z) (r : proc) (q : Z).
Context (HQ : ready_queues s Q) (Hi : rdy_index q) (Hr : procs s !! a = Some r).
Context (l1 l2 : list (Z * Z)) (Hl : Q q = l1 ++ a :: l2).
Context (Hidle : q = IDLE_Q → l1 ++ l2 ≠ []).

Lemma remove_tail : l1 ++ l2 ≠ [] → tail_without s q a l1 !! q = last (l1 ++ l2).
Proof using HQ Hi Hl.
  clear Hidle Hr r. intros Hne. pose proof (rq_tail _ _ HQ q Hi) as Ht. pose proof (rq_nodup _ _ HQ q) as Hnd.
  rewrite Hl in Ht, Hnd. specialize (Ht ltac:(by destruct l1)).
  unfold tail_without, ptr_eqb. destruct l2 as [|b l2' _] using rev_ind.
  - rewrite last_snoc in Ht. rewrite bool_decide_true by done.
    by rewrite lookup_partial_alter_const_eq, app_nil_r.
  - replace (l1 ++ a :: l2' ++ [b]) with ((l1 ++ a :: l2') ++ [b]) in Ht, Hnd
      by (by rewrite <-app_assoc).
    rewrite last_snoc in Ht. rewrite app_assoc, last_snoc, <-Ht.
    rewrite bool_decide_false; [done|]. rewrite Ht. intros [= <-].
    apply NoDup_app in Hnd as (_ & H & _). apply (H a); set_solver.
Qed.

Lemma remove_nodup : NoDup (l1 ++ l2) ∧ a ∉ l1 ++ l2.
Proof using HQ Hl.
  clear Hidle Hr r. pose proof (rq_nodup _ _ HQ q) as Hnd. rewrite Hl in Hnd.
  rewrite <-Permutation_middle in Hnd. by apply NoDup_cons in Hnd as [? ?].
Qed.

Lemma remove_step s1 :
  rdy_tail s1 = tail_without s q a l1 → vms s1 = vms s → privs s1 = privs s →
  chain p_nextready (procs s1) (rdy_head s1 !! q) (l1 ++ l2) →
  (∀ q', q' ≠ q → rdy_head s1 !! q' = rdy_head s !! q') →
  (∀ b, last l1 ≠ Some b → procs s1 !! b = procs s !! b) →
  (∀ z, last l1 = Some z → ∃ rz v, procs s !! z = Some rz ∧
      procs s1 !! z = Some (rz.[p_nextready := v])) →
  ready_queues s1 (q_update Q q (l1 ++ l2)).
Proof using HQ Hi Hr Hl Hidle.
  intros Ht Hvm Hpr Hc Hh Hsame Hz. apply (ready_queues_update s); try done.
  - rewrite Ht. apply remove_tail.
  - apply remove_nodup.
  - intros b Hb. assert (Hbq : b ∈ Q q) by (rewrite Hl; set_solver).
    destruct (rq_slots _ _ HQ q b Hbq) as (_ & ? & ?). split; [done|].
    destruct (decide (last l1 = Some b)) as [E|E].
    + destruct (Hz b E) as (rz & v & ? & ?). by apply (ready_proc_link s s1 q b rz v).
    + by rewrite (ready_proc_agree s); auto.
  - intros q' Hne. split; [auto|]. rewrite Ht. unfold tail_without.
    case_match; [|done]. by rewrite lookup_partial_alter_const_ne.
  - intros q' b Hne Hb. apply Hsame. intros E. apply Hne.
    eapply ready_queues_disjoint; [done..|]. rewrite Hl.
    apply last_Some in E as [l0 ->]. set_solver.
Qed.

Lemma unlink_run :
  ∃ s1, ready_queues s1 (q_update Q q (l1 ++ l2)) ∧ frame Q q a s s1 ∧
        procs s1 !! a = Some r ∧
        unlink l1 a q s =
        when (ptr_eqb (Some a) (proc_ptr s) || ptr_eqb (Some a) (next_ptr s)) pick_proc s1.
Proof using HQ Hi Hr Hl Hidle.
  pose proof (rq_chain _ _ HQ q Hi) as Hc. rewrite Hl in Hc.
  pose proof remove_nodup as [Hnd Ha].
  unfold unlink. rewrite (bind_getp _ _ r) by done. unfold loc_after.
  destruct (last l1) as [z|] eqn:Ez.
  - apply last_Some in Ez as Hl1. destruct Hl1 as [l0 Hl0].
    destruct (chain_elem _ _ _ _ z Hc) as [rz Hz]; [rewrite Hl0; set_solver|].
    assert (Hza : z ≠ a) by (intros ->; apply Ha; rewrite Hl0; set_solver).
    exists (s.[procs := <[z := rz.[p_nextready := p_nextready r]]> (procs s)].[rdy_tail := tail_without s q a l1]).
    split; [|split; [|split]].
    + apply remove_step; try done.
      * cbn [procs rdy_head fupd]. rewrite Hl0, <-app_assoc in Hc, Hnd, Ha |- *.
        cbn [app] in *.
        apply (chain_redirect _ _ _ l0 z (a :: l2) l2 rz); try done.
        -- rewrite cons_middle, app_assoc in Hnd. by apply NoDup_app in Hnd as (? & _ & _).
        -- apply NoDup_app in Hnd as (_ & _ & Hnd). by apply NoDup_cons in Hnd as [? _].
        -- destruct (chain_app _ _ _ l0 z _ Hc) as (? & ? & Hc2). cbn.
           destruct Hc2 as (_ & r' & Hr' & Hc2). by simplify_eq.
      * intros b Hb. cbn. apply lookup_insert_ne. intros ->. congruence.
      * intros b Hb. rewrite Ez in Hb. injection Hb as <-. exists rz, (p_nextready r).
        split; [done|]. cbn. apply lookup_insert_eq.
    + split; [by apply (unsched_putp s z rz)|]. split; [done|]. split; [done|].
      intros b _ Hb. cbn. apply lookup_insert_ne. intros ->. apply Hb.
      rewrite Hl, Hl0. set_solver.
    + cbn. by rewrite lookup_insert_ne.
    + cbn [store]. qrun. unfold tail_without. cbn [rdy_tail fupd]. rewrite Ez.
      by destruct (ptr_eqb (Some a) (rdy_tail s !! q)); qrun.
  - apply last_None in Ez as E1.
    exists (s.[rdy_head := partial_alter (λ _, p_nextready r) q (rdy_head s)]
             .[rdy_tail := tail_without s q a l1]).
    split; [|split; [|split]].
    + apply remove_step; try done.
      * cbn [procs rdy_head fupd]. rewrite lookup_partial_alter_const_eq, E1.
        rewrite E1 in Hc. destruct Hc as (_ & r' & Hr' & Hc). by simplify_eq.
      * intros q' Hne. cbn. by rewrite lookup_partial_alter_const_ne.
      * intros z Hz. congruence.
    + done.
    + done.
    + rewrite E1. cbn [last]. qrun. unfold tail_without. cbn [rdy_tail fupd].
      by destruct (ptr_eqb (Some a) (rdy_tail s !! q)); qrun.
Qed.
End remove.

(** The stack guard of a kernel task is intact. *)
Definition guard_ok (s : kstate) (r : proc) : bool :=
  negb (iskerneln (p_nr r))
  || match p_priv r with
     | Some pa =>
         match privs s !! pa with
         | Some pr => s_stack_guard pr =? STACK_GUARD
         | None => false
         end
     | None => false
     end.

Lemma guard_run {B} s a r (k : unit → K B) :
  procs s !! a = Some r → guard_ok s r →
  bind (if iskerneln (p_nr r) then
          let* pr := priv_of (Some a) in
          when (negb (s_stack_guard pr =? STACK_GUARD))
            (panic "stack overrun by task" (p_nr r))
        else skip) k s = k tt s.
Proof.
  unfold guard_ok. intros Hr. destruct (iskerneln (p_nr r)); cbn [negb orb]; [|done].
  destruct (p_priv r) as [pa|] eqn:Hpa; [|done].
  destruct (privs s !! pa) as [pr|] eqn:Hpr; [|done]. intros Hg%Is_true_true.
  unfold priv_of. mrun. rewrite Hpa. mrun. by rewrite Hg.
Qed.

Lemma dequeue_absent s Q a r :
  ready_queues s Q → procs s !! a = Some r → 0 <= p_priority r <= IDLE_Q →
  guard_ok s r → a ∉ Q (p_priority r) → dequeue (Some a) s = Ret tt s.
Proof.
  intros HQ Hr Hp Hg Ha. unfold dequeue. rewrite (bind_getp _ _ r) by done. cbv zeta.
  rewrite (guard_run s a r) by done.
  apply (dequeue_scan_absent s Q (p_priority r) a [] (Q (p_priority r))); try done.
  - by apply rdy_index_iff.
  - by eapply ready_queue_length.
Qed.

Lemma dequeue_run s Q a r l1 l2 :
  ready_queues s Q → procs s !! a = Some r → guard_ok s r →
  Q (p_priority r) = l1 ++ a :: l2 → (p_priority r = IDLE_Q → l1 ++ l2 ≠ []) →
  let Q' := q_update Q (p_priority r) (l1 ++ l2) in
  ∃ s', dequeue (Some a) s = Ret tt s' ∧ ready_queues s' Q' ∧ unsched s' = unsched s ∧
        procs s' !! a = Some r ∧
        next_ptr s' = (if ptr_eqb (Some a) (proc_ptr s) || ptr_eqb (Some a) (next_ptr s)
                       then choice s' Q' else next_ptr s) ∧
        ∀ b, b ≠ a → b ∉ Q (p_priority r) → procs s' !! b = procs s !! b.
Proof.
  intros HQ Hr Hg Hl Hidle Q'. set (q := p_priority r) in *.
  assert (Ha : a ∈ Q q) by (rewrite Hl; set_solver).
  destruct (rq_slots _ _ HQ q a Ha) as (Hi & _ & _).
  assert (Ha1 : a ∉ l1).
  { pose proof (rq_nodup _ _ HQ q) as Hnd. rewrite Hl in Hnd.
    apply NoDup_app in Hnd as (_ & H & _). intros Hin. apply (H a Hin). by left. }
  destruct (unlink_run s Q a r q HQ Hi Hr l1 l2 Hl Hidle)
    as (s1 & HQ1 & (Hu & Hn & Hb & Hsame) & Hr1 & Hrun).
  assert (Hdeq : dequeue (Some a) s =
    when (ptr_eqb (Some a) (proc_ptr s) || ptr_eqb (Some a) (next_ptr s)) pick_proc s1).
  { rewrite <-Hrun. unfold dequeue. rewrite (bind_getp _ _ r) by done. cbv zeta.
    rewrite (guard_run s a r) by done. fold q.
    apply (dequeue_scan_found s Q q a [] l1 l2); try done.
    pose proof (ready_queue_length s Q q HQ) as Hlen. rewrite Hl, length_app in Hlen. lia. }
  rewrite Hdeq. destruct (_ || _).
  - exists (after_pick s1 Q'). unfold when. rewrite (pick_proc_run s1 Q') by done.
    destruct (pick_scheduled s1 Q' HQ1) as (? & ? & ?).
    split_and!; try done; [congruence|by rewrite procs_after_pick|].
    intros b ? ?. rewrite procs_after_pick. auto.
  - exists s1. split_and!; try done.
Qed.

(** ** Deciding the hypotheses on a concrete state *)
Definition proc_at (s : kstate) (a : Z * Z) : proc :=
  default (mk_proc 0 0 0 0 0) (procs s !! a).

Definition can_enqueueb (s : kstate) (a : Z * Z) : bool :=
  bool_decide (is_Some (procs s !! a)) && bool_decide (valid_slot a)
  && rdy_index (p_priority (proc_at s a)) && ready_proc s (p_priority (proc_at s a)) a.

Lemma proc_at_lookup s a : is_Some (procs s !! a) → procs s !! a = Some (proc_at s a).
Proof. unfold proc_at. by intros [r ->]. Qed.

Lemma can_enqueue_check s a : can_enqueueb s a = true → can_enqueue s a (proc_at s a).
Proof.
  unfold can_enqueueb. rewrite !andb_true_iff, !bool_decide_eq_true.
  intros [[[Ha Hv] Hi] Hr]. apply proc_at_lookup in Ha.
  apply Is_true_true, rdy_index_iff in Hi. apply Is_true_true, ready_proc_inv in Hr as
    (r & vm & pa & pr & Hr & _ & Hvm & Hpa & Hpr).
  rewrite Ha in Hr. injection Hr as <-. split; [done|]. split; [done|]. split; [done|].
  split; [by eexists|]. by exists pa.
Qed.

Definition queued_nowhere (s : kstate) (a : Z * Z) : bool :=
  forallb (λ q, bool_decide (a ∉ queue_of s q)) (zrange 0 NR_SCHED_QUEUES).

Lemma queued_nowhere_sound s a : queued_nowhere s a = true → ∀ q, a ∉ queue_of s q.
Proof.
  unfold queued_nowhere. rewrite forallb_forall. intros H q.
  destruct (rdy_index q) eqn:E; [|unfold queue_of; rewrite E; set_solver].
  apply (bool_decide_eq_true_1 _), H, list_elem_of_In, elem_of_zrange.
  apply Is_true_true, rdy_index_iff in E. unfold NR_SCHED_QUEUES, IDLE_Q in *. lia.
Qed.
