(* ===== verification/KIpcInv.v ===== *)
(** * The invariant of blocked and ready processes

    [wait_queues s W]: the caller queue of each process [d] of [s] is the list
    [W d].  [kbase s Q W] gathers what the IPC code relies on: well-formed ready
    queues [Q] and wait queues [W], every occupied slot schedulable, and no
    blocked process on a ready queue. *)
From stdpp Require Import base gmap list numbers strings.
From Stdlib Require Import ZArith Lia.
From S2P Require Import Prelude.
From S2P Require Import Chains.
From S2P Require Import KTypes.
From S2P Require Import KProc.
From S2P Require Import KSched.
From S2P Require Import KIpcSend.
From S2P Require Import KStep.
From S2P Require Import KReady.
From S2P Require Import KSchedOps.

Abbreviation waits := (Z * Z → list (Z * Z)).

Record wait_queues (s : kstate) (W : waits) : Prop := {
  wq_chain d r : procs s !! d = Some r → chain p_q_link (procs s) (p_caller_q r) (W d);
  wq_nodup d : NoDup (W d);
  wq_valid d x : x ∈ W d → valid_slot x;
  wq_inj d d' x : x ∈ W d → x ∈ W d' → d = d' }.

Definition w_update (W : waits) (d : Z * Z) (l : list (Z * Z)) : waits := λ d',
  if decide (d' = d) then l else W d'.

Lemma w_update_eq W d l : w_update W d l d = l.
Proof. unfold w_update. by rewrite decide_True. Qed.
Lemma w_update_ne W d l d' : d' ≠ d → w_update W d l d' = W d'.
Proof. intros H. unfold w_update. by rewrite decide_False. Qed.

(** Every occupied slot can be scheduled. *)
Definition slots_ok (s : kstate) : Prop :=
  ∀ a r, procs s !! a = Some r → band (p_rts_flags r) SLOT_FREE = false →
         can_enqueue s a r.

Definition current (s : kstate) (c : Z * Z) (cur : proc) : Prop :=
  proc_ptr s = Some c ∧ procs s !! c = Some cur.

Definition ready_unblocked (s : kstate) (Q : queues) : Prop :=
  ∀ q a r, a ∈ Q q → procs s !! a = Some r → p_rts_flags r = 0.

Record kbase (s : kstate) (Q : queues) (W : waits) : Prop := {
  kb_ready : ready_queues s Q;
  kb_wait : wait_queues s W;
  kb_slots : slots_ok s;
  kb_cur : ∃ c cur, current s c cur;
  kb_unblocked : ready_unblocked s Q }.

Definition blocked_sending (r : proc) : bool :=
  band (p_rts_flags r) (Z.lor SENDING NOTIFYING).

(** The whole invariant: a process waits in a caller queue only while it sends. *)
Definition kinv (s : kstate) (Q : queues) (W : waits) : Prop :=
  kbase s Q W ∧ ∀ d x r, x ∈ W d → procs s !! x = Some r → blocked_sending r.

(** ** What scheduling preserves *)
Lemma unsched_wait s s' W :
  unsched s' = unsched s → wait_queues s W → wait_queues s' W.
Proof.
  intros Hu [H1 H2 H3 H4]. split; try done.
  intros d r' Hr'. destruct (unsched_lookup s' s d r') as (r & Hr & He); [done..|].
  apply (unsched_chain p_q_link s s'); [done..|].
  change (p_caller_q r') with (p_caller_q (erase r')). rewrite <-He. exact (H1 d r Hr).
Qed.

Lemma unsched_vms s s' : unsched s' = unsched s → vms s' = vms s.
Proof. intros H. change (vms (unsched s') = vms (unsched s)). by rewrite H. Qed.
Lemma unsched_privs s s' : unsched s' = unsched s → privs s' = privs s.
Proof. intros H. change (privs (unsched s') = privs (unsched s)). by rewrite H. Qed.
Lemma unsched_proc_ptr s s' : unsched s' = unsched s → proc_ptr s' = proc_ptr s.
Proof. intros H. change (proc_ptr (unsched s') = proc_ptr (unsched s)). by rewrite H. Qed.
Lemma unsched_kmem s s' : unsched s' = unsched s → kmem s' = kmem s.
Proof. intros H. change (kmem (unsched s') = kmem (unsched s)). by rewrite H. Qed.

Lemma erase_fields r r' :
  erase r' = erase r → p_rts_flags r' = p_rts_flags r ∧ p_vmid r' = p_vmid r ∧
  p_priv r' = p_priv r ∧ p_misc_flags r' = p_misc_flags r ∧
  p_endpoint r' = p_endpoint r ∧ p_sendto_e r' = p_sendto_e r ∧
  p_getfrom_e r' = p_getfrom_e r ∧ p_nr r' = p_nr r.
Proof.
  intros H. split_and!;
    [exact (f_equal p_rts_flags H)|exact (f_equal p_vmid H)|exact (f_equal p_priv H)
    |exact (f_equal p_misc_flags H)|exact (f_equal p_endpoint H)
    |exact (f_equal p_sendto_e H)|exact (f_equal p_getfrom_e H)|exact (f_equal p_nr H)].
Qed.

Lemma kbase_scheduled s s' Q Q' W :
  kbase s Q W → unsched s' = unsched s → ready_queues s' Q' →
  (∀ b, (∀ q, b ∉ Q' q) → procs s' !! b = procs s !! b) →
  (∀ q b r, b ∈ Q' q → procs s !! b = Some r → p_rts_flags r = 0) →
  kbase s' Q' W.
Proof.
  intros [Hr Hw Hs (c & cur & Hc & Hcur) Hub] Hu HQ Hsame Hrts.
  split; [done|by eapply unsched_wait| | |].
  - intros a r' Hr' Hf. destruct (unsched_lookup s' s a r') as (r & Hrr & He); [done..|].
    apply erase_fields in He as (Hf' & Hv' & Hp' & _).
    destruct (Hs a r) as (_ & Hva & Hpri & Hvm & pa & Hpa & Hpr); [done|by rewrite Hf'|].
    split; [done|]. split; [done|].
    rewrite (unsched_vms _ _ Hu), (unsched_privs _ _ Hu).
    split; [|split; [by rewrite <-Hv'|exists pa; by rewrite <-Hp']].
    destruct (decide (Exists (λ q, a ∈ Q' q) (zrange 0 NR_SCHED_QUEUES))) as [Hin|Hn].
    + apply Exists_exists in Hin as (q & _ & Ha).
      destruct (rq_slots _ _ HQ q a Ha) as (Hq%rdy_index_iff & _ & Hrd).
      apply ready_proc_inv in Hrd as (r2 & ? & ? & ? & Hr2 & <- & _).
      rewrite Hr' in Hr2. by injection Hr2 as <-.
    + rewrite Hsame in Hr'; [by simplify_eq|]. intros q Ha. apply Hn, Exists_exists.
      exists q. split; [|done]. apply (rq_slots _ _ HQ) in Ha as [Hq%rdy_index_iff _].
      apply elem_of_zrange. unfold NR_SCHED_QUEUES, IDLE_Q in *. lia.
  - destruct (unsched_lookup s s' c cur) as (cur' & ? & _); [done..|].
    exists c, cur'. split; [|done]. by rewrite (unsched_proc_ptr s).
  - intros q a r' Ha Hr'. destruct (unsched_lookup s' s a r') as (r & Hrr & He); [done..|].
    apply erase_fields in He as (<- & _). eauto.
Qed.

(** ** Changing the IPC fields of one process *)
Definition same_links (r r' : proc) : Prop :=
  p_nextready r' = p_nextready r ∧ p_caller_q r' = p_caller_q r ∧
  p_q_link r' = p_q_link r ∧ p_priority r' = p_priority r ∧ p_priv r' = p_priv r.

Lemma kbase_putp s Q W a r r' :
  kbase s Q W → procs s !! a = Some r → same_links r r' → p_vmid r' = p_vmid r →
  ((∃ q, a ∈ Q q) → p_rts_flags r' = 0) →
  (band (p_rts_flags r') SLOT_FREE = false → band (p_rts_flags r) SLOT_FREE = false) →
  kbase (s.[procs := <[a := r']> (procs s)]) Q W.
Proof.
  intros [HQ HW Hs (c & cur & Hc & Hcur) Hub] Hr (Hn & Hcq & Hql & Hpri & Hpa) Hv Hrts Hfree.
  assert (Hlook : ∀ b rb', <[a := r']> (procs s) !! b = Some rb' →
    ∃ rb, procs s !! b = Some rb ∧ ((b = a ∧ rb = r ∧ rb' = r') ∨ (b ≠ a ∧ rb' = rb))).
  { intros b rb' H. destruct (decide (b = a)) as [->|Hne].
    - rewrite lookup_insert_eq in H. injection H as <-. exists r. auto.
    - rewrite lookup_insert_ne in H by done. exists rb'. auto. }
  split.
  - destruct HQ as [H1 H2 H3 H4 H5]. split; try done.
    + intros q Hi. cbn. by apply (chain_insert_link _ _ _ _ _ r); auto.
    + intros q b Hb. destruct (H4 q b Hb) as (? & ? & Hrd). split_and!; try done.
      destruct (decide (b = a)) as [->|Hne].
      * rewrite (ready_proc_fields s _ q a r r'); try done. cbn. apply lookup_insert_eq.
      * rewrite (ready_proc_agree s); try done. cbn. by rewrite lookup_insert_ne.
  - destruct HW as [H1 H2 H3 H4]. split; try done.
    intros d rd' Hrd. cbn in Hrd. destruct (Hlook d rd' Hrd) as (rd & Hd & Hcase).
    cbn. apply (chain_insert_link _ _ _ _ _ r); [done..|].
    destruct Hcase as [(-> & -> & ->)|[_ ->]]; [rewrite Hcq|]; by apply H1.
  - intros b rb' Hb Hf. destruct (Hlook b rb' Hb) as (rb & Hb' & Hcase).
    destruct Hcase as [(-> & -> & ->)|[_ ->]].
    + destruct (Hs a r Hr (Hfree Hf)) as (_ & ? & ? & ? & ?).
      split; [done|]. rewrite Hpri, Hv, Hpa. done.
    + destruct (Hs b rb Hb' Hf) as (_ & ?). done.
  - exists c. destruct (decide (c = a)) as [->|Hne].
    + exists r'. split; [done|]. cbn. apply lookup_insert_eq.
    + exists cur. split; [done|]. cbn. by rewrite lookup_insert_ne.
  - intros q b rb' Hb Hrb. destruct (Hlook b rb' Hrb) as (rb & Hb' & Hcase).
    destruct Hcase as [(-> & -> & ->)|[_ ->]]; eauto.
Qed.

(** Changes outside the process table and the ready queues. *)
Lemma kbase_same s s' Q W :
  kbase s Q W → procs s' = procs s → rdy_head s' = rdy_head s → rdy_tail s' = rdy_tail s →
  vms s' = vms s → privs s' = privs s → proc_ptr s' = proc_ptr s → kbase s' Q W.
Proof.
  intros [HQ [H1 H2 H3 H4] Hs (c & cur & Hc & Hcur) Hub] Hp Hh Ht Hv Hpr Hpp. split.
  - by apply (ready_queues_same s).
  - split; try done. intros d r Hr. rewrite Hp in *. eauto.
  - intros a r Hr Hf. rewrite Hp in Hr. unfold can_enqueue. rewrite Hp, Hv, Hpr.
    by apply Hs.
  - exists c, cur. split; congruence.
  - intros q a r Ha Hr. rewrite Hp in Hr. eauto.
Qed.

(** ** Unblocking *)

(** The ready queues after the flags of [a] became [rts]. *)
Definition unblocked (Q : queues) (a : Z * Z) (r cur : proc) (rts : Z) : queues :=
  if rts =? 0 then enqueued Q (p_priority (sched_proc r)) (enqueue_front r cur) a else Q.

Lemma sched_proc_rts r v :
  p_priority (sched_proc (r.[p_rts_flags := v])) = p_priority (sched_proc r).
Proof. unfold sched_proc. by repeat (cbn; case_match). Qed.

Lemma blocked_not_ready s Q W a r :
  kbase s Q W → procs s !! a = Some r → p_rts_flags r ≠ 0 → ∀ q, a ∉ Q q.
Proof. intros H Hr Hne q Ha. by apply Hne, (kb_unblocked _ _ _ H q a r). Qed.

Lemma enqueued_elem Q q front a b q' :
  b ∈ enqueued Q q front a q' → b = a ∨ b ∈ Q q'.
Proof.
  unfold enqueued. destruct (decide (q' = q)) as [->|].
  - rewrite q_update_eq. destruct front; set_solver.
  - rewrite q_update_ne by done. auto.
Qed.

Lemma enqueued_mono Q q front a b q' :
  b ∈ Q q' → b ∈ enqueued Q q front a q'.
Proof.
  unfold enqueued. destruct (decide (q' = q)) as [->|].
  - rewrite q_update_eq. destruct front; set_solver.
  - by rewrite q_update_ne.
Qed.

Lemma enqueued_self Q q front a : a ∈ enqueued Q q front a q.
Proof. unfold enqueued. rewrite q_update_eq. destruct front; set_solver. Qed.

(** [enqueue] on the invariant. *)
Lemma enqueue_kbase s Q W a r c cur :
  kbase s Q W → procs s !! a = Some r → p_rts_flags r = 0 → (∀ q, a ∉ Q q) →
  current s c cur →
  ∃ s', enqueue (Some a) s = Ret tt s' ∧
        kbase s' (enqueued Q (p_priority (sched_proc r)) (enqueue_front r cur) a) W ∧
        unsched s' = unsched s.
Proof.
  intros HB Hr Hrts Hfresh [Hc Hcur].
  assert (Hcan : can_enqueue s a r) by (apply HB; [done|by rewrite Hrts]).
  destruct (enqueue_run s Q a r c cur (kb_ready _ _ _ HB) Hcan Hfresh Hc Hcur)
    as (s' & Hrun & (HQ' & Hu & _) & Hsame).
  exists s'. split; [done|]. split; [|done].
  apply (kbase_scheduled s s' Q); try done.
  - intros b Hb. apply Hsame.
    + intros ->. eapply Hb, enqueued_self.
    + intros q Hq. by eapply Hb, enqueued_mono.
  - intros q b rb Hb Hrb. apply enqueued_elem in Hb as [->|Hb]; [congruence|].
    by eapply (kb_unblocked _ _ _ HB).
Qed.

Lemma unblock_run s Q W a r f c cur :
  kbase s Q W → procs s !! a = Some r → p_rts_flags r ≠ 0 →
  (band (bclr (p_rts_flags r) f) SLOT_FREE = false →
   band (p_rts_flags r) SLOT_FREE = false) →
  current s c cur →
  let r' := r.[p_rts_flags := bclr (p_rts_flags r) f] in
  ∃ s', unblock (Some a) f s = Ret tt s' ∧
        kbase s' (unblocked Q a r cur (p_rts_flags r')) W ∧
        unsched s' = unsched (s.[procs := <[a := r']> (procs s)]).
Proof.
  intros HB Hr Hne Hfree [Hc Hcur] r'. pose proof (blocked_not_ready _ _ _ _ _ HB Hr Hne) as Hf.
  unfold unblock, unblocked. rewrite (bind_putp _ a r) by done. fold r'.
  set (s1 := s.[procs := <[a := r']> (procs s)]).
  assert (Hr1 : procs s1 !! a = Some r') by (apply lookup_insert_eq).
  assert (HB1 : kbase s1 Q W).
  { apply (kbase_putp s Q W a r r'); try done. intros [q Hq]. by apply Hf in Hq. }
  rewrite (bind_getp _ _ r') by done. destruct (p_rts_flags r' =? 0) eqn:E; cbn [when];
    [|by exists s1].
  apply Z.eqb_eq in E.
  assert (∃ cur1, current s1 c cur1 ∧ p_nr cur1 = p_nr cur) as (cur1 & Hc1 & Hnr).
  { unfold current. cbn. destruct (decide (a = c)) as [<-|].
    - exists r'. rewrite lookup_insert_eq. simplify_eq. done.
    - exists cur. by rewrite lookup_insert_ne. }
  destruct (enqueue_kbase s1 Q W a r' c cur1 HB1 Hr1 E Hf Hc1) as (s' & Hrun & HB' & Hu).
  exists s'. split; [done|]. split; [|done].
  unfold enqueue_front in *. rewrite Hnr in HB'. unfold r' in HB' at 1.
  by rewrite sched_proc_rts in HB'.
Qed.

(** ** Blocking *)
Definition qremove (Q : queues) (a : Z * Z) : queues := λ q, filter (λ b, b ≠ a) (Q q).

Lemma filter_absent (l : list (Z * Z)) a : a ∉ l → filter (λ b, b ≠ a) l = l.
Proof.
  induction l as [|b l IH]; [done|]. intros Ha.
  rewrite filter_cons_True by set_solver. f_equal. apply IH. set_solver.
Qed.

Lemma filter_remove (l1 l2 : list (Z * Z)) a :
  a ∉ l1 ++ l2 → filter (λ b, b ≠ a) (l1 ++ a :: l2) = l1 ++ l2.
Proof.
  intros Ha. rewrite filter_app, filter_cons_False by (intros H; by apply H).
  rewrite !filter_absent; set_solver.
Qed.

Lemma elem_of_qremove Q a q b : b ∈ qremove Q a q ↔ b ≠ a ∧ b ∈ Q q.
Proof. unfold qremove. by rewrite list_elem_of_filter. Qed.

Lemma ready_queues_ext s Q Q' :
  (∀ q, Q q = Q' q) → ready_queues s Q → ready_queues s Q'.
Proof.
  intros H [H1 H2 H3 H4 H5]. split; intros *; rewrite <-?H; eauto.
Qed.

(** IDLE stays ready when [a] leaves. *)
Definition idle_stays (Q : queues) (a : Z * Z) : Prop := qremove Q a IDLE_Q ≠ [].

Lemma dequeue_kbase s Q W a r :
  kbase s Q W → procs s !! a = Some r → p_rts_flags r = 0 → guard_ok s r →
  idle_stays Q a →
  ∃ s', dequeue (Some a) s = Ret tt s' ∧ kbase s' (qremove Q a) W ∧
        unsched s' = unsched s ∧ procs s' !! a = Some r.
Proof.
  intros HB Hr Hrts Hg Hidle. pose proof (kb_ready _ _ _ HB) as HQ.
  assert (Hcan : can_enqueue s a r) by (apply HB; [done|by rewrite Hrts]).
  destruct Hcan as (_ & _ & Hp & _). set (q := p_priority r) in *.
  assert (Hother : ∀ q', q' ≠ q → a ∉ Q q').
  { intros q' Hne Ha. apply (ready_ready s) in Ha; [|done].
    apply ready_proc_inv in Ha as (r2 & ? & ? & ? & Hr2 & Heq & _). simplify_eq. }
  destruct (decide (a ∈ Q q)) as [Ha|Ha].
  - apply list_elem_of_split in Ha as (l1 & l2 & Hl).
    assert (Hni : a ∉ l1 ++ l2).
    { pose proof (rq_nodup _ _ HQ q) as Hnd. rewrite Hl, <-Permutation_middle in Hnd.
      by apply NoDup_cons in Hnd as [? _]. }
    assert (Hext : ∀ q', q_update Q q (l1 ++ l2) q' = qremove Q a q').
    { intros q'. unfold qremove. destruct (decide (q' = q)) as [->|Hne].
      - by rewrite q_update_eq, Hl, filter_remove.
      - rewrite q_update_ne by done. by rewrite filter_absent by auto. }
    destruct (dequeue_run s Q a r l1 l2 HQ Hr Hg Hl)
      as (s' & Hrun & HQ' & Hu & Hra & _ & Hsame).
    { intros Heq. rewrite <-(q_update_eq Q q (l1 ++ l2)), Hext.
      replace q with IDLE_Q by done. done. }
    apply (ready_queues_ext _ _ _ Hext) in HQ'.
    exists s'. split; [done|]. split; [|done]. apply (kbase_scheduled s s' Q); try done.
    + intros b Hb. destruct (decide (b = a)) as [->|Hne]; [congruence|].
      apply Hsame; [done|]. intros Hin. apply (Hb q). by apply elem_of_qremove.
    + intros q' b rb [_ Hb]%elem_of_qremove Hrb. by eapply (kb_unblocked _ _ _ HB).
  - exists s. split; [by apply (dequeue_absent s Q a r)|]. split; [|done].
    destruct HB as [_ HW Hs Hc Hub]. split; try done.
    + apply (ready_queues_ext s Q); [|done]. intros q'. unfold qremove.
      rewrite filter_absent; [done|]. destruct (decide (q' = q)) as [->|]; auto.
    + intros q' b rb [_ Hb]%elem_of_qremove Hrb. by apply (Hub q' b rb).
Qed.

(** ** Appending to a caller queue *)

(** The fields other than the two caller-queue links. *)
Definition erase_q (r : proc) : proc := r.[p_caller_q := None].[p_q_link := None].

Definition links_only (pm pm' : gmap (Z * Z) proc) : Prop :=
  erase_q <$> pm' = erase_q <$> pm.

Lemma links_only_lookup pm pm' a r' :
  links_only pm pm' → pm' !! a = Some r' →
  ∃ r, pm !! a = Some r ∧ erase_q r' = erase_q r.
Proof.
  intros H Hr. apply (f_equal (lookup a)) in H. rewrite !lookup_fmap, Hr in H. cbn in H.
  destruct (pm !! a) as [r|]; [|done]. exists r. split; [done|]. by apply (inj Some).
Qed.

Lemma links_only_insert pm a r r' :
  pm !! a = Some r → erase_q r' = erase_q r → links_only pm (<[a := r']> pm).
Proof.
  intros Hr He. unfold links_only. rewrite fmap_insert, He, <-fmap_insert.
  by rewrite insert_id.
Qed.

Lemma links_only_trans pm1 pm2 pm3 :
  links_only pm1 pm2 → links_only pm2 pm3 → links_only pm1 pm3.
Proof. unfold links_only. congruence. Qed.

Lemma erase_q_fields r r' :
  erase_q r' = erase_q r →
  p_rts_flags r' = p_rts_flags r ∧ p_vmid r' = p_vmid r ∧ p_priv r' = p_priv r ∧
  p_priority r' = p_priority r ∧ p_nextready r' = p_nextready r ∧
  p_misc_flags r' = p_misc_flags r ∧ p_sendto_e r' = p_sendto_e r.
Proof.
  intros H. split_and!;
    [exact (f_equal p_rts_flags H)|exact (f_equal p_vmid H)|exact (f_equal p_priv H)
    |exact (f_equal p_priority H)|exact (f_equal p_nextready H)
    |exact (f_equal p_misc_flags H)|exact (f_equal p_sendto_e H)].
Qed.

Lemma links_only_sym pm pm' : links_only pm pm' → links_only pm' pm.
Proof. unfold links_only. congruence. Qed.

Lemma links_chain pm pm' x l :
  links_only pm pm' → chain p_nextready pm x l → chain p_nextready pm' x l.
Proof.
  intros H. revert x. induction l as [|a l IH]; intros x; cbn; [done|].
  intros (-> & r & Hr & Hl). split; [done|].
  destruct (links_only_lookup _ _ a r (links_only_sym _ _ H) Hr) as (r' & Hr' & He).
  exists r'. split; [done|]. apply erase_q_fields in He as (_ & _ & _ & _ & He & _).
  exact (eq_ind _ (λ x, chain p_nextready pm' x l) (IH _ Hl) _ He).
Qed.

Lemma kbase_links s Q W W' pm :
  kbase s Q W → links_only (procs s) pm → wait_queues (s.[procs := pm]) W' →
  kbase (s.[procs := pm]) Q W'.
Proof.
  intros [HQ _ Hs (c & cur & Hc & Hcur) Hub] Hl HW.
  assert (Hback : ∀ b rb', pm !! b = Some rb' → ∃ rb, procs s !! b = Some rb ∧
            erase_q rb' = erase_q rb) by (intros b rb'; by apply links_only_lookup).
  split; [|done| | |].
  - destruct HQ as [H1 H2 H3 H4 H5]. split; try done.
    + intros q Hi. apply (links_chain (procs s)); [done|]. by apply H1.
    + intros q b Hb. destruct (H4 q b Hb) as (? & ? & Hrd). split_and!; try done.
      apply ready_proc_inv in Hrd as Hinv.
      destruct Hinv as (rb & vm & pa & pr & Hrb & _).
      destruct (links_only_lookup _ _ b rb (links_only_sym _ _ Hl) Hrb) as (rb' & Hb' & He).
      apply erase_q_fields in He as (_ & ? & ? & ? & _).
      by rewrite (ready_proc_fields s _ q b rb rb').
  - intros b rb' Hb Hf. destruct (Hback b rb' Hb) as (rb & Hrb & He).
    apply erase_q_fields in He as (Hf' & Hv & Hp & Hpri & _). rewrite Hf' in Hf.
    destruct (Hs b rb Hrb Hf) as (_ & ?). split; [done|]. by rewrite Hv, Hp, Hpri.
  - destruct (links_only_lookup _ _ c cur (links_only_sym _ _ Hl) Hcur) as (cur' & ? & _).
    by exists c, cur'.
  - intros q b rb' Hb Hrb'. destruct (Hback b rb' Hrb') as (rb & Hrb & He).
    apply erase_q_fields in He as (-> & _). eauto.
Qed.

(** The location after the elements [l1] of a caller queue holds the next one. *)
Lemma load_end_loc s d rd l1 l :
  procs s !! d = Some rd → chain p_q_link (procs s) (p_caller_q rd) (l1 ++ l) →
  load (end_loc d l1) s = Ret (head l) s.
Proof.
  intros Hd Hc. unfold end_loc. destruct (last l1) as [z|] eqn:Hz.
  - apply last_Some in Hz as [l0 ->]. rewrite <-app_assoc in Hc.
    destruct (chain_app _ _ _ _ _ _ Hc) as (r & Hr & Hn).
    cbn [load]. rewrite (bind_getp _ _ r) by done.
    by assert (p_q_link r = head l) as -> by exact (chain_head _ _ _ _ Hn).
  - apply last_None in Hz as ->. cbn [load]. rewrite (bind_getp _ _ rd) by done.
    by assert (p_caller_q rd = head l) as -> by exact (chain_head _ _ _ _ Hc).
Qed.

Lemma end_loc_snoc d l a : end_loc d (l ++ [a]) = QLink a.
Proof. unfold end_loc. by rewrite last_snoc. Qed.

Lemma end_scan_run s d rd l1 : ∀ l n,
  procs s !! d = Some rd → chain p_q_link (procs s) (p_caller_q rd) (l1 ++ l) →
  (length l < n)%nat →
  loop n end_scan (end_loc d l1) s = Ret (end_loc d (l1 ++ l)) s.
Proof.
  intros l. revert l1. induction l as [|a l IH]; intros l1 n Hd Hc Hn;
    (destruct n as [|n]; [cbn in Hn; lia|]); rewrite loop_S; unfold end_scan;
    rewrite (bind_Ret _ _ _ _ _ (load_end_loc s d rd l1 _ Hd Hc)); cbn [head].
  - by rewrite app_nil_r.
  - unfold ret. rewrite <-(end_loc_snoc d l1 a).
    replace (l1 ++ a :: l) with ((l1 ++ [a]) ++ l) in * by (by rewrite <-app_assoc).
    apply IH; [done|done|cbn in Hn; lia].
Qed.

Section append.
Context (s : kstate) (W : waits) (d c : Z * Z) (rd rc : proc).
Context (HW : wait_queues s W) (Hd : procs s !! d = Some rd) (Hc : procs s !! c = Some rc).
Context (Hfresh : ∀ d', c ∉ W d') (Hvc : valid_slot c).
Let W' := w_update W d (W d ++ [c]).

(** The queues are right when the chain of [d] is and the others kept theirs. *)
Lemma append_wait pm :
  (∀ rd', pm !! d = Some rd' → chain p_q_link pm (p_caller_q rd') (W d ++ [c])) →
  (∀ d' r', d' ≠ d → pm !! d' = Some r' → ∃ r, procs s !! d' = Some r ∧
     p_caller_q r' = p_caller_q r) →
  (∀ d' a r, d' ≠ d → a ∈ W d' → procs s !! a = Some r →
     ∃ r', pm !! a = Some r' ∧ p_q_link r' = p_q_link r) →
  wait_queues (s.[procs := pm]) W'.
Proof using HW Hfresh Hvc.
  clear Hd Hc rd rc. intros Hch Hcq Hql. destruct HW as [H1 H2 H3 H4]. unfold W'. split.
  - intros d' r' Hr'. cbn in Hr'. destruct (decide (d' = d)) as [->|Hne].
    + rewrite w_update_eq. by apply Hch.
    + rewrite w_update_ne by done. destruct (Hcq d' r' Hne Hr') as (r & Hr & ->).
      apply (chain_links _ (procs s)); [|by apply H1].
      intros a ra Ha Hra. by apply (Hql d' a ra).
  - intros d'. destruct (decide (d' = d)) as [->|Hne].
    + rewrite w_update_eq. apply NoDup_app. split; [done|].
      split; [|apply NoDup_singleton]. specialize (Hfresh d). set_solver.
    + by rewrite w_update_ne.
  - intros d' x. destruct (decide (d' = d)) as [->|Hne].
    + rewrite w_update_eq. intros [?| ->%list_elem_of_singleton]%elem_of_app; eauto.
    + rewrite w_update_ne by done. eauto.
  - intros d1 d2 x. assert (Hx : ∀ d', x ∈ w_update W d (W d ++ [c]) d' →
      (x = c ∧ d' = d) ∨ (x ≠ c ∧ x ∈ W d')).
    { intros d'. destruct (decide (d' = d)) as [->|Hne].
      - rewrite w_update_eq. intros [Hx| ->%list_elem_of_singleton]%elem_of_app; [|auto].
        right. split; [|done]. intros ->. by apply Hfresh in Hx.
      - rewrite w_update_ne by done. intros Hx. right. split; [|done].
        intros ->. by apply Hfresh in Hx. }
    intros [[? ->]|[? ?]]%Hx [[? ->]|[? ?]]%Hx; try done. eauto.
Qed.

Lemma append_run :
  ∃ pm, append_caller (Some d) (Some c) s = Ret tt (s.[procs := pm]) ∧
        links_only (procs s) pm ∧ wait_queues (s.[procs := pm]) W'.
Proof using HW Hd Hc Hfresh Hvc.
  pose proof (wq_chain _ _ HW d rd Hd) as Hch.
  assert (Hlen : (length (W d) < list_fuel)%nat).
  { apply slots_bound; [apply HW|]. rewrite Forall_forall. apply HW. }
  unfold append_caller.
  rewrite (bind_Ret _ _ _ _ _ (end_scan_run s d rd [] (W d) _ Hd Hch Hlen)).
  cbn [app]. unfold end_loc. destruct (last (W d)) as [z|] eqn:Hz.
  - apply last_Some in Hz as [l0 Hl]. rewrite Hl in Hch.
    assert (Hzc : z ≠ c) by (intros ->; apply (Hfresh d); rewrite Hl; set_solver).
    destruct (chain_elem _ _ _ _ z Hch) as [rz Hrz]; [set_solver|].
    cbn [store]. mrun. eexists. split; [done|].
    set (pm1 := <[z := rz.[p_q_link := Some c]]> (procs s)).
    assert (Hc1 : pm1 !! c = Some rc) by (unfold pm1; by rewrite lookup_insert_ne).
    change (procs (s.[procs := pm1])) with pm1.
    split; [apply (links_only_trans _ pm1);
              [by apply (links_only_insert _ z rz)|by apply (links_only_insert _ c rc)]|].
    assert (Hcq : ∀ b r', <[c := rc.[p_q_link := None]]> pm1 !! b = Some r' →
      ∃ r, procs s !! b = Some r ∧ p_caller_q r' = p_caller_q r).
    { intros b r'. destruct (decide (b = c)) as [->|Hbc].
      { rewrite lookup_insert_eq. intros [= <-]. by exists rc. }
      rewrite lookup_insert_ne by done. destruct (decide (b = z)) as [->|Hbz].
      { unfold pm1. rewrite lookup_insert_eq. intros [= <-]. by exists rz. }
      unfold pm1. rewrite lookup_insert_ne by done. intros ?. by exists r'. }
    apply append_wait.
    + intros rd' Hrd'. destruct (Hcq d rd' Hrd') as (rd2 & Hd2 & ->).
      rewrite Hd in Hd2. injection Hd2 as <-. rewrite Hl, <-app_assoc. cbn [app].
      apply (chain_agree _ (<[z := rz.[p_q_link := Some c]]>
                              (<[c := rc.[p_q_link := None]]> (procs s)))).
      { intros b _. unfold pm1. by rewrite insert_insert_ne. }
      apply (chain_redirect _ _ _ l0 z [] [c] rz).
      * rewrite <-Hl. apply HW.
      * set_solver.
      * by rewrite lookup_insert_ne.
      * apply chain_insert_ne; [by rewrite <-Hl|done].
      * cbn. split; [done|]. exists (rc.[p_q_link := None]). by rewrite lookup_insert_eq.
    + intros d' r' _. apply Hcq.
    + intros d' b rb Hne Hb Hrb. exists rb. split; [|done]. unfold pm1.
      rewrite lookup_insert_ne by (intros <-; by apply Hfresh in Hb).
      rewrite lookup_insert_ne; [done|]. intros <-. apply Hne. apply (wq_inj _ _ HW d' d z); [done|]. rewrite Hl. set_solver.
  - apply last_None in Hz. rewrite Hz in Hch. cbn [store].
    rewrite (bind_putp _ d rd) by done.
    set (pm1 := <[d := rd.[p_caller_q := Some c]]> (procs s)).
    assert (∃ rc1, pm1 !! c = Some rc1 ∧ erase_q rc1 = erase_q rc ∧
                   p_caller_q rc1 = if decide (c = d) then Some c else p_caller_q rc)
      as (rc1 & Hc1 & He & Hcq1).
    { unfold pm1. destruct (decide (c = d)) as [->|Hne].
      - rewrite lookup_insert_eq. eexists. split; [done|]. by simplify_eq.
      - rewrite lookup_insert_ne by done. by eexists. }
    rewrite (tail_putp _ c rc1) by done. eexists. split; [done|].
    change (procs (s.[procs := pm1])) with pm1.
    split; [apply (links_only_trans _ pm1);
              [by apply (links_only_insert _ d rd)|by apply (links_only_insert _ c rc1)]|].
    apply append_wait.
    + intros rd' Hrd'. rewrite Hz. cbn [app chain].
      assert (p_caller_q rd' = Some c) as ->.
      { destruct (decide (c = d)) as [Heq|Hne].
        - rewrite Heq, lookup_insert_eq in Hrd'. injection Hrd' as <-. done.
        - rewrite lookup_insert_ne in Hrd' by done. unfold pm1 in Hrd'.
          rewrite lookup_insert_eq in Hrd'. by injection Hrd' as <-. }
      split; [done|]. eexists. by rewrite lookup_insert_eq.
    + intros d' r' Hne. destruct (decide (d' = c)) as [->|].
      * rewrite lookup_insert_eq. intros [= <-]. exists rc. split; [done|].
        cbn. rewrite Hcq1. by rewrite decide_False.
      * rewrite lookup_insert_ne by done. unfold pm1. rewrite lookup_insert_ne by done.
        intros ?. by exists r'.
    + intros d' b rb Hne Hb Hrb. destruct (decide (b = c)) as [->|Hbc];
        [by apply Hfresh in Hb|]. rewrite lookup_insert_ne by done. unfold pm1.
      destruct (decide (b = d)) as [->|Hbd].
      * rewrite lookup_insert_eq. eexists. split; [done|]. by simplify_eq.
      * rewrite lookup_insert_ne by done. by exists rb.
Qed.
End append.

(** ** Deciding the invariant on a concrete state *)
Definition waiting_of (s : kstate) : waits := λ d,
  match procs s !! d with
  | Some r => default [] (walk list_fuel p_q_link (procs s) (p_caller_q r))
  | None => []
  end.

Definition wait_ok (s : kstate) (dr : (Z * Z) * proc) : bool :=
  bool_decide (is_Some (walk list_fuel p_q_link (procs s) (p_caller_q (snd dr))))
  && bool_decide (NoDup (waiting_of s (fst dr)))
  && forallb (λ x, bool_decide (valid_slot x)) (waiting_of s (fst dr))
  && forallb (λ er, bool_decide (fst er = fst dr)
       || forallb (λ x, bool_decide (x ∉ waiting_of s (fst er))) (waiting_of s (fst dr)))
       (map_to_list (procs s))
  && forallb (λ x, blocked_sending (proc_at s x)) (waiting_of s (fst dr)).

Definition kinvb (s : kstate) : bool :=
  ready_queuesb s
  && forallb (wait_ok s) (map_to_list (procs s))
  && forallb (λ dr, band (p_rts_flags (snd dr)) SLOT_FREE || can_enqueueb s (fst dr))
       (map_to_list (procs s))
  && match proc_ptr s with Some c => bool_decide (is_Some (procs s !! c)) | None => false end
  && forallb (λ q, forallb (λ a, p_rts_flags (proc_at s a) =? 0) (queue_of s q))
       (zrange 0 NR_SCHED_QUEUES).

Lemma forall_procs (s : kstate) (P : (Z * Z) * proc → bool) :
  forallb P (map_to_list (procs s)) = true →
  ∀ a r, procs s !! a = Some r → P (a, r) = true.
Proof.
  rewrite forallb_forall. intros H a r Hr. apply H, list_elem_of_In.
  by apply elem_of_map_to_list.
Qed.

Lemma waiting_in s d x : x ∈ waiting_of s d → ∃ r, procs s !! d = Some r.
Proof. unfold waiting_of. destruct (procs s !! d) as [r|]; [eauto|set_solver]. Qed.

Lemma proc_at_eq s a r : procs s !! a = Some r → proc_at s a = r.
Proof. unfold proc_at. by intros ->. Qed.

Lemma wait_ok_sound s :
  forallb (wait_ok s) (map_to_list (procs s)) = true →
  wait_queues s (waiting_of s) ∧
  ∀ d x r, x ∈ waiting_of s d → procs s !! x = Some r → blocked_sending r.
Proof.
  intros H. assert (Hd : ∀ d r, procs s !! d = Some r → wait_ok s (d, r) = true)
    by exact (forall_procs s _ H).
  unfold wait_ok in Hd. cbn [fst snd] in Hd.
  assert (Hd1 : ∀ d r, procs s !! d = Some r → _) by
    (intros d r Hr; pose proof (Hd d r Hr) as H'; rewrite !andb_true_iff in H';
     rewrite !bool_decide_eq_true in H'; exact H'). clear Hd. rename Hd1 into Hd.
  split; [split|].
  - intros d r Hr. destruct (Hd d r Hr) as [[[[[l Hw] _] _] _] _].
    unfold waiting_of. rewrite Hr, Hw. by eapply walk_chain.
  - intros d. destruct (procs s !! d) as [r|] eqn:Hr.
    + by destruct (Hd d r Hr) as [[[[_ ?] _] _] _].
    + unfold waiting_of. rewrite Hr. constructor.
  - intros d x Hx. destruct (waiting_in _ _ _ Hx) as [r Hr].
    destruct (Hd d r Hr) as [[[_ Hv] _] _]. rewrite forallb_forall in Hv.
    apply (bool_decide_eq_true_1 _), Hv. by apply list_elem_of_In.
  - intros d d' x Hx Hx'. destruct (waiting_in _ _ _ Hx) as [r Hr].
    destruct (waiting_in _ _ _ Hx') as [r' Hr'].
    destruct (Hd d r Hr) as [[_ Hdis] _].
    pose proof (forall_procs s _ Hdis d' r' Hr') as Hp. cbn [fst] in Hp.
    apply orb_true_iff in Hp as [Hp%bool_decide_eq_true|Hp]; [done|].
    rewrite forallb_forall in Hp. specialize (Hp x).
    rewrite bool_decide_eq_true in Hp. exfalso. apply Hp; [by apply list_elem_of_In|done].
  - intros d x r Hx Hr. destruct (waiting_in _ _ _ Hx) as [rd Hrd].
    destruct (Hd d rd Hrd) as [_ Hb]. rewrite forallb_forall in Hb.
    apply Is_true_true. rewrite <-(proc_at_eq s x r Hr). apply Hb. by apply list_elem_of_In.
Qed.

Lemma kinvb_sound s : kinvb s = true → kinv s (queue_of s) (waiting_of s).
Proof.
  unfold kinvb. rewrite !andb_true_iff. intros [[[[Hr Hw] Hs] Hc] Hu].
  apply wait_ok_sound in Hw as [HW Hb]. split; [|done].
  apply ready_queuesb_sound in Hr as HQ. split; try done.
  - intros a r Har Hf. pose proof (forall_procs s _ Hs a r Har) as H. cbn [fst snd] in H.
    rewrite Hf in H. apply can_enqueue_check in H. by rewrite (proc_at_eq s a r) in H.
  - destruct (proc_ptr s) as [c|] eqn:Hp; [|done].
    apply bool_decide_eq_true in Hc as [cur Hcur]. by exists c, cur.
  - intros q a r Ha Har. rewrite forallb_forall in Hu.
    assert (Hq : In q (zrange 0 NR_SCHED_QUEUES)).
    { apply list_elem_of_In, elem_of_zrange.
      destruct (rq_slots _ _ HQ q a Ha) as [Hi%rdy_index_iff _].
      unfold NR_SCHED_QUEUES, IDLE_Q in *. lia. }
    specialize (Hu q Hq). rewrite forallb_forall in Hu.
    apply list_elem_of_In in Ha. apply Hu in Ha. rewrite (proc_at_eq s a r Har) in Ha.
    by apply Z.eqb_eq.
Qed.
