(* ===== verification/KCore.v ===== *)
(** * States up to scheduling and queue links

    [core_state s] forgets what scheduling and the linked lists keep: two states
    with the same core differ only in ready queues, wait queues and quanta. *)
From stdpp Require Import base gmap list numbers strings.
From Stdlib Require Import ZArith Lia.
From S2P Require Import Prelude.
From S2P Require Import Chains.
From S2P Require Import KTypes.
From S2P Require Import KProc.
From S2P Require Import KSched.
From S2P Require Import KIpcSend.
From S2P Require Import KSysCall.
From S2P Require Import KStep.
From S2P Require Import KReady.
From S2P Require Import KSchedOps.
From S2P Require Import KIpcInv.

Definition core (r : proc) : proc := erase_q (erase r).
Definition core_state (s : kstate) : kstate :=
  s.[procs := core <$> procs s].[rdy_head := ∅].[rdy_tail := ∅]
   .[next_ptr := None].[bill_ptr := None].

Lemma core_state_unsched s :
  core_state s = (unsched s).[procs := erase_q <$> procs (unsched s)].
Proof.
  transitivity ((unsched s).[procs := core <$> procs s]); [reflexivity|].
  f_equiv. cbn. by rewrite <-map_fmap_compose.
Qed.

Lemma unsched_core s s' : unsched s' = unsched s → core_state s' = core_state s.
Proof. intros H. by rewrite !core_state_unsched, H. Qed.

Lemma core_map (pm : gmap (Z * Z) proc) : core <$> pm = erase <$> (erase_q <$> pm).
Proof. by rewrite <-map_fmap_compose. Qed.

Lemma links_core s pm : links_only (procs s) pm → core_state (s.[procs := pm]) = core_state s.
Proof.
  intros H. transitivity ((core_state s).[procs := core <$> pm]); [reflexivity|].
  rewrite core_map. unfold links_only in H. rewrite H, <-core_map. reflexivity.
Qed.

Lemma core_lookup s s' a r :
  core_state s' = core_state s → procs s !! a = Some r →
  ∃ r', procs s' !! a = Some r' ∧ core r' = core r.
Proof.
  intros H Hr. assert (Hm : core <$> procs s' = core <$> procs s)
    by exact (f_equal procs H).
  apply (f_equal (lookup a)) in Hm. rewrite !lookup_fmap, Hr in Hm. cbn in Hm.
  destruct (procs s' !! a) as [r'|]; [|done]. exists r'. split; [done|].
  by apply (inj Some).
Qed.

Lemma core_rts r r' : core r' = core r → p_rts_flags r' = p_rts_flags r.
Proof. intros H. exact (f_equal p_rts_flags H). Qed.

Lemma core_insert s s' a r' r :
  core_state s' = core_state s → core r' = core r →
  core_state (s'.[procs := <[a := r']> (procs s')]) =
  core_state (s.[procs := <[a := r]> (procs s)]).
Proof.
  intros H Hr. assert (Hm : core <$> procs s' = core <$> procs s) by exact (f_equal procs H).
  transitivity ((core_state s').[procs := core <$> <[a := r']> (procs s')]); [reflexivity|].
  rewrite H, fmap_insert, Hm, Hr, <-fmap_insert. reflexivity.
Qed.

Lemma core_putp s s' a r' :
  core_state s' = core_state s →
  core_state (s'.[procs := <[a := r']> (procs s')]) =
  core_state (s.[procs := <[a := r']> (procs s)]).
Proof. intros H. by apply core_insert. Qed.

(** The part of the invariant about senders, for a state known up to [core]. *)
Lemma blocked_core s s' (W : waits) :
  core_state s' = core_state s →
  (∀ d x r, x ∈ W d → procs s !! x = Some r → blocked_sending r) →
  ∀ d x r, x ∈ W d → procs s' !! x = Some r → blocked_sending r.
Proof.
  intros H Hb d x r Hx Hr. destruct (core_lookup s' s x r) as (r0 & Hr0 & Hc); [done..|].
  unfold blocked_sending. rewrite <-(core_rts _ _ Hc). by apply (Hb d x r0).
Qed.

Lemma core_misc r r' : core r' = core r → p_misc_flags r' = p_misc_flags r.
Proof. intros H. exact (f_equal p_misc_flags H). Qed.
Lemma core_vmid r r' : core r' = core r → p_vmid r' = p_vmid r.
Proof. intros H. exact (f_equal p_vmid H). Qed.

Lemma not_waiting s Q W c rc :
  kinv s Q W → procs s !! c = Some rc → p_rts_flags rc = 0 → ∀ d, c ∉ W d.
Proof.
  intros [_ Hb] Hrc H0 d Hd. specialize (Hb d c rc Hd Hrc).
  unfold blocked_sending in Hb. by rewrite H0 in Hb.
Qed.

