(* ===== verification/KRecvOps.v ===== *)
(** * Lemmas on [MH_receive]: the scan of the caller queue and the unlinking

    [MH_receive] walks the queue with a pointer pointer, skips the senders it
    does not want and takes the first acceptable one out. *)
From stdpp Require Import base gmap list numbers strings.
From Stdlib Require Import ZArith Lia.
From S2P Require Import Prelude.
From S2P Require Import Chains.
From S2P Require Import KTypes.
From S2P Require Import KProc.
From S2P Require Import KSched.
From S2P Require Import KIpcSend.
From S2P Require Import KIpcRecv.
From S2P Require Import KStep.
From S2P Require Import KReady.
From S2P Require Import KSchedOps.
From S2P Require Import KIpcInv.
From S2P Require Import KCore.

(** ** Taking an element out of a caller queue *)
Section unlink.
Context (s : kstate) (W : waits) (d x : Z * Z) (rd rx : proc).
Context (l1 l2 : list (Z * Z)).
Context (HW : wait_queues s W) (Hd : procs s !! d = Some rd)
  (Hx : procs s !! x = Some rx) (HWd : W d = l1 ++ x :: l2).
Let W' := w_update W d (l1 ++ l2).

Lemma unlink_nodup : NoDup (l1 ++ l2) ∧ x ∉ l1 ++ l2.
Proof using HW HWd.
  pose proof (wq_nodup _ _ HW d) as Hnd. rewrite HWd, <-Permutation_middle in Hnd.
  by apply NoDup_cons in Hnd as [? ?].
Qed.

Lemma unlink_elem d' z : z ∈ W' d' → z ∈ W d' ∧ z ≠ x.
Proof using HW HWd.
  clear Hd Hx rd rx. destruct unlink_nodup as [_ Hni]. unfold W'.
  destruct (decide (d' = d)) as [->|Hne].
  - rewrite w_update_eq, HWd. intros Hz. split; [set_solver|]. by intros ->.
  - rewrite w_update_ne by done. intros Hz. split; [done|]. intros ->. apply Hne.
    apply (wq_inj _ _ HW d' d x); [done|]. rewrite HWd. set_solver.
Qed.

(** The queues are right when the chain of [d] is and the others kept theirs. *)
Lemma unlink_wait pm :
  (∀ rd', pm !! d = Some rd' → chain p_q_link pm (p_caller_q rd') (l1 ++ l2)) →
  (∀ d' r', d' ≠ d → pm !! d' = Some r' → ∃ r, procs s !! d' = Some r ∧
     p_caller_q r' = p_caller_q r) →
  (∀ d' a r, d' ≠ d → a ∈ W d' → procs s !! a = Some r →
     ∃ r', pm !! a = Some r' ∧ p_q_link r' = p_q_link r) →
  wait_queues (s.[procs := pm]) W'.
Proof using HW HWd.
  clear Hd Hx rd rx. intros Hch Hcq Hql. pose proof unlink_elem as He. pose proof HW as [H1 H2 H3 H4]. split.
  - intros d' r' Hr'. cbn in Hr'. unfold W'. destruct (decide (d' = d)) as [->|Hne].
    + rewrite w_update_eq. by apply Hch.
    + rewrite w_update_ne by done. destruct (Hcq d' r' Hne Hr') as (r & Hr & ->).
      apply (chain_links _ (procs s)); [|by apply H1].
      intros a ra Ha Hra. by apply (Hql d' a ra).
  - intros d'. unfold W'. destruct (decide (d' = d)) as [->|Hne].
    + rewrite w_update_eq. apply unlink_nodup.
    + by rewrite w_update_ne.
  - intros d' z Hz. eapply H3, He, Hz.
  - intros d1 d2 z Hz1 Hz2. apply (H4 d1 d2 z); by apply He.
Qed.

Lemma unlink_rest : chain p_q_link (procs s) (p_q_link rx) l2.
Proof using HW Hd Hx HWd.
  pose proof (wq_chain _ _ HW d rd Hd) as Hch. rewrite HWd in Hch.
  destruct (chain_app _ _ _ _ _ _ Hch) as (r & Hr & Hl). by simplify_eq.
Qed.

Lemma unlink_sender_run :
  ∃ pm, store (end_loc d l1) (p_q_link rx) s = Ret tt (s.[procs := pm]) ∧
        links_only (procs s) pm ∧ wait_queues (s.[procs := pm]) W'.
Proof using HW Hd Hx HWd.
  pose proof (wq_chain _ _ HW d rd Hd) as Hch. pose proof unlink_rest as Hrest.
  destruct unlink_nodup as [Hnd Hni]. rewrite HWd in Hch. unfold end_loc.
  destruct (last l1) as [z|] eqn:Hz.
  - apply last_Some in Hz as [l0 Hl]. rewrite Hl, <-app_assoc in Hch.
    rewrite Hl, <-app_assoc in Hnd.
    destruct (chain_elem _ _ _ _ z Hch) as [rz Hrz]; [set_solver|].
    cbn [store]. rewrite (tail_putp _ z rz) by done. eexists. split; [done|].
    split; [by apply (links_only_insert _ z rz)|].
    assert (Hzd : ∀ d' , z ∈ W d' → d' = d).
    { intros d' Hz'. apply (wq_inj _ _ HW d' d z); [done|]. rewrite HWd, Hl. set_solver. }
    apply unlink_wait.
    + intros rd' Hrd'. assert (p_caller_q rd' = p_caller_q rd) as ->.
      { destruct (decide (d = z)) as [Heq|Hne]; [rewrite Heq, lookup_insert_eq in Hrd'|
          rewrite lookup_insert_ne in Hrd' by done]; by simplify_eq. }
      rewrite Hl, <-app_assoc. cbn [app].
      apply (chain_redirect _ _ _ l0 z (x :: l2) l2 rz); try done.
      * apply NoDup_app in Hnd as (H1 & H2 & H3). apply NoDup_app.
        split; [done|]. split; [set_solver|apply NoDup_singleton].
      * apply NoDup_app in Hnd as (_ & _ & H3). by apply NoDup_cons in H3 as [? _].
    + intros d' r' Hne Hr'. destruct (decide (d' = z)) as [->|Hdz].
      * rewrite lookup_insert_eq in Hr'. injection Hr' as <-. by exists rz.
      * rewrite lookup_insert_ne in Hr' by done. by exists r'.
    + intros d' a r Hne Ha Hr. exists r. split; [|done].
      rewrite lookup_insert_ne; [done|]. intros <-. by apply Hne, Hzd.
  - apply last_None in Hz as Hl. rewrite Hl in Hch. cbn [store].
    rewrite (tail_putp _ d rd) by done. eexists. split; [done|].
    split; [by apply (links_only_insert _ d rd)|]. apply unlink_wait.
    + intros rd' Hrd'. rewrite lookup_insert_eq in Hrd'. injection Hrd' as <-.
      rewrite Hl. cbn [app]. by apply (chain_insert_link _ _ _ _ _ rd).
    + intros d' r' Hne Hr'. rewrite lookup_insert_ne in Hr' by done. by exists r'.
    + intros d' a r Hne Ha Hr. destruct (decide (a = d)) as [->|Had].
      * exists (rd.[p_caller_q := p_q_link rx]). rewrite lookup_insert_eq. by simplify_eq.
      * exists r. by rewrite lookup_insert_ne.
Qed.
End unlink.

(** ** Which senders are accepted *)

(** The conditions of the scan, for a sender that is not a promiscuous process
    of VM0 in the middle of [sendrecvm]. *)
Definition wanted (c : proc) (src_ep : Z) (x : proc) : bool :=
  ((p_vmid c =? p_vmid x) || (p_nr c =? SYSTEM))
  && ((src_ep =? ANY) || (src_ep =? p_endpoint x)).

(** Every process of the list is in the table, and is not accepted. *)
Definition skipped (s : kstate) (c : proc) (src_ep : Z) (l : list (Z * Z)) : Prop :=
  ∀ x, x ∈ l → ∃ r, procs s !! x = Some r ∧ sendrecvm_sender c r = false ∧
                    wanted c src_ep r = false.

Section scan.
Context (s : kstate) (ca : Z * Z) (c : proc) (src_ep m_ptr : Z).
Context (Hc : procs s !! ca = Some c).

Lemma receive_scan_step xpp x rx :
  load xpp s = Ret (Some x) s → procs s !! x = Some rx → sendrecvm_sender c rx = false →
  receive_scan (Some ca) src_ep m_ptr xpp s =
  (if wanted c src_ep rx
   then (receive_take (Some ca) m_ptr xpp x (p_endpoint rx);;; ret (inr true))
   else ret (inl (QLink x))) s.
Proof using Hc.
  intros Hl Hx Hcond. unfold receive_scan. rewrite (bind_Ret _ _ _ _ _ Hl). mrun.
  unfold sender_endpoint, wanted. rewrite Hcond, orb_false_r, bind_ret. by case_match.
Qed.

(** The scan passes over senders it does not accept. *)
Lemma receive_scan_skip l2 : ∀ l1 l3 n,
  chain p_q_link (procs s) (p_caller_q c) (l1 ++ l2 ++ l3) →
  skipped s c src_ep l2 →
  loop (length l2 + n) (receive_scan (Some ca) src_ep m_ptr) (end_loc ca l1) s =
  loop n (receive_scan (Some ca) src_ep m_ptr) (end_loc ca (l1 ++ l2)) s.
Proof using Hc.
  induction l2 as [|x l2 IH]; intros l1 l3 n Hch Hs; [by rewrite app_nil_r|].
  destruct (Hs x) as (rx & Hx & Hcond & Hw); [by left|].
  cbn [length Nat.add]. rewrite loop_S.
  rewrite (receive_scan_step _ x rx) by
    (done || by rewrite (load_end_loc s ca c l1 _ Hc Hch)).
  rewrite Hw. unfold ret. rewrite <-(end_loc_snoc ca l1 x).
  rewrite (IH (l1 ++ [x]) l3).
  - by rewrite <-app_assoc.
  - by rewrite <-app_assoc.
  - intros y Hy. apply Hs. by right.
Qed.

(** ... and ends with [false] when it accepts none. *)
Lemma receive_scan_none l n :
  chain p_q_link (procs s) (p_caller_q c) l → skipped s c src_ep l → (length l < n)%nat →
  loop n (receive_scan (Some ca) src_ep m_ptr) (CallerQ ca) s = Ret false s.
Proof using Hc.
  intros Hch Hs Hn. replace n with (length l + S (n - length l - 1))%nat by lia.
  change (CallerQ ca) with (end_loc ca []).
  rewrite (receive_scan_skip l [] []); [|by rewrite app_nil_r|done].
  cbn [app]. rewrite loop_S. unfold receive_scan at 1.
  assert (load (end_loc ca l) s = Ret None s) as Hl.
  { apply (load_end_loc s ca c l []); [done|by rewrite app_nil_r]. }
  by rewrite (bind_Ret _ _ _ _ _ Hl).
Qed.
End scan.

(** ** Taking the message *)

(** The message lands in the receiver's buffer under the sender's endpoint. *)
Definition took (s : kstate) (c x : proc) (m_ptr : Z) : gmap Z message :=
  <[phys_addr (mem_phys (p_memmap_D c)) m_ptr :=
      (default msg0 (kmem s !! phys_addr (mem_phys (p_memmap_D x)) (p_messbuf x)))
        .[m_source := p_endpoint x]]> (kmem s).

(** The sender and the receiver afterwards. *)
Definition sent (r : proc) : proc :=
  r.[p_rts_flags := bclr (p_rts_flags r) SENDING].[p_sendto_e := NONE].
Definition received (r : proc) : proc :=
  r.[p_misc_flags := bclr (p_misc_flags r)
       (Z.lor (Z.lor VMID_PENDING NOT_GETFROM) REPLY_PENDING)].

(** The test the code makes on the sender's successor. *)
Definition recheck (xpp : ploc) : K unit :=
  let* next := load xpp in
  let* nx := getp next in
  when (p_rts_flags nx =? 0) (enqueue next).

Lemma sending_flags r :
  blocked_sending r → band (p_rts_flags r) NOTIFYING = false →
  p_rts_flags r ≠ 0 ∧
  (band (bclr (p_rts_flags r) SENDING) SLOT_FREE = false →
   band (p_rts_flags r) SLOT_FREE = false).
Proof.
  intros Hb _. split; [by intros E; unfold blocked_sending in Hb; rewrite E in Hb|].
  unfold band, bclr. rewrite <-Z.land_assoc.
  by replace (Z.land (Z.lnot SENDING) SLOT_FREE) with SLOT_FREE by done.
Qed.

Section take.
Context (s : kstate) (Q : queues) (W : waits) (ca x cc : Z * Z) (c rx cur : proc).
Context (l1 l2 : list (Z * Z)) (m_ptr : Z).
Context (HI : kinv s Q W) (Hc : procs s !! ca = Some c) (Hx : procs s !! x = Some rx)
  (Hcx : ca ≠ x) (Hcur : current s cc cur) (Hsys : p_nr c ≠ SYSTEM)
  (HWc : W ca = l1 ++ x :: l2) (Hnot : band (p_rts_flags rx) NOTIFYING = false).
Let Q' := unblocked Q x rx cur (bclr (p_rts_flags rx) SENDING).
Let W' := w_update W ca (l1 ++ l2).
Let after := s.[kmem := took s c rx m_ptr]
              .[procs := <[ca := received c]> (<[x := sent rx]> (procs s))].

(** After the copy, the sender is unblocked. *)
Lemma take_unblock :
  ∃ s2 rx2, unblock (Some x) SENDING (s.[kmem := took s c rx m_ptr]) = Ret tt s2 ∧
    kbase s2 Q' W ∧ procs s2 !! x = Some rx2 ∧
    core_state (s2.[procs := <[x := rx2.[p_sendto_e := NONE]]> (procs s2)]) =
    core_state (s.[kmem := took s c rx m_ptr].[procs := <[x := sent rx]> (procs s)]).
Proof using HI Hc Hx Hcx Hcur Hsys HWc Hnot.
  destruct HI as [HB Hbs].
  assert (Hb : blocked_sending rx) by (apply (Hbs ca x rx); [rewrite HWc; set_solver|done]).
  destruct (sending_flags rx Hb Hnot) as [Hne Hfree].
  set (s1 := s.[kmem := took s c rx m_ptr]).
  set (rx1 := rx.[p_rts_flags := bclr (p_rts_flags rx) SENDING]).
  destruct (unblock_run s1 Q W x rx SENDING cc cur) as (s2 & Hrun & HB2 & Hu); try done.
  { by apply (kbase_same s). }
  apply unsched_core in Hu. fold rx1 in Hu.
  destruct (core_lookup _ s2 x rx1 Hu) as (rx2 & Hx2 & Hcore);
    [cbn; by rewrite lookup_insert_eq|].
  exists s2, rx2. split_and!; try done.
  rewrite (core_insert _ _ x _ (sent rx) Hu).
  - cbn [procs fupd]. by rewrite insert_insert_eq.
  - transitivity ((core rx2).[p_sendto_e := NONE]); [reflexivity|]. by rewrite Hcore.
Qed.

Lemma take_run :
  ∃ s', receive_take (Some ca) m_ptr (end_loc ca l1) x (p_endpoint rx) s =
          recheck (end_loc ca l1) s' ∧
        kinv s' Q' W' ∧ core_state s' = core_state after ∧
        load (end_loc ca l1) s' = Ret (head l2) s'.
Proof using HI Hc Hx Hcx Hcur Hsys HWc Hnot.
  destruct take_unblock as (s2 & rx2 & Hrun & HB2 & Hx2 & Hco3).
  unfold receive_take. mrun. rewrite (proj2 (Z.eqb_neq _ _) Hsys). cbn [when].
  rewrite bind_skip, Hnot. unfold CopyMess_ep. mrun. unfold cp_mess. mrun.
  fold (took s c rx m_ptr). rewrite (bind_Ret _ _ _ _ _ Hrun).
  rewrite (bind_putp _ x rx2) by done. set (rx3 := rx2.[p_sendto_e := NONE]) in *.
  set (s3 := s2.[procs := <[x := rx3]> (procs s2)]) in *.
  assert (Hx3 : procs s3 !! x = Some rx3) by apply lookup_insert_eq.
  assert (HB3 : kbase s3 Q' W).
  { apply (kbase_putp s2 Q' W x rx2 rx3); try done. intros [q Hq].
    by apply (kb_unblocked _ _ _ HB2 q x rx2). }
  rewrite (bind_getp _ _ rx3) by done.
  (* out of the queue *)
  destruct (core_lookup _ s3 ca c Hco3) as (c3 & Hc3 & Hcc3).
  { cbn. by rewrite lookup_insert_ne. }
  destruct (unlink_sender_run s3 W ca x c3 rx3 l1 l2 (kb_wait _ _ _ HB3) Hc3 Hx3 HWc)
    as (pm & Hst & Hlinks & HW4).
  rewrite (bind_Ret _ _ _ _ _ Hst). set (s4 := s3.[procs := pm]) in *.
  assert (HB4 : kbase s4 Q' W') by (by apply (kbase_links s3 _ W)).
  assert (Hco4 : core_state s4 = core_state s3) by (by apply links_core).
  destruct (core_lookup s3 s4 ca c3 Hco4 Hc3) as (c4 & Hc4 & Hcc4).
  rewrite (bind_putp _ ca c4) by done.
  change (c4.[p_misc_flags := bclr (p_misc_flags c4)
            (Z.lor (Z.lor VMID_PENDING NOT_GETFROM) REPLY_PENDING)]) with (received c4).
  set (s5 := s4.[procs := <[ca := received c4]> (procs s4)]).
  assert (Hc5 : procs s5 !! ca = Some (received c4)) by apply lookup_insert_eq.
  assert (HB5 : kbase s5 Q' W').
  { apply (kbase_putp s4 Q' W' ca c4); try done. intros [q Hq].
    by apply (kb_unblocked _ _ _ HB4 q ca c4). }
  assert (Hco5 : core_state s5 = core_state after).
  { unfold s5, after.
    rewrite (core_insert (s.[kmem := took s c rx m_ptr].[procs := <[x := sent rx]> (procs s)])
               s4 ca (received c4) (received c)); [reflexivity|congruence|].
    transitivity ((core c4).[p_misc_flags := bclr (p_misc_flags (core c4))
       (Z.lor (Z.lor VMID_PENDING NOT_GETFROM) REPLY_PENDING)]); [reflexivity|].
    rewrite Hcc4, Hcc3. reflexivity. }
  exists s5. split; [reflexivity|]. split; [|split; [done|]].
  - split; [done|]. apply (blocked_core after s5 W' Hco5).
    intros d z r Hz Hr. pose proof (unlink_elem s W ca x l1 l2 (kb_wait _ _ _ (proj1 HI)) HWc
      d z Hz) as [HzW Hzx].
    unfold after in Hr. cbn in Hr. destruct (decide (z = ca)) as [->|Hzc].
    + rewrite lookup_insert_eq in Hr. injection Hr as <-. by apply (proj2 HI d ca c).
    + rewrite !lookup_insert_ne in Hr by done. by apply (proj2 HI d z r).
  - apply (load_end_loc s5 ca (received c4)); [done|].
    pose proof (wq_chain _ _ (kb_wait _ _ _ HB5) ca _ Hc5) as Hch.
    unfold W' in Hch. by rewrite w_update_eq in Hch.
Qed.
End take.
