(* ===== verification/KSchedThms.v ===== *)
(** * Properties of the scheduler *)
From stdpp Require Import base gmap list numbers strings.
From Stdlib Require Import ZArith Lia.
From S2P Require Import Prelude.
From S2P Require Import Chains.
From S2P Require Import KTypes.
From S2P Require Import KProc.
From S2P Require Import KSched.
From S2P Require Import KStep.
From S2P Require Import KReady.
From S2P Require Import KSchedOps.

(** A state with ready processes of both VMs: processes 20 and 21 of VM1 and, in
    [busy_host], process 21 of VM0. *)
Definition busy_guest : kstate :=
  in_state ((enqueue (Some (1, 21));;; enqueue (Some (1, 20))) (demo (0, 20))) (demo (0, 20)).
Definition busy_host : kstate :=
  in_state (enqueue (Some (0, 21)) busy_guest) busy_guest.

(** C1. [pick_proc] always returns; it leaves everything but [next_ptr] and
    [bill_ptr] as it was and makes the choice of the scheduling policy: the first
    process of VM0 or kernel task on the ready queues, else the first guest task
    whose VM has tokens, else the first ready process, else IDLE.  The other
    classes the code declares are never chosen. *)
Theorem pick_proc_policy s Q :
  ready_queues s Q → pick_proc s = Ret tt (after_pick s Q).
Proof. apply pick_proc_run. Qed.

Theorem pick_proc_policy_witness :
  ready_queues busy_host (queue_of busy_host) ∧
  pick_proc busy_host = Ret tt (after_pick busy_host (queue_of busy_host)) ∧
  choice busy_host (queue_of busy_host) = Some (0, 21) ∧
  choice busy_guest (queue_of busy_guest) = Some (1, 20).
Proof.
  assert (H : ready_queues busy_host (queue_of busy_host))
    by (apply ready_queuesb_sound; vm_compute; reflexivity).
  split; [exact H|]. split; [apply (pick_proc_policy _ _ H)|].
  split; vm_compute; reflexivity.
Defined.

(** C2. [enqueue] puts a process on the queue of its (possibly lowered) priority,
    in front when it has quantum left, without disturbing the other queues; it
    keeps the queues well formed, changes nothing but scheduling, and makes the
    policy's choice of the next process. *)
Theorem enqueue_refines s Q a r c cur :
  ready_queues s Q → can_enqueue s a r → (∀ q, a ∉ Q q) →
  proc_ptr s = Some c → procs s !! c = Some cur →
  ∃ s', enqueue (Some a) s = Ret tt s' ∧
        scheduled (enqueued Q (p_priority (sched_proc r)) (enqueue_front r cur) a) s s'.
Proof.
  intros HQ Ha Hf Hc Hcur.
  destruct (enqueue_run s Q a r c cur HQ Ha Hf Hc Hcur) as (s' & Hrun & Hs & _). eauto.
Qed.

Theorem enqueue_refines_witness :
  ready_queues busy_guest (queue_of busy_guest) ∧
  ∃ s', enqueue (Some (0, 21)) busy_guest = Ret tt s' ∧
        scheduled (enqueued (queue_of busy_guest) 7 true (0, 21)) busy_guest s'.
Proof.
  assert (H : ready_queues busy_guest (queue_of busy_guest))
    by (apply ready_queuesb_sound; vm_compute; reflexivity).
  split; [exact H|].
  apply (enqueue_refines busy_guest _ (0, 21) (proc_at busy_guest (0, 21)) (0, 20)
           (proc_at busy_guest (0, 20)) H).
  - apply can_enqueue_check. vm_compute. reflexivity.
  - apply queued_nowhere_sound. vm_compute. reflexivity.
  - vm_compute. reflexivity.
  - vm_compute. reflexivity.
Defined.

(** [dequeue] takes a ready process off its queue and leaves the order of the
    others; it keeps the queues well formed, changes nothing but scheduling, and
    picks a new process exactly when the removed one was running or chosen. *)
Theorem dequeue_refines s Q a r l1 l2 :
  ready_queues s Q → procs s !! a = Some r → guard_ok s r →
  Q (p_priority r) = l1 ++ a :: l2 → (p_priority r = IDLE_Q → l1 ++ l2 ≠ []) →
  let Q' := q_update Q (p_priority r) (l1 ++ l2) in
  ∃ s', dequeue (Some a) s = Ret tt s' ∧ ready_queues s' Q' ∧ unsched s' = unsched s ∧
        next_ptr s' = if ptr_eqb (Some a) (proc_ptr s) || ptr_eqb (Some a) (next_ptr s)
                      then choice s' Q' else next_ptr s.
Proof.
  intros HQ Hr Hg Hl Hidle Q'.
  destruct (dequeue_run s Q a r l1 l2 HQ Hr Hg Hl Hidle) as (s' & ? & ? & ? & _ & ? & _).
  eauto.
Qed.

Theorem dequeue_refines_witness :
  ready_queues busy_host (queue_of busy_host) ∧
  ∃ s', dequeue (Some (0, 21)) busy_host = Ret tt s' ∧
        ready_queues s' (q_update (queue_of busy_host) 7 [(1, 20); (1, 21)]).
Proof.
  assert (H : ready_queues busy_host (queue_of busy_host))
    by (apply ready_queuesb_sound; vm_compute; reflexivity).
  split; [exact H|].
  destruct (dequeue_refines busy_host _ (0, 21) (proc_at busy_host (0, 21)) []
              [(1, 20); (1, 21)] H) as (s' & H1 & H2 & _).
  - vm_compute. reflexivity.
  - vm_compute. exact I.
  - vm_compute. reflexivity.
  - vm_compute. discriminate.
  - exists s'. split; [exact H1|exact H2].
Defined.

(** A process that has used up its quantum gets a new one, moves one queue
    down (never below the last user queue) and goes to the back; one with
    quantum left keeps its queue and goes to the front. *)
Theorem sched_quantum s a r :
  procs s !! a = Some r → 0 <= p_priority r <= IDLE_Q →
  ∃ r', sched (Some a) s = Ret (p_priority r', 0 <? p_ticks_left r)
                               (s.[procs := <[a := r']> (procs s)]) ∧
        r' = (if 0 <? p_ticks_left r then r
              else r.[p_ticks_left := p_quantum_size r]
                    .[p_priority := if p_priority r <? IDLE_Q - 1
                                    then p_priority r + 1 else p_priority r]).
Proof.
  intros Hr Hp. exists (sched_proc r). split; [by apply sched_run|].
  unfold sched_proc, IDLE_Q in *. destruct (0 <? p_ticks_left r); [done|].
  destruct (Z.ltb_spec (p_priority r) (15 - 1)); [|done].
  unfold s8. by rewrite Z.mod_small, Z.add_simpl_r by lia.
Qed.

Theorem sched_quantum_witness :
  ∃ r', sched (Some (0, 20)) (demo (0, 20)) =
        Ret (p_priority r', true)
            ((demo (0, 20)).[procs := <[(0, 20) := r']> demo_procs]).
Proof.
  destruct (sched_quantum (demo (0, 20)) (0, 20) (proc_at (demo (0, 20)) (0, 20)))
    as (r' & H & _).
  - vm_compute. reflexivity.
  - vm_compute. split; discriminate.
  - exists r'. exact H.
Defined.
