(* ===== verification/KSendThms.v ===== *)
(** * Properties of [MH_send]

    Sending to an ordinary destination: the rendezvous with a waiting receiver
    and the blocking of the sender. *)
From stdpp Require Import base gmap list numbers strings.
From Stdlib Require Import ZArith Lia.
From S2P Require Import Prelude.
From S2P Require Import Chains.
From S2P Require Import KTypes.
From S2P Require Import KProc.
From S2P Require Import KSched.
From S2P Require Import KIpcSend.
From S2P Require Import KSysCall.
From S2P Require Import KStep.
From S2P Require Import KReady.
From S2P Require Import KSchedOps.
From S2P Require Import KIpcInv.
From S2P Require Import KCore.

(** ** Blocking the sender *)

(** The caller's descriptor once it waits. *)
Definition sender_blocked (r : proc) (m_ptr dst_ep : Z) : proc :=
  r.[p_messbuf := m_ptr].[p_rts_flags := SENDING].[p_sendto_e := dst_ep].

Lemma block_sender_run s Q W c rc d rd m_ptr dst_ep :
  kinv s Q W → procs s !! c = Some rc → p_rts_flags rc = 0 → guard_ok s rc →
  idle_stays Q c → procs s !! d = Some rd →
  ∃ s', block_sender (Some c) m_ptr dst_ep (Some d) s = Ret tt s' ∧
        kinv s' (qremove Q c) (w_update W d (W d ++ [c])) ∧
        core_state s' =
        core_state (s.[procs := <[c := sender_blocked rc m_ptr dst_ep]> (procs s)]).
Proof.
  intros HI Hrc H0 Hg Hidle Hrd. pose proof (not_waiting _ _ _ _ _ HI Hrc H0) as Hfresh.
  destruct HI as [HB Hbs]. unfold block_sender.
  assert (Hvc : valid_slot c) by (eapply (kb_slots _ _ _ HB); [done|by rewrite H0]).
  (* the message pointer *)
  rewrite (bind_putp _ c rc) by done. set (r1 := rc.[p_messbuf := m_ptr]).
  set (s1 := s.[procs := <[c := r1]> (procs s)]).
  assert (Hr1 : procs s1 !! c = Some r1) by apply lookup_insert_eq.
  assert (HB1 : kbase s1 Q W) by (by apply (kbase_putp s Q W c rc r1)).
  rewrite (bind_getp _ _ r1) by done. change (p_rts_flags r1) with (p_rts_flags rc).
  rewrite H0. cbn [Z.eqb when].
  (* off the ready queue *)
  destruct (dequeue_kbase s1 Q W c r1 HB1 Hr1 H0) as (s2 & Hdeq & HB2 & Hu2 & Hr2); try done.
  rewrite (bind_Ret _ _ _ _ _ Hdeq). rewrite (bind_putp _ c r1) by done.
  replace ((r1.[p_rts_flags := Z.lor (p_rts_flags r1) SENDING]).[p_sendto_e := dst_ep])
    with (sender_blocked rc m_ptr dst_ep)
    by (unfold sender_blocked; change (p_rts_flags r1) with (p_rts_flags rc); by rewrite H0).
  set (r3 := sender_blocked rc m_ptr dst_ep).
  set (s3 := s2.[procs := <[c := r3]> (procs s2)]).
  assert (Hr3 : procs s3 !! c = Some r3) by apply lookup_insert_eq.
  assert (HB3 : kbase s3 (qremove Q c) W).
  { apply (kbase_putp s2 _ W c r1 r3); try done.
    - intros [q Hq]. by apply elem_of_qremove in Hq as [? _].
    - intros _. change (p_rts_flags r1) with (p_rts_flags rc). by rewrite H0. }
  assert (Hcore3 : core_state s3 = core_state (s.[procs := <[c := r3]> (procs s)])).
  { unfold s3. rewrite (core_putp s1 s2) by (by apply unsched_core).
    unfold s1. cbn [procs fupd]. by rewrite insert_insert_eq. }
  (* onto the destination's queue *)
  assert (∃ rd3, procs s3 !! d = Some rd3) as [rd3 Hrd3].
  { destruct (core_lookup (s.[procs := <[c := r3]> (procs s)]) s3 d
                (if decide (d = c) then r3 else rd)) as (? & ? & _); [done| |by eexists].
    cbn. case_decide as E; [rewrite E; by rewrite lookup_insert_eq|].
    by rewrite lookup_insert_ne. }
  destruct (append_run s3 W d c rd3 r3 (kb_wait _ _ _ HB3) Hrd3 Hr3 Hfresh Hvc)
    as (pm & Hrun & Hlinks & HW4).
  exists (s3.[procs := pm]). split; [done|].
  assert (Hcore4 : core_state (s3.[procs := pm]) = core_state (s.[procs := <[c := r3]> (procs s)]))
    by (rewrite links_core by done; done).
  split; [|done]. split; [by apply (kbase_links s3 _ W)|].
  apply (blocked_core (s.[procs := <[c := r3]> (procs s)])); [done|].
  intros d' x r Hx Hr. cbn in Hr. destruct (decide (x = c)) as [->|Hne].
  - rewrite lookup_insert_eq in Hr. by injection Hr as <-.
  - rewrite lookup_insert_ne in Hr by done. apply (Hbs d' x r); [|done].
    destruct (decide (d' = d)) as [->|]; [|by rewrite w_update_ne in Hx].
    rewrite w_update_eq in Hx. set_solver.
Qed.

(** ** The destination *)

(** Destinations inside a VM that stand for a process of VM0. *)
Definition is_pseudo_dest (r : proc) : bool :=
  band (p_misc_flags r) PROMICUOUS_TASK || band (p_misc_flags r) VIRTUAL_TASK.

(** [dst_ep] names the live process [d], an ordinary destination for the caller:
    not one reserved for the proxy or for a promiscuous process. *)
Definition ordinary_dest (s : kstate) (rc : proc) (dst_ep : Z) (d : Z * Z) (rd : proc) :
    Prop :=
  ∃ p, isokendpt dst_ep s = Ret (1, p) s ∧
       band (p_misc_flags rc) PARAVIR_TASK && (p =? SYSTEM) = false ∧
       proc_addr p s = Ret (Some d) s ∧ procs s !! d = Some rd ∧
       band (p_rts_flags rd) NO_ENDPOINT = false ∧
       negb (p_vmid rc =? VM0) && is_pseudo_dest rd = false.

(** The same destination, resolved by [send_resolve]. *)
Lemma send_resolve_ordinary s c rc dst_ep m_ptr d rd :
  procs s !! c = Some rc → ordinary_dest s rc dst_ep d rd →
  send_resolve (Some c) dst_ep m_ptr s = Ret (inr (Some d, Some d)) s.
Proof.
  intros Hrc (p & Hok & Hpv & Haddr & Hrd & Hne & Hps). unfold send_resolve.
  rewrite (bind_Ret _ _ _ _ _ Hok). cbn [Z.eqb].
  rewrite (bind_getp _ _ rc) by done. rewrite Hpv.
  rewrite (bind_Ret _ _ _ _ _ Haddr). rewrite (bind_getp _ _ rd) by done. rewrite Hne.
  destruct (Z.ltb_spec VM0 (p_vmid rc)) as [Hlt|]; [|done].
  rewrite (proj2 (Z.eqb_neq _ _)) in Hps by (unfold VM0 in *; lia). cbn [negb andb] in Hps.
  unfold is_pseudo_dest in Hps. apply orb_false_iff in Hps as [Hpr Hvt].
  unfold send_redirect. rewrite (bind_getp _ _ rc), (bind_getp _ _ rd) by done.
  by rewrite Hpr, Hvt.
Qed.

(** Does [d] wait for a message of [c]?  The conditions of the two branches. *)
Definition accepts (d c : proc) : bool :=
  is_receiving d
  && if band (p_misc_flags d) VMID_PENDING
     then negb (not_getfrom_match d c)
          && (((p_recv_vm d =? ANY_VM) || (p_recv_vm d =? p_vmid c)) && vm_source_ok d c)
     else ((p_vmid d =? p_vmid c) || (p_nr d =? SYSTEM))
          && ((p_getfrom_e d =? ANY) || (p_getfrom_e d =? p_endpoint c)).

(** The assertions [MH_send] makes about the destination's flags. *)
Definition send_asserts (d c : proc) : bool :=
  if band (p_misc_flags d) VMID_PENDING
  then band (p_misc_flags d) PROMICUOUS_TASK || (p_vmid c =? VM0)
  else negb (band (p_misc_flags d) NOT_GETFROM).

(** The destination's descriptor after the delivery, before it is scheduled. *)
Definition delivered (d c : proc) : proc :=
  (if band (p_misc_flags d) VMID_PENDING then d.[p_retreg := u32 (p_vmid c)] else d)
   .[p_misc_flags := bclr (p_misc_flags d)
       (Z.lor (Z.lor VMID_PENDING NOT_GETFROM) REPLY_PENDING)]
   .[p_getfrom_e := NONE].[p_recv_vm := ANY_VM]
   .[p_rts_flags := bclr (p_rts_flags d) RECEIVING].

(** The message lands in the destination's buffer under the caller's endpoint. *)
Definition copied (s : kstate) (c d : proc) (m_ptr : Z) : gmap Z message :=
  <[phys_addr (mem_phys (p_memmap_D d)) (p_messbuf d) :=
      (default msg0 (kmem s !! phys_addr (mem_phys (p_memmap_D c)) m_ptr))
        .[m_source := p_endpoint c]]> (kmem s).

Lemma MHASSERT_true {B} (k : unit → K B) s b :
  b = true → bind (MHASSERT b) k s = k tt s.
Proof. by intros ->. Qed.

Lemma send_refused s c rc d rd m_ptr :
  procs s !! c = Some rc → procs s !! d = Some rd →
  send_asserts rd rc = true → accepts rd rc = false →
  send_deliver (Some c) m_ptr (Some d) (Some d) s = Ret false s.
Proof.
  unfold send_asserts, accepts. intros Hrc Hrd Has Hacc. unfold send_deliver. mrun.
  destruct (is_receiving rd); cbn [negb andb] in *; [|done].
  destruct (band (p_misc_flags rd) VMID_PENDING).
  - mrun. rewrite MHASSERT_true by done.
    destruct (not_getfrom_match rd rc); cbn [negb andb] in *; [done|].
    by rewrite Hacc.
  - rewrite MHASSERT_true by done. by rewrite Hacc.
Qed.

Lemma receiving_flags d :
  is_receiving d = true →
  p_rts_flags d ≠ 0 ∧
  (band (bclr (p_rts_flags d) RECEIVING) SLOT_FREE = false →
   band (p_rts_flags d) SLOT_FREE = false).
Proof.
  unfold is_receiving. intros H%Z.eqb_eq. split; [by intros E; rewrite E in H|].
  unfold band, bclr. rewrite <-Z.land_assoc.
  by replace (Z.land (Z.lnot RECEIVING) SLOT_FREE) with SLOT_FREE by done.
Qed.

Lemma unblocked_same Q a r r' cur rts :
  p_priority r' = p_priority r → p_ticks_left r' = p_ticks_left r → p_nr r' = p_nr r →
  unblocked Q a r' cur rts = unblocked Q a r cur rts.
Proof.
  intros Hp Ht Hn. unfold unblocked, enqueue_front, sched_proc. rewrite Ht, Hn, Hp.
  destruct (0 <? p_ticks_left r); [by rewrite Hp|].
  destruct (p_priority r <? IDLE_Q - 1); cbn; [done|by rewrite Hp].
Qed.

Lemma kbase_kmem s Q W m : kbase s Q W → kbase (s.[kmem := m]) Q W.
Proof. intros H. by apply (kbase_same s). Qed.

(** The end of every delivery: fields of the destination are set, then it is
    unblocked. *)
Lemma wake_run s Q W d rd r1 c cur :
  kinv s Q W → procs s !! d = Some rd → is_receiving rd = true → current s c cur →
  same_links rd r1 → p_vmid r1 = p_vmid rd → p_rts_flags r1 = p_rts_flags rd →
  p_ticks_left r1 = p_ticks_left rd → p_nr r1 = p_nr rd →
  let r2 := r1.[p_rts_flags := bclr (p_rts_flags rd) RECEIVING] in
  ∃ s', unblock (Some d) RECEIVING (s.[procs := <[d := r1]> (procs s)]) = Ret tt s' ∧
        kinv s' (unblocked Q d rd cur (bclr (p_rts_flags rd) RECEIVING)) W ∧
        core_state s' = core_state (s.[procs := <[d := r2]> (procs s)]).
Proof.
  intros [HB Hbs] Hrd Hrec [Hc Hcur] Hsame Hv Hrts Ht Hnr r2.
  destruct (receiving_flags rd Hrec) as [Hne Hfree].
  set (s1 := s.[procs := <[d := r1]> (procs s)]).
  assert (Hr1 : procs s1 !! d = Some r1) by apply lookup_insert_eq.
  pose proof (blocked_not_ready _ _ _ _ _ HB Hrd Hne) as Hnq.
  assert (HB1 : kbase s1 Q W).
  { apply (kbase_putp s Q W d rd r1); try done; [|by rewrite Hrts].
    intros [q Hq]. by apply Hnq in Hq. }
  assert (∃ cur1, current s1 c cur1 ∧ p_nr cur1 = p_nr cur) as (cur1 & Hc1 & Hn1).
  { unfold current. cbn. destruct (decide (d = c)) as [<-|].
    - exists r1. rewrite lookup_insert_eq. by simplify_eq.
    - exists cur. by rewrite lookup_insert_ne. }
  destruct (unblock_run s1 Q W d r1 RECEIVING c cur1 HB1 Hr1) as (s' & Hrun & HB' & Hu);
    [by rewrite Hrts|by rewrite Hrts|done|].
  exists s'. split; [done|]. rewrite Hrts in Hu, HB'. fold r2 in Hu, HB'.
  assert (Hcore : core_state s' = core_state (s.[procs := <[d := r2]> (procs s)])).
  { apply unsched_core in Hu. rewrite Hu. unfold s1. cbn [procs fupd].
    by rewrite insert_insert_eq. }
  split; [|done]. split.
  - destruct Hsame as (_ & _ & _ & Hp & _).
    replace (unblocked Q d rd cur (bclr (p_rts_flags rd) RECEIVING))
      with (unblocked Q d r1 cur1 (bclr (p_rts_flags rd) RECEIVING)); [done|].
    rewrite (unblocked_same Q d rd r1) by done. unfold unblocked, enqueue_front.
    by rewrite Hn1.
  - apply (blocked_core _ _ _ Hcore). intros d' x r Hx Hr. cbn in Hr.
    destruct (decide (x = d)) as [->|Hxd].
    + rewrite lookup_insert_eq in Hr. injection Hr as <-. unfold r2.
      specialize (Hbs d' d rd Hx Hrd). revert Hbs. unfold blocked_sending, band, bclr.
      cbn. rewrite <-Z.land_assoc.
      by replace (Z.land (Z.lnot RECEIVING) (Z.lor SENDING NOTIFYING))
        with (Z.lor SENDING NOTIFYING) by done.
    + rewrite lookup_insert_ne in Hr by done. eauto.
Qed.

Lemma send_accepted s Q W c rc d rd m_ptr cc cur :
  kinv s Q W → procs s !! c = Some rc → procs s !! d = Some rd →
  p_nr rd ≠ SYSTEM → current s cc cur →
  send_asserts rd rc = true → accepts rd rc = true →
  ∃ s', send_deliver (Some c) m_ptr (Some d) (Some d) s = Ret true s' ∧
        kinv s' (unblocked Q d rd cur (bclr (p_rts_flags rd) RECEIVING)) W ∧
        core_state s' = core_state (s.[kmem := copied s rc rd m_ptr]
                                     .[procs := <[d := delivered rd rc]> (procs s)]).
Proof.
  unfold send_asserts, accepts. intros HI Hrc Hrd Hsys Hcur Has Hacc.
  apply andb_true_iff in Hacc as [Hrec Hacc]. set (s1 := s.[kmem := copied s rc rd m_ptr]).
  assert (HI1 : kinv s1 Q W) by (destruct HI; split; [by apply kbase_kmem|done]).
  assert (Hend : ∀ r1, same_links rd r1 → p_vmid r1 = p_vmid rd →
    p_rts_flags r1 = p_rts_flags rd → p_ticks_left r1 = p_ticks_left rd →
    p_nr r1 = p_nr rd → r1.[p_rts_flags := bclr (p_rts_flags rd) RECEIVING] = delivered rd rc →
    ∃ s', (unblock (Some d) RECEIVING;;; ret true) (s1.[procs := <[d := r1]> (procs s)])
          = Ret true s' ∧
      kinv s' (unblocked Q d rd cur (bclr (p_rts_flags rd) RECEIVING)) W ∧
      core_state s' = core_state (s1.[procs := <[d := delivered rd rc]> (procs s)])).
  { intros r1 H1 H2 H3 H4 H5 Hdel.
    destruct (wake_run s1 Q W d rd r1 cc cur) as (s' & Hrun & HI' & Hco); try done.
    rewrite Hdel in Hco. exists s'. split; [|done].
    change (procs s1) with (procs s) in Hrun. by rewrite (bind_Ret _ _ _ _ _ Hrun). }
  unfold send_deliver. mrun. rewrite Hrec. cbn [negb].
  unfold delivered in *. destruct (band (p_misc_flags rd) VMID_PENDING).
  - mrun. rewrite MHASSERT_true by done. apply andb_true_iff in Hacc as [Hnm Hacc].
    apply negb_true_iff in Hnm. rewrite Hnm, Hacc. unfold CopyMess_ep. mrun.
    unfold cp_mess. mrun. by apply Hend.
  - rewrite MHASSERT_true by done. rewrite Hacc. mrun.
    rewrite (proj2 (Z.eqb_neq _ _) Hsys). unfold CopyMess_ep. mrun.
    unfold cp_mess. mrun. by apply Hend.
Qed.

Lemma ordinary_dest_inv s rc dst_ep d rd :
  ordinary_dest s rc dst_ep d rd →
  procs s !! d = Some rd ∧ negb (p_vmid rc =? VM0) && is_pseudo_dest rd = false.
Proof. by intros (p & _ & _ & _ & ? & _ & ?). Qed.

(** An ordinary destination needs no notification of the proxy. *)
Lemma send_no_proxy s s' c rc d rd :
  core_state s' = core_state (s.[procs := <[c := rc]> (procs s)]) →
  procs s !! d = Some rd → (c = d → p_misc_flags rc = p_misc_flags rd) →
  negb (p_vmid rc =? VM0) && is_pseudo_dest rd = false →
  (let* c := getp (Some c) in
   let* dp := getp (Some d) in
   if negb (p_vmid c =? VM0) && band (p_misc_flags dp) VIRTUAL_TASK then
     let* dp := priv_of (Some d) in notify_proxy (s_id dp)
   else ret OK) s' = Ret OK s'.
Proof.
  intros Hco Hrd Hcd Hps.
  destruct (core_lookup _ s' c rc Hco) as (rc' & Hrc' & Hcc); [cbn; by rewrite lookup_insert_eq|].
  assert (∃ rd', procs s' !! d = Some rd' ∧ p_misc_flags rd' = p_misc_flags rd)
    as (rd' & Hrd' & Hmd).
  { destruct (decide (c = d)) as [E|E].
    - exists rc'. rewrite <-E. split; [done|]. rewrite (core_misc _ _ Hcc). auto.
    - destruct (core_lookup _ s' d rd Hco) as (rd' & ? & ?%core_misc).
      { cbn. by rewrite lookup_insert_ne. } by exists rd'. }
  rewrite (bind_getp _ _ rc'), (bind_getp _ _ rd') by done.
  rewrite Hmd, (core_vmid _ _ Hcc). destruct (negb (p_vmid rc =? VM0)); [|done].
  cbn [andb] in *. apply orb_false_iff in Hps as [_ ->]. done.
Qed.

(** ** Properties *)

(** C3. Rendezvous: [MH_send] to an ordinary destination that waits for the
    caller copies the message into the destination's buffer, stamped with the
    caller's endpoint, clears the destination's wait and makes it ready when
    nothing else blocks it; the caller goes on, no wait queue changes, and
    nothing but the destination, its buffer and scheduling is touched. *)
Theorem MH_send_delivers s Q W c rc dst_ep d rd m_ptr cc cur :
  kinv s Q W → procs s !! c = Some rc → ordinary_dest s rc dst_ep d rd →
  p_nr rd ≠ SYSTEM → current s cc cur →
  send_asserts rd rc = true → accepts rd rc = true →
  ∃ s', MH_send (Some c) dst_ep m_ptr s = Ret OK s' ∧
        kinv s' (unblocked Q d rd cur (bclr (p_rts_flags rd) RECEIVING)) W ∧
        core_state s' = core_state (s.[kmem := copied s rc rd m_ptr]
                                     .[procs := <[d := delivered rd rc]> (procs s)]).
Proof.
  intros HI Hrc Hord Hsys Hcur Has Hacc.
  assert (Hrd : procs s !! d = Some rd) by (destruct Hord as (p & _ & _ & _ & ? & _); done).
  destruct (send_accepted s Q W c rc d rd m_ptr cc cur) as (s' & Hrun & HI' & Hco); try done.
  exists s'. split; [|done]. unfold MH_send.
  rewrite (bind_Ret _ _ _ _ _ (send_resolve_ordinary s c rc dst_ep m_ptr d rd Hrc Hord)).
  by rewrite (bind_Ret _ _ _ _ _ Hrun).
Qed.

(** Process 21 of VM1 waits for a message from anyone; process 20 runs. *)
Definition waiting_state : kstate :=
  let s := demo (1, 20) in
  s.[procs := <[(1, 21) := (mk_proc 1 21 0 RECEIVING 0x0400).[p_getfrom_e := ANY]]> (procs s)].

Ltac ordinary_dest_tac p :=
  exists p; repeat split; vm_compute; reflexivity.

Theorem MH_send_delivers_witness :
  ∃ s', MH_send (Some (1, 20)) 21 4096 waiting_state = Ret OK s' ∧
        kinv s' (enqueued (queue_of waiting_state) 7 true (1, 21)) (waiting_of waiting_state).
Proof.
  destruct (MH_send_delivers waiting_state (queue_of waiting_state) (waiting_of waiting_state)
              (1, 20) (proc_at waiting_state (1, 20)) 21 (1, 21)
              (proc_at waiting_state (1, 21)) 4096 (1, 20) (proc_at waiting_state (1, 20)))
    as (s' & Hrun & HI & _).
  - apply kinvb_sound. vm_compute. reflexivity.
  - vm_compute. reflexivity.
  - ordinary_dest_tac 21.
  - vm_compute. discriminate.
  - split; vm_compute; reflexivity.
  - vm_compute. reflexivity.
  - vm_compute. reflexivity.
  - exists s'. split; [exact Hrun|exact HI].
Defined.

(** C4. Blocking: [MH_send] to an ordinary destination that does not wait for the
    caller takes the caller off the ready queues, marks it SENDING to [dst_ep]
    and appends it at the end of the destination's caller queue; every other
    process, queue and message is as before. *)
Theorem MH_send_blocks s Q W c rc dst_ep d rd m_ptr :
  kinv s Q W → procs s !! c = Some rc → p_rts_flags rc = 0 → guard_ok s rc →
  idle_stays Q c → ordinary_dest s rc dst_ep d rd →
  send_asserts rd rc = true → accepts rd rc = false →
  ∃ s', MH_send (Some c) dst_ep m_ptr s = Ret OK s' ∧
        kinv s' (qremove Q c) (w_update W d (W d ++ [c])) ∧
        core_state s' =
        core_state (s.[procs := <[c := sender_blocked rc m_ptr dst_ep]> (procs s)]).
Proof.
  intros HI Hrc H0 Hg Hidle Hord Has Hacc.
  destruct (ordinary_dest_inv _ _ _ _ _ Hord) as [Hrd Hps].
  destruct (block_sender_run s Q W c rc d rd m_ptr dst_ep) as (s' & Hrun & HI' & Hco); try done.
  exists s'. split; [|done]. unfold MH_send.
  rewrite (bind_Ret _ _ _ _ _ (send_resolve_ordinary s c rc dst_ep m_ptr d rd Hrc Hord)).
  rewrite (bind_Ret _ _ _ _ _ (send_refused s c rc d rd m_ptr Hrc Hrd Has Hacc)).
  rewrite (bind_Ret _ _ _ _ _ Hrun).
  apply (send_no_proxy s s' c (sender_blocked rc m_ptr dst_ep) d rd); try done.
  intros ->. by simplify_eq.
Qed.


Theorem MH_send_blocks_witness :
  ∃ s', MH_send (Some (1, 20)) 21 4096 (demo (1, 20)) = Ret OK s' ∧
        kinv s' (qremove (queue_of (demo (1, 20))) (1, 20))
             (w_update (waiting_of (demo (1, 20))) (1, 21) [(1, 20)]).
Proof.
  destruct (MH_send_blocks (demo (1, 20)) (queue_of (demo (1, 20))) (waiting_of (demo (1, 20)))
              (1, 20) (proc_at (demo (1, 20)) (1, 20)) 21 (1, 21)
              (proc_at (demo (1, 20)) (1, 21)) 4096) as (s' & Hrun & HI & _).
  - apply kinvb_sound. vm_compute. reflexivity.
  - vm_compute. reflexivity.
  - vm_compute. reflexivity.
  - vm_compute. exact I.
  - vm_compute. discriminate.
  - ordinary_dest_tac 21.
  - vm_compute. reflexivity.
  - vm_compute. reflexivity.
  - exists s'. split; [exact Hrun|exact HI].
Defined.

(** ** Refused destinations *)
Definition send_errors : list Z := [EDSTDIED; EPROMISCUOUS; EVIRTUALTASK].

Lemma virtual_proxy_error c s e s' :
  virtual_proxy c s = Ret (inl e) s' → e = EVIRTUALTASK.
Proof.
  unfold virtual_proxy. intros H. minv H. minv H. minv H. destruct a1 as [ok nr].
  case_match; [by injection H as <- _|]. minv H. minv H. minv H.
  case_match; [by injection H as <- _|done].
Qed.

Lemma send_redirect_error c m d s e s' :
  send_redirect c m d s = Ret (inl e) s' → e ∈ send_errors.
Proof.
  unfold send_redirect, send_errors. intros H. minv H. minv H.
  case_match; [minv H; case_match; [done|injection H as <- _; set_solver]|].
  case_match; [|done]. minv H. minv H. case_match; [|done]. minv H.
  match goal with Hv : virtual_proxy _ _ = _ |- _ => rename Hv into Hvp end.
  case_match; [|done]. injection H as <- _. apply virtual_proxy_error in Hvp as ->.
  set_solver.
Qed.

Lemma send_resolve_error c ep m s e s' :
  send_resolve c ep m s = Ret (inl e) s' → e ∈ send_errors.
Proof.
  unfold send_resolve. intros H. minv H. destruct a as [ok p].
  case_match; [injection H as <- _; set_solver|]. minv H. minv H. minv H.
  case_match; [injection H as <- _; set_solver|].
  case_match; [by eapply send_redirect_error|done].
Qed.

(** Refused destinations: when the endpoint is dead, or stands for a process of
    VM0 that does not serve the caller's VM, [MH_send] returns one of the three
    errors of its first part and has done nothing: no message is copied, no queue,
    process or VM changes; at most a failed assertion is logged. *)
Theorem MH_send_refused c dst_ep m_ptr s e s' :
  send_resolve c dst_ep m_ptr s = Ret (inl e) s' →
  MH_send c dst_ep m_ptr s = Ret e s' ∧ e ∈ send_errors ∧
  ∃ l, s' = s.[panics := panics s ++ l].
Proof.
  intros H. split; [|split].
  - unfold MH_send. by rewrite (bind_Ret _ _ _ _ _ H).
  - by eapply send_resolve_error.
  - by eapply logging_send_resolve.
Qed.

Theorem MH_send_refused_witness :
  MH_send (Some (1, 20)) (ENDPOINT 1 20) 4096 (demo (1, 20)) = Ret EDSTDIED (demo (1, 20)).
Proof.
  refine (proj1 (MH_send_refused (Some (1, 20)) (ENDPOINT 1 20) 4096 (demo (1, 20)) EDSTDIED
                   (demo (1, 20)) _)).
  vm_compute. reflexivity.
Defined.
