(* ===== verification/KRecvThms.v ===== *)
(** * Properties of [MH_receive]

    Receiving from the caller queue: the first acceptable sender is taken, the
    queue's order is kept, and without an acceptable sender the caller waits. *)
From stdpp Require Import base gmap list numbers strings.
From Stdlib Require Import ZArith Lia.
From S2P Require Import Prelude.
From S2P Require Import Chains.
From S2P Require Import KTypes.
From S2P Require Import KProc.
From S2P Require Import KSched.
From S2P Require Import KIpcSend.
From S2P Require Import KIpcRecv.
From S2P Require Import KStep.
From S2P Require Import KReady.
From S2P Require Import KSchedOps.
From S2P Require Import KIpcInv.
From S2P Require Import KCore.
From S2P Require Import KRecvOps.

(** [receive_check] accepts the source, and no notification is to be delivered
    before the queue is looked at: [SENDREC] ignores them, or none is pending
    for this source. *)
Definition ready_to_scan (s : kstate) (ca : Z * Z) (c : proc) (src_ep m_ptr : Z) : Prop :=
  procs s !! ca = Some c ∧ p_rts_flags c = 0 ∧
  ∃ src_p, receive_check (Some ca) src_ep s = Ret (inr src_p) s ∧
    (band (p_misc_flags c) REPLY_PENDING = true ∨
     receive_pending (Some ca) src_ep src_p m_ptr s = Ret false s).

Lemma receive_scans s ca c src_ep m_ptr :
  ready_to_scan s ca c src_ep m_ptr →
  MH_receive (Some ca) src_ep m_ptr s =
  (let* got := loop list_fuel (receive_scan (Some ca) src_ep m_ptr) (CallerQ ca) in
   if got : bool then ret OK else block_receiver (Some ca) src_ep m_ptr) s.
Proof.
  intros (Hc & Hrts & src_p & Hchk & Hno). unfold MH_receive.
  rewrite (bind_Ret _ _ _ _ _ Hchk). mrun. rewrite Hrts.
  change (band 0 SENDING) with false. cbv iota. rewrite bind_assoc.
  assert (Hn : (if band (p_misc_flags c) REPLY_PENDING then ret false
    else receive_pending (Some ca) src_ep src_p m_ptr) s = Ret false s).
  { destruct Hno as [->|Hp]; [done|]. by destruct (band (p_misc_flags c) REPLY_PENDING). }
  rewrite (bind_Ret _ _ _ _ _ Hn). reflexivity.
Qed.

(** The receiver's descriptor once it waits. *)
Definition receiver_blocked (r : proc) (src_ep m_ptr : Z) : proc :=
  r.[p_getfrom_e := src_ep].[p_messbuf := m_ptr].[p_rts_flags := RECEIVING]
   .[p_recv_vm := p_vmid r].

Lemma block_receiver_run s Q W ca c src_ep m_ptr :
  kinv s Q W → procs s !! ca = Some c → p_rts_flags c = 0 → guard_ok s c →
  idle_stays Q ca →
  ∃ s', block_receiver (Some ca) src_ep m_ptr s = Ret OK s' ∧
        kinv s' (qremove Q ca) W ∧
        core_state s' =
        core_state (s.[procs := <[ca := receiver_blocked c src_ep m_ptr]> (procs s)]).
Proof.
  intros HI Hc H0 Hg Hidle. pose proof (not_waiting _ _ _ _ _ HI Hc H0) as Hfresh.
  destruct HI as [HB Hbs]. unfold block_receiver.
  rewrite (bind_putp _ ca c) by done.
  set (r1 := c.[p_getfrom_e := src_ep].[p_messbuf := m_ptr]).
  set (s1 := s.[procs := <[ca := r1]> (procs s)]).
  assert (Hr1 : procs s1 !! ca = Some r1) by apply lookup_insert_eq.
  assert (HB1 : kbase s1 Q W) by (by apply (kbase_putp s Q W ca c r1)).
  rewrite (bind_getp _ _ r1) by done. change (p_rts_flags r1) with (p_rts_flags c).
  rewrite H0. cbn [Z.eqb when].
  destruct (dequeue_kbase s1 Q W ca r1 HB1 Hr1 H0) as (s2 & Hdeq & HB2 & Hu2 & Hr2); try done.
  rewrite (bind_Ret _ _ _ _ _ Hdeq). rewrite (bind_putp _ ca r1) by done.
  change (p_rts_flags r1) with (p_rts_flags c). rewrite H0.
  change ((r1.[p_rts_flags := Z.lor 0 RECEIVING]).[p_recv_vm := p_vmid r1])
    with (receiver_blocked c src_ep m_ptr).
  set (r3 := receiver_blocked c src_ep m_ptr).
  eexists. split; [reflexivity|].
  assert (Hcore : core_state (s2.[procs := <[ca := r3]> (procs s2)]) =
                  core_state (s.[procs := <[ca := r3]> (procs s)])).
  { rewrite (core_putp s1 s2) by (by apply unsched_core).
    unfold s1. cbn [procs fupd]. by rewrite insert_insert_eq. }
  split; [|done]. split.
  - apply (kbase_putp s2 _ W ca r1 r3); try done.
    + intros [q Hq]. by apply elem_of_qremove in Hq as [? _].
    + intros _. change (p_rts_flags r1) with (p_rts_flags c). by rewrite H0.
  - apply (blocked_core _ _ _ Hcore). intros d x r Hx Hr. cbn in Hr.
    rewrite lookup_insert_ne in Hr; [by apply (Hbs d x r)|]. intros <-. by apply (Hfresh d).
Qed.

(** The scan reaches the first acceptable sender. *)
Lemma receive_reaches s Q W ca c src_ep m_ptr l1 x l2 rx :
  kinv s Q W → procs s !! ca = Some c →
  W ca = l1 ++ x :: l2 → skipped s c src_ep l1 →
  procs s !! x = Some rx → sendrecvm_sender c rx = false → wanted c src_ep rx = true →
  ∃ n, loop list_fuel (receive_scan (Some ca) src_ep m_ptr) (CallerQ ca) s =
    match (receive_take (Some ca) m_ptr (end_loc ca l1) x (p_endpoint rx);;;
           ret (inr true)) s with
    | Ret (inl a') s' => loop n (receive_scan (Some ca) src_ep m_ptr) a' s'
    | Ret (inr b) s' => Ret b s'
    | Crash => Crash
    | Spin => Spin
    end.
Proof.
  intros [HB _] Hc HW Hs Hx Hcond Hw.
  pose proof (wq_chain _ _ (kb_wait _ _ _ HB) ca c Hc) as Hch. rewrite HW in Hch.
  assert (Hlen : (length (W ca) < list_fuel)%nat).
  { apply slots_bound; [apply HB|]. rewrite Forall_forall. apply HB. }
  rewrite HW, length_app in Hlen. cbn in Hlen. exists (list_fuel - length l1 - 1)%nat.
  replace list_fuel with (length l1 + S (list_fuel - length l1 - 1))%nat at 1 by lia.
  change (CallerQ ca) with (end_loc ca []).
  rewrite (receive_scan_skip s ca c src_ep m_ptr Hc l1 [] (x :: l2)) by done.
  cbn [app]. rewrite loop_S.
  rewrite (receive_scan_step s ca c src_ep m_ptr Hc _ x rx); try done; [by rewrite Hw|].
  by rewrite (load_end_loc s ca c l1 (x :: l2)).
Qed.

(** ** Properties *)

(** Processes 22, 21 and 23 of VM1 wait, in this order, for process 20 of VM1, the
    running process, to receive their messages. *)
Definition queued_sender (nr : Z) (next : ptr) : proc :=
  (mk_proc 1 nr 0 SENDING 0x0400).[p_q_link := next].[p_sendto_e := 20].

Definition queued_state : kstate :=
  let s := demo (1, 20) in
  s.[procs := <[(1, 20) := (proc_at s (1, 20)).[p_caller_q := Some (1, 22)]]>
      (<[(1, 21) := queued_sender 21 (Some (1, 23))]>
      (<[(1, 22) := queued_sender 22 (Some (1, 21))]>
      (<[(1, 23) := queued_sender 23 None]> (procs s))))].

Lemma queued_kinv : kinv queued_state (queue_of queued_state) (waiting_of queued_state).
Proof. apply kinvb_sound. vm_compute. reflexivity. Qed.

Ltac scan_witness src :=
  split; [vm_compute; reflexivity|]; split; [vm_compute; reflexivity|];
  exists src; split; [vm_compute; reflexivity|]; right; vm_compute; reflexivity.

Ltac skipped_witness :=
  intros z Hz; repeat (apply elem_of_cons in Hz as [->|Hz];
    [eexists; repeat split; vm_compute; reflexivity|]);
  apply not_elem_of_nil in Hz; contradiction.

(** C5. First come, first served, for a caller other than SYSTEM and a first acceptable sender
    [x] with another one, [y], behind it: [MH_receive] passes over the queued senders it
    does not accept, takes the message of the first one it accepts, unblocks that
    sender and takes it out of the queue, leaving the others in their order; the
    caller goes on, and nothing but the two processes and the buffer changes.  (C6 is the
    case that no other sender is behind it.) *)
Theorem MH_receive_takes_first s Q W ca c src_ep m_ptr l1 x y l2 rx cc cur :
  kinv s Q W → ready_to_scan s ca c src_ep m_ptr → p_nr c ≠ SYSTEM →
  W ca = l1 ++ x :: y :: l2 → skipped s c src_ep l1 →
  procs s !! x = Some rx → sendrecvm_sender c rx = false → wanted c src_ep rx = true →
  band (p_rts_flags rx) NOTIFYING = false → current s cc cur →
  ∃ s', MH_receive (Some ca) src_ep m_ptr s = Ret OK s' ∧
        kinv s' (unblocked Q x rx cur (bclr (p_rts_flags rx) SENDING))
             (w_update W ca (l1 ++ y :: l2)) ∧
        core_state s' = core_state (s.[kmem := took s c rx m_ptr]
          .[procs := <[ca := received c]> (<[x := sent rx]> (procs s))]).
Proof.
  intros HI Hrdy Hsys HW Hs Hx Hcond Hw Hnot Hcur. rewrite (receive_scans _ _ c) by done.
  destruct Hrdy as (Hc & Hrts & _).
  assert (Hcx : ca ≠ x).
  { intros ->. apply (not_waiting _ _ _ _ _ HI Hc Hrts x). rewrite HW. set_solver. }
  destruct (receive_reaches s Q W ca c src_ep m_ptr l1 x (y :: l2) rx) as (n & Hloop); try done.
  destruct (take_run s Q W ca x cc c rx cur l1 (y :: l2) m_ptr)
    as (s' & Hrun & HI' & Hco & Hload); try done.
  (* the successor is blocked: it is not enqueued *)
  assert (∃ ry, procs s' !! y = Some ry ∧ p_rts_flags ry ≠ 0) as (ry & Hy & Hyr).
  { assert (Hin : y ∈ w_update W ca (l1 ++ y :: l2) ca) by (rewrite w_update_eq; set_solver).
    assert (is_Some (procs s' !! y)) as [ry Hry].
    { destruct (core_lookup _ s' ca (received c) Hco) as (c' & Hc' & _);
        [cbn; by rewrite lookup_insert_eq|].
      eapply chain_elem; [|exact Hin]. apply (wq_chain _ _ (kb_wait _ _ _ (proj1 HI')) _ _ Hc'). }
    exists ry. split; [done|]. intros E.
    pose proof (proj2 HI' ca y ry Hin Hry) as Hb. unfold blocked_sending in Hb. by rewrite E in Hb. }
  assert (Htake : receive_take (Some ca) m_ptr (end_loc ca l1) x (p_endpoint rx) s = Ret tt s').
  { rewrite Hrun. unfold recheck. rewrite (bind_Ret _ _ _ _ _ Hload). cbn [head].
    rewrite (bind_getp _ _ ry) by done. by rewrite (proj2 (Z.eqb_neq _ _) Hyr). }
  rewrite (bind_Ret _ _ _ _ _ Htake) in Hloop. unfold ret in Hloop.
  rewrite (bind_Ret _ _ _ _ _ Hloop). by exists s'.
Qed.

Theorem MH_receive_takes_first_witness :
  ∃ s', MH_receive (Some (1, 20)) 21 4096 queued_state = Ret OK s' ∧
        kinv s' (enqueued (queue_of queued_state) 7 true (1, 21))
             (w_update (waiting_of queued_state) (1, 20) [(1, 22); (1, 23)]).
Proof.
  destruct (MH_receive_takes_first queued_state (queue_of queued_state)
              (waiting_of queued_state) (1, 20) (proc_at queued_state (1, 20)) 21 4096
              [(1, 22)] (1, 21) (1, 23) [] (proc_at queued_state (1, 21))
              (1, 20) (proc_at queued_state (1, 20))) as (s' & Hrun & HI & _).
  - apply queued_kinv.
  - scan_witness 21.
  - vm_compute. discriminate.
  - vm_compute. reflexivity.
  - skipped_witness.
  - vm_compute. reflexivity.
  - vm_compute. reflexivity.
  - vm_compute. reflexivity.
  - vm_compute. reflexivity.
  - split; vm_compute; reflexivity.
  - exists s'. split; [exact Hrun|exact HI].
Defined.

(** C6. ... but the code then looks at the queue position it has just overwritten:
    when the accepted sender is the last of the queue, it reads the flags of the
    null process. *)
Theorem MH_receive_last_sender s Q W ca c src_ep m_ptr l1 x rx cc cur :
  kinv s Q W → ready_to_scan s ca c src_ep m_ptr → p_nr c ≠ SYSTEM →
  W ca = l1 ++ [x] → skipped s c src_ep l1 →
  procs s !! x = Some rx → sendrecvm_sender c rx = false → wanted c src_ep rx = true →
  band (p_rts_flags rx) NOTIFYING = false → current s cc cur →
  MH_receive (Some ca) src_ep m_ptr s = Crash.
Proof.
  intros HI Hrdy Hsys HW Hs Hx Hcond Hw Hnot Hcur. rewrite (receive_scans _ _ c) by done.
  destruct Hrdy as (Hc & Hrts & _).
  assert (Hcx : ca ≠ x).
  { intros ->. apply (not_waiting _ _ _ _ _ HI Hc Hrts x). rewrite HW. set_solver. }
  destruct (receive_reaches s Q W ca c src_ep m_ptr l1 x [] rx) as (n & Hloop); try done.
  destruct (take_run s Q W ca x cc c rx cur l1 [] m_ptr)
    as (s' & Hrun & HI' & Hco & Hload); try done.
  assert (Htake : receive_take (Some ca) m_ptr (end_loc ca l1) x (p_endpoint rx) s = Crash).
  { rewrite Hrun. unfold recheck. by rewrite (bind_Ret _ _ _ _ _ Hload). }
  rewrite (bind_Crash _ _ _ Htake) in Hloop. by rewrite (bind_Crash _ _ _ Hloop).
Qed.

Theorem MH_receive_last_sender_witness :
  MH_receive (Some (1, 20)) 23 4096 queued_state = Crash.
Proof.
  apply (MH_receive_last_sender queued_state (queue_of queued_state)
           (waiting_of queued_state) (1, 20) (proc_at queued_state (1, 20)) 23 4096
           [(1, 22); (1, 21)] (1, 23) (proc_at queued_state (1, 23))
           (1, 20) (proc_at queued_state (1, 20))).
  - apply queued_kinv.
  - scan_witness 23.
  - vm_compute. discriminate.
  - vm_compute. reflexivity.
  - skipped_witness.
  - vm_compute. reflexivity.
  - vm_compute. reflexivity.
  - vm_compute. reflexivity.
  - vm_compute. reflexivity.
  - split; vm_compute; reflexivity.
Defined.

(** Without an acceptable sender [MH_receive] takes the caller off the ready
    queues and marks it as waiting for [src_ep] in its own VM; every queue of
    senders, message and other process is as before. *)
Theorem MH_receive_blocks s Q W ca c src_ep m_ptr :
  kinv s Q W → ready_to_scan s ca c src_ep m_ptr → skipped s c src_ep (W ca) →
  guard_ok s c → idle_stays Q ca →
  ∃ s', MH_receive (Some ca) src_ep m_ptr s = Ret OK s' ∧
        kinv s' (qremove Q ca) W ∧
        core_state s' =
        core_state (s.[procs := <[ca := receiver_blocked c src_ep m_ptr]> (procs s)]).
Proof.
  intros HI Hrdy Hs Hg Hidle. rewrite (receive_scans _ _ c) by done.
  destruct Hrdy as (Hc & Hrts & _). pose proof HI as [HB _].
  assert (Hlen : (length (W ca) < list_fuel)%nat).
  { apply slots_bound; [apply HB|]. rewrite Forall_forall. apply HB. }
  pose proof (wq_chain _ _ (kb_wait _ _ _ HB) ca c Hc) as Hch.
  rewrite (bind_Ret _ _ _ _ _ (receive_scan_none s ca c src_ep m_ptr Hc _ _ Hch Hs Hlen)).
  by apply (block_receiver_run s Q W ca c).
Qed.

Theorem MH_receive_blocks_witness :
  ∃ s', MH_receive (Some (1, 20)) 5 4096 queued_state = Ret OK s' ∧
        kinv s' (qremove (queue_of queued_state) (1, 20)) (waiting_of queued_state).
Proof.
  destruct (MH_receive_blocks queued_state (queue_of queued_state)
              (waiting_of queued_state) (1, 20) (proc_at queued_state (1, 20)) 5 4096)
    as (s' & Hrun & HI & _).
  - apply queued_kinv.
  - scan_witness 5.
  - replace (waiting_of queued_state (1, 20)) with [(1, 22); (1, 21); (1, 23)]
      by (vm_compute; reflexivity). skipped_witness.
  - vm_compute. exact I.
  - vm_compute. discriminate.
  - exists s'. split; [exact Hrun|exact HI].
Defined.
