(* ===== verification/KNotifyThms.v ===== *)
(** * Pending notifications

    A notification whose destination does not wait is counted per source in the
    destination's privilege structure, next to a bit that says the count is not
    zero ([MH_notify] and the receive functions of [src/kernel/proc.c]). *)
From stdpp Require Import base gmap list numbers strings.
From Stdlib Require Import ZArith Lia.
From S2P Require Import Prelude.
From S2P Require Import KTypes.
From S2P Require Import KProc.
From S2P Require Import KSched.
From S2P Require Import KIpcSend.
From S2P Require Import KIpcRecv.
From S2P Require Import KStep.
From S2P Require Import KProcThms.

(** Every count is a [char] and every chunk 16 bits wide; the bit of a source is
    set exactly when its count is not zero. *)
Record pend_ok (pr : priv) : Prop := {
  po_chunks : length (s_notify_pending pr) = 2%nat;
  po_counts : length (s_ntfy_cnt pr) = 32%nat;
  po_chunk_range k c : aget (s_notify_pending pr) k = Some c → 0 <= c < 2 ^ 16;
  po_count_range i n : aget (s_ntfy_cnt pr) i = Some n → 0 <= n < 256;
  po_bit i n : aget (s_ntfy_cnt pr) i = Some n →
               get_sys_bit (s_notify_pending pr) i = Some (negb (n =? 0)) }.

Lemma aset_aset {A} (l l1 : list A) i x y :
  aset l i x = Some l1 → aset l1 i y = aset l i y.
Proof.
  intros H. pose proof (aset_length _ _ _ _ H) as Hlen. unfold aset in *. rewrite Hlen.
  destruct (_ && _); [|done]. injection H as <-. by rewrite list_insert_insert_eq.
Qed.

Lemma aset_same {A} (l : list A) i x : aget l i = Some x → aset l i x = Some l.
Proof.
  intros H. pose proof (aget_Some _ _ _ H) as Hi. unfold aget, aset in *.
  rewrite (proj2 (Z.leb_le _ _)) in * by lia. rewrite (proj2 (Z.ltb_lt _ _)) by lia.
  cbn [andb]. f_equal. by apply list_insert_id.
Qed.

Lemma aset_total {A} (l : list A) i x : 0 <= i < Z.of_nat (length l) → ∃ l', aset l i x = Some l'.
Proof.
  intros Hi. unfold aset. rewrite (proj2 (Z.leb_le _ _)), (proj2 (Z.ltb_lt _ _)) by lia.
  cbn [andb]. eauto.
Qed.
Lemma aget_total {A} (l : list A) i : 0 <= i < Z.of_nat (length l) → ∃ x, aget l i = Some x.
Proof.
  intros Hi. unfold aget. rewrite (proj2 (Z.leb_le _ _)) by lia.
  destruct (lookup_lt_is_Some_2 l (Z.to_nat i)) as [x Hx]; [lia|eauto].
Qed.

(** The source [id] of the privilege structure [pr]. *)
Definition counted (pr : priv) (id n : Z) : Prop :=
  0 <= id < NR_SYS_PROCS ∧ aget (s_ntfy_cnt pr) id = Some n.

Lemma set_sys_bit_total map id :
  length map = 2%nat → 0 <= id < 32 → ∃ map', set_sys_bit map id = Some map'.
Proof.
  intros Hl Hi. destruct (bit_chunk id ltac:(lia)) as (Hq & Hr & _).
  assert (0 <= id / 16 < 2) by (split; [apply Z.div_pos|apply Z.div_lt_upper_bound]; lia).
  unfold set_sys_bit. rewrite Hq, Hr.
  destruct (aget_total map (id / 16)) as [c ->]; [lia|]. cbn. apply aset_total. lia.
Qed.

(** One more notification from [id]. *)
Lemma notify_pend_run s d r pa pr id n :
  procs s !! d = Some r → p_priv r = Some pa → privs s !! pa = Some pr → pend_ok pr →
  counted pr id n →
  ∃ map cnt, set_sys_bit (s_notify_pending pr) id = Some map ∧
    aset (s_ntfy_cnt pr) id (u8 (n + 1)) = Some cnt ∧
    notify_pend id (Some d) s =
    Ret tt (s.[privs := <[pa := pr.[s_notify_pending := map].[s_ntfy_cnt := cnt]]> (privs s)]).
Proof.
  intros Hr Hpa Hpr Hok [Hid Hn].
  destruct (set_sys_bit_total (s_notify_pending pr) id) as [map Hmap];
    [apply Hok|exact Hid|].
  destruct (aset_total (s_ntfy_cnt pr) id (u8 (n + 1))) as [cnt Hcnt].
  { rewrite (po_counts _ Hok). exact Hid. }
  exists map, cnt. split; [done|]. split; [done|]. unfold notify_pend.
  rewrite (bind_getp s d r) by done. rewrite Hpa, (bind_getpriv s pa pr) by done.
  rewrite (bind_of_option _ map), (bind_of_option _ n), (bind_of_option _ cnt) by done.
  by rewrite (tail_putpriv s pa pr).
Qed.

Lemma u8_id n : 0 <= n < 256 → u8 n = n.
Proof. intros H. unfold u8. by apply Z.mod_small. Qed.

(** Setting a clear bit and clearing it again gives the chunk back. *)
Lemma lor_bclr_id c i :
  0 <= c < 2 ^ 16 → 0 <= i < 16 → Z.testbit c i = false →
  u16 (bclr (u16 (Z.lor c (Z.shiftl 1 i))) (Z.shiftl 1 i)) = c.
Proof.
  intros Hc Hi Hb. apply Z.bits_inj'. intros j Hj.
  destruct (Z.ltb_spec j 16) as [Hlt|Hge].
  - rewrite u16_testbit by lia. unfold bclr. rewrite Z.land_spec, Z.lnot_spec by lia.
    rewrite u16_testbit by lia. rewrite Z.lor_spec, Z.shiftl_1_l.
    destruct (Z.eq_dec j i) as [->|Hne].
    + rewrite Z.pow2_bits_true by lia. by rewrite Hb, andb_false_r.
    + rewrite Z.pow2_bits_false by lia. by rewrite orb_false_r, andb_true_r.
  - unfold u16 at 1. rewrite Z.mod_pow2_bits_high by lia.
    rewrite <-(Z.mod_small c (2 ^ 16)) by lia. by rewrite Z.mod_pow2_bits_high by lia.
Qed.

Lemma lor_set_id c i :
  0 <= c < 2 ^ 16 → 0 <= i < 16 → Z.testbit c i = true → u16 (Z.lor c (Z.shiftl 1 i)) = c.
Proof.
  intros Hc Hi Hb. apply Z.bits_inj'. intros j Hj.
  destruct (Z.ltb_spec j 16) as [Hlt|Hge].
  - rewrite u16_testbit by lia. rewrite Z.lor_spec, Z.shiftl_1_l.
    destruct (Z.eq_dec j i) as [->|Hne].
    + by rewrite Hb.
    + rewrite Z.pow2_bits_false by lia. by rewrite orb_false_r.
  - unfold u16 at 1. rewrite Z.mod_pow2_bits_high by lia.
    rewrite <-(Z.mod_small c (2 ^ 16)) by lia. by rewrite Z.mod_pow2_bits_high by lia.
Qed.

(** A notification that had to be counted and is then taken leaves no trace:
    counting it and taking it give the state back, as long as fewer than 255
    notifications of that source were pending. *)
Theorem pending_roundtrip s d r pa pr id n :
  procs s !! d = Some r → p_priv r = Some pa → privs s !! pa = Some pr → pend_ok pr →
  counted pr id n → n < 255 →
  (notify_pend id (Some d);;;
   take_pending (Some pa) (id ÷ BITCHUNK_BITS) (Z.rem id BITCHUNK_BITS) id) s = Ret tt s.
Proof.
  intros Hr Hpa Hpr Hok Hc Hn255.
  destruct (notify_pend_run s d r pa pr id n Hr Hpa Hpr Hok Hc) as (map & cnt & Hmap & Hcnt & Hrun).
  rewrite (bind_Ret _ _ _ _ _ Hrun). destruct Hc as [Hid Hn].
  pose proof (po_count_range _ Hok id n Hn) as Hrange.
  unfold NR_SYS_PROCS in Hid. destruct (bit_chunk id ltac:(lia)) as (Hq & Hrem & Hm).
  rewrite u8_id in Hcnt by lia.
  set (pr1 := pr.[s_notify_pending := map].[s_ntfy_cnt := cnt]).
  set (s1 := s.[privs := <[pa := pr1]> (privs s)]).
  assert (Hpr1 : privs s1 !! pa = Some pr1) by apply lookup_insert_eq.
  unfold take_pending. rewrite (bind_getpriv s1 pa pr1) by done.
  rewrite (bind_of_option _ (n + 1)) by exact (aset_aget_eq _ _ _ _ Hcnt).
  rewrite Z.add_simpl_r, (u8_id n) by lia. cbv zeta.
  rewrite (bind_of_option _ (s_ntfy_cnt pr)).
  2:{ etransitivity; [exact (aset_aset _ _ _ _ n Hcnt)|]. by apply aset_same. }
  rewrite (bind_putpriv s1 pa pr1) by done.
  set (s2 := s1.[privs := _]).
  assert (Hback : ∀ q : list Z, q = s_notify_pending pr →
    s.[privs := <[pa := pr1.[s_ntfy_cnt := s_ntfy_cnt pr].[s_notify_pending := q]]> (privs s)] = s).
  { intros q ->. change (pr1.[s_ntfy_cnt := _].[s_notify_pending := _]) with pr.
    unfold fupd. cbn. by rewrite insert_id by done. }
  unfold set_sys_bit in Hmap. rewrite Hq, Hrem in Hmap.
  destruct (aget (s_notify_pending pr) (id / 16)) as [c|] eqn:Hc; [|done]. cbn in Hmap.
  pose proof (po_chunk_range _ Hok _ _ Hc) as Hcr.
  pose proof (po_bit _ Hok id n Hn) as Hb. rewrite get_sys_bit_eq in Hb by lia.
  unfold sys_bit in Hb. rewrite Hc in Hb. cbn in Hb. injection Hb as Hb.
  destruct (Z.eqb_spec n 0) as [->|Hn0]; cbn [negb when] in *.
  - rewrite Hq, Hrem.
    rewrite (bind_of_option _ (u16 (Z.lor c (Z.shiftl 1 (id mod 16)))))
      by exact (aset_aget_eq _ _ _ _ Hmap).
    rewrite (bind_of_option _ (s_notify_pending pr)).
    2:{ etransitivity; [exact (aset_aset _ _ _ _ _ Hmap)|].
        rewrite lor_bclr_id by done. by apply aset_same. }
    assert (Hpr2 : privs s2 !! pa = Some (pr1.[s_ntfy_cnt := s_ntfy_cnt pr]))
      by apply lookup_insert_eq.
    rewrite (tail_putpriv s2 pa _ _ Hpr2). unfold s2, s1. f_equal.
    cbn [privs fupd]. rewrite !insert_insert_eq. by apply Hback.
  - unfold skip, ret. f_equal. unfold s2, s1. cbn [privs fupd]. rewrite insert_insert_eq.
    apply (Hback map). rewrite lor_set_id in Hmap by done.
    rewrite (aset_same _ _ _ Hc) in Hmap. by injection Hmap as <-.
Qed.

(** ** On a concrete structure *)
Definition pend_okb (pr : priv) : bool :=
  (length (s_notify_pending pr) =? 2)%nat && (length (s_ntfy_cnt pr) =? 32)%nat
  && forallb (λ c, (0 <=? c) && (c <? 2 ^ 16)) (s_notify_pending pr)
  && forallb (λ n, (0 <=? n) && (n <? 256)) (s_ntfy_cnt pr)
  && forallb (λ i, bool_decide (get_sys_bit (s_notify_pending pr) i =
                                (λ n, negb (n =? 0)) <$> aget (s_ntfy_cnt pr) i))
       (zrange 0 32).

Lemma aget_In {A} (l : list A) i x : aget l i = Some x → In x l.
Proof.
  unfold aget. destruct (0 <=? i); [|done]. intros H%list_elem_of_lookup_2.
  by apply list_elem_of_In.
Qed.

Lemma pend_okb_sound pr : pend_okb pr = true → pend_ok pr.
Proof.
  unfold pend_okb. rewrite !andb_true_iff, !Nat.eqb_eq, !forallb_forall.
  intros [[[[H1 H2] H3] H4] H5]. split; try done.
  - intros k c Hc%aget_In%H3. apply andb_true_iff in Hc as [?%Z.leb_le ?%Z.ltb_lt]. lia.
  - intros k c Hc%aget_In%H4. apply andb_true_iff in Hc as [?%Z.leb_le ?%Z.ltb_lt]. lia.
  - intros i n Hn. assert (Hi : In i (zrange 0 32)).
    { apply aget_Some in Hn as Hi. rewrite H2 in Hi.
      apply list_elem_of_In. unfold zrange. apply list_elem_of_fmap.
      exists (Z.to_nat i). split; [lia|]. apply elem_of_seq. lia. }
    apply H5, bool_decide_eq_true in Hi. by rewrite Hn in Hi.
Qed.

Theorem pending_roundtrip_witness :
  (notify_pend 3 (Some (0, 0));;; take_pending (Some (0, 4)) 0 3 3) (demo (0, 0)) =
  Ret tt (demo (0, 0)).
Proof.
  apply (pending_roundtrip (demo (0, 0)) (0, 0) (mk_proc 0 0 4 0 0x0200) (0, 4)
           (mk_priv 0 4 0 SYS_PROC) 3 0).
  - vm_compute. reflexivity.
  - vm_compute. reflexivity.
  - vm_compute. reflexivity.
  - apply pend_okb_sound. vm_compute. reflexivity.
  - split; [vm_compute; split; [discriminate|reflexivity]|vm_compute; reflexivity].
  - reflexivity.
Defined.

(** The count is an unsigned char: the 256th pending notification of a
    source wraps it to 0 while its bit stays set, so that the structure is no
    longer consistent and the notifications are lost. *)
Theorem pending_count_wraps s d r pa pr id :
  procs s !! d = Some r → p_priv r = Some pa → privs s !! pa = Some pr → pend_ok pr →
  counted pr id 255 →
  ∃ pr', notify_pend id (Some d) s = Ret tt (s.[privs := <[pa := pr']> (privs s)]) ∧
         aget (s_ntfy_cnt pr') id = Some 0 ∧
         get_sys_bit (s_notify_pending pr') id = Some true ∧ ¬ pend_ok pr'.
Proof.
  intros Hr Hpa Hpr Hok Hc.
  destruct (notify_pend_run s d r pa pr id 255 Hr Hpa Hpr Hok Hc) as (map & cnt & Hmap & Hcnt & Hrun).
  exists (pr.[s_notify_pending := map].[s_ntfy_cnt := cnt]). split; [done|].
  destruct Hc as [Hid _]. apply aset_aget_eq in Hcnt.
  assert (Hbit : get_sys_bit map id = Some true).
  { destruct (put_sys_bit_spec true (s_notify_pending pr) id map ltac:(lia) Hmap) as [_ H].
    rewrite H by lia. by rewrite decide_True. }
  split; [exact Hcnt|]. split; [exact Hbit|]. intros Hok'.
  pose proof (po_bit _ Hok' id 0 Hcnt) as H. cbn in H. by rewrite Hbit in H.
Qed.

Definition full_priv : priv :=
  (mk_priv 0 4 0 SYS_PROC).[s_notify_pending := [8; 0]].[s_ntfy_cnt := <[3%nat := 255]> (replicate 32 0)].
Definition full_state : kstate :=
  let s := demo (0, 0) in s.[privs := <[(0, 4) := full_priv]> (privs s)].

Theorem pending_count_wraps_witness :
  ∃ pr', notify_pend 3 (Some (0, 0)) full_state =
           Ret tt (full_state.[privs := <[(0, 4) := pr']> (privs full_state)]) ∧
         aget (s_ntfy_cnt pr') 3 = Some 0.
Proof.
  destruct (pending_count_wraps full_state (0, 0) (mk_proc 0 0 4 0 0x0200) (0, 4) full_priv 3)
    as (pr' & H1 & H2 & _).
  - vm_compute. reflexivity.
  - vm_compute. reflexivity.
  - vm_compute. reflexivity.
  - apply pend_okb_sound. vm_compute. reflexivity.
  - split; [vm_compute; split; [discriminate|reflexivity]|vm_compute; reflexivity].
  - exists pr'. split; [exact H1|exact H2].
Defined.
