(* ===== verification/KAuth.v ===== *)
(** * What no IPC operation changes

    The identity, memory map and privileges of every process ([authority]) and
    the state of the virtual machines are out of reach of [sys_call]: the only
    exception is the VM on whose behalf SYSTEM and CLOCK run. *)
From stdpp Require Import base gmap list numbers strings.
From Stdlib Require Import ZArith Lia.
From S2P Require Import Prelude.
From S2P Require Import KTypes.
From S2P Require Import KProc.
From S2P Require Import KSched.
From S2P Require Import KIpcSend.
From S2P Require Import KIpcVm.
From S2P Require Import KIpcRecv.
From S2P Require Import KSysCall.
From S2P Require Import KStep.

(** The fields of a process that the IPC code leaves alone. *)
Definition identity (r : proc) :
    Z * Z * ptr * string * (mem_map * mem_map * mem_map) * (Z * Z * Z * Z * Z) :=
  (p_nr r, p_endpoint r, p_priv r, p_name r, (p_memmap_T r, p_memmap_D r, p_memmap_S r),
   (p_proxy r, p_max_priority r, p_quantum_size r, p_user_time r, p_pending r)).

(** The fields of a privilege structure that are not notification state. *)
Definition rights (r : priv) :
    Z * Z * Z * Z * (list Z * list Z * list Z) * (Z * Z * Z * Z) *
    (list far_mem * list (Z * Z) * list Z * (Z * Z * Z * Z)) :=
  (s_proc_nr r, s_id r, s_flags r, s_trap_mask r, (s_ipc_from r, s_ipc_to r, s_nr r),
   (s_call_mask r, s_vm_bitmap r, s_dr_bitmap r, s_call2proxy r),
   (s_farmem r, s_io_tab r, s_irq_tab r,
    (s_nr_io_range r, s_nr_mem_range r, s_nr_irq r, s_vmid r))).

(** The rest of the state that has nothing to do with communication: memory, the
    interrupt hooks, the timers and the request that SYSTEM works on. *)
Definition surroundings (s : kstate) :=
  (pmem s, hooks s, irq_handlers s, irq_actids s, irq_use s, timers s, who_e s, who_p s, boots s).

(** The flags that keep a process from running for a reason other than a message:
    signals, tracing, a missing map or privilege structure. *)
Definition IPC_FLAGS : Z := Z.lor (Z.lor SENDING RECEIVING) NOTIFYING.
Definition held (r : proc) : Z := bclr (p_rts_flags r) IPC_FLAGS.

(** The same fields with these flags, and with the VM. *)
Definition role (r : proc) := (identity r, held r).
Definition identity_vm (r : proc) := (role r, p_vmid r).

Lemma bclr_bclr x f m : bclr f m = 0 → bclr (bclr x f) m = bclr x m.
Proof.
  intros H. unfold bclr in *. apply Z.bits_inj'. intros n Hn.
  apply (f_equal (λ z, Z.testbit z n)) in H.
  rewrite Z.bits_0, Z.land_spec, Z.lnot_spec in H by done.
  rewrite !Z.land_spec, !Z.lnot_spec by done.
  by destruct (Z.testbit x n), (Z.testbit f n), (Z.testbit m n).
Qed.
Lemma bclr_lor x f m : bclr f m = 0 → bclr (Z.lor x f) m = bclr x m.
Proof.
  intros H. unfold bclr in *. apply Z.bits_inj'. intros n Hn.
  apply (f_equal (λ z, Z.testbit z n)) in H.
  rewrite Z.bits_0, Z.land_spec, Z.lnot_spec in H by done.
  rewrite !Z.land_spec, !Z.lnot_spec, Z.lor_spec by done.
  by destruct (Z.testbit x n), (Z.testbit f n), (Z.testbit m n).
Qed.

Lemma role_eq r r' : identity r = identity r' → held r = held r' → role r = role r'.
Proof. unfold role. by intros -> ->. Qed.
Lemma identity_vm_eq r r' :
  identity r = identity r' → held r = held r' → p_vmid r = p_vmid r' → identity_vm r = identity_vm r'.
Proof. unfold identity_vm, role. by intros -> -> ->. Qed.
(** An update that only touches the flags of messages. *)
Ltac role_tac :=
  intros; first
    [ done
    | (apply identity_vm_eq || apply role_eq); [done| |done..];
      first [apply bclr_bclr; done | apply bclr_lor; done] ].

Definition same_vm (s s' : kstate) : Prop :=
  identity_vm <$> procs s' = identity_vm <$> procs s ∧
  rights <$> privs s' = rights <$> privs s ∧
  vms s' = vms s ∧ proc_ptr s' = proc_ptr s ∧
  (systask_ptr s' = systask_ptr s ∧ clock_ptr s' = clock_ptr s ∧
   hard_ptr s' = hard_ptr s ∧ idle_ptr s' = idle_ptr s ∧
   surroundings s' = surroundings s).

#[export] Instance same_vm_preorder : PreOrder same_vm.
Proof.
  split; [by intros s; split_and!|].
  intros s1 s2 s3 (? & ? & ? & ? & ? & ? & ? & ? & ?) (? & ? & ? & ? & ? & ? & ? & ? & ?).
  split_and!; congruence.
Qed.

Lemma same_vm_putp p f :
  (∀ r, identity_vm (f r) = identity_vm r) → pres same_vm (putp p f).
Proof.
  intros H s a s'. unfold putp. destruct p as [b|]; [|done].
  destruct (procs s !! b) as [r|] eqn:Hr; [|done]. intros [= _ <-].
  split; [|by split_and!]. cbn. rewrite fmap_insert, H, <-fmap_insert.
  by rewrite insert_id.
Qed.

Lemma same_vm_putpriv p f :
  (∀ r, rights (f r) = rights r) → pres same_vm (putpriv p f).
Proof.
  intros H s a s'. unfold putpriv. destruct p as [b|]; [|done].
  destruct (privs s !! b) as [r|] eqn:Hr; [|done]. intros [= _ <-].
  split; [done|]. split; [|by split_and!]. cbn. rewrite fmap_insert, H, <-fmap_insert.
  by rewrite insert_id.
Qed.

Lemma same_vm_getp p : pres same_vm (getp p).
Proof.
  intros s a s'. unfold getp. destruct p as [b|]; [|done].
  destruct (procs s !! b); [|done]. by intros [= _ <-].
Qed.
Lemma same_vm_getpriv p : pres same_vm (getpriv p).
Proof.
  intros s a s'. unfold getpriv. destruct p as [b|]; [|done].
  destruct (privs s !! b); [|done]. by intros [= _ <-].
Qed.
Lemma same_vm_getvm v : pres same_vm (getvm v).
Proof. intros s a s'. unfold getvm. destruct (vms s !! v); [|done]. by intros [= _ <-]. Qed.
Lemma same_vm_modify f :
  (∀ s, procs (f s) = procs s ∧ privs (f s) = privs s ∧ vms (f s) = vms s ∧
        proc_ptr (f s) = proc_ptr s ∧ systask_ptr (f s) = systask_ptr s ∧
        clock_ptr (f s) = clock_ptr s ∧ hard_ptr (f s) = hard_ptr s ∧
        idle_ptr (f s) = idle_ptr s ∧ surroundings (f s) = surroundings s) →
  pres same_vm (modify f).
Proof.
  intros H. apply pres_modify. intros s.
  destruct (H s) as (Hp & Hv & ? & ? & ? & ? & ? & ? & ?). unfold same_vm.
  rewrite Hp, Hv. by split_and!.
Qed.
Lemma same_vm_load x : pres same_vm (load x).
Proof.
  destruct x; cbn; [|presto; apply same_vm_getp..].
  intros s a s'. destruct (rdy_index q); [|done]. by intros [= _ <-].
Qed.
Lemma same_vm_load_tail q : pres same_vm (load_tail q).
Proof. intros s a s'. unfold load_tail. destruct (rdy_index q); [|done]. by intros [= _ <-]. Qed.
Lemma same_vm_store x v : pres same_vm (store x v).
Proof.
  destruct x; cbn; [|by apply same_vm_putp..].
  intros s a s'. destruct (rdy_index q); [|done]. intros [= _ <-]. by split_and!.
Qed.
Lemma same_vm_store_tail q v : pres same_vm (store_tail q v).
Proof.
  intros s a s'. unfold store_tail. destruct (rdy_index q); [|done].
  intros [= _ <-]. by split_and!.
Qed.

#[export] Hint Extern 1 (pres same_vm (putp _ _)) => apply same_vm_putp; role_tac : pres.
#[export] Hint Extern 1 (pres same_vm (putpriv _ _)) => apply same_vm_putpriv; done : pres.
#[export] Hint Extern 1 (pres same_vm (modify _)) =>
  apply same_vm_modify; intros; split_and!; done : pres.
#[export] Hint Resolve same_vm_getp same_vm_getpriv same_vm_getvm same_vm_load
  same_vm_load_tail same_vm_store same_vm_store_tail : pres.

(** One hint per function of the IPC code, in the order of the calls. *)
Ltac authority_tac := intros; presto.
Lemma same_vm_priv_of p : pres same_vm (priv_of p).
Proof. unfold priv_of. authority_tac. Qed.
Lemma same_vm_panic a b : pres same_vm (panic a b).
Proof. unfold panic. authority_tac. Qed.
#[export] Hint Resolve same_vm_priv_of same_vm_panic : pres.
Lemma same_vm_MHASSERT b : pres same_vm (MHASSERT b).
Proof. unfold MHASSERT. authority_tac. Qed.
Lemma same_vm_proc_addr_vm v n : pres same_vm (proc_addr_vm v n).
Proof. unfold proc_addr_vm. authority_tac. Qed.
Lemma same_vm_get_proc_addr n : pres same_vm (get_proc_addr n).
Proof. unfold get_proc_addr. authority_tac. Qed.
Lemma same_vm_get_uptime : pres same_vm get_uptime.
Proof. unfold get_uptime. authority_tac. Qed.
#[export] Hint Resolve same_vm_MHASSERT same_vm_proc_addr_vm same_vm_get_proc_addr
  same_vm_get_uptime : pres.
Lemma same_vm_id_to_nr id : pres same_vm (id_to_nr id).
Proof. unfold id_to_nr. authority_tac. Qed.
Lemma same_vm_nr_to_id nr : pres same_vm (nr_to_id nr).
Proof. unfold nr_to_id. authority_tac. Qed.
Lemma same_vm_isokendpt_f e fl : pres same_vm (isokendpt_f e fl).
Proof. unfold isokendpt_f. authority_tac. Qed.
Lemma same_vm_isokendpt_vm v e : pres same_vm (isokendpt_vm v e).
Proof. unfold isokendpt_vm. authority_tac. Qed.
Lemma same_vm_build_mess m src sp dp : pres same_vm (build_mess m src sp dp).
Proof. unfold build_mess. authority_tac. Qed.
Lemma same_vm_cp_mess a b c d e : pres same_vm (cp_mess a b c d e).
Proof. unfold cp_mess. authority_tac. Qed.
#[export] Hint Resolve same_vm_cp_mess : pres.
Lemma same_vm_CopyMess_ep sep sp sm dp dm : pres same_vm (CopyMess_ep sep sp sm dp dm).
Proof. unfold CopyMess_ep. authority_tac. Qed.
Lemma same_vm_CopyMess_kernel sep m dp dm : pres same_vm (CopyMess_kernel sep m dp dm).
Proof. unfold CopyMess_kernel. authority_tac. Qed.
Lemma same_vm_bill p : pres same_vm (bill p).
Proof. unfold bill. authority_tac. Qed.
Lemma same_vm_sched p : pres same_vm (sched p).
Proof. unfold sched. authority_tac. Qed.
#[export] Hint Resolve same_vm_id_to_nr same_vm_nr_to_id same_vm_isokendpt_f same_vm_isokendpt_vm same_vm_build_mess same_vm_CopyMess_ep same_vm_CopyMess_kernel same_vm_bill same_vm_sched : pres.
Lemma same_vm_isokendpt e : pres same_vm (isokendpt e).
Proof. unfold isokendpt. authority_tac. Qed.
Lemma same_vm_okendpt e : pres same_vm (okendpt e).
Proof. unfold okendpt. authority_tac. Qed.
Lemma same_vm_BuildMess m src dp : pres same_vm (BuildMess m src dp).
Proof. unfold BuildMess. authority_tac. Qed.
Lemma same_vm_BuildMess_ptr m sp dp : pres same_vm (BuildMess_ptr m sp dp).
Proof. unfold BuildMess_ptr. authority_tac. Qed.
Lemma same_vm_pick_scan x : pres same_vm (pick_scan x).
Proof. unfold pick_scan. authority_tac. Qed.
#[export] Hint Resolve same_vm_isokendpt same_vm_okendpt same_vm_BuildMess same_vm_BuildMess_ptr same_vm_pick_scan : pres.
Lemma same_vm_pick_queues qs c : pres same_vm (pick_queues qs c).
Proof. revert c. induction qs as [|q qs IH]; intros c; cbn [pick_queues]; presto. Qed.
#[export] Hint Resolve same_vm_pick_queues : pres.
Lemma same_vm_pick_proc : pres same_vm pick_proc.
Proof. unfold pick_proc. authority_tac. Qed.
#[export] Hint Resolve same_vm_pick_proc : pres.
Lemma same_vm_enqueue p : pres same_vm (enqueue p).
Proof. unfold enqueue. authority_tac. Qed.
Lemma same_vm_dequeue_scan p q x : pres same_vm (dequeue_scan p q x).
Proof. unfold dequeue_scan. authority_tac. Qed.
#[export] Hint Resolve same_vm_enqueue same_vm_dequeue_scan : pres.
Lemma same_vm_dequeue p : pres same_vm (dequeue p).
Proof. unfold dequeue. authority_tac. Qed.
#[export] Hint Resolve same_vm_dequeue : pres.
Lemma same_vm_unblock p f : bclr f IPC_FLAGS = 0 → pres same_vm (unblock p f).
Proof.
  intros H. unfold unblock. apply pres_bind; [apply _| |authority_tac].
  apply same_vm_putp. intros r. apply identity_vm_eq; [done|by apply bclr_bclr|done].
Qed.
#[export] Hint Extern 1 (pres same_vm (unblock _ _)) => apply same_vm_unblock; done : pres.
Lemma same_vm_end_scan x : pres same_vm (end_scan x).
Proof. unfold end_scan. authority_tac. Qed.
#[export] Hint Resolve same_vm_end_scan : pres.
Lemma same_vm_append_caller d c : pres same_vm (append_caller d c).
Proof. unfold append_caller. authority_tac. Qed.
Lemma same_vm_send_paravirtual c m d : pres same_vm (send_paravirtual c m d).
Proof. unfold send_paravirtual. authority_tac. Qed.
Lemma same_vm_virtual_proxy c : pres same_vm (virtual_proxy c).
Proof. unfold virtual_proxy. authority_tac. Qed.
#[export] Hint Resolve same_vm_append_caller same_vm_send_paravirtual same_vm_virtual_proxy : pres.
Lemma same_vm_send_redirect c m d : pres same_vm (send_redirect c m d).
Proof. unfold send_redirect. authority_tac. Qed.
#[export] Hint Resolve same_vm_send_redirect : pres.
Lemma same_vm_send_resolve c e m : pres same_vm (send_resolve c e m).
Proof. unfold send_resolve. authority_tac. Qed.
Lemma same_vm_block_sender c m e d : pres same_vm (block_sender c m e d).
Proof. unfold block_sender. authority_tac. Qed.
Lemma same_vm_notify_resolve c d : pres same_vm (notify_resolve c d).
Proof. unfold notify_resolve. authority_tac. Qed.
Lemma same_vm_notify_pend i d : pres same_vm (notify_pend i d).
Proof. unfold notify_pend. authority_tac. Qed.

#[export] Hint Resolve same_vm_send_resolve same_vm_block_sender same_vm_notify_resolve same_vm_notify_pend : pres.

(** ** Operations on behalf of SYSTEM

    Some operations set the VM that SYSTEM or CLOCK works for. *)
Definition system_task (s : kstate) (a : Z * Z) : Prop :=
  systask_ptr s = Some a ∨ ∃ r, procs s !! a = Some r ∧ (p_nr r = SYSTEM ∨ p_nr r = CLOCK).
(** Every other process stays in its VM. *)
Definition stays_in_vm (s s' : kstate) : Prop :=
  ∀ a, p_vmid <$> procs s' !! a = p_vmid <$> procs s !! a ∨ system_task s a.

Definition authority (s s' : kstate) : Prop :=
  role <$> procs s' = role <$> procs s ∧
  rights <$> privs s' = rights <$> privs s ∧
  vms s' = vms s ∧ proc_ptr s' = proc_ptr s ∧
  (systask_ptr s' = systask_ptr s ∧ clock_ptr s' = clock_ptr s ∧
   hard_ptr s' = hard_ptr s ∧ idle_ptr s' = idle_ptr s ∧
   surroundings s' = surroundings s ∧ stays_in_vm s s').

Lemma system_task_same s s' a : identity <$> procs s' = identity <$> procs s → systask_ptr s' = systask_ptr s →
  system_task s' a → system_task s a.
Proof.
  intros Hp Hs [H|(r' & Hr' & Hn)]; [left; congruence|right].
  apply (f_equal (lookup a)) in Hp. rewrite !lookup_fmap, Hr' in Hp. cbn in Hp.
  destruct (procs s !! a) as [r|]; [|done]. exists r. split; [done|].
  assert (p_nr r' = p_nr r) as <- by by injection Hp. done.
Qed.
Lemma stays_refl s : stays_in_vm s s.
Proof. intros a. by left. Qed.
Lemma stays_trans s1 s2 s3 : identity <$> procs s2 = identity <$> procs s1 → systask_ptr s2 = systask_ptr s1 →
  stays_in_vm s1 s2 → stays_in_vm s2 s3 → stays_in_vm s1 s3.
Proof.
  intros Hp Hs H1 H2 a. destruct (H1 a) as [E1|?]; [|by right].
  destruct (H2 a) as [E2|E2]; [left; congruence|right; by apply (system_task_same s1 s2)].
Qed.
Lemma role_identity (m m' : gmap (Z * Z) proc) : role <$> m' = role <$> m → identity <$> m' = identity <$> m.
Proof. intros H. apply (f_equal (fmap fst)) in H. by rewrite <-!map_fmap_compose in H. Qed.

#[export] Instance authority_preorder : PreOrder authority.
Proof.
  split; [intros s; split_and!; try done; apply stays_refl|].
  intros s1 s2 s3 (Hp & ? & ? & ? & Hs & ? & ? & ? & ? & ?) (? & ? & ? & ? & ? & ? & ? & ? & ? & ?).
  split_and!; try congruence. apply (stays_trans s1 s2 s3); [by apply role_identity|done..].
Qed.

Lemma authority_weaken {A} (m : K A) : pres same_vm m → pres authority m.
Proof.
  intros H s a s' Hm. destruct (H s a s' Hm) as (Hp & ? & ? & ? & ? & ? & ? & ? & ?). split_and!; try done.
  - apply (f_equal (fmap fst)) in Hp. by rewrite <-!map_fmap_compose in Hp.
  - intros b. left. apply (f_equal (fmap snd)), (f_equal (lookup b)) in Hp.
    by rewrite <-!map_fmap_compose, !lookup_fmap in Hp.
Qed.

(** A change of a kernel task. *)
Lemma authority_task s p f : (∀ r, role (f r) = role r) → (∀ b, p = Some b → system_task s b) →
  match putp p f s with Ret _ s' => authority s s' | _ => True end.
Proof.
  intros H Hp. unfold putp. destruct p as [b|]; [|done].
  destruct (procs s !! b) as [r|] eqn:Hr; [|done].
  split_and!; try done; cbn.
  - rewrite fmap_insert, H, <-fmap_insert. by rewrite insert_id.
  - intros c. cbn. destruct (decide (c = b)) as [->|Hne]; [right; by apply Hp|left; by rewrite lookup_insert_ne].
Qed.
Lemma authority_systask (b : bool) f : (∀ r, role (f r) = role r) →
  pres authority (let* s := get in when b (putp (systask_ptr s) f)).
Proof.
  intros H s a s'. unfold bind, get. destruct b; [|intros [= _ <-]; reflexivity]. cbn [when].
  pose proof (authority_task s (systask_ptr s) f H ltac:(by left)) as T. intros E. by rewrite E in T.
Qed.
Lemma authority_systask_then {A} (b : bool) f (k : kstate → K A) : (∀ r, role (f r) = role r) → (∀ s, pres authority (k s)) →
  pres authority (let* s := get in when b (putp (systask_ptr s) f);;; k s).
Proof.
  intros H Hk s a s' Hs. change (bind get _ s) with ((when b (putp (systask_ptr s) f);;; k s) s) in Hs.
  apply bind_inv in Hs as ([] & s1 & H1 & H2). transitivity s1; [|by apply (Hk s s1 a)].
  by apply (authority_systask b f H s tt).
Qed.
(** A task that changes its own VM. *)
Lemma authority_own_task {A} p (b : proc → bool) f (m : K unit) (k : proc → K A) :
  (∀ r, b r = true → p_nr r = SYSTEM ∨ p_nr r = CLOCK) → (∀ r, role (f r) = role r) → pres authority m →
  (∀ r, pres authority (k r)) → pres authority (let* c := getp p in when (b c) (putp p f;;; m);;; k c).
Proof.
  intros Hb Hf Hm Hk s a s' (c & s0 & H1 & H2)%bind_inv. unfold getp in H1. destruct p as [x|]; [|done].
  destruct (procs s !! x) as [r|] eqn:Hx; [|done]. injection H1 as <- <-.
  apply bind_inv in H2 as ([] & s1 & H2 & H3). transitivity s1; [|by apply (Hk r s1 a)].
  destruct (b r) eqn:E; [|injection H2 as <-; reflexivity]. cbn [when] in H2.
  apply bind_inv in H2 as ([] & s2 & H4 & H5). transitivity s2; [|by apply (Hm s2 tt)].
  pose proof (authority_task s (Some x) f Hf) as T. rewrite H4 in T. apply T.
  intros ? [= <-]. right. exists r. split; [done|by apply Hb].
Qed.

#[local] Hint Extern 0 (pres authority (bind get _)) => first [apply authority_systask | apply (authority_systask true)]; role_tac : pres.
#[local] Hint Extern 0 (pres authority (bind get _)) =>
  apply authority_systask_then; [role_tac|intros; solve [presto]] : pres.
#[export] Hint Extern 2 (pres authority _) =>
  apply authority_weaken; solve [auto with pres nocore] : pres.
Lemma authority_send_deliver c m d dX : pres authority (send_deliver c m d dX).
Proof. unfold send_deliver. authority_tac. Qed.
Lemma authority_notify_deliver c d dX : pres authority (notify_deliver c d dX).
Proof. unfold notify_deliver. authority_tac. Qed.
#[export] Hint Resolve authority_send_deliver authority_notify_deliver : pres.

(** [MH_notify] and [notify_proxy] call each other. *)
Lemma authority_notify_proxy_with n id :
  (∀ p d, pres authority (n p d)) → pres authority (notify_proxy_with n id).
Proof. intros H. unfold notify_proxy_with. authority_tac; apply H. Qed.
Lemma authority_MH_notify_with n c d :
  (∀ id, pres authority (n id)) → pres authority (MH_notify_with n c d).
Proof. intros H. unfold MH_notify_with. authority_tac; apply H. Qed.
Lemma authority_MH_notify_n n c d : pres authority (MH_notify_n n c d).
Proof.
  revert c d. induction n as [|n IH]; intros c d; cbn [MH_notify_n]; [presto|].
  apply authority_MH_notify_with. intros id. by apply authority_notify_proxy_with.
Qed.
#[export] Hint Resolve authority_MH_notify_n : pres.
Lemma authority_MH_notify c d : pres authority (MH_notify c d).
Proof. apply authority_MH_notify_n. Qed.
#[export] Hint Resolve authority_MH_notify : pres.
Lemma authority_notify_proxy id : pres authority (notify_proxy id).
Proof. apply authority_notify_proxy_with. apply authority_MH_notify. Qed.
#[export] Hint Resolve authority_notify_proxy : pres.
Lemma authority_MH_send c e m : pres authority (MH_send c e m).
Proof. unfold MH_send. authority_tac. Qed.
#[export] Hint Resolve authority_MH_send : pres.
Lemma authority_MH_sendas c d m e : pres authority (MH_sendas c d m e).
Proof. unfold MH_sendas. authority_tac. Qed.
Lemma authority_MH_ntfyas c d e : pres authority (MH_ntfyas c d e).
Proof. unfold MH_ntfyas. authority_tac. Qed.
Lemma authority_caller_in_vm c v : pres authority (caller_in_vm c v).
Proof. unfold caller_in_vm. authority_tac. Qed.
#[export] Hint Resolve authority_MH_sendas authority_MH_ntfyas authority_caller_in_vm : pres.
Lemma authority_MH_sendvm c d m v : pres authority (MH_sendvm c d m v).
Proof. unfold MH_sendvm. authority_tac. Qed.
Lemma authority_MH_ntfyvm c d v : pres authority (MH_ntfyvm c d v).
Proof. unfold MH_ntfyvm. authority_tac. Qed.
Lemma authority_relay_redirect c n d : pres authority (relay_redirect c n d).
Proof. unfold relay_redirect. authority_tac. Qed.
Lemma authority_relay_check c d e : pres authority (relay_check c d e).
Proof. unfold relay_check. authority_tac. Qed.
Lemma authority_relay_deliver c sp m d : pres authority (relay_deliver c sp m d).
Proof. unfold relay_deliver. authority_tac. Qed.
#[export] Hint Resolve authority_MH_sendvm authority_MH_ntfyvm authority_relay_redirect authority_relay_check authority_relay_deliver : pres.
Lemma authority_MH_relay c d m e : pres authority (MH_relay c d m e).
Proof. unfold MH_relay. authority_tac. Qed.
#[export] Hint Resolve authority_MH_relay : pres.
Lemma authority_pending_scan f l k : pres authority (pending_scan f l k).
Proof. revert k. induction l as [|c l IH]; intros k; cbn [pending_scan]; presto. Qed.
Lemma authority_take_pending p k i n : pres authority (take_pending p k i n).
Proof. unfold take_pending. authority_tac. Qed.
#[export] Hint Resolve authority_pending_scan authority_take_pending : pres.
Lemma authority_receive_pending c e n m : pres authority (receive_pending c e n m).
Proof. unfold receive_pending. authority_tac. Qed.
Lemma authority_sender_endpoint c x : pres authority (sender_endpoint c x).
Proof. unfold sender_endpoint. authority_tac. Qed.
Lemma authority_receive_take c m x a e : pres authority (receive_take c m x a e).
Proof. unfold receive_take. authority_tac. Qed.
Lemma authority_receive_check c e : pres authority (receive_check c e).
Proof.
  unfold receive_check. apply (authority_own_task c (λ r, ((p_nr r =? SYSTEM) || (p_nr r =? CLOCK)) && (e =? ANY))).
  - intros r [[H|H]%orb_true_iff _]%andb_true_iff; [left|right]; by apply Z.eqb_eq.
  - done.
  - presto.
  - intros r. presto.
Qed.
Lemma authority_recvas_scan c e m x : pres authority (recvas_scan c e m x).
Proof. unfold recvas_scan. authority_tac. Qed.
Lemma authority_recvas_check c e d : pres authority (recvas_check c e d).
Proof. unfold recvas_check. authority_tac. Qed.
Lemma authority_recvvm_check c e v : pres authority (recvvm_check c e v).
Proof. unfold recvvm_check. authority_tac. Qed.
Lemma authority_recvvm_take c m x : pres authority (recvvm_take c m x).
Proof. unfold recvvm_take. authority_tac. Qed.
#[export] Hint Resolve authority_receive_pending authority_sender_endpoint authority_receive_take authority_receive_check authority_recvas_scan authority_recvas_check authority_recvvm_check authority_recvvm_take : pres.
Lemma authority_receive_scan c e m x : pres authority (receive_scan c e m x).
Proof. unfold receive_scan. authority_tac. Qed.
Lemma authority_recvvm_pending c e n v m f : pres authority (recvvm_pending c e n v m f).
Proof. unfold recvvm_pending. authority_tac. Qed.
Lemma authority_recvvm_scan c e n v m f x : pres authority (recvvm_scan c e n v m f x).
Proof. unfold recvvm_scan. authority_tac. Qed.
#[export] Hint Resolve authority_receive_scan authority_recvvm_pending authority_recvvm_scan : pres.
Lemma authority_block_receiver c e m : pres authority (block_receiver c e m).
Proof. unfold block_receiver. authority_tac. Qed.
Lemma authority_block_recvvm c e m v f : pres authority (block_recvvm c e m v f).
Proof. unfold block_recvvm. authority_tac. Qed.
#[export] Hint Resolve authority_block_receiver authority_block_recvvm : pres.
Lemma authority_MH_receive c e m : pres authority (MH_receive c e m).
Proof. unfold MH_receive. authority_tac. Qed.
Lemma authority_MH_recvas c e m d : pres authority (MH_recvas c e m d).
Proof. unfold MH_recvas. authority_tac. Qed.
Lemma authority_MH_recvvm c e m v : pres authority (MH_recvvm c e m v).
Proof. unfold MH_recvvm. authority_tac. Qed.
#[export] Hint Resolve authority_MH_receive authority_MH_recvas authority_MH_recvvm : pres.
Lemma authority_deadlock_step f c x : pres authority (deadlock_step f c x).
Proof. unfold deadlock_step. authority_tac. Qed.
Lemma authority_check_promiscuous c f v : pres authority (check_promiscuous c f v).
Proof. unfold check_promiscuous. authority_tac. Qed.
#[export] Hint Resolve authority_deadlock_step authority_check_promiscuous : pres.
Lemma authority_deadlock f c d : pres authority (deadlock f c d).
Proof. unfold deadlock. authority_tac. Qed.
Lemma authority_call_class c f v : pres authority (call_class c f v).
Proof. unfold call_class. authority_tac. Qed.
Lemma authority_call_src_dst f e : pres authority (call_src_dst f e).
Proof. unfold call_src_dst. authority_tac. Qed.
Lemma authority_call_sendvm c e m v : pres authority (call_sendvm c e m v).
Proof. unfold call_sendvm. authority_tac. Qed.
Lemma authority_call_recvvm c e m v : pres authority (call_recvvm c e m v).
Proof. unfold call_recvvm. authority_tac. Qed.
Lemma authority_set_reply_pending c : pres authority (set_reply_pending c).
Proof. unfold set_reply_pending. authority_tac. Qed.
#[export] Hint Resolve authority_deadlock authority_call_class authority_call_src_dst authority_call_sendvm authority_call_recvvm authority_set_reply_pending : pres.
Lemma authority_call_checks c f d m : pres authority (call_checks c f d m).
Proof. unfold call_checks. authority_tac. Qed.
Lemma authority_call_dispatch c f e d m v : pres authority (call_dispatch c f e d m v).
Proof. unfold call_dispatch. authority_tac. Qed.
#[export] Hint Resolve authority_call_checks authority_call_dispatch : pres.

(** ** Traps

    [sys_call] clears the flags of the process that traps. *)
Definition trap_authority (s s' : kstate) : Prop :=
  identity <$> procs s' = identity <$> procs s ∧
  rights <$> privs s' = rights <$> privs s ∧
  vms s' = vms s ∧ proc_ptr s' = proc_ptr s ∧ surroundings s' = surroundings s ∧
  systask_ptr s' = systask_ptr s ∧ stays_in_vm s s'.

#[export] Instance trap_authority_preorder : PreOrder trap_authority.
Proof.
  split; [intros s; split_and!; try done; apply stays_refl|].
  intros s1 s2 s3 (? & ? & ? & ? & ? & ? & ?) (? & ? & ? & ? & ? & ? & ?). split_and!; try congruence.
  by apply (stays_trans s1 s2 s3).
Qed.

Lemma trap_weaken {A} (m : K A) : pres authority m → pres trap_authority m.
Proof.
  intros H s a s' Hm. destruct (H s a s' Hm) as (Hp & ? & ? & ? & ? & ? & ? & ? & ? & ?).
  split_and!; try done. by apply role_identity.
Qed.

Lemma trap_putp p f :
  (∀ r, identity (f r) = identity r ∧ p_vmid (f r) = p_vmid r) → pres trap_authority (putp p f).
Proof.
  intros H s a s'. unfold putp. destruct p as [b|]; [|done].
  destruct (procs s !! b) as [r|] eqn:Hr; [|done]. intros [= _ <-]. destruct (H r) as [H1 H2].
  split_and!; try done; cbn.
  - rewrite fmap_insert, H1, <-fmap_insert. by rewrite insert_id.
  - intros c. left. cbn. destruct (decide (c = b)) as [->|Hne]; [|by rewrite lookup_insert_ne].
    rewrite lookup_insert_eq, Hr. exact (f_equal Some H2).
Qed.
#[export] Hint Extern 1 (pres trap_authority (putp _ _)) => apply trap_putp; intros; split; done : pres.
#[export] Hint Extern 2 (pres trap_authority _) =>
  apply trap_weaken; solve [auto with pres nocore] : pres.
Lemma authority_sys_call n e m b : pres trap_authority (sys_call n e m b).
Proof. unfold sys_call. authority_tac. Qed.
