(* ===== verification/KProxyThms.v ===== *)
(** * Calls that never wait, and calls that call each other

    A proxy never blocks in [MH_recvas]; [MH_notify] and [notify_proxy] are
    mutually recursive, and the recursion ends after one round. *)
From stdpp Require Import base gmap list numbers strings.
From Stdlib Require Import ZArith Lia.
From S2P Require Import Prelude.
From S2P Require Import KTypes.
From S2P Require Import KProc.
From S2P Require Import KSched.
From S2P Require Import KIpcSend.
From S2P Require Import KIpcVm.
From S2P Require Import KIpcRecv.
From S2P Require Import KSysCall.
From S2P Require Import KStep.
From S2P Require Import KReady.
From S2P Require Import KSchedOps.
From S2P Require Import KAuth.

(** ** [MH_recvas] *)
Definition recvas_errors : list Z := [EDSTDIED; EVIRTUALTASK; ESRCDIED; EAGAIN].

Lemma recvas_check_error c e d s r s' :
  recvas_check c e d s = Ret (inl r) s' → r ∈ recvas_errors.
Proof.
  unfold recvas_check, recvas_errors. intros H. minv H. minv H.
  case_match; [injection H as <- _; set_solver|]. minv H.
  case_match; [injection H as <- _; set_solver|]. case_match; [done|].
  minv H. destruct a2 as [ok p]. case_match; [injection H as <- _; set_solver|].
  minv H. minv H. case_match; [injection H as <- _; set_solver|done].
Qed.

(** A step of the scan that does not end in success only moves on. *)
Lemma recvas_scan_moves c e m xpp s r s' :
  recvas_scan c e m xpp s = Ret r s' → r ≠ inr true → s' = s ∧ (∀ b, r = inr b → b = false).
Proof.
  unfold recvas_scan. intros H Hr. minv H. apply pure_load in H0 as <-.
  destruct a as [xa|]; [|injection H as <- <-; split; [done|by intros b [= <-]]].
  minv H. apply pure_getp in H0 as <-. case_match; [|injection H as <- <-; by split].
  repeat minv H. by injection H as <- <-.
Qed.

Lemma recvas_loop_false c e m n : ∀ xpp s s',
  loop n (recvas_scan c e m) xpp s = Ret false s' → s' = s.
Proof.
  induction n as [|n IH]; intros xpp s s'; [done|]. rewrite loop_S.
  destruct (recvas_scan c e m xpp s) as [[x|b] s1| |] eqn:Hs; try done.
  - destruct (recvas_scan_moves _ _ _ _ _ _ _ Hs) as [-> _]; [done|]. apply IH.
  - intros [= -> ->]. by destruct (recvas_scan_moves _ _ _ _ _ _ _ Hs) as [-> _].
Qed.

(** A proxy is never left waiting: when [MH_recvas] has no message for it, it
    returns one of its four errors, [EAGAIN] among them, and has changed nothing;
    in particular the proxy is not blocked and stays in its ready queue. *)
Theorem MH_recvas_nonblocking c src_ep m_ptr dst_ep s r s' :
  MH_recvas c src_ep m_ptr dst_ep s = Ret r s' → r ≠ OK →
  s' = s ∧ r ∈ recvas_errors.
Proof.
  unfold MH_recvas. intros H Hr. minv H. apply pure_recvas_check in H0 as Hs0.
  subst s0. destruct a as [e|[dp src_p]].
  { injection H as <- <-. split; [done|]. by eapply recvas_check_error. }
  minv H. apply pure_getp in H1 as <-. minv H. apply pure_getpriv in H1 as <-.
  minv H. apply pure_pending_scan in H1 as <-.
  destruct a1 as [[[[k i] src_id] nr]|]; [by repeat minv H; injection H as <- <-|].
  destruct dp as [da|]; [|done]. minv H. destruct a1; [by injection H as <- <-|].
  injection H as <- <-. split; [by eapply recvas_loop_false|].
  unfold recvas_errors. set_solver.
Qed.

Theorem MH_recvas_nonblocking_witness :
  MH_recvas (Some (0, 9)) ANY 4096 5 (demo (0, 9)) = Ret EAGAIN (demo (0, 9)) ∧
  demo (0, 9) = demo (0, 9) ∧ EAGAIN ∈ recvas_errors.
Proof.
  assert (H : MH_recvas (Some (0, 9)) ANY 4096 5 (demo (0, 9)) = Ret EAGAIN (demo (0, 9)))
    by (vm_compute; reflexivity).
  split; [exact H|]. refine (MH_recvas_nonblocking _ _ _ _ _ _ _ H _).
  vm_compute. discriminate.
Defined.

(** ** [MH_notify] and [notify_proxy] *)

(** HARDWARE is a process of VM0. *)
Definition hardware_on_vm0 (s : kstate) : Prop :=
  ∃ h r, hard_ptr s = Some h ∧ procs s !! h = Some r ∧ p_vmid r = VM0.

Lemma same_vm_hardware s s' : same_vm s s' → hardware_on_vm0 s → hardware_on_vm0 s'.
Proof.
  intros (Hp & _ & _ & _ & _ & _ & Hh & _) (h & r & Heq & Hr & Hv).
  apply (f_equal (lookup h)) in Hp. rewrite !lookup_fmap, Hr in Hp. cbn in Hp.
  destruct (procs s' !! h) as [r'|] eqn:Hr'; [|done].
  exists h, r'. rewrite Hh. split_and!; try done. rewrite <-Hv.
  apply (inj Some) in Hp. exact (f_equal snd Hp).
Qed.

Lemma bind_ext {S A B} (m : M S A) (k k' : A → M S B) s :
  (∀ a s', m s = Ret a s' → k a s' = k' a s') → bind m k s = bind m k' s.
Proof. intros H. unfold bind. destruct (m s) eqn:E; [by apply H|done|done]. Qed.

Lemma logged_same_vm s s' : logged s s' → same_vm s s'.
Proof. intros [l ->]. by split_and!. Qed.

(** A notification that is not delivered has changed nothing. *)
Lemma notify_deliver_false c d dX s s' :
  notify_deliver c d dX s = Ret false s' → logged s s'.
Proof.
  unfold notify_deliver. intros H. do 3 (minv H). apply pure_getp in H0 as <-.
  apply pure_getp in H1 as <-. apply pure_getp in H2 as <-.
  case_match; [by injection H as <-|]. case_match; minv H;
    match goal with Ha : MHASSERT _ _ = _ |- _ =>
      apply logging_MHASSERT in Ha; etransitivity; [exact Ha|] end.
  - case_match; [by injection H as <-|]. case_match; [|by injection H as <-].
    by repeat minv H.
  - case_match; [by injection H as <-|]. case_match; [|by injection H as <-].
    by repeat minv H.
Qed.

Lemma MH_notify_with_ext np np' c d s :
  (∀ id s', same_vm s s' → np id s' = np' id s') →
  MH_notify_with np c d s = MH_notify_with np' c d s.
Proof.
  intros Hnp. unfold MH_notify_with. apply bind_ext. intros r s1 H1.
  apply same_vm_notify_resolve in H1. destruct r as [e|[[dp dX] d0]]; [done|].
  apply bind_ext. intros [] s2 H2; [done|]. apply notify_deliver_false, logged_same_vm in H2.
  apply bind_ext. intros rc s3 H3. apply same_vm_getp in H3.
  apply bind_ext. intros rX s4 H4. apply same_vm_getp in H4. case_match; [|done].
  apply bind_ext. intros [] s5 Hs5. apply same_vm_dequeue in Hs5.
  apply bind_ext. intros [] s6 Hs6. apply same_vm_putp in Hs6; [|role_tac].
  apply bind_ext. intros [] s7 Hs7. apply same_vm_append_caller in Hs7.
  apply bind_ext. intros [] s8 Hs8. apply same_vm_putp in Hs8; [|role_tac]. case_match; [|done].
  apply bind_ext. intros pr s9 H9. apply same_vm_priv_of in H9. apply Hnp.
  by repeat (etransitivity; [eassumption|]).
Qed.

(** A notification from VM0 never reaches a proxy. *)
Lemma MH_notify_with_vm0 np np' c rc d s :
  procs s !! c = Some rc → p_vmid rc = VM0 →
  MH_notify_with np (Some c) d s = MH_notify_with np' (Some c) d s.
Proof.
  intros Hrc Hv. unfold MH_notify_with. apply bind_ext. intros r s1 H1.
  apply same_vm_notify_resolve in H1. destruct r as [e|[[dp dX] d0]]; [done|].
  apply bind_ext. intros [] s2 H2; [done|]. apply notify_deliver_false, logged_same_vm in H2.
  apply bind_ext. intros rc' s3 H3. apply bind_ext. intros rX s4 _.
  assert (p_vmid rc' = VM0) as ->; [|done].
  unfold getp in H3. destruct (procs s2 !! c) as [r2|] eqn:Hr2; [|done].
  injection H3 as <- <-. assert (Hs : same_vm s s2) by (etransitivity; eassumption).
  destruct Hs as [Hp _]. apply (f_equal (lookup c)) in Hp.
  rewrite !lookup_fmap, Hrc, Hr2 in Hp. apply (inj Some) in Hp.
  rewrite <-Hv. exact (f_equal snd Hp).
Qed.

Lemma notify_proxy_with_ext F F' id s :
  hardware_on_vm0 s →
  (∀ h r d s', procs s' !! h = Some r → p_vmid r = VM0 → F (Some h) d s' = F' (Some h) d s') →
  notify_proxy_with F id s = notify_proxy_with F' id s.
Proof.
  intros Hh HF. unfold notify_proxy_with. rewrite !bind_get.
  apply bind_ext. intros vm s1 H1. apply same_vm_getvm in H1.
  apply bind_ext. intros px s2 H2. apply same_vm_proc_addr_vm in H2.
  apply bind_ext. intros p s3 H3. apply same_vm_getp in H3.
  apply bind_ext. intros pr s4 H4. apply same_vm_getpriv in H4. case_match; [|done].
  apply bind_ext. intros [] s5 Hs5. apply same_vm_putpriv in Hs5; [|done]. rewrite !bind_modify.
  set (s6 := s5.[running_vm := VM0]).
  assert (hardware_on_vm0 s6) as (h & r & Hhp & Hr & Hv).
  { apply (same_vm_hardware s); [|done]. do 5 (etransitivity; [eassumption|]). by split_and!. }
  assert (Ha : proc_addr_vm VM0 HARDWARE s6 = Ret (Some h) s6).
  { rewrite <-Hhp. reflexivity. }
  rewrite !(bind_Ret _ _ _ _ _ Ha). unfold bind at 1 3.
  by rewrite (HF h r _ s6 Hr Hv).
Qed.

(** C7. The mutual recursion of [MH_notify] and [notify_proxy] ends after one
    round: a deeper recursion gives the same outcome in every state in which
    HARDWARE runs on VM0. *)
Theorem MH_notify_depth s c d k :
  hardware_on_vm0 s → MH_notify_n (2 + k) c d s = MH_notify c d s.
Proof.
  intros Hh. apply MH_notify_with_ext. intros id s' Hs.
  apply notify_proxy_with_ext; [by apply (same_vm_hardware s)|].
  intros h r d' s2 Hr Hv. cbn. by apply (MH_notify_with_vm0 _ _ h r).
Qed.

Theorem MH_notify_depth_witness :
  MH_notify_n 7 (Some (1, 20)) 5 (demo (1, 20)) = MH_notify (Some (1, 20)) 5 (demo (1, 20)).
Proof.
  apply (MH_notify_depth (demo (1, 20)) (Some (1, 20)) 5 5).
  exists (0, HARDWARE), (proc_at (demo (1, 20)) (0, HARDWARE)).
  repeat split; vm_compute; reflexivity.
Defined.
