(* ===== verification/KCallThms.v ===== *)
(** * Properties of the trap handler and of the calls as a whole *)
From stdpp Require Import base gmap list numbers strings.
From Stdlib Require Import ZArith Lia.
From S2P Require Import Prelude.
From S2P Require Import KTypes.
From S2P Require Import KProc.
From S2P Require Import KSched.
From S2P Require Import KIpcSend.
From S2P Require Import KIpcVm.
From S2P Require Import KIpcRecv.
From S2P Require Import KSysCall.
From S2P Require Import KStep.
From S2P Require Import KReady.
From S2P Require Import KSchedOps.
From S2P Require Import KIpcInv.
From S2P Require Import KAuth.

(** ** The first checks only read the state *)
Lemma pure_call_class c f v : pure (call_class c f v).
Proof. unfold call_class, check_promiscuous. pure_tac. Qed.
Lemma pure_call_src_dst f e : pure (call_src_dst f e).
Proof. unfold call_src_dst. pure_tac. Qed.

(** ** The permission checks *)
Lemma call_class_guest s c rc f v :
  procs s !! c = Some rc → p_vmid rc ≠ VM0 →
  f ∈ [SENDAS; RECVAS; NOTIFYAS; SENDVM; RECVVM; SENDRECVM; NOTIFYVM] →
  call_class (Some c) f v s = Ret (Some EPERM) s.
Proof.
  intros Hrc Hv Hf. unfold call_class. rewrite (bind_getp s c rc) by done.
  unfold check_proxy, check_promiscuous. apply Z.eqb_neq in Hv.
  rewrite !list_elem_of_cons in Hf || rewrite !elem_of_cons in Hf.
  destruct Hf as [->|[->|[->|[->|[->|[->|[->|Hf]]]]]]]; [..|set_solver]; cbn;
    rewrite ?Hv; try done; rewrite (bind_getp s c rc) by done; by rewrite Hv.
Qed.

Lemma call_class_not_proxy s c rc f v :
  procs s !! c = Some rc → band (p_misc_flags rc) PROXY_SERVER = false →
  f ∈ [SENDAS; RECVAS; NOTIFYAS] →
  call_class (Some c) f v s = Ret (Some EPERM) s.
Proof.
  intros Hrc Hp Hf. unfold call_class. rewrite (bind_getp s c rc) by done.
  unfold check_proxy. rewrite Hp, !elem_of_cons in *.
  destruct Hf as [->|[->|[->|Hf]]]; [..|set_solver]; cbn; by case_match.
Qed.

Lemma check_proxy_neg c e : check_proxy c = Some e → e < 0.
Proof. unfold check_proxy. repeat case_match; by intros [= <-]. Qed.

Lemma check_promiscuous_neg c f v s e s' :
  check_promiscuous c f v s = Ret (Some e) s' → e < 0.
Proof.
  unfold check_promiscuous. intros H. minv H. case_match; [by injection H as <- _|].
  case_match; [|done]. case_match; [by injection H as <- _|].
  minv H. case_match; [by injection H as <- _|].
  minv H. case_match; [by injection H as <- _|done].
Qed.

Lemma call_class_err c f v s e s' :
  f ≠ HDEBUG → f ≠ PRTMSG → call_class c f v s = Ret (Some e) s' → e < 0.
Proof.
  intros H1%Z.eqb_neq H2%Z.eqb_neq H. unfold call_class in H. minv H.
  rewrite H1, H2 in H. case_match; [|case_match; [|case_match]].
  - apply (check_proxy_neg a). by injection H.
  - by eapply check_promiscuous_neg.
  - done.
  - by injection H as <- _.
Qed.

Lemma call_checks_trap s c rc pa pr f d m :
  procs s !! c = Some rc → p_priv rc = Some pa → privs s !! pa = Some pr →
  band (s_trap_mask pr) (Z.shiftl 1 f) = false →
  call_checks (Some c) f d m s = Ret (Some ETRAPDENIED) s.
Proof.
  intros Hrc Hpa Hpr Hm. unfold call_checks, priv_of. mrun. rewrite Hpa. mrun.
  by rewrite Hm.
Qed.

(** ** Properties *)

(** C13. No IPC call changes who a process is or what it may do: [sys_call] leaves
    every process its number, endpoint, name, privilege structure, memory map and proxied VM, every
    privilege structure its owner, flags and masks, every VM its state, and every process but the
    kernel tasks, whose VM is that of the request they serve, its VM.  (The tables of the kernel are
    apart from the memory that messages are written to: that they can be hit by a call with a buffer
    address that nobody checks is not ruled out by this.) *)
Theorem sys_call_keeps_authority s call_nr e m b r s' :
  sys_call call_nr e m b s = Ret r s' →
  identity <$> procs s' = identity <$> procs s ∧
  rights <$> privs s' = rights <$> privs s ∧ vms s' = vms s ∧ proc_ptr s' = proc_ptr s ∧
  ∀ a, p_vmid <$> procs s' !! a = p_vmid <$> procs s !! a ∨ system_task s a.
Proof. intros H. by destruct (authority_sys_call call_nr e m b s r s' H) as (? & ? & ? & ? & _ & _ & ?). Qed.

Theorem sys_call_keeps_authority_witness :
  ∃ s', sys_call SEND 21 4096 0 (demo (1, 20)) = Ret OK s' ∧
        identity <$> procs s' = identity <$> demo_procs.
Proof.
  exists (in_state (sys_call SEND 21 4096 0 (demo (1, 20))) (demo (1, 20))).
  assert (H : sys_call SEND 21 4096 0 (demo (1, 20)) =
    Ret OK (in_state (sys_call SEND 21 4096 0 (demo (1, 20))) (demo (1, 20))))
    by (vm_compute; reflexivity).
  split; [exact H|]. exact (proj1 (sys_call_keeps_authority _ _ _ _ _ _ _ H)).
Defined.

(** A process inside a VM cannot use the calls of the hypervisor, and only a
    proxy can speak for a virtual task: the call is refused with [EPERM] and has no
    effect at all. *)
Theorem sys_call_denied s c rc call_nr e m b :
  current s c rc →
  let f := Z.land call_nr SYSCALL_FUNC in
  (p_vmid rc ≠ VM0 ∧ f ∈ [SENDAS; RECVAS; NOTIFYAS; SENDVM; RECVVM; SENDRECVM; NOTIFYVM]) ∨
  (band (p_misc_flags rc) PROXY_SERVER = false ∧ f ∈ [SENDAS; RECVAS; NOTIFYAS]) →
  sys_call call_nr e m b s = Ret EPERM s.
Proof.
  intros [Hc Hrc] f Hf. unfold sys_call. rewrite bind_get, Hc. cbv zeta. fold f.
  destruct Hf as [[Hv Hf]|[Hp Hf]].
  - by rewrite (bind_Ret _ _ _ _ _ (call_class_guest s c rc f _ Hrc Hv Hf)).
  - by rewrite (bind_Ret _ _ _ _ _ (call_class_not_proxy s c rc f _ Hrc Hp Hf)).
Qed.

Theorem sys_call_denied_witness :
  sys_call SENDVM 21 4096 1 (demo (1, 20)) = Ret EPERM (demo (1, 20)) ∧
  sys_call RECVAS ANY 4096 5 (demo (0, 20)) = Ret EPERM (demo (0, 20)).
Proof.
  split.
  - apply (sys_call_denied (demo (1, 20)) (1, 20) (proc_at (demo (1, 20)) (1, 20)) SENDVM).
    + split; vm_compute; reflexivity.
    + left. split; [vm_compute; discriminate|]. apply (bool_decide_eq_true_1 _). vm_compute. reflexivity.
  - apply (sys_call_denied (demo (0, 20)) (0, 20) (proc_at (demo (0, 20)) (0, 20)) RECVAS).
    + split; vm_compute; reflexivity.
    + right. split; [vm_compute; reflexivity|]. apply (bool_decide_eq_true_1 _). vm_compute. reflexivity.
Defined.

(** The trap mask: a call whose bit is not in the caller's mask never takes
    effect; whatever its arguments, it ends with an error in an unchanged state. *)
Theorem sys_call_trap_mask s c rc pa pr call_nr e m b r s' :
  current s c rc → p_priv rc = Some pa → privs s !! pa = Some pr →
  let f := Z.land call_nr SYSCALL_FUNC in
  f ≠ HDEBUG → f ≠ PRTMSG → band (s_trap_mask pr) (Z.shiftl 1 f) = false →
  sys_call call_nr e m b s = Ret r s' → s' = s ∧ r < 0.
Proof.
  intros [Hc Hrc] Hpa Hpr f Hd Hp Hm. unfold sys_call. rewrite bind_get, Hc. cbv zeta. fold f.
  intros H. apply bind_inv in H as (cl & s1 & Hcl & H).
  pose proof (pure_call_class _ _ _ _ _ _ Hcl) as <-. destruct cl as [e1|].
  { injection H as <- <-. split; [done|]. by eapply call_class_err. }
  apply bind_inv in H as (sd & s2 & Hsd & H).
  pose proof (pure_call_src_dst _ _ _ _ _ Hsd) as <-. destruct sd as [d|].
  2:{ by injection H as <- <-. }
  rewrite (bind_Ret _ _ _ _ _ (call_checks_trap s c rc pa pr f d m Hrc Hpa Hpr Hm)) in H.
  by injection H as <- <-.
Qed.

(** Process 20 of VM1 may only use SENDREC. *)
Definition masked_state : kstate :=
  let s := demo (1, 20) in
  s.[privs := <[(1, 0) := (mk_priv NONE 0 1 0).[s_trap_mask := Z.shiftl 1 SENDREC]]> (privs s)].

Theorem sys_call_trap_mask_witness :
  sys_call SEND 21 4096 0 masked_state = Ret ETRAPDENIED masked_state ∧
  masked_state = masked_state ∧ ETRAPDENIED < 0.
Proof.
  assert (H : sys_call SEND 21 4096 0 masked_state = Ret ETRAPDENIED masked_state)
    by (vm_compute; reflexivity).
  split; [exact H|].
  apply (sys_call_trap_mask masked_state (1, 20) (proc_at masked_state (1, 20)) (1, 0)
           ((mk_priv NONE 0 1 0).[s_trap_mask := Z.shiftl 1 SENDREC]) SEND 21 4096 0).
  - split; vm_compute; reflexivity.
  - vm_compute. reflexivity.
  - vm_compute. reflexivity.
  - vm_compute. discriminate.
  - vm_compute. discriminate.
  - vm_compute. reflexivity.
  - exact H.
Defined.

(** The masks of the other three checks are left at zero, so a call is only
    ever stopped by the trap mask or the rule on kernel tasks: a bad message
    pointer, a forbidden destination and a deadlock are never reported. *)
Theorem call_checks_only_trap c f d m s e s' :
  call_checks c f d m s = Ret (Some e) s' → e = ETRAPDENIED ∧ s' = s.
Proof.
  unfold call_checks. intros H. apply bind_inv in H as (rc & s1 & H1 & H).
  apply pure_getp in H1 as <-. apply bind_inv in H as (pr & s1 & H1 & H).
  apply pure_priv_of in H1 as <-. case_match; [by injection H as <- <-|].
  replace (band f check_ptr) with false in H.
  2:{ unfold band, check_ptr. by rewrite Z.land_0_r. }
  replace (band f check_dest) with false in H.
  2:{ unfold band, check_dest. by rewrite Z.land_0_r. }
  cbn in H. discriminate H.
Qed.

Theorem call_checks_only_trap_witness :
  call_checks (Some (1, 20)) SEND SYSTEM 0 (demo (1, 20)) = Ret (Some ETRAPDENIED) (demo (1, 20)) ∧
  ETRAPDENIED = ETRAPDENIED ∧ demo (1, 20) = demo (1, 20).
Proof.
  assert (H : call_checks (Some (1, 20)) SEND SYSTEM 0 (demo (1, 20)) =
    Ret (Some ETRAPDENIED) (demo (1, 20))) by (vm_compute; reflexivity).
  split; [exact H|]. exact (call_checks_only_trap _ _ _ _ _ _ _ H).
Defined.
