(* ===== verification/KClock.v ===== *)
(** * The clock task: ticks, tokens, alarms and load

    [src/kernel/clock.c], [balance_queues] of [src/kernel/proc.c] and the alarm
    call of [src/kernel/system/do_setalarm.c].  Port I/O is left out, and so are
    the statistics compiled only with [MHSCHED_STATS]. *)
From stdpp Require Import base gmap list numbers strings.
From Stdlib Require Import ZArith Lia.
From S2P Require Import Prelude.
From S2P Require Import Timers.
From S2P Require Import KTypes.
From S2P Require Import KProc.
From S2P Require Import KSched.
From S2P Require Import KIpcSend.
From S2P Require Import KSysCall.

(** ** Timers of the clock task *)
Definition CAUSE_ALARM : Z := 1.

Definition set_timer (tp : Z * Z) (exp_time watchdog : Z) : K unit :=
  tmrs_settimer tp exp_time watchdog;;;
  let* h := tload TmrHead in
  match h with
  | None => crash
  | Some t => let* r := gett t in modify (λ s, s.[next_timeout := tmr_exp_time r])
  end.

(** [next_timeout = clock_timers == NULL ? TMR_NEVER : clock_timers->tmr_exp_time]. *)
Definition update_timeout : K unit :=
  let* h := tload TmrHead in
  match h with
  | None => modify (λ s, s.[next_timeout := TMR_NEVER])
  | Some t => let* r := gett t in modify (λ s, s.[next_timeout := tmr_exp_time r])
  end.

Definition reset_timer (tp : Z * Z) : K unit :=
  tmrs_clrtimer tp;;; update_timeout.

(** ** Alarms *)

(** The watchdog of an alarm: a notification from CLOCK, on the process's VM. *)
Definition cause_alarm (tp : Z * Z) : K unit :=
  let* s := get in
  let saved_vm := running_vm s in
  let* t := gett tp in
  let* r := getp (tmr_arg t) in
  modify (λ s, s.[running_vm := p_vmid r]);;;
  putp (clock_ptr s) (λ c, c.[p_vmid := p_vmid r]);;;
  putp (systask_ptr s) (λ c, c.[p_vmid := p_vmid r]);;;
  raw_notify CLOCK (p_nr r);;;
  modify (λ s, s.[running_vm := saved_vm]);;;
  putp (clock_ptr s) (λ c, c.[p_vmid := saved_vm]);;;
  putp (systask_ptr s) (λ c, c.[p_vmid := saved_vm]).

Definition watchdog (f : Z) (tp : Z * Z) : K unit :=
  if f =? CAUSE_ALARM then cause_alarm tp else crash.

(** [do_setalarm]; [who_p] is the requesting process.  The message words are
    [ALRM_ABS_TIME] ([m_w1]) and [ALRM_EXP_TIME], [ALRM_TIME_LEFT] ([m_w3]). *)
Definition do_setalarm (who_p : Z) (m : message) : K (Z * message) :=
  let exp_time := m_w3 m in
  let use_abs_time := m_w1 m in
  let* rp := proc_addr who_p in
  let* pr := priv_of rp in
  if negb (band (s_flags pr) SYS_PROC) then ret (EPERM, m)
  else
    let* r := getp rp in
    let* tp := of_option (p_priv r) in
    putt tp (λ t, t.[tmr_arg := rp].[tmr_func := CAUSE_ALARM]);;;
    let* uptime := get_uptime in
    let* t := gett tp in
    let m := m.[m_w3 := if negb (tmr_exp_time t =? TMR_NEVER) && (uptime <? tmr_exp_time t)
                        then s32 (tmr_exp_time t - uptime) else 0] in
    (if exp_time =? 0 then reset_timer tp
     else
       let* now := get_uptime in
       let exp := if negb (use_abs_time =? 0) then exp_time else s32 (exp_time + now) in
       putt tp (λ t, t.[tmr_exp_time := exp]);;;
       set_timer tp exp CAUSE_ALARM);;;
    ret (OK, m).

(** ** [balance_queues] returns at once in the hypervisor *)
Definition balance_queues : K unit := skip.

(** ** [do_clocktick] *)

(** The circular search for another VM that runs and has tokens: the bits left
    of [bm] and the new [nvm_tokens]. *)
Definition next_vm_step : Z * Z → K (Z * Z + Z * Z) := λ '(bm, nx_vm),
  if bm =? 0 then ret (inr (bm, 0))
  else
    let nx_vm := if nx_vm =? NR_VMS - 1 then VM0 + 1 else nx_vm + 1 in
    if band bm (Z.shiftl 1 nx_vm) then
      let* nvm := getvm nx_vm in
      if 0 <? vm_tokens nvm then
        let* s := get in
        if negb (next_vm s =? nx_vm) then
          modify (λ s, s.[next_vm := nx_vm]);;;
          ret (inr (bm, if TICKS_TO_SWITCH <? vm_tokens nvm
                        then TICKS_TO_SWITCH else vm_tokens nvm))
        else ret (inr (bm, 0))
      else ret (inl (bclr bm (Z.shiftl 1 nx_vm), nx_vm))
    else ret (inl (bm, nx_vm)).

(** Every VM is visited once before the search comes back to its start. *)
Definition vm_fuel : nat := 5.

Definition switch_next_vm : K unit :=
  let* s := get in
  let bm := bclr (VM_bitmap s) (Z.lor (Z.shiftl 1 VM0) (Z.shiftl 1 (next_vm s))) in
  let* '(bm, nvm_tokens) := loop vm_fuel next_vm_step (bm, next_vm s) in
  if bm =? 0 then
    modify (λ s, s.[next_vm := VM0]);;;
    modify (λ s, s.[switch_vm := TICKS_TO_SWITCH])
  else modify (λ s, s.[switch_vm := nvm_tokens]).

(** The refill of the token buckets, when VM0 holds them all. *)
Definition refill_tokens : K unit :=
  let* vm0 := getvm VM0 in
  when (vm_tokens vm0 =? MAXTOKENS)
    (for_list (zrange (VM0 + 1) NR_VMS) (λ i,
       let* rvm := getvm i in
       when (vm_flags rvm =? VM_RUNNING)
         (putvm i (λ v, v.[vm_tokens := vm_bsize v]);;;
          putvm VM0 (λ v, v.[vm_tokens := s32 (vm_tokens v - vm_bsize rvm)])))).

Definition do_clocktick : K Z :=
  let* s := get in
  when (switch_vm s <=? 0) switch_next_vm;;;
  refill_tokens;;;
  let* pp := getp (prev_ptr s) in
  (if p_ticks_left pp <=? 0 then
     let* pr := priv_of (prev_ptr s) in
     when (band (s_flags pr) PREEMPTIBLE)
       (lock_dequeue (prev_ptr s);;; lock_enqueue (prev_ptr s))
   else skip);;;
  let* s := get in
  when (next_timeout s <=? realtime s)
    (tmrs_exptimers watchdog (tm_fuel s) (realtime s);;; update_timeout);;;
  ret EDONTREPLY.

(** ** [load_update] *)
Definition LOAD_UNIT_SECS : Z := 6.
Definition LOAD_HISTORY : Z := 150.

Definition count_step : ptr * Z → K (ptr * Z + Z) := λ '(p, n),
  match p with
  | None => ret (inr n)
  | Some _ => let* r := getp p in ret (inl (p_nextready r, n + 1))
  end.

Fixpoint count_ready (qs : list Z) (n : Z) : K Z :=
  match qs with
  | [] => ret n
  | q :: qs =>
      let* p := load (RdyHead q) in
      let* n := loop list_fuel count_step (p, n) in
      count_ready qs n
  end.

(** [kloadinfo] is the load information of the running VM. *)
Definition load_update : K unit :=
  let* s := get in
  let slot := u16 (Z.rem (realtime s ÷ HZ ÷ LOAD_UNIT_SECS) LOAD_HISTORY) in
  let* vm := getvm (running_vm s) in
  when (negb (slot =? proc_last_slot (vm_kloadinfo vm)))
    (let* h := of_option (aset (proc_load_history (vm_kloadinfo vm)) slot 0) in
     putvm (running_vm s) (λ v,
       v.[vm_kloadinfo := (vm_kloadinfo v).[proc_load_history := h].[proc_last_slot := slot]]));;;
  let* enqueued := count_ready (zrange 0 NR_SCHED_QUEUES) (-1) in
  let* vm := getvm (running_vm s) in
  let* n := of_option (aget (proc_load_history (vm_kloadinfo vm)) slot) in
  let* h := of_option (aset (proc_load_history (vm_kloadinfo vm)) slot (u16 (n + enqueued))) in
  putvm (running_vm s) (λ v,
    v.[vm_kloadinfo := (vm_kloadinfo v).[proc_load_history := h].[last_clock := realtime s]]).

(** ** [clock_handler] *)

(** One token of the running VM goes back to VM0, and the time of [next_vm] is
    counted. *)
Definition take_token : K unit :=
  let* s := get in
  let* cur := getp (proc_ptr s) in
  let vmid := p_vmid cur in
  let* rvm := getvm vmid in
  when (0 <? vm_tokens rvm)
    (putvm vmid (λ v, v.[vm_tokens := s32 (vm_tokens v - 1)]);;;
     putvm VM0 (λ v, v.[vm_tokens := s32 (vm_tokens v + 1)]));;;
  when (vmid =? next_vm s) (modify (λ s, s.[switch_vm := s32 (switch_vm s - 1)])).

Definition charge_user (r : proc) (ticks : Z) : proc :=
  r.[p_user_time := s32 (p_user_time r + ticks)].

Definition account (ticks : Z) : K unit :=
  let* s := get in
  let* cur := getp (proc_ptr s) in
  (if p_nr cur =? SYSTEM
   then putp (Some (p_vmid cur, SYSTEM)) (λ r, charge_user r ticks)
   else putp (proc_ptr s) (λ r, charge_user r ticks));;;
  putvm (p_vmid cur) (λ v, v.[vm_time := s32 (vm_time v + 1)]);;;
  (if (VM0 <? p_vmid cur) && (HARDWARE <? p_nr cur) then
     let* vm := getvm (p_vmid cur) in
     let* ld_ptr := proc_addr_vm VM0 (ENDPOINT_P (vm_vmm_endpoint vm)) in
     putp ld_ptr (λ r, charge_user r ticks)
   else skip);;;
  let* pr := priv_of (proc_ptr s) in
  when (band (s_flags pr) PREEMPTIBLE)
    (putp (proc_ptr s) (λ r, r.[p_ticks_left := s8 (p_ticks_left r - ticks)]));;;
  when (negb (band (s_flags pr) BILLABLE))
    (putp (bill_ptr s) (λ r,
       r.[p_sys_time := s32 (p_sys_time r + ticks)]
        .[p_ticks_left := s8 (p_ticks_left r - ticks)])).

Definition clock_handler : K Z :=
  take_token;;;
  let* s := get in
  let ticks := u32 (lost_ticks s + 1) in
  modify (λ s, s.[lost_ticks := 0].[realtime := s32 (realtime s + ticks)]);;;
  account ticks;;;
  load_update;;;
  let* s := get in
  let* cur := getp (proc_ptr s) in
  let* vm0 := getvm VM0 in
  when ((next_timeout s <=? realtime s) || (p_ticks_left cur <=? 0)
        || (switch_vm s <=? 0) || (vm_tokens vm0 =? MAXTOKENS))
    (modify (λ s, s.[prev_ptr := proc_ptr s].[running_vm := VM0]);;;
     raw_notify HARDWARE CLOCK;;;
     modify (λ s, s.[running_vm := p_vmid cur]));;;
  ret 1.
