(* ===== verification/KClockThms.v ===== *)
(** * Properties of the clock task *)
From stdpp Require Import base gmap list numbers strings.
From Stdlib Require Import ZArith Lia.
From S2P Require Import Prelude.
From S2P Require Import Chains.
From S2P Require Import Timers.
From S2P Require Import TimersThms.
From S2P Require Import KTypes.
From S2P Require Import KProc.
From S2P Require Import KSched.
From S2P Require Import KIpcSend.
From S2P Require Import KSysCall.
From S2P Require Import KStep.
From S2P Require Import KReady.
From S2P Require Import KSchedOps.
From S2P Require Import KAuth.
From S2P Require Import KClock.

(** ** Token conservation *)
Definition tokens_of (s : kstate) (i : Z) : Z :=
  match vms s !! i with Some v => vm_tokens v | None => 0 end.
Definition bsize_of (s : kstate) (i : Z) : Z :=
  match vms s !! i with Some v => vm_bsize v | None => 0 end.

(** All buckets together hold [MAXTOKENS], none is negative, and the bucket sizes
    of the guests fit. *)
Definition tokens_ok (s : kstate) : Prop :=
  (∀ i, is_Some (vms s !! i) → 0 <= i < NR_VMS) ∧
  (∀ i, 0 <= i < NR_VMS → 0 <= tokens_of s i ∧ 0 <= bsize_of s i) ∧
  tokens_of s 0 + tokens_of s 1 + tokens_of s 2 + tokens_of s 3 = MAXTOKENS ∧
  bsize_of s 1 + bsize_of s 2 + bsize_of s 3 <= MAXTOKENS.

Definition keeps_tokens (s s' : kstate) : Prop := tokens_ok s → tokens_ok s'.
#[export] Instance keeps_tokens_preorder : PreOrder keeps_tokens.
Proof. split; [by intros s Hs|]. intros s1 s2 s3. unfold keeps_tokens. tauto. Qed.

Definition bucket (v : vm_struct) : Z * Z := (vm_tokens v, vm_bsize v).

Lemma keeps_tokens_vms s s' :
  bucket <$> vms s' = bucket <$> vms s →
  keeps_tokens s s'.
Proof.
  intros H.
  assert (Ht : ∀ i, tokens_of s' i = tokens_of s i ∧ bsize_of s' i = bsize_of s i).
  { intros i. apply (f_equal (lookup i)) in H. rewrite !lookup_fmap in H.
    unfold tokens_of, bsize_of. destruct (vms s' !! i), (vms s !! i); try done.
    apply (inj Some) in H.
    exact (conj (f_equal fst H) (f_equal snd H)). }
  intros (Hdom & Hnn & Hsum & Hb). unfold tokens_ok.
  destruct (Ht 0) as [-> _], (Ht 1) as [-> ->], (Ht 2) as [-> ->], (Ht 3) as [-> ->].
  split; [|split; [|done]].
  - intros i Hi. apply Hdom. apply (f_equal (lookup i)) in H. rewrite !lookup_fmap in H.
    destruct (vms s !! i); [done|]. destruct Hi as [v Hi]. by rewrite Hi in H.
  - intros i Hi. destruct (Ht i) as [-> ->]. auto.
Qed.

Lemma authority_keeps {A} (m : K A) : pres authority m → pres keeps_tokens m.
Proof.
  intros H s a s' Hm. apply keeps_tokens_vms. destruct (H s a s' Hm) as (_ & _ & -> & _). done.
Qed.

Lemma keeps_putp p f : pres keeps_tokens (putp p f).
Proof.
  intros s a s'. unfold putp. destruct p as [b|]; [|done].
  destruct (procs s !! b); [|done]. intros [= _ <-]. by apply keeps_tokens_vms.
Qed.
Lemma keeps_modify f : (∀ s, vms (f s) = vms s) → pres keeps_tokens (modify f).
Proof. intros H. apply pres_modify. intros s. apply keeps_tokens_vms. by rewrite H. Qed.
Lemma keeps_putvm v f :
  (∀ r, vm_tokens (f r) = vm_tokens r ∧ vm_bsize (f r) = vm_bsize r) →
  pres keeps_tokens (putvm v f).
Proof.
  intros Hf s a s'. unfold putvm. destruct (vms s !! v) as [r|] eqn:Hr; [|done].
  intros [= _ <-]. apply keeps_tokens_vms. cbn. rewrite fmap_insert.
  assert (bucket (f r) = bucket r) as -> by (unfold bucket; by destruct (Hf r) as [-> ->]).
  rewrite <-fmap_insert. by rewrite insert_id.
Qed.

#[export] Hint Resolve keeps_putp : pres.
#[export] Hint Extern 2 (pres keeps_tokens (modify _)) => apply keeps_modify; done : pres.
#[export] Hint Extern 2 (pres keeps_tokens (putvm _ _)) => apply keeps_putvm; done : pres.
#[export] Hint Extern 3 (pres keeps_tokens (getp _)) => apply authority_keeps : pres.
#[export] Hint Extern 3 (pres keeps_tokens (getvm _)) => apply authority_keeps : pres.
#[export] Hint Extern 3 (pres keeps_tokens (load _)) => apply authority_keeps : pres.
#[export] Hint Extern 3 (pres keeps_tokens (priv_of _)) => apply authority_keeps : pres.
#[export] Hint Extern 3 (pres keeps_tokens (proc_addr_vm _ _)) => apply authority_keeps : pres.

Lemma tokens_of_insert s i j v :
  tokens_of (s.[vms := <[i := v]> (vms s)]) j = if decide (i = j) then vm_tokens v else tokens_of s j.
Proof.
  unfold tokens_of. cbn. case_decide as H; [by rewrite H, lookup_insert_eq|].
  by rewrite lookup_insert_ne.
Qed.
Lemma bsize_of_insert s i j v :
  bsize_of (s.[vms := <[i := v]> (vms s)]) j = if decide (i = j) then vm_bsize v else bsize_of s j.
Proof.
  unfold bsize_of. cbn. case_decide as H; [by rewrite H, lookup_insert_eq|].
  by rewrite lookup_insert_ne.
Qed.

Lemma s32_tokens z : - MAXTOKENS <= z <= MAXTOKENS + 1 → s32 z = z.
Proof. unfold MAXTOKENS. intros H. apply s32_id. lia. Qed.

Lemma tokens_bound s i : tokens_ok s → 0 <= i < NR_VMS → 0 <= tokens_of s i <= MAXTOKENS.
Proof.
  intros (_ & Hnn & Hsum & _) Hi. pose proof (Hnn 0 ltac:(done)).
  pose proof (Hnn 1 ltac:(done)). pose proof (Hnn 2 ltac:(done)). pose proof (Hnn 3 ltac:(done)).
  assert (i = 0 ∨ i = 1 ∨ i = 2 ∨ i = 3) as [->|[->|[->| ->]]]
    by (unfold NR_VMS in Hi; lia); lia.
Qed.

(** Moving one token from a VM to VM0. *)
Lemma tokens_ok_move s i v v0 :
  tokens_ok s → vms s !! i = Some v → 0 < vm_tokens v →
  let s1 := s.[vms := <[i := v.[vm_tokens := s32 (vm_tokens v - 1)]]> (vms s)] in
  vms s1 !! VM0 = Some v0 →
  tokens_ok (s1.[vms := <[VM0 := v0.[vm_tokens := s32 (vm_tokens v0 + 1)]]> (vms s1)]).
Proof.
  intros Hok Hv Hpos s1. unfold VM0. intros Hv0.
  pose proof (λ i, tokens_bound s i Hok) as Hbound.
  destruct Hok as (Hdom & Hnn & Hsum & Hb).
  assert (Hi : 0 <= i < NR_VMS) by (apply Hdom; eauto).
  assert (Hti : tokens_of s i = vm_tokens v) by (unfold tokens_of; by rewrite Hv).
  assert (Hbi : bsize_of s i = vm_bsize v) by (unfold bsize_of; by rewrite Hv).
  assert (Ht0 : tokens_of s1 0 = vm_tokens v0) by (unfold tokens_of; by rewrite Hv0).
  assert (Hb0 : bsize_of s1 0 = vm_bsize v0) by (unfold bsize_of; by rewrite Hv0).
  pose proof (Hbound i Hi). pose proof (Hbound 0 ltac:(done)).
  unfold s1 in Ht0, Hb0. rewrite tokens_of_insert in Ht0. rewrite bsize_of_insert in Hb0.
  cbn [vm_tokens vm_bsize fupd] in Ht0, Hb0.
  assert (H32 : s32 (vm_tokens v - 1) = vm_tokens v - 1).
  { apply s32_tokens. lia. }
  change (vm_tokens (v.[vm_tokens := s32 (vm_tokens v - 1)])) with (s32 (vm_tokens v - 1)) in Ht0.
  change (vm_bsize (v.[vm_tokens := s32 (vm_tokens v - 1)])) with (vm_bsize v) in Hb0.
  rewrite H32 in Ht0.
  assert (H320 : s32 (vm_tokens v0 + 1) = vm_tokens v0 + 1).
  { apply s32_tokens. rewrite <-Ht0. case_decide; lia. }
  assert (Hall : ∀ j, tokens_of (s1.[vms := <[0 := v0.[vm_tokens := s32 (vm_tokens v0 + 1)]]> (vms s1)]) j =
    tokens_of s j - (if decide (i = j) then 1 else 0) + (if decide (0 = j) then 1 else 0)).
  { intros j. rewrite tokens_of_insert.
    change (vm_tokens (v0.[vm_tokens := s32 (vm_tokens v0 + 1)])) with (s32 (vm_tokens v0 + 1)).
    rewrite H320, <-Ht0. unfold s1. rewrite tokens_of_insert.
    change (vm_tokens (v.[vm_tokens := s32 (vm_tokens v - 1)])) with (s32 (vm_tokens v - 1)).
    rewrite H32. assert (i = j → tokens_of s j = vm_tokens v) by (intros <-; done).
    assert (0 = j → tokens_of s j = tokens_of s 0) by (by intros <-).
    repeat case_decide; lia. }
  assert (Hballl : ∀ j, bsize_of (s1.[vms := <[0 := v0.[vm_tokens := s32 (vm_tokens v0 + 1)]]> (vms s1)]) j =
    bsize_of s j).
  { intros j. rewrite bsize_of_insert.
    change (vm_bsize (v0.[vm_tokens := s32 (vm_tokens v0 + 1)])) with (vm_bsize v0).
    rewrite <-Hb0. unfold s1. rewrite bsize_of_insert.
    change (vm_bsize (v.[vm_tokens := s32 (vm_tokens v - 1)])) with (vm_bsize v).
    assert (i = j → bsize_of s j = vm_bsize v) by (intros <-; done).
    assert (0 = j → bsize_of s j = bsize_of s 0) by (by intros <-).
    repeat case_decide; lia. }
  split; [|split; [|split]].
  - intros j. cbn. destruct (decide (0 = j)) as [<-|]; [done|].
    rewrite lookup_insert_ne by done.
    destruct (decide (i = j)) as [<-|]; [done|]. rewrite lookup_insert_ne by done. apply Hdom.
  - intros j Hj. rewrite Hall, Hballl. destruct (Hnn j Hj). split; [|done].
    assert (i = j → tokens_of s j = vm_tokens v) by (intros <-; done).
    repeat case_decide; lia.
  - rewrite !Hall. unfold NR_VMS in Hi. repeat case_decide; lia.
  - by rewrite !Hballl.
Qed.

Lemma keeps_take_token : pres keeps_tokens take_token.
Proof.
  intros s u s' Hrun Hok. unfold take_token in Hrun. rewrite bind_get in Hrun.
  unfold getp in Hrun at 1. unfold bind at 1 in Hrun.
  destruct (proc_ptr s) as [c|]; [|done]. destruct (procs s !! c) as [cur|]; [|done].
  cbv zeta in Hrun. unfold bind at 1 in Hrun. unfold getvm at 1 in Hrun.
  destruct (vms s !! p_vmid cur) as [rvm|] eqn:Hv; [|done].
  assert (Hend : ∀ s1 s2, (when (p_vmid cur =? next_vm s)
      (modify (λ s, s.[switch_vm := s32 (switch_vm s - 1)]))) s1 = Ret u s2 →
      tokens_ok s1 → tokens_ok s2).
  { intros s1 s2. unfold when, skip, ret, modify. case_match; intros [= _ <-]; [|done].
    by apply keeps_tokens_vms. }
  destruct (Z.ltb_spec 0 (vm_tokens rvm)) as [Hpos|Hnpos]; cbn [when] in Hrun.
  2:{ rewrite bind_skip in Hrun. by apply Hend in Hrun. }
  rewrite bind_assoc, (bind_putvm s (p_vmid cur) rvm) in Hrun by done.
  set (s1 := s.[vms := _]) in Hrun. unfold bind at 1, putvm at 1 in Hrun.
  destruct (vms s1 !! VM0) as [v0|] eqn:Hv0; [|done].
  apply Hend in Hrun; [done|]. by apply tokens_ok_move.
Qed.

(** Filling the empty bucket of a guest from VM0's. *)
Definition refill_vm (i : Z) : K unit :=
  let* rvm := getvm i in
  when (vm_flags rvm =? VM_RUNNING)
    (putvm i (λ v, v.[vm_tokens := vm_bsize v]);;;
     putvm VM0 (λ v, v.[vm_tokens := s32 (vm_tokens v - vm_bsize rvm)])).

Lemma refill_step s i s' :
  tokens_ok s → 1 <= i < NR_VMS → tokens_of s i = 0 → bsize_of s i <= tokens_of s 0 →
  refill_vm i s = Ret tt s' →
  tokens_ok s' ∧ (∀ j, j ≠ i → j ≠ 0 → tokens_of s' j = tokens_of s j) ∧
  (∀ j, bsize_of s' j = bsize_of s j) ∧ tokens_of s 0 - bsize_of s i <= tokens_of s' 0.
Proof.
  intros Hok Hi Ht Hle. pose proof (tokens_bound s 0 Hok ltac:(done)) as H0.
  destruct Hok as (Hdom & Hnn & Hsum & Hb). pose proof (Hnn i ltac:(unfold NR_VMS in *; lia)).
  unfold refill_vm, getvm, bind at 1. destruct (vms s !! i) as [v|] eqn:Hv; [|done].
  assert (Hbi : bsize_of s i = vm_bsize v) by (unfold bsize_of; by rewrite Hv).
  destruct (vm_flags v =? VM_RUNNING); cbn [when].
  2:{ unfold skip, ret. intros [= <-]. split_and!; try done. lia. }
  rewrite (bind_putvm s i v) by done. unfold putvm, VM0.
  set (s1 := s.[vms := <[i := v.[vm_tokens := vm_bsize v]]> (vms s)]).
  destruct (vms s1 !! 0) as [v0|] eqn:Hv0; [|done]. intros Heq.
  set (s2 := s1.[vms := <[0 := v0.[vm_tokens := s32 (vm_tokens v0 - vm_bsize v)]]> (vms s1)]).
  assert (s' = s2) as -> by (by injection Heq as <-). clear Heq.
  assert (Hv0' : vms s !! 0 = Some v0).
  { cbn in Hv0. by rewrite lookup_insert_ne in Hv0 by lia. }
  assert (Ht0 : tokens_of s 0 = vm_tokens v0) by (unfold tokens_of; by rewrite Hv0').
  assert (Hb0 : bsize_of s 0 = vm_bsize v0) by (unfold bsize_of; by rewrite Hv0').
  assert (H32 : s32 (vm_tokens v0 - vm_bsize v) = vm_tokens v0 - vm_bsize v)
    by (apply s32_tokens; lia).
  assert (Htok : ∀ j, tokens_of s2 j =
    if decide (0 = j) then vm_tokens v0 - vm_bsize v
    else if decide (i = j) then vm_bsize v else tokens_of s j).
  { intros j. unfold s2. rewrite tokens_of_insert.
    change (vm_tokens (v0.[vm_tokens := s32 (vm_tokens v0 - vm_bsize v)]))
      with (s32 (vm_tokens v0 - vm_bsize v)). rewrite H32. unfold s1.
    by rewrite tokens_of_insert. }
  assert (Hbs : ∀ j, bsize_of s2 j = bsize_of s j).
  { intros j. unfold s2. rewrite bsize_of_insert.
    change (vm_bsize (v0.[vm_tokens := s32 (vm_tokens v0 - vm_bsize v)])) with (vm_bsize v0).
    unfold s1. rewrite bsize_of_insert.
    change (vm_bsize (v.[vm_tokens := vm_bsize v])) with (vm_bsize v).
    assert (i = j → bsize_of s j = vm_bsize v) by (by intros <-).
    assert (0 = j → bsize_of s j = vm_bsize v0) by (by intros <-).
    repeat case_decide; lia. }
  split; [|split; [|split; [done|]]].
  - split; [|split; [|split]].
    + intros j. cbn. destruct (decide (0 = j)) as [<-|]; [done|].
      rewrite lookup_insert_ne by done. destruct (decide (i = j)) as [<-|].
      * unfold NR_VMS in *. lia.
      * rewrite lookup_insert_ne by done. apply Hdom.
    + intros j Hj. rewrite Htok, Hbs. destruct (Hnn j Hj). repeat case_decide; lia.
    + rewrite !Htok. unfold NR_VMS in Hi.
      assert (i = 1 ∨ i = 2 ∨ i = 3) as [E|[E|E]] by lia;
        rewrite E in Ht; repeat case_decide; lia.
    + by rewrite !Hbs.
  - intros j ? ?. rewrite Htok. by rewrite !decide_False by congruence.
  - rewrite Htok. case_decide; [lia|done].
Qed.

Lemma keeps_refill : pres keeps_tokens refill_tokens.
Proof.
  intros s u s'. unfold refill_tokens, getvm at 1, bind at 1.
  destruct (vms s !! VM0) as [v0|] eqn:Hv0; [|done].
  destruct (Z.eqb_spec (vm_tokens v0) MAXTOKENS) as [Hmax|]; cbn [when];
    [|intros [= _ <-]; by intros Hok].
  change (zrange (VM0 + 1) NR_VMS) with [1; 2; 3]. cbn [for_list].
  fold (refill_vm 1) (refill_vm 2) (refill_vm 3). intros Hrun Hok.
  assert (Ht0 : tokens_of s 0 = MAXTOKENS) by (unfold tokens_of, VM0 in *; by rewrite Hv0).
  pose proof Hok as (_ & Hnn & Hsum & Hb). pose proof (Hnn 1 ltac:(done)).
  pose proof (Hnn 2 ltac:(done)). pose proof (Hnn 3 ltac:(done)).
  apply bind_inv in Hrun as ([] & s1 & Hr1 & Hrun).
  apply bind_inv in Hrun as ([] & s2 & Hr2 & Hrun).
  apply bind_inv in Hrun as ([] & s3 & Hr3 & Hrun). injection Hrun as _ <-.
  destruct (refill_step s 1 s1) as (Hok1 & Ho1 & Hb1 & Hl1); try done; [lia..|].
  destruct (refill_step s1 2 s2) as (Hok2 & Ho2 & Hb2 & Hl2); try done.
  { rewrite Ho1 by done. lia. }
  { rewrite Hb1. lia. }
  destruct (refill_step s2 3 s3) as (Hok3 & _); try done.
  { rewrite Ho2, Ho1 by done. lia. }
  { rewrite Hb2, Hb1. rewrite Hb1 in Hl2. lia. }
Qed.

(** ** Everything a tick does keeps the tokens *)
#[export] Hint Resolve keeps_take_token keeps_refill : pres.
#[export] Hint Extern 3 (pres keeps_tokens (load_tail _)) => apply authority_keeps : pres.
#[export] Hint Extern 3 (pres keeps_tokens (enqueue _)) => apply authority_keeps : pres.
#[export] Hint Extern 3 (pres keeps_tokens (dequeue _)) => apply authority_keeps : pres.
#[export] Hint Extern 3 (pres keeps_tokens (MH_notify _ _)) => apply authority_keeps : pres.
#[export] Hint Extern 3 (pres keeps_tokens (get_proc_addr _)) => apply authority_keeps : pres.
#[export] Hint Extern 3 (pres keeps_tokens (panic _ _)) => apply authority_keeps : pres.

Lemma keeps_gett t : pres keeps_tokens (gett t).
Proof.
  intros s a s'. unfold gett. destruct (tm_store (tq s) !! t); [|done]. intros [= _ <-].
  reflexivity.
Qed.
Lemma keeps_putt t f : pres keeps_tokens (putt t f).
Proof.
  intros s a s'. unfold putt. destruct (tm_store (tq s) !! t); [|done]. intros [= _ <-].
  by apply keeps_tokens_vms.
Qed.
#[export] Hint Resolve keeps_gett keeps_putt : pres.
Lemma keeps_tload x : pres keeps_tokens (tload x).
Proof. unfold tload. presto. Qed.
Lemma keeps_tstore x v : pres keeps_tokens (tstore x v).
Proof. unfold tstore. presto. Qed.
#[export] Hint Resolve keeps_tload keeps_tstore : pres.
Lemma keeps_raw_notify a b : pres keeps_tokens (raw_notify a b).
Proof. unfold raw_notify. presto. Qed.
#[export] Hint Resolve keeps_raw_notify : pres.
Lemma keeps_watchdog f t : pres keeps_tokens (watchdog f t).
Proof. unfold watchdog, cause_alarm. presto. Qed.
Lemma keeps_next_vm_step x : pres keeps_tokens (next_vm_step x).
Proof. unfold next_vm_step. presto. Qed.
Lemma keeps_account t : pres keeps_tokens (account t).
Proof. unfold account. presto. Qed.
Lemma keeps_count_ready qs n : pres keeps_tokens (count_ready qs n).
Proof.
  revert n. induction qs as [|q qs IH]; intros n; cbn [count_ready]; unfold count_step; presto.
Qed.
#[export] Hint Resolve keeps_watchdog keeps_next_vm_step keeps_account keeps_count_ready : pres.
Lemma keeps_load_update : pres keeps_tokens load_update.
Proof. unfold load_update. presto. Qed.
Lemma keeps_switch : pres keeps_tokens switch_next_vm.
Proof. unfold switch_next_vm. presto. Qed.
Lemma keeps_timeout : pres keeps_tokens update_timeout.
Proof. unfold update_timeout. presto. Qed.
Lemma keeps_exptimers n now : pres keeps_tokens (tmrs_exptimers watchdog n now).
Proof. unfold tmrs_exptimers, exp_step, head_time. presto. Qed.
#[export] Hint Resolve keeps_load_update keeps_switch keeps_timeout keeps_exptimers : pres.
Lemma keeps_clock_handler : pres keeps_tokens clock_handler.
Proof. unfold clock_handler. presto. Qed.
Lemma keeps_do_clocktick : pres keeps_tokens do_clocktick.
Proof. unfold do_clocktick, lock_dequeue, lock_enqueue. presto. Qed.

(** ** The next virtual machine *)
Lemma step_done n s : next_vm_step (0, n) s = Ret (inr (0, 0)) s.
Proof. done. Qed.

Definition succ_vm (n : Z) : Z := if n =? NR_VMS - 1 then VM0 + 1 else n + 1.

Lemma step_skip bm n s :
  bm ≠ 0 → band bm (Z.shiftl 1 (succ_vm n)) = false →
  next_vm_step (bm, n) s = Ret (inl (bm, succ_vm n)) s.
Proof.
  intros H0 H. unfold next_vm_step. rewrite (proj2 (Z.eqb_neq _ _) H0).
  unfold succ_vm in *. cbv zeta. by rewrite H.
Qed.

Lemma step_empty bm n s v :
  bm ≠ 0 → band bm (Z.shiftl 1 (succ_vm n)) = true → vms s !! succ_vm n = Some v →
  vm_tokens v <= 0 →
  next_vm_step (bm, n) s = Ret (inl (bclr bm (Z.shiftl 1 (succ_vm n)), succ_vm n)) s.
Proof.
  intros H0 H Hv Ht. unfold next_vm_step. rewrite (proj2 (Z.eqb_neq _ _) H0).
  unfold succ_vm in *. cbv zeta. rewrite H. rewrite (bind_getvm _ _ v) by done.
  by rewrite (proj2 (Z.ltb_ge _ _) Ht).
Qed.

Lemma step_found bm n s v :
  bm ≠ 0 → band bm (Z.shiftl 1 (succ_vm n)) = true → vms s !! succ_vm n = Some v →
  0 < vm_tokens v → next_vm s ≠ succ_vm n →
  next_vm_step (bm, n) s =
  Ret (inr (bm, Z.min TICKS_TO_SWITCH (vm_tokens v))) (s.[next_vm := succ_vm n]).
Proof.
  intros H0 H Hv Ht Hn. unfold next_vm_step. rewrite (proj2 (Z.eqb_neq _ _) H0).
  unfold succ_vm in *. cbv zeta. rewrite H. rewrite (bind_getvm _ _ v) by done.
  rewrite (proj2 (Z.ltb_lt _ _) Ht). rewrite bind_get, (proj2 (Z.eqb_neq _ _) Hn). cbn [negb].
  rewrite bind_modify. unfold ret. do 3 f_equal.
  destruct (Z.ltb_spec TICKS_TO_SWITCH (vm_tokens v)); lia.
Qed.

(** The VMs after [n] in circular order, VM0 and [n] left out. *)
Definition vms_after (n : Z) : list Z :=
  filter (λ i, i ≠ n) (zrange (n + 1) NR_VMS ++ zrange (VM0 + 1) (n + 1)).

Definition eligible (s : kstate) (i : Z) : bool :=
  band (VM_bitmap s) (Z.shiftl 1 i) && (0 <? tokens_of s i).

Fixpoint first_vm (P : Z → bool) (l : list Z) : option Z :=
  match l with [] => None | i :: l => if P i then Some i else first_vm P l end.

(** The round-robin choice: the VM and its ticks. *)
Definition next_choice (s : kstate) : Z * Z :=
  match first_vm (eligible s) (vms_after (next_vm s)) with
  | Some i => (i, Z.min TICKS_TO_SWITCH (tokens_of s i))
  | None => (VM0, TICKS_TO_SWITCH)
  end.

Lemma bind_unfold {S A B} (m : M S A) (k : A → M S B) s :
  bind m k s = match m s with Ret a s' => k a s' | Crash => Crash | Spin => Spin end.
Proof. done. Qed.

Lemma ltb_true a b : a < b → (a <? b) = true.
Proof. apply Z.ltb_lt. Qed.
Lemma ltb_false a b : b <= a → (a <? b) = false.
Proof. apply Z.ltb_ge. Qed.

(** Evaluate the closed parts of the search. *)
Ltac vm_closed :=
  repeat match goal with
  | |- context [band ?a ?b] => let v := eval vm_compute in (band a b) in change (band a b) with v
  | |- context [bclr ?a ?b] => let v := eval vm_compute in (bclr a b) in change (bclr a b) with v
  | |- context [succ_vm ?a] => let v := eval vm_compute in (succ_vm a) in change (succ_vm a) with v
  | |- context [vms_after ?a] => let v := eval vm_compute in (vms_after a) in change (vms_after a) with v
  end.

Ltac vm_steps :=
  vm_closed;
  repeat (rewrite loop_S;
    first
      [ rewrite step_done
      | rewrite step_skip by (vm_compute; congruence)
      | erewrite step_empty by (first [eassumption | vm_compute; congruence])
      | erewrite step_found by (first [eassumption | vm_compute; congruence | cbn; congruence]) ];
    vm_closed; cbv beta iota).

(** Compare with the specification. *)
Ltac vm_fin :=
  cbn [first_vm]; vm_closed;
  repeat (match goal with
    | H : vms _ !! _ = Some _ |- _ => rewrite H
    | H : (0 <? _) = _ |- _ => rewrite H
    end; cbn [andb]; cbv beta iota);
  reflexivity.

Lemma switch_next_vm_run s v1 v2 v3 :
  0 <= VM_bitmap s < 16 → 0 <= next_vm s < NR_VMS →
  vms s !! 1 = Some v1 → vms s !! 2 = Some v2 → vms s !! 3 = Some v3 →
  switch_next_vm s =
  Ret tt (s.[next_vm := fst (next_choice s)].[switch_vm := snd (next_choice s)]).
Proof.
  intros Hbm Hn H1 H2 H3. unfold switch_next_vm. rewrite bind_get. cbv zeta.
  unfold next_choice, eligible, tokens_of. 
  assert (next_vm s = 0 ∨ next_vm s = 1 ∨ next_vm s = 2 ∨ next_vm s = 3) as Hcase
    by (unfold NR_VMS in *; lia).
  assert (In (VM_bitmap s) (zrange 0 16)) as Hin
    by (apply list_elem_of_In, elem_of_zrange; lia).
  change (zrange 0 16) with [0;1;2;3;4;5;6;7;8;9;10;11;12;13;14;15] in Hin.
  unfold vm_fuel. rewrite bind_unfold.
  destruct (Z.ltb_spec 0 (vm_tokens v1)) as [T1|T1], (Z.ltb_spec 0 (vm_tokens v2)) as [T2|T2],
    (Z.ltb_spec 0 (vm_tokens v3)) as [T3|T3].
  all: first [pose proof (ltb_true _ _ T1) as B1|pose proof (ltb_false _ _ T1) as B1].
  all: first [pose proof (ltb_true _ _ T2) as B2|pose proof (ltb_false _ _ T2) as B2].
  all: first [pose proof (ltb_true _ _ T3) as B3|pose proof (ltb_false _ _ T3) as B3].
  all: destruct Hcase as [E|[E|[E|E]]]; rewrite E.
  all: repeat (destruct Hin as [B|Hin]; [symmetry in B; rewrite B; vm_steps; vm_fin|]).
  all: destruct Hin.
Qed.

(** ** The load average *)
Lemma count_queue_run s l : ∀ n x m,
  chain p_nextready (procs s) x l → (length l < n)%nat →
  loop n count_step (x, m) s = Ret (m + Z.of_nat (length l)) s.
Proof.
  induction l as [|a l IH]; intros n x m Hc Hn; (destruct n as [|n]; [cbn in Hn; lia|]);
    rewrite loop_S; unfold count_step.
  - cbn in Hc. subst x. unfold ret. by rewrite Z.add_0_r.
  - destruct Hc as (-> & r & Hr & Hc). rewrite (bind_getp _ _ r) by done.
    etransitivity; [apply (IH n (p_nextready r) (m + 1) Hc); cbn in Hn; lia|].
    f_equal. cbn [length]. lia.
Qed.

(** The count depends on the ready queues alone. *)
Lemma count_ready_run s s1 Q qs n :
  ready_queues s Q → procs s1 = procs s → rdy_head s1 = rdy_head s →
  Forall (λ q, Is_true (rdy_index q)) qs →
  count_ready qs n s1 = Ret (n + Z.of_nat (length (concat (map Q qs)))) s1.
Proof.
  intros HQ Hp Hh. revert n. induction qs as [|q qs IH]; intros n Hqs; cbn [count_ready].
  - unfold ret. by rewrite Z.add_0_r.
  - apply Forall_cons in Hqs as [Hq Hqs]. rewrite load_head_run by done.
    pose proof (rq_chain _ _ HQ q Hq) as Hch. rewrite <-Hp, <-Hh in Hch.
    rewrite (bind_Ret _ _ _ _ _ (count_queue_run s1 (Q q) _ _ _ Hch
      (ready_queue_length _ _ _ HQ))).
    rewrite IH by done. cbn [map concat]. rewrite length_app. f_equal. lia.
Qed.

(** ** Properties *)

(** C40. The search for the next virtual machine always ends.  It takes the first
    VM after [next_vm] in circular order that is active and has tokens, for at
    most [TICKS_TO_SWITCH] ticks, and falls back to VM0 when there is none. *)
Theorem switch_next_vm_round_robin s v1 v2 v3 :
  0 <= VM_bitmap s < 16 → 0 <= next_vm s < NR_VMS →
  vms s !! 1 = Some v1 → vms s !! 2 = Some v2 → vms s !! 3 = Some v3 →
  switch_next_vm s =
  Ret tt (s.[next_vm := fst (next_choice s)].[switch_vm := snd (next_choice s)]).
Proof. apply switch_next_vm_run. Qed.

Theorem switch_next_vm_round_robin_witness :
  next_choice (demo (1, 20)) = (1, 8) ∧
  switch_next_vm (demo (1, 20)) = Ret tt ((demo (1, 20)).[next_vm := 1].[switch_vm := 8]).
Proof.
  split; [vm_compute; reflexivity|].
  apply (switch_next_vm_round_robin (demo (1, 20)) (demo_vm 3 32 32 9 1) (demo_vm VM_FREE 0 0 0 2)
           (demo_vm VM_FREE 0 0 0 3)); [split; vm_compute; congruence|split; vm_compute; congruence|..];
    vm_compute; reflexivity.
Defined.

(** Token conservation: neither the clock interrupt nor the clock task
    creates or destroys tokens; the buckets always hold [MAXTOKENS] together and
    none becomes negative. *)
Theorem tokens_conserved s s' r :
  tokens_ok s → (clock_handler s = Ret r s' ∨ do_clocktick s = Ret r s') → tokens_ok s'.
Proof.
  intros Hok [H|H]; revert Hok.
  - exact (keeps_clock_handler s r s' H).
  - exact (keeps_do_clocktick s r s' H).
Qed.

Theorem tokens_conserved_witness :
  ∃ s', clock_handler (demo (1, 20)) = Ret 1 s' ∧ tokens_ok s' ∧ tokens_of s' 1 = 31.
Proof.
  exists (in_state (clock_handler (demo (1, 20))) (demo (1, 20))).
  split; [vm_compute; reflexivity|]. split; [|vm_compute; reflexivity].
  apply (tokens_conserved (demo (1, 20)) _ 1); [|left; vm_compute; reflexivity].
  split; [|split; [|vm_compute; split; [reflexivity|discriminate]]].
  - intros i Hi. destruct (decide (0 <= i < NR_VMS)) as [H|H]; [exact H|exfalso].
    unfold NR_VMS in H. revert Hi. cbn [vms demo].
    rewrite !lookup_insert_ne by lia. rewrite lookup_singleton_ne by lia.
    intros [x Hx]. discriminate Hx.
  - intros i [H1 H2].
    assert (i = 0 ∨ i = 1 ∨ i = 2 ∨ i = 3) as [->|[->|[->| ->]]] by (unfold NR_VMS in H2; lia);
      vm_compute; split; discriminate.
Defined.

(** The token buckets are never refilled while every VM keeps the flag
    [VM_LOADED] it was started with: the refill compares the flags with
    [VM_RUNNING] alone. *)
Theorem refill_tokens_never s v0 v1 v2 v3 :
  vms s !! VM0 = Some v0 → vms s !! 1 = Some v1 → vms s !! 2 = Some v2 →
  vms s !! 3 = Some v3 →
  Forall (λ v, band (vm_flags v) VM_LOADED = true ∨ vm_flags v = VM_FREE) [v1; v2; v3] →
  refill_tokens s = Ret tt s.
Proof.
  intros H0 H1 H2 H3 Hf. unfold refill_tokens. rewrite (bind_getvm s VM0 v0) by done.
  assert (Hne : ∀ v, v ∈ [v1; v2; v3] → (vm_flags v =? VM_RUNNING) = false).
  { rewrite Forall_forall in Hf. intros v Hv%Hf. apply Z.eqb_neq. intros E.
    rewrite E in Hv. by destruct Hv as [Hv|Hv]. }
  destruct (vm_tokens v0 =? MAXTOKENS); [|done]. cbn [when].
  change (zrange (VM0 + 1) NR_VMS) with [1; 2; 3]. cbn [for_list].
  rewrite bind_assoc, (bind_getvm s 1 v1), (Hne v1) by (done || set_solver). cbn [when].
  rewrite bind_skip, bind_assoc, (bind_getvm s 2 v2), (Hne v2) by (done || set_solver).
  cbn [when].
  rewrite bind_skip, bind_assoc, (bind_getvm s 3 v3), (Hne v3) by (done || set_solver). done.
Qed.

(** All tokens are back at VM0, so that VM1 should get its share. *)
Definition drained : kstate :=
  let s := demo (1, 20) in
  s.[vms := <[0 := demo_vm 3 MAXTOKENS MAXTOKENS 0 0]> (<[1 := demo_vm 3 0 32 9 1]> (vms s))].

Theorem refill_tokens_never_witness :
  tokens_of drained 0 = MAXTOKENS ∧ refill_tokens drained = Ret tt drained.
Proof.
  split; [vm_compute; reflexivity|].
  apply (refill_tokens_never drained (demo_vm 3 MAXTOKENS MAXTOKENS 0 0) (demo_vm 3 0 32 9 1)
           (demo_vm VM_FREE 0 0 0 2) (demo_vm VM_FREE 0 0 0 3)); try (vm_compute; reflexivity).
  constructor; [left; vm_compute; reflexivity|].
  constructor; [right; reflexivity|]. constructor; [right; reflexivity|constructor].
Defined.

(** [load_update] always returns; it adds the number of ready processes,
    IDLE not counted, to the current slot of the running VM's load history, clearing it
    first when it is a new one, and changes nothing else. *)
Theorem load_update_counts s Q vm :
  ready_queues s Q → vms s !! running_vm s = Some vm →
  length (proc_load_history (vm_kloadinfo vm)) = Z.to_nat LOAD_HISTORY →
  0 <= realtime s →
  let slot := u16 (Z.rem (realtime s ÷ HZ ÷ LOAD_UNIT_SECS) LOAD_HISTORY) in
  let n := Z.of_nat (length (concat (map Q (zrange 0 NR_SCHED_QUEUES)))) in
  let old := if slot =? proc_last_slot (vm_kloadinfo vm)
             then aget (proc_load_history (vm_kloadinfo vm)) slot else Some 0 in
  ∃ h, load_update s =
       Ret tt (s.[vms := <[running_vm s :=
                 vm.[vm_kloadinfo := LoadInfo h slot (realtime s)]]> (vms s)]) ∧
    aget h slot = (λ o, u16 (o + (n - 1))) <$> old ∧
    ∀ i, i ≠ slot → aget h i = aget (proc_load_history (vm_kloadinfo vm)) i.
Proof.
  intros HQ Hvm Hlen Hrt slot n old.
  assert (Hslot : 0 <= slot < LOAD_HISTORY).
  { unfold slot. rewrite Z.rem_mod_nonneg; [|apply Z.quot_pos; [apply Z.quot_pos; done|done]|done].
    pose proof (Z.mod_pos_bound (realtime s ÷ HZ ÷ LOAD_UNIT_SECS) LOAD_HISTORY ltac:(done)).
    unfold u16. rewrite Z.mod_small; [done|]. unfold LOAD_HISTORY in *. lia. }
  assert (Hget : ∀ h : list Z, length h = Z.to_nat LOAD_HISTORY →
    (∃ o, aget h slot = Some o) ∧ ∀ x, ∃ h', aset h slot x = Some h').
  { intros h Hh. unfold aget, aset. rewrite (proj2 (Z.leb_le _ _)) by lia. split.
    - destruct (lookup_lt_is_Some_2 h (Z.to_nat slot)) as [o ->]; [lia|eauto].
    - intros x. rewrite (proj2 (Z.ltb_lt _ _)) by lia. cbn [andb]. eauto. }
  assert (Hcount : ∀ s1, procs s1 = procs s → rdy_head s1 = rdy_head s →
    count_ready (zrange 0 NR_SCHED_QUEUES) (-1) s1 = Ret (-1 + n) s1).
  { intros s1 H1 H2. apply (count_ready_run s); try done.
    by apply (bool_decide_eq_true_1 _); vm_compute. }
  destruct (Hget _ Hlen) as [[o Ho] Hset]. unfold load_update. rewrite bind_get. cbv zeta.
  fold slot. rewrite (bind_getvm _ _ vm) by done. unfold old. clear old.
  destruct (Z.eqb_spec slot (proc_last_slot (vm_kloadinfo vm))) as [E|E]; cbn [negb when].
  - destruct (Hset (u16 (o + (-1 + n)))) as [h' Hh']. exists h'. rewrite Ho.
    split; [|split].
    + rewrite bind_skip, (bind_Ret _ _ _ _ _ (Hcount s eq_refl eq_refl)).
      rewrite (bind_getvm _ _ vm), (bind_of_option _ o), (bind_of_option _ h') by done.
      unfold putvm. rewrite Hvm, E. reflexivity.
    + rewrite (aset_aget_eq _ _ _ _ Hh'). cbn. do 2 f_equal. lia.
    + intros i Hi. apply (aset_aget_ne _ _ _ _ _ Hh'). congruence.
  - destruct (Hset 0) as [h0 Hh0].
    pose proof (aset_length _ _ _ _ Hh0) as Hl0. rewrite Hlen in Hl0.
    destruct (Hget h0 Hl0) as [_ Hset0]. destruct (Hset0 (u16 (0 + (-1 + n)))) as [h' Hh'].
    exists h'. split; [|split].
    + rewrite bind_assoc, (bind_of_option _ h0), (bind_putvm _ _ vm) by done.
      set (vm1 := vm.[vm_kloadinfo := _]).
      set (s1 := s.[vms := <[running_vm s := vm1]> (vms s)]).
      assert (Hvm1 : vms s1 !! running_vm s = Some vm1) by apply lookup_insert_eq.
      rewrite (bind_Ret _ _ _ _ _ (Hcount s1 eq_refl eq_refl)), (bind_getvm _ _ vm1) by done.
      change (proc_load_history (vm_kloadinfo vm1)) with h0.
      rewrite (bind_of_option _ 0) by (by eapply aset_aget_eq).
      rewrite (bind_of_option _ h') by done. unfold putvm. rewrite Hvm1. unfold s1.
      cbn [vms fupd]. rewrite insert_insert_eq. reflexivity.
    + rewrite (aset_aget_eq _ _ _ _ Hh'). cbn. do 2 f_equal. lia.
    + intros i Hi. rewrite (aset_aget_ne _ _ _ _ _ Hh') by congruence.
      apply (aset_aget_ne _ _ _ _ _ Hh0). congruence.
Qed.

Theorem load_update_counts_witness :
  ∃ h, load_update (demo (1, 20)) =
       Ret tt ((demo (1, 20)).[vms := <[1 := (demo_vm 3 32 32 9 1)
                 .[vm_kloadinfo := LoadInfo h 2 1000]]> (vms (demo (1, 20)))]) ∧
       aget h 2 = Some 0.
Proof.
  destruct (load_update_counts (demo (1, 20)) (queue_of (demo (1, 20)))
              (demo_vm 3 32 32 9 1)) as (h & Hrun & Hh & _).
  - apply ready_queuesb_sound. vm_compute. reflexivity.
  - vm_compute. reflexivity.
  - vm_compute. reflexivity.
  - vm_compute. discriminate.
  - exists h. split; [exact Hrun|]. etransitivity; [exact Hh|]. vm_compute. reflexivity.
Defined.
