(* ===== verification/KAlarmThms.v ===== *)
(** * Properties of the kernel's alarms *)
From stdpp Require Import base gmap list numbers strings.
From Stdlib Require Import ZArith Lia.
From S2P Require Import Prelude.
From S2P Require Import Chains.
From S2P Require Import Timers.
From S2P Require Import TimersThms.
From S2P Require Import KTypes.
From S2P Require Import KProc.
From S2P Require Import KSched.
From S2P Require Import KStep.
From S2P Require Import KReady.
From S2P Require Import KSchedOps.
From S2P Require Import KClock.

Implicit Types (s : kstate) (q : tqueue).

Lemma get_uptime_run s q v vm :
  running_vm s = v → vms s !! v = Some vm →
  get_uptime (set_tq q s) = Ret (s32 (realtime s - vm_uptime vm)) (set_tq q s).
Proof.
  intros <- Hv. unfold get_uptime. rewrite bind_get.
  by rewrite (bind_getvm _ _ vm) by done.
Qed.

(** [set_timer] on the kernel's queue. *)
Lemma set_timer_run s q l tp r e w :
  queue_rep q l → tm_store q !! tp = Some r →
  let l' := insert_timer q e tp (without tp l) in
  ∃ q', set_timer tp e w (set_tq q s) = Ret tt ((set_tq q' s).[next_timeout := head_exp q' l']) ∧
        queue_rep q' l' ∧ same_payload (with_timer q tp (r.[tmr_exp_time := e].[tmr_func := w])) q'.
Proof.
  intros Hq Hr l'. destruct (settimer_run q s l tp r e w Hq Hr) as (q' & Hrun & Hq' & Hp).
  fold l' in Hrun, Hq'.
  exists q'. split; [|done]. unfold set_timer. rewrite (bind_Ret _ _ _ _ _ Hrun).
  change TmrHead with (tloc_after []).
  rewrite (bind_Ret _ _ _ _ _ (tload_run q' s [] l' Hq')).
  assert (Hin : tp ∈ l') by (apply elem_of_insert_timer; by left).
  clearbody l'. destruct l' as [|t l'].
  - set_solver.
  - cbn [head head_exp]. destruct (qr_chain _ _ Hq') as (_ & rt & Hrt & _).
    rewrite (gett_run q' s t rt) by done. unfold exp_of. by rewrite Hrt.
Qed.

(** What [do_setalarm] relies on: the caller [a] with a timer [tp] of its own. *)
Record alarm_caller (s : kstate) (who_p : Z) (a tp : Z * Z) (vm : vm_struct) : Prop := {
  ac_addr : proc_addr who_p s = Ret (Some a) s;
  ac_proc : ∃ r pr, procs s !! a = Some r ∧ p_priv r = Some tp ∧
              privs s !! tp = Some pr ∧ band (s_flags pr) SYS_PROC = true;
  ac_vm : vms s !! running_vm s = Some vm;
  ac_timer : is_Some (tm_store (timers s) !! tp) }.

Lemma do_setalarm_run s who_p a tp vm l m :
  alarm_caller s who_p a tp vm → queue_rep (timers s) l → sorted (timers s) l →
  m_w3 m ≠ 0 → m_w1 m = 0 →
  let e := s32 (m_w3 m + s32 (realtime s - vm_uptime vm)) in
  let l' := insert_timer (timers s) e tp (without tp l) in
  ∃ q' m', do_setalarm who_p m s = Ret (OK, m') ((set_tq q' s).[next_timeout := head_exp q' l']) ∧
    queue_rep q' l' ∧ sorted q' l' ∧ exp_of q' tp = e ∧
    ∀ t, t ≠ tp → exp_of q' t = exp_of (timers s) t.
Proof.
  intros [Haddr (r & pr & Hr & Htp & Hpr & Hsys) Hvm [t0 Ht0]] Hq Hs Hexp Habs e l'.
  unfold do_setalarm. rewrite (bind_Ret _ _ _ _ _ Haddr).
  unfold priv_of. rewrite bind_assoc, (bind_getp _ _ r), Htp by done.
  rewrite (bind_getpriv _ _ pr), Hsys by done. cbn [negb].
  rewrite (bind_getp _ _ r), Htp by done. rewrite (bind_of_option _ tp) by done.
  set (k := timers s) in *. change s with (set_tq k s).
  rewrite (putt_run k s tp t0) by done. set (q1 := k.[tm_store := _]).
  rewrite (bind_Ret _ _ _ _ _ (get_uptime_run s q1 _ vm eq_refl Hvm)).
  assert (Ht1 : tm_store q1 !! tp = Some (t0.[tmr_arg := Some a].[tmr_func := CAUSE_ALARM]))
    by apply lookup_insert_eq.
  rewrite (gett_run q1 s tp _ _ Ht1). cbv zeta.
  rewrite (proj2 (Z.eqb_neq _ _) Hexp).
  rewrite bind_assoc, (bind_Ret _ _ _ _ _ (get_uptime_run s q1 _ vm eq_refl Hvm)).
  rewrite Habs. cbn [Z.eqb negb]. fold e.
  rewrite bind_assoc, (putt_run q1 s tp _ _ _ Ht1).
  set (t2 := _.[tmr_exp_time := e]). set (q2 := q1.[tm_store := _]).
  assert (Hq2 : queue_rep q2 l).
  { apply (queue_rep_put q1 l tp _ t2 Ht1); [done|].
    by apply (queue_rep_put k l tp t0). }
  assert (Ht2 : tm_store q2 !! tp = Some t2) by apply lookup_insert_eq.
  assert (Hsame : ∀ t, t ≠ tp → exp_of q2 t = exp_of k t).
  { intros t Ht. unfold exp_of. cbn. by rewrite !lookup_insert_ne by congruence. }
  assert (Hwo : ∀ t, t ∈ without tp l → exp_of q2 t = exp_of k t).
  { intros t [Ht _]%list_elem_of_filter. auto. }
  destruct (set_timer_run s q2 l tp t2 e CAUSE_ALARM Hq2 Ht2) as (q' & Hset & Hq' & Hp).
  rewrite (insert_timer_ext k q2 e tp _ Hwo) in Hset, Hq'. fold l' in Hset, Hq'.
  assert (Hexp' : ∀ t, exp_of q' t = if decide (t = tp) then e else exp_of k t).
  { intros t. rewrite (same_payload_exp _ _ t Hp). unfold exp_of at 1. cbn.
    case_decide as Ht; [by rewrite Ht, lookup_insert_eq|].
    rewrite lookup_insert_ne by congruence. by apply Hsame. }
  exists q'. eexists. split; [by rewrite (bind_Ret _ _ _ _ _ Hset)|].
  split; [done|]. split; [|split].
  - unfold l'. rewrite <-(insert_timer_ext k q').
    + apply insert_timer_sorted; [rewrite Hexp'; by rewrite decide_True|].
      apply (sorted_ext k); [|by apply without_sorted].
      intros t [Ht _]%list_elem_of_filter. rewrite Hexp'. by rewrite decide_False.
    + intros t [Ht _]%list_elem_of_filter. rewrite Hexp'. by rewrite decide_False.
  - rewrite Hexp'. by rewrite decide_True.
  - intros t Ht. rewrite Hexp'. by rewrite decide_False.
Qed.

(** A relative alarm is queued at the uptime of the caller's VM plus the
    delay, in a queue that stays sorted, and [next_timeout] becomes the earliest
    expiration.  As the queue is compared with the time since the machine's boot,
    a VM that has been up for less than the machine gets its alarm early, by the
    time at which it was started. *)
Theorem do_setalarm_relative s who_p a tp vm l m :
  alarm_caller s who_p a tp vm → queue_rep (timers s) l → sorted (timers s) l →
  m_w3 m ≠ 0 → m_w1 m = 0 →
  0 <= vm_uptime vm <= realtime s → realtime s + m_w3 m < 2 ^ 31 → 0 <= m_w3 m →
  let l' := insert_timer (timers s) (m_w3 m + (realtime s - vm_uptime vm)) tp (without tp l) in
  ∃ q' m', do_setalarm who_p m s = Ret (OK, m') ((set_tq q' s).[next_timeout := head_exp q' l']) ∧
    queue_rep q' l' ∧ sorted q' l' ∧
    exp_of q' tp = realtime s + m_w3 m - vm_uptime vm ∧
    ∀ t, t ≠ tp → exp_of q' t = exp_of (timers s) t.
Proof.
  intros Hac Hq Hs H3 H1 Hup Hov Hpos l'.
  destruct (do_setalarm_run s who_p a tp vm l m Hac Hq Hs H3 H1)
    as (q' & m' & Hrun & Hq' & Hs' & He & Ho).
  rewrite (s32_id (realtime s - vm_uptime vm)) in Hrun, Hq', Hs', He by lia.
  rewrite s32_id in Hrun, Hq', Hs', He by lia.
  exists q', m'. split_and!; try done. lia.
Qed.

(** VM1 was started at time 900 of the machine: its process 5 asks for an alarm in
    50 ticks at time 1000. *)
Definition alarm_state : kstate :=
  let s := demo (1, 5) in
  s.[vms := <[1 := (demo_vm 3 32 32 9 1).[vm_uptime := 900]]> (vms s)].

Theorem do_setalarm_relative_witness :
  ∃ q' m', do_setalarm 5 (msg0.[m_w3 := 50]) alarm_state =
             Ret (OK, m') ((set_tq q' alarm_state).[next_timeout := head_exp q' [(1, 7)]]) ∧
           exp_of q' (1, 7) = 150 ∧ realtime alarm_state = 1000.
Proof.
  destruct (do_setalarm_relative alarm_state 5 (1, 5) (1, 7)
              ((demo_vm 3 32 32 9 1).[vm_uptime := 900]) [] (msg0.[m_w3 := 50]))
    as (q' & m' & Hrun & _ & _ & He & _).
  - split; [vm_compute; reflexivity| |vm_compute; reflexivity|eexists; vm_compute; reflexivity].
    exists (mk_proc 1 5 7 0 VIRTUAL_TASK), (mk_priv 5 7 1 SYS_PROC).
    repeat split; vm_compute; reflexivity.
  - split; [vm_compute; reflexivity|constructor].
  - constructor.
  - vm_compute. discriminate.
  - reflexivity.
  - vm_compute. split; discriminate.
  - vm_compute. reflexivity.
  - vm_compute. discriminate.
  - exists q', m'. split; [exact Hrun|]. split; [exact He|vm_compute; reflexivity].
Defined.
