(* ===== verification/KWp.v ===== *)
(** * Weakest preconditions for the kernel's functions

    [wp m Q s]: if [m] returns from [s], its result and final state satisfy [Q].
    [wpgo] runs the statements of a function; it stops at loops, at functions
    with a specification of their own and at conditions, which [wpif] splits. *)
From stdpp Require Import base gmap list numbers strings.
From Stdlib Require Import ZArith Lia.
From S2P Require Import Prelude.
From S2P Require Import KTypes.
From S2P Require Import KSysCall.

Definition wp {S A} (m : M S A) (Q : A → S → Prop) (s : S) : Prop :=
  ∀ a s', m s = Ret a s' → Q a s'.

Section rules.
Context {S : Type}.

Lemma wp_ret {A} (a : A) Q (s : S) : Q a s → wp (ret a) Q s.
Proof. intros H b s' [= <- <-]. done. Qed.
Lemma wp_skip Q (s : S) : Q tt s → wp skip Q s.
Proof. apply wp_ret. Qed.
Lemma wp_crash {A} (Q : A → S → Prop) s : wp crash Q s.
Proof. by intros a s'. Qed.
Lemma wp_spin {A} (Q : A → S → Prop) s : wp spin Q s.
Proof. by intros a s'. Qed.
Lemma wp_get Q (s : S) : Q s s → wp get Q s.
Proof. intros H a s' [= <- <-]. done. Qed.
Lemma wp_modify f Q (s : S) : Q tt (f s) → wp (modify f) Q s.
Proof. intros H a s' [= <- <-]. done. Qed.
Lemma wp_of_option {A} (o : option A) Q (s : S) :
  (∀ a, o = Some a → Q a s) → wp (of_option o) Q s.
Proof. destruct o; [intros H; by apply wp_ret, H|intros _; apply wp_crash]. Qed.
Lemma wp_bind {A B} (m : M S A) (k : A → M S B) Q s :
  wp m (λ a s', wp (k a) Q s') s → wp (bind m k) Q s.
Proof. intros H b s' Hm. apply bind_inv in Hm as (a & s1 & H1 & H2). by eapply H. Qed.
Lemma wp_mono {A} (m : M S A) (Q Q' : A → S → Prop) s :
  wp m Q s → (∀ a s', Q a s' → Q' a s') → wp m Q' s.
Proof. intros H HQ a s' Hm. by apply HQ, H. Qed.
Lemma wp_when (b : bool) m Q (s : S) :
  (b = true → wp m Q s) → (b = false → Q tt s) → wp (when b m) Q s.
Proof. destruct b; intros H1 H2; [by apply H1|by apply wp_skip, H2]. Qed.
Lemma wp_if {A} (b : bool) (m1 m2 : M S A) Q s :
  (b = true → wp m1 Q s) → (b = false → wp m2 Q s) → wp (if b then m1 else m2) Q s.
Proof. by destruct b; intros; auto. Qed.
(** A function that only reads. *)
Lemma wp_reads {A} (m : M S A) Q (s : S) :
  pres eq m → (∀ a, m s = Ret a s → Q a s) → wp m Q s.
Proof. intros Hp H a s' Hm. rewrite <-(Hp s a s' Hm) in Hm |- *. by apply H. Qed.
Lemma wp_pres {A} (R : S → S → Prop) (m : M S A) Q s :
  pres R m → (∀ a s', R s s' → Q a s') → wp m Q s.
Proof. intros Hp H a s' Hm. by eapply H, Hp. Qed.
(** Loops, with an invariant. *)
Lemma wp_loop {A B} (I : A → S → Prop) n (body : A → M S (A + B)) a Q s :
  I a s →
  (∀ a s, I a s → wp (body a) (λ r s', match r with inl a' => I a' s' | inr b => Q b s' end) s) →
  wp (loop n body a) Q s.
Proof.
  intros HI Hb. revert a s HI. induction n as [|n IH]; intros a s HI; [apply wp_spin|].
  apply wp_bind. eapply wp_mono; [by apply Hb|]. intros [a'|b] s' Hs; [by apply IH|by apply wp_ret].
Qed.
Lemma wp_for_list {A} (I : S → Prop) (l : list A) body s :
  I s → (∀ a s, a ∈ l → I s → wp (body a) (λ _, I) s) → wp (for_list l body) (λ _, I) s.
Proof.
  intros HI Hb. revert s HI. induction l as [|a l IH]; intros s HI; [by apply wp_skip|].
  apply wp_bind. eapply wp_mono; [apply Hb; [left|done]|]. intros [] s' Hs'.
  apply IH; [|done]. intros b s1 Hin. apply Hb. by right.
Qed.
End rules.

(** ** The kernel's structures *)
Lemma wp_getp p Q s :
  (∀ x r, p = Some x → procs s !! x = Some r → Q r s) → wp (getp p) Q s.
Proof.
  intros H a s'. unfold getp. destruct p as [x|]; [|done].
  destruct (procs s !! x) eqn:Hx; [|done]. intros [= <- <-]. by eapply H.
Qed.
Lemma wp_putp p f Q s :
  (∀ x r, p = Some x → procs s !! x = Some r → Q tt (s.[procs := <[x := f r]> (procs s)])) →
  wp (putp p f) Q s.
Proof.
  intros H a s'. unfold putp. destruct p as [x|]; [|done].
  destruct (procs s !! x) eqn:Hx; [|done]. intros [= <- <-]. by eapply H.
Qed.
Lemma wp_getpriv p Q s :
  (∀ x r, p = Some x → privs s !! x = Some r → Q r s) → wp (getpriv p) Q s.
Proof.
  intros H a s'. unfold getpriv. destruct p as [x|]; [|done].
  destruct (privs s !! x) eqn:Hx; [|done]. intros [= <- <-]. by eapply H.
Qed.
Lemma wp_putpriv p f Q s :
  (∀ x r, p = Some x → privs s !! x = Some r → Q tt (s.[privs := <[x := f r]> (privs s)])) →
  wp (putpriv p f) Q s.
Proof.
  intros H a s'. unfold putpriv. destruct p as [x|]; [|done].
  destruct (privs s !! x) eqn:Hx; [|done]. intros [= <- <-]. by eapply H.
Qed.
Lemma wp_getvm v Q s : (∀ r, vms s !! v = Some r → Q r s) → wp (getvm v) Q s.
Proof.
  intros H a s'. unfold getvm. destruct (vms s !! v) eqn:Hx; [|done].
  intros [= <- <-]. by apply H.
Qed.
Lemma wp_putvm v f Q s :
  (∀ r, vms s !! v = Some r → Q tt (s.[vms := <[v := f r]> (vms s)])) → wp (putvm v f) Q s.
Proof.
  intros H a s'. unfold putvm. destruct (vms s !! v) eqn:Hx; [|done].
  intros [= <- <-]. by apply H.
Qed.

(** ** Automation *)
Create HintDb wp discriminated.

Ltac wpstep :=
  cbv beta;
  lazymatch goal with
  | |- wp (bind _ _) _ _ => apply wp_bind
  | |- wp (ret _) _ _ => apply wp_ret
  | |- wp skip _ _ => apply wp_skip
  | |- wp crash _ _ => apply wp_crash
  | |- wp spin _ _ => apply wp_spin
  | |- wp get _ _ => apply wp_get
  | |- wp (modify _) _ _ => apply wp_modify
  | |- wp (of_option _) _ _ => apply wp_of_option; intros ? ?
  | |- wp (getp _) _ _ => apply wp_getp; intros ? ? ? ?
  | |- wp (putp _ _) _ _ => apply wp_putp; intros ? ? ? ?
  | |- wp (getpriv _) _ _ => apply wp_getpriv; intros ? ? ? ?
  | |- wp (putpriv _ _) _ _ => apply wp_putpriv; intros ? ? ? ?
  | |- wp (getvm _) _ _ => apply wp_getvm; intros ? ?
  | |- wp (putvm _ _) _ _ => apply wp_putvm; intros ? ?
  | |- wp (priv_of _) _ _ => unfold priv_of
  | |- wp (let _ := _ in _) _ _ => cbv zeta
  | |- wp (match Some _ with _ => _ end) _ _ => cbv iota
  | |- wp (match None with _ => _ end) _ _ => cbv iota
  | |- wp (match inl _ with _ => _ end) _ _ => cbv iota
  | |- wp (match inr _ with _ => _ end) _ _ => cbv iota
  | |- wp (match (_, _) with _ => _ end) _ _ => cbv iota
  | |- wp (if true then _ else _) _ _ => cbv iota
  | |- wp (if false then _ else _) _ _ => cbv iota
  | |- wp ((λ _, _) _) _ _ => cbv beta
  end.
Ltac wpgo := repeat wpstep; cbv beta.
(** Split the condition at the head of the function. *)
Ltac wpif :=
  lazymatch goal with
  | |- wp (if ?b then _ else _) _ _ => apply wp_if; intros ?
  | |- wp (when ?b _) _ _ => apply wp_when; intros ?
  | |- wp (match ?x with _ => _ end) _ _ => destruct x eqn:?
  end.
Ltac wpauto := repeat (wpgo; try wpif).
