(* ===== verification/KMem.v ===== *)
(** * Physical memory, address mapping and copying between address spaces

    [phys_copy] and [phys_memset] ([src/kernel/klib386.s]), the mapping functions
    [umap_local], [umap_remote], [umap_bios] and the two copy functions
    [virtual_copy] (inside the running VM) and [virtual_copy_vm] (between VMs) of
    [src/kernel/system.c].  Physical memory is a byte per address; the copies of
    whole messages made by the IPC calls are kept apart, in [kmem]. *)
From stdpp Require Import base gmap list numbers strings.
From Stdlib Require Import ZArith Lia.
From S2P Require Import Prelude.
From S2P Require Import KTypes.
From S2P Require Import KProc.

(** A function that returns early with the code [e] yields [inl e]. *)
Notation "'let?' x := m 'in' k" :=
  (bind m (λ r, match r with inl e => ret (inl e) | inr x => k end))
  (at level 10, x name, m at level 100, k at level 200) : mh_scope.
Notation "'let?' ' p := m 'in' k" :=
  (bind m (λ r, match r with inl e => ret (inl e) | inr p => k end))
  (at level 10, p strict pattern, m at level 100, k at level 200) : mh_scope.

(** The code a function returns, early or at its end. *)
Definition rcode (m : K (Z + Z)) : K Z :=
  let* r := m in ret match r with inl e => e | inr e => e end.

(** ** Physical memory *)

(** The bytes of a block of [n] bytes at [src], put at [dst]. *)
Definition mem_copy (src dst n : Z) (m : Z → Z) : Z → Z := λ a,
  if u32 (a - dst) <? n then m (u32 (src + u32 (a - dst))) else m a.

(** [rep movs]: [n] units of [w] bytes each, in ascending order. *)
Fixpoint rep_movs (w : Z) (n : nat) (src dst : Z) (m : Z → Z) : Z → Z :=
  match n with
  | O => m
  | Datatypes.S n' =>
      rep_movs w n' (u32 (src + w)) (u32 (dst + w)) (mem_copy src dst w m)
  end.

(** [phys_copy]: bytes up to an aligned source, then words, then bytes. *)
Definition phys_copy_mem (src dst n : Z) (m : Z → Z) : Z → Z :=
  if n <? 10 then rep_movs 1 (Z.to_nat n) src dst m
  else
    let k := Z.land (- src) 3 in
    let n1 := n - k in
    let w := Z.shiftr n1 2 in
    let m1 := rep_movs 1 (Z.to_nat k) src dst m in
    let m2 := rep_movs 4 (Z.to_nat w) (u32 (src + k)) (u32 (dst + k)) m1 in
    rep_movs 1 (Z.to_nat (Z.land n1 3)) (u32 (src + k + 4 * w)) (u32 (dst + k + 4 * w)) m2.

Definition phys_copy (src dst bytes : Z) : K unit :=
  modify (λ s, s.[pmem := phys_copy_mem src dst bytes (pmem s)]).

(** Byte [i] of the 32-bit [pattern]. *)
Definition pat_byte (pattern i : Z) : Z := u8 (Z.shiftr pattern (8 * i)).

(** [phys_memset]: the words, then the remaining bytes.  The loop on words tests
    its counter only after decrementing it: a counter of 0 makes 2^32 rounds,
    which reach every address. *)
Definition phys_memset_mem (ptr pattern count : Z) (m : Z → Z) : Z → Z := λ a,
  let w := Z.shiftr count 2 in
  let d := u32 (a - ptr) in
  if (4 * w <=? d) && (d <? 4 * w + Z.land count 3) then pat_byte pattern (d - 4 * w)
  else if (w =? 0) || (d <? 4 * w) then pat_byte pattern (d mod 4)
  else m a.

Definition phys_memset (ptr pattern count : Z) : K unit :=
  modify (λ s, s.[pmem := phys_memset_mem ptr pattern count (pmem s)]).

(** The 32-bit word at [a], little-endian. *)
Definition mem_word (m : Z → Z) (a : Z) : Z :=
  m (u32 a) + 2 ^ 8 * m (u32 (a + 1)) + 2 ^ 16 * m (u32 (a + 2)) + 2 ^ 24 * m (u32 (a + 3)).

(** ** Segments ([include/minix/const.h], [include/ibm/memory.h]) *)
Definition T : Z := 0.
Definition D : Z := 1.
Definition S : Z := 2.
Definition SEGMENT_TYPE : Z := 0xFF00.
Definition SEGMENT_INDEX : Z := 0x00FF.
Definition LOCAL_SEG : Z := 0x0000.
Definition REMOTE_SEG : Z := 0x0100.
Definition BIOS_SEG : Z := 0x0200.
Definition PHYS_SEG : Z := 0x0400.
Definition NR_REMOTE_SEGS : Z := 3.
Definition BIOS_MEM_BEGIN : Z := 0x00000.
Definition BIOS_MEM_END : Z := 0x004FF.
Definition BASE_MEM_TOP : Z := 0x090000.
Definition UPPER_MEM_END : Z := 0x0FFFFF.

(** ** Address mapping: the result 0 is an error *)
Definition umap_bios (rp : ptr) (vir_addr bytes : Z) : K Z :=
  if (BIOS_MEM_BEGIN <=? vir_addr) && (u32 (vir_addr + bytes) <=? BIOS_MEM_END)
  then ret vir_addr
  else if (BASE_MEM_TOP <=? vir_addr) && (u32 (vir_addr + bytes) <=? UPPER_MEM_END)
  then ret vir_addr
  else ret 0.

(** The process whose memory stands for that of a promiscuous descriptor or of
    a virtual task. *)
Definition umap_owner (rp : ptr) : K ptr :=
  let* s := get in
  if running_vm s =? VM0 then ret rp
  else
    let* r := getp rp in
    if band (p_misc_flags r) PROMICUOUS_TASK then proc_addr_vm VM0 (p_nr r)
    else if band (p_misc_flags r) VIRTUAL_TASK then
      let* vm := getvm (running_vm s) in
      let* ' (_, proxy_nr) := isokendpt_vm VM0 (vm_vmm_endpoint vm) in
      proc_addr_vm VM0 proxy_nr
    else ret rp.

(** Segment [seg] of [r] for data whose last click is [vc]. *)
Definition umap_seg (r : proc) (seg vc : Z) : mem_map :=
  if seg =? T then p_memmap_T r
  else if vc <? u32 (mem_vir (p_memmap_D r) + mem_len (p_memmap_D r))
  then p_memmap_D r
  else p_memmap_S r.

Definition umap_in (m : mem_map) (vir_addr vc : Z) : Z :=
  if u32 (mem_vir m + mem_len m) <=? Z.shiftr vir_addr CLICK_SHIFT then 0
  else if u32 (mem_vir m + mem_len m) <=? vc then 0
  else u32 (u32 (Z.shiftl (mem_phys m) CLICK_SHIFT)
            + u32 (vir_addr - u32 (Z.shiftl (mem_vir m) CLICK_SHIFT))).

Definition umap_local (rp : ptr) (seg vir_addr bytes : Z) : K Z :=
  let* rp := umap_owner rp in
  if bytes =? 0 then ret 0
  else if u32 (vir_addr + bytes) <=? vir_addr then ret 0
  else
    let vc := Z.shiftr (u32 (vir_addr + bytes - 1)) CLICK_SHIFT in
    let* r := getp rp in
    ret (umap_in (umap_seg r seg vc) vir_addr vc).

Definition umap_remote (rp : ptr) (seg vir_addr bytes : Z) : K Z :=
  if bytes =? 0 then ret 0
  else if (seg <? 0) || (NR_REMOTE_SEGS <=? seg) then ret 0
  else
    let* pr := priv_of rp in
    let* fm := of_option (aget (s_farmem pr) seg) in
    ret (if far_in_use fm =? 0 then 0
         else if far_mem_len fm <? u32 (vir_addr + bytes) then 0
         else u32 (far_mem_phys fm + vir_addr)).

(** ** Copying *)
Set Primitive Projections.
Record vir_addr := VirAddr { va_proc_nr_e : Z; va_segment : Z; va_offset : Z }.
Record vir_addr_vm := VirAddrVm { vav_addr : vir_addr; vav_vmid : Z }.
Unset Primitive Projections.

#[export] Instance vir_addr_eta : Eta vir_addr := λ r,
  VirAddr (va_proc_nr_e r) (va_segment r) (va_offset r).
#[export] Instance vir_addr_vm_eta : Eta vir_addr_vm := λ r,
  VirAddrVm (vav_addr r) (vav_vmid r).

Definition seg_type (va : vir_addr) : Z := Z.land (va_segment va) SEGMENT_TYPE.

(** The address the switch on the type of segment computes. *)
Definition copy_phys_addr (p : ptr) (va : vir_addr) (bytes : Z) : K (Z + Z) :=
  let seg_index := Z.land (va_segment va) SEGMENT_INDEX in
  let t := seg_type va in
  let local (m : ptr → K Z) : K (Z + Z) :=
    match p with
    | None => ret (inl EDEADSRCDST)
    | Some _ => let* a := m p in ret (inr a)
    end in
  if t =? LOCAL_SEG then local (λ p, umap_local p seg_index (va_offset va) bytes)
  else if t =? REMOTE_SEG then local (λ p, umap_remote p seg_index (va_offset va) bytes)
  else if t =? BIOS_SEG then local (λ p, umap_bios p (va_offset va) bytes)
  else if t =? PHYS_SEG then ret (inr (va_offset va))
  else ret (inl EINVAL).

(** The process behind process [p] of the guest [vmid]: itself, the promiscuous
    process it describes, or the proxy of the VM. *)
Definition copy_redirect (p : ptr) (vmid proc_nr : Z) : K (Z + (ptr * Z)) :=
  if vmid =? VM0 then ret (inr (p, proc_nr))
  else
    let* vm := getvm vmid in
    if negb (vm_flags vm =? Z.lor VM_LOADED VM_RUNNING) then ret (inl EVMSTATUS)
    else
      let* r := getp p in
      if band (p_misc_flags r) PROMICUOUS_TASK then
        let p := p_promiscuous r in
        let* pr := priv_of p in
        ret (if band (s_vm_bitmap pr) (Z.shiftl 1 vmid) then inr (p, proc_nr)
             else inl EBADVMID)
      else if band (p_misc_flags r) VIRTUAL_TASK then
        let* ' (ok, proc_nr) := isokendpt_vm VM0 (vm_vmm_endpoint vm) in
        if ok =? 0 then ret (inl EINVAL)
        else
          let* p := proc_addr_vm VM0 proc_nr in
          let* r := getp p in
          ret (if p_proxy r =? vmid then inr (p, proc_nr) else inl EBADVMID)
      else ret (inr (p, proc_nr)).

(** [FAULT_VM_LIMITS] and [FAULT_PROC_LIMITS]. *)
Definition FAULT_VM_LIMITS (v a n : Z) : K bool :=
  let* vm := getvm v in
  ret ((a <? vm_start vm) || (vm_end vm <? a) || (vm_end vm <? u32 (a + n))).

Definition FAULT_PROC_LIMITS (a : Z) (p : proc) (n : Z) : bool :=
  let lo := u32 (Z.shiftl (mem_phys (p_memmap_D p)) CLICK_SHIFT) in
  let hi := u32 (Z.shiftl (u32 (mem_phys (p_memmap_D p) + mem_len (p_memmap_D p))) CLICK_SHIFT) in
  (a <? lo) || (hi <? a) || (hi <? u32 (a + n)).

(** *** [virtual_copy] *)

(** One round of its loop: the process and the physical address. *)
Definition copy_map (va : vir_addr) (bytes : Z) : K (Z + (ptr * Z)) :=
  let? p :=
    (if seg_type va =? PHYS_SEG then ret (inr None)
     else
       let* ' (ok, proc_nr) := isokendpt (va_proc_nr_e va) in
       if ok =? 0 then ret (inr None)
       else
         let* p := proc_addr proc_nr in
         let* r := getp p in
         let? ' (p, _) := copy_redirect p (p_vmid r) proc_nr in
         ret (inr p)) in
  let? a := copy_phys_addr p va bytes in
  if (a =? 0) && negb (va_segment va =? PHYS_SEG) then ret (inl EFAULT)
  else ret (inr (p, a)).

(** The limits of the process [p] on VM0 that takes part in a copy with the
    guest [vmid]. *)
Definition vm0_limits (p : proc) (vmid a bytes : Z) : bool :=
  if band (p_misc_flags p) PROXY_SERVER && negb (p_proxy p =? vmid) then true
  else FAULT_PROC_LIMITS a p bytes.

(** The check of the address ranges for a caller in a guest. *)
Definition copy_limits (src dst : ptr) (pa_src pa_dst bytes : Z) : K (Z + unit) :=
  let* ps := getp src in
  let* pd := getp dst in
  if p_vmid ps =? p_vmid pd then
    let* f := FAULT_VM_LIMITS (p_vmid ps) pa_src bytes in
    if f then ret (inl EFAULT)
    else
      let* f := FAULT_VM_LIMITS (p_vmid pd) pa_dst bytes in
      ret (if f then inl EFAULT else inr tt)
  else if negb (p_vmid ps =? VM0) && (p_vmid pd =? VM0) then
    let* f := FAULT_VM_LIMITS (p_vmid ps) pa_src bytes in
    ret (if f || vm0_limits pd (p_vmid ps) pa_dst bytes then inl EFAULT else inr tt)
  else if (p_vmid ps =? VM0) && negb (p_vmid pd =? VM0) then
    let* f := FAULT_VM_LIMITS (p_vmid pd) pa_dst bytes in
    ret (if f || vm0_limits ps (p_vmid pd) pa_src bytes then inl EFAULT else inr tt)
  else ret (inl EFAULT).

Definition virtual_copy (src_addr dst_addr : vir_addr) (bytes : Z) : K Z :=
  if bytes =? 0 then ret EDOM
  else
    let* s := get in
    let* caller_ptr := get_proc_addr (who_p s) in
    rcode (
      let? ' (src, pa_src) := copy_map src_addr bytes in
      let? ' (dst, pa_dst) := copy_map dst_addr bytes in
      let* c := getp caller_ptr in
      let? _ :=
        (if negb (p_vmid c =? VM0)
            && ((seg_type src_addr =? LOCAL_SEG) && (seg_type dst_addr =? LOCAL_SEG))
         then copy_limits src dst pa_src pa_dst bytes
         else ret (inr tt)) in
      phys_copy pa_src pa_dst bytes;;;
      ret (inr OK)).

(** *** [virtual_copy_vm] *)
Definition copy_map_vm (va : vir_addr_vm) (bytes : Z) : K (Z + (ptr * Z * Z)) :=
  let a := vav_addr va in
  let? ' (p, proc_nr) :=
    (if seg_type a =? PHYS_SEG then ret (inr (None, 0))
     else
       let* ' (ok, proc_nr) := isokendpt_vm (vav_vmid va) (va_proc_nr_e a) in
       if ok =? 0 then ret (inr (None, proc_nr))
       else
         let* p := proc_addr_vm (vav_vmid va) proc_nr in
         copy_redirect p (vav_vmid va) proc_nr) in
  let? pa := copy_phys_addr p a bytes in
  if (pa =? 0) && negb (va_segment a =? PHYS_SEG) then ret (inl EFAULT)
  else ret (inr (p, proc_nr, pa)).

(** The limits of the process [p] on VM0; [nr] is its number in the message, and
    the guest must have a promiscuous descriptor there when [p] is no proxy. *)
Definition vm0_limits_vm (p : proc) (nr vmid a bytes : Z) : K bool :=
  let* p_ptr := proc_addr_vm vmid nr in
  if band (p_misc_flags p) PROXY_SERVER then
    ret (if negb (p_proxy p =? vmid) then true else FAULT_PROC_LIMITS a p bytes)
  else
    let* r := getp p_ptr in
    ret (if band (p_misc_flags r) PROMICUOUS_TASK then FAULT_PROC_LIMITS a p bytes
         else true).

Definition copy_limits_vm (src dst : ptr) (nr_src nr_dst pa_src pa_dst bytes : Z)
    : K (Z + unit) :=
  let* ps := getp src in
  let* pd := getp dst in
  if p_vmid ps =? p_vmid pd then
    let* f := FAULT_VM_LIMITS (p_vmid ps) pa_src bytes in
    if f then ret (inl EFAULT)
    else
      let* f := FAULT_VM_LIMITS (p_vmid pd) pa_dst bytes in
      ret (if f then inl EFAULT else inr tt)
  else if negb (p_vmid ps =? VM0) && (p_vmid pd =? VM0) then
    let* f := FAULT_VM_LIMITS (p_vmid ps) pa_src bytes in
    if f then ret (inl EFAULT)
    else
      let* f := vm0_limits_vm pd nr_dst (p_vmid ps) pa_dst bytes in
      ret (if f then inl EFAULT else inr tt)
  else if (p_vmid ps =? VM0) && negb (p_vmid pd =? VM0) then
    let* f := FAULT_VM_LIMITS (p_vmid pd) pa_dst bytes in
    if f then ret (inl EFAULT)
    else
      let* f := vm0_limits_vm ps nr_src (p_vmid pd) pa_src bytes in
      ret (if f then inl EFAULT else inr tt)
  else ret (inl EFAULT).

Definition virtual_copy_vm (src_addr dst_addr : vir_addr_vm) (bytes : Z) : K Z :=
  if bytes =? 0 then ret EDOM
  else
    let* s := get in
    let* caller_ptr := get_proc_addr (who_p s) in
    rcode (
      let? ' (x, pa_src) := copy_map_vm src_addr bytes in
      let ' (src, nr_src) := x in
      let? ' (y, pa_dst) := copy_map_vm dst_addr bytes in
      let ' (dst, nr_dst) := y in
      let* c := getp caller_ptr in
      let? _ :=
        (if negb (p_vmid c =? VM0)
            && ((seg_type (vav_addr src_addr) =? LOCAL_SEG)
                && (seg_type (vav_addr dst_addr) =? LOCAL_SEG))
         then copy_limits_vm src dst nr_src nr_dst pa_src pa_dst bytes
         else ret (inr tt)) in
      phys_copy pa_src pa_dst bytes;;;
      ret (inr OK)).
