(* ===== verification/KMemCalls.v ===== *)
(** * Kernel calls that map and copy memory

    [do_copy], [do_vcopy], [do_vcopyvm], [do_umap], [do_umapvm] and [do_memset] of
    [src/kernel/system/].  A handler takes the request message and returns its
    code and the message as it left it. *)
From stdpp Require Import base gmap list numbers strings.
From Stdlib Require Import ZArith Lia.
From S2P Require Import Prelude.
From S2P Require Import KTypes.
From S2P Require Import KProc.
From S2P Require Import KMem.

Definition SYS_PHYSCOPY : Z := KERNEL_CALL + 16.
Definition SYS_PHYSVCOPY : Z := KERNEL_CALL + 18.
Definition VCOPY_VEC_SIZE : Z := 16.

(** ** Fields of the messages ([include/minix/ipc.h], [com.h])

    Two shorts share the first word of [mess_5]. *)
Definition m5_c1 (m : message) : Z := s16 (m_w0 m).
Definition m5_c2 (m : message) : Z := s16 (Z.shiftr (m_w0 m) 16).
Abbreviation CP_SRC_SPACE := m5_c1 (only parsing).
Abbreviation CP_DST_SPACE := m5_c2 (only parsing).
Abbreviation CP_SRC_VMID := m5_c1 (only parsing).
Abbreviation CP_DST_VMID := m5_c2 (only parsing).
Abbreviation CP_SRC_ENDPT := m_w1 (only parsing).
Abbreviation CP_DST_ENDPT := m_w2 (only parsing).
Abbreviation CP_SRC_ADDR := m_w3 (only parsing).
Abbreviation CP_DST_ADDR := m_w4 (only parsing).
Abbreviation CP_NR_BYTES := m_w5 (only parsing).
Abbreviation VCP_NR_OK := m_w1 (only parsing).
Abbreviation VCP_VEC_SIZE := m_w2 (only parsing).
Abbreviation VCP_VEC_ADDR := m_w3 (only parsing).
Abbreviation MEM_PTR := m_w5 (only parsing).
Abbreviation MEM_COUNT := m_w3 (only parsing).
Abbreviation MEM_PATTERN := m_w4 (only parsing).

(** A handler that leaves the message as it is. *)
Definition keep_msg (m : message) (h : K Z) : K (Z * message) :=
  let* r := h in ret (r, m).

(** ** [do_copy] *)
Definition subst_self (m : message) (va : vir_addr) : vir_addr :=
  if va_proc_nr_e va =? SELF then va.[va_proc_nr_e := m_source m] else va.

Definition copy_check (m : message) (va : vir_addr) : K (Z + vir_addr) :=
  let va := subst_self m va in
  let* bad :=
    (if va_segment va =? PHYS_SEG then ret false
     else let* ' (ok, _) := isokendpt (va_proc_nr_e va) in ret (ok =? 0)) in
  ret (if bad : bool then inl EINVAL
       else if band (va_segment va) PHYS_SEG && negb (m_type m =? SYS_PHYSCOPY)
       then inl EPERM else inr va).

Definition do_copy (m : message) : K (Z * message) :=
  let src := VirAddr (CP_SRC_ENDPT m) (CP_SRC_SPACE m) (u32 (CP_SRC_ADDR m)) in
  let dst := VirAddr (CP_DST_ENDPT m) (CP_DST_SPACE m) (u32 (CP_DST_ADDR m)) in
  let bytes := u32 (CP_NR_BYTES m) in
  keep_msg m (rcode (
    let? src := copy_check m src in
    let? dst := copy_check m dst in
    if negb (bytes =? u32 bytes) then ret (inl E2BIG)
    else let* r := virtual_copy src dst bytes in ret (inr r))).

(** ** [do_vcopy]

    A [struct vir_cp_req] has 28 bytes; the kernel's vector holds
    [VCOPY_VEC_SIZE] of them, and a copy past its end is a crash. *)
Definition CP_REQ_SIZE : Z := 28.

Definition vir_cp_req : Type := vir_addr * vir_addr * Z.

Definition read_vir_addr (m : Z → Z) (a : Z) : vir_addr :=
  VirAddr (s32 (mem_word m a)) (s32 (mem_word m (a + 4))) (mem_word m (a + 8)).

Definition read_cp_req (m : Z → Z) (a : Z) : vir_cp_req :=
  (read_vir_addr m a, read_vir_addr m (a + 12), mem_word m (a + 24)).

Fixpoint vcopy_loop (m : message) (reqs : list vir_cp_req) : K (Z * message) :=
  match reqs with
  | [] => ret (OK, m)
  | (src, dst, count) :: reqs' =>
      if band (Z.lor (va_segment src) (va_segment dst)) PHYS_SEG
         && negb (m_type m =? SYS_PHYSVCOPY)
      then ret (EPERM, m)
      else
        let* r := virtual_copy src dst count in
        if negb (r =? OK) then ret (r, m)
        else vcopy_loop (m.[VCP_NR_OK := s32 (VCP_NR_OK m + 1)]) reqs'
  end.

Definition do_vcopy (m : message) : K (Z * message) :=
  let nr_req := s32 (VCP_VEC_SIZE m) in
  if VCOPY_VEC_SIZE <? nr_req then ret (EINVAL, m)
  else
    let bytes := u32 (nr_req * CP_REQ_SIZE) in
    let* s := get in
    let* rp := proc_addr (who_p s) in
    let* caller_phys := umap_local rp D (u32 (VCP_VEC_ADDR m)) bytes in
    if caller_phys =? 0 then ret (EFAULT, m)
    else if VCOPY_VEC_SIZE * CP_REQ_SIZE <? bytes then crash
    else
      let reqs := map (λ i, read_cp_req (pmem s) (caller_phys + CP_REQ_SIZE * i))
                    (zrange 0 nr_req) in
      vcopy_loop (m.[VCP_NR_OK := 0]) reqs.

(** ** [do_vcopyvm]

    Both segments are the character 'D', which makes them local segments. *)
Definition CHAR_D : Z := 0x44.

Definition copy_check_vm (m : message) (va : vir_addr_vm) : K (Z + vir_addr_vm) :=
  let a := subst_self m (vav_addr va) in
  let va := va.[vav_addr := a] in
  let* bad :=
    (if va_segment a =? PHYS_SEG then ret false
     else let* ' (ok, _) := isokendpt_vm (vav_vmid va) (va_proc_nr_e a) in ret (ok =? 0)) in
  ret (if bad : bool then inl EINVAL
       else if band (va_segment a) PHYS_SEG && negb (m_type m =? SYS_PHYSCOPY)
       then inl EPERM else inr va).

Definition do_vcopyvm (m : message) : K (Z * message) :=
  let* s := get in
  if negb (running_vm s =? VM0) then ret (EPERM, m)
  else
    let src := VirAddrVm (VirAddr (CP_SRC_ENDPT m) CHAR_D (u32 (CP_SRC_ADDR m)))
                 (CP_SRC_VMID m) in
    let dst := VirAddrVm (VirAddr (CP_DST_ENDPT m) CHAR_D (u32 (CP_DST_ADDR m)))
                 (CP_DST_VMID m) in
    let bytes := u32 (CP_NR_BYTES m) in
    keep_msg m (rcode (
      let? src := copy_check_vm m src in
      let? dst := copy_check_vm m dst in
      if negb (bytes =? u32 bytes) then ret (inl E2BIG)
      else let* r := virtual_copy_vm src dst bytes in ret (inr r))).

(** ** [do_umap] and [do_umapvm] *)

(** The switch on the type of segment; a type that is none of the three is the
    error [EINVAL], which leaves the message alone. *)
Definition umap_reply (m : message) (rp : ptr) : K (Z * message) :=
  let seg_type := Z.land (CP_SRC_SPACE m) SEGMENT_TYPE in
  let seg_index := Z.land (CP_SRC_SPACE m) SEGMENT_INDEX in
  let offset := u32 (CP_SRC_ADDR m) in
  let count := u32 (CP_NR_BYTES m) in
  let done (a : Z) := ret (if a =? 0 then EFAULT else OK, m.[CP_DST_ADDR := a]) in
  if seg_type =? LOCAL_SEG then let* a := umap_local rp seg_index offset count in done a
  else if seg_type =? REMOTE_SEG then let* a := umap_remote rp seg_index offset count in done a
  else if seg_type =? BIOS_SEG then let* a := umap_bios rp offset count in done a
  else ret (EINVAL, m).

(** The process whose memory is mapped, for a request in a guest. *)
Definition umap_target (rp : ptr) (proc_nr : Z) : K (Z + ptr) :=
  let* s := get in
  if running_vm s =? VM0 then ret (inr rp)
  else
    let* r := getp rp in
    if band (p_misc_flags r) PROMICUOUS_TASK then
      let* rp := proc_addr_vm VM0 proc_nr in ret (inr rp)
    else if band (p_misc_flags r) VIRTUAL_TASK then
      let* vm := getvm (running_vm s) in
      if negb (vm_flags vm =? VM_RUNNING) then ret (inl EVMSTATUS)
      else
        let* ' (ok, proc_nr) := isokendpt (vm_vmm_endpoint vm) in
        if ok =? 0 then ret (inl EINVAL)
        else let* rp := proc_addr_vm VM0 proc_nr in ret (inr rp)
    else ret (inr rp).

Definition do_umap (m : message) : K (Z * message) :=
  let* s := get in
  let* nr :=
    (if CP_SRC_ENDPT m =? SELF then ret (Some (who_p s))
     else
       let* ' (ok, proc_nr) := isokendpt (CP_SRC_ENDPT m) in
       ret (if ok =? 0 then None else Some proc_nr)) in
  match nr with
  | None => ret (EINVAL, m)
  | Some proc_nr =>
      let* rp := proc_addr proc_nr in
      let* t := umap_target rp proc_nr in
      match t with
      | inl e => ret (e, m)
      | inr rp => umap_reply m rp
      end
  end.

Definition do_umapvm (m : message) : K (Z * message) :=
  let* s := get in
  let vmid := CP_DST_VMID m in
  if (vmid <? 0) || (NR_VMS <? vmid) then ret (EINVAL, m)
  else if negb (running_vm s =? VM0) then ret (EPERM, m)
  else
    let* nr :=
      (if CP_SRC_ENDPT m =? SELF then ret (Some (who_p s))
       else
         let* ' (ok, proc_nr) := isokendpt_vm vmid (CP_SRC_ENDPT m) in
         ret (if ok =? 0 then None else Some proc_nr)) in
    match nr with
    | None => ret (EINVAL, m)
    | Some proc_nr => let* rp := proc_addr_vm vmid proc_nr in umap_reply m rp
    end.

(** ** [do_memset] *)
Definition do_memset (m : message) : K (Z * message) :=
  let c := u8 (MEM_PATTERN m) in
  let p := Z.lor (Z.lor (Z.lor c (Z.shiftl c 8)) (Z.shiftl c 16)) (Z.shiftl c 24) in
  phys_memset (u32 (MEM_PTR m)) p (u32 (MEM_COUNT m));;;
  ret (OK, m).
