(* ===== verification/KIrq.v ===== *)
(** * Signals and interrupt hooks

    Signal sets ([src/lib/posix/_sigset.c]), [send_sig] and [cause_sig]
    ([src/kernel/system.c]) and the kernel calls [do_getksig] and [do_endksig] by which
    the process manager takes the signals of a process; the lists of interrupt handlers ([src/kernel/i8259.c]), the kernel call
    [do_irqctl] and the handler it installs ([src/kernel/system/do_irqctl.c]).
    The interrupt controller's own registers and the collection of entropy
    ([get_randomness]) are left out. *)
From stdpp Require Import base gmap list numbers strings.
From Stdlib Require Import ZArith Lia.
From S2P Require Import Prelude.
From S2P Require Import KTypes.
From S2P Require Import KProc.
From S2P Require Import KSched.
From S2P Require Import KSysCall.
From S2P Require Import KClock.

Definition _NSIG : Z := 23.

Abbreviation SIG_ENDPT := m_w0 (only parsing).
Abbreviation SIG_NUMBER := m_w1 (only parsing).
Abbreviation SIG_VMID := m_w2 (only parsing).
Abbreviation SIG_MAP := m_w3 (only parsing).

(** ** Signal sets *)
Definition sigisvalid (signo : Z) : bool := u32 signo <=? _NSIG.

Definition sigaddset (set signo : Z) : Z :=
  if sigisvalid signo then Z.lor set (Z.shiftl 1 signo) else set.

Definition sigismember (set signo : Z) : Z :=
  if negb (sigisvalid signo) then -1
  else if band set (Z.shiftl 1 signo) then 1 else 0.

(** [isemptyp]. *)
Definition isemptyp (p : ptr) : K bool :=
  let* r := getp p in ret (p_rts_flags r =? SLOT_FREE).

(** ** Sending a signal to a system process *)
Definition send_sig (proc_nr sig_nr : Z) : K unit :=
  let* rp := proc_addr proc_nr in
  let* empty := (if negb (isokprocn proc_nr) then ret true else isemptyp rp) in
  if empty then skip
  else
    let* r := getp rp in
    putpriv (p_priv r) (λ p, p.[s_sig_pending := sigaddset (s_sig_pending p) sig_nr]);;;
    let* s := get in
    let saved_vm := running_vm s in
    modify (λ s, s.[running_vm := p_vmid r]);;;
    raw_notify SYSTEM (p_nr r);;;
    modify (λ s, s.[running_vm := saved_vm]).

Definition cause_sig (proc_nr sig_nr : Z) : K unit :=
  let* rp := proc_addr proc_nr in
  let* r := getp rp in
  if negb (sigismember (p_pending r) sig_nr =? 0) then skip
  else
    putp rp (λ r, r.[p_pending := sigaddset (p_pending r) sig_nr]);;;
    let* r := getp rp in
    if band (p_rts_flags r) SIGNALED then skip
    else
      when (p_rts_flags r =? 0) (lock_dequeue rp);;;
      putp rp (λ r, r.[p_rts_flags := Z.lor (p_rts_flags r) (Z.lor SIGNALED SIG_PENDING)]);;;
      send_sig PM_PROC_NR SIGKSIG.

(** ** The process manager takes signals *)

(** The slots of the user processes of the running VM, in order. *)
Definition user_slots (vmid : Z) : list (Z * Z) :=
  map (λ n, (vmid, n)) (zrange 0 NR_PROCS).

Fixpoint getksig_scan (m : message) (l : list (Z * Z)) : K (Z * message) :=
  match l with
  | [] => ret (OK, m.[SIG_ENDPT := NONE])
  | a :: l' =>
      let* r := getp (Some a) in
      if band (p_rts_flags r) SIGNALED then
        putp (Some a) (λ r, r.[p_pending := 0]
                             .[p_rts_flags := bclr (p_rts_flags r) SIGNALED]);;;
        ret (OK, m.[SIG_ENDPT := p_endpoint r].[SIG_MAP := p_pending r])
      else getksig_scan m l'
  end.

Definition do_getksig (m : message) : K (Z * message) :=
  let* s := get in getksig_scan m (user_slots (running_vm s)).

Definition do_endksig (m : message) : K (Z * message) :=
  let* ' (ok, proc) := isokendpt (SIG_ENDPT m) in
  if ok =? 0 then ret (EINVAL, m)
  else
    let* rp := proc_addr proc in
    let* r := getp rp in
    if negb (band (p_rts_flags r) SIG_PENDING) then ret (EINVAL, m)
    else
      (if negb (band (p_rts_flags r) SIGNALED) then
         putp rp (λ r, r.[p_rts_flags := bclr (p_rts_flags r) SIG_PENDING]);;;
         when (bclr (p_rts_flags r) SIG_PENDING =? 0) (lock_enqueue rp)
       else skip);;;
      ret (OK, m).

Definition NR_IRQ_VECTORS : Z := 16.
Definition NR_IRQ_HOOKS : Z := 16.
Definition IRQ_SETPOLICY : Z := 1.
Definition IRQ_RMPOLICY : Z := 2.
Definition IRQ_ENABLE : Z := 3.
Definition IRQ_DISABLE : Z := 4.
Definition IRQ_REENABLE : Z := 0x001.
Definition CHECK_IRQ : Z := 0x40.

(** The pointers to functions that a hook holds, and [&clock_hook]. *)
Definition clock_hook : Z := -1.
Definition CLOCK_HANDLER : Z := 0.
Definition GENERIC_HANDLER : Z := 1.

Definition geth (h : Z) : K irq_hook := λ s,
  match hooks s !! h with Some r => Ret r s | None => Crash end.

Definition puth (h : Z) (f : irq_hook → irq_hook) : K unit := λ s,
  match hooks s !! h with
  | Some r => Ret tt (s.[hooks := <[h := f r]> (hooks s)])
  | None => Crash
  end.

(** [irq_hook_t **]: the head of a line or the link of a hook. *)
Inductive hloc := LineHead (irq : Z) | HookNext (h : Z).

Definition hload (x : hloc) : K (option Z) :=
  match x with
  | LineHead irq => let* s := get in of_option (aget (irq_handlers s) irq)
  | HookNext h => let* r := geth h in ret (hk_next r)
  end.

Definition hstore (x : hloc) (v : option Z) : K unit :=
  match x with
  | LineHead irq =>
      let* s := get in
      let* l := of_option (aset (irq_handlers s) irq v) in
      modify (λ s, s.[irq_handlers := l])
  | HookNext h => puth h (λ r, r.[hk_next := v])
  end.

(** There are 17 hooks. *)
Definition hook_fuel : nat := 18.

(** ** [put_irq_handler] and [rm_irq_handler] *)
Definition put_scan (hook : Z) : hloc * Z → K (hloc * Z + option (hloc * Z)) :=
  λ '(line, id),
  let* x := hload line in
  match x with
  | None => ret (inr (Some (line, id)))
  | Some h => if hook =? h then ret (inr None) else ret (inl (HookNext h, s32 (Z.shiftl id 1)))
  end.

Definition put_irq_handler (hook irq handler : Z) : K unit :=
  when ((irq <? 0) || (NR_IRQ_VECTORS <=? irq)) (panic "invalid call to put_irq_handler" irq);;;
  let* r := loop hook_fuel (put_scan hook) (LineHead irq, 1) in
  match r with
  | None => skip
  | Some (line, id) =>
      when (id =? 0) (panic "Too many handlers for irq" irq);;;
      puth hook (λ r, r.[hk_next := None].[hk_handler := handler].[hk_irq := irq].[hk_id := id]);;;
      hstore line (Some hook);;;
      modify (λ s, s.[irq_use := Z.lor (irq_use s) (Z.shiftl 1 irq)])
  end.

Definition rm_scan (irq id : Z) : hloc → K (hloc + unit) := λ line,
  let* x := hload line in
  match x with
  | None => ret (inr tt)
  | Some h =>
      let* r := geth h in
      if hk_id r =? id then
        hstore line (hk_next r);;;
        let* head := hload (LineHead irq) in
        when (bool_decide (head = None))
          (modify (λ s, s.[irq_use := bclr (irq_use s) (Z.shiftl 1 irq)]));;;
        ret (inr tt)
      else ret (inl (HookNext h))
  end.

Definition rm_irq_handler (hook : Z) : K unit :=
  let* r := geth hook in
  let irq := hk_irq r in
  when ((irq <? 0) || (NR_IRQ_VECTORS <=? irq)) (panic "invalid call to rm_irq_handler" irq);;;
  loop hook_fuel (rm_scan irq (hk_id r)) (LineHead irq).

(** [enable_irq] and [disable_irq] ([src/kernel/klib386.s]). *)
Definition set_actids (irq : Z) (f : Z → Z) : K unit :=
  let* s := get in
  let* x := of_option (aget (irq_actids s) irq) in
  let* l := of_option (aset (irq_actids s) irq (f x)) in
  modify (λ s, s.[irq_actids := l]).

Definition enable_irq (hook : Z) : K unit :=
  let* r := geth hook in set_actids (hk_irq r) (λ x, bclr x (hk_id r)).
Definition disable_irq (hook : Z) : K unit :=
  let* r := geth hook in set_actids (hk_irq r) (λ x, Z.lor x (hk_id r)).

(** ** Handlers *)
Definition generic_handler (hook : Z) : K Z :=
  let* h := geth hook in
  let* ' (ok, proc) := isokendpt_vm (hk_vmid h) (hk_proc_nr_e h) in
  if ok =? 0 then puth hook (λ r, r.[hk_proc_nr_e := NONE]);;; ret 0
  else
    let* p := proc_addr proc in
    let* r := getp p in
    putpriv (p_priv r) (λ pr,
      pr.[s_int_pending := u32 (Z.lor (s_int_pending pr) (Z.shiftl 1 (hk_notify_id h)))]);;;
    raw_notify HARDWARE proc;;;
    ret (Z.land (hk_policy h) IRQ_REENABLE).

Definition run_handler (hook : Z) : K Z :=
  let* h := geth hook in
  if hk_handler h =? CLOCK_HANDLER then clock_handler else generic_handler hook.

Definition intr_step : option Z → K (option Z + unit) := λ x,
  match x with
  | None => ret (inr tt)
  | Some hook =>
      let* h := geth hook in
      modify (λ s, s.[running_vm := hk_vmid h]);;;
      set_actids (hk_irq h) (λ a, Z.lor a (hk_id h));;;
      let* policy := run_handler hook in
      let* h := geth hook in
      when (negb (policy =? 0)) (set_actids (hk_irq h) (λ a, bclr a (hk_id h)));;;
      let* h := geth hook in
      ret (inl (hk_next h))
  end.

Definition intr_handle (hook : option Z) : K unit :=
  let* s := get in
  let saved_vm := running_vm s in
  loop hook_fuel intr_step hook;;;
  modify (λ s, s.[running_vm := saved_vm]).

(** ** [do_irqctl] *)

(** Fields of the request: [mess_5]. *)
Definition IRQ_REQUEST (m : message) : Z := s16 (m_w0 m).
Definition IRQ_VECTOR (m : message) : Z := s16 (Z.shiftr (m_w0 m) 16).
Abbreviation IRQ_POLICY := m_w1 (only parsing).
Abbreviation IRQ_HOOK_ID := m_w5 (only parsing).

(** A hook of the table that the sender of [m] has in use. *)
Definition hook_check (m : message) (id : Z) : K (option Z) :=
  if (NR_IRQ_HOOKS <=? id) || (id <? 0) then ret (Some EINVAL)
  else
    let* h := geth id in
    ret (if hk_proc_nr_e h =? NONE then Some EINVAL
         else if negb (hk_proc_nr_e h =? m_source m) then Some EPERM
         else None).

(** The first hook that is not in use. *)
Fixpoint free_hook (l : list Z) : K (option Z) :=
  match l with
  | [] => ret None
  | i :: l' =>
      let* h := geth i in
      if hk_proc_nr_e h =? NONE then ret (Some i) else free_hook l'
  end.

(** Is [irq_vec] among the first [n] entries of the table? *)
Fixpoint irq_allowed (tab : list Z) (n : nat) (i irq_vec : Z) : K bool :=
  match n with
  | O => ret false
  | Datatypes.S n' =>
      let* x := of_option (aget tab i) in
      if irq_vec =? x then ret true else irq_allowed tab n' (i + 1) irq_vec
  end.

Definition irq_setpolicy (m : message) (irq_vec : Z) : K (Z * message) :=
  if (irq_vec <? 0) || (NR_IRQ_VECTORS <=? irq_vec) then ret (EINVAL, m)
  else
    let* s := get in
    let* rp := proc_addr (who_p s) in
    let* r := getp rp in
    match p_priv r with
    | None => ret (EPERM, m)
    | Some _ =>
        let* pr := getpriv (p_priv r) in
        let* allowed :=
          (if band (s_flags pr) CHECK_IRQ
           then irq_allowed (s_irq_tab pr) (Z.to_nat (s_nr_irq pr)) 0 irq_vec
           else ret true) in
        if negb allowed then ret (EPERM, m)
        else
          let* h := free_hook (zrange 0 NR_IRQ_HOOKS) in
          match h with
          | None => ret (ENOSPC, m)
          | Some hook =>
              let notify_id := s32 (IRQ_HOOK_ID m) in
              if 31 <? u32 notify_id then ret (EINVAL, m)
              else
                puth hook (λ h, h.[hk_proc_nr_e := m_source m].[hk_notify_id := notify_id]
                                 .[hk_policy := IRQ_POLICY m].[hk_vmid := p_vmid r]);;;
                put_irq_handler hook irq_vec GENERIC_HANDLER;;;
                ret (OK, m.[IRQ_HOOK_ID := hook + 1])
          end
    end.

Definition do_irqctl (m : message) : K (Z * message) :=
  let irq_hook_id := s32 (IRQ_HOOK_ID m - 1) in
  let request := IRQ_REQUEST m in
  if (request =? IRQ_ENABLE) || (request =? IRQ_DISABLE) then
    let* e := hook_check m irq_hook_id in
    match e with
    | Some e => ret (e, m)
    | None =>
        (if request =? IRQ_ENABLE then enable_irq irq_hook_id else disable_irq irq_hook_id);;;
        ret (OK, m)
    end
  else if request =? IRQ_SETPOLICY then irq_setpolicy m (IRQ_VECTOR m)
  else if request =? IRQ_RMPOLICY then
    let* e := hook_check m irq_hook_id in
    match e with
    | Some e => ret (e, m)
    | None => rm_irq_handler irq_hook_id;;; ret (OK, m)
    end
  else ret (EINVAL, m).
