(* ===== verification/KProcCalls.v ===== *)
(** * Kernel calls on processes

    Privilege structures and the end of an endpoint ([get_priv] and
    [clear_endpoint] of [src/kernel/system.c]) and the calls [do_fork], [do_exit],
    [do_kill], [do_killvm], [do_nice], [do_newmap], [do_privctl], [do_getvmid] and
    [do_times] of [src/kernel/system/]. *)
From stdpp Require Import base gmap list numbers strings.
From Stdlib Require Import ZArith Lia.
From S2P Require Import Prelude.
From S2P Require Import Timers.
From S2P Require Import KTypes.
From S2P Require Import KProc.
From S2P Require Import KSched.
From S2P Require Import KSysCall.
From S2P Require Import KClock.
From S2P Require Import KMem.
From S2P Require Import KIrq.

Definition USER_PRIV_ID : Z := 0.
Definition MF_VM : Z := 0x0008.

Abbreviation PR_ENDPT := m_w0 (only parsing).
Abbreviation PR_SLOT := m_w1 (only parsing).
Abbreviation PR_PRIORITY := m_w1 (only parsing).
Abbreviation PR_MEM_PTR := m_w3 (only parsing).

(** [priv_addr(i)], the macro of [kernel/priv.h]. *)
Definition priv_addr (i : Z) : K ptr :=
  let* s := get in
  let* vm := getvm (running_vm s) in
  ret (vm_ppriv_addr vm !! i).

(** ** [get_priv] *)

(** The slots of the privilege table of a VM, in order. *)
Definition priv_slots (vmid : Z) : list (Z * Z) :=
  map (λ i, (vmid, i)) (zrange 0 NR_SYS_PROCS).

Fixpoint free_priv (l : list (Z * Z)) : K (option (Z * Z)) :=
  match l with
  | [] => ret None
  | a :: l' =>
      let* pr := getpriv (Some a) in
      if (s_proc_nr pr =? NONE) && negb (s_id pr =? USER_PRIV_ID) then ret (Some a)
      else free_priv l'
  end.

(** After a search without success [sp] is the end of the table, and the test
    that should find this out reads past it. *)
Definition get_priv (rc : ptr) (proc_type : Z) : K Z :=
  if proc_type =? SYS_PROC then
    let* s := get in
    let* sp := free_priv (priv_slots (running_vm s)) in
    match sp with
    | None => crash
    | Some _ =>
        putp rc (λ r, r.[p_priv := sp]);;;
        let* r := getp rc in
        putpriv sp (λ p, p.[s_proc_nr := p_nr r]);;;
        (if running_vm s =? VM0 then
           let* p := getpriv sp in
           let* l := of_option (aset (s_nr p) VM0 (p_nr r)) in
           putpriv sp (λ p, p.[s_nr := l])
         else skip);;;
        putpriv sp (λ p, p.[s_flags := SYS_PROC]);;;
        ret OK
    end
  else
    let* sp := priv_addr USER_PRIV_ID in
    putp rc (λ r, r.[p_priv := sp]);;;
    putpriv sp (λ p, p.[s_proc_nr := INIT_PROC_NR].[s_flags := 0]);;;
    ret OK.

(** ** [clear_endpoint] *)
Definition unlink_scan (rc : ptr) : ploc → K (ploc + unit) := λ xpp,
  let* x := load xpp in
  match x with
  | None => ret (inr tt)
  | Some p =>
      if ptr_eqb x rc then
        let* r := getp x in store xpp (p_q_link r);;; ret (inr tt)
      else ret (inl (QLink p))
  end.

(** The process [rp] no longer waits: it gets the result [code]. *)
Definition wake (rp : ptr) (flag code : Z) : K unit :=
  putp rp (λ r, r.[p_retreg := code].[p_rts_flags := bclr (p_rts_flags r) flag]);;;
  let* r := getp rp in
  when (p_rts_flags r =? 0) (lock_enqueue rp).

Definition forget_notify (rc rp : ptr) : K unit :=
  let* rcr := getp rc in
  let* rpr := getp rp in
  let* cp := getpriv (p_priv rcr) in
  let* pp := getpriv (p_priv rpr) in
  let* pending := of_option (unset_sys_bit (s_notify_pending pp) (s_id cp)) in
  let* cnt := of_option (aset (s_ntfy_cnt pp) (s_id cp) 0) in
  putpriv (p_priv rpr) (λ p, p.[s_notify_pending := pending].[s_ntfy_cnt := cnt]).

(** One round of the loop over the process table. *)
Definition alert_dead (rc : ptr) (a : Z * Z) : K unit :=
  let rp := Some a in
  let* empty := isemptyp rp in
  if empty then skip
  else
    forget_notify rc rp;;;
    let* r := getp rp in
    let* c := getp rc in
    when (band (p_rts_flags r) RECEIVING && (p_getfrom_e r =? p_endpoint c))
      (wake rp RECEIVING ESRCDIED);;;
    let* r := getp rp in
    let* c := getp rc in
    when (band (p_rts_flags r) SENDING && (p_sendto_e r =? p_endpoint c))
      (wake rp SENDING EDSTDIED).

(** The loop starts at the slot of process 0 of the running VM. *)
Definition table_slots : K (list (Z * Z)) :=
  let* s := get in
  let* vm := getvm (running_vm s) in
  let* start := of_option (vm_pproc_addr vm !! 0) in
  ret (map (λ n, (fst start, n)) (zrange (snd start) NR_PROCS)).

(** The first part: [rc] is taken off the queues. *)
Definition clear_queues (rc : ptr) : K unit :=
  let* empty := isemptyp rc in
  let* r := getp rc in
  when empty (panic "clear_endpoint: empty process" (p_nr r));;;
  when (p_rts_flags r =? 0) (lock_dequeue rc);;;
  putp rc (λ r, r.[p_rts_flags := Z.lor (p_rts_flags r) NO_ENDPOINT]);;;
  let* r := getp rc in
  (if band (p_rts_flags r) SENDING then
     let* ' (_, target_proc) := okendpt (p_sendto_e r) in
     let* target := proc_addr target_proc in
     let* t := of_option target in
     loop list_fuel (unlink_scan rc) (CallerQ t);;;
     putp rc (λ r, r.[p_rts_flags := bclr (p_rts_flags r) SENDING])
   else skip);;;
  putp rc (λ r, r.[p_rts_flags := bclr (p_rts_flags r) RECEIVING]).

(** The second: [rc] is no longer a proxy, a virtual or a promiscuous task. *)
Definition clear_roles (rc : ptr) : K unit :=
  let* r := getp rc in
  when (band (p_misc_flags r) PROXY_SERVER)
    (putp rc (λ r, r.[p_misc_flags := bclr (p_misc_flags r) PROXY_SERVER]
                    .[p_proxy := VM0]));;;
  putp rc (λ r,
    r.[p_misc_flags := bclr (p_misc_flags r)
         (Z.lor (Z.lor (Z.lor VMID_PENDING VIRTUAL_TASK) PROMICUOUS_TASK) NOT_GETFROM)]
     .[p_recv_vm := ANY_VM]).

Definition clear_endpoint (rc : ptr) : K unit :=
  clear_queues rc;;;
  clear_roles rc;;;
  let* l := table_slots in
  for_list l (alert_dead rc).

(** ** [do_fork] *)

(** The fields of the child that [do_fork] sets after copying its parent. *)
Definition fork_child (rpp : proc) (old_e slot : Z) : proc :=
  let gen := ENDPOINT_G old_e + 1 in
  let gen := if ENDPOINT_MAX_GENERATION <=? gen then 1 else gen in
  rpp.[p_nr := slot].[p_endpoint := ENDPOINT gen slot]
     .[p_rts_flags := bclr (Z.lor (p_rts_flags rpp) NO_MAP)
                        (Z.lor (Z.lor SIGNALED SIG_PENDING) P_STOP)]
     .[p_pending := 0].[p_retreg := 0].[p_user_time := 0].[p_sys_time := 0]
     .[p_ticks_left := s8 ((p_ticks_left rpp + 1) ÷ 2)].

Definition do_fork (m : message) : K (Z * message) :=
  let* ' (ok, p_proc) := isokendpt (PR_ENDPT m) in
  if ok =? 0 then ret (EINVAL, m)
  else
    let* rpp := proc_addr p_proc in
    let* rpc := proc_addr (PR_SLOT m) in
    let* pempty := isemptyp rpp in
    let* cempty := (if pempty : bool then ret false else isemptyp rpc) in
    if pempty || negb cempty then ret (EINVAL, m)
    else
      let* c := getp rpc in
      let* p := getp rpp in
      putp rpc (λ _, fork_child p (p_endpoint c) (PR_SLOT m));;;
      putp rpp (λ r, r.[p_ticks_left := s8 (p_ticks_left r ÷ 2)]);;;
      let* pp := priv_of rpp in
      (if band (s_flags pp) SYS_PROC then
         let* up := priv_addr USER_PRIV_ID in
         putp rpc (λ r, r.[p_priv := up].[p_rts_flags := Z.lor (p_rts_flags r) NO_PRIV])
       else skip);;;
      let* p := getp rpp in
      putp rpc (λ r, r.[p_vmid := p_vmid p]);;;
      let* c := getp rpc in
      ret (OK, m.[PR_ENDPT := p_endpoint c]).

(** ** [do_exit] *)

(** The hooks of the process at [endpoint] are released. *)
Definition release_hook (endpoint i : Z) : K unit :=
  let* h := geth i in
  if endpoint =? hk_proc_nr_e h then
    rm_irq_handler i;;; puth i (λ h, h.[hk_proc_nr_e := NONE])
  else skip.

(** The page tables that [vm_map_default] sets up are not modelled. *)
Definition vm_map_default (pp : ptr) : K unit :=
  putp pp (λ r, r.[p_misc_flags := bclr (p_misc_flags r) MF_VM]).

Definition clear_proc (rc : ptr) : K unit :=
  let* empty := isemptyp rc in
  if empty then skip
  else
    clear_endpoint rc;;;
    let* r := getp rc in
    let* tp := of_option (p_priv r) in
    reset_timer tp;;;
    let* r := getp rc in
    when (p_rts_flags r =? 0) (lock_dequeue rc);;;
    for_list (zrange 0 NR_IRQ_HOOKS) (release_hook (p_endpoint r));;;
    putp rc (λ r, r.[p_rts_flags := SLOT_FREE]);;;
    let* pr := priv_of rc in
    when (band (s_flags pr) SYS_PROC) (putpriv (p_priv r) (λ p, p.[s_proc_nr := NONE]));;;
    let* r := getp rc in
    when (band (p_misc_flags r) MF_VM) (vm_map_default rc).

Definition do_exit (m : message) : K (Z * message) :=
  let* s := get in
  if (PM_PROC_NR =? who_p s) && negb (PR_ENDPT m =? SELF) then
    let* ' (ok, exit_e) := isokendpt (PR_ENDPT m) in
    if ok =? 0 then ret (EINVAL, m)
    else
      let* rc := proc_addr exit_e in
      clear_proc rc;;;
      ret (OK, m)
  else
    let* rc := proc_addr (who_p s) in
    clear_proc rc;;;
    ret (EDONTREPLY, m).

(** ** [do_kill] and [do_killvm] *)
Definition kill_proc (proc_nr sig_nr : Z) : K unit :=
  cause_sig proc_nr sig_nr;;;
  if sig_nr =? SIGKILL then
    let* rp := proc_addr proc_nr in clear_endpoint rp
  else skip.

Definition sig_target (m : message) : Z :=
  if SIG_ENDPT m =? SELF then m_source m else SIG_ENDPT m.

Definition do_kill (m : message) : K (Z * message) :=
  let sig_nr := SIG_NUMBER m in
  let* ' (ok, proc_nr) := isokendpt (sig_target m) in
  if ok =? 0 then ret (EINVAL, m)
  else if _NSIG <? sig_nr then ret (EINVAL, m)
  else if iskerneln proc_nr then ret (EPERM, m)
  else kill_proc proc_nr sig_nr;;; ret (OK, m).

(** [running_vm] is the VM of the target during the call. *)
Definition in_vm {A} (vmid : Z) (h : K A) : K A :=
  let* s := get in
  let saved_vm := running_vm s in
  modify (λ s, s.[running_vm := vmid]);;;
  let* r := h in
  modify (λ s, s.[running_vm := saved_vm]);;;
  ret r.

Definition do_killvm (m : message) : K (Z * message) :=
  let* s := get in
  let sig_nr := SIG_NUMBER m in
  let vmid := SIG_VMID m in
  if (vmid <? 0) || (NR_VMS <? vmid) then ret (EINVAL, m)
  else if negb (running_vm s =? VM0) then ret (EPERM, m)
  else if _NSIG <? sig_nr then ret (EINVAL, m)
  else
    let* stopped :=
      (if vmid =? VM0 then ret false
       else
         let* vm := getvm vmid in
         ret (negb (vm_flags vm =? Z.lor VM_LOADED VM_RUNNING))) in
    if stopped : bool then ret (EVMSTATUS, m)
    else
      let* caller_ptr := proc_addr (who_p s) in
      let* pr := priv_of caller_ptr in
      if negb (band (s_vm_bitmap pr) (Z.shiftl 1 vmid)) then ret (EBADVMID, m)
      else
        in_vm vmid (
          let* ' (ok, proc_nr) := isokendpt (sig_target m) in
          if ok =? 0 then ret (EINVAL, m)
          else if iskerneln proc_nr then ret (EPERM, m)
          else kill_proc proc_nr sig_nr;;; ret (OK, m)).

(** ** [do_nice] *)
Definition nice_queue (pri : Z) : Z :=
  let new_q := MAX_USER_Q + (pri - PRIO_MIN) * (MIN_USER_Q - MAX_USER_Q + 1)
                 ÷ (PRIO_MAX - PRIO_MIN + 1) in
  let new_q := if new_q <? MAX_USER_Q then MAX_USER_Q else new_q in
  if MIN_USER_Q <? new_q then MIN_USER_Q else new_q.

Definition do_nice (m : message) : K (Z * message) :=
  let* ' (ok, proc_nr) := isokendpt (PR_ENDPT m) in
  if ok =? 0 then ret (EINVAL, m)
  else if iskerneln proc_nr then ret (EPERM, m)
  else
    let pri := PR_PRIORITY m in
    let* rp := proc_addr proc_nr in
    if pri =? PRIO_STOP then
      lock_dequeue rp;;;
      putp rp (λ r, r.[p_rts_flags := Z.lor (p_rts_flags r) NO_PRIORITY]);;;
      ret (OK, m)
    else if (PRIO_MIN <=? pri) && (pri <=? PRIO_MAX) then
      lock_dequeue rp;;;
      putp rp (λ r, r.[p_priority := nice_queue pri].[p_max_priority := nice_queue pri]);;;
      let* r := getp rp in
      when (p_rts_flags r =? 0) (lock_enqueue rp);;;
      ret (OK, m)
    else ret (EINVAL, m).

(** ** [do_newmap]: three [struct mem_map] of three words each *)
Definition MAP_SIZE : Z := 36.

Definition read_map (m : Z → Z) (a : Z) : mem_map :=
  MemMap (mem_word m a) (mem_word m (a + 4)) (mem_word m (a + 8)).

(** [rp] runs again when the last of its flags has been cleared. *)
Definition clear_flag (rp : ptr) (flag : Z) : K unit :=
  let* r := getp rp in
  let old_flags := p_rts_flags r in
  putp rp (λ r, r.[p_rts_flags := bclr (p_rts_flags r) flag]);;;
  let* r := getp rp in
  when (negb (old_flags =? 0) && (p_rts_flags r =? 0)) (lock_enqueue rp).

Definition do_newmap (m : message) : K (Z * message) :=
  let* ' (ok, proc) := isokendpt (PR_ENDPT m) in
  if ok =? 0 then ret (EINVAL, m)
  else if iskerneln proc then ret (EPERM, m)
  else
    let* rp := proc_addr proc in
    let* s := get in
    let* caller := proc_addr (who_p s) in
    let* src_phys := umap_local caller D (u32 (PR_MEM_PTR m)) MAP_SIZE in
    if src_phys =? 0 then ret (EFAULT, m)
    else
      putp rp (λ r, r.[p_memmap_T := read_map (pmem s) src_phys]
                     .[p_memmap_D := read_map (pmem s) (src_phys + 12)]
                     .[p_memmap_S := read_map (pmem s) (src_phys + 24)]);;;
      clear_flag rp NO_MAP;;;
      ret (OK, m).

(** ** [do_getvmid] and [do_times] *)
Definition do_getvmid (m : message) : K (Z * message) :=
  let* ' (ok, proc_nr) := isokendpt (m_source m) in
  when (ok =? 0) (panic "bogus source" (m_source m));;;
  let* rp := proc_addr proc_nr in
  let* r := getp rp in
  ret (p_vmid r, m).

Abbreviation T_ENDPT := m_w0 (only parsing).
Abbreviation T_USER_TIME := m_w0 (only parsing).
Abbreviation T_SYSTEM_TIME := m_w1 (only parsing).
Abbreviation T_BOOT_TICKS := m_w4 (only parsing).

Definition do_times (m : message) : K (Z * message) :=
  let e_proc_nr := if T_ENDPT m =? SELF then m_source m else T_ENDPT m in
  let* m :=
    (if e_proc_nr =? NONE then ret m
     else
       let* ' (ok, proc_nr) := isokendpt e_proc_nr in
       if ok =? 0 then ret m
       else
         let* rp := proc_addr proc_nr in
         let* r := getp rp in
         ret (m.[T_USER_TIME := p_user_time r].[T_SYSTEM_TIME := p_sys_time r])) in
  let* t := get_uptime in
  ret (OK, m.[T_BOOT_TICKS := t]).
