(* ===== verification/KSysTask.v ===== *)
(** * The system task

    One round of the loop of [sys_task] ([src/kernel/system.c]): the request that
    [receive] put at [&m] is handed to its handler and the reply is sent.  The
    handlers that are not modelled are an argument, [other].  [do_privctl]
    ([src/kernel/system/do_privctl.c]) comes first. *)
From stdpp Require Import base gmap list numbers strings.
From Stdlib Require Import ZArith Lia.
From S2P Require Import Prelude.
From S2P Require Import Timers.
From S2P Require Import KTypes.
From S2P Require Import KProc.
From S2P Require Import KSysCall.
From S2P Require Import KClock.
From S2P Require Import KMem.
From S2P Require Import KMemCalls.
From S2P Require Import KIrq.
From S2P Require Import KProcCalls.

Definition SYS_PRIV_INIT : Z := 1.
Definition SYS_PRIV_ADD_IO : Z := 2.
Definition SYS_PRIV_ADD_MEM : Z := 3.
Definition SYS_PRIV_ADD_IRQ : Z := 4.
Definition NR_IO_RANGE : Z := 10.
Definition NR_MEM_RANGE : Z := 10.
Definition NR_IRQ : Z := 4.
Definition CHECK_IO_PORT : Z := 0x20.
Definition CHECK_MEM : Z := 0x80.
Definition FILLED_MASK : Z := -1.

Abbreviation CTL_REQUEST := m_w1 (only parsing).
Abbreviation CTL_MM_PRIV := m_w2 (only parsing).
Abbreviation CTL_ARG_PTR := m_w5 (only parsing).

(** The words of a bit map over system ids. *)
Definition SYS_CHUNKS : nat := 2.

(** The privileges a process gets: those of its caller, with its own id and
    number, nothing pending and the right to send to anyone. *)
Definition inherit_priv (caller : priv) (id proc_nr : Z) : priv :=
  caller.[s_id := id].[s_proc_nr := proc_nr]
    .[s_notify_pending := replicate SYS_CHUNKS 0]
    .[s_int_pending := 0].[s_sig_pending := 0]
    .[s_trap_mask := FILLED_MASK]
    .[s_ipc_to := replicate SYS_CHUNKS (u16 FILLED_MASK)].

(** [*priv(rp) = *priv(caller_ptr)]: the structure with its alarm timer. *)
Definition copy_priv (dst src : ptr) (f : priv → priv) : K unit :=
  let* d := of_option dst in
  let* c := of_option src in
  let* pr := getpriv src in
  putpriv dst (λ _, f pr);;;
  let* t := gett c in
  putt d (λ _, t).

(** The processes that [rp] can send to can reply. *)
Definition allow_send (rp : ptr) (i : Z) : K unit :=
  let* r := getp rp in
  let* pr := getpriv (p_priv r) in
  let* sends := of_option (get_sys_bit (s_ipc_to pr) i) in
  if sends : bool then
    let* other := priv_addr i in
    let* po := getpriv other in
    let* l := of_option (set_sys_bit (s_ipc_to po) (s_id pr)) in
    putpriv other (λ p, p.[s_ipc_to := l])
  else skip.

(** One round of the loop over the ids. *)
Definition allow_reply (rp : ptr) (i : Z) : K unit :=
  allow_send rp i;;;
  let* r := getp rp in
  let* pr := getpriv (p_priv r) in
  let* cnt := of_option (aset (s_ntfy_cnt pr) i 0) in
  putpriv (p_priv r) (λ p, p.[s_ntfy_cnt := cnt]).

Definition priv_init (caller_ptr rp : ptr) (proc_nr : Z) : K Z :=
  let* r := getp rp in
  if negb (band (p_rts_flags r) NO_PRIV) then ret EPERM
  else
    let* i := get_priv rp SYS_PROC in
    if negb (i =? OK) then ret i
    else
      let* r := getp rp in
      let* pr := getpriv (p_priv r) in
      let* c := getp caller_ptr in
      copy_priv (p_priv r) (p_priv c) (λ cp, inherit_priv cp (s_id pr) proc_nr);;;
      let* pr := getpriv (p_priv r) in
      let* to := of_option (unset_sys_bit (s_ipc_to pr) USER_PRIV_ID) in
      putpriv (p_priv r) (λ p, p.[s_ipc_to := to]);;;
      for_list (zrange 0 NR_SYS_PROCS) (allow_reply rp);;;
      putpriv (p_priv r) (λ p,
        p.[s_nr_io_range := 0].[s_nr_mem_range := 0].[s_nr_irq := 0]
         .[s_vm_bitmap := Z.shiftl 1 (p_vmid r)].[s_dr_bitmap := 0]);;;
      clear_flag rp NO_PRIV;;;
      ret OK.

(** The checks that the three requests for resources share. *)
Definition priv_add_check (rp : ptr) : K bool :=
  let* r := getp rp in
  if band (p_rts_flags r) NO_PRIV then ret false
  else let* pr := priv_of rp in ret (band (s_flags pr) SYS_PROC).

(** An [struct io_range] or [struct mem_range] of the caller: two words. *)
Definition fetch_range (caller_ptr : ptr) (arg : Z) : K (option (Z * Z)) :=
  let* a := umap_local caller_ptr D (u32 arg) 8 in
  let* s := get in
  ret (if a =? 0 then None else Some (mem_word (pmem s) a, mem_word (pmem s) (a + 4))).

Definition priv_add_io (caller_ptr rp : ptr) (arg : Z) : K Z :=
  let* ok := priv_add_check rp in
  if negb ok then ret EPERM
  else
    let* io_range := fetch_range caller_ptr arg in
    match io_range with
    | None => ret EFAULT
    | Some range =>
        let* r := getp rp in
        putpriv (p_priv r) (λ p, p.[s_flags := Z.lor (s_flags p) CHECK_IO_PORT]);;;
        let* pr := getpriv (p_priv r) in
        let i := s_nr_io_range pr in
        if NR_IO_RANGE <=? i then ret ENOMEM
        else
          let* tab := of_option (aset (s_io_tab pr) i range) in
          putpriv (p_priv r) (λ p, p.[s_io_tab := tab].[s_nr_io_range := i + 1]);;;
          ret OK
    end.

(** The range of memory is fetched, but not stored. *)
Definition priv_add_mem (caller_ptr rp : ptr) (arg : Z) : K Z :=
  let* ok := priv_add_check rp in
  if negb ok then ret EPERM
  else
    let* mem_range := fetch_range caller_ptr arg in
    match mem_range with
    | None => ret EFAULT
    | Some _ =>
        let* r := getp rp in
        putpriv (p_priv r) (λ p, p.[s_flags := Z.lor (s_flags p) CHECK_MEM]);;;
        let* pr := getpriv (p_priv r) in
        ret (if NR_MEM_RANGE <=? s_nr_mem_range pr then ENOMEM else OK)
    end.

Definition priv_add_irq (rp : ptr) (irq : Z) : K Z :=
  let* ok := priv_add_check rp in
  if negb ok then ret EPERM
  else
    let* r := getp rp in
    putpriv (p_priv r) (λ p, p.[s_flags := Z.lor (s_flags p) CHECK_IRQ]);;;
    let* pr := getpriv (p_priv r) in
    let i := s_nr_irq pr in
    if NR_IRQ <=? i then ret ENOMEM
    else
      let* tab := of_option (aset (s_irq_tab pr) i irq) in
      putpriv (p_priv r) (λ p, p.[s_irq_tab := tab].[s_nr_irq := i + 1]);;;
      ret OK.

Definition do_privctl (m : message) : K (Z * message) :=
  let* s := get in
  let* caller_ptr := proc_addr (who_p s) in
  let* cp := priv_of caller_ptr in
  if negb (band (s_flags cp) SYS_PROC) then ret (EPERM, m)
  else
    let* ' (ok, proc_nr) := isokendpt (PR_ENDPT m) in
    if ok =? 0 then ret (EINVAL, m)
    else
      let* rp := proc_addr proc_nr in
      let request := CTL_REQUEST m in
      let* r :=
        (if request =? SYS_PRIV_INIT then priv_init caller_ptr rp proc_nr
         else if request =? SYS_PRIV_ADD_IO then priv_add_io caller_ptr rp (CTL_ARG_PTR m)
         else if request =? SYS_PRIV_ADD_MEM then priv_add_mem caller_ptr rp (CTL_ARG_PTR m)
         else if request =? SYS_PRIV_ADD_IRQ then priv_add_irq rp (CTL_MM_PRIV m)
         else ret EINVAL) in
      ret (r, m).

(** Numbers of the calls ([include/minix/com.h]). *)
Definition NR_SYS_CALLS : Z := 36.
Definition SYS_FORK : Z := KERNEL_CALL + 0.
Definition SYS_EXIT : Z := KERNEL_CALL + 2.
Definition SYS_NICE : Z := KERNEL_CALL + 3.
Definition SYS_PRIVCTL : Z := KERNEL_CALL + 4.
Definition SYS_KILL : Z := KERNEL_CALL + 6.
Definition SYS_GETKSIG : Z := KERNEL_CALL + 7.
Definition SYS_ENDKSIG : Z := KERNEL_CALL + 8.
Definition SYS_NEWMAP : Z := KERNEL_CALL + 11.
Definition SYS_MEMSET : Z := KERNEL_CALL + 13.
Definition SYS_UMAP : Z := KERNEL_CALL + 14.
Definition SYS_VIRCOPY : Z := KERNEL_CALL + 15.
Definition SYS_VIRVCOPY : Z := KERNEL_CALL + 17.
Definition SYS_IRQCTL : Z := KERNEL_CALL + 19.
Definition SYS_SETALARM : Z := KERNEL_CALL + 24.
Definition SYS_TIMES : Z := KERNEL_CALL + 25.
Definition SYS_GETVMID : Z := KERNEL_CALL + 31.
Definition SYS_VCOPYVM : Z := KERNEL_CALL + 33.
Definition SYS_UMAPVM : Z := KERNEL_CALL + 34.
Definition SYS_KILLVM : Z := KERNEL_CALL + 35.

Section systask.
(** The handlers of [call_vec] that are not modelled. *)
Variable other : Z → message → K (Z * message).

(** [call_vec], as [initialize] fills it. *)
Definition call_vec (call_nr : Z) (m : message) : K (Z * message) :=
  let n := KERNEL_CALL + call_nr in
  if n =? SYS_FORK then do_fork m
  else if n =? SYS_EXIT then do_exit m
  else if n =? SYS_NICE then do_nice m
  else if n =? SYS_PRIVCTL then do_privctl m
  else if n =? SYS_KILL then do_kill m
  else if n =? SYS_GETKSIG then do_getksig m
  else if n =? SYS_ENDKSIG then do_endksig m
  else if n =? SYS_NEWMAP then do_newmap m
  else if n =? SYS_MEMSET then do_memset m
  else if n =? SYS_UMAP then do_umap m
  else if (n =? SYS_VIRCOPY) || (n =? SYS_PHYSCOPY)
  then do_copy m
  else if (n =? SYS_VIRVCOPY) || (n =? SYS_PHYSVCOPY)
  then do_vcopy m
  else if n =? SYS_IRQCTL then do_irqctl m
  else if n =? SYS_SETALARM then let* s := get in do_setalarm (who_p s) m
  else if n =? SYS_TIMES then do_times m
  else if n =? SYS_GETVMID then do_getvmid m
  else if n =? SYS_VCOPYVM then do_vcopyvm m
  else if n =? SYS_UMAPVM then do_umapvm m
  else if n =? SYS_KILLVM then do_killvm m
  else other call_nr m.

(** The address of the task's message buffer [m], at [m_ptr] in its data segment. *)
Definition sys_buffer (m_ptr : Z) : K Z :=
  let* s := get in
  let* t := getp (systask_ptr s) in
  ret (phys_addr (mem_phys (p_memmap_D t)) m_ptr).

Definition sys_task_round (m_ptr : Z) : K unit :=
  let* a := sys_buffer m_ptr in
  let* s := get in
  let m := default msg0 (kmem s !! a) in
  let call_nr := u32 (m_type m - KERNEL_CALL) in
  let* ' (_, p) := okendpt (m_source m) in
  modify (λ s, s.[who_e := m_source m].[who_p := p]);;;
  let* ' (result, m') :=
    (if NR_SYS_CALLS <=? call_nr then ret (EBADREQUEST, m) else call_vec call_nr m) in
  let m' := if result =? EDONTREPLY then m' else m'.[m_type := result] in
  modify (λ s, s.[kmem := <[a := m']> (kmem s)]);;;
  if result =? EDONTREPLY then skip
  else lock_send (m_source m') m_ptr;;; skip.
End systask.
