(* ===== verification/KVmm.v ===== *)
(** * The life cycle of a virtual machine

    [src/kernel/system/do_vmmreq.c]: the calls of the VM manager.  VMM_LOAD copies
    the manager's descriptor of a VM, makes its loader a system process and lays
    out its memory; VMM_START sets up its boot processes and lets it run;
    VMM_PROC configures its drivers; the other requests do nothing yet.

    Where the linker puts the kernel's variables and how the C compiler lays out
    the two structures that are copied from user memory are arguments; the
    registers and segment descriptors of the boot processes are left out.

    The first part is the text that this uses: comparison of names in fixed fields
    ([strcmp], [strcpy]), [ul2a] of [src/kernel/utility.c], [get_value] of
    [src/kernel/start.c] and the boot parameters of [set_boot_parms].  A string is the
    characters before the NUL; boot parameters, which contain NULs, are the characters
    of the buffer up to and with the one that ends it. *)
From stdpp Require Import base gmap list numbers strings.
From Stdlib Require Import ZArith Lia Ascii.
From S2P Require Import Prelude.
From S2P Require Import Timers.
From S2P Require Import KTypes.
From S2P Require Import KProc.
From S2P Require Import KSched.
From S2P Require Import KSysCall.
From S2P Require Import KClock.
From S2P Require Import KMem.
From S2P Require Import KMemCalls.
From S2P Require Import KIrq.
From S2P Require Import KProcCalls.
From S2P Require Import KSysTask.

Local Open Scope string_scope.

Definition NUL : ascii := Ascii.zero.

(** ** C strings *)
Fixpoint upto_nul (s : string) : string :=
  match s with
  | EmptyString => EmptyString
  | String c s' => if Ascii.eqb c NUL then EmptyString else String c (upto_nul s')
  end.

(** The bytes of a 32-bit word, lowest first. *)
Definition word_bytes (z : Z) : string :=
  let b i := ascii_of_nat (Z.to_nat (Z.land (Z.shiftr z (8 * i)) 255)) in
  String (b 0) (String (b 1) (String (b 2) (String (b 3) EmptyString))).

Fixpoint bytes_word (s : string) : Z :=
  match s with
  | EmptyString => 0
  | String c s' => Z.of_nat (nat_of_ascii c) + 256 * bytes_word s'
  end.

Definition P_NAME_LEN : nat := 8.

(** What [strcmp] reads at a name field: a name of eight characters has no NUL,
    and goes on in the fields [next] that follow it. *)
Definition c_name (name next : string) : string :=
  if (String.length name <? P_NAME_LEN)%nat then name else upto_nul (name ++ next).

Definition proc_c_name (r : proc) : string :=
  c_name (p_name r) (word_bytes (p_endpoint r) ++ word_bytes (p_vmid r)).
Definition drv_c_name (d : vm_drv) : string :=
  c_name (drv_name d) (word_bytes (drv_type d) ++ word_bytes (drv_bitmap d)).

Definition strcmp_eq (s t : string) : bool := String.eqb s t.

(** The word [z] after the first bytes of [w] have been written over it. *)
Definition overlay (z : Z) (w : string) : Z :=
  let w := String.substring 0 4 w in
  match String.length w with
  | O => z
  | n => bytes_word (w ++ String.substring n (4 - n) (word_bytes z))
  end.

(** [strcpy(drv_name, s)]: the fields that follow the name are overwritten when
    [s] does not fit in it; [None] when it does not fit in the structure. *)
Definition strcpy_drv (d : vm_drv) (s : string) : option vm_drv :=
  let n := String.length s in
  let w := (s ++ String NUL EmptyString) in
  if (16 <=? n)%nat then None
  else Some (VmDrv (String.substring 0 P_NAME_LEN s)
    (overlay (drv_type d) (String.substring 8 4 w)) (overlay (drv_bitmap d) (String.substring 12 4 w))).

(** ** [ul2a] *)
Definition hex_digits : string := "0123456789ABCDEF".

(** [num] has room for this many digits. *)
Definition ul2a_room : nat := 11.

Fixpoint ul2a_loop (room : nat) (n b : Z) (a : string) : option string :=
  match room with
  | O => None
  | Datatypes.S room =>
      match String.get (Z.to_nat (n mod b)%Z) hex_digits with
      | None => None
      | Some c => if (0 <? n / b)%Z then ul2a_loop room (n / b)%Z b (String c a) else Some (String c a)
      end
  end.

Definition ul2a (n b : Z) : option string := ul2a_loop ul2a_room n b EmptyString.

(** ** [get_value] *)
Fixpoint after_nul (s : string) : option string :=
  match s with
  | EmptyString => None
  | String c s' => if Ascii.eqb c NUL then Some s' else after_nul s'
  end.

Fixpoint match_name (namep envp : string) : string * string :=
  match namep, envp with
  | String a n, String b e => if Ascii.eqb a b then match_name n e else (namep, envp)
  | _, _ => (namep, envp)
  end.

(** [None]: the scan left the buffer; [Some None]: [NIL_PTR]. *)
Fixpoint get_value_loop (fuel : nat) (envp name : string) : option (option string) :=
  match fuel with
  | O => None
  | Datatypes.S fuel =>
      match envp with
      | EmptyString => None
      | String c _ =>
          if Ascii.eqb c NUL then Some None
          else
            match match_name name envp with
            | (EmptyString, String c e) =>
                if Ascii.eqb c "="%char then Some (Some (upto_nul e))
                else match after_nul (String c e) with
                     | None => None
                     | Some e => get_value_loop fuel e name
                     end
            | (_, e) =>
                match after_nul e with None => None | Some e => get_value_loop fuel e name end
            end
      end
  end.

(** Each round leaves at least one character behind. *)
Definition get_value (params name : string) : option (option string) :=
  get_value_loop (Datatypes.S (String.length params)) params name.

(** ** The parameters of a VM *)
Definition SECTOR_SIZE : nat := 512.

Definition token : list string :=
  ["rootdev"; "ramimagedev"; "ramsize"; "processor"; "bus"; "video"; "image"; "memory"].

(** A value that is missing is a null pointer for [strcat]. *)
Definition token_value (src tk : string) (base len : Z) : option string :=
  if strcmp_eq tk "memory" then
    a ← ul2a base 16; l ← ul2a len 16; Some (a ++ ":" ++ l)
  else v ← get_value src tk; v.

Fixpoint build_params (tks : list string) (src : string) (base len : Z) : option string :=
  match tks with
  | [] => Some (String NUL EmptyString)
  | tk :: tks =>
      v ← token_value src tk base len;
      rest ← build_params tks src base len;
      Some (tk ++ "=" ++ v ++ String NUL rest)
  end.

(** The length that [set_boot_parms] computes. *)
Fixpoint params_length (tks : list string) (dst : string) : option Z :=
  match tks with
  | [] => Some 1%Z
  | tk :: tks =>
      v ← get_value dst tk;
      v ← v;
      n ← params_length tks dst;
      Some (Z.of_nat (String.length tk) + 1 + (Z.of_nat (String.length v) + 1) + n)%Z
  end.

Local Close Scope string_scope.

Definition VMM_INFO : Z := 0x900.
Definition VMM_START : Z := 0x902.
Definition VMM_STOP : Z := 0x903.
Definition VMM_SUSPEND : Z := 0x905.
Definition VMM_RESUME : Z := 0x906.
Definition VMM_SAVE : Z := 0x907.
Definition VMM_RESTORE : Z := 0x908.
Definition VMM_VMDUMP : Z := 0x90A.
Definition VMM_PROC : Z := 0x90C.
Definition SYS_VMMREQ : Z := KERNEL_CALL + 32.

Abbreviation VMM_cmd := m_w0 (only parsing).
Abbreviation VMM_vmid := m_w1 (only parsing).
Abbreviation m1_i3 := m_w2 (only parsing).
Abbreviation m1_p1 := m_w3 (only parsing).

(** The types of drivers ([include/minix/com.h]). *)
Definition DISABLED_PROC_TYPE : Z := 0x0000.
Definition REAL_PROC_TYPE : Z := 0x0001.
Definition VIRTUAL_PROC_TYPE : Z := 0x0002.
Definition PROMISCUOUS_PROC_TYPE : Z := 0x0004.
Definition MH_TYPE (x : Z) : Z := Z.land x 0x000F.
Definition BOOT_LOADED : Z := 0x0000.
Definition EXEC_LOADED : Z := 0x0010.
Definition MH_LOADED (x : Z) : Z := Z.land x 0x0010.
Definition DONOT_NTFY : Z := 0x0000.
Definition BOOT_NTFY : Z := 0x0020.
Definition EXEC_NTFY : Z := 0x0040.
Definition MH_NTFY (x : Z) : Z := Z.land x 0x0060.
Definition KERNEL_LEVEL : Z := 0x0000.
Definition SERVER_LEVEL : Z := 0x0200.
Definition USER_LEVEL : Z := 0x0400.
Definition PARAVIRTUAL : Z := 0x1000.

(** [dflt_driver] ([kernel/drivers.h]). *)
Definition dflt_driver : list vm_drv :=
  let row name flags := VmDrv name (foldr Z.lor 0 flags) 0 in
  [row "idle" [DISABLED_PROC_TYPE; BOOT_LOADED; KERNEL_LEVEL; DONOT_NTFY];
   row "clock" [DISABLED_PROC_TYPE; BOOT_LOADED; KERNEL_LEVEL; DONOT_NTFY];
   row "system" [VIRTUAL_PROC_TYPE; BOOT_LOADED; KERNEL_LEVEL; DONOT_NTFY];
   row "kernel" [DISABLED_PROC_TYPE; BOOT_LOADED; KERNEL_LEVEL; DONOT_NTFY];
   row "pm" [REAL_PROC_TYPE; BOOT_LOADED; SERVER_LEVEL; DONOT_NTFY];
   row "fs" [REAL_PROC_TYPE; BOOT_LOADED; SERVER_LEVEL; DONOT_NTFY];
   row "rs" [REAL_PROC_TYPE; BOOT_LOADED; SERVER_LEVEL; DONOT_NTFY];
   row "ds" [REAL_PROC_TYPE; BOOT_LOADED; SERVER_LEVEL; DONOT_NTFY];
   row "tty" [PROMISCUOUS_PROC_TYPE; BOOT_LOADED; TASK_LEVEL; BOOT_NTFY];
   row "mem" [REAL_PROC_TYPE; BOOT_LOADED; TASK_LEVEL; DONOT_NTFY];
   row "log" [REAL_PROC_TYPE; BOOT_LOADED; TASK_LEVEL; DONOT_NTFY];
   row "vmm" [DISABLED_PROC_TYPE; BOOT_LOADED; SERVER_LEVEL; DONOT_NTFY];
   row "init" [REAL_PROC_TYPE; BOOT_LOADED; USER_LEVEL; DONOT_NTFY];
   row "floppy" [VIRTUAL_PROC_TYPE; EXEC_LOADED; TASK_LEVEL; DONOT_NTFY];
   row "is" [PROMISCUOUS_PROC_TYPE; EXEC_LOADED; SERVER_LEVEL; DONOT_NTFY];
   row "at_wini" [PROMISCUOUS_PROC_TYPE; EXEC_LOADED; TASK_LEVEL; EXEC_NTFY];
   row "pci" [PROMISCUOUS_PROC_TYPE; EXEC_LOADED; TASK_LEVEL; DONOT_NTFY];
   row "printer" [REAL_PROC_TYPE; EXEC_LOADED; TASK_LEVEL; DONOT_NTFY; PARAVIRTUAL];
   row "cmos" [PROMISCUOUS_PROC_TYPE; EXEC_LOADED; TASK_LEVEL; DONOT_NTFY];
   row "random" [PROMISCUOUS_PROC_TYPE; EXEC_LOADED; TASK_LEVEL; DONOT_NTFY];
   row "lance" [DISABLED_PROC_TYPE; EXEC_LOADED; TASK_LEVEL; DONOT_NTFY];
   row "inet" [DISABLED_PROC_TYPE; EXEC_LOADED; SERVER_LEVEL; DONOT_NTFY]].

(** ** Access to the tables *)
Definition getboot (v : Z) : K vm_boot := λ s,
  match boots s !! v with Some b => Ret b s | None => Crash end.

Definition putboot (v : Z) (f : vm_boot → vm_boot) : K unit := λ s,
  match boots s !! v with
  | Some b => Ret tt (s.[boots := <[v := f b]> (boots s)])
  | None => Crash
  end.

(** [systask_ptr->p_vmid = running_vm = v]. *)
Definition enter_vm (v : Z) : K unit :=
  modify (λ s, s.[running_vm := v]);;;
  let* s := get in putp (systask_ptr s) (λ r, r.[p_vmid := v]).

Definition put_driver (v i : Z) (f : vm_drv → option vm_drv) : K unit :=
  let* b := getboot v in
  let* d := of_option (aget (vm_driver b) i) in
  let* d' := of_option (f d) in
  let* l := of_option (aset (vm_driver b) i d') in
  putboot v (λ b, b.[vm_driver := l]).

(** What is copied for VMM_PROC, a part of [proc_cfg_t]. *)
Record proc_cfg := ProcCfg { pc_name : string; pc_flags : Z; pc_bitmap : Z }.

(** The variables of the kernel whose address matters. *)
Inductive kobj :=
  | VmmDescOf (vmid : Z) | BootParamsOf (vmid : Z) | ProcTableOf (vmid : Z) | ProcCfgBuf.

Section vmm.
(** The address of a variable in the data segment of the kernel, the sizes of
    [vmm_desc_t] and [proc_cfg_t] and how they are laid out in memory; the value
    of the variable that [clear_VM0_procs] does not initialise. *)
Context (kaddr : kobj → Z) (sizeof_vmm_desc sizeof_proc_cfg : Z).
Context (read_vmm_desc : (Z → Z) → Z → Z * vmm_desc).
Context (read_proc_cfg : (Z → Z) → Z → proc_cfg).
Context (uninit_i : Z).

(** The physical address of a variable of the kernel. *)
Definition kphys (o : kobj) : K Z :=
  let* s := get in
  let* t := getp (systask_ptr s) in
  ret (phys_addr (mem_phys (p_memmap_D t)) (kaddr o)).

(** ** [local_vcopy]

    The message of the call is a variable on the stack whose source and type are
    not set; no copy between local segments looks at them. *)
Definition local_vcopy (src_ep src_seg src_addr dst_ep dst_seg dst_addr bytes : Z) : K Z :=
  let m := msg0.[m_w0 := Z.lor src_seg (Z.shiftl dst_seg 16)]
             .[CP_SRC_ENDPT := src_ep].[CP_SRC_ADDR := src_addr]
             .[CP_DST_ENDPT := dst_ep].[CP_DST_ADDR := dst_addr].[CP_NR_BYTES := bytes] in
  let* ' (r, _) := do_copy m in ret r.

(** The copy of user memory into the descriptor of VM [vmid], or into [proc_cfg]. *)
Definition fetch_vmm_desc (src_ep src_addr vmid : Z) : K Z :=
  let* r := local_vcopy src_ep D src_addr SYSTEM D (kaddr (VmmDescOf vmid)) sizeof_vmm_desc in
  if r =? OK then
    let* a := kphys (VmmDescOf vmid) in
    let* s := get in
    let '(ep, d) := read_vmm_desc (pmem s) a in
    putvm vmid (λ v, v.[vm_vmm_endpoint := ep]);;;
    putboot vmid (λ b, b.[vm_VMM := d]);;;
    ret OK
  else ret r.

(** ** [fill_vmmap] *)

(** The regions, from the data segment of the loader and the addresses in the
    descriptor. *)
Definition layout (d : mem_map) (img : vmm_desc) : vm_mmap :=
  let image_vir := Z.shiftr (u32 (img_addr img + CLICK_SIZE)) CLICK_SHIFT in
  let start_len := u32 (image_vir - mem_vir d) in
  let image_phys := u32 (mem_phys d + start_len) in
  let bottom_vir := u32 (image_vir + Z.shiftr (u32 (img_bytes img + 2 * CLICK_SIZE)) CLICK_SHIFT) in
  let image_len := u32 (bottom_vir - image_vir) in
  let bottom_phys := u32 (image_phys + image_len) in
  let top_vir := Z.shiftr (u32 (img_stk_addr img - CLICK_SIZE)) CLICK_SHIFT in
  let bottom_len := u32 (top_vir - bottom_vir) in
  VmMmap (MemMap (mem_vir d) (mem_phys d) start_len)
    (MemMap image_vir image_phys image_len)
    (MemMap bottom_vir bottom_phys bottom_len)
    (MemMap top_vir (u32 (bottom_phys + bottom_len)) 1).

Definition fill_vmmap (vmid : Z) : K Z :=
  let* vm := getvm vmid in
  let* ' (ok, vmload_p) := isokendpt (vm_vmm_endpoint vm) in
  if ok =? 0 then ret EINVAL
  else
    let* lp := proc_addr vmload_p in
    let* l := getp lp in
    putboot vmid (λ b,
      let map := layout (p_memmap_D l) (vm_VMM b) in
      b.[vm_mmap_of := map]
       .[vm_VMM := (vm_VMM b).[img_vmsize := mem_len (vmmap_bottom map)]]);;;
    ret OK.

(** ** [set_loader_priv] *)
Definition set_loader_priv (lp : ptr) : K Z :=
  let* rs_ptr := proc_addr RS_PROC_NR in
  let* rcode := get_priv lp SYS_PROC in
  if negb (rcode =? OK) then ret rcode
  else
    let* l := getp lp in
    let* pr := getpriv (p_priv l) in
    let* rs := getp rs_ptr in
    copy_priv (p_priv l) (p_priv rs) (λ rp, inherit_priv rp (s_id pr) (p_nr l));;;
    putpriv (p_priv l) (λ p, p.[s_ntfy_cnt := replicate (Z.to_nat NR_SYS_PROCS) 0]);;;
    let* pr := getpriv (p_priv l) in
    let* to := of_option (unset_sys_bit (s_ipc_to pr) USER_PRIV_ID) in
    putpriv (p_priv l) (λ p, p.[s_ipc_to := to]);;;
    for_list (zrange 0 NR_SYS_PROCS) (allow_send lp);;;
    putpriv (p_priv l) (λ p, p.[s_nr_io_range := 0].[s_nr_mem_range := 0].[s_nr_irq := 0]);;;
    ret OK.

(** ** VMM_LOAD *)

(** The name of the loader: VM and the digit of the VM. *)
Definition vm_name (vmid : Z) : string :=
  String "V"%char (String "M"%char (String (Ascii.ascii_of_nat (Z.to_nat (vmid + 48))) EmptyString)).

(** The table of drivers of a new VM: the default ones, then free entries. *)
Definition init_driver (vmid i : Z) : K unit :=
  put_driver vmid i (λ d,
    match nth_error dflt_driver (Z.to_nat i) with
    | Some x => Some x
    | None => d' ← strcpy_drv d "NO_DRIVER"; Some (d'.[drv_type := DISABLED_PROC_TYPE])
    end).

Definition do_vm_load (m : message) : K Z :=
  let vmid := VMM_vmid m in
  if (vmid <? 0) || (NR_VMS <=? vmid) then ret EINVAL
  else
    let* vm := getvm vmid in
    if negb (vm_flags vm =? VM_FREE) then ret EVMSTATUS
    else
      let* rcode := fetch_vmm_desc VMM_PROC_NR (m1_p1 m) vmid in
      if negb (rcode =? OK) then ret rcode
      else
        let* vm := getvm vmid in
        let* ' (ok, vmload_p) := isokendpt (vm_vmm_endpoint vm) in
        if ok =? 0 then ret EINVAL
        else
          let* lp := proc_addr vmload_p in
          putp lp (λ r, r.[p_name := vm_name vmid]);;;
          let* rcode := fill_vmmap vmid in
          if negb (rcode =? OK) then ret rcode
          else
            let* rcode := set_loader_priv lp in
            if negb (rcode =? OK) then ret rcode
            else
              let* b := getboot vmid in
              let* start := umap_local lp D (img_addr (vm_VMM b)) 1 in
              let* end_ := umap_local lp D (img_stk_addr (vm_VMM b)) 1 in
              putvm vmid (λ v, v.[vm_start := start].[vm_end := end_]);;;
              for_list (zrange 0 NR_SYS_PROCS) (init_driver vmid);;;
              putvm vmid (λ v, v.[vm_flags := VM_LOADED]);;;
              ret OK.

(** ** The parameters and the kernel information of a VM *)

(** [set_boot_parms]: the result fits in the buffer of the VM or is written past
    its end. *)
Definition set_boot_parms (vmid : Z) : K Z :=
  let* b := getboot vmid in
  let* pm_ptr := proc_addr PM_PROC_NR in
  let* pm := getp pm_ptr in
  let vm_len := s32 (mem_phys (vmmap_top (vm_mmap_of b)) - mem_phys (p_memmap_T pm)) in
  let* b0 := getboot VM0 in
  let* dst := of_option (build_params token (vm_boot_params b0)
    (u32 (Z.shiftl (mem_phys (p_memmap_T pm)) CLICK_SHIFT)) (u32 (Z.shiftl vm_len CLICK_SHIFT))) in
  if (SECTOR_SIZE + 1 <? String.length dst)%nat then crash
  else
    putboot vmid (λ b, b.[vm_boot_params := dst]);;;
    of_option (params_length token dst).

Definition set_params (vmid len : Z) : K unit :=
  let* s := get in
  putboot (running_vm s) (λ b, b.[vm_kinfo := (vm_kinfo b)
    .[params_base := kaddr (BootParamsOf vmid)].[params_size := len]]).

Definition set_mem_chunks (vmid : Z) : K unit :=
  let* len := set_boot_parms vmid in set_params vmid len.

Definition mh_start (vmid : Z) : K Z :=
  let* b0 := getboot VM0 in
  putboot vmid (λ b, b.[vm_kinfo := vm_kinfo b0].[vm_machine := vm_machine b0]);;;
  let* s := get in
  putboot vmid (λ b, b.[vm_kinfo := (vm_kinfo b)
    .[ki_proc_addr := kaddr (ProcTableOf (running_vm s))]
    .[kmem_base := u32 (Z.shiftl (mem_phys (vmmap_start (vm_mmap_of b))) CLICK_SHIFT)]
    .[kmem_size := u32 (Z.shiftl (u32 (mem_phys (vmmap_top (vm_mmap_of b))
                                       - mem_phys (vmmap_start (vm_mmap_of b)))) CLICK_SHIFT)]
    .[bootdev_base := 0].[bootdev_size := 0].[ramdev_base := 0].[ramdev_size := 0]]);;;
  let* len := set_boot_parms vmid in
  set_params vmid len;;;
  putboot (running_vm s) (λ b, b.[vm_kinfo := (vm_kinfo b)
    .[ki_vmid := vmid].[ki_proc_addr := kaddr (ProcTableOf (running_vm s))]]);;;
  putvm (running_vm s) (λ v, v.[vm_kloadinfo := (vm_kloadinfo v)
    .[proc_last_slot := 0].[proc_load_history := replicate (Z.to_nat LOAD_HISTORY) 0]]);;;
  ret OK.

(** ** [setup_bproc] *)

(** Its descriptor: tasks through the table of the running VM, as [proc_addr]
    would give the tasks of VM0. *)
Definition bproc_addr (p_nr : Z) : K ptr :=
  if p_nr <=? HARDWARE then
    let* s := get in
    let* vm := getvm (running_vm s) in
    ret (vm_pproc_addr vm !! p_nr)
  else proc_addr p_nr.

(** The fields set from the image entry. *)
Definition bproc_fields (bip : boot_image) (r : proc) : proc :=
  let e := if bi_endpoint bip =? 0 then ENDPOINT 0 (p_nr r) else bi_endpoint bip in
  r.[p_max_priority := s8 (bi_quantum bip)].[p_priority := s8 (bi_priority bip)]
   .[p_quantum_size := s8 (bi_quantum bip)].[p_ticks_left := s8 (bi_quantum bip)]
   .[p_name := bi_proc_name bip].[p_endpoint := e].

Definition put_image (vmid imgindex : Z) (bip : boot_image) : K unit :=
  let* b := getboot vmid in
  let* l := of_option (aset (img_image (vm_VMM b)) imgindex bip) in
  putboot vmid (λ b, b.[vm_VMM := (vm_VMM b).[img_image := l]]).

Definition bproc_priv (rp : ptr) (bip : boot_image) : K Z :=
  let* r := get_priv rp (Z.land (bi_flags bip) SYS_PROC) in
  if negb (r =? OK) then ret r
  else
    let* p := getp rp in
    let* pr := getpriv (p_priv p) in
    let* to := of_option (aset (s_ipc_to pr) 0 (u16 (bi_ipc_to bip))) in
    putpriv (p_priv p) (λ pr, pr.[s_flags := s16 (bi_flags bip)]
      .[s_trap_mask := s16 (bi_trap_mask bip)].[s_call_mask := bi_call_mask bip]
      .[s_ipc_to := to].[s_call2proxy := 0]);;;
    ret OK.

Definition bproc_reset (vmid : Z) (r : proc) : proc :=
  r.[p_rts_flags := bclr (Z.lor (p_rts_flags r) NO_MAP) (Z.lor (Z.lor SIGNALED SIG_PENDING) P_STOP)]
   .[p_pending := 0].[p_retreg := 0].[p_user_time := 0].[p_sys_time := 0]
   .[p_ticks_left := s8 ((p_ticks_left r + 1) ÷ 2)].[p_vmid := vmid].

(** The memory map: the text of the process in the image of the loader, at
    [base] clicks. *)
Definition bproc_map (base : Z) (h : image_header) (r : proc) : proc :=
  let text_base := u32 (base + Z.shiftr (a_syms h) CLICK_SHIFT) in
  let text_clicks := if band (a_flags h) A_SEP
                     then u32 (Z.shiftr (s32 (a_text h + CLICK_SIZE - 1)) CLICK_SHIFT) else 0 in
  let data_clicks := u32 (Z.shiftr (s32 (a_total h + CLICK_SIZE - 1)) CLICK_SHIFT) in
  r.[p_memmap_T := MemMap (mem_vir (p_memmap_T r)) text_base text_clicks]
   .[p_memmap_D := MemMap (mem_vir (p_memmap_D r)) (u32 (text_base + text_clicks)) data_clicks]
   .[p_memmap_S := MemMap data_clicks (u32 (text_base + text_clicks + data_clicks))
                          (mem_len (p_memmap_S r))].

(** The first boot-loaded driver with this name, and its index. *)
Fixpoint find_driver (l : list vm_drv) (name : string) (i : Z) : option (Z * vm_drv) :=
  match l with
  | [] => None
  | d :: l' =>
      if (MH_LOADED (drv_type d) =? BOOT_LOADED) && strcmp_eq name (drv_c_name d) then Some (i, d)
      else find_driver l' name (i + 1)
  end.

(** The process of VM0 with this name. *)
Fixpoint find_on_vm0 (l : list Z) (name : string) : K (option ptr) :=
  match l with
  | [] => ret None
  | p :: l' =>
      let* rp0 := proc_addr_vm VM0 p in
      let* r0 := getp rp0 in
      if negb (p_rts_flags r0 =? SLOT_FREE) && strcmp_eq name (proc_c_name r0) then ret (Some rp0)
      else find_on_vm0 l' name
  end.

Definition add_dr_bit (lp : ptr) (id : Z) : K unit :=
  let* l := getp lp in
  putpriv (p_priv l) (λ p, p.[s_dr_bitmap := Z.lor (s_dr_bitmap p) (Z.shiftl 1 id)]).

Definition setup_virtual (rp lp : ptr) : K Z :=
  putp rp (λ r, r.[p_misc_flags := VIRTUAL_TASK]);;;
  let* pr := priv_of rp in
  if s_id pr <? NR_SYS_PROCS then add_dr_bit lp (s_id pr);;; ret OK else ret ERANGE.

Definition setup_promiscuous (vmid : Z) (rp : ptr) (type : Z) : K Z :=
  putp rp (λ r, r.[p_misc_flags := PROMICUOUS_TASK].[p_rts_flags := NO_MAP]);;;
  let* r := getp rp in
  let* o := find_on_vm0 (zrange IDLE NR_PROCS) (proc_c_name r) in
  match o with
  | None => ret EPROMISCUOUS
  | Some rp0 =>
      let* r0 := getp rp0 in
      let* pr := getpriv (p_priv r0) in
      let* l := of_option (aset (s_nr pr) vmid (p_nr r)) in
      putpriv (p_priv r0) (λ p, p.[s_vm_bitmap := Z.lor (s_vm_bitmap p) (Z.shiftl 1 vmid)]
                                 .[s_nr := l]);;;
      putp rp (λ r, r.[p_promiscuous := rp0]);;;
      (if MH_NTFY type =? BOOT_NTFY then
         enter_vm VM0;;; raw_notify VMM_PROC_NR (p_nr r0);;; enter_vm vmid
       else skip);;;
      putp rp (λ r, r.[p_priv := None]);;;
      ret OK
  end.

(** A boot process becomes ready: it goes behind the head of its queue. *)
Definition make_ready (rp : ptr) : K unit :=
  putp rp (λ r, r.[p_rts_flags := 0]);;;
  let* r := getp rp in
  let q := p_priority r in
  let* head_ptr := load (RdyHead q) in
  match head_ptr with
  | Some h =>
      let* hd := getp head_ptr in
      putp rp (λ r, r.[p_nextready := p_nextready hd]);;;
      store (NextReady h) rp;;;
      let* tail := load_tail q in
      when (ptr_eqb head_ptr tail) (store_tail q rp)
  | None =>
      putp rp (λ r, r.[p_nextready := None]);;;
      store (RdyHead q) rp;;;
      store_tail q rp
  end.

Definition setup_real (rp lp : ptr) (d : vm_drv) : K Z :=
  putp rp (λ r, r.[p_misc_flags := 0]);;;
  let* r := getp rp in
  (if p_nr r =? HARDWARE then putp rp (λ r, r.[p_rts_flags := NO_MAP]) else make_ready rp);;;
  (if band (drv_type d) PARAVIRTUAL then
     putp rp (λ r, r.[p_misc_flags := PARAVIR_TASK]);;;
     let* r := getp rp in
     putpriv (p_priv r) (λ p, p.[s_call2proxy := drv_bitmap d]);;;
     let* st := priv_of (Some (p_vmid r, SYSTEM)) in
     add_dr_bit lp (s_id st)
   else skip);;;
  ret OK.

Definition setup_bproc (vmid imgindex : Z) (lp : ptr) : K Z :=
  let* b := getboot vmid in
  let* bip := of_option (aget (img_image (vm_VMM b)) imgindex) in
  let* rp := bproc_addr (bi_proc_nr bip) in
  putp rp (bproc_fields bip);;;
  let* r := getp rp in
  put_image vmid imgindex (bip.[bi_endpoint := p_endpoint r]);;;
  let* ret_ := bproc_priv rp bip in
  if negb (ret_ =? OK) then ret ret_
  else
    putp rp (bproc_reset vmid);;;
    let* l := getp lp in
    let* hdr := of_option (aget (img_hdr (vm_VMM b))
      (if p_nr r <=? HARDWARE then 0 else 1 + imgindex - NR_TASKS)) in
    putp rp (bproc_map (mem_phys (p_memmap_D l)) hdr);;;
    when (p_nr r =? PM_PROC_NR) (set_mem_chunks vmid);;;
    let* r := getp rp in
    let* b := getboot vmid in
    let drv := find_driver (vm_driver b) (proc_c_name r) 0 in
    let proc_type := match drv with Some (_, d) => MH_TYPE (drv_type d) | None => DISABLED_PROC_TYPE end in
    let* rcode :=
      (if proc_type =? VIRTUAL_PROC_TYPE then setup_virtual rp lp
       else match drv with
            | Some (_, d) =>
                if proc_type =? PROMISCUOUS_PROC_TYPE then setup_promiscuous vmid rp (drv_type d)
                else if proc_type =? REAL_PROC_TYPE then setup_real rp lp d
                else putp rp (λ r, r.[p_rts_flags := SENDING]);;; ret OK
            | None => putp rp (λ r, r.[p_rts_flags := SENDING]);;; ret OK
            end) in
    if negb (rcode =? OK) then ret rcode
    else
      (* without a driver the index is one past the table *)
      let* ' (_, d) := of_option drv in
      putp rp (λ r, r.[p_misc_flags := Z.lor (p_misc_flags r) (MH_LEVEL (drv_type d))]);;;
      ret OK.

(** ** [clear_VM0_procs] *)

(** One round, from the image index and [i], which the loop tests. *)
Definition clear_round (vmid nbprocs : Z) (lp : ptr) : Z * Z → K ((Z * Z) + Z) :=
  λ '(imgindex, i),
  if negb (i <? nbprocs) then ret (inr OK)
  else
    let* b := getboot vmid in
    let* bip := of_option (aget (img_image (vm_VMM b)) imgindex) in
    let* rp := bproc_addr (bi_proc_nr bip) in
    let* r := getp rp in
    let drv := find_driver (vm_driver b) (proc_c_name r) 0 in
    let i := match drv with Some (i, _) => i | None => NR_SYS_PROCS end in
    let type := match drv with Some (_, d) => MH_TYPE (drv_type d) | None => DISABLED_PROC_TYPE end in
    if type =? VIRTUAL_PROC_TYPE then
      let* pr := priv_of rp in
      if s_id pr <? NR_SYS_PROCS then
        let* l := getp lp in
        putpriv (p_priv l) (λ p, p.[s_dr_bitmap := bclr (s_dr_bitmap p) (Z.shiftl 1 (s_id pr))]);;;
        ret (inl (imgindex + 1, i))
      else ret (inr ERANGE)
    else if type =? PROMISCUOUS_PROC_TYPE then
      let* rp0 := proc_addr_vm VM0 (p_nr r) in
      match rp0 with
      | None => ret (inr EPROCSTATUS)
      | Some _ =>
          let* r0 := getp rp0 in
          if negb (strcmp_eq (proc_c_name r0) (proc_c_name r)) then ret (inr EPROMISCUOUS)
          else
            putpriv (p_priv r0) (λ p, p.[s_vm_bitmap := bclr (s_vm_bitmap p) (Z.shiftl 1 vmid)]);;;
            ret (inl (imgindex + 1, i))
      end
    else ret (inl (imgindex + 1, i)).

(** The image table has [PROCESS_MAX + NR_TASKS] = 20 entries. *)
Definition image_fuel : nat := 22.

Definition clear_VM0_procs (vmid nbprocs : Z) (lp : ptr) : K Z :=
  loop image_fuel (clear_round vmid nbprocs lp) (0, uninit_i).

(** ** [mh_main] *)
Fixpoint setup_bprocs (vmid : Z) (lp : ptr) (nbprocs : Z) (l : list Z) : K Z :=
  match l with
  | [] => ret OK
  | i :: l' =>
      let* r := setup_bproc vmid i lp in
      if negb (r =? OK) then clear_VM0_procs vmid nbprocs lp;;; ret r
      else setup_bprocs vmid lp nbprocs l'
  end.

Definition free_slots_of (vmid : Z) : K unit :=
  for_list (zrange (- NR_TASKS) NR_PROCS) (λ n,
    putp (Some (vmid, n)) (λ r, r.[p_rts_flags := SLOT_FREE])).

Definition free_privs_of (vmid : Z) : K unit :=
  for_list (priv_slots vmid) (λ a,
    putpriv (Some a) (λ p, p.[s_proc_nr := NONE].[s_dr_bitmap := 0].[s_call2proxy := 0]
      .[s_ntfy_cnt := replicate (Z.to_nat NR_SYS_PROCS) 0])).

Definition mh_main (desc : vmm_desc) (lp : ptr) : K Z :=
  let vmid := vmm_id desc in
  let nbprocs := img_nr_bprocs desc in
  free_slots_of vmid;;;
  free_privs_of vmid;;;
  setup_bprocs vmid lp nbprocs (zrange 0 nbprocs).

(** ** VMM_START *)
Definition do_vm_start (m : message) : K Z :=
  let vmid := VMM_vmid m in
  if (vmid <? 0) || (NR_VMS <=? vmid) then ret EINVAL
  else
    let* vm := getvm vmid in
    if negb (vm_flags vm =? VM_LOADED) then ret EVMSTATUS
    else
      let* ' (ok, vmload_p) := isokendpt (vm_vmm_endpoint vm) in
      if ok =? 0 then ret EINVAL
      else
        let* lp := proc_addr vmload_p in
        let* s := get in
        let saved_vm := running_vm s in
        enter_vm vmid;;;
        let* rcode := mh_start vmid in
        if negb (rcode =? OK) then enter_vm saved_vm;;; ret rcode
        else
          let* b := getboot vmid in
          let* rcode := mh_main (vm_VMM b) lp in
          if negb (rcode =? OK) then enter_vm saved_vm;;; ret rcode
          else
            enter_vm saved_vm;;;
            putp lp (λ r, r.[p_misc_flags := Z.lor (p_misc_flags r) PROXY_SERVER]
                           .[p_proxy := vmid]);;;
            let* t := get_uptime in
            putvm vmid (λ v, v.[vm_flags := Z.lor (vm_flags v) VM_RUNNING].[vm_time := 0]
              .[vm_uptime := t].[vm_bsize := m1_i3 m].[vm_tokens := 0]);;;
            putvm VM0 (λ v, v.[vm_tokens := MAXTOKENS]);;;
            modify (λ s, s.[VM_bitmap := Z.lor (VM_bitmap s) (Z.shiftl 1 vmid)]);;;
            let* s := get in
            when (next_vm s =? VM0)
              (modify (λ s, s.[next_vm := vmid].[switch_vm := TICKS_TO_SWITCH]));;;
            ret OK.

(** ** VMM_PROC: the configuration of a driver *)

(** The driver with the same name, up to seven characters. *)
Definition same_name (cfg : proc_cfg) (d : vm_drv) : bool :=
  strcmp_eq (String.substring 0 (P_NAME_LEN - 1) (drv_c_name d))
            (String.substring 0 (P_NAME_LEN - 1) (pc_name cfg)).

Definition proc_config (vmid : Z) (cfg : proc_cfg) : K Z :=
  let* b := getboot vmid in
  match list_find (λ d, same_name cfg d = true) (vm_driver b) with
  | Some (i, _) =>
      put_driver vmid (Z.of_nat i) (λ d,
        Some (d.[drv_type := pc_flags cfg].[drv_bitmap := pc_bitmap cfg]));;;
      ret OK
  | None =>
      match list_find (λ d, strcmp_eq (drv_c_name d) "NO_DRIVER" = false) (vm_driver b) with
      | Some (i, _) =>
          put_driver vmid (Z.of_nat i) (λ d,
            d' ← strcpy_drv (d.[drv_type := pc_flags cfg]) (pc_name cfg);
            Some (d'.[drv_bitmap := 0]));;;
          ret OK
      | None => ret ENOSPC
      end
  end.

Definition vmm_proc (m : message) : K Z :=
  let* rcode := local_vcopy (m1_i3 m) D (m1_p1 m) SYSTEM D (kaddr ProcCfgBuf) sizeof_proc_cfg in
  if negb (rcode =? OK) then ret rcode
  else
    let* a := kphys ProcCfgBuf in
    let* s := get in
    proc_config (VMM_vmid m) (read_proc_cfg (pmem s) a).

(** ** [do_vmmreq] *)
Definition vmm_request (m : message) : K Z :=
  let c := VMM_cmd m in
  if c =? VMM_LOAD then do_vm_load m
  else if c =? VMM_START then do_vm_start m
  else if c =? VMM_VMDUMP then fetch_vmm_desc (m_source m) (m1_p1 m) (VMM_vmid m)
  else if c =? VMM_PROC then vmm_proc m
  else if existsb (Z.eqb c) [VMM_KILL; VMM_STOP; VMM_INFO; VMM_SUSPEND; VMM_RESUME; VMM_SAVE; VMM_RESTORE]
  then ret OK
  else ret ENOSYS.

Definition do_vmmreq (m : message) : K (Z * message) :=
  let* ' (ok, proc_nr) := isokendpt (m_source m) in
  when (ok =? 0) (panic "Bad source endpoint" (m_source m));;;
  keep_msg m (
    if negb (proc_nr =? VMM_PROC_NR) && negb (proc_nr =? PM_PROC_NR) then ret EBADSRCDST
    else if (VMM_vmid m <? 0) || (NR_VMS <=? VMM_vmid m) then ret EINVAL
    else vmm_request m).

(** The call vector with SYS_VMMREQ. *)
Definition hyper_call_vec (other : Z → message → K (Z * message)) : Z → message → K (Z * message) :=
  call_vec (λ n m, if KERNEL_CALL + n =? SYS_VMMREQ then do_vmmreq m else other n m).
End vmm.
