(* ===== verification/KMemThms.v ===== *)
(** * Copying physical memory and mapping addresses

    [phys_copy], which works by bytes, words and bytes, is a plain copy of a
    block; [umap_local] stays inside the memory of the process. *)
From stdpp Require Import base gmap list numbers strings.
From Stdlib Require Import ZArith Lia.
From S2P Require Import Prelude.
From S2P Require Import KTypes.
From S2P Require Import KProc.
From S2P Require Import KMem.

(** ** Arithmetic of addresses *)
Ltac u32_lia := unfold u32 in *; Z.div_mod_to_equations; lia.

Lemma u32_range z : 0 <= u32 z < 2 ^ 32.
Proof. apply Z.mod_pos_bound. lia. Qed.
Lemma u32_u32_add a b : u32 (u32 a + b) = u32 (a + b).
Proof. unfold u32. apply Zplus_mod_idemp_l. Qed.
Lemma u32_add_u32 a b : u32 (a + u32 b) = u32 (a + b).
Proof. unfold u32. apply Zplus_mod_idemp_r. Qed.
Lemma u32_sub_u32 a b : u32 (a - u32 b) = u32 (a - b).
Proof. unfold u32. apply Zminus_mod_idemp_r. Qed.
Lemma u32_idem a : u32 (u32 a) = u32 a.
Proof. unfold u32. by rewrite Z.mod_mod. Qed.

(** The address [d] bytes after [dst + k], for [d] counted from [dst]. *)
Lemma u32_off a dst k :
  0 <= k <= u32 (a - dst) → u32 (a - (dst + k)) = u32 (a - dst) - k.
Proof.
  intros H. replace (a - (dst + k)) with ((a - dst) + - k) by lia.
  rewrite <-u32_u32_add. apply u32_id. pose proof (u32_range (a - dst)). lia.
Qed.
Lemma u32_off_lt a dst k :
  u32 (a - dst) < k < 2 ^ 32 → u32 (a - (dst + k)) = 2 ^ 32 + u32 (a - dst) - k.
Proof.
  intros H. replace (a - (dst + k)) with ((a - dst) + - k) by lia.
  rewrite <-u32_u32_add. pose proof (u32_range (a - dst)). u32_lia.
Qed.

(** ** A block copied in pieces *)

(** The destination does not start inside the source, after its first byte. *)
Definition forward_ok (src dst n : Z) : Prop := u32 (dst - src) = 0 ∨ n <= u32 (dst - src).

Definition mem_eq (m m' : Z → Z) : Prop := ∀ a, 0 <= a < 2 ^ 32 → m a = m' a.

Lemma mem_copy_ext src dst n m m' :
  mem_eq m m' → mem_eq (mem_copy src dst n m) (mem_copy src dst n m').
Proof.
  intros H a Ha. unfold mem_copy. destruct (_ <? _); [apply H, u32_range|by apply H].
Qed.

(** What lies in the second half of the source is not written with the first. *)
Lemma source_kept src dst n1 n2 d :
  0 <= n1 → 0 <= d < n2 → n1 + n2 < 2 ^ 32 → forward_ok src dst (n1 + n2) →
  u32 (dst - src) ≠ 0 → ¬ u32 (u32 (u32 (src + n1) + d) - dst) < n1.
Proof.
  intros Hn1 Hd Hn [H0|Hf] Hne; [done|].
  replace (u32 (u32 (u32 (src + n1) + d) - dst)) with (u32 (src - dst + (n1 + d))).
  2:{ rewrite u32_u32_add.
      replace (u32 (src + n1 + d) - dst) with (u32 (src + n1 + d) + - dst) by lia.
      rewrite u32_u32_add. f_equal. lia. }
  revert Hf Hne. u32_lia.
Qed.

Lemma mem_copy_app src dst n1 n2 m :
  0 <= n1 → 0 <= n2 → n1 + n2 < 2 ^ 32 → forward_ok src dst (n1 + n2) →
  mem_eq (mem_copy (u32 (src + n1)) (u32 (dst + n1)) n2 (mem_copy src dst n1 m))
         (mem_copy src dst (n1 + n2) m).
Proof.
  intros Hn1 Hn2 Hn Hf a Ha. unfold mem_copy at 1 3.
  rewrite !u32_sub_u32. pose proof (u32_range (a - dst)) as Hr.
  destruct (Z.leb_spec n1 (u32 (a - dst))) as [Hge|Hlt].
  - rewrite (u32_off a dst n1) by lia.
    destruct (Z.ltb_spec (u32 (a - dst) - n1) n2); destruct (Z.ltb_spec (u32 (a - dst)) (n1 + n2));
      try lia.
    + unfold mem_copy. destruct (Z.ltb_spec (u32 (u32 (u32 (src + n1) + (u32 (a - dst) - n1)) - dst)) n1)
        as [Hin|_].
      * destruct (decide (u32 (dst - src) = 0)) as [Heq0|Hne].
        -- f_equal. revert Heq0 Hin. u32_lia.
        -- exfalso. eapply source_kept in Hin; [done|..]; try eassumption; lia.
      * f_equal. rewrite u32_u32_add. f_equal. lia.
    + unfold mem_copy. by destruct (Z.ltb_spec (u32 (a - dst)) n1); [lia|].
  - rewrite (u32_off_lt a dst n1) by lia.
    destruct (Z.ltb_spec (2 ^ 32 + u32 (a - dst) - n1) n2); [lia|].
    destruct (Z.ltb_spec (u32 (a - dst)) (n1 + n2)); [|lia].
    unfold mem_copy. by destruct (Z.ltb_spec (u32 (a - dst)) n1); [|lia].
Qed.

Lemma forward_ok_le src dst n n' : forward_ok src dst n → n' <= n → forward_ok src dst n'.
Proof. intros [?|?] ?; [by left|right; lia]. Qed.

Lemma forward_ok_shift src dst n k :
  forward_ok src dst n → forward_ok (u32 (src + k)) (u32 (dst + k)) n.
Proof.
  unfold forward_ok. rewrite u32_sub_u32.
  replace (u32 (u32 (dst + k) - (src + k))) with (u32 (dst - src)); [done|].
  replace (u32 (dst + k) - (src + k)) with (u32 (dst + k) + - (src + k)) by lia.
  rewrite u32_u32_add. f_equal. lia.
Qed.

Lemma mem_copy_0 src dst m : mem_eq m (mem_copy src dst 0 m).
Proof.
  intros a _. unfold mem_copy. pose proof (u32_range (a - dst)).
  by destruct (Z.ltb_spec (u32 (a - dst)) 0); [lia|].
Qed.

Lemma mem_eq_trans m1 m2 m3 : mem_eq m1 m2 → mem_eq m2 m3 → mem_eq m1 m3.
Proof. intros H1 H2 a Ha. by rewrite H1, H2. Qed.

(** [n] units in ascending order make one block. *)
Lemma rep_movs_copy w n src dst m :
  0 <= w → w * Z.of_nat n < 2 ^ 32 → forward_ok src dst (w * Z.of_nat n) →
  mem_eq (rep_movs w n src dst m) (mem_copy src dst (w * Z.of_nat n) m).
Proof.
  intros Hw. revert src dst m. induction n as [|n IH]; intros src dst m Hlt Hf; cbn [rep_movs].
  { rewrite Z.mul_0_r. apply mem_copy_0. }
  eapply mem_eq_trans.
  - apply IH; [lia|]. apply forward_ok_shift. eapply forward_ok_le; [done|lia].
  - replace (w * Z.of_nat (Datatypes.S n)) with (w + w * Z.of_nat n) in * by lia.
    apply mem_copy_app; [lia..|done].
Qed.

(** [phys_copy] copies by bytes up to an aligned source, then by words, then by
    bytes.  Unless the destination starts inside the source, the memory it leaves
    is that of the reference copy, which moves the whole block at once: the two
    agree on every physical address. *)
Theorem phys_copy_equiv src dst n m :
  0 <= n < 2 ^ 32 → forward_ok src dst n →
  mem_eq (phys_copy_mem src dst n m) (mem_copy src dst n m).
Proof.
  intros Hn Hf. unfold phys_copy_mem. destruct (Z.ltb_spec n 10).
  { pose proof (rep_movs_copy 1 (Z.to_nat n) src dst m) as H'.
    rewrite Z.mul_1_l, Z2Nat.id in H' by lia. apply H'; [lia|lia|done]. }
  set (k := Z.land (- src) 3). set (w := Z.shiftr (n - k) 2). set (r := Z.land (n - k) 3).
  assert (Hk : 0 <= k < 4) by (unfold k; rewrite (Z.land_ones _ 2) by lia; apply Z.mod_pos_bound; lia).
  assert (Hw : n - k = 4 * w + r ∧ 0 <= r < 4).
  { unfold w, r. rewrite (Z.land_ones _ 2), Z.shiftr_div_pow2 by lia. Z.div_mod_to_equations. lia. }
  pose proof (rep_movs_copy 1 (Z.to_nat k) src dst m) as H1.
  rewrite Z.mul_1_l, Z2Nat.id in H1 by lia.
  assert (Hf' : ∀ j, j <= n → forward_ok src dst j) by (intros; by eapply forward_ok_le).
  specialize (H1 ltac:(lia) ltac:(lia) (Hf' k ltac:(lia))).
  set (m1 := rep_movs 1 (Z.to_nat k) src dst m) in *.
  pose proof (rep_movs_copy 4 (Z.to_nat w) (u32 (src + k)) (u32 (dst + k)) m1) as H2.
  rewrite Z2Nat.id in H2 by lia.
  specialize (H2 ltac:(lia) ltac:(lia) (forward_ok_shift _ _ _ _ (Hf' (4 * w) ltac:(lia)))).
  set (m2 := rep_movs 4 (Z.to_nat w) (u32 (src + k)) (u32 (dst + k)) m1) in *.
  pose proof (rep_movs_copy 1 (Z.to_nat r) (u32 (src + (k + 4 * w))) (u32 (dst + (k + 4 * w))) m2) as H3.
  rewrite Z.mul_1_l, Z2Nat.id in H3 by lia.
  specialize (H3 ltac:(lia) ltac:(lia) (forward_ok_shift _ _ _ _ (Hf' r ltac:(lia)))).
  rewrite <-!Z.add_assoc. eapply mem_eq_trans; [exact H3|].
  assert (H12 : mem_eq m2 (mem_copy src dst (k + 4 * w) m)).
  { eapply mem_eq_trans; [exact H2|]. eapply mem_eq_trans; [by apply mem_copy_ext|].
    apply mem_copy_app; [lia..|apply Hf'; lia]. }
  eapply mem_eq_trans; [by apply mem_copy_ext|].
  replace n with (k + 4 * w + r) by lia.
  apply mem_copy_app; [lia..|apply Hf'; lia].
Qed.

Lemma phys_copy_equiv_witness :
  mem_eq (phys_copy_mem 4097 8192 11 (λ a, a mod 251)) (mem_copy 4097 8192 11 (λ a, a mod 251)).
Proof. apply (phys_copy_equiv 4097 8192 11); [lia|right; vm_compute; discriminate]. Defined.
