(* ===== verification/KCopyThms.v ===== *)
(** * Isolation of the copies between address spaces

    What [umap_local] and [virtual_copy] can reach, for process memory laid out
    as the process manager does it: text, and data followed by the gap and the
    stack. *)
From stdpp Require Import base gmap list numbers strings.
From Stdlib Require Import ZArith Lia.
From S2P Require Import Prelude.
From S2P Require Import KTypes.
From S2P Require Import KProc.
From S2P Require Import KStep.
From S2P Require Import KWp.
From S2P Require Import KMem.
From S2P Require Import KMemThms.
From S2P Require Import KMemCalls.
From S2P Require Import KSysTask.
From S2P Require Import KSysCall.

(** ** The memory of a process *)
Definition click : Z := 2 ^ 12.

(** Data starts at virtual address 0 and the stack ends the same block. *)
Record wf_layout (r : proc) : Prop := {
  wl_text : mem_vir (p_memmap_T r) = 0 ∧ 0 <= mem_phys (p_memmap_T r) ∧
            0 <= mem_len (p_memmap_T r) ∧
            mem_phys (p_memmap_T r) + mem_len (p_memmap_T r) < 2 ^ 20;
  wl_data : mem_vir (p_memmap_D r) = 0 ∧ 0 <= mem_phys (p_memmap_D r) ∧
            0 <= mem_len (p_memmap_D r);
  wl_stack : mem_len (p_memmap_D r) <= mem_vir (p_memmap_S r) ∧
             0 <= mem_len (p_memmap_S r) ∧
             mem_phys (p_memmap_S r) = mem_phys (p_memmap_D r) + mem_vir (p_memmap_S r) ∧
             mem_phys (p_memmap_S r) + mem_len (p_memmap_S r) < 2 ^ 20 }.

(** The [n] bytes at [a] lie in the block that starts at click [lo] and ends
    before click [hi]. *)
Definition in_clicks (lo hi a n : Z) : Prop := click * lo <= a ∧ a + n <= click * hi.

Definition in_process (r : proc) (a n : Z) : Prop :=
  in_clicks (mem_phys (p_memmap_T r)) (mem_phys (p_memmap_T r) + mem_len (p_memmap_T r)) a n
  ∨ in_clicks (mem_phys (p_memmap_D r)) (mem_phys (p_memmap_S r) + mem_len (p_memmap_S r)) a n.

Lemma in_process_bound r a n : wf_layout r → in_process r a n → 0 <= a ∧ a + n < 2 ^ 32.
Proof.
  intros [(? & ? & ? & ?) (? & ? & ?) (? & ? & ? & ?)] [[]|[]]; unfold click in *; lia.
Qed.

(** The mapping of a segment whose bytes are contiguous from click [base]. *)
Lemma umap_in_spec m vir n base :
  mem_phys m = base + mem_vir m → 0 <= base → 0 <= mem_vir m → 0 <= mem_len m →
  base + mem_vir m + mem_len m < 2 ^ 20 →
  0 <= vir → 0 < n → vir + n <= 2 ^ 32 →
  let a := umap_in m vir (Z.shiftr (u32 (vir + n - 1)) CLICK_SHIFT) in
  a ≠ 0 → a = click * base + vir ∧ vir + n <= click * (mem_vir m + mem_len m).
Proof.
  intros Hp ? ? ? Hb ? ? ? a. unfold a, umap_in, CLICK_SHIFT, click.
  rewrite !Z.shiftl_mul_pow2, !Z.shiftr_div_pow2 by lia.
  rewrite !(u32_id (mem_vir m + mem_len m)), (u32_id (vir + n - 1)) by lia.
  destruct (Z.leb_spec (mem_vir m + mem_len m) (vir / 2 ^ 12)); [done|].
  destruct (Z.leb_spec (mem_vir m + mem_len m) ((vir + n - 1) / 2 ^ 12)); [done|].
  rewrite (u32_id (mem_vir m * 2 ^ 12)) by lia. rewrite u32_add_u32, u32_u32_add.
  intros _. split; [|Z.div_mod_to_equations; lia].
  rewrite Hp. replace ((base + mem_vir m) * 2 ^ 12 + (vir - mem_vir m * 2 ^ 12))
    with (2 ^ 12 * base + vir) by lia. apply u32_id. Z.div_mod_to_equations; lia.
Qed.

Lemma umap_seg_spec r seg vir n :
  wf_layout r → 0 <= vir → 0 < n → vir + n <= 2 ^ 32 →
  let vc := Z.shiftr (u32 (vir + n - 1)) CLICK_SHIFT in
  umap_in (umap_seg r seg vc) vir vc ≠ 0 →
  in_process r (umap_in (umap_seg r seg vc) vir vc) n.
Proof.
  intros [(? & ? & ? & ?) (? & ? & ?) (? & ? & ? & ?)] ? ? ? vc. unfold umap_seg.
  destruct (seg =? T).
  { intros Ha. destruct (umap_in_spec (p_memmap_T r) vir n (mem_phys (p_memmap_T r))) as [Hu Hl];
      [lia..|done|]. left. unfold in_clicks. fold vc in Hu. rewrite Hu. unfold click in *. lia. }
  destruct (vc <? _); intros Ha; right; unfold in_clicks, click.
  - destruct (umap_in_spec (p_memmap_D r) vir n (mem_phys (p_memmap_D r))) as [Hu Hl];
      [lia..|done|]. fold vc in Hu. rewrite Hu. unfold click in *. lia.
  - destruct (umap_in_spec (p_memmap_S r) vir n (mem_phys (p_memmap_D r))) as [Hu Hl];
      [lia..|done|]. fold vc in Hu. rewrite Hu. unfold click in *. lia.
Qed.

Lemma pure_umap_owner p : pure (umap_owner p).
Proof. unfold umap_owner. presto. Qed.

Lemma umap_local_wp s p seg vir n :
  (∀ x r, procs s !! x = Some r → wf_layout r) →
  0 <= vir < 2 ^ 32 → 0 <= n < 2 ^ 32 →
  wp (umap_local p seg vir n) (λ a s', s' = s ∧ (a ≠ 0 → ∃ o r,
    umap_owner p s = Ret (Some o) s ∧ procs s !! o = Some r ∧ in_process r a n)) s.
Proof.
  intros Hwf Hv Hn. unfold umap_local. wpstep. apply wp_reads; [apply pure_umap_owner|].
  intros o Ho. wpif; [by wpgo|]. wpif; [by wpgo|].
  wpgo; subst. split; [done|]. intros Ha. eexists _, _. split_and!; [done..|].
  apply umap_seg_spec; [by eapply Hwf|lia..| |done]. revert H H0. u32_lia.
Qed.

(** C9. An address that [umap_local] returns, for memory laid out by the process
    manager, is inside the memory of the process the request stands for (the
    process itself, the promiscuous process or the proxy behind a descriptor of a
    guest), with all the bytes asked for: in its text, or between the start of its
    data and the end of its stack, the gap between them included.  Nothing in the state
    changes. *)
Theorem umap_local_bounds s p seg vir n a s' :
  (∀ x r, procs s !! x = Some r → wf_layout r) →
  0 <= vir < 2 ^ 32 → 0 <= n < 2 ^ 32 →
  umap_local p seg vir n s = Ret a s' → a ≠ 0 →
  s' = s ∧ ∃ o r, umap_owner p s = Ret (Some o) s ∧ procs s !! o = Some r ∧ in_process r a n.
Proof.
  intros Hwf Hv Hn Hu Ha. destruct (umap_local_wp s p seg vir n Hwf Hv Hn a s' Hu) as [? H].
  auto.
Qed.

Lemma umap_local_bounds_witness : ∃ o r,
  umap_owner (Some (1, 20)) (demo (1, 20)) = Ret (Some o) (demo (1, 20)) ∧
  procs (demo (1, 20)) !! o = Some r ∧ in_process r (2384 * 4096 + 5) 100.
Proof.
  refine (proj2 (umap_local_bounds (demo (1, 20)) (Some (1, 20)) D 5 100 _ (demo (1, 20)) _ _ _ _ _));
    [|lia|lia|reflexivity|lia].
  intros x r. apply (table_forall (λ _, wf_layout)).
  repeat (apply List.Forall_cons; [split; repeat split; vm_compute; done|]). apply List.Forall_nil.
Defined.

(** ** A sound process table for copies *)
Record copy_wf (s : kstate) : Prop := {
  cw_layout : ∀ x r, procs s !! x = Some r → wf_layout r;
  (** The slot tells the VM; a kernel task also serves the running VM. *)
  cw_vmid : ∀ x r, procs s !! x = Some r →
    p_vmid r = fst x ∨ (fst x = VM0 ∧ p_vmid r = running_vm s);
  cw_table : ∀ vm n x, vms s !! running_vm s = Some vm →
    vm_pproc_addr vm !! n = Some x → fst x = running_vm s;
  cw_tasks : ∀ x, Some x ∈ [systask_ptr s; clock_ptr s; hard_ptr s; idle_ptr s] → fst x = VM0;
  (** Descriptors exist in guests, and point to a process of VM0. *)
  cw_prom : ∀ x r p, procs s !! x = Some r → band (p_misc_flags r) PROMICUOUS_TASK →
    p_promiscuous r = Some p → fst p = VM0;
  cw_plain : ∀ x r, procs s !! x = Some r → fst x = VM0 →
    band (p_misc_flags r) PROMICUOUS_TASK = false ∧ band (p_misc_flags r) VIRTUAL_TASK = false }.

(** A process of VM0 that works for the guest [v]: a kernel task, the proxy of the
    VM, or a promiscuous process that has been told to serve it. *)
Definition serves (s : kstate) (v : Z) (x : Z * Z) (r : proc) : Prop :=
  Some x ∈ [systask_ptr s; clock_ptr s; hard_ptr s; idle_ptr s] ∨ p_proxy r = v ∨
  ∃ p pr, p_priv r = Some p ∧ privs s !! p = Some pr ∧ band (s_vm_bitmap pr) (Z.shiftl 1 v).

(** A process of the running guest, or one of VM0 that serves it. *)
Definition side_ok (s : kstate) (x : Z * Z) (r : proc) : Prop :=
  procs s !! x = Some r ∧
  (p_vmid r = running_vm s ∨ p_vmid r = VM0 ∧ fst x = VM0 ∧ serves s (running_vm s) x r).

Section isolation.
Context (s : kstate) (Hwf : copy_wf s) (Hguest : running_vm s ≠ VM0).

Lemma task_in p : Some p ∈ [systask_ptr s; clock_ptr s; hard_ptr s; idle_ptr s] →
  fst p = VM0.
Proof. apply (cw_tasks s Hwf). Qed.

Lemma get_proc_addr_side n Q :
  (∀ p, (∀ x r, p = Some x → procs s !! x = Some r → side_ok s x r) → Q p s) →
  wp (get_proc_addr n) Q s.
Proof.
  clear Hguest. intros H. unfold get_proc_addr.
  assert (Ht : ∀ p, p ∈ [systask_ptr s; clock_ptr s; hard_ptr s; idle_ptr s] → Q p s).
  { intros p Hp. apply H. intros y ry -> Hr. split; [done|].
    destruct (cw_vmid s Hwf y ry Hr) as [Hv|[_ Hv]]; [|by left].
    right. rewrite Hv. apply task_in in Hp as Hx. split_and!; [done..|by left]. }
  wpgo. wpif; [by wpgo; apply H|]. wpif; [by wpgo; apply H|].
  do 4 (wpif; [wpgo; apply Ht; set_solver|]).
  wpgo. apply H. intros y ry Hx Hr. split; [done|left].
  destruct (cw_vmid s Hwf y ry Hr) as [Hv|[_ Hv]]; [|done].
  rewrite Hv. by eapply cw_table.
Qed.

Lemma proc_addr_vm0_side n Q :
  (∀ p, (∀ x, p = Some x → fst x = VM0) → Q p s) → wp (proc_addr_vm VM0 n) Q s.
Proof.
  intros H. unfold proc_addr_vm. wpgo. apply H. intros x Hx.
  destruct (negb _ || _); [done|].
  assert (Ht : ∀ p, p ∈ [systask_ptr s; clock_ptr s; hard_ptr s; idle_ptr s] → p = Some x → fst x = VM0).
  { intros p Hp ->. by apply task_in. }
  repeat match type of Hx with
  | (if ?b then _ else _) = _ =>
      destruct b; [revert Hx; apply Ht; set_solver|]
  end. by injection Hx as <-.
Qed.

(** The process that stands for [x], of VM [p_vmid r]. *)
Lemma copy_redirect_side y0 r nr :
  side_ok s y0 r →
  wp (copy_redirect (Some y0) (p_vmid r) nr) (λ o s', s' = s ∧
    ∀ q nr', o = inr (q, nr') → ∃ y ry, q = Some y ∧ procs s !! y = Some ry ∧ side_ok s y ry) s.
Proof.
  intros Hside. assert (Hr := proj1 Hside). unfold copy_redirect.
  wpif; [wpgo; split; [done|]; intros q nr' [= <- _]; eexists _, r; split_and!; [done|exact Hr|exact Hside]|].
  assert (Hv : p_vmid r = running_vm s).
  { destruct Hside as [_ [?|[? _]]]; [done|].
    match goal with H : (_ =? VM0) = false |- _ => apply Z.eqb_neq in H; done end. }
  wpgo. wpif; [by wpgo|]. wpgo. simplify_eq. wpif.
  - wpgo. split; [done|]. intros q nr'. case_match eqn:Hb; [|done]. intros [= <- _].
    match goal with
    | H1 : p_nextready _ = Some ?y, H2 : procs s !! ?y = Some ?ry,
      H3 : band _ PROMICUOUS_TASK = true |- _ =>
      exists y, ry; split_and!; [done..|]; split; [done|];
      assert (Hy : fst y = VM0) by (eapply (cw_prom s Hwf); [exact Hr|by rewrite H3|done]);
      destruct (cw_vmid s Hwf y ry H2) as [Hvy|[_ Hvy]]; [right|by left]
    end.
    split_and!; [congruence|done|]. right. right. rewrite <-Hv. eexists _, _. split_and!; [done..|].
    by rewrite Hb.
  - wpif; [|wpgo; split; [done|]; intros q nr' [= <- _]; eexists _, r; split_and!; [done|exact Hr|exact Hside]].
    wpgo. apply wp_reads; [apply pure_isokendpt_vm|]. intros [ok nr1] _. wpif; [by wpgo|].
    wpgo. apply proc_addr_vm0_side. intros p Hp. wpgo. split; [done|].
    intros q nr'. case_match eqn:Hb; [|done]. intros [= <- _]. apply Z.eqb_eq in Hb. subst.
    match goal with H2 : procs s !! ?y = Some ?ry |- _ =>
      exists y, ry; split; [done|]; split; [done|]; split; [done|];
      destruct (cw_vmid s Hwf y ry H2) as [Hvy|[_ Hvy]]; [right|by left];
      specialize (Hp y eq_refl) end.
    split_and!; [congruence|done|]. right. left. congruence.
Qed.

(** The physical block of a local segment, and its process. *)
Lemma copy_phys_side y ry va n :
  procs s !! y = Some ry →
  seg_type va = LOCAL_SEG → 0 <= va_offset va < 2 ^ 32 → 0 <= n < 2 ^ 32 →
  wp (copy_phys_addr (Some y) va n) (λ o s', s' = s ∧ ∀ a, o = inr a → a ≠ 0 →
    ∃ x r, procs s !! x = Some r ∧ in_process r a n ∧ (fst y = VM0 → x = y)) s.
Proof.
  intros Hy Hseg Hoff Hn. unfold copy_phys_addr. rewrite Hseg.
  change (LOCAL_SEG =? LOCAL_SEG) with true. wpgo.
  eapply wp_mono; [apply umap_local_wp; [apply Hwf|done..]|].
  intros a s' [-> Ha]. wpgo. split; [done|]. intros b [= ->] Hb.
  destruct (Ha Hb) as (o & r & Ho & Hr & Hin). exists o, r. split_and!; [done..|].
  intros H0. unfold umap_owner in Ho. rewrite bind_get in Ho.
  destruct (cw_plain s Hwf y ry Hy H0) as [Hp Hv].
  destruct (running_vm s =? VM0); [by injection Ho|].
  rewrite (bind_getp s y ry), Hp, Hv in Ho by done. by injection Ho.
Qed.

(** One side of a copy: its block, in the memory of a process. *)
Definition block_ok (x : Z * Z) (a n : Z) : Prop :=
  ∃ y r, procs s !! y = Some r ∧ in_process r a n ∧ (fst x = VM0 → y = x).

Lemma copy_map_side va n :
  seg_type va = LOCAL_SEG → 0 <= va_offset va < 2 ^ 32 → 0 <= n < 2 ^ 32 →
  wp (copy_map va n) (λ o s', s' = s ∧ ∀ p a, o = inr (p, a) →
    ∃ x, p = Some x ∧ block_ok x a n ∧ ∀ r, procs s !! x = Some r → side_ok s x r) s.
Proof.
  intros Hseg Hoff Hn. unfold copy_map. rewrite Hseg. change (LOCAL_SEG =? PHYS_SEG) with false.
  wpgo. apply wp_reads; [apply pure_isokendpt|]. intros [ok nr] _. wpif.
  { wpgo. unfold copy_phys_addr. rewrite Hseg. change (LOCAL_SEG =? LOCAL_SEG) with true.
    by wpgo. }
  wpgo. apply get_proc_addr_side. intros p Hp. wpgo. subst.
  match goal with H : procs s !! ?x = Some ?r |- _ => specialize (Hp x r eq_refl H) end.
  eapply wp_mono; [by apply copy_redirect_side|]. intros o s' [-> Ho].
  destruct o as [e|[q nr']]; [by wpgo|]. wpgo.
  destruct (Ho q nr' eq_refl) as (y & ry & -> & Hry & Hy).
  eapply wp_mono; [by apply (copy_phys_side y ry)|]. intros o s' [-> Ha].
  destruct o as [e|a]; [by wpgo|]. wpif; [by wpgo|]. wpgo. split; [done|].
  intros p b [= <- <-]. exists y. split_and!; [done| |intros r' Hr'; by simplify_eq].
  assert (Hne : a ≠ 0).
  { intros ->. revert Hseg. unfold seg_type.
    match goal with H : _ && _ = false |- _ => revert H end. cbn.
    destruct (Z.eqb_spec (va_segment va) PHYS_SEG) as [->|]; [done|done]. }
  destruct (Ha a eq_refl Hne) as (o & ro & ? & ? & ?). by exists o, ro.
Qed.
End isolation.

(** *** The copy itself *)
Section copy.
Context (s : kstate) (Hwf : copy_wf s) (Hguest : running_vm s ≠ VM0).

(** The [n] bytes at [a], without wrap-around, within the limits of VM [v]. *)
Definition in_vm_limits (v a n : Z) : Prop :=
  ∃ vm, vms s !! v = Some vm ∧ vm_start vm <= a ∧ a + n <= vm_end vm.

(** The same within the data segment of a process. *)
Definition in_data (r : proc) (a n : Z) : Prop :=
  in_clicks (mem_phys (p_memmap_D r)) (mem_phys (p_memmap_D r) + mem_len (p_memmap_D r)) a n.

(** What a copy on behalf of a guest may touch: its own VM, or the memory of a
    process of VM0 that serves the guest. *)
Definition guest_may (a n : Z) : Prop :=
  in_vm_limits (running_vm s) a n ∨
  ∃ x r, procs s !! x = Some r ∧ p_vmid r = VM0 ∧ serves s (running_vm s) x r ∧
         (in_data r a n ∨ in_process r a n ∧ in_vm_limits VM0 a n).

Lemma FAULT_VM_LIMITS_wp v a n :
  0 <= a → 0 <= n → a + n < 2 ^ 32 →
  wp (FAULT_VM_LIMITS v a n) (λ f s', s' = s ∧ (f = false → in_vm_limits v a n)) s.
Proof.
  intros ? ? ?. unfold FAULT_VM_LIMITS. wpgo. split; [done|].
  rewrite (u32_id (a + n)) by lia. intros Hf. eexists. split; [done|]. lia.
Qed.

Lemma FAULT_PROC_LIMITS_ok r a n :
  wf_layout r → 0 <= a → 0 <= n → a + n < 2 ^ 32 →
  FAULT_PROC_LIMITS a r n = false → in_data r a n.
Proof.
  intros [_ (? & ? & ?) (? & ? & ? & ?)] ? ? ?. unfold FAULT_PROC_LIMITS, in_data, in_clicks, click, CLICK_SHIFT.
  rewrite !Z.shiftl_mul_pow2 by lia.
  rewrite (u32_id (_ + mem_len _)), !u32_id by lia. lia.
Qed.

Lemma vm0_limits_ok x r v a n :
  procs s !! x = Some r → block_ok s x a n → 0 <= n → vm0_limits r v a n = false → in_data r a n.
Proof.
  intros Hr (y & ry & Hry & Hin & _) Hn. unfold vm0_limits. destruct (_ && _); [done|].
  destruct (in_process_bound ry a n (cw_layout s Hwf y ry Hry) Hin).
  apply FAULT_PROC_LIMITS_ok; [by eapply cw_layout|lia..].
Qed.

Lemma copy_limits_wp x y a b n :
  0 <= n →
  (∀ r, procs s !! x = Some r → side_ok s x r) → block_ok s x a n →
  (∀ r, procs s !! y = Some r → side_ok s y r) → block_ok s y b n →
  wp (copy_limits (Some x) (Some y) a b n)
    (λ o s', s' = s ∧ (o = inr tt → guest_may a n ∧ guest_may b n)) s.
Proof.
  intros Hn Hx Hba Hy Hbb. unfold copy_limits.
  apply wp_bind, wp_getp. intros ? rx [= <-] Hrx. apply wp_bind, wp_getp. intros ? ry [= <-] Hry.
  destruct (Hx rx Hrx) as [_ Hsx]. destruct (Hy ry Hry) as [_ Hsy].
  assert (Ha := Hba). assert (Hb := Hbb).
  destruct Ha as (x' & rx' & Hrx' & Hin & Hx'), Hb as (y' & ry' & Hry' & Hiny & Hy').
  destruct (in_process_bound rx' a n (cw_layout s Hwf x' rx' Hrx') Hin).
  destruct (in_process_bound ry' b n (cw_layout s Hwf y' ry' Hry') Hiny).
  wpif.
  - match goal with H : (_ =? _) = true |- _ => apply Z.eqb_eq in H; rename H into Hvm end.
    wpgo. eapply wp_mono; [apply FAULT_VM_LIMITS_wp; lia|]. intros f s' [-> Hf].
    wpif; [by wpgo|]. subst. wpgo.
    eapply wp_mono; [apply FAULT_VM_LIMITS_wp; lia|]. intros g s' [-> Hg]. wpgo.
    split; [done|]. destruct g; [done|]. intros _. specialize (Hf eq_refl). specialize (Hg eq_refl).
    destruct Hsx as [Hsx|(Hv0 & Hx0 & Hsx)].
    + rewrite <-Hvm in Hg. rewrite Hsx in *. by split; left.
    + destruct Hsy as [Hsy|(_ & Hy0 & Hsy)]; [congruence|].
      rewrite (Hx' Hx0) in Hrx'. rewrite (Hy' Hy0) in Hry'. simplify_eq.
      rewrite <-Hvm, Hv0 in *.
      split; right; [exists x, rx|exists y, ry]; split_and!; auto.
  - wpif.
    { wpgo. eapply wp_mono; [apply FAULT_VM_LIMITS_wp; lia|]. intros f s' [-> Hf]. wpgo.
      split; [done|]. destruct f, (vm0_limits _ _ _ _) eqn:Hl; try done. intros _.
      destruct Hsx as [Hsx|[Hsx _]]; [|lia]. rewrite Hsx in *. split; [left; auto|].
      destruct Hsy as [Hsy|(Hv0 & _ & Hsy)]; [lia|]. right. exists y, ry.
      split_and!; [done..|]. left. by eapply vm0_limits_ok. }
    wpif; [|by wpgo].
    wpgo. eapply wp_mono; [apply FAULT_VM_LIMITS_wp; lia|]. intros f s' [-> Hf]. wpgo.
    split; [done|]. destruct f, (vm0_limits _ _ _ _) eqn:Hl; try done. intros _.
    destruct Hsy as [Hsy|[Hsy _]]; [|lia]. rewrite Hsy in *. split; [|left; auto].
    destruct Hsx as [Hsx|(Hv0 & _ & Hsx)]; [lia|]. right. exists x, rx.
    split_and!; [done..|]. left. by eapply vm0_limits_ok.
Qed.
End copy.

(** C8. In a sound process table, a copy between local segments that the kernel makes for a process of a
    guest is isolated: whatever [virtual_copy] returns, it changed nothing or made
    one block copy whose source and destination both lie within the limits of the
    guest's own VM or in the memory of a process of VM0 that serves this guest (a
    kernel task, its proxy or a promiscuous process told to serve it).  So no
    other VM and no other process of VM0 can be read or written this way. *)
Theorem virtual_copy_isolated s src dst n c rc r s' :
  copy_wf s → get_proc_addr (who_p s) s = Ret (Some c) s → procs s !! c = Some rc →
  p_vmid rc ≠ VM0 → seg_type src = LOCAL_SEG → seg_type dst = LOCAL_SEG →
  0 <= va_offset src < 2 ^ 32 → 0 <= va_offset dst < 2 ^ 32 → 0 <= n < 2 ^ 32 →
  virtual_copy src dst n s = Ret r s' →
  s' = s ∨ ∃ a b, s' = s.[pmem := phys_copy_mem a b n (pmem s)] ∧
    guest_may s a n ∧ guest_may s b n.
Proof.
  intros Hwf Hc Hrc Hv Hs Hd Hos Hod Hn. revert r s'.
  assert (Hg : running_vm s ≠ VM0).
  { assert (Hside : side_ok s c rc).
    { eapply (get_proc_addr_side s Hwf (who_p s) (λ p _, p = Some c → side_ok s c rc));
        [|exact Hc|done]. intros p Hp ->. by apply Hp. }
    destruct Hside as [_ [?|[? _]]]; congruence. }
  change (wp (virtual_copy src dst n) (λ _ s', s' = s ∨ ∃ a b,
    s' = s.[pmem := phys_copy_mem a b n (pmem s)] ∧ guest_may s a n ∧ guest_may s b n) s).
  unfold virtual_copy. wpif; [wpgo; by left|]. wpgo.
  apply wp_reads; [apply pure_get_proc_addr|]. intros p Hp.
  assert (p = Some c) as -> by congruence. unfold rcode. wpgo.
  eapply wp_mono; [by apply copy_map_side|]. intros o1 s1 [-> Ho1].
  destruct o1 as [e|[p pa]]; [wpgo; by left|]. wpgo.
  eapply wp_mono; [by apply copy_map_side|]. intros o2 s2 [-> Ho2].
  destruct o2 as [e|[q pb]]; [wpgo; by left|]. wpgo.
  destruct (Ho1 p pa eq_refl) as (px & -> & Hba & Hx), (Ho2 q pb eq_refl) as (py & -> & Hbb & Hy).
  simplify_eq. rewrite Hs, Hd. apply Z.eqb_neq in Hv. rewrite Hv.
  eapply wp_mono; [apply copy_limits_wp; (done || lia)|]. intros o3 s3 [-> Ho3].
  destruct o3 as [e|[]]; [wpgo; by left|]. unfold phys_copy. wpgo.
  right. exists pa, pb. split; [done|]. by apply Ho3.
Qed.

(** *** A guest process of the example system asks for a copy *)
Definition demo_guest : kstate := (demo (1, 20)).[who_p := 20].

Lemma demo_vm_table flags tokens bsize endp vmid n x :
  vm_pproc_addr (demo_vm flags tokens bsize endp vmid) !! n = Some x → fst x = vmid.
Proof.
  cbn. intros Hx%elem_of_list_to_map_2. apply list_elem_of_fmap in Hx as (k & [= -> ->] & _). done.
Qed.

Lemma demo_guest_wf : copy_wf demo_guest.
Proof.
  split.
  - intros x r. apply (table_forall (λ _, wf_layout)).
    repeat (apply List.Forall_cons; [by split; repeat split; vm_compute|]). apply List.Forall_nil.
  - intros x r. apply (table_forall (λ x r, p_vmid r = fst x ∨ (fst x = VM0 ∧ p_vmid r = 1))).
    repeat (apply List.Forall_cons; [by left|]). apply List.Forall_nil.
  - intros vm n x Hvm. assert (H : Some (demo_vm (Z.lor VM_LOADED VM_RUNNING) 32 32 9 1) = Some vm)
      by exact Hvm. apply (inj Some) in H as <-. apply demo_vm_table.
  - intros x Hx. change (Some x ∈ [Some (0, SYSTEM); Some (0, CLOCK); Some (0, HARDWARE); Some (0, IDLE)]) in Hx.
    repeat (apply elem_of_cons in Hx as [[= ->]|Hx]; [done|]). by apply elem_of_nil in Hx.
  - intros x r p. apply (table_forall (λ _ r, band (p_misc_flags r) PROMICUOUS_TASK →
      p_nextready r = Some p → fst p = VM0)).
    repeat (apply List.Forall_cons; [cbn; by intros ? [= <-] || by vm_compute|]). apply List.Forall_nil.
  - intros x r. apply (table_forall (λ x r, fst x = VM0 → band (p_misc_flags r) PROMICUOUS_TASK = false
      ∧ band (p_misc_flags r) VIRTUAL_TASK = false)).
    repeat (apply List.Forall_cons; [by intros|]). apply List.Forall_nil.
Qed.

Lemma virtual_copy_isolated_witness :
  let src := VirAddr 20 D 0 in let dst := VirAddr 21 D 4096 in
  let s' := in_state (virtual_copy src dst 100 demo_guest) demo_guest in
  virtual_copy src dst 100 demo_guest = Ret OK s' ∧
  (s' = demo_guest ∨ ∃ a b, s' = demo_guest.[pmem := phys_copy_mem a b 100 (pmem demo_guest)]
    ∧ guest_may demo_guest a 100 ∧ guest_may demo_guest b 100).
Proof.
  intros src dst s'. assert (H : virtual_copy src dst 100 demo_guest = Ret OK s') by reflexivity.
  split; [exact H|].
  refine (virtual_copy_isolated demo_guest src dst 100 (1, 20) (mk_proc 1 20 0 0 0x0400) OK s'
    demo_guest_wf eq_refl eq_refl _ eq_refl eq_refl _ _ _ H); [discriminate|cbn; lia..].
Defined.

(** ** Physical addresses *)
Lemma copy_map_phys va n s :
  va_segment va = PHYS_SEG → copy_map va n s = Ret (inr (None, va_offset va)) s.
Proof.
  intros H. unfold copy_map, copy_phys_addr, seg_type. rewrite H.
  change (Z.land PHYS_SEG SEGMENT_TYPE) with PHYS_SEG. unfold bind, ret. cbn.
  by rewrite andb_false_r.
Qed.

Lemma virtual_copy_phys src dst n s c rc :
  va_segment src = PHYS_SEG → va_segment dst = PHYS_SEG → n ≠ 0 →
  get_proc_addr (who_p s) s = Ret (Some c) s → procs s !! c = Some rc →
  virtual_copy src dst n s =
  Ret OK (s.[pmem := phys_copy_mem (va_offset src) (va_offset dst) n (pmem s)]).
Proof.
  intros Hs Hd Hn Hc Hrc. unfold virtual_copy. apply Z.eqb_neq in Hn. rewrite Hn, bind_get.
  rewrite (bind_Ret _ _ _ _ _ Hc). unfold rcode. rewrite bind_assoc.
  rewrite (bind_Ret _ _ _ _ _ (copy_map_phys src n s Hs)), bind_assoc.
  rewrite (bind_Ret _ _ _ _ _ (copy_map_phys dst n s Hd)), bind_assoc, (bind_getp s c rc) by done.
  unfold seg_type. rewrite Hs, andb_false_r. reflexivity.
Qed.

Lemma copy_check_phys m va s :
  m_type m = SYS_PHYSCOPY → va_segment va = PHYS_SEG →
  copy_check m va s = Ret (inr (subst_self m va)) s.
Proof.
  intros Hty Hs. unfold copy_check.
  assert (H : va_segment (subst_self m va) = PHYS_SEG) by (unfold subst_self; by case_match).
  rewrite H, Hty. reflexivity.
Qed.

Lemma subst_self_phys m va :
  va_segment (subst_self m va) = va_segment va ∧ va_offset (subst_self m va) = va_offset va.
Proof. unfold subst_self. by case_match. Qed.

(** The system task makes any copy between physical addresses that it is asked
    for.  Whatever process sends SYS_PHYSCOPY, in whatever VM and with whatever
    mask of allowed kernel calls, the block is copied and the reply is OK: neither
    the dispatcher nor [do_copy] nor [virtual_copy] looks at the sender's rights. *)
Theorem physcopy_unchecked other s m c rc :
  m_type m = SYS_PHYSCOPY → CP_SRC_SPACE m = PHYS_SEG → CP_DST_SPACE m = PHYS_SEG →
  u32 (CP_NR_BYTES m) ≠ 0 →
  get_proc_addr (who_p s) s = Ret (Some c) s → procs s !! c = Some rc →
  call_vec other (u32 (m_type m - KERNEL_CALL)) m s =
  Ret (OK, m) (s.[pmem := phys_copy_mem (u32 (CP_SRC_ADDR m)) (u32 (CP_DST_ADDR m))
                            (u32 (CP_NR_BYTES m)) (pmem s)]).
Proof.
  intros Hty Hss Hds Hn Hc Hrc. rewrite Hty.
  change (call_vec other _ m) with (do_copy m). unfold do_copy, keep_msg, rcode.
  rewrite Hss, Hds, !bind_assoc.
  rewrite (bind_Ret _ _ _ _ _ (copy_check_phys m (VirAddr (CP_SRC_ENDPT m) PHYS_SEG _) s Hty eq_refl)).
  rewrite bind_assoc.
  rewrite (bind_Ret _ _ _ _ _ (copy_check_phys m (VirAddr (CP_DST_ENDPT m) PHYS_SEG _) s Hty eq_refl)).
  rewrite u32_idem, Z.eqb_refl. cbn [negb]. rewrite bind_assoc.
  erewrite bind_Ret; [|eapply virtual_copy_phys; [apply subst_self_phys..|done|exact Hc|exact Hrc]].
  destruct (subst_self_phys m (VirAddr (CP_SRC_ENDPT m) PHYS_SEG (u32 (CP_SRC_ADDR m)))) as [_ ->].
  destruct (subst_self_phys m (VirAddr (CP_DST_ENDPT m) PHYS_SEG (u32 (CP_DST_ADDR m)))) as [_ ->].
  reflexivity.
Qed.

(** A process of VM1 without any kernel call in its mask reads VM0. *)
Definition demo_masked : kstate :=
  demo_guest.[privs := <[(1, 0) := (mk_priv NONE 0 1 0).[s_call_mask := 0]]> (privs demo_guest)].

Lemma physcopy_unchecked_witness :
  let other := λ (_ : Z) (m : message), (ret (EBADREQUEST, m) : K (Z * message)) in
  let m := Message 20 SYS_PHYSCOPY 0x04000400 20 20 4096000 8192000 64 0 in
  call_vec other (u32 (m_type m - KERNEL_CALL)) m demo_masked =
  Ret (OK, m) (demo_masked.[pmem := phys_copy_mem (u32 (CP_SRC_ADDR m)) (u32 (CP_DST_ADDR m))
                                      (u32 (CP_NR_BYTES m)) (pmem demo_masked)]).
Proof.
  intros other m.
  apply (physcopy_unchecked other demo_masked m (1, 20) (mk_proc 1 20 0 0 0x0400));
    [reflexivity..|discriminate|reflexivity|reflexivity].
Defined.
