(* ===== verification/KSignalThms.v ===== *)
(** * Signals: what the kernel keeps, and what the process manager gets

    The invariant of signalled processes, kept by [cause_sig], [do_getksig] and
    [do_endksig], and the order in which [do_getksig] hands them out. *)
From stdpp Require Import base gmap list numbers strings.
From Stdlib Require Import ZArith Lia.
From S2P Require Import Prelude.
From S2P Require Import KTypes.
From S2P Require Import KProc.
From S2P Require Import KWp.
From S2P Require Import KSched.
From S2P Require Import KSysCall.
From S2P Require Import KStep.
From S2P Require Import KAuth.
From S2P Require Import KIrq.

(** ** The invariant *)

(** A process with pending signals is SIGNALED, and a SIGNALED process is kept from
    running by SIG_PENDING; nothing is said of a free slot. *)
Definition sig_ok (r : proc) : Prop :=
  held r = SLOT_FREE ∨
  (p_pending r ≠ 0 → band (held r) SIGNALED) ∧
  (band (held r) SIGNALED → band (held r) SIG_PENDING).

Definition sig_inv (s : kstate) : Prop := ∀ x r, procs s !! x = Some r → sig_ok r.
Definition keeps_sig (s s' : kstate) : Prop := sig_inv s → sig_inv s'.

#[export] Instance keeps_sig_preorder : PreOrder keeps_sig.
Proof. split; [intros s H; exact H|]. intros s1 s2 s3 H1 H2 H. exact (H2 (H1 H)). Qed.

Lemma sig_ok_role r r' : role r = role r' → sig_ok r → sig_ok r'.
Proof.
  intros H. unfold sig_ok. assert (Hh : held r = held r') by exact (f_equal snd H).
  assert (Hp : p_pending r = p_pending r') by exact (f_equal (λ p, snd (snd (fst p))) H).
  by rewrite Hh, Hp.
Qed.

(** All processes but [x]. *)
Definition sig_inv_except (x : Z * Z) (s : kstate) : Prop :=
  ∀ y r, y ≠ x → procs s !! y = Some r → sig_ok r.

Lemma authority_lookup s s' x r' :
  authority s s' → procs s' !! x = Some r' → ∃ r, procs s !! x = Some r ∧ role r = role r'.
Proof.
  intros [H _] Hr. apply (f_equal (lookup x)) in H. rewrite !lookup_fmap, Hr in H. cbn in H.
  destruct (procs s !! x) as [r|]; [|done]. exists r. split; [done|].
  symmetry. exact (inj Some _ _ H).
Qed.

Lemma authority_sig_except x s s' : authority s s' → sig_inv_except x s → sig_inv_except x s'.
Proof.
  intros Ha H y r' Hy Hr'. destruct (authority_lookup s s' y r' Ha Hr') as (r & Hr & He).
  by eapply sig_ok_role, H.
Qed.
Lemma authority_sig s s' : authority s s' → keeps_sig s s'.
Proof.
  intros Ha H y r' Hr'. destruct (authority_lookup s s' y r' Ha Hr') as (r & Hr & He).
  by eapply sig_ok_role, H.
Qed.
Lemma keeps_sig_authority {A} (m : K A) : pres authority m → pres keeps_sig m.
Proof. intros H s a s' Hm. by eapply authority_sig, H. Qed.

Lemma keeps_sig_putp p f : (∀ r, sig_ok r → sig_ok (f r)) → pres keeps_sig (putp p f).
Proof.
  intros H s a s'. unfold putp. destruct p as [x|]; [|done].
  destruct (procs s !! x) as [r|] eqn:Hr; [|done]. intros [= _ <-] Hinv y ry.
  cbn. intros [[<- <-]|[_ Hy]]%lookup_insert_Some; [by eapply H, Hinv|by eapply Hinv].
Qed.
Lemma keeps_sig_modify f : (∀ s, procs (f s) = procs s) → pres keeps_sig (modify f).
Proof. intros H. apply pres_modify. intros s Hs x r. rewrite H. apply Hs. Qed.
Lemma keeps_sig_putpriv p f : pres keeps_sig (putpriv p f).
Proof.
  intros s a s'. unfold putpriv. destruct p as [x|]; [|done].
  destruct (privs s !! x) as [r|]; [|done]. intros [= _ <-] H. exact H.
Qed.
#[export] Hint Resolve keeps_sig_putpriv : pres.
#[export] Hint Extern 1 (pres keeps_sig (modify _)) => apply keeps_sig_modify; done : pres.
#[export] Hint Extern 2 (pres keeps_sig _) =>
  apply keeps_sig_authority; solve [auto with pres nocore] : pres.

(** ** Flags *)
Lemma band_bclr x m f : Z.land f m = 0 → band (bclr x m) f = band x f.
Proof.
  intros H. unfold band, bclr. do 2 f_equal. apply Z.bits_inj'. intros n Hn.
  apply (f_equal (λ z, Z.testbit z n)) in H. rewrite Z.bits_0, Z.land_spec in H.
  rewrite !Z.land_spec, Z.lnot_spec by done.
  by destruct (Z.testbit x n), (Z.testbit f n), (Z.testbit m n).
Qed.
Lemma band_lor x m f : Z.land m f ≠ 0 → band (Z.lor x m) f = true.
Proof.
  intros H. unfold band. apply negb_true_iff, Z.eqb_neq. intros H0. apply H.
  apply Z.bits_inj'. intros n Hn. apply (f_equal (λ z, Z.testbit z n)) in H0.
  rewrite Z.bits_0, Z.land_spec, Z.lor_spec in H0. rewrite Z.bits_0, Z.land_spec.
  by destruct (Z.testbit x n), (Z.testbit f n), (Z.testbit m n).
Qed.
Lemma band_lor_other x y m : Z.land y m = 0 → band (Z.lor x y) m = band x m.
Proof. intros H. unfold band. by rewrite Z.land_lor_distr_l, H, Z.lor_0_r. Qed.
Lemma band_clear x m : band (bclr x m) m = false.
Proof.
  unfold band, bclr. apply negb_false_iff, Z.eqb_eq. apply Z.bits_inj'. intros n Hn.
  rewrite !Z.land_spec, Z.lnot_spec, Z.bits_0 by done.
  by destruct (Z.testbit x n), (Z.testbit m n).
Qed.
(** A flag that is not one of communication. *)
Lemma band_held r f : Z.land f IPC_FLAGS = 0 → band (held r) f = band (p_rts_flags r) f.
Proof. apply band_bclr. Qed.

Lemma sig_ok_flags r :
  sig_ok r ↔ held r = SLOT_FREE ∨
    (p_pending r ≠ 0 → band (p_rts_flags r) SIGNALED) ∧
    (band (p_rts_flags r) SIGNALED → band (p_rts_flags r) SIG_PENDING).
Proof. unfold sig_ok. by rewrite !band_held. Qed.

(** ** The operations keep it *)
Lemma keeps_sig_send_sig nr sig : pres keeps_sig (send_sig nr sig).
Proof. unfold send_sig, isemptyp, raw_notify. presto. Qed.
#[export] Hint Resolve keeps_sig_send_sig : pres.

Lemma keeps_sig_cause_sig nr sig : pres keeps_sig (cause_sig nr sig).
Proof.
  intros s a s' Hrun Hinv. revert a s' Hrun. change (wp (cause_sig nr sig) (λ _, sig_inv) s).
  unfold cause_sig. wpgo. apply wp_reads; [apply pure_get_proc_addr|]. intros rp _.
  wpgo. subst. wpif; [by wpgo|].
  apply wp_bind, wp_putp. intros ? rx [= <-] Hr. apply wp_bind, wp_getp. intros ? r1 [= <-] Hr1.
  cbn in Hr1. rewrite lookup_insert_eq in Hr1. injection Hr1 as <-.
  match goal with |- wp _ _ ?st => set (s1 := st) end.
  assert (Hx1 : sig_inv_except x s1).
  { intros y ry Hy. cbn. rewrite lookup_insert_ne by done. apply Hinv. }
  wpif.
  - wpgo. intros y ry. cbn. intros [[<- <-]|[_ Hy]]%lookup_insert_Some; [|by eapply Hinv].
    destruct (sig_ok_flags rx) as [Hok _]. apply sig_ok_flags. cbn.
    destruct (Hok (Hinv _ _ Hr)) as [|[_ ?]]; [by left|]. right. split; [|done]. intros _.
    match goal with H : band _ SIGNALED = true |- _ => cbn in H; by rewrite H end.
  - assert (Hx2 : ∀ m : K unit, pres authority m → wp m (λ _ s2, sig_inv_except x s2) s1).
    { intros m Hm. eapply wp_pres; [exact Hm|]. intros _ s2 Ha. by eapply authority_sig_except. }
    apply wp_bind. eapply wp_mono; [apply (Hx2 (when _ _)); unfold lock_dequeue; presto|].
    intros [] s2 Hs2. apply wp_bind, wp_putp. intros ? r2 [= <-] Hr2.
    eapply wp_pres; [apply keeps_sig_send_sig|]. intros _ s3 Hk. apply Hk.
    intros y ry. cbn. intros [[<- <-]|[Hne Hy]]%lookup_insert_Some; [|by eapply Hs2].
    apply sig_ok_flags. right. cbn. by rewrite !band_lor.
Qed.
#[export] Hint Resolve keeps_sig_cause_sig : pres.

Lemma keeps_sig_getksig_scan m l : pres keeps_sig (getksig_scan m l).
Proof.
  induction l as [|x l IH]; cbn [getksig_scan]; [presto|].
  apply pres_bind; [apply _|presto|]. intros r. destruct (band _ _); [|exact IH].
  apply pres_bind; [apply _| |presto]. apply keeps_sig_putp. intros r'. rewrite !sig_ok_flags. cbn.
  intros [Hf|[_ Hp]].
  - right. rewrite band_clear. split; [done|by intros []].
  - right. rewrite band_clear. split; [done|by intros []].
Qed.
#[export] Hint Resolve keeps_sig_getksig_scan : pres.
Lemma keeps_sig_do_getksig m : pres keeps_sig (do_getksig m).
Proof. unfold do_getksig. presto. Qed.

Lemma keeps_sig_do_endksig m : pres keeps_sig (do_endksig m).
Proof.
  intros s a s' Hrun Hinv. revert a s' Hrun. change (wp (do_endksig m) (λ _, sig_inv) s).
  unfold do_endksig. wpgo. apply wp_reads; [apply pure_isokendpt|]. intros [ok nr] _.
  wpif; [by wpgo|]. wpgo. apply wp_reads; [apply pure_get_proc_addr|]. intros rp _.
  wpstep. apply wp_getp. intros x r -> Hr.
  destruct (band (p_rts_flags r) SIG_PENDING) eqn:Hp; cbn [negb]; [|by wpgo].
  destruct (band (p_rts_flags r) SIGNALED) eqn:Hs; cbn [negb]; [by wpgo|].
  assert (Hpend : p_pending r = 0).
  { destruct (decide (p_pending r = 0)) as [|Hne]; [done|]. exfalso.
    destruct (proj1 (sig_ok_flags r) (Hinv _ _ Hr)) as [Hf|[Hsig _]].
    - rewrite <-(band_held r) in Hp by done. by rewrite Hf in Hp.
    - specialize (Hsig Hne). by rewrite Hs in Hsig. }
  do 2 apply wp_bind. apply wp_putp. intros ? r0 [= <-] Hr0. simplify_eq.
  eapply wp_pres.
  { apply (pres_when keeps_sig). unfold lock_enqueue. presto. }
  intros [] s2 Hk. wpgo. apply Hk.
  intros y ry. cbn. intros [[<- <-]|[Hne Hy]]%lookup_insert_Some; [|by eapply Hinv].
  apply sig_ok_flags. right. cbn. rewrite Hpend. split; [done|].
  by rewrite band_bclr, Hs.
Qed.
#[export] Hint Resolve keeps_sig_do_getksig keeps_sig_do_endksig : pres.

(** C14. Signals never get lost or overtaken in the kernel: the handlers that raise
    signals ([cause_sig]), hand them to the process manager ([do_getksig]) and
    finish them ([do_endksig]) keep the invariant that a live process with pending
    signals is SIGNALED, and that a SIGNALED process is kept from running by
    SIG_PENDING until the process manager is done. *)
Theorem signals_kept s s' :
  sig_inv s →
  (∃ nr sig, cause_sig nr sig s = Ret tt s') ∨
  (∃ m r, do_getksig m s = Ret r s') ∨ (∃ m r, do_endksig m s = Ret r s') →
  sig_inv s'.
Proof.
  intros Hs [(nr & sig & H)|[(m & r & H)|(m & r & H)]].
  - exact (keeps_sig_cause_sig nr sig s tt s' H Hs).
  - exact (keeps_sig_do_getksig m s r s' H Hs).
  - exact (keeps_sig_do_endksig m s r s' H Hs).
Qed.

(** PM and IDLE only: enough for a signal to process 20 of VM0. *)
Lemma signals_kept_witness :
  let s := demo (0, 20) in let s' := in_state (cause_sig 21 2 s) s in
  cause_sig 21 2 s = Ret tt s' ∧ sig_inv s'.
Proof.
  intros s s'. assert (H : cause_sig 21 2 s = Ret tt s') by (vm_compute; reflexivity).
  split; [exact H|]. apply (signals_kept s s'); [|left; eauto].
  intros x r. apply (table_forall (λ _, sig_ok)).
  repeat (apply List.Forall_cons; [right; split; [intros H0; by destruct (H0 eq_refl)|by intros []]|]).
  apply List.Forall_nil.
Defined.

(** ** The order of [do_getksig] *)
Definition signalled (s : kstate) (x : Z * Z) : Prop :=
  ∃ r, procs s !! x = Some r ∧ band (p_rts_flags r) SIGNALED.

Lemma getksig_scan_first m l s :
  (∀ x, x ∈ l → is_Some (procs s !! x)) →
  (∃ l1 x l2 r, l = l1 ++ x :: l2 ∧ (∀ y, y ∈ l1 → ¬ signalled s y) ∧
     procs s !! x = Some r ∧ band (p_rts_flags r) SIGNALED ∧
     getksig_scan m l s =
       Ret (OK, m.[SIG_ENDPT := p_endpoint r].[SIG_MAP := p_pending r])
         (s.[procs := <[x := r.[p_pending := 0].[p_rts_flags := bclr (p_rts_flags r) SIGNALED]]>
              (procs s)])) ∨
  ((∀ y, y ∈ l → ¬ signalled s y) ∧ getksig_scan m l s = Ret (OK, m.[SIG_ENDPT := NONE]) s).
Proof.
  induction l as [|x l IH]; intros Hl; [right; split; [set_solver|done]|].
  destruct (Hl x) as [r Hr]; [left|]. cbn [getksig_scan]. rewrite (bind_getp s x r) by done.
  destruct (band (p_rts_flags r) SIGNALED) eqn:Hb.
  { left. exists [], x, l, r. split_and!; [done|set_solver|done|by rewrite Hb|].
    by rewrite (bind_putp s x r). }
  assert (Hx : ¬ signalled s x) by (intros (r' & Hr' & Hb'); simplify_eq; by rewrite Hb in Hb').
  destruct IH as [(l1 & y & l2 & ry & -> & Hl1 & Hy & Hby & Hrun)|[Hl1 Hrun]].
  { intros y Hy. apply Hl. by right. }
  - left. exists (x :: l1), y, l2, ry. split_and!; try done.
    intros z [->|Hz]%elem_of_cons; [done|by apply Hl1].
  - right. split; [|done]. intros z [->|Hz]%elem_of_cons; [done|by apply Hl1].
Qed.

(** [do_getksig] always answers.  It takes the signals of the first SIGNALED
    process of the running VM in the order of the process table: the reply holds
    its endpoint and all its pending signals, the process has no pending signals
    any more and stays blocked by SIG_PENDING only, and nothing else changes.  The
    reply is NONE, with nothing changed, exactly when no process is SIGNALED. *)
Theorem do_getksig_first s m :
  (∀ n, 0 <= n < NR_PROCS → is_Some (procs s !! (running_vm s, n))) →
  let x n := (running_vm s, n) in
  (∃ n r, 0 <= n < NR_PROCS ∧ procs s !! x n = Some r ∧ band (p_rts_flags r) SIGNALED ∧
     (∀ k, 0 <= k < n → ¬ signalled s (x k)) ∧
     do_getksig m s =
       Ret (OK, m.[SIG_ENDPT := p_endpoint r].[SIG_MAP := p_pending r])
         (s.[procs := <[x n := r.[p_pending := 0].[p_rts_flags := bclr (p_rts_flags r) SIGNALED]]>
              (procs s)])) ∨
  ((∀ n, 0 <= n < NR_PROCS → ¬ signalled s (x n)) ∧
   do_getksig m s = Ret (OK, m.[SIG_ENDPT := NONE]) s).
Proof.
  intros Hall x. unfold do_getksig. rewrite bind_get.
  assert (Hin : ∀ k, 0 <= k < NR_PROCS → user_slots (running_vm s) !! Z.to_nat k = Some (x k)).
  { intros k Hk. unfold user_slots, zrange. rewrite !list_lookup_fmap, lookup_seq_lt by (cbn in *; unfold NR_PROCS in *; lia).
    cbn. unfold x. repeat f_equal. lia. }
  assert (Hof : ∀ j y, user_slots (running_vm s) !! j = Some y → y = x (Z.of_nat j) ∧ Z.of_nat j < NR_PROCS).
  { intros j y. unfold user_slots, zrange. rewrite !list_lookup_fmap.
    destruct (seq 0 _ !! j) as [i|] eqn:Hi; [|done]. apply lookup_seq in Hi as [-> Hi].
    cbn in *. intros [= <-]. unfold x, NR_PROCS in *. split; [done|lia]. }
  destruct (getksig_scan_first m (user_slots (running_vm s)) s)
    as [(l1 & y & l2 & r & Hl & Hl1 & Hy & Hb & Hrun)|[Hl Hrun]].
  - intros y [j Hj]%list_elem_of_lookup. apply Hof in Hj as [-> Hlt]. apply Hall. lia.
  - left. assert (Hj : user_slots (running_vm s) !! length l1 = Some y).
    { rewrite Hl. by apply list_lookup_middle. }
    apply Hof in Hj as [-> Hlt]. exists (Z.of_nat (length l1)), r. split_and!; [lia|lia|done..| |done].
    intros k Hk. apply Hl1. apply list_elem_of_lookup. exists (Z.to_nat k).
    specialize (Hin k ltac:(lia)). rewrite Hl, lookup_app_l in Hin by lia. done.
  - right. split; [|done]. intros n Hn. apply Hl, list_elem_of_lookup. eauto.
Qed.

(** Process 20 of VM0 has two pending signals. *)
Definition signalled_demo : kstate :=
  (full_demo (0, 20)).[procs := <[(0, 20) := (mk_proc 0 20 0 (Z.lor SIGNALED SIG_PENDING) 0x0400)
     .[p_pending := 0x0202]]> (procs (full_demo (0, 20)))].

Theorem do_getksig_first_witness :
  ∃ n r, procs signalled_demo !! (0, n) = Some r ∧ band (p_rts_flags r) SIGNALED ∧
    do_getksig msg0 signalled_demo =
      Ret (OK, msg0.[SIG_ENDPT := p_endpoint r].[SIG_MAP := p_pending r])
        (signalled_demo.[procs := <[(0, n) := r.[p_pending := 0]
           .[p_rts_flags := bclr (p_rts_flags r) SIGNALED]]> (procs signalled_demo)]).
Proof.
  destruct (do_getksig_first signalled_demo msg0) as [(n & r & _ & Hr & Hb & _ & Hrun)|[Hno _]].
  - assert (H : forallb (λ n, bool_decide (is_Some (procs signalled_demo !! (0, n))))
      (zrange 0 NR_PROCS) = true) by (vm_compute; reflexivity).
    rewrite forallb_forall in H. intros n Hn. apply (bool_decide_unpack _), Is_true_true, H.
    apply list_elem_of_In, elem_of_zrange. lia.
  - exists n, r. split; [exact Hr|]. split; [exact Hb|exact Hrun].
  - destruct (Hno 20); [by vm_compute|].
    eexists. split; [vm_compute; reflexivity|]. vm_compute. exact I.
Defined.
