(* ===== verification/KForkThms.v ===== *)
(** * Creating a process

    What [do_fork] ([src/kernel/system/do_fork.c]) makes of the slot it is given. *)
From stdpp Require Import base gmap list numbers strings.
From Stdlib Require Import ZArith Lia.
From S2P Require Import Prelude.
From S2P Require Import KTypes.
From S2P Require Import KProc.
From S2P Require Import KProcThms.
From S2P Require Import KStep.
From S2P Require Import KIrq.
From S2P Require Import KAuth.
From S2P Require Import KSignalThms.
From S2P Require Import KProcCalls.

(** The child of a process that forks: a privileged parent does not hand on its
    privileges; [up] is the structure that all user processes share. *)
Definition forked (rp : proc) (pr : priv) (up : ptr) (old_e slot : Z) : proc :=
  let c := fork_child rp old_e slot in
  let c := if band (s_flags pr) SYS_PROC
           then c.[p_priv := up].[p_rts_flags := Z.lor (p_rts_flags c) NO_PRIV] else c in
  c.[p_vmid := p_vmid rp].

Definition after_fork (rp : proc) : proc := rp.[p_ticks_left := s8 (p_ticks_left rp ÷ 2)].

Lemma do_fork_runs s m p a rp c rc pa pr vm :
  isokendpt (PR_ENDPT m) s = Ret (1, p) s →
  get_proc_addr p s = Ret (Some a) s → procs s !! a = Some rp → p_rts_flags rp ≠ SLOT_FREE →
  get_proc_addr (PR_SLOT m) s = Ret (Some c) s → procs s !! c = Some rc →
  p_rts_flags rc = SLOT_FREE →
  p_priv rp = Some pa → privs s !! pa = Some pr → vms s !! running_vm s = Some vm →
  let child := forked rp pr (vm_ppriv_addr vm !! USER_PRIV_ID) (p_endpoint rc) (PR_SLOT m) in
  do_fork m s = Ret (OK, m.[PR_ENDPT := p_endpoint child])
    (s.[procs := <[c := child]> (<[a := after_fork rp]> (procs s))]).
Proof.
  intros Hok Ha Hrp Hlive Hc Hrc Hfree Hpa Hpr Hvm child.
  assert (Hne : a ≠ c) by (intros ->; congruence).
  unfold do_fork. rewrite (bind_Ret _ _ _ _ _ Hok). cbn [Z.eqb].
  rewrite (bind_Ret _ _ _ _ _ Ha), (bind_Ret _ _ _ _ _ Hc).
  unfold isemptyp. apply Z.eqb_neq in Hlive. apply Z.eqb_eq in Hfree. mrun. rewrite Hlive. mrun.
  rewrite Hfree. cbn [orb negb]. unfold priv_of. mrun.
  change (p_priv rp.[p_ticks_left := s8 (p_ticks_left rp ÷ 2)]) with (p_priv rp).
  rewrite Hpa. mrun.
  set (c1 := fork_child rp (p_endpoint rc) (PR_SLOT m)).
  unfold child, forked, ret. fold c1. unfold priv_addr. destruct (band (s_flags pr) SYS_PROC); mrun.
  - set (c2 := c1.[p_priv := _].[p_rts_flags := _]).
    change (Ret (OK, m.[PR_ENDPT := p_endpoint c2]) (s.[procs :=
      <[c := c2.[p_vmid := p_vmid rp]]> (<[c := c2]> (<[a := after_fork rp]> (<[c := c1]> (procs s))))]) =
      Ret (OK, m.[PR_ENDPT := p_endpoint c2]) (s.[procs :=
      <[c := c2.[p_vmid := p_vmid rp]]> (<[a := after_fork rp]> (procs s))])).
    by rewrite insert_insert_eq, (insert_insert_ne _ a c), insert_insert_eq.
  - change (Ret (OK, m.[PR_ENDPT := p_endpoint c1]) (s.[procs :=
      <[c := c1.[p_vmid := p_vmid rp]]> (<[a := after_fork rp]> (<[c := c1]> (procs s)))]) =
      Ret (OK, m.[PR_ENDPT := p_endpoint c1]) (s.[procs :=
      <[c := c1.[p_vmid := p_vmid rp]]> (<[a := after_fork rp]> (procs s))])).
    by rewrite (insert_insert_ne _ a c), insert_insert_eq.
Qed.

(** The generation after [g]. *)
Definition next_gen (g : Z) : Z :=
  if ENDPOINT_MAX_GENERATION <=? g + 1 then 1 else g + 1.

Lemma next_gen_range g : 0 <= g → 0 < next_gen g < ENDPOINT_MAX_GENERATION ∧
  (0 <= g < ENDPOINT_MAX_GENERATION → next_gen g ≠ g).
Proof.
  unfold next_gen. replace ENDPOINT_MAX_GENERATION with 60425 by reflexivity.
  intros. destruct (Z.leb_spec 60425 (g + 1)); lia.
Qed.

(** The fields in which a child may differ from its parent. *)
Definition own_fields (rp child : proc) : proc :=
  child.[p_nr := p_nr rp].[p_endpoint := p_endpoint rp].[p_rts_flags := p_rts_flags rp].[p_pending := p_pending rp]
    .[p_retreg := p_retreg rp].[p_user_time := p_user_time rp].[p_sys_time := p_sys_time rp]
    .[p_ticks_left := p_ticks_left rp].[p_priv := p_priv rp].

(** C15. [do_fork] of a live parent into a free slot always succeeds.  Only the two
    slots change: the child is a copy of its parent, with the same memory map, priority,
    quantum, name and all else but its number, endpoint, flags, signals, times, share of
    the quantum, return value (0) and, with a privileged parent, privileges; it gets the next generation of the slot, so an endpoint
    that differs from the one its last user had, and the caller is told it; the
    child cannot run before it has a memory map (nor, with a privileged parent,
    before it has privileges of its own), it has no signals, no accounted time and
    belongs to its parent's VM; and parent and child share the parent's quantum
    without gaining or losing a tick. *)
Theorem do_fork_spec s m p a rp c rc pa pr vm g :
  isokendpt (PR_ENDPT m) s = Ret (1, p) s →
  get_proc_addr p s = Ret (Some a) s → procs s !! a = Some rp → p_rts_flags rp ≠ SLOT_FREE →
  get_proc_addr (PR_SLOT m) s = Ret (Some c) s → procs s !! c = Some rc →
  p_rts_flags rc = SLOT_FREE → p_endpoint rc = ENDPOINT g (PR_SLOT m) →
  0 <= g < ENDPOINT_MAX_GENERATION → - NR_TASKS <= PR_SLOT m < NR_PROCS →
  p_priv rp = Some pa → privs s !! pa = Some pr → vms s !! running_vm s = Some vm →
  0 <= p_ticks_left rp < 128 →
  ∃ child,
    do_fork m s = Ret (OK, m.[PR_ENDPT := p_endpoint child])
      (s.[procs := <[c := child]> (<[a := after_fork rp]> (procs s))]) ∧
    p_endpoint child = ENDPOINT (next_gen g) (PR_SLOT m) ∧ p_endpoint child ≠ p_endpoint rc ∧
    own_fields rp child = rp ∧
    p_nr child = PR_SLOT m ∧ p_vmid child = p_vmid rp ∧ p_retreg child = 0 ∧
    (let f := bclr (Z.lor (p_rts_flags rp) NO_MAP) (Z.lor (Z.lor SIGNALED SIG_PENDING) P_STOP) in
     if band (s_flags pr) SYS_PROC
     then p_rts_flags child = Z.lor f NO_PRIV ∧ p_priv child = vm_ppriv_addr vm !! USER_PRIV_ID
     else p_rts_flags child = f ∧ p_priv child = p_priv rp) ∧
    band (p_rts_flags child) NO_MAP ∧
    p_pending child = 0 ∧ band (p_rts_flags child) (Z.lor SIGNALED SIG_PENDING) = false ∧
    p_user_time child = 0 ∧ p_sys_time child = 0 ∧
    p_ticks_left child + p_ticks_left (after_fork rp) = p_ticks_left rp.
Proof.
  intros Hok Ha Hrp Hlive Hc Hrc Hfree He Hg Hslot Hpa Hpr Hvm Ht.
  exists (forked rp pr (vm_ppriv_addr vm !! USER_PRIV_ID) (p_endpoint rc) (PR_SLOT m)).
  split; [by apply (do_fork_runs s m p a rp c rc pa pr vm)|].
  destruct (endpoint_roundtrip g (PR_SLOT m)) as (_ & HG & _); [lia|done|].
  destruct (next_gen_range g) as [Hn Hne]; [lia|].
  destruct (endpoint_roundtrip (next_gen g) (PR_SLOT m)) as (_ & HG' & _); [lia|done|].
  assert (Hep : ENDPOINT (if ENDPOINT_MAX_GENERATION <=? ENDPOINT_G (p_endpoint rc) + 1 then 1
      else ENDPOINT_G (p_endpoint rc) + 1) (PR_SLOT m) = ENDPOINT (next_gen g) (PR_SLOT m))
    by (by rewrite He, HG).
  assert (Hdiff : ENDPOINT (next_gen g) (PR_SLOT m) ≠ p_endpoint rc).
  { intros Heq. apply (f_equal ENDPOINT_G) in Heq. rewrite He, HG, HG' in Heq. by apply Hne. }
  assert (Hticks : s8 ((p_ticks_left rp + 1) ÷ 2) + s8 (p_ticks_left rp ÷ 2) = p_ticks_left rp).
  { rewrite !Z.quot_div_nonneg by lia. unfold s8. rewrite !Z.mod_small; Z.div_mod_to_equations; lia. }
  set (f := bclr (Z.lor (p_rts_flags rp) NO_MAP) (Z.lor (Z.lor SIGNALED SIG_PENDING) P_STOP)).
  assert (Hmap : band f NO_MAP) by (unfold f; by rewrite band_bclr, band_lor).
  assert (Hsig : band f (Z.lor SIGNALED SIG_PENDING) = false).
  { unfold f, band, bclr. apply negb_false_iff, Z.eqb_eq. rewrite <-Z.land_assoc.
    change (Z.land _ (Z.lor SIGNALED SIG_PENDING)) with 0 at 1. apply Z.land_0_r. }
  unfold forked. destruct (band (s_flags pr) SYS_PROC) eqn:Hsys.
  - split_and!; try done; cbn; fold f.
    + by rewrite Hep.
    + by rewrite band_lor_other.
    + by rewrite band_lor_other.
  - split_and!; try done. cbn. by rewrite Hep.
Qed.

(** Process 20 of VM0 forks into slot 30, last used in generation 3. *)
Definition demo_free : kstate :=
  let s := demo (0, 20) in
  s.[procs := <[(0, 30) := (mk_proc 0 30 0 SLOT_FREE 0).[p_endpoint := ENDPOINT 3 30]]> (procs s)].

Lemma do_fork_spec_witness :
  let m := Message 0 (KERNEL_CALL + 0) 20 30 0 0 0 0 0 in
  ∃ child, do_fork m demo_free = Ret (OK, m.[PR_ENDPT := p_endpoint child])
      (demo_free.[procs := <[(0, 30) := child]>
        (<[(0, 20) := after_fork (mk_proc 0 20 0 0 0x0400)]> (procs demo_free))]) ∧
    p_endpoint child = ENDPOINT 4 30.
Proof.
  intros m.
  destruct (do_fork_spec demo_free m 20 (0, 20) (mk_proc 0 20 0 0 0x0400) (0, 30)
    ((mk_proc 0 30 0 SLOT_FREE 0).[p_endpoint := ENDPOINT 3 30]) (0, 0)
    (mk_priv NONE 0 0 (Z.lor PREEMPTIBLE BILLABLE))
    (demo_vm (Z.lor VM_LOADED VM_RUNNING) 224 MAXTOKENS 0 0) 3) as (child & Hrun & He & _);
    try reflexivity; try discriminate; try (split; vm_compute; discriminate || reflexivity).
  exists child. split; [exact Hrun|exact He].
Defined.
