(* ===== verification/KClearThms.v ===== *)
(** * The status of VMs and the end of an endpoint

    [clear_endpoint] ([src/kernel/system.c]) tells the processes that wait for a
    process that it is gone.  The first part shows which handlers leave the status of
    virtual machines alone. *)
From stdpp Require Import base gmap list numbers strings.
From Stdlib Require Import ZArith Lia.
From S2P Require Import Prelude.
From S2P Require Import Chains.
From S2P Require Import Timers.
From S2P Require Import KTypes.
From S2P Require Import KProc.
From S2P Require Import KSched.
From S2P Require Import KIpcSend.
From S2P Require Import KSysCall.
From S2P Require Import KStep.
From S2P Require Import KProcThms.
From S2P Require Import KReady.
From S2P Require Import KSchedOps.
From S2P Require Import KIpcInv.
From S2P Require Import KCore.
From S2P Require Import KAuth.
From S2P Require Import KRecvOps.
From S2P Require Import KClock.
From S2P Require Import KMem.
From S2P Require Import KMemCalls.
From S2P Require Import KIrq.
From S2P Require Import KProcCalls.
From S2P Require Import KSysTask.
From S2P Require Import KSignalThms.

Definition status (s : kstate) : gmap Z Z := vm_flags <$> vms s.
Definition same_status (s s' : kstate) : Prop := status s' = status s.

#[export] Instance same_status_preorder : PreOrder same_status.
Proof. split; [done|]. unfold same_status. congruence. Qed.

Lemma authority_status s s' : authority s s' → same_status s s'.
Proof. intros (_ & _ & H & _). unfold same_status, status. by rewrite H. Qed.
Lemma status_authority {A} (m : K A) : pres authority m → pres same_status m.
Proof. intros H s a s' Hm. by eapply authority_status, H. Qed.

Lemma status_putp p f : pres same_status (putp p f).
Proof.
  intros s a s'. unfold putp. destruct p as [b|]; [|done].
  destruct (procs s !! b); [|done]. by intros [= _ <-].
Qed.
Lemma status_putpriv p f : pres same_status (putpriv p f).
Proof.
  intros s a s'. unfold putpriv. destruct p as [b|]; [|done].
  destruct (privs s !! b); [|done]. by intros [= _ <-].
Qed.
Lemma status_modify f : (∀ s, vms (f s) = vms s) → pres same_status (modify f).
Proof. intros H. apply pres_modify. intros s. unfold same_status, status. by rewrite H. Qed.
Lemma status_putvm v f : (∀ r, vm_flags (f r) = vm_flags r) → pres same_status (putvm v f).
Proof.
  intros Hf s a s'. unfold putvm. destruct (vms s !! v) as [r|] eqn:Hr; [|done].
  intros [= _ <-]. unfold same_status, status. cbn. rewrite fmap_insert, Hf, <-fmap_insert.
  by rewrite insert_id.
Qed.
Lemma status_gett t : pres same_status (gett t).
Proof. intros s a s'. unfold gett. destruct (tm_store (tq s) !! t); [|done]. by intros [= _ <-]. Qed.
Lemma status_putt t f : pres same_status (putt t f).
Proof. intros s a s'. unfold putt. destruct (tm_store (tq s) !! t); [|done]. by intros [= _ <-]. Qed.
Lemma status_geth h : pres same_status (geth h).
Proof. intros s a s'. unfold geth. destruct (hooks s !! h); [|done]. by intros [= _ <-]. Qed.
Lemma status_puth h f : pres same_status (puth h f).
Proof. intros s a s'. unfold puth. destruct (hooks s !! h); [|done]. by intros [= _ <-]. Qed.
#[export] Hint Resolve status_putp status_putpriv status_gett status_putt status_geth status_puth : pres.
#[export] Hint Extern 1 (pres same_status (modify _)) => apply status_modify; done : pres.
#[export] Hint Extern 1 (pres same_status (putvm _ _)) => apply status_putvm; done : pres.
#[export] Hint Extern 2 (pres same_status _) =>
  apply status_authority; solve [auto with pres nocore] : pres.

Lemma status_tload x : pres same_status (tload x).
Proof. unfold tload. presto. Qed.
Lemma status_tstore x v : pres same_status (tstore x v).
Proof. unfold tstore. presto. Qed.
#[export] Hint Resolve status_tload status_tstore : pres.
Lemma status_hload x : pres same_status (hload x).
Proof. unfold hload. presto. Qed.
Lemma status_hstore x v : pres same_status (hstore x v).
Proof. unfold hstore. presto. Qed.
#[export] Hint Resolve status_hload status_hstore : pres.

(** ** Shared operations *)
Lemma status_raw_notify a b : pres same_status (raw_notify a b).
Proof. unfold raw_notify. presto. Qed.
#[export] Hint Resolve status_raw_notify : pres.
Lemma status_lock_send a b : pres same_status (lock_send a b).
Proof. unfold lock_send. presto. Qed.
#[export] Hint Resolve status_lock_send : pres.
Lemma status_lock_enqueue p : pres same_status (lock_enqueue p).
Proof. unfold lock_enqueue. presto. Qed.
#[export] Hint Resolve status_lock_enqueue : pres.
Lemma status_lock_dequeue p : pres same_status (lock_dequeue p).
Proof. unfold lock_dequeue. presto. Qed.
#[export] Hint Resolve status_lock_dequeue : pres.
Lemma status_isemptyp p : pres same_status (isemptyp p).
Proof. unfold isemptyp. presto. Qed.
#[export] Hint Resolve status_isemptyp : pres.
Lemma status_priv_addr i : pres same_status (priv_addr i).
Proof. unfold priv_addr. presto. Qed.
#[export] Hint Resolve status_priv_addr : pres.
Lemma status_clear_flag p f : pres same_status (clear_flag p f).
Proof. unfold clear_flag. presto. Qed.
#[export] Hint Resolve status_clear_flag : pres.
Lemma status_update_timeout : pres same_status update_timeout.
Proof. unfold update_timeout. presto. Qed.
#[export] Hint Resolve status_update_timeout : pres.
Lemma status_head_time : pres same_status head_time.
Proof. unfold head_time. presto. Qed.
#[export] Hint Resolve status_head_time : pres.
Lemma status_clr_scan t x : pres same_status (clr_scan t x).
Proof. unfold clr_scan. presto. Qed.
#[export] Hint Resolve status_clr_scan : pres.
Lemma status_tmrs_clrtimer t : pres same_status (tmrs_clrtimer t).
Proof. unfold tmrs_clrtimer. presto. Qed.
#[export] Hint Resolve status_tmrs_clrtimer : pres.
Lemma status_reset_timer t : pres same_status (reset_timer t).
Proof. unfold reset_timer. presto. Qed.
#[export] Hint Resolve status_reset_timer : pres.
Lemma status_set_scan e x : pres same_status (set_scan e x).
Proof. unfold set_scan. presto. Qed.
#[export] Hint Resolve status_set_scan : pres.
Lemma status_tmrs_settimer t e f : pres same_status (tmrs_settimer t e f).
Proof. unfold tmrs_settimer. presto. Qed.
#[export] Hint Resolve status_tmrs_settimer : pres.
Lemma status_set_timer t e f : pres same_status (set_timer t e f).
Proof. unfold set_timer. presto. Qed.
#[export] Hint Resolve status_set_timer : pres.

(** ** Memory *)
Lemma status_umap_owner p : pres same_status (umap_owner p).
Proof. unfold umap_owner. presto. Qed.
#[export] Hint Resolve status_umap_owner : pres.
Lemma status_umap_local p seg a n : pres same_status (umap_local p seg a n).
Proof. unfold umap_local. presto. Qed.
#[export] Hint Resolve status_umap_local : pres.
Lemma status_umap_remote p seg a n : pres same_status (umap_remote p seg a n).
Proof. unfold umap_remote. presto. Qed.
#[export] Hint Resolve status_umap_remote : pres.
Lemma status_umap_bios p a n : pres same_status (umap_bios p a n).
Proof. unfold umap_bios. presto. Qed.
#[export] Hint Resolve status_umap_bios : pres.
Lemma status_phys_copy a b n : pres same_status (phys_copy a b n).
Proof. unfold phys_copy. presto. Qed.
#[export] Hint Resolve status_phys_copy : pres.
Lemma status_phys_memset a b n : pres same_status (phys_memset a b n).
Proof. unfold phys_memset. presto. Qed.
#[export] Hint Resolve status_phys_memset : pres.
Lemma status_copy_redirect p v n : pres same_status (copy_redirect p v n).
Proof. unfold copy_redirect. presto. Qed.
#[export] Hint Resolve status_copy_redirect : pres.
Lemma status_copy_phys_addr p va n : pres same_status (copy_phys_addr p va n).
Proof. unfold copy_phys_addr. presto. Qed.
#[export] Hint Resolve status_copy_phys_addr : pres.
Lemma status_copy_map va n : pres same_status (copy_map va n).
Proof. unfold copy_map. presto. Qed.
#[export] Hint Resolve status_copy_map : pres.
Lemma status_FAULT_VM_LIMITS v a n : pres same_status (FAULT_VM_LIMITS v a n).
Proof. unfold FAULT_VM_LIMITS. presto. Qed.
#[export] Hint Resolve status_FAULT_VM_LIMITS : pres.
Lemma status_copy_limits a b x y n : pres same_status (copy_limits a b x y n).
Proof. unfold copy_limits. presto. Qed.
#[export] Hint Resolve status_copy_limits : pres.
Lemma status_virtual_copy a b n : pres same_status (virtual_copy a b n).
Proof. unfold virtual_copy, rcode. presto. Qed.
#[export] Hint Resolve status_virtual_copy : pres.
Lemma status_copy_map_vm va n : pres same_status (copy_map_vm va n).
Proof. unfold copy_map_vm. presto. Qed.
#[export] Hint Resolve status_copy_map_vm : pres.
Lemma status_vm0_limits_vm p nr v a n : pres same_status (vm0_limits_vm p nr v a n).
Proof. unfold vm0_limits_vm. presto. Qed.
#[export] Hint Resolve status_vm0_limits_vm : pres.
Lemma status_copy_limits_vm a b x1 x2 x y n : pres same_status (copy_limits_vm a b x1 x2 x y n).
Proof. unfold copy_limits_vm. presto. Qed.
#[export] Hint Resolve status_copy_limits_vm : pres.
Lemma status_virtual_copy_vm a b n : pres same_status (virtual_copy_vm a b n).
Proof. unfold virtual_copy_vm, rcode. presto. Qed.
#[export] Hint Resolve status_virtual_copy_vm : pres.

(** ** Calls on memory *)
Lemma status_copy_check m va : pres same_status (copy_check m va).
Proof. unfold copy_check. presto. Qed.
#[export] Hint Resolve status_copy_check : pres.
Lemma status_do_copy m : pres same_status (do_copy m).
Proof. unfold do_copy, keep_msg, rcode. presto. Qed.
#[export] Hint Resolve status_do_copy : pres.
Lemma status_vcopy_loop l : ∀ m, pres same_status (vcopy_loop m l).
Proof. induction l as [|[[a b] n] l IH]; intros m; cbn [vcopy_loop]; presto. Qed.
#[export] Hint Resolve status_vcopy_loop : pres.
Lemma status_do_vcopy m : pres same_status (do_vcopy m).
Proof. unfold do_vcopy. presto. Qed.
#[export] Hint Resolve status_do_vcopy : pres.
Lemma status_copy_check_vm m va : pres same_status (copy_check_vm m va).
Proof. unfold copy_check_vm. presto. Qed.
#[export] Hint Resolve status_copy_check_vm : pres.
Lemma status_do_vcopyvm m : pres same_status (do_vcopyvm m).
Proof. unfold do_vcopyvm, keep_msg, rcode. presto. Qed.
#[export] Hint Resolve status_do_vcopyvm : pres.
Lemma status_umap_reply m p : pres same_status (umap_reply m p).
Proof. unfold umap_reply. presto. Qed.
#[export] Hint Resolve status_umap_reply : pres.
Lemma status_umap_target p n : pres same_status (umap_target p n).
Proof. unfold umap_target. presto. Qed.
#[export] Hint Resolve status_umap_target : pres.
Lemma status_do_umap m : pres same_status (do_umap m).
Proof. unfold do_umap. presto. Qed.
#[export] Hint Resolve status_do_umap : pres.
Lemma status_do_umapvm m : pres same_status (do_umapvm m).
Proof. unfold do_umapvm. presto. Qed.
#[export] Hint Resolve status_do_umapvm : pres.
Lemma status_do_memset m : pres same_status (do_memset m).
Proof. unfold do_memset. presto. Qed.
#[export] Hint Resolve status_do_memset : pres.

(** ** Signals, processes and privileges *)
Lemma status_send_sig a b : pres same_status (send_sig a b).
Proof. unfold send_sig. presto. Qed.
#[export] Hint Resolve status_send_sig : pres.
Lemma status_cause_sig a b : pres same_status (cause_sig a b).
Proof. unfold cause_sig. presto. Qed.
#[export] Hint Resolve status_cause_sig : pres.
Lemma status_getksig_scan m l : pres same_status (getksig_scan m l).
Proof. induction l as [|a l IH]; cbn [getksig_scan]; presto. Qed.
#[export] Hint Resolve status_getksig_scan : pres.
Lemma status_do_getksig m : pres same_status (do_getksig m).
Proof. unfold do_getksig. presto. Qed.
#[export] Hint Resolve status_do_getksig : pres.
Lemma status_do_endksig m : pres same_status (do_endksig m).
Proof. unfold do_endksig. presto. Qed.
#[export] Hint Resolve status_do_endksig : pres.
Lemma status_free_priv l : pres same_status (free_priv l).
Proof. induction l as [|a l IH]; cbn [free_priv]; presto. Qed.
#[export] Hint Resolve status_free_priv : pres.
Lemma status_get_priv p t : pres same_status (get_priv p t).
Proof. unfold get_priv. presto. Qed.
#[export] Hint Resolve status_get_priv : pres.
Lemma status_unlink_scan rc x : pres same_status (unlink_scan rc x).
Proof. unfold unlink_scan. presto. Qed.
#[export] Hint Resolve status_unlink_scan : pres.
Lemma status_wake p f c : pres same_status (wake p f c).
Proof. unfold wake. presto. Qed.
#[export] Hint Resolve status_wake : pres.
Lemma status_forget_notify a b : pres same_status (forget_notify a b).
Proof. unfold forget_notify. presto. Qed.
#[export] Hint Resolve status_forget_notify : pres.
Lemma status_alert_dead rc a : pres same_status (alert_dead rc a).
Proof. unfold alert_dead. presto. Qed.
#[export] Hint Resolve status_alert_dead : pres.
Lemma status_table_slots : pres same_status table_slots.
Proof. unfold table_slots. presto. Qed.
#[export] Hint Resolve status_table_slots : pres.
Lemma status_clear_queues rc : pres same_status (clear_queues rc).
Proof. unfold clear_queues. presto. Qed.
#[export] Hint Resolve status_clear_queues : pres.
Lemma status_clear_roles rc : pres same_status (clear_roles rc).
Proof. unfold clear_roles. presto. Qed.
#[export] Hint Resolve status_clear_roles : pres.
Lemma status_clear_endpoint rc : pres same_status (clear_endpoint rc).
Proof. unfold clear_endpoint. presto. Qed.
#[export] Hint Resolve status_clear_endpoint : pres.
Lemma status_do_fork m : pres same_status (do_fork m).
Proof. unfold do_fork. presto. Qed.
#[export] Hint Resolve status_do_fork : pres.
Lemma status_rm_scan irq id x : pres same_status (rm_scan irq id x).
Proof. unfold rm_scan. presto. Qed.
#[export] Hint Resolve status_rm_scan : pres.
Lemma status_rm_irq_handler h : pres same_status (rm_irq_handler h).
Proof. unfold rm_irq_handler. presto. Qed.
#[export] Hint Resolve status_rm_irq_handler : pres.
Lemma status_release_hook e i : pres same_status (release_hook e i).
Proof. unfold release_hook. presto. Qed.
#[export] Hint Resolve status_release_hook : pres.
Lemma status_vm_map_default p : pres same_status (vm_map_default p).
Proof. unfold vm_map_default. presto. Qed.
#[export] Hint Resolve status_vm_map_default : pres.
Lemma status_clear_proc rc : pres same_status (clear_proc rc).
Proof. unfold clear_proc. presto. Qed.
#[export] Hint Resolve status_clear_proc : pres.
Lemma status_do_exit m : pres same_status (do_exit m).
Proof. unfold do_exit. presto. Qed.
#[export] Hint Resolve status_do_exit : pres.
Lemma status_kill_proc a b : pres same_status (kill_proc a b).
Proof. unfold kill_proc. presto. Qed.
#[export] Hint Resolve status_kill_proc : pres.
Lemma status_do_kill m : pres same_status (do_kill m).
Proof. unfold do_kill. presto. Qed.
#[export] Hint Resolve status_do_kill : pres.
Lemma status_in_vm {A} v (h : K A) : pres same_status h → pres same_status (in_vm v h).
Proof. intros. unfold in_vm. presto. Qed.
Lemma status_do_killvm m : pres same_status (do_killvm m).
Proof. unfold do_killvm. presto. apply status_in_vm. presto. Qed.
#[export] Hint Resolve status_do_killvm : pres.
Lemma status_do_nice m : pres same_status (do_nice m).
Proof. unfold do_nice. presto. Qed.
#[export] Hint Resolve status_do_nice : pres.
Lemma status_do_newmap m : pres same_status (do_newmap m).
Proof. unfold do_newmap. presto. Qed.
#[export] Hint Resolve status_do_newmap : pres.
Lemma status_do_getvmid m : pres same_status (do_getvmid m).
Proof. unfold do_getvmid. presto. Qed.
#[export] Hint Resolve status_do_getvmid : pres.
Lemma status_do_times m : pres same_status (do_times m).
Proof. unfold do_times. presto. Qed.
#[export] Hint Resolve status_do_times : pres.
Lemma status_copy_priv a b f : pres same_status (copy_priv a b f).
Proof. unfold copy_priv. presto. Qed.
#[export] Hint Resolve status_copy_priv : pres.
Lemma status_allow_send p i : pres same_status (allow_send p i).
Proof. unfold allow_send. presto. Qed.
#[export] Hint Resolve status_allow_send : pres.
Lemma status_allow_reply p i : pres same_status (allow_reply p i).
Proof. unfold allow_reply. presto. Qed.
#[export] Hint Resolve status_allow_reply : pres.
Lemma status_priv_init a b n : pres same_status (priv_init a b n).
Proof. unfold priv_init. presto. Qed.
#[export] Hint Resolve status_priv_init : pres.
Lemma status_priv_add_check p : pres same_status (priv_add_check p).
Proof. unfold priv_add_check. presto. Qed.
#[export] Hint Resolve status_priv_add_check : pres.
Lemma status_fetch_range p a : pres same_status (fetch_range p a).
Proof. unfold fetch_range. presto. Qed.
#[export] Hint Resolve status_fetch_range : pres.
Lemma status_priv_add_io a b n : pres same_status (priv_add_io a b n).
Proof. unfold priv_add_io. presto. Qed.
#[export] Hint Resolve status_priv_add_io : pres.
Lemma status_priv_add_mem a b n : pres same_status (priv_add_mem a b n).
Proof. unfold priv_add_mem. presto. Qed.
#[export] Hint Resolve status_priv_add_mem : pres.
Lemma status_priv_add_irq a n : pres same_status (priv_add_irq a n).
Proof. unfold priv_add_irq. presto. Qed.
#[export] Hint Resolve status_priv_add_irq : pres.
Lemma status_do_privctl m : pres same_status (do_privctl m).
Proof. unfold do_privctl. presto. Qed.
#[export] Hint Resolve status_do_privctl : pres.

(** ** Interrupts and alarms *)
Lemma status_put_scan h x : pres same_status (put_scan h x).
Proof. unfold put_scan. presto. Qed.
#[export] Hint Resolve status_put_scan : pres.
Lemma status_put_irq_handler h i f : pres same_status (put_irq_handler h i f).
Proof. unfold put_irq_handler. presto. Qed.
#[export] Hint Resolve status_put_irq_handler : pres.
Lemma status_set_actids i f : pres same_status (set_actids i f).
Proof. unfold set_actids. presto. Qed.
#[export] Hint Resolve status_set_actids : pres.
Lemma status_enable_irq h : pres same_status (enable_irq h).
Proof. unfold enable_irq. presto. Qed.
#[export] Hint Resolve status_enable_irq : pres.
Lemma status_disable_irq h : pres same_status (disable_irq h).
Proof. unfold disable_irq. presto. Qed.
#[export] Hint Resolve status_disable_irq : pres.
Lemma status_hook_check m h : pres same_status (hook_check m h).
Proof. unfold hook_check. presto. Qed.
#[export] Hint Resolve status_hook_check : pres.
Lemma status_free_hook l : pres same_status (free_hook l).
Proof. induction l as [|a l IH]; cbn [free_hook]; presto. Qed.
#[export] Hint Resolve status_free_hook : pres.
Lemma status_irq_allowed tab n v : ∀ i, pres same_status (irq_allowed tab n i v).
Proof. induction n as [|n IH]; intros i; cbn [irq_allowed]; presto. Qed.
#[export] Hint Resolve status_irq_allowed : pres.
Lemma status_irq_setpolicy m v : pres same_status (irq_setpolicy m v).
Proof. unfold irq_setpolicy. presto. Qed.
#[export] Hint Resolve status_irq_setpolicy : pres.
Lemma status_do_irqctl m : pres same_status (do_irqctl m).
Proof. unfold do_irqctl. presto. Qed.
#[export] Hint Resolve status_do_irqctl : pres.
Lemma status_do_setalarm n m : pres same_status (do_setalarm n m).
Proof. unfold do_setalarm. presto. Qed.
#[export] Hint Resolve status_do_setalarm : pres.

(** ** The system task *)
Lemma status_call_vec other n m :
  pres same_status (other n m) → pres same_status (call_vec other n m).
Proof. intros H. unfold call_vec. repeat (case_match; [solve [presto]|]). exact H. Qed.

(** ** What happens to a process when the endpoint [e] ends *)
Definition woken (flag code : Z) (r : proc) : proc :=
  r.[p_retreg := code].[p_rts_flags := bclr (p_rts_flags r) flag].

Definition waits_from (e : Z) (r : proc) : bool :=
  band (p_rts_flags r) RECEIVING && (p_getfrom_e r =? e).
Definition waits_to (e : Z) (r : proc) : bool :=
  band (p_rts_flags r) SENDING && (p_sendto_e r =? e).

(** A receiver gets ESRCDIED, a sender EDSTDIED; anyone else keeps what it has. *)
Definition alerted (e : Z) (r : proc) : proc :=
  if p_rts_flags r =? SLOT_FREE then r
  else
    let r := if waits_from e r then woken RECEIVING ESRCDIED r else r in
    if waits_to e r then woken SENDING EDSTDIED r else r.

Lemma alerted_waits_not e r :
  p_rts_flags r ≠ SLOT_FREE → waits_from e (alerted e r) = false ∧ waits_to e (alerted e r) = false.
Proof.
  intros Hne. unfold alerted. apply Z.eqb_neq in Hne. rewrite Hne. cbv zeta.
  assert (H1 : ∀ r, waits_from e (if waits_from e r then woken RECEIVING ESRCDIED r else r) = false).
  { intros r0. destruct (waits_from e r0) eqn:E; [|done]. unfold waits_from. cbn.
    by rewrite band_clear. }
  specialize (H1 r). set (r1 := if waits_from e r then _ else _) in *. clearbody r1.
  destruct (waits_to e r1) eqn:E; [|done]. split.
  - revert H1. unfold waits_from. cbn. by rewrite band_bclr.
  - unfold waits_to. cbn. by rewrite band_clear.
Qed.

Lemma alerted_priv e r : p_priv (alerted e r) = p_priv r.
Proof. unfold alerted. by repeat case_match. Qed.

(** The fields that are read and written are not scheduling state. *)
Lemma core_wake flag code e r r' : core r = core r' →
  core (if waits_to e r then woken flag code r else r) =
  core (if waits_to e r' then woken flag code r' else r').
Proof.
  intros H. assert (Hf : p_rts_flags r = p_rts_flags r') by exact (f_equal p_rts_flags H).
  assert (Ht : p_sendto_e r = p_sendto_e r') by exact (f_equal p_sendto_e H).
  unfold waits_to. rewrite Hf, Ht. destruct (_ && _); [|done].
  change (woken flag code (core r) = woken flag code (core r')). by rewrite H.
Qed.

Lemma core_alerted e r r' : core r = core r' → core (alerted e r) = core (alerted e r').
Proof.
  intros H. assert (Hf : p_rts_flags r = p_rts_flags r') by exact (f_equal p_rts_flags H).
  assert (Hg : p_getfrom_e r = p_getfrom_e r') by exact (f_equal p_getfrom_e H).
  unfold alerted. rewrite Hf. destruct (_ =? SLOT_FREE); [done|]. cbv zeta.
  apply core_wake. unfold waits_from. rewrite Hf, Hg. destruct (_ && _); [|done].
  change (woken RECEIVING ESRCDIED (core r) = woken RECEIVING ESRCDIED (core r')). by rewrite H.
Qed.

(** ** The invariant does not depend on the contents of privilege structures *)
Lemma kbase_privs s Q W pm :
  (∀ x, is_Some (privs s !! x) → is_Some (pm !! x)) → kbase s Q W → kbase (s.[privs := pm]) Q W.
Proof.
  intros Hpm [[H1 H2 H3 H4 H5] HW Hs Hc Hub]. split; [|by destruct HW|..|done|done].
  - split; [done|done|done| |done]. intros q a Ha. destruct (H4 q a Ha) as (? & ? & Hrd).
    do 2 (split; [done|]).
    apply ready_proc_inv in Hrd as (r & vm & pa & pr & Hr & Hp & Hvm & Hpa & Hpr).
    destruct (Hpm pa) as [pr' Hpr']; [eauto|].
    by apply (ready_proc_intro _ q a r vm pa pr').
  - intros a r Hr Hf. destruct (Hs a r Hr Hf) as (? & ? & ? & ? & pa & Hpa & Hpr).
    do 4 (split; [done|]). exists pa. split; [done|]. by apply Hpm.
Qed.

(** A process waits, in the kernel's own tables: its privilege structure has its
    two bit words and its counters. *)
Definition counters_ok (pr : priv) : Prop :=
  length (s_notify_pending pr) = 2%nat ∧ length (s_ntfy_cnt pr) = 32%nat.

Definition priv_good (s : kstate) (pa : Z * Z) : Prop :=
  ∃ pr, privs s !! pa = Some pr ∧ counters_ok pr.

Lemma unset_sys_bit_total l id : length l = 2%nat → 0 <= id < 32 →
  ∃ l', unset_sys_bit l id = Some l' ∧ length l' = 2%nat.
Proof.
  intros Hl Hid. destruct (bit_chunk id ltac:(lia)) as (Hq & _ & _). unfold unset_sys_bit.
  rewrite Hq. assert (Hc : ∃ c, aget l (id / 16) = Some c).
  { unfold aget. rewrite (proj2 (Z.leb_le 0 (id / 16))) by (apply Z.div_pos; lia).
    apply lookup_lt_is_Some_2. rewrite Hl. Z.div_mod_to_equations. lia. }
  destruct Hc as [c Hc]. rewrite Hc. cbn. apply aget_Some in Hc as Hr. unfold aset at 1.
  destruct Hr as [Hr1 Hr2]. rewrite (proj2 (Z.leb_le 0 _) Hr1), (proj2 (Z.ltb_lt _ _) Hr2).
  eexists. split; [done|]. by rewrite length_insert.
Qed.

Lemma aset_keeps_length {A} (l : list A) i x :
  0 <= i < Z.of_nat (length l) → ∃ l', aset l i x = Some l' ∧ length l' = length l.
Proof.
  intros [H1 H2]. unfold aset. rewrite (proj2 (Z.leb_le 0 i) H1), (proj2 (Z.ltb_lt i _) H2).
  eexists. split; [done|]. apply length_insert.
Qed.

Lemma forget_notify_run s c rc x r pc pcr px :
  procs s !! c = Some rc → procs s !! x = Some r → p_priv rc = Some pc → p_priv r = Some px →
  privs s !! pc = Some pcr → 0 <= s_id pcr < 32 → priv_good s px →
  ∃ pm, forget_notify (Some c) (Some x) s = Ret tt (s.[privs := pm]) ∧
    (∀ y, priv_good s y → priv_good (s.[privs := pm]) y) ∧
    (∀ y p, privs s !! y = Some p → ∃ p', pm !! y = Some p' ∧ s_id p' = s_id p).
Proof.
  intros Hc Hx Hpc Hpx Hpcr Hid (pr & Hpr & Hl1 & Hl2). unfold forget_notify. mrun.
  rewrite Hpc, Hpx. mrun.
  destruct (unset_sys_bit_total (s_notify_pending pr) (s_id pcr)) as (l & Hl & Hll); [done..|].
  destruct (aset_keeps_length (s_ntfy_cnt pr) (s_id pcr) 0) as (l' & Hl' & Hll'); [rewrite Hl2; lia|].
  rewrite (bind_of_option _ _ _ _ Hl), (bind_of_option _ _ _ _ Hl'). mrun.
  set (pr' := pr.[s_notify_pending := l].[s_ntfy_cnt := l']).
  exists (<[px := pr']> (privs s)). split; [done|]. split_and!.
  - intros y (q & Hq & Hok). unfold priv_good. cbn. destruct (decide (y = px)) as [->|].
    + rewrite lookup_insert_eq. exists pr'. split; [done|]. split; [done|]. cbn. by rewrite Hll'.
    + rewrite lookup_insert_ne by done. by exists q.
  - intros y p Hy. destruct (decide (y = px)) as [->|].
    + rewrite lookup_insert_eq. exists pr'. split; [done|]. by simplify_eq.
    + rewrite lookup_insert_ne by done. by exists p.
Qed.

(** [wake] is [unblock] after the result has been stored. *)
Lemma wake_total s Q W x r flag code :
  kbase s Q W → procs s !! x = Some r → band (p_rts_flags r) flag = true →
  Z.land flag SLOT_FREE = 0 →
  ∃ s' Q', wake (Some x) flag code s = Ret tt s' ∧ kbase s' Q' W ∧
    unsched s' = unsched (s.[procs := <[x := woken flag code r]> (procs s)]).
Proof.
  intros HB Hr Hb Hfl. assert (Hne : p_rts_flags r ≠ 0) by (intros H; by rewrite H in Hb).
  destruct (kb_cur _ _ _ HB) as (c & cur & Hcur & Hc).
  set (r1 := r.[p_retreg := code]). set (s1 := s.[procs := <[x := r1]> (procs s)]).
  assert (HB1 : kbase s1 Q W).
  { apply (kbase_putp s Q W x r r1); try done. intros [q Hq].
    by apply (blocked_not_ready s Q W x r) in Hq. }
  assert (Hr1 : procs s1 !! x = Some r1) by apply lookup_insert_eq.
  assert (∃ cur1, current s1 c cur1) as (cur1 & Hc1).
  { unfold current. cbn. destruct (decide (x = c)) as [<-|].
    - exists r1. by rewrite lookup_insert_eq.
    - exists cur. by rewrite lookup_insert_ne. }
  destruct (unblock_run s1 Q W x r1 flag c cur1) as (s' & Hrun & HB' & Hu); try done.
  { by rewrite band_bclr by (by rewrite Z.land_comm). }
  exists s', (unblocked Q x r1 cur1 (p_rts_flags (r1.[p_rts_flags := bclr (p_rts_flags r1) flag]))).
  split; [|split; [done|]].
  - rewrite <-Hrun. unfold wake, unblock, lock_enqueue. rewrite (bind_putp s x r), (bind_putp s1 x r1) by done.
    unfold s1. cbn [procs fupd eta kstate_eta]. by rewrite insert_insert_eq.
  - rewrite Hu. unfold s1. cbn [procs fupd eta kstate_eta]. by rewrite insert_insert_eq.
Qed.

(** ** One round of the loop *)

(** [c] is the process that ends, with endpoint [e]. *)
Definition ending (s : kstate) (c : Z * Z) (e : Z) : Prop :=
  ∃ rc pc pcr, procs s !! c = Some rc ∧ p_endpoint rc = e ∧ p_priv rc = Some pc ∧
    privs s !! pc = Some pcr ∧ 0 <= s_id pcr < 32.

(** A slot of the process table: free, or with a complete privilege structure. *)
Definition slot_good (s : kstate) (x : Z * Z) : Prop :=
  ∃ r, procs s !! x = Some r ∧
    (p_rts_flags r = SLOT_FREE ∨ ∃ px, p_priv r = Some px ∧ priv_good s px).

(** From [s] to [s'] only [x] has changed, from [r] to [r'], up to scheduling, and
    privilege structures are still complete. *)
Definition round (s : kstate) (x : Z * Z) (r' : proc) (s' : kstate) : Prop :=
  core <$> procs s' = core <$> <[x := r']> (procs s) ∧
  (∀ y, priv_good s y → priv_good s' y) ∧
  (∀ y p, privs s !! y = Some p → ∃ p', privs s' !! y = Some p' ∧ s_id p' = s_id p).

Lemma round_lookup s x r' s' y r :
  round s x r' s' → procs s !! y = Some r →
  ∃ r1, procs s' !! y = Some r1 ∧ core r1 = core (if decide (y = x) then r' else r).
Proof.
  intros [H _] Hy. apply (f_equal (lookup y)) in H. rewrite !lookup_fmap in H.
  destruct (decide (y = x)) as [->|].
  - rewrite lookup_insert_eq in H. cbn in H. destruct (procs s' !! x) as [r1|]; [|done].
    exists r1. split; [done|]. by apply (inj Some) in H.
  - rewrite lookup_insert_ne, Hy in H by done. cbn in H.
    destruct (procs s' !! y) as [r1|]; [|done]. exists r1. split; [done|].
    by apply (inj Some) in H.
Qed.

Lemma core_endpoint r r' : core r' = core r → p_endpoint r' = p_endpoint r.
Proof. intros H. exact (f_equal p_endpoint H). Qed.
Lemma core_priv r r' : core r' = core r → p_priv r' = p_priv r.
Proof. intros H. exact (f_equal p_priv H). Qed.
Lemma alerted_endpoint e r : p_endpoint (alerted e r) = p_endpoint r.
Proof. unfold alerted. by repeat case_match. Qed.

Lemma core_retreg r : p_retreg (core r) = p_retreg r.
Proof. done. Qed.
Lemma waits_core e r r' : core r' = core r →
  waits_from e r' = waits_from e r ∧ waits_to e r' = waits_to e r.
Proof.
  intros H. unfold waits_from, waits_to.
  rewrite (core_rts _ _ H), (f_equal p_getfrom_e H : p_getfrom_e r' = p_getfrom_e r).
  by rewrite (f_equal p_sendto_e H : p_sendto_e r' = p_sendto_e r).
Qed.

(** A wake-up as a round. *)
Lemma wake_round s Q W x r flag code :
  kbase s Q W → procs s !! x = Some r → band (p_rts_flags r) flag = true →
  Z.land flag SLOT_FREE = 0 →
  ∃ s' Q', wake (Some x) flag code s = Ret tt s' ∧ kbase s' Q' W ∧
    round s x (woken flag code r) s'.
Proof.
  intros HB Hr Hb Hfl. destruct (wake_total s Q W x r flag code) as (s' & Q' & Hrun & HB' & Hu);
    [done..|].
  exists s', Q'. do 2 (split; [done|]). pose proof (unsched_privs _ _ Hu) as Hp.
  cbn in Hp. split; [|split].
  - apply unsched_core in Hu. exact (f_equal procs Hu).
  - intros y (p & Hy & Hok). exists p. by rewrite Hp.
  - intros y p Hy. exists p. by rewrite Hp.
Qed.

Lemma round_trans s x r1 s1 r2 s2 :
  round s x r1 s1 → round s1 x r2 s2 → round s x r2 s2.
Proof.
  intros (H1 & H2 & H3) (G1 & G2 & G3). split; [|split; [by auto|]].
  - rewrite G1, fmap_insert, H1, <-fmap_insert, insert_insert_eq. done.
  - intros y p Hy. destruct (H3 y p Hy) as (p1 & Hp1 & Hid1).
    destruct (G3 y p1 Hp1) as (p2 & Hp2 & Hid2). exists p2. split; [done|congruence].
Qed.

Lemma maybe_wake s Q W x r flag code b :
  kbase s Q W → procs s !! x = Some r → Z.land flag SLOT_FREE = 0 →
  ∃ s' Q', when (band (p_rts_flags r) flag && b) (wake (Some x) flag code) s = Ret tt s' ∧
    kbase s' Q' W ∧
    round s x (if band (p_rts_flags r) flag && b then woken flag code r else r) s'.
Proof.
  intros HB Hr Hfl. destruct (band (p_rts_flags r) flag && b) eqn:E.
  - apply andb_true_iff in E as [Hf _]. by apply (wake_round s Q W x r flag code).
  - exists s, Q. split; [done|]. split; [done|]. split; [by rewrite insert_id|eauto].
Qed.

Lemma ending_round s c e x r r' s' :
  ending s c e → procs s !! x = Some r → p_endpoint r' = p_endpoint r → p_priv r' = p_priv r →
  round s x r' s' → ending s' c e.
Proof.
  intros (rc & pc & pcr & Hc & He & Hpc & Hpcr & Hid) Hx Hre Hrp HR.
  destruct (round_lookup _ _ _ _ c rc HR Hc) as (r1 & Hr1 & Hcore).
  destruct HR as (_ & _ & HR). destruct (HR pc pcr Hpcr) as (p' & Hp' & Hid').
  apply core_endpoint in Hcore as He1. apply core_priv in Hcore as Hp1.
  exists r1, pc, p'. rewrite He1, Hp1, Hid'.
  destruct (decide (c = x)) as [->|]; [|done].
  assert (rc = r) as -> by congruence. by rewrite Hre, Hrp.
Qed.

Lemma slot_good_round s y x r r' s' :
  slot_good s y → procs s !! x = Some r → p_priv r' = p_priv r →
  (p_rts_flags r = SLOT_FREE → r' = r) → round s x r' s' → slot_good s' y.
Proof.
  intros (ry & Hy & Hok) Hx Hrp Hfree HR.
  destruct (round_lookup _ _ _ _ y ry HR Hy) as (r1 & Hr1 & Hcore).
  exists r1. split; [done|]. destruct (decide (y = x)) as [->|].
  - assert (ry = r) as -> by congruence. destruct Hok as [Hf|(px & Hpx & Hg)].
    + left. rewrite (Hfree Hf) in Hcore. by rewrite (core_rts _ _ Hcore).
    + right. exists px. rewrite (core_priv _ _ Hcore), Hrp. split; [done|]. by apply HR.
  - destruct Hok as [Hf|(px & Hpx & Hg)].
    + left. by rewrite (core_rts _ _ Hcore).
    + right. exists px. rewrite (core_priv _ _ Hcore). split; [done|]. by apply HR.
Qed.

Lemma alert_dead_run s Q W c e x r :
  kbase s Q W → ending s c e → slot_good s x → procs s !! x = Some r →
  ∃ s' Q', alert_dead (Some c) x s = Ret tt s' ∧ kbase s' Q' W ∧ round s x (alerted e r) s'.
Proof.
  intros HB He Hx Hr. pose proof He as (rc & pc & pcr & Hc & Hce & Hpc & Hpcr & Hid).
  destruct Hx as (r0 & Hr0 & Hg). assert (r0 = r) as -> by congruence.
  unfold alert_dead, isemptyp. mrun. unfold alerted.
  destruct (p_rts_flags r =? SLOT_FREE) eqn:Hfree.
  { exists s, Q. split; [done|]. split; [done|]. split; [by rewrite insert_id|eauto]. }
  destruct Hg as [Hg|(px & Hpx & Hg)]; [by rewrite Hg in Hfree|].
  destruct (forget_notify_run s c rc x r pc pcr px) as (pm & Hrun & Hgood & Hids); [done..|].
  rewrite (bind_Ret _ _ _ _ _ Hrun). set (s1 := s.[privs := pm]).
  assert (HB1 : kbase s1 Q W).
  { apply kbase_privs; [|done]. intros y [p Hy]. destruct (Hids y p Hy) as (p' & ? & _). eauto. }
  assert (HR1 : round s x r s1).
  { split; [by rewrite insert_id|]. split; [done|]. exact Hids. }
  assert (He1 : ending s1 c e) by (apply (ending_round s c e x r r); done).
  rewrite (bind_getp s1 x r), (bind_getp s1 c rc) by done. rewrite Hce.
  destruct (maybe_wake s1 Q W x r RECEIVING ESRCDIED (p_getfrom_e r =? e))
    as (s2 & Q2 & Hrun2 & HB2 & HR2); [done..|].
  rewrite (bind_Ret _ _ _ _ _ Hrun2). fold (waits_from e r) in HR2.
  set (r1 := if waits_from e r then _ else r) in *.
  assert (Hr1 : p_endpoint r1 = p_endpoint r ∧ p_priv r1 = p_priv r)
    by (unfold r1; by destruct (waits_from e r)).
  assert (He2 : ending s2 c e) by (by destruct Hr1; apply (ending_round s1 c e x r r1)).
  destruct (round_lookup _ _ _ _ x r HR2 Hr) as (r2 & Hr2 & Hcore).
  rewrite decide_True in Hcore by done.
  destruct He2 as (rc2 & pc2 & pcr2 & Hc2 & Hce2 & _).
  rewrite (bind_getp s2 x r2), (bind_getp s2 c rc2) by done. rewrite Hce2.
  destruct (maybe_wake s2 Q2 W x r2 SENDING EDSTDIED (p_sendto_e r2 =? e))
    as (s3 & Q3 & Hrun3 & HB3 & HR3); [done..|].
  exists s3, Q3. split; [exact Hrun3|]. split; [done|].
  fold (waits_to e r2) in HR3.
  apply (round_trans s x r1 s2); [by apply (round_trans s x r s1)|].
  destruct HR3 as (HR3 & HR3' & HR3''). split; [|done].
  rewrite HR3, !fmap_insert. f_equal. by apply (core_wake SENDING).
Qed.

(** ** The whole loop *)
Lemma alert_all_run W c e l : NoDup l → ∀ s Q,
  kbase s Q W → ending s c e → (∀ x, x ∈ l → slot_good s x) →
  ∃ s' Q', for_list l (alert_dead (Some c)) s = Ret tt s' ∧ kbase s' Q' W ∧
    ∀ x r, procs s !! x = Some r → ∃ r', procs s' !! x = Some r' ∧
      core r' = core (if decide (x ∈ l) then alerted e r else r).
Proof.
  induction 1 as [|x l Hx _ IH]; intros s Q HB He Hl.
  { exists s, Q. split; [done|]. split; [done|]. intros x r Hr. exists r.
    rewrite decide_False by set_solver. done. }
  destruct (Hl x) as (r & Hr & Hg); [set_solver|].
  destruct (alert_dead_run s Q W c e x r) as (s1 & Q1 & Hrun & HB1 & HR); [done..|by exists r|done|].
  destruct (IH s1 Q1) as (s' & Q' & Hrun' & HB' & Hall); [done|..].
  { apply (ending_round s c e x r (alerted e r)); try done;
      [apply alerted_endpoint|apply alerted_priv]. }
  { intros y Hy. apply (slot_good_round s y x r (alerted e r)); try done;
      [apply Hl; set_solver|apply alerted_priv|]. intros Hf. unfold alerted. by rewrite Hf. }
  exists s', Q'. split; [|split; [done|]].
  { cbn [for_list]. by rewrite (bind_Ret _ _ _ _ _ Hrun). }
  intros y ry Hy. destruct (round_lookup _ _ _ _ y ry HR Hy) as (r1 & Hr1 & Hc1).
  destruct (Hall y r1 Hr1) as (r2 & Hr2 & Hc2). exists r2. split; [done|]. rewrite Hc2.
  destruct (decide (y = x)) as [->|Hne].
  - rewrite decide_False, decide_True by set_solver. rewrite Hc1. congruence.
  - destruct (decide (y ∈ l)) as [Hin|Hin].
    + rewrite decide_True by set_solver. by apply core_alerted.
    + rewrite decide_False by set_solver. done.
Qed.

(** ** The process that ends *)
Definition ended (r : proc) : proc :=
  let r := r.[p_rts_flags := bclr (bclr (Z.lor (p_rts_flags r) NO_ENDPOINT) SENDING) RECEIVING] in
  let r := if band (p_misc_flags r) PROXY_SERVER
           then r.[p_misc_flags := bclr (p_misc_flags r) PROXY_SERVER].[p_proxy := VM0] else r in
  r.[p_misc_flags := bclr (p_misc_flags r)
       (Z.lor (Z.lor (Z.lor VMID_PENDING VIRTUAL_TASK) PROMICUOUS_TASK) NOT_GETFROM)]
   .[p_recv_vm := ANY_VM].

(** The process that an endpoint names. *)
Definition destination (s : kstate) (e : Z) (t : Z * Z) : Prop :=
  let p := ENDPOINT_P e in
  proc_addr p s = Ret (Some t) s ∧ ∃ rt, procs s !! t = Some rt ∧
    (is_task p = true ∨ isokprocn p = true ∧ p_endpoint rt = e ∧ p_rts_flags rt ≠ SLOT_FREE).

Lemma okendpt_run s e t : destination s e t → okendpt e s = Ret (1, ENDPOINT_P e) s.
Proof.
  intros (Ha & rt & Ht & Hcase). unfold okendpt, isokendpt_f. cbv zeta.
  destruct Hcase as [->|(Hok & He & Hf)]; [done|]. destruct (is_task _); [done|].
  apply Z.eqb_neq in Hf. rewrite (bind_Ret _ _ _ _ _ Ha), Hok. cbn [negb].
  rewrite bind_assoc, (bind_getp s t rt), He, Z.eqb_refl, Hf by done. done.
Qed.

(** The queues when [c] has left the one of [t]. *)
Definition leaves (W : waits) (t c : Z * Z) : waits := w_update W t (filter (λ b, b ≠ c) (W t)).

Section leave.
Context (s : kstate) (W : waits) (t c : Z * Z) (rt rc : proc).
Context (HW : wait_queues s W) (Ht : procs s !! t = Some rt) (Hc : procs s !! c = Some rc).

(** The search passes over the others. *)
Lemma unlink_scan_skip l2 : ∀ l1 l3 n,
  chain p_q_link (procs s) (p_caller_q rt) (l1 ++ l2 ++ l3) → c ∉ l2 →
  loop (length l2 + n) (unlink_scan (Some c)) (end_loc t l1) s =
  loop n (unlink_scan (Some c)) (end_loc t (l1 ++ l2)) s.
Proof using Ht.
  clear HW Hc. induction l2 as [|x l2 IH]; intros l1 l3 n Hch Hs; [by rewrite app_nil_r|].
  cbn [length Nat.add]. rewrite loop_S. unfold unlink_scan at 1.
  rewrite (bind_Ret _ _ _ _ _ (load_end_loc s t rt l1 _ Ht Hch)). cbn [app head].
  apply not_elem_of_cons in Hs as [Hx Hs]. unfold ptr_eqb. rewrite bool_decide_eq_false_2 by congruence.
  unfold ret. rewrite <-(end_loc_snoc t l1 x), (IH (l1 ++ [x]) l3); [by rewrite <-app_assoc|by rewrite <-app_assoc|done].
Qed.

Lemma leave_run : ∃ pm, loop list_fuel (unlink_scan (Some c)) (CallerQ t) s = Ret tt (s.[procs := pm]) ∧
  links_only (procs s) pm ∧ wait_queues (s.[procs := pm]) (leaves W t c).
Proof using All.
  pose proof (wq_chain _ _ HW t rt Ht) as Hch.
  assert (Hlen : (length (W t) < list_fuel)%nat).
  { apply slots_bound; [apply HW|]. rewrite Forall_forall. apply HW. }
  change (CallerQ t) with (end_loc t []). destruct (decide (c ∈ W t)) as [Hin|Hin].
  - apply list_elem_of_split in Hin as (l1 & l2 & Hl).
    destruct (unlink_nodup s W t c l1 l2 HW Hl) as [_ Hni].
    assert (Hf : filter (λ b, b ≠ c) (W t) = l1 ++ l2) by (rewrite Hl; by apply filter_remove).
    destruct (unlink_sender_run s W t c rt rc l1 l2 HW Ht Hc Hl) as (pm & Hst & Hlk & HW').
    exists pm. split; [|split; [done|by unfold leaves; rewrite Hf]].
    rewrite Hl in Hch, Hlen. rewrite length_app in Hlen. cbn in Hlen.
    replace list_fuel with (length l1 + Datatypes.S (list_fuel - length l1 - 1))%nat by lia.
    rewrite (unlink_scan_skip l1 [] (c :: l2)) by (done || set_solver). cbn [app]. rewrite loop_S.
    unfold unlink_scan at 1. rewrite (bind_Ret _ _ _ _ _ (load_end_loc s t rt l1 _ Ht Hch)). cbn [head]. unfold ptr_eqb.
    rewrite bool_decide_eq_true_2 by done. rewrite (bind_getp s c rc) by done. by rewrite (bind_Ret _ _ _ _ _ Hst).
  - exists (procs s). split; [|split; [done|]].
    + replace list_fuel with (length (W t) + Datatypes.S (list_fuel - length (W t) - 1))%nat by lia.
      rewrite (unlink_scan_skip (W t) [] []) by (done || by rewrite app_nil_r). cbn [app]. rewrite loop_S.
      unfold unlink_scan at 1.
      rewrite (bind_Ret _ _ _ _ _ (load_end_loc s t rt (W t) [] Ht ltac:(by rewrite app_nil_r))). done.
    + assert (Hw : ∀ d, leaves W t c d = W d).
      { intros d. unfold leaves. destruct (decide (d = t)) as [->|Hne]; [|by rewrite w_update_ne].
        rewrite w_update_eq. by apply filter_absent. }
      destruct HW as [H1 H2 H3 H4]. split; cbn.
      * intros d r Hr. rewrite Hw. by apply H1.
      * intros d. by rewrite Hw.
      * intros d x. rewrite Hw. apply H3.
      * intros d d' x. rewrite !Hw. apply H4.
Qed.
End leave.

(** The first part: [c] leaves the ready queues. *)
Lemma off_queue_run s Q W c rc :
  kbase s Q W → procs s !! c = Some rc →
  (p_rts_flags rc = 0 → guard_ok s rc ∧ idle_stays Q c) →
  ∃ s0 Q0, when (p_rts_flags rc =? 0) (lock_dequeue (Some c)) s = Ret tt s0 ∧
    kbase s0 Q0 W ∧ core_state s0 = core_state s ∧ procs s0 !! c = Some rc ∧ ∀ q, c ∉ Q0 q.
Proof.
  intros HB Hc Hd. destruct (Z.eqb_spec (p_rts_flags rc) 0) as [H0|H0].
  - destruct (Hd H0) as [Hg Hi].
    destruct (dequeue_kbase s Q W c rc) as (s0 & Hrun & HB0 & Hu & Hc0); [done..|].
    exists s0, (qremove Q c). do 2 (split; [done|]). split; [by apply unsched_core|].
    split; [done|]. intros q Hq. apply elem_of_qremove in Hq. by destruct Hq.
  - exists s, Q. split_and!; try done. by apply (blocked_not_ready s Q W c rc).
Qed.

Lemma core_state_privs s s' : core_state s' = core_state s → privs s' = privs s.
Proof. intros H. exact (f_equal privs H). Qed.

Lemma core_state_round s s0 c rc :
  core_state s0 = core_state s → procs s !! c = Some rc → round s c rc s0.
Proof.
  intros H Hc. pose proof (core_state_privs _ _ H) as Hp. split; [|split].
  - rewrite insert_id by done. exact (f_equal procs H).
  - intros y (p & Hy & Hok). exists p. by rewrite Hp.
  - intros y p Hy. exists p. by rewrite Hp.
Qed.

(** What [clear_queues] does to the flags, and the state around it: [s2] is that of [s] with [c]
    off the queues. *)
Definition unqueued (r : proc) : proc :=
  r.[p_rts_flags := bclr (bclr (Z.lor (p_rts_flags r) NO_ENDPOINT) SENDING) RECEIVING].
Definition left_waits (W : waits) (rc : proc) (t c : Z * Z) : waits :=
  if band (p_rts_flags rc) SENDING then leaves W t c else W.

Lemma proc_addr_procs n s pm t : proc_addr n s = Ret (Some t) s →
  proc_addr n (s.[procs := pm]) = Ret (Some t) (s.[procs := pm]).
Proof.
  unfold get_proc_addr. rewrite !bind_get. change (running_vm (s.[procs := pm])) with (running_vm s).
  destruct (negb _); [done|]. destruct (_ || _); [done|]. unfold ret. do 4 (destruct (_ =? _); [by intros [= <-]|]).
  destruct (vms s !! running_vm s) as [v|] eqn:E; [|unfold getvm, bind; by rewrite E].
  rewrite (bind_getvm s _ v), (bind_getvm (s.[procs := pm]) _ v) by done. by intros [= ->].
Qed.
Lemma destination_marked s c rc e t : procs s !! c = Some rc → destination s e t →
  destination (s.[procs := <[c := rc.[p_rts_flags := Z.lor (p_rts_flags rc) NO_ENDPOINT]]> (procs s)]) e t.
Proof.
  intros Hc (Ha & rt & Ht & Hcase). split; [by apply proc_addr_procs|].
  destruct (decide (t = c)) as [->|Hne]; [|exists rt; cbn; by rewrite lookup_insert_ne by done].
  eexists. split; [apply lookup_insert_eq|]. assert (rt = rc) as -> by congruence.
  destruct Hcase as [?|(? & ? & ?)]; [by left|right]. split_and!; [done|done|]. cbn. intros Hz.
  assert (H' : band (Z.lor (p_rts_flags rc) NO_ENDPOINT) NO_ENDPOINT = true) by by apply band_lor.
  by rewrite Hz in H'.
Qed.

Lemma bclr_absent x m : band x m = false → bclr x m = x.
Proof.
  unfold band, bclr. rewrite negb_false_iff, Z.eqb_eq. intros H. apply Z.bits_inj'. intros n Hn.
  apply (f_equal (λ z, Z.testbit z n)) in H. rewrite Z.land_spec, Z.bits_0 in H.
  rewrite Z.land_spec, Z.lnot_spec by done. destruct (Z.testbit x n), (Z.testbit m n); done.
Qed.

Lemma clear_queues_run s Q W c rc t :
  kbase s Q W → procs s !! c = Some rc → p_rts_flags rc ≠ SLOT_FREE →
  (p_rts_flags rc = 0 → guard_ok s rc ∧ idle_stays Q c) →
  (band (p_rts_flags rc) SENDING = true → destination s (p_sendto_e rc) t) →
  ∃ s2 Q2 rc2, clear_queues (Some c) s = Ret tt (s2.[procs := <[c := unqueued rc2]> (procs s2)]) ∧
    kbase s2 Q2 (left_waits W rc t c) ∧ core_state s2 = core_state s ∧ procs s2 !! c = Some rc2 ∧
    p_rts_flags rc2 = p_rts_flags rc ∧ ∀ q, c ∉ Q2 q.
Proof.
  intros HB Hc Hlive Hdeq Hdst.
  destruct (off_queue_run s Q W c rc HB Hc Hdeq) as (s0 & Q0 & Hrun & HB0 & Hcs & Hc0 & HQ0).
  unfold clear_queues, isemptyp. apply Z.eqb_neq in Hlive as Hl. mrun. rewrite Hl. mrun. rewrite (bind_Ret _ _ _ _ _ Hrun).
  rewrite (bind_putp s0 c rc) by done. set (rA := rc.[p_rts_flags := _]). set (sA := s0.[procs := <[c := rA]> (procs s0)]).
  assert (HcA : procs sA !! c = Some rA) by apply lookup_insert_eq.
  assert (HsA : band (p_rts_flags rA) SENDING = band (p_rts_flags rc) SENDING) by by apply band_lor_other.
  rewrite (bind_getp sA c rA), HsA by done. unfold left_waits. destruct (band (p_rts_flags rc) SENDING) eqn:Hs.
  2: { exists s0, Q0, rc. split_and!; try done. cbv beta. rewrite bind_skip, (tail_putp _ c rA) by done. unfold sA. cbn.
       rewrite insert_insert_eq. unfold unqueued. rewrite (bclr_absent _ SENDING); [done|]. by rewrite band_lor_other. }
  assert (Hne : p_rts_flags rc ≠ 0) by (intros H; by rewrite H in Hs).
  assert (s0 = s) as ->.
  { apply Z.eqb_neq in Hne. rewrite Hne in Hrun. by injection Hrun. }
  pose proof (destination_marked s c rc _ t Hc (Hdst eq_refl)) as Hd. fold rA in Hd. fold sA in Hd.
  change (p_sendto_e rA) with (p_sendto_e rc).
  assert (HBA : kbase sA Q0 W).
  { apply (kbase_putp s Q0 W c rc rA); try done; [intros [q Hq]; by apply HQ0 in Hq|]. cbn. by rewrite band_lor_other. }
  rewrite !bind_assoc. rewrite (bind_Ret _ _ _ _ _ (okendpt_run _ _ _ Hd)). cbv beta iota. rewrite !bind_assoc.
  destruct Hd as (Ha & rt & Ht & _). rewrite (bind_Ret _ _ _ _ _ Ha), bind_assoc, (bind_of_option _ t), bind_assoc by done.
  destruct (leave_run sA W t c rt rA (kb_wait _ _ _ HBA) Ht HcA) as (pm & Hloop & Hlk & HWB).
  rewrite (bind_Ret _ _ _ _ _ Hloop). set (sB := sA.[procs := pm]).
  destruct (links_only_lookup _ _ c rA (links_only_sym _ _ Hlk) HcA) as (rB & HcB & HeB).
  rewrite (bind_putp sB c rB) by done.
  set (rc2 := rB.[p_rts_flags := p_rts_flags rc]). set (s2 := sB.[procs := <[c := rc2]> (procs sB)]).
  assert (HfB : p_rts_flags rB = Z.lor (p_rts_flags rc) NO_ENDPOINT) by exact (eq_sym (f_equal p_rts_flags HeB)).
  assert (HBB : kbase sB Q0 (leaves W t c)) by by apply (kbase_links sA Q0 W).
  exists s2, Q0, rc2. split_and!; [| | |by apply lookup_insert_eq|done|done].
  - rewrite (tail_putp _ c (rB.[p_rts_flags := bclr (p_rts_flags rB) SENDING])) by apply lookup_insert_eq.
    unfold s2. cbn. rewrite !insert_insert_eq. unfold unqueued, rc2. cbn. by rewrite HfB.
  - apply (kbase_putp sB Q0 _ c rB rc2); try done; [intros [q Hq]; by apply HQ0 in Hq|]. cbn. by rewrite HfB, band_lor_other.
  - unfold s2. assert (HcoB : core_state sB = core_state sA) by by apply links_core.
    rewrite (core_insert sA sB c rc2 rc HcoB).
    + unfold sA. cbn. rewrite insert_insert_eq, insert_id by done. done.
    + transitivity ((core rA).[p_rts_flags := p_rts_flags rc]); [|done].
      transitivity ((core rB).[p_rts_flags := p_rts_flags rc]); [done|].
      assert (Hcr : core rB = core rA) by exact (eq_sym (f_equal erase HeB)). by rewrite Hcr.
Qed.

Lemma core_ended r r' : core r = core r' → core (ended r) = core (ended r').
Proof.
  intros H. assert (E : ∀ r, core (ended r) = ended (core r)); [|by rewrite !E, H].
  intros r0. unfold ended. change (p_misc_flags ((core r0).[p_rts_flags := _])) with (p_misc_flags r0).
  change (p_misc_flags (r0.[p_rts_flags := _])) with (p_misc_flags r0). by destruct (band (p_misc_flags r0) PROXY_SERVER).
Qed.

Lemma clear_roles_run s c r :
  procs s !! c = Some r →
  clear_roles (Some c) s = Ret tt (s.[procs := <[c :=
    (let r := if band (p_misc_flags r) PROXY_SERVER
       then r.[p_misc_flags := bclr (p_misc_flags r) PROXY_SERVER].[p_proxy := VM0] else r in
     r.[p_misc_flags := bclr (p_misc_flags r)
          (Z.lor (Z.lor (Z.lor VMID_PENDING VIRTUAL_TASK) PROMICUOUS_TASK) NOT_GETFROM)]
      .[p_recv_vm := ANY_VM])]> (procs s)]).
Proof.
  intros Hc. unfold clear_roles. mrun. destruct (band (p_misc_flags r) PROXY_SERVER); mrun.
  - cbn. by rewrite insert_insert_eq.
  - done.
Qed.

Lemma ended_live r : p_rts_flags (ended r) ≠ 0 ∧ p_rts_flags (ended r) ≠ SLOT_FREE.
Proof.
  assert (H : band (p_rts_flags (ended r)) NO_ENDPOINT = true).
  { unfold ended. destruct (band _ PROXY_SERVER); cbn;
      rewrite band_bclr by done; rewrite band_bclr by done; by apply band_lor. }
  split; intros H0; by rewrite H0 in H.
Qed.

Lemma ended_fields r :
  p_endpoint (ended r) = p_endpoint r ∧ p_priv (ended r) = p_priv r ∧ p_vmid (ended r) = p_vmid r ∧
  same_links r (ended r) ∧
  p_rts_flags (ended r) = bclr (bclr (Z.lor (p_rts_flags r) NO_ENDPOINT) SENDING) RECEIVING.
Proof. unfold ended. by destruct (band (p_misc_flags _) PROXY_SERVER). Qed.

(** A process that ends and is on no ready queue. *)
Lemma kbase_ended s Q W c rc :
  kbase s Q W → procs s !! c = Some rc → (∀ q, c ∉ Q q) →
  kbase (s.[procs := <[c := ended rc]> (procs s)]) Q W.
Proof.
  intros HB Hc HQ. destruct (ended_fields rc) as (_ & _ & Hv & Hl & Hf).
  apply (kbase_putp s Q W c rc (ended rc)); try done.
  - intros [q Hq]. by apply HQ in Hq.
  - by rewrite Hf, !band_bclr, band_lor_other.
Qed.

(** What the end of [c] makes of the descriptor of [x]. *)
Definition after_end (c : Z * Z) (e : Z) (l : list (Z * Z)) (x : Z * Z) (r : proc) : proc :=
  let r := if decide (x = c) then ended r else r in
  if decide (x ∈ l) then alerted e r else r.

(** [clear_endpoint] from the point where [c] is off the ready queues. *)
Lemma clear_tail_run s Q W c rc l :
  kbase s Q W → ending s c (p_endpoint rc) → procs s !! c = Some rc → (∀ q, c ∉ Q q) →
  p_rts_flags rc ≠ SLOT_FREE →
  NoDup l → (∀ x, x ∈ l → slot_good s x) →
  let s1 := s.[procs := <[c := ended rc]> (procs s)] in
  ∃ s' Q', for_list l (alert_dead (Some c)) s1 = Ret tt s' ∧ kbase s' Q' W ∧
    ∀ x r, procs s !! x = Some r → ∃ r', procs s' !! x = Some r' ∧
      core r' = core (after_end c (p_endpoint rc) l x r).
Proof.
  intros HB He Hc HQ Hlive Hnd Hl s1. destruct (ended_fields rc) as (Hee & Hep & _).
  assert (HR : round s c (ended rc) s1) by (split; [done|]; split; eauto).
  destruct (alert_all_run W c (p_endpoint rc) l Hnd s1 Q) as (s' & Q' & Hrun & HB' & Hall).
  - by apply kbase_ended.
  - by apply (ending_round s c _ c rc (ended rc)).
  - intros x Hx. apply (slot_good_round s x c rc (ended rc)); [by apply Hl|done..].
  - exists s', Q'. do 2 (split; [done|]). intros x r Hr.
    destruct (round_lookup _ _ _ _ x r HR Hr) as (r1 & Hr1 & Hc1).
    destruct (Hall x r1 Hr1) as (r2 & Hr2 & Hc2). exists r2. split; [done|].
    rewrite Hc2. unfold after_end.
    assert (Hx : core r1 = core (if decide (x = c) then ended r else r)).
    { rewrite Hc1. destruct (decide (x = c)) as [->|]; [|done]. congruence. }
    destruct (decide (x ∈ l)); [by apply core_alerted|done].
Qed.

(** The slots the loop visits: those of the table of the VM from process 0 on. *)
Definition vm_slots (start : Z * Z) : list (Z * Z) :=
  map (λ n, (fst start, n)) (zrange (snd start) NR_PROCS).

Lemma vm_slots_nodup start : NoDup (vm_slots start).
Proof. unfold vm_slots, zrange. do 2 (apply NoDup_fmap_2; [by intros ?? [=]; lia|]). apply NoDup_seq. Qed.

Section clear.
  Context (s : kstate) (Q : queues) (W : waits) (c : Z * Z) (rc : proc) (t : Z * Z).
  Context (vm : vm_struct) (start : Z * Z).
  Hypotheses (HB : kbase s Q W) (Hc : procs s !! c = Some rc)
    (Hlive : p_rts_flags rc ≠ SLOT_FREE)
    (Hdst : band (p_rts_flags rc) SENDING = true → destination s (p_sendto_e rc) t)
    (Hdeq : p_rts_flags rc = 0 → guard_ok s rc ∧ idle_stays Q c)
    (He : ending s c (p_endpoint rc))
    (Hvm : vms s !! running_vm s = Some vm) (Hstart : vm_pproc_addr vm !! 0 = Some start)
    (Hslots : ∀ x, x ∈ vm_slots start → slot_good s x).

Lemma clear_endpoint_run : ∃ s' Q', clear_endpoint (Some c) s = Ret tt s' ∧ kbase s' Q' (left_waits W rc t c) ∧
  ∀ x r, procs s !! x = Some r → ∃ r', procs s' !! x = Some r' ∧
    core r' = core (after_end c (p_endpoint rc) (vm_slots start) x r).
Proof using All.
  destruct (clear_queues_run s Q W c rc t HB Hc Hlive Hdeq Hdst) as (s0 & Q0 & rc0 & Hrun & HB0 & Hcs & Hc0 & Hf0 & HQ0).
  pose proof (core_state_round s s0 c rc Hcs Hc) as HR.
  destruct (round_lookup _ _ _ _ c rc HR Hc) as (rc' & Hrc' & Hcore0).
  assert (rc' = rc0) as -> by congruence. rewrite decide_True in Hcore0 by done.
  assert (He0 : p_endpoint rc0 = p_endpoint rc) by by apply core_endpoint.
  destruct (clear_tail_run s0 Q0 (left_waits W rc t c) c rc0 (vm_slots start)) as (s' & Q' & Hrun' & HB' & Hall); try done.
  - rewrite He0. by apply (ending_round s c _ c rc rc).
  - by rewrite Hf0.
  - apply vm_slots_nodup.
  - intros x Hx. by apply (slot_good_round s x c rc rc); [apply Hslots|..].
  - exists s', Q'. split; [|split; [done|]].
    + unfold clear_endpoint. rewrite (bind_Ret _ _ _ _ _ Hrun).
      rewrite (bind_Ret _ _ _ _ _ (clear_roles_run _ c _ (lookup_insert_eq _ _ _))).
      match goal with |- bind _ _ ?st = _ =>
        assert (st = s0.[procs := <[c := ended rc0]> (procs s0)]) as -> end.
      { cbn. by rewrite insert_insert_eq. }
      unfold table_slots. rewrite bind_assoc, bind_get.
      pose proof (f_equal vms Hcs) as Hv. pose proof (f_equal running_vm Hcs) as Hrv.
      cbn in Hv, Hrv. cbn. rewrite Hrv.
      rewrite bind_assoc, (bind_getvm _ _ vm) by (cbn; by rewrite Hv).
      rewrite bind_assoc, (bind_of_option _ start) by done. by rewrite bind_ret.
    + intros x r Hr. destruct (round_lookup _ _ _ _ x r HR Hr) as (r1 & Hr1 & Hc1).
      destruct (Hall x r1 Hr1) as (r2 & Hr2 & Hc2). exists r2. split; [done|]. rewrite Hc2, He0.
      assert (Hx : core r1 = core r) by (rewrite Hc1; case_decide; congruence).
      unfold after_end. assert (Hx' : core (if decide (x = c) then ended r1 else r1) =
        core (if decide (x = c) then ended r else r)) by (case_decide; [by apply core_ended|done]).
      destruct (decide (x ∈ _)); [by apply core_alerted|done].
Qed.
End clear.


(** The hypothesis on the slots, computed. *)
Definition slot_goodb (s : kstate) (x : Z * Z) : bool :=
  match procs s !! x with
  | Some r =>
      (p_rts_flags r =? SLOT_FREE) ||
      match p_priv r ≫= λ px, privs s !! px with
      | Some p => bool_decide (length (s_notify_pending p) = 2%nat)
                  && bool_decide (length (s_ntfy_cnt p) = 32%nat)
      | None => false
      end
  | None => false
  end.

Lemma slot_goodb_sound s l :
  forallb (slot_goodb s) l = true → ∀ x, x ∈ l → slot_good s x.
Proof.
  rewrite forallb_forall. intros H x Hx. apply list_elem_of_In, H in Hx. revert Hx.
  unfold slot_goodb, slot_good. destruct (procs s !! x) as [r|]; [|done].
  intros [Hf|Hg]%orb_true_iff; exists r; (split; [done|]); [left; by apply Z.eqb_eq|right].
  destruct (p_priv r) as [px|]; [|done]. cbn in Hg. exists px. split; [done|].
  destruct (privs s !! px) as [p|] eqn:E; [|done]. exists p. split; [done|].
  apply andb_true_iff in Hg as [H1 H2]. by apply bool_decide_eq_true in H1, H2.
Qed.

(** Process 21 of VM0 sends to process 22, whose queue it is in, and process 23 waits for a message
    of process 21. *)
Definition ending_sender : proc := (mk_proc 0 21 0 SENDING 0x0400).[p_sendto_e := ENDPOINT 0 22].
Definition ending_demo : kstate :=
  (full_demo (0, 20)).[procs :=
    <[(0, 21) := ending_sender]>
    (<[(0, 22) := (mk_proc 0 22 0 RECEIVING 0x0400).[p_caller_q := Some (0, 21)]]>
    (<[(0, 23) := (mk_proc 0 23 0 RECEIVING 0x0400).[p_getfrom_e := ENDPOINT 0 21]]>
    (procs (full_demo (0, 20)))))].

