(* ===== verification/KVmTextThms.v ===== *)
(** * Text in the kernel: properties

    [ul2a] against the number its digits stand for, and [get_value] against the
    boot parameters that [set_boot_parms] builds. *)
From stdpp Require Import base list numbers strings.
From Stdlib Require Import ZArith Lia Ascii.
From S2P Require Import Prelude.
From S2P Require Import KTypes.
From S2P Require Import KVmm.

Local Open Scope string_scope.

(** ** The value of a number *)

(** The place of a character in [hex_digits]. *)
Fixpoint index_of (c : ascii) (s : string) (i : Z) : Z :=
  match s with
  | EmptyString => 0
  | String d s' => if Ascii.eqb c d then i else index_of c s' (i + 1)
  end.

Definition digit_value (c : ascii) : Z := index_of c hex_digits 0.

(** The number that [a] stands for in base [b], behind the digits of [acc]. *)
Fixpoint number_value (b acc : Z) (a : string) : Z :=
  match a with
  | EmptyString => acc
  | String c a' => number_value b (acc * b + digit_value c) a'
  end.

Fixpoint Forall_chars (P : ascii → Prop) (s : string) : Prop :=
  match s with EmptyString => True | String c s' => P c ∧ Forall_chars P s' end.

Lemma digit_of d : (0 ≤ d < 16)%Z →
  ∃ c, String.get (Z.to_nat d) hex_digits = Some c ∧ digit_value c = d ∧ c ≠ NUL.
Proof.
  intros Hd. assert (Hin : d ∈ zrange 0 16) by (apply elem_of_zrange; lia). revert Hin.
  vm_compute zrange. rewrite !elem_of_cons, elem_of_nil.
  intros H. repeat destruct H as [->|H]; [..|done];
    (eexists; split; [reflexivity|split; [reflexivity|discriminate]]).
Qed.

Lemma str_app_cons c s t : String c s ++ t = String c (s ++ t).
Proof. done. Qed.
Lemma number_value_app b acc s t : number_value b acc (s ++ t) = number_value b (number_value b acc s) t.
Proof. revert acc. induction s as [|c s IH]; intros acc; [done|apply IH]. Qed.
Lemma Forall_chars_app P s t : Forall_chars P s → Forall_chars P t → Forall_chars P (s ++ t).
Proof. induction s as [|c s IH]; [done|]. intros [??] ?. split; [done|by apply IH]. Qed.
Lemma app_str_assoc s t u : s ++ (t ++ u) = (s ++ t) ++ u.
Proof. induction s as [|c s IH]; [done|]. by rewrite !str_app_cons, IH. Qed.
Lemma app_str_nil s : s ++ "" = s.
Proof. induction s as [|c s IH]; [done|]. by rewrite str_app_cons, IH. Qed.
Lemma length_app_str s t : String.length (s ++ t) = (String.length s + String.length t)%nat.
Proof. induction s as [|c s IH]; [done|]. rewrite str_app_cons. cbn. by rewrite IH. Qed.

(** A number without useless zeros. *)
Definition numeral (b n : Z) (a : string) : Prop :=
  number_value b 0 a = n ∧ Forall_chars (λ c, c ≠ NUL) a ∧ a ≠ "" ∧
  (∀ t, a = String "0"%char t → n = 0%Z).

Lemma ul2a_loop_spec room n b a : (2 ≤ b ≤ 16)%Z → (0 ≤ n < b ^ Z.of_nat room)%Z → (0 < room)%nat →
  ∃ a', ul2a_loop room n b a = Some (a' ++ a) ∧ numeral b n a' ∧ (String.length a' ≤ room)%nat.
Proof.
  intros Hb. revert n a. induction room as [|room IH]; intros n a Hn Hr; [lia|]. cbn [ul2a_loop].
  destruct (digit_of (n mod b)) as (c & -> & Hc & Hnul); [pose proof (Z.mod_pos_bound n b); lia|].
  pose proof (Z.div_mod n b ltac:(lia)) as Hdm.
  destruct (Z.ltb_spec 0 (n / b)) as [Hq|Hq].
  - rewrite Nat2Z.inj_succ, Z.pow_succ_r in Hn by lia.
    assert (Hlt : (n / b < b ^ Z.of_nat room)%Z) by (apply Z.div_lt_upper_bound; lia).
    destruct room as [|room]; [cbn in Hlt; lia|].
    destruct (IH (n / b)%Z (String c a)) as (a' & -> & (Hv & Hch & Hne & Hz) & Hlen); [lia|lia|].
    exists (a' ++ String c ""). rewrite <-app_str_assoc. split; [done|].
    rewrite length_app_str. cbn [String.length]. split; [|lia]. split_and!.
    + rewrite number_value_app, Hv. cbn [number_value]. rewrite Hc. lia.
    + by apply Forall_chars_app.
    + by destruct a'.
    + intros t Ht. destruct a' as [|c' a']; [done|]. injection Ht as -> _. specialize (Hz _ eq_refl). lia.
  - exists (String c ""). split; [done|]. assert (n / b = 0)%Z as H0.
    { pose proof (Z.div_pos n b). lia. }
    rewrite H0 in Hdm.
    split; [|cbn; lia]. split_and!; [cbn [number_value]; lia|done|done|].
    intros t [= -> _]. change (digit_value "0"%char) with 0%Z in Hc. lia.
Qed.

(** [ul2a] prints every unsigned 32-bit number at a base from 8 to 16, within the
    eleven digits its buffer has room for: read back, the digits give the number, and
    only the number 0 begins with the digit 0. *)
Theorem ul2a_roundtrip n b : (8 ≤ b ≤ 16)%Z → (0 ≤ n < 2 ^ 32)%Z →
  ∃ a, ul2a n b = Some a ∧ numeral b n a ∧ (String.length a ≤ ul2a_room)%nat.
Proof.
  intros Hb Hn. unfold ul2a.
  destruct (ul2a_loop_spec ul2a_room n b "") as (a & Ha & H); [lia| |unfold ul2a_room; lia|].
  - split; [lia|]. apply Z.lt_le_trans with (8 ^ 11)%Z; [|apply Z.pow_le_mono_l; lia].
    apply Z.lt_trans with (2 ^ 32)%Z; [lia|reflexivity].
  - exists a. split; [|done]. by rewrite Ha, app_str_nil.
Qed.

Lemma ul2a_roundtrip_witness :
  ul2a 4294967295 8 = Some "37777777777" ∧
  ∃ a, ul2a 4294967295 8 = Some a ∧ numeral 8 4294967295 a ∧ (String.length a ≤ ul2a_room)%nat.
Proof. split; [reflexivity|apply (ul2a_roundtrip 4294967295 8); lia]. Defined.

(** ** Boot parameters *)

(** A name that can be looked up. *)
Definition good_char (c : ascii) : Prop := c ≠ NUL ∧ c ≠ "="%char.
Definition good_name (s : string) : Prop := s ≠ "" ∧ Forall_chars good_char s.

Lemma after_nul_skip s t : Forall_chars (λ c, c ≠ NUL) s → after_nul (s ++ t) = after_nul t.
Proof.
  induction s as [|c s IH]; [done|]. intros [Hc Hs]. rewrite str_app_cons. cbn [after_nul].
  destruct (Ascii.eqb_spec c NUL); [done|by apply IH].
Qed.
Lemma upto_nul_app s t : Forall_chars (λ c, c ≠ NUL) s → upto_nul (s ++ String NUL t) = s.
Proof.
  induction s as [|c s IH]; [done|]. intros [Hc Hs]. rewrite str_app_cons. cbn [upto_nul].
  destruct (Ascii.eqb_spec c NUL); [done|by rewrite IH].
Qed.
Lemma upto_nul_chars s : Forall_chars (λ c, c ≠ NUL) (upto_nul s).
Proof. induction s as [|c s IH]; [done|]. cbn [upto_nul]. by destruct (Ascii.eqb_spec c NUL). Qed.
Lemma good_chars_nul s : Forall_chars good_char s → Forall_chars (λ c, c ≠ NUL) s.
Proof. induction s as [|c s IH]; [done|]. intros [[??] ?]. split; [done|by apply IH]. Qed.

(** Where the comparison of [n] with an entry for [k] stops. *)
Lemma match_name_entry n k t : Forall_chars good_char n → Forall_chars good_char k →
  ∃ r c e, match_name n (k ++ String "=" t) = (r, String c e) ∧
    after_nul (String c e) = after_nul t ∧
    if decide (n = k) then r = "" ∧ c = "="%char ∧ e = t else r ≠ "" ∨ c ≠ "="%char.
Proof.
  revert k. induction n as [|a n IH]; intros k Hn Hk.
  - destruct k as [|b k].
    + exists "", "="%char, t. by rewrite decide_True.
    + destruct Hk as [[Hb Hb'] Hk]. exists "", b, (k ++ String "=" t). rewrite str_app_cons.
      split_and!; [done| |rewrite decide_False by done; by right]. cbn [after_nul].
      destruct (Ascii.eqb_spec b NUL); [done|]. by rewrite after_nul_skip by by apply good_chars_nul.
  - destruct Hn as [[Ha Ha'] Hn]. destruct k as [|b k].
    + exists (String a n), "="%char, t. change ("" ++ String "=" t) with (String "=" t). cbn [match_name].
      destruct (Ascii.eqb_spec a "="); [done|]. split_and!; [done..|rewrite decide_False by done; by left].
    + destruct Hk as [[Hb Hb'] Hk]. rewrite str_app_cons. cbn [match_name].
      destruct (Ascii.eqb_spec a b) as [<-|Hab].
      * destruct (IH k Hn Hk) as (r & c & e & -> & He & Hd). exists r, c, e. split_and!; [done..|].
        destruct (decide (n = k)) as [->|]; [by rewrite decide_True|by rewrite decide_False by congruence].
      * exists (String a n), b, (k ++ String "=" t). split_and!; [done| |].
        -- cbn [after_nul]. destruct (Ascii.eqb_spec b NUL); [done|].
           by rewrite after_nul_skip by by apply good_chars_nul.
        -- rewrite decide_False by congruence. by left.
Qed.

Definition entry (k v rest : string) : string := k ++ "=" ++ v ++ String NUL rest.

Lemma get_value_entry fuel n k v rest :
  good_name n → good_name k → Forall_chars (λ c, c ≠ NUL) v →
  get_value_loop (Datatypes.S fuel) (entry k v rest) n =
  if decide (n = k) then Some (Some v) else get_value_loop fuel rest n.
Proof.
  intros [_ Hn] [Hk0 Hk] Hv. unfold entry. change ("=" ++ v ++ String NUL rest) with (String "=" (v ++ String NUL rest)).
  destruct (match_name_entry n k (v ++ String NUL rest) Hn Hk) as (r & c & e & Hm & He & Hd).
  assert (He' : after_nul (String c e) = Some rest) by (rewrite He, after_nul_skip by done; reflexivity).
  cbn [get_value_loop]. rewrite Hm.
  destruct k as [|k0 k]; [done|]. rewrite str_app_cons. destruct Hk as [[Hk0' _] _].
  destruct (Ascii.eqb_spec k0 NUL); [done|].
  destruct (decide (n = String k0 k)).
  - destruct Hd as (-> & -> & ->). cbn [Ascii.eqb]. by rewrite upto_nul_app.
  - destruct r as [|r0 r]; [|by rewrite He'].
    destruct (Ascii.eqb_spec c "="); [by destruct Hd|by rewrite He'].
Qed.

Lemma hex_not_nul i c : String.get i hex_digits = Some c → c ≠ NUL.
Proof. unfold hex_digits. do 16 (destruct i as [|i]; [by intros [= <-]|]). done. Qed.
Lemma ul2a_chars n b a : ul2a n b = Some a → Forall_chars (λ c, c ≠ NUL) a.
Proof.
  unfold ul2a. assert (H : Forall_chars (λ c, c ≠ NUL) "") by done. revert n H.
  generalize "". induction ul2a_room as [|room IH]; intros acc n H; [done|]. cbn [ul2a_loop].
  destruct (String.get _ _) as [c|] eqn:Hc; [|done]. apply hex_not_nul in Hc.
  destruct (0 <? n / b)%Z; [apply IH; by split|]. by intros [= <-].
Qed.
Lemma get_value_chars fuel e n v : get_value_loop fuel e n = Some (Some v) → Forall_chars (λ c, c ≠ NUL) v.
Proof.
  revert e. induction fuel as [|fuel IH]; intros e; cbn [get_value_loop]; [done|].
  repeat (case_match; try done); try apply IH. intros [= <-]. apply upto_nul_chars.
Qed.
Lemma token_value_chars src tk base len v :
  token_value src tk base len = Some v → Forall_chars (λ c, c ≠ NUL) v.
Proof.
  unfold token_value. destruct (strcmp_eq tk "memory").
  - destruct (ul2a base 16) as [a|] eqn:Ha; [|done]. destruct (ul2a len 16) as [l|] eqn:Hl; [|done].
    intros [= <-]. apply Forall_chars_app; [by eapply ul2a_chars|]. split; [done|by eapply ul2a_chars].
  - destruct (get_value src tk) as [[w|]|] eqn:Hw; try done. intros [= <-]. by eapply get_value_chars.
Qed.

Lemma build_params_cons tk tks src base len dst :
  build_params (tk :: tks) src base len = Some dst →
  ∃ v rest, token_value src tk base len = Some v ∧ build_params tks src base len = Some rest ∧
            dst = entry tk v rest.
Proof.
  cbn [build_params]. destruct (token_value src tk base len) as [v|]; [|done].
  destruct (build_params tks src base len) as [rest|]; [|done]. intros [= <-]. by exists v, rest.
Qed.
Lemma length_entry k v rest :
  String.length (entry k v rest) = (String.length k + 1 + (String.length v + 1) + String.length rest)%nat.
Proof. unfold entry. rewrite !length_app_str. cbn. lia. Qed.
Lemma build_params_length tks src base len dst :
  build_params tks src base len = Some dst → (length tks < String.length dst)%nat.
Proof.
  revert dst. induction tks as [|tk tks IH]; intros dst; [by intros [= <-]; cbn; lia|].
  intros (v & rest & _ & H & ->)%build_params_cons. apply IH in H. rewrite length_entry. cbn. lia.
Qed.

Lemma get_value_build fuel tks src base len dst n :
  build_params tks src base len = Some dst → Forall good_name tks → good_name n → (length tks < fuel)%nat →
  get_value_loop fuel dst n =
  if decide (n ∈ tks) then Some (token_value src n base len) else Some None.
Proof.
  revert fuel dst. induction tks as [|tk tks IH]; intros fuel dst Hb Ht Hn Hf; (destruct fuel as [|fuel]; [cbn in Hf; lia|]).
  - injection Hb as <-. done.
  - apply build_params_cons in Hb as (v & rest & Hv & Hb & ->). apply Forall_cons in Ht as [Ht Hts].
    rewrite get_value_entry by first [done|by eapply token_value_chars].
    destruct (decide (n = tk)) as [->|Hne].
    + rewrite decide_True by by left. by rewrite Hv.
    + rewrite (IH fuel rest) by first [done|cbn in Hf; lia].
      repeat case_decide; try done; exfalso; rewrite elem_of_cons in *; tauto.
Qed.

Lemma params_length_build tks all src base len dst whole :
  build_params tks src base len = Some dst → build_params all src base len = Some whole →
  Forall good_name all → tks ⊆ all →
  params_length tks whole = Some (Z.of_nat (String.length dst)).
Proof.
  intros Hb Hall Hg. revert dst Hb. induction tks as [|tk tks IH]; intros dst Hb Hsub; [by injection Hb as <-|].
  apply build_params_cons in Hb as (v & rest & Hv & Hb & ->). cbn [params_length].
  assert (Hin : tk ∈ all) by (apply Hsub; by left).
  assert (Hgv : get_value whole tk = Some (Some v)).
  { unfold get_value. rewrite (get_value_build _ all src base len) by
      first [done|by eapply Forall_forall|apply build_params_length in Hall; lia].
    by rewrite decide_True, Hv. }
  rewrite Hgv. cbn. rewrite (IH rest) by first [done|intros x Hx; apply Hsub; by right].
  rewrite length_entry. cbn. f_equal. lia.
Qed.

Lemma token_good : Forall good_name token.
Proof. unfold token. repeat (apply Forall_cons; split; [split; [done|cbn; unfold good_char; repeat split; done]|]). done. Qed.

(** C12. The boot parameters of a VM: what [set_boot_parms] writes, [get_value] reads.
    Every one of the eight parameters is found again with the value that was written,
    a copy of VM0's or the new memory, no other name is found, and the length that is
    computed is the length of the parameters with the NUL that ends them. *)
Theorem boot_params_roundtrip src base len dst n :
  build_params token src base len = Some dst → good_name n →
  get_value dst n = (if decide (n ∈ token) then Some (token_value src n base len) else Some None) ∧
  params_length token dst = Some (Z.of_nat (String.length dst)).
Proof.
  intros Hb Hn. split; [|by eapply params_length_build; [..|apply token_good|]].
  unfold get_value. apply get_value_build; [done|apply token_good|done|].
  apply build_params_length in Hb. lia.
Qed.

Lemma boot_params_roundtrip_witness :
  let src := fold_right (λ tk r, entry tk "x" r) (String NUL "") token in
  ∃ dst, build_params token src 4096 65536 = Some dst ∧
    get_value dst "memory" = Some (Some "1000:10000") ∧ get_value dst "image" = Some (Some "x") ∧
    params_length token dst = Some (Z.of_nat (String.length dst)).
Proof.
  intros src. eexists. split; [vm_compute; reflexivity|].
  match goal with |- get_value ?d _ = _ ∧ _ =>
    pose proof (boot_params_roundtrip src 4096 65536 d) as H end.
  split; [|split].
  - rewrite (proj1 (H "memory" ltac:(vm_compute; reflexivity) ltac:(split; [done|cbn; unfold good_char; repeat split; done]))). reflexivity.
  - rewrite (proj1 (H "image" ltac:(vm_compute; reflexivity) ltac:(split; [done|cbn; unfold good_char; repeat split; done]))). reflexivity.
  - exact (proj2 (H "memory" ltac:(vm_compute; reflexivity) ltac:(split; [done|cbn; unfold good_char; repeat split; done]))).
Defined.
