(* ===== verification/KVmmThms.v ===== *)
(** * The life cycle of a virtual machine: properties

    The status of a VM as a state machine, the layout of its memory, the
    configuration of its drivers.  The witnesses load and start a small VM
    ([vmm_demo]). *)
From stdpp Require Import base gmap list numbers strings.
From Stdlib Require Import ZArith Lia.
From S2P Require Import Prelude.
From S2P Require Import Timers.
From S2P Require Import KTypes.
From S2P Require Import KProc.
From S2P Require Import KSched.
From S2P Require Import KSysCall.
From S2P Require Import KStep.
From S2P Require Import KAuth.
From S2P Require Import KWp.
From S2P Require Import KMem.
From S2P Require Import KMemCalls.
From S2P Require Import KIrq.
From S2P Require Import KProcCalls.
From S2P Require Import KSysTask.
From S2P Require Import KClearThms.
From S2P Require Import KVmm.

Local Open Scope string_scope.
Local Open Scope Z_scope.

(** All privilege structures; INIT holds the one of the user processes. *)
Definition vmm_privs : gmap (Z * Z) priv :=
  <[(0, 0) := mk_priv 12 0 0 0]> demo_privs ∪
  list_to_map (flat_map (λ v, map (λ n, ((v, n), mk_priv NONE n v 0)) (zrange 0 NR_SYS_PROCS)) [0; 1; 2]).

Definition vmm_slots : gmap (Z * Z) proc :=
  list_to_map (map (λ n, ((2, n), mk_proc 2 n 0 SLOT_FREE 0)) (zrange (-4) NR_PROCS)).

Definition demo_image : list boot_image :=
  map (λ '(n, f, prio, name), BootImage n f 8 prio (-1) 255 (-1) name 0)
    [(IDLE, 0, 15, "idle"); (CLOCK, SYS_PROC, 0, "clock"); (SYSTEM, SYS_PROC, 0, "system");
     (HARDWARE, SYS_PROC, 0, "kernel"); (PM_PROC_NR, SYS_PROC, 3, "pm")].

(** Process 20 of VM0 is the loader of VM2; PM is at 32 Kb of the loader's data. *)
Definition demo_desc : vmm_desc :=
  VmmDesc 2 0x5000 0xF000 0 5 0x2000
    [ImageHeader 0 0 0 0; ImageHeader 0x1000 0x3000 0x8000 A_SEP] demo_image.

Definition empty_boot : vm_boot :=
  let m := MemMap 0 0 0 in
  VmBoot (VmMmap m m m m) (Kinfo 0 0 0 0 0 0 0 0 0 0 []) []
    (replicate (Z.to_nat NR_SYS_PROCS) (VmDrv "" 0 0)) demo_desc "".

Definition vm0_params : string :=
  fold_right (λ tk r, tk ++ "=" ++ "x" ++ String NUL r) (String NUL "") token.

Definition vmm_demo : kstate :=
  (full_demo (0, 20)).[privs := vmm_privs]
    .[timers := TQueue None ((λ _, Timer None TMR_NEVER 0 None) <$> vmm_privs)]
    .[procs := procs (full_demo (0, 20)) ∪ vmm_slots]
    .[boots := {[0 := empty_boot.[vm_boot_params := vm0_params]; 2 := empty_boot]}].

Definition no_other (n : Z) (m : message) : K (Z * message) := ret (0, m).

Definition vmm_msg (cmd vmid : Z) : message := Message PM_PROC_NR 0 cmd vmid 32 0 0 0 0.

(** The call vector of a kernel whose variables all are at 0, and that always
    fetches [demo_desc] and a configuration of [cfg]. *)
Definition demo_vec (cfg : string) : Z → message → K (Z * message) :=
  hyper_call_vec (λ _, 0) 4 4 (λ _ _, (20, demo_desc)) (λ _ _, ProcCfg cfg 0 0) 0 no_other.

Definition booted : outcome kstate (Z * message) :=
  (let* _ := demo_vec "" 32 (vmm_msg VMM_LOAD 2) in demo_vec "" 32 (vmm_msg VMM_START 2)) vmm_demo.

(** VM2 runs afterwards: its PM is ready, with its text at 32 Kb of
    the loader's data, and gets the boot parameters of VM0 with a new memory. *)
Example boot_demo :
  match booted with
  | Ret (r, _) s =>
      let pm := procs s !! (2, PM_PROC_NR) in
      r = OK ∧ status s !! 2 = Some (Z.lor VM_LOADED VM_RUNNING) ∧
      rdy_head s !! 3 = Some (2, PM_PROC_NR) ∧ (p_rts_flags <$> pm) = Some 0 ∧
      (p_memmap_T <$> pm) = Some (MemMap 0 1392 1) ∧
      match boots s !! 2 with
      | Some b => get_value (vm_boot_params b) "memory" = Some (Some "570000:6000") ∧
                  get_value (vm_boot_params b) "image" = Some (Some "x")
      | None => False
      end
  | _ => False
  end.
Proof. vm_compute. repeat split. Qed.

(** ** The parts of a request that leave the status alone *)
Lemma status_getboot v : pres same_status (getboot v).
Proof. intros s a s'. unfold getboot. destruct (boots s !! v); [|done]. by intros [= _ <-]. Qed.
Lemma status_putboot v f : pres same_status (putboot v f).
Proof. intros s a s'. unfold putboot. destruct (boots s !! v); [|done]. by intros [= _ <-]. Qed.
#[export] Hint Resolve status_getboot status_putboot : pres.
Lemma status_enter_vm v : pres same_status (enter_vm v).
Proof. unfold enter_vm. presto. Qed.
#[export] Hint Resolve status_enter_vm : pres.
Lemma status_put_driver v i f : pres same_status (put_driver v i f).
Proof. unfold put_driver. presto. Qed.
#[export] Hint Resolve status_put_driver : pres.
Lemma status_kphys ka o : pres same_status (kphys ka o).
Proof. unfold kphys. presto. Qed.
#[export] Hint Resolve status_kphys : pres.
Lemma status_local_vcopy a b c d e f g : pres same_status (local_vcopy a b c d e f g).
Proof. unfold local_vcopy. presto. Qed.
#[export] Hint Resolve status_local_vcopy : pres.
Lemma status_fetch_vmm_desc ka sz rd a b v : pres same_status (fetch_vmm_desc ka sz rd a b v).
Proof. unfold fetch_vmm_desc. presto. Qed.
#[export] Hint Resolve status_fetch_vmm_desc : pres.
Lemma status_fill_vmmap v : pres same_status (fill_vmmap v).
Proof. unfold fill_vmmap. presto. Qed.
#[export] Hint Resolve status_fill_vmmap : pres.
Lemma status_set_loader_priv lp : pres same_status (set_loader_priv lp).
Proof. unfold set_loader_priv. presto. Qed.
#[export] Hint Resolve status_set_loader_priv : pres.
Lemma status_init_driver v i : pres same_status (init_driver v i).
Proof. unfold init_driver. presto. Qed.
#[export] Hint Resolve status_init_driver : pres.
Lemma status_set_boot_parms v : pres same_status (set_boot_parms v).
Proof. unfold set_boot_parms. presto. Qed.
#[export] Hint Resolve status_set_boot_parms : pres.
Lemma status_set_params ka v n : pres same_status (set_params ka v n).
Proof. unfold set_params. presto. Qed.
#[export] Hint Resolve status_set_params : pres.
Lemma status_set_mem_chunks ka v : pres same_status (set_mem_chunks ka v).
Proof. unfold set_mem_chunks. presto. Qed.
#[export] Hint Resolve status_set_mem_chunks : pres.
Lemma status_mh_start ka v : pres same_status (mh_start ka v).
Proof. unfold mh_start. presto. Qed.
#[export] Hint Resolve status_mh_start : pres.
Lemma status_bproc_addr n : pres same_status (bproc_addr n).
Proof. unfold bproc_addr. presto. Qed.
#[export] Hint Resolve status_bproc_addr : pres.
Lemma status_put_image v i b : pres same_status (put_image v i b).
Proof. unfold put_image. presto. Qed.
#[export] Hint Resolve status_put_image : pres.
Lemma status_bproc_priv p b : pres same_status (bproc_priv p b).
Proof. unfold bproc_priv. presto. Qed.
#[export] Hint Resolve status_bproc_priv : pres.
Lemma status_find_on_vm0 l name : pres same_status (find_on_vm0 l name).
Proof. induction l as [|p l IH]; cbn [find_on_vm0]; presto. Qed.
#[export] Hint Resolve status_find_on_vm0 : pres.
Lemma status_add_dr_bit lp i : pres same_status (add_dr_bit lp i).
Proof. unfold add_dr_bit. presto. Qed.
#[export] Hint Resolve status_add_dr_bit : pres.
Lemma status_setup_virtual a b : pres same_status (setup_virtual a b).
Proof. unfold setup_virtual. presto. Qed.
#[export] Hint Resolve status_setup_virtual : pres.
Lemma status_setup_promiscuous v p t : pres same_status (setup_promiscuous v p t).
Proof. unfold setup_promiscuous. presto. Qed.
#[export] Hint Resolve status_setup_promiscuous : pres.
Lemma status_make_ready p : pres same_status (make_ready p).
Proof. unfold make_ready. presto. Qed.
#[export] Hint Resolve status_make_ready : pres.
Lemma status_setup_real a b d : pres same_status (setup_real a b d).
Proof. unfold setup_real. presto. Qed.
#[export] Hint Resolve status_setup_real : pres.
Lemma status_setup_bproc ka v i lp : pres same_status (setup_bproc ka v i lp).
Proof. unfold setup_bproc. presto. Qed.
#[export] Hint Resolve status_setup_bproc : pres.
Lemma status_clear_round v n lp x : pres same_status (clear_round v n lp x).
Proof. unfold clear_round. presto. Qed.
#[export] Hint Resolve status_clear_round : pres.
Lemma status_clear_VM0_procs i0 v n lp : pres same_status (clear_VM0_procs i0 v n lp).
Proof. unfold clear_VM0_procs. presto. Qed.
#[export] Hint Resolve status_clear_VM0_procs : pres.
Lemma status_setup_bprocs ka i0 v lp n l : pres same_status (setup_bprocs ka i0 v lp n l).
Proof. induction l as [|i l IH]; cbn [setup_bprocs]; presto. Qed.
#[export] Hint Resolve status_setup_bprocs : pres.
Lemma status_free_slots_of v : pres same_status (free_slots_of v).
Proof. unfold free_slots_of. presto. Qed.
#[export] Hint Resolve status_free_slots_of : pres.
Lemma status_free_privs_of v : pres same_status (free_privs_of v).
Proof. unfold free_privs_of. presto. Qed.
#[export] Hint Resolve status_free_privs_of : pres.
Lemma status_mh_main ka i0 d lp : pres same_status (mh_main ka i0 d lp).
Proof.
  unfold mh_main. apply pres_bind; [apply _|exact (status_free_slots_of _)|intros _].
  apply pres_bind; [apply _|exact (status_free_privs_of _)|intros _].
  exact (status_setup_bprocs _ _ _ _ _ _).
Qed.
#[export] Hint Resolve status_mh_main : pres.
Lemma status_proc_config v c : pres same_status (proc_config v c).
Proof. unfold proc_config. presto. Qed.
#[export] Hint Resolve status_proc_config : pres.
Lemma status_vmm_proc ka sz rd m : pres same_status (vmm_proc ka sz rd m).
Proof. unfold vmm_proc. presto. Qed.
#[export] Hint Resolve status_vmm_proc : pres.

(** ** The state machine *)
Section life.
Context (kaddr : kobj → Z) (desc_size cfg_size : Z).
Context (read_desc : (Z → Z) → Z → Z * vmm_desc) (read_cfg : (Z → Z) → Z → proc_cfg).
Context (i0 : Z).

Abbreviation vcall := (hyper_call_vec kaddr desc_size cfg_size read_desc read_cfg i0).
Abbreviation load := (do_vm_load kaddr desc_size read_desc).
Abbreviation start := (do_vm_start kaddr i0).

Lemma wp_status {A} (m : K A) st Q s :
  pres same_status m → status s = st → (∀ a s', status s' = st → Q a s') → wp m Q s.
Proof. intros Hm <- HQ a s' H. apply HQ. by eapply Hm. Qed.

(** The status of [v] after an operation that does [f] to it when it succeeds. *)
Definition moves (v from to : Z) (st : gmap Z Z) (r : Z) (s' : kstate) : Prop :=
  (r = OK ∧ st !! v = Some from ∧ status s' = <[v := to]> st) ∨ (r ≠ OK ∧ status s' = st).

Lemma moves_error v from to st r s' : r ≠ OK → status s' = st → moves v from to st r s'.
Proof. intros. by right. Qed.

Ltac keep := apply wp_bind; eapply wp_status; [solve [presto]|eassumption|intros ? ? ?]; cbv beta.

Lemma do_vm_load_moves m s :
  wp (load m) (moves (VMM_vmid m) VM_FREE VM_LOADED (status s)) s.
Proof.
  unfold do_vm_load. apply wp_if; [by intros _; apply wp_ret; right|intros _].
  apply wp_bind, wp_getvm. intros vm Hvm.
  apply wp_if; [by intros _; apply wp_ret; right|].
  intros Hfree%negb_false_iff%Z.eqb_eq.
  assert (Hst : status s !! VMM_vmid m = Some VM_FREE) by (unfold status; rewrite lookup_fmap, Hvm; exact (f_equal Some Hfree)).
  remember (status s) as st eqn:Heq. symmetry in Heq.
  keep. apply wp_if; [intros ?%negb_true_iff%Z.eqb_neq; by apply wp_ret; right|intros _].
  keep. keep. destruct a1 as [ok p]. apply wp_if; [by intros _; apply wp_ret; right|intros _].
  keep. keep. keep. apply wp_if; [intros ?%negb_true_iff%Z.eqb_neq; by apply wp_ret; right|intros _].
  keep. apply wp_if; [intros ?%negb_true_iff%Z.eqb_neq; by apply wp_ret; right|intros _].
  do 5 keep. apply wp_bind, wp_putvm. intros vm' Hvm'. apply wp_ret. left. split; [done|].
  split; [done|]. unfold status. cbn. rewrite fmap_insert. cbn. by f_equal.
Qed.

Lemma do_vm_start_moves m s :
  wp (start m) (moves (VMM_vmid m) VM_LOADED (Z.lor VM_LOADED VM_RUNNING) (status s)) s.
Proof.
  unfold do_vm_start. apply wp_if; [by intros _; apply wp_ret; right|intros _].
  apply wp_bind, wp_getvm. intros vm Hvm.
  apply wp_if; [by intros _; apply wp_ret; right|].
  intros Hload%negb_false_iff%Z.eqb_eq.
  assert (Hst : status s !! VMM_vmid m = Some VM_LOADED)
    by (unfold status; rewrite lookup_fmap, Hvm; exact (f_equal Some Hload)).
  remember (status s) as st eqn:Heq. symmetry in Heq.
  keep. destruct a as [ok p]. apply wp_if; [by intros _; apply wp_ret; right|intros _].
  keep. keep. keep. keep.
  apply wp_if; [intros ?%negb_true_iff%Z.eqb_neq; keep; by apply wp_ret; right|intros _].
  keep. keep.
  apply wp_if; [intros ?%negb_true_iff%Z.eqb_neq; keep; by apply wp_ret; right|intros _].
  keep. keep. keep. apply wp_bind, wp_putvm. intros vm1 Hvm1.
  match goal with |- wp _ _ ?s1 =>
    assert (Hs1 : status s1 = <[VMM_vmid m := Z.lor VM_LOADED VM_RUNNING]> st) end.
  { match goal with H : status ?s0 = st, Hv : vms ?s0 !! _ = Some vm1 |- _ =>
      assert (Hl : vm_flags vm1 = VM_LOADED)
        by (rewrite <-H in Hst; unfold status in Hst; rewrite lookup_fmap, Hv in Hst;
            exact (inj Some _ _ Hst)); rewrite <-H end.
    unfold status. cbn. rewrite fmap_insert. cbn. by rewrite Hl. }
  keep. keep. keep. keep. apply wp_ret. left. by split_and!.
Qed.

(** The life cycle, as a step from one table of statuses to the next: what request
    [m] that is answered with [r] does. *)
Inductive life_step (m : message) (r : Z) : gmap Z Z → gmap Z Z → Prop :=
  | life_load st :
      VMM_cmd m = VMM_LOAD → r = OK → st !! VMM_vmid m = Some VM_FREE →
      life_step m r st (<[VMM_vmid m := VM_LOADED]> st)
  | life_start st :
      VMM_cmd m = VMM_START → r = OK → st !! VMM_vmid m = Some VM_LOADED →
      life_step m r st (<[VMM_vmid m := Z.lor VM_LOADED VM_RUNNING]> st)
  | life_same st :
      r ≠ OK ∨ (VMM_cmd m ≠ VMM_LOAD ∧ VMM_cmd m ≠ VMM_START) → life_step m r st st.

Lemma vmm_request_life m s :
  wp (vmm_request kaddr desc_size cfg_size read_desc read_cfg i0 m)
     (λ r s', life_step m r (status s) (status s')) s.
Proof.
  unfold vmm_request.
  assert (Hother : ∀ h : K Z, pres same_status h → VMM_cmd m ≠ VMM_LOAD → VMM_cmd m ≠ VMM_START →
    wp h (λ r s', life_step m r (status s) (status s')) s).
  { intros h Hh H1 H2. eapply wp_status; [done..|]. intros r s' ->. by constructor; right. }
  destruct (Z.eqb_spec (VMM_cmd m) VMM_LOAD) as [Hl|Hl].
  { eapply wp_mono; [apply do_vm_load_moves|]. intros r s' [(-> & Hst & ->)|[Hr ->]];
      [by apply life_load|by apply life_same; left]. }
  destruct (Z.eqb_spec (VMM_cmd m) VMM_START) as [Hs|Hs].
  { eapply wp_mono; [apply do_vm_start_moves|]. intros r s' [(-> & Hst & ->)|[Hr ->]];
      [by apply life_start|by apply life_same; left]. }
  repeat case_match; apply Hother; try done; presto.
Qed.

Lemma do_vmmreq_life m s :
  wp (do_vmmreq kaddr desc_size cfg_size read_desc read_cfg i0 m)
     (λ '(r, _) s', life_step m r (status s) (status s')) s.
Proof.
  unfold do_vmmreq. apply wp_bind.
  eapply wp_status; [solve [presto]|reflexivity|]. intros [ok p] s1 <-. cbv beta.
  apply wp_bind. eapply wp_status; [solve [presto]|reflexivity|]. intros [] s2 <-. cbv beta.
  unfold keep_msg. apply wp_bind.
  eapply (wp_mono _ (λ r s0, life_step m r (status s2) (status s0))); [|by intros r s0 ?; apply wp_ret].
  apply wp_if; [by intros _; apply wp_ret, life_same; left|intros _].
  apply wp_if; [by intros _; apply wp_ret, life_same; left|intros _].
  apply vmm_request_life.
Qed.

(** The kernel calls with a handler of their own in [call_vec]. *)
Definition modelled_calls : list Z :=
  [SYS_FORK; SYS_EXIT; SYS_NICE; SYS_PRIVCTL; SYS_KILL; SYS_GETKSIG; SYS_ENDKSIG; SYS_NEWMAP; SYS_MEMSET;
   SYS_UMAP; SYS_VIRCOPY; SYS_PHYSCOPY; SYS_VIRVCOPY; SYS_PHYSVCOPY; SYS_IRQCTL; SYS_SETALARM; SYS_TIMES;
   SYS_GETVMID; SYS_VCOPYVM; SYS_UMAPVM; SYS_KILLVM].

(** ... whatever the other calls do. *)
Lemma modelled_vec other n m : KERNEL_CALL + n ∈ modelled_calls → vcall other n m = vcall (λ _ m, ret (0, m)) n m.
Proof.
  intros H. unfold hyper_call_vec, call_vec. cbv zeta. revert H. generalize (KERNEL_CALL + n). intros k.
  unfold modelled_calls. rewrite !elem_of_cons, elem_of_nil.
  intros H. repeat (destruct H as [->|H]; [reflexivity|]). done.
Qed.

(** C10. The life cycle of a virtual machine is the state machine FREE -> LOADED ->
    LOADED|RUNNING.  Only a VMM request that is answered with OK changes the status of a VM:
    VMM_LOAD takes the VM it names from free to loaded, VMM_START from loaded to loaded and
    running.  A request that is refused or fails leaves every VM as it was, so that a VM can
    neither be loaded over another nor be started twice; and so does each of the 21 kernel calls
    of [modelled_calls], whatever it is asked.  (The tables of the kernel are apart from the memory
    that copies write to: that SYS_PHYSCOPY, whose addresses nobody checks, can hit them is not
    ruled out by this.) *)
Theorem vm_life_cycle other n m r m' s s' :
  vcall other n m s = Ret (r, m') s' →
  if KERNEL_CALL + n =? SYS_VMMREQ then life_step m r (status s) (status s')
  else KERNEL_CALL + n ∈ modelled_calls → status s' = status s.
Proof.
  intros H. destruct (Z.eqb_spec (KERNEL_CALL + n) SYS_VMMREQ) as [Hn|Hn].
  - assert (n = 32) as -> by (unfold SYS_VMMREQ in Hn; lia).
    exact (do_vmmreq_life m s _ _ H).
  - intros Hin. rewrite modelled_vec in H by done.
    refine (status_call_vec _ n m _ s _ s' H). cbv beta. rewrite (proj2 (Z.eqb_neq _ _) Hn). presto.
Qed.
End life.

Lemma vm_life_cycle_witness :
  let m := vmm_msg VMM_LOAD 2 in
  let s' := in_state (demo_vec "" 32 m vmm_demo) vmm_demo in
  life_step m OK (status vmm_demo) (status s') ∧ status s' !! 2 = Some VM_LOADED.
Proof.
  intros m s'. split; [|vm_compute; reflexivity].
  assert (H : demo_vec "" 32 m vmm_demo = Ret (OK, m) s') by (apply answers_eq; vm_compute; reflexivity).
  clearbody s'.
  exact (vm_life_cycle (λ _, 0) 4 4 (λ _ _, (20, demo_desc)) (λ _ _, ProcCfg "" 0 0) 0 no_other 32 m OK m
           vmm_demo s' H).
Defined.

(** ** The layout of the memory of a VM *)
(** Region [b] begins where [a] ends, in the loader's addresses and in memory. *)
Definition follows (a b : mem_map) : Prop :=
  mem_vir b = mem_vir a + mem_len a ∧ mem_phys b = mem_phys a + mem_len a.

(** The image and two clicks fit between the loader's data and its stack, and the
    loader lies within the 32-bit address space. *)
Definition room_for (d : mem_map) (img : vmm_desc) : Prop :=
  0 ≤ mem_vir d ∧ 0 ≤ mem_phys d ∧ 0 ≤ img_bytes img ∧ 0 ≤ img_addr img ∧
  mem_vir d * CLICK_SIZE ≤ img_addr img ∧ img_stk_addr img < 2 ^ 32 ∧
  img_addr img + img_bytes img + 5 * CLICK_SIZE ≤ img_stk_addr img ∧
  mem_phys d + Z.shiftr (img_stk_addr img) CLICK_SHIFT < 2 ^ 32.

Record laid_out (d : mem_map) (img : vmm_desc) (m : vm_mmap) : Prop := {
  lo_start : mem_vir (vmmap_start m) = mem_vir d ∧ mem_phys (vmmap_start m) = mem_phys d;
  lo_image : follows (vmmap_start m) (vmmap_image m);
  lo_bottom : follows (vmmap_image m) (vmmap_bottom m);
  lo_top : follows (vmmap_bottom m) (vmmap_top m);
  lo_lens : 0 < mem_len (vmmap_start m) ∧ 0 < mem_len (vmmap_image m) ∧ 0 ≤ mem_len (vmmap_bottom m)
            ∧ mem_len (vmmap_top m) = 1;
  (** The image region begins in the click after the image's first byte. *)
  lo_first : img_addr img < mem_vir (vmmap_image m) * CLICK_SIZE ≤ img_addr img + CLICK_SIZE;
  (** The whole image is below the free memory. *)
  lo_covers : img_addr img + img_bytes img < mem_vir (vmmap_bottom m) * CLICK_SIZE;
  (** The click of the top is the one below the stack's. *)
  lo_stack : (mem_vir (vmmap_top m) + 1) * CLICK_SIZE ≤ img_stk_addr img
             < (mem_vir (vmmap_top m) + 2) * CLICK_SIZE }.

Lemma click_bounds z : z / 4096 * 4096 ≤ z < z / 4096 * 4096 + 4096.
Proof. pose proof (Z.div_mod z 4096). pose proof (Z.mod_pos_bound z 4096). lia. Qed.

Lemma layout_laid_out d img : room_for d img → laid_out d img (layout d img).
Proof.
  unfold room_for, layout, CLICK_SIZE, CLICK_SHIFT. intros (? & ? & ? & ? & ? & ? & ? & Hp).
  rewrite !Z.shiftr_div_pow2 in * by lia. change (2 ^ 12) with 4096 in *. change (2 ^ 32) with 4294967296 in *.
  rewrite (u32_id (img_addr img + 4096)) by lia.
  rewrite (u32_id (img_bytes img + 2 * 4096)) by lia.
  rewrite (u32_id (img_stk_addr img - 4096)) by lia.
  pose proof (click_bounds (img_addr img + 4096)) as Hi.
  pose proof (click_bounds (img_bytes img + 2 * 4096)) as Hb.
  pose proof (click_bounds (img_stk_addr img - 4096)) as Ht.
  pose proof (click_bounds (img_stk_addr img)) as Hs.
  set (i := (img_addr img + 4096) / 4096) in *. set (b := (img_bytes img + 2 * 4096) / 4096) in *.
  set (t := (img_stk_addr img - 4096) / 4096) in *. set (k := img_stk_addr img / 4096) in *.
  clearbody i b t k.
  rewrite (u32_id (i + b)) by lia. rewrite (u32_id (i - _)) by lia.
  rewrite (u32_id (i + b - i)) by lia. rewrite (u32_id (t - _)) by lia.
  rewrite (u32_id (mem_phys d + _)) by lia. rewrite (u32_id (mem_phys d + _ + _)) by lia.
  rewrite (u32_id (mem_phys d + _ + _ + _)) by lia.
  split; unfold follows, CLICK_SIZE; cbn; lia.
Qed.

Lemma isokendpt_nr e s ok p s' : isokendpt e s = Ret (ok, p) s' → p = ENDPOINT_P e.
Proof.
  unfold isokendpt, isokendpt_f. case_match; [by intros [= _ <- _]|].
  intros H1. apply bind_inv in H1 as (rp & s1 & _ & H1). apply bind_inv in H1 as (o & s2 & _ & H1).
  apply bind_inv in H1 as ([] & s3 & _ & H1). by injection H1.
Qed.

(** The stack of the loader is below the end of the image. *)
Definition no_room (img : vmm_desc) : Prop :=
  0 ≤ img_addr img ∧ 0 ≤ img_bytes img ∧ img_addr img + img_bytes img + 3 * CLICK_SIZE < 2 ^ 32 ∧
  CLICK_SIZE ≤ img_stk_addr img < img_addr img + img_bytes img.

Lemma layout_no_room d img : no_room img → 2 ^ 31 ≤ mem_len (vmmap_bottom (layout d img)).
Proof.
  unfold no_room, layout, CLICK_SIZE, CLICK_SHIFT. intros (? & ? & ? & ? & ?).
  rewrite !Z.shiftr_div_pow2 in * by lia. change (2 ^ 12) with 4096 in *. change (2 ^ 32) with 4294967296 in *.
  cbn [vmmap_bottom mem_len].
  rewrite (u32_id (img_addr img + 4096)), (u32_id (img_bytes img + 2 * 4096)), (u32_id (img_stk_addr img - 4096)) by lia.
  pose proof (click_bounds (img_addr img + 4096)). pose proof (click_bounds (img_bytes img + 2 * 4096)).
  pose proof (click_bounds (img_stk_addr img - 4096)).
  set (iv := (img_addr img + 4096) / 4096) in *. set (ib := (img_bytes img + 2 * 4096) / 4096) in *.
  set (tv := (img_stk_addr img - 4096) / 4096) in *.
  rewrite (u32_id (iv + ib)) by lia.
  replace (tv - (iv + ib)) with (tv - (iv + ib) + 2 ^ 32 + (-1) * 2 ^ 32) by lia.
  unfold u32. rewrite Z.mod_add, Z.mod_small by lia. lia.
Qed.

(** C11. [fill_vmmap] either refuses the loader's endpoint and changes nothing, or only sets the
    four regions and the size of the VM, without a check of the addresses that the loader gives.
    When the image and the stack leave room ([room_for]), the memory is laid out without gaps: the
    regions start at the loader's data segment and follow each other in the loader's addresses
    and in physical memory, the free memory begins behind the whole image, and the top
    is the click below the one of the stack; no address wraps around.  When the stack is below the
    end of the image, the length of the free memory wraps around, to 2 ^ 31 clicks or more. *)
Theorem fill_vmmap_layout vmid s r s' :
  fill_vmmap vmid s = Ret r s' →
  (r = EINVAL ∧ s' = s) ∨
  r = OK ∧ ∃ vm x l b m,
    vms s !! vmid = Some vm ∧ proc_addr (ENDPOINT_P (vm_vmm_endpoint vm)) s = Ret (Some x) s ∧
    procs s !! x = Some l ∧ boots s !! vmid = Some b ∧
    s' = s.[boots := <[vmid := b.[vm_mmap_of := m]
             .[vm_VMM := (vm_VMM b).[img_vmsize := mem_len (vmmap_bottom m)]]]> (boots s)] ∧
    (room_for (p_memmap_D l) (vm_VMM b) → laid_out (p_memmap_D l) (vm_VMM b) m) ∧
    (no_room (vm_VMM b) → 2 ^ 31 ≤ mem_len (vmmap_bottom m)).
Proof.
  revert r s'. change (wp (fill_vmmap vmid) (λ r s', (r = EINVAL ∧ s' = s) ∨ r = OK ∧ ∃ vm x l b m,
    vms s !! vmid = Some vm ∧ proc_addr (ENDPOINT_P (vm_vmm_endpoint vm)) s = Ret (Some x) s ∧
    procs s !! x = Some l ∧ boots s !! vmid = Some b ∧
    s' = s.[boots := <[vmid := b.[vm_mmap_of := m]
             .[vm_VMM := (vm_VMM b).[img_vmsize := mem_len (vmmap_bottom m)]]]> (boots s)] ∧
    (room_for (p_memmap_D l) (vm_VMM b) → laid_out (p_memmap_D l) (vm_VMM b) m) ∧
    (no_room (vm_VMM b) → 2 ^ 31 ≤ mem_len (vmmap_bottom m))) s).
  unfold fill_vmmap. apply wp_bind, wp_getvm. intros vm Hvm.
  apply wp_bind, wp_reads; [presto|]. intros [ok p] Hok.
  apply isokendpt_nr in Hok as ->. apply wp_if; [intros _; apply wp_ret; by left|intros _].
  apply wp_bind, wp_reads; [presto|]. intros lp Hlp. apply wp_bind, wp_getp. intros x l -> Hl.
  apply wp_bind. intros [] s1. unfold putboot. destruct (boots s !! vmid) as [b|] eqn:Hb; [|done].
  intros [= <-]. apply wp_ret. right. split; [done|]. 
  exists vm, x, l, b, (layout (p_memmap_D l) (vm_VMM b)). split_and!; try done; [apply layout_laid_out|apply layout_no_room].
Qed.

Lemma fill_vmmap_layout_witness :
  let s := vmm_demo.[vms := <[2 := demo_vm VM_FREE 0 0 20 2]> (vms vmm_demo)] in
  let s' := in_state (fill_vmmap 2 s) s in
  room_for (demo_map 1384) demo_desc ∧ (OK = EINVAL ∧ s' = s ∨ OK = OK ∧ ∃ vm x l b m,
    vms s !! 2 = Some vm ∧ proc_addr (ENDPOINT_P (vm_vmm_endpoint vm)) s = Ret (Some x) s ∧
    procs s !! x = Some l ∧ boots s !! 2 = Some b ∧
    s' = s.[boots := <[2 := b.[vm_mmap_of := m]
             .[vm_VMM := (vm_VMM b).[img_vmsize := mem_len (vmmap_bottom m)]]]> (boots s)] ∧
    (room_for (p_memmap_D l) (vm_VMM b) → laid_out (p_memmap_D l) (vm_VMM b) m) ∧
    (no_room (vm_VMM b) → 2 ^ 31 ≤ mem_len (vmmap_bottom m))).
Proof.
  intros s s'. split; [by vm_compute|].
  assert (H : fill_vmmap 2 s = Ret OK s') by (apply answers_eq; vm_compute; reflexivity).
  clearbody s'. exact (fill_vmmap_layout 2 s OK s' H).
Defined.

(** A loader with its stack in the third click. *)
Example stack_below_image :
  let img := demo_desc.[img_stk_addr := 3 * CLICK_SIZE] in
  no_room img ∧ mem_len (vmmap_bottom (layout (demo_map 1384) img)) = 2 ^ 32 - 8.
Proof. split; [split_and!; by vm_compute|by vm_compute]. Qed.

(** ** The configuration of drivers *)
Lemma strcpy_drv_short d t : (String.length t < P_NAME_LEN)%nat →
  strcpy_drv d t = Some (VmDrv t (drv_type d) (drv_bitmap d)).
Proof.
  unfold P_NAME_LEN. intros Ht. do 8 (destruct t as [|? t]; [reflexivity|]). cbn in Ht. lia.
Qed.

(** The configuration of a driver that the VM does not have.  Instead of an entry
    that is free, the first one of the table that is {e not} called NO_DRIVER is taken,
    as the result of [strcmp] is not negated: the driver in the first entry is lost, and
    the answer is OK. *)
Theorem new_driver_replaces_first vmid cfg s b d0 ds :
  boots s !! vmid = Some b → vm_driver b = d0 :: ds →
  Forall (λ d, same_name cfg d = false) (d0 :: ds) →
  drv_c_name d0 ≠ "NO_DRIVER" → (String.length (pc_name cfg) < P_NAME_LEN)%nat →
  proc_config vmid cfg s =
  Ret OK (s.[boots := <[vmid := b.[vm_driver :=
            VmDrv (pc_name cfg) (pc_flags cfg) 0 :: ds]]> (boots s)]).
Proof.
  intros Hb Hd Hno Hname Hlen. unfold proc_config, getboot.
  erewrite (bind_Ret _ _ _ b s) by by rewrite Hb.
  rewrite Hd. rewrite (proj2 (list_find_None _ _)).
  2:{ eapply Forall_impl; [exact Hno|]. intros d ->. done. }
  cbn [list_find]. rewrite decide_True.
  2:{ unfold strcmp_eq. by apply String.eqb_neq. }
  cbn -[aset]. unfold put_driver, bind, getboot, putboot. rewrite Hb. cbn -[strcpy_drv]. rewrite Hd. cbn -[strcpy_drv].
  change (aget (d0 :: ds) (Z.of_nat 0)) with (Some d0). cbn -[strcpy_drv aset].
  rewrite strcpy_drv_short by done. cbn -[aset].
  match goal with |- context [aset (d0 :: ds) _ ?x] => change (aset (d0 :: ds) _ x) with (Some (x :: ds)) end.
  cbn. by rewrite Hb.
Qed.

(** After VMM_LOAD the entries behind the default drivers read NO_DRIVE: the ninth character is
    overwritten by the type.  None is taken for a free one, and a new driver replaces
    the one of IDLE. *)
Lemma new_driver_replaces_first_witness :
  let s := in_state (demo_vec "" 32 (vmm_msg VMM_LOAD 2) vmm_demo) vmm_demo in
  let b := default empty_boot (boots s !! 2) in
  let cfg := ProcCfg "rtl8139" 0x111 7 in
  (drv_c_name <$> nth_error (vm_driver b) 22) = Some "NO_DRIVE" ∧
  proc_config 2 cfg s =
  Ret OK (s.[boots := <[2 := b.[vm_driver := VmDrv "rtl8139" 0x111 0 :: tl (vm_driver b)]]> (boots s)]).
Proof.
  intros s b cfg. split; [vm_compute; reflexivity|].
  assert (Hb : boots s !! 2 = Some b) by (vm_compute; reflexivity).
  assert (Hd : vm_driver b = VmDrv "idle" 0 0 :: tl (vm_driver b)) by (vm_compute; reflexivity).
  assert (Hf : forallb (λ d, negb (same_name cfg d)) (vm_driver b) = true) by (vm_compute; reflexivity).
  clearbody s b.
  apply (new_driver_replaces_first 2 cfg s b (VmDrv "idle" 0 0)); [done|done| |done|cbn; unfold P_NAME_LEN; lia].
  rewrite <-Hd. apply Forall_forall. intros d Hin. rewrite forallb_forall in Hf.
  apply negb_true_iff, Hf. by apply list_elem_of_In.
Defined.
