(* ===== verification/FsTypes.v ===== *)
(** * The file system server: its data

    The structures of [src/servers/fs]: block buffers ([buf.h]), super blocks
    ([super.h]), in-core inodes ([inode.h]) and the global variables.  A pointer to
    an element of a table is its index.  The contents of a block are its bytes; a
    union of words is read and written through them, lowest byte first. *)
From stdpp Require Import base gmap list numbers strings.
From Stdlib Require Import ZArith Lia.
From S2P Require Import Prelude.
From S2P Require Import KTypes.
From S2P Require Import Timers.

Definition NR_BUFS : Z := 1200.
Definition NR_BUF_HASH : Z := 2048.
Definition HASH_MASK : Z := NR_BUF_HASH - 1.
Definition NR_SUPERS : Z := 12.
Definition NR_INODES : Z := 256.
Definition NR_FILPS : Z := 256.
Definition OPEN_MAX : Z := 30.
Definition NR_IOREQS : Z := Z.min NR_BUFS 64.
Definition V1_NR_DZONES : Z := 7.
Definition V1_NR_TZONES : Z := 9.
Definition V2_NR_DZONES : Z := 7.
Definition V2_NR_TZONES : Z := 10.
Definition MIN_BLOCK_SIZE : Z := 1024.
Definition MAX_BLOCK_SIZE : Z := 4096.
Definition STATIC_BLOCK_SIZE : Z := 1024.

Definition NO_BLOCK : Z := 0.
Definition NO_ZONE : Z := 0.
Definition NO_DEV : Z := 0.
Definition NO_BIT : Z := 0.
Definition DEV_RAM : Z := 0x0100.
Definition NORMAL : Z := 0.
Definition NO_READ : Z := 1.
Definition PREFETCH : Z := 2.
Definition READING : Z := 0.
Definition WRITING : Z := 1.
Definition CLEAN : Z := 0.
Definition DIRTY : Z := 1.
Definition ATIME : Z := 2.
Definition CTIME : Z := 4.
Definition MTIME : Z := 8.
Definition END_OF_FILE : Z := -104.
Definition WRITE_IMMED : Z := 64.
Definition ONE_SHOT : Z := 128.
Definition INODE_BLOCK : Z := 0.
Definition DIRECTORY_BLOCK : Z := 1.
Definition INDIRECT_BLOCK : Z := 2.
Definition MAP_BLOCK : Z := 3.
Definition FULL_DATA_BLOCK : Z := 5.
Definition PARTIAL_DATA_BLOCK : Z := 6.
Definition IMAP : Z := 0.
Definition ZMAP : Z := 1.
Definition START_BLOCK : Z := 2.
Definition V1 : Z := 1.
Definition V2 : Z := 2.
Definition V3 : Z := 3.
Definition SUPER_MAGIC : Z := 0x137F.
Definition SUPER_V2 : Z := 0x2468.
Definition SUPER_V3 : Z := 0x4d5a.
Definition WMAP_FREE : Z := 1.
Definition NO_PIPE : Z := 0.
Definition I_PIPE : Z := 1.
Definition I_NOT_ALLOC : Z := 0.
Definition I_MOUNT : Z := 1.
Definition ISEEK : Z := 1.
Definition ROOT_INODE : Z := 1.
Definition PID_FREE : Z := 0.
Definition I_SYMBOLIC_LINK : Z := 0xA000.
Definition I_BLOCK_SPECIAL : Z := 0x6000.
Definition I_DIRECTORY : Z := 0x4000.
Definition I_CHAR_SPECIAL : Z := 0x2000.
Definition I_NAMED_PIPE : Z := 0x1000.
Definition R_BIT : Z := 4.
Definition W_BIT : Z := 2.
Definition SU_UID : Z := 0.
Definition XPIPE : Z := - NR_TASKS - 1.
Definition XLOCK : Z := - NR_TASKS - 2.
Definition XPOPEN : Z := - NR_TASKS - 3.

Definition ENXIO : Z := -6.
Definition ENFILE : Z := -23.
Definition EFBIG : Z := -27.
Definition EROFS : Z := -30.
Definition SUSPENDED : Z := 1.
Definition DEV_RQ_BASE : Z := 0x400.
Definition CANCEL : Z := DEV_RQ_BASE + 0.
Definition DEV_READ : Z := DEV_RQ_BASE + 3.
Definition DEV_WRITE : Z := DEV_RQ_BASE + 4.
Definition DEV_SCATTER : Z := DEV_RQ_BASE + 8.
Definition DEV_GATHER : Z := DEV_RQ_BASE + 9.

(** ** Blocks *)

(** [conv2] and [conv4] ([utility.c]): swap the bytes of a word of a disk with the
    other byte order. *)
Definition conv2 (norm : bool) (w : Z) : Z :=
  if norm then Z.land w 0xFFFF
  else Z.lor (Z.shiftl (Z.land w 255) 8) (Z.land (Z.shiftr w 8) 255).
Definition conv4 (norm : bool) (x : Z) : Z :=
  if norm then x
  else
    let lo := conv2 false (Z.land x 0xFFFF) in
    let hi := conv2 false (Z.land (Z.shiftr x 16) 0xFFFF) in
    s32 (Z.lor (Z.shiftl lo 16) hi).

Set Primitive Projections.
Record buf := Buf {
  b_data : Z → Z;
  b_next : option Z;
  b_prev : option Z;
  b_hash : option Z;
  b_blocknr : Z;
  b_dev : Z;
  b_dirt : Z;
  b_count : Z }.

Record super_block := SuperBlock {
  s_ninodes : Z;
  s_nzones : Z;
  s_imap_blocks : Z;
  s_zmap_blocks : Z;
  s_firstdatazone : Z;
  s_log_zone_size : Z;
  s_max_size : Z;
  s_zones : Z;
  s_magic : Z;
  s_block_size : Z;
  s_inodes_per_block : Z;
  s_dev : Z;
  s_rd_only : bool;
  s_native : bool;
  s_version : Z;
  s_ndzones : Z;
  s_nindirs : Z;
  s_isearch : Z;
  s_zsearch : Z;
  s_isup : option Z;
  s_imount : option Z }.

Record inode := Inode {
  i_mode : Z;
  i_nlinks : Z;
  i_uid : Z;
  i_gid : Z;
  i_size : Z;
  i_atime : Z;
  i_mtime : Z;
  i_ctime : Z;
  i_zone : list Z;
  i_dev : Z;
  i_num : Z;
  i_count : Z;
  i_ndzones : Z;
  i_nindirs : Z;
  i_sp : option Z;
  i_dirt : Z;
  i_pipe : Z;
  i_mount : Z;
  i_seek : Z;
  i_update : Z }.

(** [fp_filp_inuse] and [fp_cloexec] are bit maps of file descriptors. *)
Record fproc := FProc {
  fp_umask : Z;
  fp_workdir : option Z;
  fp_rootdir : option Z;
  fp_filp : list (option Z);
  fp_filp_inuse : Z;
  fp_realuid : Z;
  fp_effuid : Z;
  fp_realgid : Z;
  fp_effgid : Z;
  fp_tty : Z;
  fp_fd : Z;
  fp_buffer : Z;
  fp_nbytes : Z;
  fp_cum_io_partial : Z;
  fp_suspended : Z;
  fp_revived : Z;
  fp_task : Z;
  fp_sesldr : bool;
  fp_execced : bool;
  fp_pid : Z;
  fp_cloexec : Z;
  fp_endpoint : Z }.

Record filp := Filp {
  filp_mode : Z;
  filp_flags : Z;
  filp_count : Z;
  filp_ino : option Z;
  filp_pos : Z;
  filp_selectors : Z;
  filp_select_ops : Z;
  filp_pipe_select_ops : Z }.

(** A lock on the bytes of a file; the slot is not used when the type is 0. *)
Record file_lock := FileLock {
  lock_type : Z;
  lock_pid : Z;
  lock_inode : option Z;
  lock_first : Z;
  lock_last : Z }.

(** A call of select ([select.c]).  A set of descriptors is a word; the slot is free when
    there is no requestor; its timer is in the queue of timers. *)
Record selectentry := SelectEntry {
  requestor : option Z;
  req_endpt : Z;
  readfds : Z;
  writefds : Z;
  errorfds : Z;
  ready_readfds : Z;
  ready_writefds : Z;
  ready_errorfds : Z;
  vir_readfds : Z;
  vir_writefds : Z;
  vir_errorfds : Z;
  se_filps : list (option Z);
  se_type : list Z;
  nfds : Z;
  nreadyfds : Z;
  expiry : Z }.

(** Calls of the kernel whose effect is elsewhere. *)
Inductive kcall := KKill (e sig : Z) | KSetAlarm (t : Z).

(** The procedures that the table of devices names ([dmap_opcl]). *)
Inductive opcl := GenOpcl | TtyOpcl | CttyOpcl | CloneOpcl | NoDev.

(** The parameters of a request in [m_in] ([param.h]). *)
Abbreviation m1_i1 := m_w0 (only parsing).
Abbreviation m1_i2 := m_w1 (only parsing).
Abbreviation m1_i3 := m_w2 (only parsing).
Abbreviation m1_p1 := m_w3 (only parsing).

(** The bytes of every device: driver endpoint, minor number, position. *)
Abbreviation disks := (Z → Z → Z → Z).

Record fsstate := FsState {
  bufs : gmap Z buf;
  buf_hash : gmap Z Z;
  front : option Z;
  rear : option Z;
  bufs_in_use : Z;
  supers : gmap Z super_block;
  inodes : gmap Z inode;
  filps : gmap Z filp;
  fprocs : gmap Z fproc;
  fp : Z;
  super_user : bool;
  susp_count : Z;
  reviving : Z;
  dmap_driver : gmap Z Z;
  m_in : message;
  call_nr : Z;
  user_path : Z → Z;
  err_code : Z;
  rdwt_err : Z;
  root_dev : Z;
  now : Z;
  io_count : Z;
  disk : disks;
  dmap_opcl : gmap Z opcl;
  dmap_flags : gmap Z Z;
  file_locks : gmap Z file_lock;
  nr_locks : Z;
  m_out : message;
  replies : list (Z * Z);
  selecttab : gmap Z selectentry;
  fs_timers : tqueue;
  kcalls : list kcall }.
Unset Primitive Projections.

#[export] Instance buf_eta : Eta buf := λ r,
  Buf (b_data r) (b_next r) (b_prev r) (b_hash r) (b_blocknr r) (b_dev r) (b_dirt r) (b_count r).
#[export] Instance super_eta : Eta super_block := λ r,
  SuperBlock (s_ninodes r) (s_nzones r) (s_imap_blocks r) (s_zmap_blocks r) (s_firstdatazone r)
    (s_log_zone_size r) (s_max_size r) (s_zones r) (s_magic r) (s_block_size r)
    (s_inodes_per_block r) (s_dev r) (s_rd_only r) (s_native r) (s_version r) (s_ndzones r)
    (s_nindirs r) (s_isearch r) (s_zsearch r) (s_isup r) (s_imount r).
#[export] Instance inode_eta : Eta inode := λ r,
  Inode (i_mode r) (i_nlinks r) (i_uid r) (i_gid r) (i_size r) (i_atime r) (i_mtime r)
    (i_ctime r) (i_zone r) (i_dev r) (i_num r) (i_count r) (i_ndzones r) (i_nindirs r)
    (i_sp r) (i_dirt r) (i_pipe r) (i_mount r) (i_seek r) (i_update r).
#[export] Instance fproc_eta : Eta fproc := λ r,
  FProc (fp_umask r) (fp_workdir r) (fp_rootdir r) (fp_filp r) (fp_filp_inuse r) (fp_realuid r)
    (fp_effuid r) (fp_realgid r) (fp_effgid r) (fp_tty r) (fp_fd r) (fp_buffer r) (fp_nbytes r)
    (fp_cum_io_partial r) (fp_suspended r) (fp_revived r) (fp_task r) (fp_sesldr r)
    (fp_execced r) (fp_pid r) (fp_cloexec r) (fp_endpoint r).
#[export] Instance filp_eta : Eta filp := λ r,
  Filp (filp_mode r) (filp_flags r) (filp_count r) (filp_ino r) (filp_pos r) (filp_selectors r)
    (filp_select_ops r) (filp_pipe_select_ops r).
#[export] Instance file_lock_eta : Eta file_lock := λ r,
  FileLock (lock_type r) (lock_pid r) (lock_inode r) (lock_first r) (lock_last r).
#[export] Instance selectentry_eta : Eta selectentry := λ r,
  SelectEntry (requestor r) (req_endpt r) (readfds r) (writefds r) (errorfds r) (ready_readfds r) (ready_writefds r)
    (ready_errorfds r) (vir_readfds r) (vir_writefds r) (vir_errorfds r) (se_filps r) (se_type r) (nfds r)
    (nreadyfds r) (expiry r).
#[export] Instance fsstate_eta : Eta fsstate := λ s,
  FsState (bufs s) (buf_hash s) (front s) (rear s) (bufs_in_use s) (supers s) (inodes s) (filps s)
    (fprocs s) (fp s) (super_user s) (susp_count s) (reviving s) (dmap_driver s) (m_in s) (call_nr s)
    (user_path s) (err_code s) (rdwt_err s) (root_dev s) (now s) (io_count s) (disk s)
    (dmap_opcl s) (dmap_flags s) (file_locks s) (nr_locks s) (m_out s) (replies s)
    (selecttab s) (fs_timers s) (kcalls s).

#[export] Program Instance fs_timed : Timed fsstate := {| tq := fs_timers; set_tq := λ q s, s.[fs_timers := q] |}.
Solve Obligations with done.

Abbreviation F := (M fsstate).

(** ** Access to the tables *)
Definition getb (p : option Z) : F buf := λ s,
  match p with
  | Some b => match bufs s !! b with Some r => Ret r s | None => Crash end
  | None => Crash
  end.
Definition putb (p : option Z) (f : buf → buf) : F unit := λ s,
  match p with
  | Some b =>
      match bufs s !! b with
      | Some r => Ret tt (s.[bufs := <[b := f r]> (bufs s)])
      | None => Crash
      end
  | None => Crash
  end.
Definition getsp (p : option Z) : F super_block := λ s,
  match p with
  | Some b => match supers s !! b with Some r => Ret r s | None => Crash end
  | None => Crash
  end.
Definition putsp (p : option Z) (f : super_block → super_block) : F unit := λ s,
  match p with
  | Some b =>
      match supers s !! b with
      | Some r => Ret tt (s.[supers := <[b := f r]> (supers s)])
      | None => Crash
      end
  | None => Crash
  end.
Definition geti (p : option Z) : F inode := λ s,
  match p with
  | Some b => match inodes s !! b with Some r => Ret r s | None => Crash end
  | None => Crash
  end.
Definition puti (p : option Z) (f : inode → inode) : F unit := λ s,
  match p with
  | Some b =>
      match inodes s !! b with
      | Some r => Ret tt (s.[inodes := <[b := f r]> (inodes s)])
      | None => Crash
      end
  | None => Crash
  end.

Definition getf (p : option Z) : F filp := λ s,
  match p with
  | Some b => match filps s !! b with Some r => Ret r s | None => Crash end
  | None => Crash
  end.
Definition putf (p : option Z) (f : filp → filp) : F unit := λ s,
  match p with
  | Some b =>
      match filps s !! b with
      | Some r => Ret tt (s.[filps := <[b := f r]> (filps s)])
      | None => Crash
      end
  | None => Crash
  end.
Definition getfp (p : Z) : F fproc := λ s,
  match fprocs s !! p with Some r => Ret r s | None => Crash end.
Definition putfp (p : Z) (f : fproc → fproc) : F unit := λ s,
  match fprocs s !! p with
  | Some r => Ret tt (s.[fprocs := <[p := f r]> (fprocs s)])
  | None => Crash
  end.
Definition set_err (e : Z) : F unit := modify (λ s, s.[err_code := e]).

(** [panic]: everything is flushed and the server exits. *)
Definition panic {A} : F A := crash.

(** The place of an element in a table, searched in order. *)
Definition find_slot {A} (f : A → bool) (t : gmap Z A) (n : Z) : option Z :=
  find (λ i, match t !! i with Some r => f r | None => false end) (zrange 0 n).

(** ** Super blocks ([super.c]) *)
Definition get_super (dev : Z) : F (option Z) :=
  if dev =? NO_DEV then panic
  else
    let* s := get in
    match find_slot (λ sp, s_dev sp =? dev) (supers s) NR_SUPERS with
    | Some sp => ret (Some sp)
    | None => panic
    end.

Definition get_block_size (dev : Z) : F Z :=
  if dev =? NO_DEV then panic
  else
    let* s := get in
    match find_slot (λ sp, s_dev sp =? dev) (supers s) NR_SUPERS with
    | Some sp => let* r := getsp (Some sp) in ret (s_block_size r)
    | None => ret MIN_BLOCK_SIZE
    end.

Definition mounted (rip : option Z) : F bool :=
  let* r := geti rip in
  let* dev := of_option (aget (i_zone r) 0) in
  let dev := s16 dev in
  let* s := get in
  if dev =? root_dev s then ret true
  else
    ret (match find_slot (λ sp, s_dev sp =? dev) (supers s) NR_SUPERS with
         | Some _ => true | None => false end).
