(* ===== verification/FsCache.v ===== *)
(** * The file system server: the block cache

    [src/servers/fs/cache.c]: buffers are found through hash chains; those that are
    not in use are on the LRU chain, a list linked both ways.  [buf_pool] is in
    [main.c].  Before them the transfers to devices, [dev_io] of [device.c]: the driver is
    an argument. *)
From stdpp Require Import base gmap list numbers strings.
From Stdlib Require Import ZArith Lia.
From S2P Require Import Prelude.
From S2P Require Import KTypes.
From S2P Require Import KProc.
From S2P Require Import FsTypes.

(** The buffers of a transfer, with the bytes that are still to go: the vector of
    DEV_SCATTER and DEV_GATHER, or the one buffer of the other requests. *)
Abbreviation iovec := (list (Z * (Z → Z))).

Record dev_req := DevReq {
  dq_type : Z;
  dq_device : Z;
  dq_position : Z;
  dq_endpt : Z;
  dq_count : Z;
  dq_flags : Z;
  dq_iov : iovec }.
Record dev_reply := DevReply {
  dr_status : Z;
  dr_gone : bool;
  dr_iov : iovec;
  dr_disk : disks }.

(** [(dev >> MAJOR) & BYTE] and [(dev >> MINOR) & BYTE]. *)
Definition major (dev : Z) : Z := Z.land (Z.shiftr dev 8) 255.
Definition minor (dev : Z) : Z := Z.land dev 255.

(** [isokendpt] of the server ([utility.c]). *)
Definition fs_isokendpt (endpoint : Z) : F Z :=
  let proc := ENDPOINT_P endpoint in
  let* s := get in
  if (proc <? 0) || (NR_PROCS <=? proc) then ret EDEADSRCDST
  else
    let* r := getfp proc in
    ret (if negb (fp_endpoint r =? endpoint) then EDEADSRCDST else OK).

(** [suspend] ([pipe.c]). *)
Definition suspend (task : Z) : F unit :=
  when ((task =? XPIPE) || (task =? XPOPEN)) (modify (λ s, s.[susp_count := susp_count s + 1]));;;
  let* s := get in
  let m := m_in s in
  putfp (fp s) (λ r, r.[fp_suspended := SUSPENDED]
    .[fp_fd := s32 (Z.lor (Z.shiftl (m1_i1 m) 8) (call_nr s))]);;;
  if task =? NONE then panic
  else putfp (fp s) (λ r, r.[fp_task := - task].[fp_buffer := m1_p1 m].[fp_nbytes := m1_i2 m]).

Definition DMAP_MUTABLE : Z := 1.
(** [dmap_unmap_by_endpt] ([dmap.c]): a driver that is gone loses its devices. *)
Definition unmapped (drv : Z) (s : fsstate) (i : Z) : bool :=
  match dmap_driver s !! i with Some d => negb (d =? 0) && (d =? drv) | None => false end.
Definition dmap_unmap_by_endpt (drv : Z) : F unit := modify (λ s,
  let change {A} (x : A) (t : gmap Z A) := map_imap (λ i y, Some (if unmapped drv s i then x else y)) t in
  s.[dmap_driver := change NONE (dmap_driver s)].[dmap_opcl := change NoDev (dmap_opcl s)].[dmap_flags := change DMAP_MUTABLE (dmap_flags s)]).

Section dev.
Context (task_io : Z → dev_req → Z → disks → dev_reply).

(** A call of [dmap_io]: the answer is kept, and a driver that is gone is unmapped. *)
Definition call_task (drv : Z) (req : dev_req) : F (Z * iovec) :=
  let* s := get in
  let r := task_io drv req (io_count s) (disk s) in
  modify (λ s, s.[disk := dr_disk r].[io_count := io_count s + 1]);;;
  when (dr_gone r) (dmap_unmap_by_endpt drv);;;
  ret (dr_status r, dr_iov r).

Definition dev_io (op dev proc_e : Z) (iov : iovec) (pos bytes flags : Z) : F (Z * iovec) :=
  let* s := get in
  let* drv := of_option (dmap_driver s !! major dev) in
  if drv =? NONE then ret (ENXIO, iov)
  else
    let* ok := fs_isokendpt drv in
    if negb (ok =? OK) then ret (ENXIO, iov)
    else
      let* ' (status, iov') := call_task drv (DevReq op (minor dev) pos proc_e bytes flags iov) in
      let* s := get in
      let* drv := of_option (dmap_driver s !! major dev) in
      if drv =? NONE then ret (EIO, iov')
      else if status =? SUSPEND then
        if band flags O_NONBLOCK then
          let* ' (status, iov') :=
            call_task drv (DevReq CANCEL (minor dev) pos proc_e bytes flags iov') in
          ret (if status =? EINTR then EAGAIN else status, iov')
        else suspend drv;;; ret (SUSPEND, iov')
      else ret (status, iov').
End dev.

(** One more than the buffers on any chain, and the round that finds its end. *)
Definition buf_fuel : nat := 1202.

Definition hash_of (block : Z) : Z := Z.land block HASH_MASK.

Definition set_hash (h : Z) (p : option Z) : F unit :=
  modify (λ s, s.[buf_hash := partial_alter (λ _, p) h (buf_hash s)]).
Definition set_front (p : option Z) : F unit := modify (λ s, s.[front := p]).
Definition set_rear (p : option Z) : F unit := modify (λ s, s.[rear := p]).

(** ** The LRU chain *)
Definition rm_lru (bp : option Z) : F unit :=
  modify (λ s, s.[bufs_in_use := bufs_in_use s + 1]);;;
  let* r := getb bp in
  let next_ptr := b_next r in
  let prev_ptr := b_prev r in
  match prev_ptr with
  | Some _ => putb prev_ptr (λ r, r.[b_next := next_ptr])
  | None => set_front next_ptr
  end;;;
  match next_ptr with
  | Some _ => putb next_ptr (λ r, r.[b_prev := prev_ptr])
  | None => set_rear prev_ptr
  end.

Definition push_front (bp : option Z) : F unit :=
  let* s := get in
  putb bp (λ r, r.[b_prev := None].[b_next := front s]);;;
  match front s with
  | None => set_rear bp
  | Some _ => putb (front s) (λ r, r.[b_prev := bp])
  end;;;
  set_front bp.

Definition push_rear (bp : option Z) : F unit :=
  let* s := get in
  putb bp (λ r, r.[b_prev := rear s].[b_next := None]);;;
  match rear s with
  | None => set_front bp
  | Some _ => putb (rear s) (λ r, r.[b_next := bp])
  end;;;
  set_rear bp.

(** ** Sorting ([rw_scattered]) *)
Section shell.
Context (key : Z → Z).

(** Elements [gap] apart are exchanged down from [i] while they are out of order. *)
Fixpoint sift (fuel : nat) (gap i : Z) (q : list Z) : list Z :=
  match fuel with
  | O => q
  | Datatypes.S fuel =>
      match aget q i, aget q (i + gap) with
      | Some x, Some y =>
          if key y <? key x then
            sift fuel gap (i - gap) (<[Z.to_nat i := y]> (<[Z.to_nat (i + gap) := x]> q))
          else q
      | _, _ => q
      end
  end.

Definition pass (gap : Z) (q : list Z) : list Z :=
  foldl (λ q j, sift (length q) gap (j - gap) q) q (zrange gap (Z.of_nat (length q))).

Fixpoint first_gap (fuel : nat) (gap n : Z) : Z :=
  match fuel with
  | O => gap
  | Datatypes.S fuel =>
      let gap := 3 * gap + 1 in if gap <=? n then first_gap fuel gap n else gap
  end.

Fixpoint passes (fuel : nat) (gap : Z) (q : list Z) : list Z :=
  match fuel with
  | O => q
  | Datatypes.S fuel =>
      if gap =? 1 then q else let gap := gap ÷ 3 in passes fuel gap (pass gap q)
  end.

(** Gaps grow by a factor of three, so twenty exceed any number of buffers. *)
Definition gap_fuel : nat := 20.

Definition shell_sort (q : list Z) : list Z :=
  passes gap_fuel (first_gap gap_fuel 1 (Z.of_nat (length q))) q.
End shell.

Definition blocknr_in (t : gmap Z buf) (b : Z) : Z :=
  match t !! b with Some r => b_blocknr r | None => 0 end.

(** The buffers whose blocks follow the block [nr]: the transfer of one request. *)
Fixpoint run_from (t : gmap Z buf) (n : nat) (nr : Z) (q : list Z) : list Z :=
  match n, q with
  | Datatypes.S n, b :: q => if blocknr_in t b =? nr then b :: run_from t n (u32 (nr + 1)) q else []
  | _, _ => []
  end.

Section cache.
Context (task_io : Z → dev_req → Z → disks → dev_reply).

Definition rw_block (bp : option Z) (rw_flag : Z) : F Z :=
  let* r := getb bp in
  let* block_size := get_block_size (b_dev r) in
  let dev := b_dev r in
  when (negb (dev =? NO_DEV)) (
    let pos := u32 (b_blocknr r * block_size) in
    let op := if rw_flag =? READING then DEV_READ else DEV_WRITE in
    let* ' (st, iov) := dev_io task_io op dev FS_PROC_NR [(block_size, b_data r)] pos block_size 0 in
    match iov with
    | (_, d) :: _ => when (rw_flag =? READING) (putb bp (λ r, r.[b_data := d]))
    | [] => skip
    end;;;
    when (negb (st =? block_size)) (
      let st := if 0 <=? st then END_OF_FILE else st in
      putb bp (λ r, r.[b_dev := NO_DEV]);;;
      when (rw_flag =? READING) (modify (λ s, s.[rdwt_err := st]))));;;
  putb bp (λ r, r.[b_dirt := CLEAN]);;;
  ret OK.

Definition put_block (bp : option Z) (block_type : Z) : F unit :=
  match bp with
  | None => skip
  | Some _ =>
      putb bp (λ r, r.[b_count := s8 (b_count r - 1)]);;;
      let* r := getb bp in
      if negb (b_count r =? 0) then skip
      else
        modify (λ s, s.[bufs_in_use := bufs_in_use s - 1]);;;
        (if (b_dev r =? DEV_RAM) || band block_type ONE_SHOT then push_front bp else push_rear bp);;;
        let* r := getb bp in
        when (band block_type WRITE_IMMED && (b_dirt r =? DIRTY) && negb (b_dev r =? NO_DEV))
          (rw_block bp WRITING;;; skip)
  end.

(** The results of one request, for the buffers that have not been looked at; [i] is
    the number of those that have. *)
Fixpoint harvest (dev rw_flag r i : Z) (q : list Z) (iov : iovec) : F Z :=
  match q, iov with
  | b :: q, (size, _) :: iov =>
      if negb (size =? 0) then
        when (negb (r =? OK) && (i =? 0)) (putb (Some b) (λ r, r.[b_dev := NO_DEV]));;;
        ret i
      else
        (if rw_flag =? READING then
           putb (Some b) (λ r, r.[b_dev := dev]);;;
           put_block (Some b) PARTIAL_DATA_BLOCK
         else putb (Some b) (λ r, r.[b_dirt := CLEAN]));;;
        harvest dev rw_flag r (i + 1) q iov
  | _, _ => ret i
  end.

(** What a transfer puts into the buffers. *)
Fixpoint fill (q : list Z) (iov : iovec) : F unit :=
  match q, iov with
  | b :: q, (_, d) :: iov => putb (Some b) (λ r, r.[b_data := d]);;; fill q iov
  | _, _ => skip
  end.

Definition transfer (dev rw_flag block_size : Z) : list Z → F (list Z + unit) := λ q,
  match q with
  | [] => ret (inr tt)
  | b0 :: _ =>
      let* s := get in
      let nr := blocknr_in (bufs s) b0 in
      let batch := run_from (bufs s) (Z.to_nat NR_IOREQS) nr q in
      let iov := map (λ b, (block_size, match bufs s !! b with Some r => b_data r | None => λ _, 0 end)) batch in
      let op := if rw_flag =? WRITING then DEV_SCATTER else DEV_GATHER in
      let* ' (r, iov) := dev_io task_io op dev FS_PROC_NR iov (u32 (nr * block_size))
                           (Z.of_nat (length batch)) 0 in
      when (negb (rw_flag =? WRITING)) (fill batch iov);;;
      let* i := harvest dev rw_flag r 0 batch iov in
      let q := drop (Z.to_nat i) q in
      if rw_flag =? READING then
        for_list q (λ b, put_block (Some b) PARTIAL_DATA_BLOCK);;; ret (inr tt)
      else if (rw_flag =? WRITING) && (i =? 0) then ret (inr tt)
      else ret (inl q)
  end.

Definition rw_scattered (dev : Z) (bufq : list Z) (rw_flag : Z) : F unit :=
  let* block_size := get_block_size dev in
  let* s := get in
  loop (Datatypes.S (length bufq)) (transfer dev rw_flag block_size)
    (shell_sort (blocknr_in (bufs s)) bufq).

Definition is_dirty (t : gmap Z buf) (dev b : Z) : bool :=
  match t !! b with Some r => (b_dirt r =? DIRTY) && (b_dev r =? dev) | None => false end.

Definition flushall (dev : Z) : F unit :=
  let* s := get in
  rw_scattered dev (filter (λ b, is_dirty (bufs s) dev b = true) (zrange 0 NR_BUFS)) WRITING.

Definition invalidate (device : Z) : F unit :=
  modify (λ s, s.[bufs := (λ r, if b_dev r =? device then r.[b_dev := NO_DEV] else r) <$> bufs s]).

(** ** [get_block] *)
Definition search_scan (dev block : Z) : option Z → F (option Z + option Z) := λ bp,
  match bp with
  | None => ret (inr None)
  | Some _ =>
      let* r := getb bp in
      ret (if (b_blocknr r =? block) && (b_dev r =? dev) then inr bp else inl (b_hash r))
  end.

(** The buffer that has the block, if the device is one and there is such a buffer. *)
Definition search_block (dev block : Z) : F (option Z) :=
  if dev =? NO_DEV then ret None
  else
    let* s := get in
    loop buf_fuel (search_scan dev block) (buf_hash s !! hash_of block).

Definition opt_eqb (p q : option Z) : bool :=
  match p, q with Some a, Some b => a =? b | None, None => true | _, _ => false end.

Definition unhash_scan (bp link : option Z) : option Z → F (option Z + unit) := λ prev_ptr,
  let* r := getb prev_ptr in
  match b_hash r with
  | None => ret (inr tt)
  | Some _ =>
      if opt_eqb (b_hash r) bp then
        putb prev_ptr (λ r, r.[b_hash := link]);;; ret (inr tt)
      else ret (inl (b_hash r))
  end.

Definition unhash (bp : option Z) : F unit :=
  let* r := getb bp in
  let b := hash_of (b_blocknr r) in
  let* s := get in
  if opt_eqb (buf_hash s !! b) bp then set_hash b (b_hash r)
  else loop buf_fuel (unhash_scan bp (b_hash r)) (buf_hash s !! b).

(** The buffer that is taken becomes the one of the block. *)
Definition rename (bp : option Z) (dev block : Z) : F unit :=
  putb bp (λ r, r.[b_dev := dev].[b_blocknr := block].[b_count := s8 (b_count r + 1)]);;;
  let b := hash_of block in
  let* s := get in
  putb bp (λ r, r.[b_hash := buf_hash s !! b]);;;
  set_hash b bp.

Definition get_block (dev block only_search : Z) : F (option Z) :=
  let* bp := search_block dev block in
  match bp with
  | Some _ =>
      let* r := getb bp in
      when (b_count r =? 0) (rm_lru bp);;;
      putb bp (λ r, r.[b_count := s8 (b_count r + 1)]);;;
      ret bp
  | None =>
      let* s := get in
      match front s with
      | None => panic
      | Some _ =>
          let bp := front s in
          rm_lru bp;;;
          unhash bp;;;
          let* r := getb bp in
          when (negb (b_dev r =? NO_DEV) && (b_dirt r =? DIRTY)) (flushall (b_dev r));;;
          rename bp dev block;;;
          when (negb (dev =? NO_DEV)) (
            if only_search =? PREFETCH then putb bp (λ r, r.[b_dev := NO_DEV])
            else when (only_search =? NORMAL) (rw_block bp READING;;; skip));;;
          ret bp
      end
  end.

(** [zero_block] ([write.c]). *)
Definition zero_block (bp : option Z) : F unit :=
  putb bp (λ r, r.[b_data := λ _, 0].[b_dirt := DIRTY]).
End cache.

(** ** [buf_pool]

    The counts, dirty flags and data of the buffers are the zeros of static memory. *)
Definition new_buf (b : Z) : buf :=
  Buf (λ _, 0) (if b =? NR_BUFS - 1 then None else Some (b + 1)) (if b =? 0 then None else Some (b - 1))
      (if b =? NR_BUFS - 1 then None else Some (b + 1)) NO_BLOCK NO_DEV CLEAN 0.

Definition buf_pool : F unit :=
  modify (λ s, s.[bufs := list_to_map (map (λ b, (b, new_buf b)) (zrange 0 NR_BUFS))]
    .[buf_hash := {[0 := 0]}].[front := Some 0].[rear := Some (NR_BUFS - 1)].[bufs_in_use := 0]).
