(* ===== verification/FsCacheInv.v ===== *)
(** * The block cache: invariant and lookups

    The list that the LRU chain holds, and what taking a buffer out and putting one back
    at either end does to it.  What the two kinds of chains hold, and the steps of [get_block] on them: the
    search, the removal from the LRU chain and from a hash chain, the insertion. *)
From stdpp Require Import base gmap list numbers strings.
From Stdlib Require Import ZArith Lia.
From S2P Require Import Prelude.
From S2P Require Import Chains.
From S2P Require Import KTypes.
From S2P Require Import FsTypes.
From S2P Require Import FsCache.

(** ** Updates of one buffer *)

(** The update of the buffer [p] points to, if it is not null. *)
Definition modb (p : option Z) (f : buf → buf) (t : gmap Z buf) : gmap Z buf :=
  match p with Some b => alter f b t | None => t end.
Definition upd (p : option Z) (f : buf → buf) (c : Z) (r : buf) : buf :=
  if decide (p = Some c) then f r else r.

Lemma upd_eq f c r : upd (Some c) f c r = f r.
Proof. unfold upd. by rewrite decide_True. Qed.
Lemma upd_ne p f c r : p ≠ Some c → upd p f c r = r.
Proof. intros. unfold upd. by rewrite decide_False. Qed.
#[global] Arguments upd : simpl never.

Lemma lookup_modb p f t c : modb p f t !! c = upd p f c <$> t !! c.
Proof.
  destruct p as [b|]; cbn [modb].
  - destruct (decide (b = c)) as [->|Hne].
    + rewrite lookup_alter_eq. destruct (t !! c); [|done]. cbn. by rewrite upd_eq.
    + rewrite lookup_alter_ne by congruence. destruct (t !! c); [|done]. cbn. by rewrite upd_ne by congruence.
  - destruct (t !! c); [|done]. cbn. by rewrite upd_ne.
Qed.

Lemma twp_getb b r Q s : bufs s !! b = Some r → Q r s → twp (getb (Some b)) Q s.
Proof. intros H HQ. unfold twp, getb. by rewrite H. Qed.
Lemma twp_putb b f Q s :
  is_Some (bufs s !! b) → Q tt (s.[bufs := modb (Some b) f (bufs s)]) → twp (putb (Some b) f) Q s.
Proof.
  intros [r Hr] HQ. unfold twp, putb. rewrite Hr. cbn in HQ.
  replace (<[b := f r]> (bufs s)) with (alter f b (bufs s)); [done|].
  apply map_eq. intros c. destruct (decide (c = b)) as [->|Hne].
  - by rewrite lookup_alter_eq, lookup_insert_eq, Hr.
  - by rewrite lookup_alter_ne, lookup_insert_ne by congruence.
Qed.

Lemma is_Some_modb p f t c : is_Some (modb p f t !! c) ↔ is_Some (t !! c).
Proof. rewrite lookup_modb. apply fmap_is_Some. Qed.

(** ** The LRU chain *)
Definition pred_of (L : list Z) (i : nat) : option Z := match i with O => None | Datatypes.S j => L !! j end.

Definition links (t : gmap Z buf) (L : list Z) : Prop :=
  ∀ i b, L !! i = Some b → ∃ r, t !! b = Some r ∧ b_next r = L !! Datatypes.S i ∧ b_prev r = pred_of L i.

Lemma links_elem t L b : links t L → b ∈ L → is_Some (t !! b).
Proof. intros H [i Hi]%list_elem_of_lookup. destruct (H i b Hi) as (r & -> & _). eauto. Qed.

(** Changes of other fields and of other buffers. *)
Lemma links_upd t t' L (f : Z → buf → buf) :
  (∀ c, c ∈ L → t' !! c = f c <$> t !! c) →
  (∀ c r, c ∈ L → b_next (f c r) = b_next r ∧ b_prev (f c r) = b_prev r) → links t L → links t' L.
Proof.
  intros Ht Hf H i b Hi. destruct (H i b Hi) as (r & Hr & Hn & Hp).
  assert (b ∈ L) by by eapply list_elem_of_lookup_2. destruct (Hf b r) as [Hfn Hfp]; [done|].
  exists (f b r). rewrite Ht, Hr by done. split; [done|]. by rewrite Hfn, Hfp.
Qed.

Lemma lookup_pred_inj (L : list Z) k j b : NoDup L → L !! k = Some b → pred_of L j = Some b → j = Datatypes.S k.
Proof. intros Hnd Hk. destruct j as [|j]; [done|]. cbn. intros Hj. f_equal. by eapply NoDup_lookup. Qed.

Lemma pred_of_delete (L : list Z) k i :
  pred_of (delete k L) i = if decide (i <= k)%nat then pred_of L i else L !! i.
Proof.
  destruct i as [|i]; cbn [pred_of]; [by rewrite decide_True by lia|].
  destruct (decide (Datatypes.S i <= k)%nat).
  - by rewrite list_lookup_delete_lt by lia.
  - by rewrite list_lookup_delete_ge by lia.
Qed.

Lemma links_remove t L k b :
  NoDup L → links t L → L !! k = Some b →
  links (modb (L !! Datatypes.S k) (λ r, r.[b_prev := pred_of L k])
           (modb (pred_of L k) (λ r, r.[b_next := L !! Datatypes.S k]) t)) (delete k L).
Proof.
  intros Hnd H Hk i c Hi. rewrite !lookup_modb.
  assert (∃ j, L !! j = Some c ∧ j = if decide (i < k)%nat then i else Datatypes.S i) as (j & Hj & Hij).
  { destruct (decide (i < k)%nat); [rewrite list_lookup_delete_lt in Hi by lia|rewrite list_lookup_delete_ge in Hi by lia]; eauto. }
  destruct (H j c Hj) as (r & -> & Hn & Hp). eexists. split; [reflexivity|].
  assert (Hnext : L !! Datatypes.S k = Some c ↔ j = Datatypes.S k).
  { split; [intros; by eapply NoDup_lookup|by intros <-]. }
  assert (Hprev : pred_of L k = Some c ↔ k = Datatypes.S j).
  { split; [intros; by eapply lookup_pred_inj|by intros ->]. }
  rewrite pred_of_delete. destruct (decide (i < k)%nat) as [Hlt|Hge].
  - subst j. rewrite (upd_ne (L !! Datatypes.S k)) by (rewrite Hnext; lia). rewrite decide_True by lia.
    destruct (decide (k = Datatypes.S i)) as [->|Hne].
    + replace (pred_of L (Datatypes.S i)) with (Some c) by by symmetry. rewrite upd_eq.
      rewrite list_lookup_delete_ge by lia. done.
    + rewrite upd_ne by (rewrite Hprev; lia). by rewrite list_lookup_delete_lt by lia.
  - subst j. rewrite (upd_ne (pred_of L k)) by (rewrite Hprev; lia). rewrite list_lookup_delete_ge by lia.
    destruct (decide (i = k)) as [->|Hne].
    + rewrite decide_True by lia. replace (L !! Datatypes.S k) with (Some c) by by symmetry.
      rewrite upd_eq. done.
    + rewrite upd_ne by (rewrite Hnext; lia). by rewrite decide_False by lia.
Qed.

Lemma links_push_front t L b :
  NoDup L → b ∉ L → links t L → is_Some (t !! b) →
  links (modb (head L) (λ r, r.[b_prev := Some b])
           (modb (Some b) (λ r, r.[b_prev := None].[b_next := head L]) t)) (b :: L).
Proof.
  intros Hnd Hb H [rb Hrb] [|i] c Hi; rewrite !lookup_modb.
  - injection Hi as <-. rewrite Hrb. eexists. split; [reflexivity|].
    rewrite upd_ne. 2:{ intros Hh. destruct L; [done|]. injection Hh as ->. apply Hb. by left. }
    rewrite upd_eq. cbn. by destruct L.
  - cbn in Hi. destruct (H i c Hi) as (r & -> & Hn & Hp). eexists. split; [reflexivity|].
    rewrite (upd_ne (Some b)). 2:{ intros [= ->]. apply Hb. by eapply list_elem_of_lookup_2. }
    destruct L as [|a L]; [done|]. cbn [head]. destruct (decide (a = c)) as [->|Hne].
    + assert (i = 0%nat) as -> by by eapply (NoDup_lookup (c :: L)). by rewrite upd_eq.
    + rewrite upd_ne by congruence. destruct i as [|i]; [by injection Hi as ->|]. done.
Qed.

Lemma last_lookup_S (L : list Z) i c : L !! i = Some c → last L = Some c → NoDup L → L !! Datatypes.S i = None.
Proof.
  intros Hi Hl Hnd. rewrite last_lookup in Hl. assert (i = pred (length L)) as -> by by eapply NoDup_lookup.
  apply lookup_ge_None. lia.
Qed.

Lemma links_push_rear t L b :
  NoDup L → b ∉ L → links t L → is_Some (t !! b) →
  links (modb (last L) (λ r, r.[b_next := Some b])
           (modb (Some b) (λ r, r.[b_prev := last L].[b_next := None]) t)) (L ++ [b]).
Proof.
  intros Hnd Hb H [rb Hrb] i c Hi. rewrite !lookup_modb.
  destruct (decide (i < length L)%nat) as [Hlt|Hge].
  - rewrite lookup_app_l in Hi by done. destruct (H i c Hi) as (r & -> & Hn & Hp).
    eexists. split; [reflexivity|].
    rewrite (upd_ne (Some b)). 2:{ intros [= ->]. apply Hb. by eapply list_elem_of_lookup_2. }
    assert (pred_of (L ++ [b]) i = pred_of L i) as ->.
    { destruct i; cbn; [done|]. by rewrite lookup_app_l by lia. }
    destruct (decide (last L = Some c)) as [Heq|Hne].
    + pose proof (last_lookup_S L i c Hi Heq Hnd) as Hnone%lookup_ge_None.
      rewrite Heq, upd_eq. cbn.
      rewrite lookup_app_r by lia. replace (Datatypes.S i - length L)%nat with 0%nat by lia. done.
    + rewrite upd_ne by done. split; [|done]. rewrite Hn.
      destruct (decide (Datatypes.S i < length L)%nat); [by rewrite lookup_app_l|].
      exfalso. apply Hne. rewrite last_lookup. by replace (pred (length L)) with i by lia.
  - assert (i = length L) as ->.
    { apply lookup_lt_Some in Hi. rewrite length_app in Hi. cbn in Hi. lia. }
    rewrite list_lookup_middle in Hi by done. injection Hi as <-. rewrite Hrb.
    eexists. split; [reflexivity|].
    rewrite upd_ne by (intros Hl; by apply last_Some_elem_of in Hl). rewrite upd_eq. cbn. split.
    + symmetry. apply lookup_ge_None. rewrite length_app. cbn. lia.
    + destruct L as [|a L]; [done|]. rewrite last_lookup. symmetry. apply (lookup_app_l (a :: L) [b] (length L)). cbn. lia.
Qed.

(** [L] is the LRU chain, from the block that is taken first. *)
Record lru (s : fsstate) (L : list Z) : Prop := {
  lru_nodup : NoDup L;
  lru_links : links (bufs s) L;
  lru_front : front s = head L;
  lru_rear : rear s = last L }.

(** The chain at [h] holds [H h]. *)
Record hashed (s : fsstate) (H : Z → list Z) : Prop := {
  hs_chain h : chain b_hash (bufs s) (buf_hash s !! h) (H h);
  hs_nodup h : NoDup (H h) }.

(** Every buffer is on the chain of its block, but for [out]. *)
Definition filed (t : gmap Z buf) (H : Z → list Z) (out : option Z) : Prop :=
  ∀ b r, t !! b = Some r → ∀ h, b ∈ H h ↔ Some b ≠ out ∧ h = hash_of (b_blocknr r).

(** The buffers on the LRU chain are those that nobody uses, but for [out]. *)
Definition free_on (t : gmap Z buf) (L : list Z) (out : option Z) : Prop :=
  ∀ b r, t !! b = Some r → b ∈ L ↔ Some b ≠ out ∧ b_count r = 0.

(** ** Changes that leave the chains alone *)

(** [t'] is [t] with buffer [c] changed by [f c]. *)
Definition changed (f : Z → buf → buf) (t t' : gmap Z buf) : Prop := ∀ c, t' !! c = f c <$> t !! c.

Lemma changed_modb p f t : changed (upd p f) t (modb p f t).
Proof. intros c. apply lookup_modb. Qed.
Lemma changed_trans f g t t' t'' : changed f t t' → changed g t' t'' → changed (λ c r, g c (f c r)) t t''.
Proof. intros H1 H2 c. rewrite H2, H1. by destruct (t !! c). Qed.
Lemma changed_inv f t t' b r' : changed f t t' → t' !! b = Some r' → ∃ r, t !! b = Some r ∧ r' = f b r.
Proof. intros H. rewrite H. destruct (t !! b); [intros [= <-]; eauto|done]. Qed.
Lemma changed_Some f t t' b r : changed f t t' → t !! b = Some r → t' !! b = Some (f b r).
Proof. intros H Hb. by rewrite H, Hb. Qed.

Definition keeps {A} (g : buf → A) (f : Z → buf → buf) : Prop := ∀ c r, g (f c r) = g r.

Lemma keeps_upd {A} (g : buf → A) p f : (∀ r, g (f r) = g r) → keeps g (upd p f).
Proof. intros H c r. unfold upd. destruct (decide (p = Some c)); [apply H|done]. Qed.
Lemma keeps_comp {A} (g : buf → A) f1 f2 : keeps g f1 → keeps g f2 → keeps g (λ c r, f2 c (f1 c r)).
Proof. intros H1 H2 c r. by rewrite H2, H1. Qed.

Lemma lru_keep s s' L f :
  changed f (bufs s) (bufs s') → keeps b_next f → keeps b_prev f → front s' = front s → rear s' = rear s →
  lru s L → lru s' L.
Proof.
  intros Hc Hn Hp Hf Hr [? Hl ? ?]. split; [done| |by rewrite Hf|by rewrite Hr].
  eapply (links_upd _ _ _ f); [intros c _; apply Hc|intros c r _; split; [apply Hn|apply Hp]|done].
Qed.
Lemma hashed_keep s s' H f :
  changed f (bufs s) (bufs s') → keeps b_hash f → (∀ h, buf_hash s' !! h = buf_hash s !! h) →
  hashed s H → hashed s' H.
Proof.
  intros Hc Hn Hh [Hch ?]. split; [|done]. intros h. rewrite Hh. eapply chain_links; [|apply Hch].
  intros a r _ Ha. exists (f a r). split; [by eapply changed_Some|apply Hn].
Qed.
Lemma filed_keep t t' H out f : changed f t t' → keeps b_blocknr f → filed t H out → filed t' H out.
Proof. intros Hc Hk Hf b r' Hb. eapply changed_inv in Hb as (r & Hr & ->); [|done]. rewrite Hk. by apply Hf. Qed.
Lemma free_keep t t' L out f : changed f t t' → keeps b_count f → free_on t L out → free_on t' L out.
Proof. intros Hc Hk Hf b r' Hb. eapply changed_inv in Hb as (r & Hr & ->); [|done]. rewrite Hk. by apply Hf. Qed.

(** ** [rm_lru] *)
Lemma head_delete (L : list Z) k :
  head (delete k L) = match k with O => L !! 1%nat | _ => head L end.
Proof. by destruct L as [|a [|b L]], k. Qed.
Lemma last_delete (L : list Z) k b :
  L !! k = Some b → last (delete k L) = match L !! Datatypes.S k with None => pred_of L k | Some _ => last L end.
Proof.
  intros Hk. rewrite !last_lookup, length_delete by eauto.
  pose proof (lookup_lt_Some _ _ _ Hk). destruct (L !! Datatypes.S k) as [c|] eqn:Hs.
  - apply lookup_lt_Some in Hs. rewrite list_lookup_delete_ge by lia. f_equal. lia.
  - apply lookup_ge_None in Hs. destruct k as [|k]; cbn [pred_of].
    + apply lookup_ge_None. rewrite length_delete by eauto. lia.
    + rewrite list_lookup_delete_lt by lia. f_equal. lia.
Qed.

(** The links of the neighbours of element [k]. *)
Definition unlink (L : list Z) (k : nat) (c : Z) (r : buf) : buf :=
  upd (L !! Datatypes.S k) (λ r, r.[b_prev := pred_of L k]) c
    (upd (pred_of L k) (λ r, r.[b_next := L !! Datatypes.S k]) c r).

Lemma unlink_keeps {A} (g : buf → A) L k :
  (∀ r p, g (r.[b_prev := p]) = g r) → (∀ r p, g (r.[b_next := p]) = g r) → keeps g (unlink L k).
Proof. intros H1 H2 c r. unfold unlink. rewrite (keeps_upd g); [|intros; apply H1]. rewrite (keeps_upd g); [done|intros; apply H2]. Qed.

Lemma pred_of_elem (L : list Z) k c : pred_of L k = Some c → c ∈ L.
Proof. destruct k; [done|]. cbn. apply list_elem_of_lookup_2. Qed.

Lemma rm_lru_spec s L k b :
  lru s L → L !! k = Some b →
  twp (rm_lru (Some b)) (λ _ s', ∃ t,
    s' = s.[bufs_in_use := bufs_in_use s + 1].[bufs := t].[front := head (delete k L)].[rear := last (delete k L)] ∧
    changed (unlink L k) (bufs s) t ∧ lru s' (delete k L)) s.
Proof.
  intros [Hnd Hl Hf Hr] Hk. destruct (Hl k b Hk) as (r & Hb & Hn & Hp).
  unfold rm_lru. twpgo. cbn. eapply twp_getb; [done|]. rewrite Hn, Hp.
  set (t1 := modb (pred_of L k) (λ r, r.[b_next := L !! Datatypes.S k]) (bufs s)).
  set (t2 := modb (L !! Datatypes.S k) (λ r, r.[b_prev := pred_of L k]) t1).
  assert (Hfin : ∀ s', s' = s.[bufs_in_use := bufs_in_use s + 1].[bufs := t2]
      .[front := head (delete k L)].[rear := last (delete k L)] →
    ∃ t, s' = s.[bufs_in_use := bufs_in_use s + 1].[bufs := t].[front := head (delete k L)]
      .[rear := last (delete k L)] ∧ changed (unlink L k) (bufs s) t ∧ lru s' (delete k L)).
  { intros s' ->. exists t2. split; [done|]. split.
    - eapply (changed_trans (upd (pred_of L k) _) (upd (L !! Datatypes.S k) _)); apply changed_modb.
    - split; cbn; [|by eapply links_remove|done|done]. by eapply sublist_NoDup, sublist_delete. }
  assert (H1 : ∀ c, pred_of L k = Some c → is_Some (bufs s !! c)).
  { intros c Hc. eapply links_elem; [done|]. by eapply pred_of_elem. }
  assert (H2 : ∀ c, L !! Datatypes.S k = Some c → is_Some (t1 !! c)).
  { intros c Hc. apply is_Some_modb. eapply links_elem; [done|]. by eapply list_elem_of_lookup_2. }
  apply twp_bind. pose proof (head_delete L k) as Hh. pose proof (last_delete L k b Hk) as Hla.
  destruct (pred_of L k) as [p|] eqn:Hpk.
  - apply twp_putb; [by apply H1|]. cbn. change (modb (Some p) _ _) with t1.
    destruct k as [|k]; [done|].
    destruct (L !! Datatypes.S (Datatypes.S k)) as [n|] eqn:Hnk.
    + apply twp_putb; [by apply H2|]. cbn. apply Hfin. cbn. by rewrite Hh, Hla, <-Hf, <-Hr.
    + apply twp_modify. cbn. apply Hfin. cbn. by rewrite Hh, Hla, <-Hf.
  - assert (k = 0)%nat as ->.
    { destruct k as [|k]; [done|]. cbn in Hpk. apply lookup_lt_Some in Hk.
      apply lookup_ge_None in Hpk. lia. }
    apply twp_modify. cbn. destruct (L !! 1%nat) as [n|] eqn:Hnk.
    + apply twp_putb; [by apply H2|]. cbn. apply Hfin. cbn. by rewrite Hh, Hla, <-Hr.
    + apply twp_modify. cbn. apply Hfin. cbn. by rewrite Hh, Hla.
Qed.
