(* ===== verification/FsHash.v ===== *)
(** * The block cache: hash chains

    The search of [get_block], the removal of a buffer from its hash chain, and its
    insertion under a new name. *)
From stdpp Require Import base gmap list numbers strings.
From Stdlib Require Import ZArith Lia.
From S2P Require Import Prelude.
From S2P Require Import Chains.
From S2P Require Import KTypes.
From S2P Require Import FsTypes.
From S2P Require Import FsCache.
From S2P Require Import FsCacheInv.

(** What a buffer is but for its links. *)
Definition core (r : buf) : (Z → Z) * Z * Z * Z * Z := (b_data r, b_blocknr r, b_dev r, b_dirt r, b_count r).

Definition all_bufs (t : gmap Z buf) : Prop := ∀ b, is_Some (t !! b) ↔ 0 ≤ b < NR_BUFS.

Lemma modb_insert t b r f : t !! b = Some r → modb (Some b) f t = <[b := f r]> t.
Proof.
  intros Hr. apply map_eq. intros c. rewrite lookup_modb. destruct (decide (c = b)) as [->|Hne].
  - rewrite lookup_insert_eq, Hr. cbn. by rewrite upd_eq.
  - rewrite lookup_insert_ne by done. destruct (t !! c); [|done]. cbn. by rewrite upd_ne by congruence.
Qed.
Lemma changed_ext f g t t' : (∀ c r, f c r = g c r) → changed g t t' → changed f t t'.
Proof. intros Hfg Hc c. rewrite Hc. destruct (t !! c); [|done]. cbn. by rewrite Hfg. Qed.
Lemma changed_ne p f t t' c : changed (upd p f) t t' → p ≠ Some c → t' !! c = t !! c.
Proof. intros Hc Hne. rewrite Hc. destruct (t !! c); [|done]. cbn. by rewrite upd_ne. Qed.

Lemma all_bufs_changed f t t' : changed f t t' → all_bufs t → all_bufs t'.
Proof. unfold all_bufs. intros Hc H b. rewrite <-H, Hc. apply fmap_is_Some. Qed.

Lemma hashed_length s H h : all_bufs (bufs s) → hashed s H → (length (H h) < buf_fuel)%nat.
Proof.
  intros Ht [Hch Hnd]. assert (H h ⊆+ zrange 0 NR_BUFS) as Hle%submseteq_length.
  { apply NoDup_submseteq; [done|]. intros b Hb. apply elem_of_zrange, Ht. by eapply chain_elem. }
  rewrite zrange_length in Hle. unfold buf_fuel. change (Z.to_nat (NR_BUFS - 0)) with 1200%nat in Hle. lia.
Qed.

(** ** The search *)
Definition named (t : gmap Z buf) (dev block b : Z) : Prop :=
  ∃ r, t !! b = Some r ∧ b_dev r = dev ∧ b_blocknr r = block.

Lemma search_spec s H out dev block :
  all_bufs (bufs s) → hashed s H → filed (bufs s) H out → dev ≠ NO_DEV →
  twp (search_block dev block) (λ p s', s' = s ∧
    match p with
    | Some b => named (bufs s) dev block b
    | None => ∀ b, Some b ≠ out → ¬ named (bufs s) dev block b
    end) s.
Proof.
  intros Ht Hh Hf Hdev. unfold search_block. destruct (Z.eqb_spec dev NO_DEV); [done|]. twpgo.
  eapply (twp_loop (λ l a s', s' = s ∧ chain b_hash (bufs s) a l ∧ l `suffix_of` H (hash_of block) ∧
    ∀ b, b ∈ H (hash_of block) → b ∉ l → ¬ named (bufs s) dev block b)).
  - by eapply (hashed_length s H (hash_of block)).
  - split; [done|]. split; [apply Hh|]. split; [done|]. by intros b H1 H2.
  - intros a s' (-> & -> & _ & Hno). cbn. split; [done|]. intros b Hb Hn.
    pose proof Hn as (r & Hr & _ & Hbl).
    apply (Hno b); [|set_solver|done]. apply (Hf b r Hr). split; [done|by rewrite Hbl].
  - intros b l a s' (-> & (-> & r & Hr & Hl) & [k Hk] & Hno). cbn. apply twp_bind, (twp_getb _ r); [done|].
    twpgo. destruct (Z.eqb_spec (b_blocknr r) block) as [Hbl|Hbl]; cbn [andb].
    + destruct (Z.eqb_spec (b_dev r) dev) as [Hd|Hd]; [by split; [|exists r]|].
      split; [done|]. split; [done|]. split; [exists (k ++ [b]); by rewrite <-app_assoc|].
      intros c Hc Hcl (rc & Hrc & Hdc & Hbc). destruct (decide (c = b)) as [->|Hne]; [congruence|].
      apply (Hno c); [done|set_solver|by exists rc].
    + split; [done|]. split; [done|]. split; [exists (k ++ [b]); by rewrite <-app_assoc|].
      intros c Hc Hcl (rc & Hrc & Hdc & Hbc). destruct (decide (c = b)) as [->|Hne]; [congruence|].
      apply (Hno c); [done|set_solver|by exists rc].
Qed.

(** ** The removal *)
Definition without (b : Z) (H : Z → list Z) : Z → list Z := λ h, filter (λ c, c ≠ b) (H h).

Lemma filed_without t H b : filed t H None → filed t (without b H) (Some b).
Proof.
  intros Hf c r Hr h. unfold without. rewrite list_elem_of_filter, (Hf c r Hr h). naive_solver.
Qed.

Lemma filter_ne_id (b : Z) (l : list Z) : b ∉ l → filter (λ c, c ≠ b) l = l.
Proof.
  intros Hb. induction l as [|c l IH]; [done|]. rewrite filter_cons_True by set_solver.
  by rewrite IH by set_solver.
Qed.
Lemma filter_ne_app (b : Z) (l1 l2 : list Z) : NoDup (l1 ++ b :: l2) → filter (λ c, c ≠ b) (l1 ++ b :: l2) = l1 ++ l2.
Proof.
  rewrite NoDup_app, NoDup_cons. intros (_ & H1 & Hb & _).
  rewrite filter_app, filter_cons_False by naive_solver.
  rewrite !filter_ne_id; [done|done|]. intros Hin. apply (H1 b Hin). by left.
Qed.

Lemma opt_eqb_spec p q : reflect (p = q) (opt_eqb p q).
Proof.
  destruct p as [a|], q as [b|]; cbn; try (constructor; congruence).
  destruct (Z.eqb_spec a b); constructor; congruence.
Qed.

Section removal.
Context (s : fsstate) (H : Z → list Z) (b : Z) (r : buf).
Context (Hall : all_bufs (bufs s)) (Hh : hashed s H) (Hf : filed (bufs s) H None) (Hr : bufs s !! b = Some r).
#[local] Abbreviation h0 := (hash_of (b_blocknr r)).

Lemma without_other h : h ≠ h0 → without b H h = H h.
Proof. intros Hne. apply filter_ne_id. rewrite (Hf b r Hr). by intros []. Qed.

Lemma hashed_unlink_first :
  buf_hash s !! h0 = Some b → hashed (s.[buf_hash := partial_alter (λ _, b_hash r) h0 (buf_hash s)]) (without b H).
Proof.
  intros Hfirst. destruct Hh as [Hch Hnd]. split; [|intros h; apply NoDup_filter, Hnd]. intros h. cbn.
  destruct (decide (h = h0)) as [->|Hne].
  - rewrite lookup_partial_alter_eq. pose proof (Hch h0) as Hc. pose proof (Hnd h0) as Hn. unfold without.
    destruct (H h0) as [|c l]; cbn in Hc; rewrite Hfirst in Hc; [done|]. destruct Hc as ([= <-] & r' & Hr' & Hc).
    assert (filter (λ c, c ≠ b) (b :: l) = l) as -> by by apply (filter_ne_app b []).
    by simplify_eq.
  - rewrite lookup_partial_alter_ne by done. rewrite without_other by done. apply Hch.
Qed.

Lemma hashed_unlink_after l0 z l2 rz :
  H h0 = l0 ++ z :: b :: l2 → bufs s !! z = Some rz →
  hashed (s.[bufs := modb (Some z) (λ x, x.[b_hash := b_hash r]) (bufs s)]) (without b H).
Proof.
  intros Hl Hrz. destruct Hh as [Hch Hnd]. split; [|intros h; apply NoDup_filter, Hnd]. intros h. cbn [bufs buf_hash].
  pose proof (Hnd h0) as Hn. rewrite Hl in Hn.
  change (bufs (s.[bufs := ?t])) with t. change (buf_hash (s.[bufs := _])) with (buf_hash s).
  rewrite (modb_insert _ _ rz) by done. destruct (decide (h = h0)) as [->|Hne].
  - unfold without. rewrite Hl. replace (l0 ++ z :: b :: l2) with ((l0 ++ [z]) ++ b :: l2) in * by by rewrite <-app_assoc.
    rewrite filter_ne_app by done. rewrite <-app_assoc.
    destruct (chain_app b_hash (bufs s) (buf_hash s !! h0) (l0 ++ [z]) b l2) as (r' & Hr' & Hc2).
    { rewrite <-Hl. apply Hch. }
    apply NoDup_app in Hn as (Hn1 & Hx & _). simplify_eq.
    apply (chain_redirect b_hash (bufs s) _ l0 z (b :: l2) l2 rz); [done| |done| |done].
    + intros Hz. apply (Hx z); set_solver.
    + rewrite <-app_assoc in Hl. cbn in Hl. rewrite <-Hl. apply Hch.
  - rewrite without_other by done. apply chain_insert_ne; [|apply Hch].
    assert (z ∈ H h0) as Hz by (rewrite Hl; set_solver). rewrite (Hf z rz Hrz) in Hz |- *. naive_solver congruence.
Qed.

Lemma unhash_walk l0 z l2 link Q :
  H h0 = l0 ++ z :: b :: l2 → Q tt (s.[bufs := modb (Some z) (λ x, x.[b_hash := link]) (bufs s)]) →
  twp (loop buf_fuel (unhash_scan (Some b) link) (buf_hash s !! h0)) Q s.
Proof.
  intros Hl HQ. pose proof Hh as [Hch Hnd]. pose proof (Hnd h0) as Hnd0. pose proof (Hch h0) as Hc0.
  rewrite Hl in Hnd0, Hc0. apply NoDup_app in Hnd0 as (_ & Hx & _).
  eapply (twp_loop (λ l a s', s' = s ∧ chain b_hash (bufs s) a (l ++ z :: b :: l2) ∧ l ⊆ l0) _ _ l0).
  - pose proof (hashed_length s H h0 Hall Hh) as Hlen. rewrite Hl, length_app in Hlen. lia.
  - by split; [|split].
  - intros a s' (-> & (-> & rz & Hrz & Hzb & _) & _). unfold unhash_scan.
    apply twp_bind, (twp_getb _ rz); [done|]. assert (b_hash rz = Some b) as -> by exact Hzb.
    destruct (opt_eqb_spec (Some b) (Some b)); [|done]. apply twp_bind, twp_putb; [by eexists|]. by twpgo.
  - intros c l a s' (-> & (-> & rc & Hrc & Hcl) & Hsub). unfold unhash_scan.
    apply twp_bind, (twp_getb _ rc); [done|].
    assert (∃ n, b_hash rc = Some n ∧ n ≠ b) as (n & Hn & Hnb).
    { destruct l as [|d l]; cbn in Hcl; destruct Hcl as (Hd & _); eexists; (split; [done|]); intros ->.
      - pose proof (Hnd h0) as Hn. rewrite Hl in Hn. apply NoDup_app in Hn as (_ & _ & [Hn _]%NoDup_cons). set_solver.
      - apply (Hx b); set_solver. }
    rewrite Hn. destruct (opt_eqb_spec (Some n) (Some b)); [congruence|]. twpgo.
    split; [done|]. rewrite <-Hn. split; [done|]. set_solver.
Qed.

Lemma unhash_spec :
  twp (unhash (Some b)) (λ _ s', ∃ t hh f, s' = s.[bufs := t].[buf_hash := hh] ∧
    changed f (bufs s) t ∧ keeps core f ∧ keeps b_next f ∧ keeps b_prev f ∧
    hashed s' (without b H) ∧ filed t (without b H) (Some b)) s.
Proof.
  pose proof (filed_without _ _ b Hf) as Hfw. pose proof Hh as [Hch Hnd].
  unfold unhash. apply twp_bind, (twp_getb _ r); [done|]. twpgo.
  destruct (opt_eqb_spec (buf_hash s !! h0) (Some b)) as [Hfirst|Hnf].
  - apply twp_modify. exists (bufs s), (partial_alter (λ _, b_hash r) h0 (buf_hash s)), (λ _ r, r).
    split; [done|]. split; [intros c; by destruct (bufs s !! c)|].
    do 3 (split; [by intros c rc|]). split; [by apply hashed_unlink_first|done].
  - assert (b ∈ H h0) as (l1 & l2 & Hl)%list_elem_of_split by by apply (Hf b r Hr).
    destruct (exists_last (l := l1)) as (l0 & z & ->).
    { intros ->. pose proof (chain_head _ _ _ _ (Hch h0)) as Hd. by rewrite Hl in Hd. }
    rewrite <-app_assoc in Hl. cbn in Hl.
    destruct (chain_elem b_hash (bufs s) (buf_hash s !! h0) (H h0) z) as [rz Hrz]; [apply Hch|rewrite Hl; set_solver|].
    apply (unhash_walk l0 z l2); [done|].
    exists (modb (Some z) (λ x, x.[b_hash := b_hash r]) (bufs s)), (buf_hash s), (upd (Some z) (λ x, x.[b_hash := b_hash r])).
    split; [done|]. split; [apply changed_modb|]. do 3 (split; [by apply keeps_upd|]).
    split; [by eapply hashed_unlink_after|]. eapply filed_keep; [apply changed_modb|by apply keeps_upd|done].
Qed.
End removal.

(** ** The insertion *)
Definition with_first (b h0 : Z) (H : Z → list Z) : Z → list Z := λ h, if decide (h = h0) then b :: H h else H h.

(** The new name of a buffer. *)
Definition renamed (dev block : Z) (p : option Z) (r : buf) : buf :=
  r.[b_dev := dev].[b_blocknr := block].[b_count := s8 (b_count r + 1)].[b_hash := p].

Lemma rename_spec s H b r dev block :
  hashed s H → filed (bufs s) H (Some b) → bufs s !! b = Some r →
  twp (rename (Some b) dev block) (λ _ s', ∃ t hh p, s' = s.[bufs := t].[buf_hash := hh] ∧
    changed (upd (Some b) (renamed dev block p)) (bufs s) t ∧
    hashed s' (with_first b (hash_of block) H) ∧ filed t (with_first b (hash_of block) H) None) s.
Proof.
  intros [Hch Hnd] Hf Hr. assert (Hout : ∀ h, b ∉ H h) by (intros h; rewrite (Hf b r Hr); naive_solver).
  unfold rename. apply twp_bind, twp_putb; [by eexists|]. twpgo. apply twp_putb; [by apply is_Some_modb; eexists|].
  apply twp_modify. cbn [bufs buf_hash].
  set (p := buf_hash s !! hash_of block).
  set (t := modb (Some b) (λ r, r.[b_hash := p]) 
    (modb (Some b) (λ r, r.[b_dev := dev].[b_blocknr := block].[b_count := s8 (b_count r + 1)]) (bufs s))).
  assert (Hc : changed (upd (Some b) (renamed dev block p)) (bufs s) t).
  { eapply changed_ext; [|eapply changed_trans; apply changed_modb]. intros c x.
    destruct (decide (c = b)) as [->|]; [by rewrite !upd_eq|by rewrite !upd_ne by congruence]. }
  exists t, (partial_alter (λ _, Some b) (hash_of block) (buf_hash s)), p.
  split; [done|]. split; [done|]. split; [split|].
  - intros h. change (chain b_hash t (partial_alter (λ _, Some b) (hash_of block) (buf_hash s) !! h) (with_first b (hash_of block) H h)).
    assert (Hkeep : chain b_hash t (buf_hash s !! h) (H h)).
    { eapply chain_agree; [|apply Hch]. intros c Hcin. eapply changed_ne; [done|].
      intros [= ->]. by apply (Hout h). }
    unfold with_first. case_decide as Hd.
    + subst h. rewrite lookup_partial_alter_eq. split; [done|]. exists (renamed dev block p r).
      split; [|done]. rewrite Hc, Hr. cbn. by rewrite upd_eq.
    + by rewrite lookup_partial_alter_ne.
  - intros h. unfold with_first. case_decide; [|done]. by apply NoDup_cons.
  - intros c rc' (rc & Hrc & ->)%(changed_inv _ _ _ _ _ Hc) h. unfold with_first.
    destruct (decide (c = b)) as [->|Hne].
    + rewrite upd_eq. cbn. case_decide; [|rewrite (Hf b r Hr)]; set_solver.
    + rewrite upd_ne by congruence. pose proof (Hf c rc Hrc h) as Hx. case_decide; set_solver.
Qed.
