(* ===== verification/FsIo.v ===== *)
(** * The block cache and the disks

    The devices that are there and what their drivers promise ([works]), the
    contents of a block ([blk]: the buffer's if it is cached, the disk's otherwise),
    and the invariant that ties buffers to blocks ([data_ok]). *)
From stdpp Require Import base gmap list numbers strings.
From Stdlib Require Import ZArith Lia.
From S2P Require Import Prelude.
From S2P Require Import Chains.
From S2P Require Import KTypes.
From S2P Require Import KProc.
From S2P Require Import FsTypes.
From S2P Require Import FsCache.
From S2P Require Import FsCacheInv.
From S2P Require Import FsHash.

(** The state but for the cache, the disks and the results of transfers. *)
Definition rest (s : fsstate) : fsstate :=
  s.[bufs := ∅].[buf_hash := ∅].[front := None].[rear := None].[bufs_in_use := 0].[rdwt_err := 0]
   .[io_count := 0].[disk := λ _ _ _, 0].

(** ** Devices *)
Record geometry := Geometry { g_driver : Z; g_size : Z; g_blocks : Z }.

(** The disk after [size] bytes of each element of [l] are written from [pos] on. *)
Definition scattered (d : disks) (drv m size pos : Z) (l : iovec) : disks := λ drv' m' p,
  if (drv' =? drv) && (m' =? m) && (pos <=? p) && (p <? pos + size * Z.of_nat (length l)) then
    match l !! Z.to_nat ((p - pos) / size) with Some (_, x) => x ((p - pos) mod size) | None => 0 end
  else d drv' m' p.

Definition disks_eq (d d' : disks) : Prop := ∀ drv m p, d drv m p = d' drv m p.

Definition bsize (s : fsstate) (dev : Z) : Z :=
  match find_slot (λ sp, s_dev sp =? dev) (supers s) NR_SUPERS with
  | Some sp => match supers s !! sp with Some r => s_block_size r | None => 0 end
  | None => MIN_BLOCK_SIZE
  end.

Lemma find_slot_Some {A} (f : A → bool) t n i :
  find_slot f t n = Some i → 0 ≤ i < n ∧ ∃ r, t !! i = Some r ∧ f r = true.
Proof.
  unfold find_slot. intros [Hin%list_elem_of_In%elem_of_zrange Hf]%find_some. split; [done|].
  destruct (t !! i) as [r|]; [eauto|done].
Qed.
Lemma find_slot_None {A} (f : A → bool) t n i r :
  find_slot f t n = None → 0 ≤ i < n → t !! i = Some r → f r = false.
Proof.
  unfold find_slot. intros Hn Hi Hr. eapply find_none in Hn; [|by apply list_elem_of_In, elem_of_zrange].
  cbn in Hn. by rewrite Hr in Hn.
Qed.

Lemma get_block_size_eq s dev : dev ≠ NO_DEV → get_block_size dev s = Ret (bsize s dev) s.
Proof.
  intros Hd. unfold get_block_size, bsize. rewrite (proj2 (Z.eqb_neq _ _)) by done. unfold get, bind.
  destruct (find_slot _ _ _) as [sp|] eqn:Hs; [|done].
  apply find_slot_Some in Hs as (_ & r & Hr & _). unfold getsp. cbn. by rewrite Hr.
Qed.

Section devices.
Context (geom : Z → option geometry).

(** Devices are distinct places, and positions on them fit a word. *)
Record geom_ok : Prop := {
  go_dev : geom NO_DEV = None;
  go_size dev g : geom dev = Some g → 0 < g_size g ∧ 0 ≤ g_blocks g ∧ g_blocks g * g_size g < 2 ^ 32;
  go_inj dev dev' g g' : geom dev = Some g → geom dev' = Some g' → g_driver g = g_driver g' →
    minor dev = minor dev' → dev = dev' }.

(** The tables of the server map the devices to their drivers and block sizes. *)
Definition env_ok (s : fsstate) : Prop := ∀ dev g, geom dev = Some g →
  dmap_driver s !! major dev = Some (g_driver g) ∧ g_driver g ≠ NONE ∧
  0 ≤ ENDPOINT_P (g_driver g) < NR_PROCS ∧
  fp_endpoint <$> fprocs s !! ENDPOINT_P (g_driver g) = Some (g_driver g) ∧ bsize s dev = g_size g.

Lemma env_rest s s' : rest s' = rest s → env_ok s → env_ok s'.
Proof.
  intros Hr He dev g Hg. unfold bsize. pose proof (f_equal supers Hr) as H1.
  pose proof (f_equal dmap_driver Hr) as H2. pose proof (f_equal fprocs Hr) as H3. cbn in H1, H2, H3.
  rewrite H1, H2, H3. by apply He.
Qed.

(** ** Contents *)
Definition cached (t : gmap Z buf) (dev n : Z) : option Z :=
  find_slot (λ r, (b_dev r =? dev) && (b_blocknr r =? n)) t NR_BUFS.
Definition on_disk (d : disks) (dev n o : Z) : Z :=
  match geom dev with Some g => d (g_driver g) (minor dev) (n * g_size g + o) | None => 0 end.
Definition blk (t : gmap Z buf) (d : disks) (dev n o : Z) : Z :=
  match cached t dev n with
  | Some b => match t !! b with Some r => b_data r o | None => 0 end
  | None => on_disk d dev n o
  end.

(** Block [n] of [dev], and the byte [o] of it, exist. *)
Definition within (dev n : Z) : Prop := ∃ g, geom dev = Some g ∧ 0 ≤ n < g_blocks g.
Definition inside (dev n o : Z) : Prop := ∃ g, geom dev = Some g ∧ 0 ≤ n < g_blocks g ∧ 0 ≤ o < g_size g.

(** The cache and the disks agree, but for the clean buffers in [E], which somebody
    uses and will overwrite. *)
Record data_ok (t : gmap Z buf) (d : disks) (E : gset Z) : Prop := {
  do_all : all_bufs t;
  do_count b r : t !! b = Some r → 0 ≤ b_count r ≤ 127;
  do_within b r : t !! b = Some r → b_dev r ≠ NO_DEV → within (b_dev r) (b_blocknr r);
  do_uniq dev n b c : dev ≠ NO_DEV → named t dev n b → named t dev n c → b = c;
  do_clean b r o : t !! b = Some r → b_dirt r ≠ DIRTY → b ∉ E → inside (b_dev r) (b_blocknr r) o →
    b_data r o = on_disk d (b_dev r) (b_blocknr r) o;
  do_pinned b r : t !! b = Some r → b ∈ E → 0 < b_count r }.

Definition same_blocks (t t' : gmap Z buf) (d d' : disks) : Prop :=
  ∀ dev n o, inside dev n o → blk t' d' dev n o = blk t d dev n o.

Lemma cached_named t dev n b : cached t dev n = Some b → named t dev n b.
Proof.
  intros (_ & r & Hr & [H1%Z.eqb_eq H2%Z.eqb_eq]%andb_true_iff)%find_slot_Some. by exists r.
Qed.
Lemma cached_None t dev n : all_bufs t → cached t dev n = None → ∀ b, ¬ named t dev n b.
Proof.
  intros Ha Hn b (r & Hr & Hd & Hb). eapply (find_slot_None _ _ _ b r) in Hn; [|by apply Ha; eexists|done].
  cbv beta in Hn. rewrite Hd, Hb, !Z.eqb_refl in Hn. done.
Qed.
Lemma blk_disk t d dev n o : (∀ b, ¬ named t dev n b) → blk t d dev n o = on_disk d dev n o.
Proof.
  intros Hno. unfold blk. destruct (cached t dev n) as [b|] eqn:Hc; [|done].
  by apply cached_named, Hno in Hc.
Qed.
Lemma blk_named t d E dev n o b r :
  data_ok t d E → t !! b = Some r → b_dev r = dev → b_blocknr r = n → dev ≠ NO_DEV →
  blk t d dev n o = b_data r o.
Proof.
  intros Hd Hr Hdev Hn Hne. unfold blk. destruct (cached t dev n) as [c|] eqn:Hc.
  - apply cached_named in Hc. assert (c = b) as ->; [|by rewrite Hr].
    eapply (do_uniq t d E); [done|done|done|]. by exists r.
  - exfalso. eapply cached_None; [apply Hd|done|]. by exists r.
Qed.

Lemma named_changed f t t' dev n b :
  changed f t t' → keeps b_dev f → keeps b_blocknr f → named t' dev n b ↔ named t dev n b.
Proof.
  intros Hc H1 H2. split.
  - intros (r' & (r & Hr & ->)%(changed_inv _ _ _ _ _ Hc) & Hd & Hn). exists r. by rewrite <-H1, <-H2.
  - intros (r & Hr & Hd & Hn). exists (f b r). split; [by eapply changed_Some|]. by rewrite H1, H2.
Qed.

Context (Hgeom : geom_ok).

Lemma inside_dev dev n o : inside dev n o → dev ≠ NO_DEV.
Proof. intros (g & Hg & _) ->. by rewrite (go_dev Hgeom) in Hg. Qed.
Lemma within_dev dev n : within dev n → dev ≠ NO_DEV.
Proof. intros (g & Hg & _) ->. by rewrite (go_dev Hgeom) in Hg. Qed.
Lemma inside_within dev n o : inside dev n o → within dev n.
Proof. intros (g & ? & ? & _). by exists g. Qed.

(** The contents of all blocks are kept by a change of the cache that keeps names and
    data, and of the disk that affects cached blocks only. *)
Lemma same_blocks_changed f t t' d d' E E' :
  changed f t t' → keeps b_dev f → keeps b_blocknr f → keeps b_data f → data_ok t d E →
  data_ok t' d' E' →
  (∀ dev n o, inside dev n o → (∀ b, ¬ named t dev n b) → on_disk d' dev n o = on_disk d dev n o) →
  same_blocks t t' d d'.
Proof.
  intros Hc H1 H2 H3 Hd Hd' Hdisk dev n o Hin. pose proof (inside_dev _ _ _ Hin).
  destruct (cached t dev n) as [b|] eqn:Hb.
  - apply cached_named in Hb as (r & Hr & Hdev & Hn).
    rewrite (blk_named t d E _ _ _ b r) by done.
    rewrite (blk_named t' d' E' _ _ _ b (f b r)); [apply (f_equal (λ x, x o)), H3|done|by eapply changed_Some| | |done].
    + by rewrite H1.
    + by rewrite H2.
  - pose proof (cached_None t dev n (do_all _ _ _ Hd) Hb) as Hno.
    rewrite !blk_disk; [by apply Hdisk|done|]. intros b. by rewrite (named_changed f t t').
Qed.

Lemma on_disk_eq d d' dev n o : disks_eq d d' → on_disk d dev n o = on_disk d' dev n o.
Proof. intros H. unfold on_disk. destruct (geom dev); [apply H|done]. Qed.

(** ** Writes to a disk *)

(** The bytes of a block after consecutive blocks have been written. *)
Lemma on_disk_scattered d dev g nr l dev' n o :
  geom dev = Some g → inside dev' n o →
  on_disk (scattered d (g_driver g) (minor dev) (g_size g) (nr * g_size g) l) dev' n o =
  if decide (dev' = dev ∧ nr ≤ n < nr + Z.of_nat (length l)) then
    match l !! Z.to_nat (n - nr) with Some (_, x) => x o | None => 0 end
  else on_disk d dev' n o.
Proof.
  intros Hg (g' & Hg' & Hn & Ho). unfold on_disk. rewrite Hg'. unfold scattered.
  pose proof (go_size Hgeom dev g Hg) as Hs.
  destruct (decide (dev' = dev)) as [->|Hne].
  - assert (g' = g) as -> by congruence. rewrite !Z.eqb_refl. cbn [andb].
    destruct (decide (dev = dev ∧ nr ≤ n < nr + Z.of_nat (length l))) as [[_ Hr]|Hr].
    + rewrite (proj2 (Z.leb_le _ _)) by nia. rewrite (proj2 (Z.ltb_lt _ _)) by nia. cbn [andb].
      replace (n * g_size g + o - nr * g_size g) with (o + (n - nr) * g_size g) by lia.
      rewrite Z.div_add, Z.mod_add, (Z.div_small o), (Z.mod_small o) by lia. done.
    + destruct (Z.leb_spec (nr * g_size g) (n * g_size g + o)) as [H1|H1]; [|done].
      destruct (Z.ltb_spec (n * g_size g + o) (nr * g_size g + g_size g * Z.of_nat (length l))) as [H2|H2]; [|done].
      exfalso. apply Hr. split; [done|]. nia.
  - rewrite decide_False by naive_solver.
    destruct (Z.eqb_spec (g_driver g') (g_driver g)) as [H1|]; [|done].
    destruct (Z.eqb_spec (minor dev') (minor dev)) as [H2|]; [|done].
    by rewrite (go_inj Hgeom dev' dev g' g) in Hne.
Qed.
End devices.

(** ** Drivers *)
Section io.
Context (geom : Z → option geometry) (Hgeom : geom_ok geom).
Context (task_io : Z → dev_req → Z → disks → dev_reply).

(** A driver that works reads and writes what it is asked to, in full, as long as it
    is asked for places of its device. *)
Record works : Prop := {
  w_read dev g pos n x k d : geom dev = Some g → 0 ≤ pos → 0 < n → pos + n ≤ g_blocks g * g_size g →
    let r := task_io (g_driver g) (DevReq DEV_READ (minor dev) pos FS_PROC_NR n 0 [(n, x)]) k d in
    dr_gone r = false ∧ dr_status r = n ∧ disks_eq (dr_disk r) d ∧
    ∃ sz y, dr_iov r = [(sz, y)] ∧ ∀ o, 0 ≤ o < n → y o = d (g_driver g) (minor dev) (pos + o);
  w_write dev g pos n x k d : geom dev = Some g → 0 ≤ pos → 0 < n → pos + n ≤ g_blocks g * g_size g →
    let r := task_io (g_driver g) (DevReq DEV_WRITE (minor dev) pos FS_PROC_NR n 0 [(n, x)]) k d in
    dr_gone r = false ∧ dr_status r = n ∧
    disks_eq (dr_disk r) (scattered d (g_driver g) (minor dev) n pos [(n, x)]);
  w_scatter dev g pos n l k d : geom dev = Some g → 0 ≤ pos → 0 < n →
    pos + n * Z.of_nat (length l) ≤ g_blocks g * g_size g → (length l ≤ Z.to_nat NR_IOREQS)%nat →
    Forall (λ e, e.1 = n) l →
    let r := task_io (g_driver g)
      (DevReq DEV_SCATTER (minor dev) pos FS_PROC_NR (Z.of_nat (length l)) 0 l) k d in
    dr_gone r = false ∧ dr_status r = OK ∧ length (dr_iov r) = length l ∧
    Forall (λ e, e.1 = 0) (dr_iov r) ∧
    disks_eq (dr_disk r) (scattered d (g_driver g) (minor dev) n pos l) }.

Lemma dev_io_spec s dev g op iov pos n (Q : Z * iovec → fsstate → Prop) :
  env_ok geom s → geom dev = Some g →
  let r := task_io (g_driver g) (DevReq op (minor dev) pos FS_PROC_NR n 0 iov) (io_count s) (disk s) in
  dr_gone r = false → dr_status r ≠ SUSPEND →
  Q (dr_status r, dr_iov r) (s.[disk := dr_disk r].[io_count := io_count s + 1]) →
  twp (dev_io task_io op dev FS_PROC_NR iov pos n 0) Q s.
Proof.
  intros He Hg r Hgone Hst HQ. destruct (He dev g Hg) as (Hd & Hnone & Hp & (rp & Hrp & Hfp)%fmap_Some & _).
  unfold dev_io. twpgo. apply (twp_of_option _ (g_driver g)); [done|].
  destruct (Z.eqb_spec (g_driver g) NONE); [done|]. unfold fs_isokendpt. twpgo.
  destruct (Z.ltb_spec (ENDPOINT_P (g_driver g)) 0); [lia|].
  destruct (Z.leb_spec NR_PROCS (ENDPOINT_P (g_driver g))); [lia|]. cbn [orb].
  twpgo. eapply twp_intro; [unfold getfp; by rewrite Hrp|].
  assert (fp_endpoint rp = g_driver g) as -> by done. rewrite Z.eqb_refl. cbn [negb]. twpgo.
  cbn [negb]. unfold call_task. cbn [Z.eqb negb]. rewrite Z.eqb_refl. cbn [negb]. twpgo.
  fold r. rewrite Hgone. cbn [when]. twpgo. apply (twp_of_option _ (g_driver g)); [done|].
  destruct (Z.eqb_spec (g_driver g) NONE); [done|]. destruct (Z.eqb_spec (dr_status r) SUSPEND); [done|]. by twpgo.
Qed.
End io.
