(* ===== verification/FsFlush.v ===== *)
(** * The block cache: transfers

    [rw_block] and [flushall] on a disk that works: no block changes its contents,
    and what was to be written is; and the Shell sort of [rw_scattered], which orders the
    buffers by block number and keeps all of them. *)
From stdpp Require Import base gmap list numbers strings.
From Stdlib Require Import ZArith Lia.
From S2P Require Import Prelude.
From S2P Require Import Chains.
From S2P Require Import KTypes.
From S2P Require Import FsTypes.
From S2P Require Import FsCache.
From S2P Require Import FsCacheInv.
From S2P Require Import FsHash.
From S2P Require Import FsIo.

Section shell.
Context (key : Z → Z).

(** ** A permutation *)
Definition swap_index (i j k : nat) : nat :=
  if decide (k = i) then j else if decide (k = j) then i else k.

Lemma swap_permutation (q : list Z) i j x y :
  q !! i = Some x → q !! j = Some y → <[i := y]> (<[j := x]> q) ≡ₚ q.
Proof.
  intros Hi Hj. apply Permutation_inj. split; [by rewrite !length_insert|].
  exists (swap_index i j). split.
  - intros a b. unfold swap_index. repeat case_decide; congruence.
  - intros k. unfold swap_index. pose proof (lookup_lt_Some _ _ _ Hi). pose proof (lookup_lt_Some _ _ _ Hj).
    destruct (decide (k = i)) as [->|].
    + by rewrite list_lookup_insert_eq by by rewrite length_insert.
    + rewrite list_lookup_insert_ne by done. destruct (decide (k = j)) as [->|].
      * by rewrite list_lookup_insert_eq.
      * by rewrite list_lookup_insert_ne.
Qed.

Lemma aget_lookup {A} (l : list A) i x : aget l i = Some x ↔ 0 ≤ i ∧ l !! Z.to_nat i = Some x.
Proof. unfold aget. destruct (Z.leb_spec 0 i); split; naive_solver lia. Qed.

Lemma sift_permutation fuel gap i q : sift key fuel gap i q ≡ₚ q.
Proof.
  revert i q. induction fuel as [|fuel IH]; intros i q; cbn [sift]; [done|].
  destruct (aget q i) as [x|] eqn:Hx; [|done]. destruct (aget q (i + gap)) as [y|] eqn:Hy; [|done].
  destruct (_ <? _); [|done]. rewrite IH. apply aget_lookup in Hx as [_ Hx], Hy as [_ Hy].
  by apply swap_permutation.
Qed.

Lemma pass_permutation gap q : pass key gap q ≡ₚ q.
Proof.
  unfold pass. generalize (zrange gap (Z.of_nat (length q))). intros l. revert q.
  induction l as [|j l IH]; intros q; cbn [foldl]; [done|]. by rewrite IH, sift_permutation.
Qed.

Lemma passes_permutation fuel gap q : passes key fuel gap q ≡ₚ q.
Proof.
  revert gap q. induction fuel as [|fuel IH]; intros gap q; cbn [passes]; [done|].
  destruct (_ =? _); [done|]. by rewrite IH, pass_permutation.
Qed.

Lemma shell_permutation q : shell_sort key q ≡ₚ q.
Proof. apply passes_permutation. Qed.

(** ** Sorted *)

(** The first [n] elements are in order, but for pairs whose second is at [p]. *)
Definition ordered_but (q : list Z) (n p : nat) : Prop :=
  ∀ a b x y, (a < b < n)%nat → b ≠ p → q !! a = Some x → q !! b = Some y → key x ≤ key y.
Definition ordered (q : list Z) (n : nat) : Prop :=
  ∀ a b x y, (a < b < n)%nat → q !! a = Some x → q !! b = Some y → key x ≤ key y.

Lemma sift_ordered fuel q n p :
  (p < n)%nat → (n <= length q)%nat → (p <= fuel)%nat → ordered_but q n p →
  ordered (sift key fuel 1 (Z.of_nat p - 1) q) n.
Proof.
  revert q p. induction fuel as [|fuel IH]; intros q p Hpn Hn Hf Ho; cbn [sift].
  - intros a b x y Hab. apply Ho; lia.
  - destruct p as [|p].
    { replace (aget q _) with (@None Z) by by unfold aget. intros a b x y Hab. apply Ho; lia. }
    replace (Z.of_nat (Datatypes.S p) - 1) with (Z.of_nat p) by lia.
    replace (Z.of_nat p + 1) with (Z.of_nat (Datatypes.S p)) by lia.
    destruct (lookup_lt_is_Some_2 q p) as [x Hx]; [lia|].
    destruct (lookup_lt_is_Some_2 q (Datatypes.S p)) as [y Hy]; [lia|].
    rewrite (proj2 (aget_lookup q (Z.of_nat p) x)) by (split; [lia|by rewrite Nat2Z.id]).
    rewrite (proj2 (aget_lookup q (Z.of_nat (Datatypes.S p)) y)) by (split; [lia|by rewrite Nat2Z.id]).
    destruct (Z.ltb_spec (key y) (key x)) as [Hlt|Hge].
    + rewrite !Nat2Z.id. apply IH; [lia|by rewrite !length_insert|lia|].
      intros a b u v Hab Hbp. rewrite !list_lookup_insert, !length_insert.
      repeat case_decide; intros; simplify_eq; try lia; try (eapply Ho; [..|eassumption|eassumption]; lia).
    + intros a b u v Hab Hu Hv. destruct (decide (b = Datatypes.S p)) as [->|]; [|by eapply (Ho a b)].
      assert (v = y) as -> by congruence. destruct (decide (a = p)) as [->|]; [by assert (u = x) as -> by congruence|].
      transitivity (key x); [|done]. by eapply (Ho a p); [lia|lia|..].
Qed.

Lemma pass_ordered q : ordered (pass key 1 q) (length q).
Proof.
  unfold pass. set (n := length q).
  assert (H : ∀ m q, (m <= n)%nat → length q = n → ordered q (n - m) →
    ordered (foldl (λ q j, sift key (length q) 1 (j - 1) q) q (map Z.of_nat (seq (n - m) m))) n).
  { intros m. induction m as [|m IH]; intros l Hm Hl Ho; cbn [seq map foldl].
    - by replace (n - 0)%nat with n in Ho by lia.
    - replace (Datatypes.S (n - Datatypes.S m)) with (n - m)%nat by lia.
      pose proof (sift_permutation (length l) 1 (Z.of_nat (n - Datatypes.S m) - 1) l) as Hp.
      apply IH; [lia|by rewrite Hp|].
      apply sift_ordered; [lia|lia|lia|]. intros a b x y Hab Hb. apply Ho. lia. }
  destruct (decide (n = 0)%nat) as [H0|H0]; [rewrite H0; intros a b x y Hab; lia|].
  replace (zrange 1 (Z.of_nat n)) with (map Z.of_nat (seq (n - (n - 1)) (n - 1))).
  - apply H; [lia|done|]. intros a b x y Hab. lia.
  - unfold zrange. replace (n - (n - 1))%nat with 1%nat by lia.
    replace (Z.to_nat (Z.of_nat n - 1)) with (n - 1)%nat by lia.
    rewrite <-seq_shift, map_map. apply map_ext. intros i. lia.
Qed.

(** The gaps: 1, 4, 13, 40, ... *)
Fixpoint gap_no (k : nat) : Z := match k with O => 1 | Datatypes.S k => 3 * gap_no k + 1 end.

Lemma gap_pos k : 1 ≤ gap_no k.
Proof. induction k; cbn [gap_no]; lia. Qed.

Lemma first_gap_no fuel k n : ∃ m, (0 < m ≤ Nat.max 1 fuel)%nat ∧
  (fuel ≠ 0%nat → first_gap fuel (gap_no k) n = gap_no (k + m)).
Proof.
  revert k. induction fuel as [|fuel IH]; intros k; [exists 1%nat; split; [lia|done]|].
  cbn [first_gap]. change (3 * gap_no k + 1) with (gap_no (Datatypes.S k)).
  destruct (gap_no (Datatypes.S k) <=? n).
  - destruct fuel as [|fuel]; [exists 1%nat; split; [lia|intros _; cbn [first_gap]; f_equal; lia]|].
    destruct (IH (Datatypes.S k)) as (m & Hm & Heq). exists (Datatypes.S m). split; [lia|].
    intros _. rewrite Heq by done. f_equal. lia.
  - exists 1%nat. split; [lia|]. intros _. f_equal. lia.
Qed.

Lemma passes_ordered fuel k q : (0 < k ≤ fuel)%nat → ordered (passes key fuel (gap_no k) q) (length q).
Proof.
  revert k q. induction fuel as [|fuel IH]; intros k q Hk; [lia|]. cbn [passes].
  destruct k as [|k]; [lia|]. pose proof (gap_pos k). destruct (Z.eqb_spec (gap_no (Datatypes.S k)) 1) as [H1|_].
  { cbn [gap_no] in H1. lia. }
  assert (gap_no (Datatypes.S k) ÷ 3 = gap_no k) as ->.
  { cbn [gap_no]. rewrite Z.quot_div_nonneg by lia. symmetry. apply Z.div_unique with 1; lia. }
  destruct k as [|k].
  - change (gap_no 0) with 1. destruct fuel as [|fuel]; cbn [passes]; apply pass_ordered.
  - pose proof (Permutation_length (pass_permutation (gap_no (Datatypes.S k)) q)) as <-. apply IH. lia.
Qed.

Lemma shell_ordered q : ordered (shell_sort key q) (length q).
Proof.
  unfold shell_sort. destruct (first_gap_no gap_fuel 0 (Z.of_nat (length q))) as (m & Hm & Heq).
  change (first_gap gap_fuel 1) with (first_gap gap_fuel (gap_no 0)). rewrite Heq by done. apply passes_ordered. unfold gap_fuel in *. cbn in *. lia.
Qed.
End shell.

(** The order of buffers by their keys. *)
Definition by_key (key : Z → Z) : relation Z := λ a b, key a ≤ key b.
#[export] Instance by_key_dec key a b : Decision (by_key key a b) := Z.le_dec (key a) (key b).
#[export] Instance by_key_total key : Total (by_key key).
Proof. intros a b. unfold by_key. lia. Qed.
#[export] Instance by_key_trans key : Transitive (by_key key).
Proof. intros a b c. unfold by_key. lia. Qed.

Section flush.
Context (geom : Z → option geometry) (Hgeom : geom_ok geom).
Context (task_io : Z → dev_req → Z → disks → dev_reply) (Hworks : works geom task_io).

#[local] Abbreviation data_ok := (data_ok geom).
#[local] Abbreviation on_disk := (on_disk geom).
#[local] Abbreviation inside := (inside geom).

Lemma data_ok_changed f t t' d d' E E' :
  data_ok t d E → changed f t t' → keeps b_dev f → keeps b_blocknr f → keeps b_count f → E' ⊆ E →
  (∀ b r o, t !! b = Some r → b_dirt (f b r) ≠ DIRTY → b ∉ E' → inside (b_dev r) (b_blocknr r) o →
     b_data (f b r) o = on_disk d' (b_dev r) (b_blocknr r) o) →
  data_ok t' d' E'.
Proof.
  intros Hd Hc H1 H2 H3 HE Hcl. split.
  - eapply all_bufs_changed; [done|apply Hd].
  - intros b r' (r & Hr & ->)%(changed_inv _ _ _ _ _ Hc). rewrite H3. by eapply do_count.
  - intros b r' (r & Hr & ->)%(changed_inv _ _ _ _ _ Hc). rewrite H1, H2. by eapply do_within.
  - intros dev n b c Hne. rewrite !(named_changed f t t') by done. by eapply do_uniq.
  - intros b r' o (r & Hr & ->)%(changed_inv _ _ _ _ _ Hc). rewrite H1, H2. by apply Hcl.
  - intros b r' (r & Hr & ->)%(changed_inv _ _ _ _ _ Hc) Hb. rewrite H3. eapply do_pinned; [done..|by apply HE].
Qed.

(** ** One block *)
Lemma rw_block_read s b r E (Q : Z → fsstate → Prop) :
  env_ok geom s → data_ok (bufs s) (disk s) E → bufs s !! b = Some r → b_dev r ≠ NO_DEV →
  (∀ y t d k, changed (upd (Some b) (λ r, r.[b_data := y].[b_dirt := CLEAN])) (bufs s) t →
     disks_eq d (disk s) →
     (∀ o, inside (b_dev r) (b_blocknr r) o → y o = on_disk (disk s) (b_dev r) (b_blocknr r) o) →
     Q OK (s.[bufs := t].[disk := d].[io_count := k])) →
  twp (rw_block task_io (Some b) READING) Q s.
Proof.
  intros He Hd Hr Hne HQ. destruct (do_within _ _ _ _ Hd b r Hr Hne) as (g & Hg & Hn).
  pose proof (go_size _ Hgeom _ g Hg) as Hs. destruct (He _ g Hg) as (_ & _ & _ & _ & Hbs).
  unfold rw_block. apply twp_bind, (twp_getb _ r); [done|]. apply twp_bind.
  eapply twp_intro; [by apply get_block_size_eq|]. rewrite Hbs. twpgo.
  rewrite (proj2 (Z.eqb_neq _ _)) by done. cbn [negb when]. twpgo.
  rewrite u32_id by nia. change (READING =? READING) with true. cbn iota.
  destruct (w_read _ _ Hworks (b_dev r) g (b_blocknr r * g_size g) (g_size g) (b_data r) (io_count s) (disk s))
    as (Hgone & Hst & Hdisk & sz & y & Hiov & Hy); [done|nia|lia|nia|].
  eapply dev_io_spec; [done|done|done|rewrite Hst; unfold SUSPEND; lia|]. rewrite Hst, Hiov. cbv iota.
  cbn [when]. twpgo. apply twp_putb; [by eexists|]. rewrite Z.eqb_refl. cbn [negb when]. twpgo.
  apply twp_putb; [by apply is_Some_modb; eexists|]. apply (HQ y (modb (Some b) (λ r, r.[b_dirt := CLEAN]) (modb (Some b) (λ r, r.[b_data := y]) (bufs s)))); [|done|].
  - eapply changed_ext; [|eapply changed_trans; apply changed_modb]. intros c x.
    destruct (decide (c = b)) as [->|]; [by rewrite !upd_eq|by rewrite !upd_ne by congruence].
  - intros o (g' & Hg' & _ & Ho). simplify_eq. unfold FsIo.on_disk. rewrite Hg. by apply Hy.
Qed.

Lemma rw_block_write s b r E (Q : Z → fsstate → Prop) :
  env_ok geom s → data_ok (bufs s) (disk s) E → bufs s !! b = Some r → b_dev r ≠ NO_DEV →
  (∀ t d k, changed (upd (Some b) (λ r, r.[b_dirt := CLEAN])) (bufs s) t →
     (∀ dev n o, inside dev n o → on_disk d dev n o =
        if decide (dev = b_dev r ∧ n = b_blocknr r) then b_data r o else on_disk (disk s) dev n o) →
     Q OK (s.[bufs := t].[disk := d].[io_count := k])) →
  twp (rw_block task_io (Some b) WRITING) Q s.
Proof.
  intros He Hd Hr Hne HQ. destruct (do_within _ _ _ _ Hd b r Hr Hne) as (g & Hg & Hn).
  pose proof (go_size _ Hgeom _ g Hg) as Hs. destruct (He _ g Hg) as (_ & _ & _ & _ & Hbs).
  unfold rw_block. apply twp_bind, (twp_getb _ r); [done|]. apply twp_bind.
  eapply twp_intro; [by apply get_block_size_eq|]. rewrite Hbs. twpgo.
  rewrite (proj2 (Z.eqb_neq _ _)) by done. cbn [negb when]. twpgo.
  rewrite u32_id by nia. change (WRITING =? READING) with false. cbn iota.
  destruct (w_write _ _ Hworks (b_dev r) g (b_blocknr r * g_size g) (g_size g) (b_data r) (io_count s) (disk s))
    as (Hgone & Hst & Hdisk); [done|nia|lia|nia|].
  eapply dev_io_spec; [done|done|done|rewrite Hst; unfold SUSPEND; lia|]. rewrite Hst. cbv iota.
  twpgo. destruct (dr_iov _) as [|[sz y] iov]; cbn [when]; twpgo.
  all: rewrite Z.eqb_refl; cbn [negb when]; twpgo; apply twp_putb; [by eexists|].
  all: apply (HQ (modb (Some b) (λ r, r.[b_dirt := CLEAN]) (bufs s))); [apply changed_modb|]; intros dev n o Hin.
  all: rewrite (on_disk_eq _ _ _ _ _ _ Hdisk), on_disk_scattered by done; cbn [length].
  all: destruct (decide (dev = b_dev r ∧ n = b_blocknr r)) as [[-> ->]|Hd'];
    [rewrite decide_True by lia; by rewrite Z.sub_diag|rewrite decide_False; [done|lia]].
Qed.

(** ** The requests of [flushall] *)
Lemma is_dirty_true t dev b :
  is_dirty t dev b = true ↔ ∃ r, t !! b = Some r ∧ b_dirt r = DIRTY ∧ b_dev r = dev.
Proof.
  unfold is_dirty. destruct (t !! b) as [r|]; [|naive_solver].
  rewrite andb_true_iff, !Z.eqb_eq. naive_solver.
Qed.

Lemma run_from_prefix t n nr q : run_from t n nr q `prefix_of` q.
Proof.
  revert nr q. induction n as [|n IH]; intros nr q; [apply prefix_nil|].
  destruct q as [|b q]; [done|]. cbn [run_from]. destruct (_ =? _); [|apply prefix_nil]. apply prefix_cons, IH.
Qed.
Lemma run_from_length t n nr q : (length (run_from t n nr q) ≤ n)%nat.
Proof.
  revert nr q. induction n as [|n IH]; intros nr q; [done|]. destruct q as [|b q]; cbn [run_from length]; [lia|].
  destruct (_ =? _); cbn [length]; [|lia]. specialize (IH (u32 (nr + 1)) q). lia.
Qed.
Lemma run_from_lookup t n nr q i b :
  (∀ b, b ∈ q → 0 ≤ blocknr_in t b < 2 ^ 32 - 1) → run_from t n nr q !! i = Some b →
  blocknr_in t b = nr + Z.of_nat i.
Proof.
  revert nr q i. induction n as [|n IH]; intros nr q i Hq Hi; [done|]. destruct q as [|c q]; [done|].
  cbn [run_from] in Hi. destruct (Z.eqb_spec (blocknr_in t c) nr) as [Hc|]; [|done].
  pose proof (Hq c ltac:(by left)) as Hr. destruct i as [|i]; cbn in Hi; [injection Hi as <-; lia|].
  apply IH in Hi; [|intros; apply Hq; by right]. rewrite Hi, u32_id; lia.
Qed.

Definition cleaned (l : list Z) (c : Z) (r : buf) : buf := if decide (c ∈ l) then r.[b_dirt := CLEAN] else r.

Lemma cleaned_keeps {A} (g : buf → A) l : (∀ r, g (r.[b_dirt := CLEAN]) = g r) → keeps g (cleaned l).
Proof. intros H c r. unfold cleaned. case_decide; [apply H|done]. Qed.
Lemma cleaned_cons b l c r : b ∉ l → cleaned l c (upd (Some b) (λ r, r.[b_dirt := CLEAN]) c r) = cleaned (b :: l) c r.
Proof.
  intros Hb. unfold cleaned. destruct (decide (c = b)) as [->|Hne].
  - rewrite upd_eq. rewrite decide_False by done. by rewrite decide_True by by left.
  - rewrite upd_ne by congruence. do 2 case_decide; set_solver.
Qed.

Lemma harvest_written dev r i q iov s :
  NoDup q → (∀ b, b ∈ q → is_Some (bufs s !! b)) → length iov = length q → Forall (λ e, e.1 = 0) iov →
  twp (harvest task_io dev WRITING r i q iov) (λ j s', j = i + Z.of_nat (length q) ∧
    ∃ t, s' = s.[bufs := t] ∧ changed (cleaned q) (bufs s) t) s.
Proof.
  revert i iov s. induction q as [|b q IH]; intros i iov s Hnd Hq Hlen Hz.
  { split; [cbn; lia|]. exists (bufs s). split; [done|]. intros c. by destruct (bufs s !! c). }
  destruct iov as [|[sz y] iov]; [done|]. cbn [harvest]. apply Forall_cons in Hz as [Hsz Hz]. cbn in Hsz.
  rewrite Hsz. cbn [Z.eqb negb]. apply NoDup_cons in Hnd as [Hb Hnd].
  change (WRITING =? READING) with false. cbn iota. apply twp_bind, twp_putb; [apply Hq; by left|].
  eapply twp_mono; [apply IH|]; [done| |by injection Hlen|done|].
  - intros c Hc. apply is_Some_modb, Hq. by right.
  - intros j s' (-> & t & -> & Ht). change (bufs (s.[bufs := ?x])) with x in Ht. split; [cbn [length]; lia|]. exists t. split; [done|].
    eapply changed_ext; [|eapply changed_trans; [apply changed_modb|apply Ht]]. intros c x. symmetry. by apply cleaned_cons.
Qed.

(** What one request writes. *)
Section batch.
Context (s : fsstate) (E : gset Z) (dev : Z) (g : geometry) (q : list Z) (b0 : Z).
Context (He : env_ok geom s) (Hd : data_ok (bufs s) (disk s) E) (Hg : geom dev = Some g).
Context (Hq : ∀ b, b ∈ q → is_dirty (bufs s) dev b = true) (Hnd : NoDup q) (Hhd : head q = Some b0).

#[local] Abbreviation nr := (blocknr_in (bufs s) b0).
#[local] Abbreviation batch := (run_from (bufs s) (Z.to_nat NR_IOREQS) nr q).
#[local] Abbreviation iov := (map (λ b, (g_size g, match bufs s !! b with Some r => b_data r | None => λ _, 0 end)) batch).
#[local] Abbreviation after := (scattered (disk s) (g_driver g) (minor dev) (g_size g) (nr * g_size g) iov).

Lemma batch_q b : b ∈ batch → b ∈ q.
Proof. destruct (run_from_prefix (bufs s) (Z.to_nat NR_IOREQS) nr q) as [k Hk]. rewrite Hk at 2. set_solver. Qed.
Lemma batch_nodup : NoDup batch.
Proof.
  pose proof Hnd as H. destruct (run_from_prefix (bufs s) (Z.to_nat NR_IOREQS) nr q) as [k Hk].
  rewrite Hk in H. by apply NoDup_app in H as [? _].
Qed.
Lemma q_buf b : b ∈ q → ∃ r, bufs s !! b = Some r ∧ b_dirt r = DIRTY ∧ b_dev r = dev ∧
  blocknr_in (bufs s) b = b_blocknr r ∧ 0 ≤ b_blocknr r < g_blocks g.
Proof.
  intros (r & Hr & H1 & H2)%Hq%is_dirty_true. exists r. split; [done|]. split; [done|]. split; [done|].
  unfold blocknr_in. rewrite Hr. split; [done|].
  destruct (do_within _ _ _ _ Hd b r Hr) as (g' & Hg' & Hn); [|rewrite H2 in Hg'; congruence].
  rewrite H2. intros ->. by rewrite (go_dev _ Hgeom) in Hg.
Qed.
Lemma batch_lookup i b : batch !! i = Some b → blocknr_in (bufs s) b = nr + Z.of_nat i.
Proof.
  apply run_from_lookup. intros c (r & _ & _ & _ & -> & Hn)%q_buf.
  pose proof (go_size _ Hgeom dev g Hg). nia.
Qed.
Lemma batch_first : ∃ l, batch = b0 :: l.
Proof.
  clear He Hd Hq Hnd. destruct q as [|b l]; [done|]. injection Hhd as ->. change (Z.to_nat NR_IOREQS) with 64%nat. cbn [run_from].
  rewrite Z.eqb_refl. eauto.
Qed.

Lemma after_batch b r o :
  b ∈ batch → bufs s !! b = Some r → inside (b_dev r) (b_blocknr r) o →
  on_disk after (b_dev r) (b_blocknr r) o = b_data r o.
Proof.
  intros Hb Hr Hin. pose proof (batch_q b Hb) as (r' & Hr' & _ & Hdev & Hn & _)%q_buf. assert (r' = r) as -> by congruence.
  apply list_elem_of_lookup in Hb as [i Hi]. pose proof (batch_lookup i b Hi) as Hnr.
  rewrite Hdev in Hin |- *. rewrite on_disk_scattered by done. pose proof (lookup_lt_Some _ _ _ Hi). rewrite decide_True.
  2:{ rewrite length_map. lia. }
  replace (Z.to_nat (b_blocknr r - nr)) with i by lia. rewrite list_lookup_fmap, Hi. cbn. by rewrite Hr.
Qed.
Lemma after_other dev' n o :
  (∀ b, b ∈ batch → ¬ named (bufs s) dev' n b) → inside dev' n o →
  on_disk after dev' n o = on_disk (disk s) dev' n o.
Proof.
  intros Hno Hin. rewrite on_disk_scattered by done. case_decide as Hr; [|done]. destruct Hr as [-> Hr].
  exfalso. rewrite length_map in Hr.
  destruct (lookup_lt_is_Some_2 batch (Z.to_nat (n - nr))) as [b Hb]; [lia|].
  pose proof (batch_lookup _ _ Hb) as Hnr. apply list_elem_of_lookup_2 in Hb. apply (Hno b Hb).
  apply batch_q in Hb as (r & Hbr & _ & Hdev & Hn & _)%q_buf. exists r. split; [done|]. split; [done|]. lia.
Qed.

Lemma batch_ok t d : changed (cleaned batch) (bufs s) t → disks_eq d after →
  data_ok t d E ∧ same_blocks geom (bufs s) t (disk s) d.
Proof.
  intros Hc Hdd. assert (Hdo : data_ok t d E).
  { eapply (data_ok_changed (cleaned batch)); [done|done|by apply cleaned_keeps..|done|]. intros b r o Hr Hdirt HbE Hin.
    assert (b_data (cleaned batch b r) = b_data r) as -> by by apply (cleaned_keeps b_data).
    rewrite (on_disk_eq _ _ _ _ _ _ Hdd). unfold cleaned in Hdirt. case_decide as Hb.
    - symmetry. by apply (after_batch b).
    - rewrite after_other; [by eapply do_clean| |done]. intros c Hcb Hnc. apply Hb.
      assert (b = c) as ->; [|done]. eapply (do_uniq _ _ _ _ Hd); [by eapply inside_dev|by exists r|done]. }
  split; [done|]. eapply (same_blocks_changed _ Hgeom (cleaned batch)); [done|by apply cleaned_keeps..|done|done|].
  intros dev' n o Hin Hno. rewrite (on_disk_eq _ _ _ _ _ _ Hdd). apply after_other; [|done]. intros b _. apply Hno.
Qed.

Lemma transfer_spec (Q : list Z + unit → fsstate → Prop) :
  (∀ t d k, changed (cleaned batch) (bufs s) t → data_ok t d E → same_blocks geom (bufs s) t (disk s) d →
     Q (inl (drop (length batch) q)) (s.[bufs := t].[disk := d].[io_count := k])) →
  twp (transfer task_io dev WRITING (g_size g) q) Q s.
Proof.
  intros HQ. destruct batch_first as [bl Hbl]. unfold transfer.
  replace q with (b0 :: tail q) at 1 by (destruct q; [done|by injection Hhd as ->]). twpgo.
  change (WRITING =? WRITING) with true. cbn [negb when].
  assert (Hlast : (nr + Z.of_nat (length batch)) * g_size g ≤ g_blocks g * g_size g ∧ 0 ≤ nr).
  { destruct (lookup_lt_is_Some_2 batch (length batch - 1)) as [b Hb]; [rewrite Hbl; cbn [length]; lia|].
    pose proof (batch_lookup _ _ Hb) as Hnr. apply list_elem_of_lookup_2 in Hb. apply batch_q in Hb.
    apply q_buf in Hb as (r & _ & _ & _ & Hn & Hr). rewrite Hbl in Hnr |- *. cbn [length] in *.
    pose proof (go_size _ Hgeom dev g Hg). split; [nia|].
    assert (b0 ∈ q) as (r0 & _ & _ & _ & -> & ?)%q_buf; [|lia]. destruct q; [done|]. injection Hhd as ->. by left. }
  pose proof (go_size _ Hgeom dev g Hg) as Hs. rewrite u32_id by (rewrite Hbl in Hlast; cbn [length] in Hlast; nia).
  destruct (w_scatter _ _ Hworks dev g (nr * g_size g) (g_size g) iov (io_count s) (disk s))
    as (Hgone & Hst & Hlen & Hz & Hdisk); [done|nia|lia|rewrite length_map; nia| |by apply Forall_map, Forall_forall|].
  { rewrite length_map. apply run_from_length. }
  rewrite length_map in Hgone, Hst, Hlen, Hz, Hdisk.
  eapply dev_io_spec; [done|done|done|by rewrite Hst|]. rewrite Hst. cbv iota. twpgo.
  eapply twp_mono.
  { apply harvest_written; [apply batch_nodup| |done|done]. intros b (r & Hr & _)%batch_q%q_buf. by eexists. }
  intros j s' (-> & t & -> & Ht). change (changed (cleaned batch) (bufs s) t) in Ht. rewrite Z.add_0_l, Nat2Z.id.
  change (WRITING =? READING) with false. cbn [andb].
  rewrite (proj2 (Z.eqb_neq _ _)) by (rewrite Hbl; cbn [length]; lia). twpgo.
  destruct (batch_ok t _ Ht Hdisk) as [H1 H2]. by apply (HQ t _ (io_count s + 1)).
Qed.
End batch.

(** ** [flushall] *)
Lemma cleaned_app l1 l2 c r : cleaned l2 c (cleaned l1 c r) = cleaned (l1 ++ l2) c r.
Proof. unfold cleaned. repeat case_decide; try done; set_solver. Qed.

Lemma dirty_cleaned l t t' dev b :
  changed (cleaned l) t t' → is_dirty t' dev b = true ↔ is_dirty t dev b = true ∧ b ∉ l.
Proof.
  intros Hc. rewrite !is_dirty_true. split.
  - intros (r' & (r & Hr & ->)%(changed_inv _ _ _ _ _ Hc) & H1 & H2). unfold cleaned in *.
    case_decide; [by cbn in H1|]. split; [by exists r|done].
  - intros ((r & Hr & H1 & H2) & Hb). exists r. split; [|done]. rewrite Hc, Hr. unfold cleaned. cbn.
    by rewrite decide_False.
Qed.

(** What a flush has done: the buffers in [l] are clean, and no contents changed. *)
Definition flushed (E : gset Z) (s s' : fsstate) (l : list Z) : Prop := ∃ t d k,
  s' = s.[bufs := t].[disk := d].[io_count := k] ∧ changed (cleaned l) (bufs s) t ∧
  data_ok t d E ∧ same_blocks geom (bufs s) t (disk s) d.

Lemma same_blocks_trans t t' t'' d d' d'' :
  same_blocks geom t t' d d' → same_blocks geom t' t'' d' d'' → same_blocks geom t t'' d d''.
Proof. intros H1 H2 dev n o Hin. by rewrite H2, H1. Qed.

Lemma flushed_refl E s : data_ok (bufs s) (disk s) E → flushed E s s [].
Proof.
  intros Hd. exists (bufs s), (disk s), (io_count s). split; [done|]. split; [|done].
  intros c. by destruct (bufs s !! c).
Qed.
Lemma flushed_trans E s s' s'' l l' : flushed E s s' l → flushed E s' s'' l' → flushed E s s'' (l ++ l').
Proof.
  intros (t & d & k & -> & Hc & Hd & Hs) (t' & d' & k' & -> & Hc' & Hd' & Hs'). exists t', d', k'.
  split; [done|]. split; [|split; [done|by eapply same_blocks_trans]].
  eapply changed_ext; [|by eapply changed_trans]. intros c r. symmetry. apply cleaned_app.
Qed.
Lemma flushed_env E s s' l : flushed E s s' l → env_ok geom s → env_ok geom s'.
Proof. intros (t & d & k & -> & _). by apply env_rest. Qed.

Lemma rw_scattered_spec s E dev g (q0 q : list Z) (Q : unit → fsstate → Prop) :
  geom dev = Some g → env_ok geom s → data_ok (bufs s) (disk s) E →
  NoDup q → (∀ b, b ∈ q ↔ is_dirty (bufs s) dev b = true) → (length q ≤ length q0)%nat →
  (∀ s' l, flushed E s s' l → (∀ b, b ∈ l ↔ is_dirty (bufs s) dev b = true) → Q tt s') →
  twp (loop (Datatypes.S (length q0)) (transfer task_io dev WRITING (g_size g)) q) Q s.
Proof.
  intros Hg He Hd Hnd Hq Hlen HQ.
  apply (twp_loop_measure (λ q s', ∃ l, flushed E s s' l ∧ NoDup q ∧
    (∀ b, b ∈ q ↔ is_dirty (bufs s') dev b = true) ∧ ∀ b, b ∈ l → is_dirty (bufs s) dev b = true) length); [lia| |].
  { exists []. split; [by apply flushed_refl|]. split; [done|]. split; [done|]. intros b Hb. by apply elem_of_nil in Hb. }
  clear q Hnd Hq Hlen. intros q s' (l & Hf & Hnd & Hq & Hl).
  assert (Hbl : ∀ b, is_dirty (bufs s') dev b = true ↔ is_dirty (bufs s) dev b = true ∧ b ∉ l).
  { destruct Hf as (t & d & k & -> & Hc & _). intros b. by apply dirty_cleaned. }
  destruct q as [|b0 q].
  { cbn [transfer]. apply twp_ret. apply (HQ s' l); [done|]. intros b. split; [apply Hl|]. intros Hb.
    destruct (decide (b ∈ l)) as [|Hn]; [done|]. exfalso. by apply (elem_of_nil b), Hq, Hbl. }
  pose proof Hf as (t & d & k & Hs' & _ & Hd' & _).
  assert (Hd2 : data_ok (bufs s') (disk s') E) by by rewrite Hs'. clear Hs' Hd'.
  destruct (batch_first s' (b0 :: q) b0) as [bl Hbatch]; [done|].
  apply (transfer_spec s' E dev g (b0 :: q) b0);
    [by eapply flushed_env|done|done|intros b; by rewrite <-Hq|done|done|].
  intros t' d' k' Hc Hdt Hsb. set (batch := run_from _ _ _ _) in *. split.
  2:{ rewrite length_drop, Hbatch. cbn [length]. lia. }
  destruct (run_from_prefix (bufs s') (Z.to_nat NR_IOREQS) (blocknr_in (bufs s') b0) (b0 :: q)) as [tl Htl].
  fold batch in Htl. rewrite Htl in Hnd, Hq |- *. rewrite drop_app_length.
  apply NoDup_app in Hnd as (Hn1 & Hx & Hn2). exists (l ++ batch). split; [|split; [done|split]].
  - eapply flushed_trans; [done|]. by exists t', d', k'.
  - intros b. change (bufs _) with t'. rewrite (dirty_cleaned batch (bufs s') t') by done. rewrite <-Hq, elem_of_app.
    specialize (Hx b). naive_solver.
  - intros b [Hb|Hb]%elem_of_app; [by apply Hl|]. apply Hbl, Hq, elem_of_app. by left.
Qed.

Lemma flushall_spec s E dev (Q : unit → fsstate → Prop) :
  is_Some (geom dev) → env_ok geom s → data_ok (bufs s) (disk s) E →
  (∀ s' l, flushed E s s' l → (∀ b, b ∈ l ↔ is_dirty (bufs s) dev b = true) → Q tt s') →
  twp (flushall task_io dev) Q s.
Proof.
  intros [g Hg] He Hd HQ. unfold flushall. twpgo. unfold rw_scattered. apply twp_bind.
  eapply twp_intro; [apply get_block_size_eq; intros ->; by rewrite (go_dev _ Hgeom) in Hg|].
  destruct (He dev g Hg) as (_ & _ & _ & _ & ->). twpgo.
  set (q0 := filter _ _). pose proof (shell_permutation (blocknr_in (bufs s)) q0) as Hp.
  eapply rw_scattered_spec; [done|done|done| | |by rewrite Hp|done].
  - rewrite Hp. apply NoDup_filter. unfold zrange. apply NoDup_fmap_2; [intros i j; lia|apply NoDup_seq].
  - intros b. rewrite Hp. unfold q0. rewrite list_elem_of_filter, elem_of_zrange. split; [by intros []|].
    intros Hb. split; [done|]. apply is_dirty_true in Hb as (r & Hr & _). apply (do_all _ _ _ _ Hd). by eexists.
Qed.
End flush.
