(* ===== verification/FsGet.v ===== *)
(** * The block cache: [get_block] and [put_block]

    The cache is transparent: whoever asks for a block gets a buffer with its
    contents, and nothing that happens to the cache on the way, the eviction of another
    block and the flush of its device included, changes the contents of any block. *)
From stdpp Require Import base gmap list numbers strings.
From Stdlib Require Import ZArith Lia.
From S2P Require Import Prelude.
From S2P Require Import Chains.
From S2P Require Import KTypes.
From S2P Require Import FsTypes.
From S2P Require Import FsCache.
From S2P Require Import FsCacheInv.
From S2P Require Import FsHash.
From S2P Require Import FsIo.
From S2P Require Import FsFlush.

(** What a buffer is to those who use it. *)
Definition ident (r : buf) : (Z → Z) * Z * Z * Z := (b_data r, b_blocknr r, b_dev r, b_count r).

Lemma core_ident f : keeps core f → keeps ident f.
Proof. intros H c r. specialize (H c r). unfold core, ident in *. congruence. Qed.
Lemma ident_data f : keeps ident f → keeps b_data f.
Proof. intros H c r. specialize (H c r). unfold ident in H. congruence. Qed.
Lemma ident_blocknr f : keeps ident f → keeps b_blocknr f.
Proof. intros H c r. specialize (H c r). unfold ident in H. congruence. Qed.
Lemma ident_dev f : keeps ident f → keeps b_dev f.
Proof. intros H c r. specialize (H c r). unfold ident in H. congruence. Qed.
Lemma ident_count f : keeps ident f → keeps b_count f.
Proof. intros H c r. specialize (H c r). unfold ident in H. congruence. Qed.
Lemma core_dirt f : keeps core f → keeps b_dirt f.
Proof. intros H c r. specialize (H c r). unfold core in H. congruence. Qed.
#[export] Hint Resolve core_ident ident_data ident_blocknr ident_dev ident_count core_dirt : mh.

Definition count_of (s : fsstate) (b : Z) : Z := match bufs s !! b with Some r => b_count r | None => 0 end.

(** Some buffer is not in use. *)
Definition has_free (s : fsstate) : Prop := ∃ b, 0 ≤ b < NR_BUFS ∧ count_of s b = 0.

(** Nothing changes for those who use buffers. *)
Definition kept (s s' : fsstate) : Prop :=
  rest s' = rest s ∧ ∀ b r, bufs s !! b = Some r → 0 < b_count r →
    ∃ r', bufs s' !! b = Some r' ∧ b_data r' = b_data r ∧ b_dev r' = b_dev r ∧ b_blocknr r' = b_blocknr r.

Section get.
Context (geom : Z → option geometry) (Hgeom : geom_ok geom).
Context (task_io : Z → dev_req → Z → disks → dev_reply) (Hworks : works geom task_io).

#[local] Abbreviation data_ok := (data_ok geom).
#[local] Abbreviation on_disk := (on_disk geom).
#[local] Abbreviation inside := (inside geom).
#[local] Abbreviation blk := (blk geom).

Definition chains_ok (s : fsstate) : Prop := ∃ L H,
  lru s L ∧ hashed s H ∧ filed (bufs s) H None ∧ free_on (bufs s) L None.

Lemma chains_same s s' :
  bufs s' = bufs s → buf_hash s' = buf_hash s → front s' = front s → rear s' = rear s → chains_ok s → chains_ok s'.
Proof.
  intros Hb Hh Hf Hr (L & H & [L1 L2 L3 L4] & [H1 H2] & Hfi & Hfr). exists L, H. rewrite Hb.
  split; [split; [done|by rewrite Hb|congruence|congruence]|]. split; [split; [by rewrite Hb, Hh|done]|done].
Qed.

(** The invariant of the cache. *)
Record cache_ok (s : fsstate) (E : gset Z) : Prop := {
  co_env : env_ok geom s;
  co_data : data_ok (bufs s) (disk s) E;
  co_chains : chains_ok s }.

(** Steps that only move buffers about, and may clean some. *)
Record calm (E : gset Z) (s s' : fsstate) : Prop := {
  ca_rest : rest s' = rest s;
  ca_data : data_ok (bufs s') (disk s') E;
  ca_same : same_blocks geom (bufs s) (bufs s') (disk s) (disk s');
  ca_buf : ∃ f, changed f (bufs s) (bufs s') ∧ keeps ident f }.

Lemma calm_refl E s : data_ok (bufs s) (disk s) E → calm E s s.
Proof.
  intros Hd. split; [done|done|done|]. exists (λ _ r, r). split; [|by intros c r].
  intros c. by destruct (bufs s !! c).
Qed.
Lemma calm_trans E s s' s'' : calm E s s' → calm E s' s'' → calm E s s''.
Proof.
  intros [H1 H2 H3 (f & Hf & Hk)] [H1' H2' H3' (f' & Hf' & Hk')]. split; [congruence|done| |].
  - by eapply same_blocks_trans.
  - exists (λ c r, f' c (f c r)). split; [by eapply changed_trans|by apply keeps_comp].
Qed.

Lemma data_ok_core f t t' d E : changed f t t' → keeps core f → data_ok t d E → data_ok t' d E.
Proof.
  intros Hc Hk Hd. eapply (data_ok_changed _ f); [done|done|eauto with mh..|done|].
  intros b r o Hr Hdirt Hb Hin. rewrite (ident_data f) by eauto with mh. rewrite (core_dirt f) in Hdirt by done.
  by eapply do_clean.
Qed.

Lemma calm_core E f s s' :
  data_ok (bufs s) (disk s) E → rest s' = rest s → disk s' = disk s →
  changed f (bufs s) (bufs s') → keeps core f → calm E s s'.
Proof.
  intros Hd Hr Hdisk Hc Hk. assert (Hd' : data_ok (bufs s') (disk s') E).
  { rewrite Hdisk. by eapply data_ok_core. }
  split; [done|done| |exists f; eauto with mh].
  eapply (same_blocks_changed _ Hgeom f); [done|eauto with mh..|done|by rewrite Hdisk].
Qed.

Lemma cleaned_ident l : keeps ident (cleaned l).
Proof. by apply cleaned_keeps. Qed.

Lemma calm_flushed E s s' l : flushed geom E s s' l → calm E s s'.
Proof.
  intros (t & d & k & -> & Hc & Hd & Hs). split; [done|done|done|]. exists (cleaned l).
  split; [done|apply cleaned_ident].
Qed.

Lemma calm_named E s s' dev n b : calm E s s' → named (bufs s') dev n b ↔ named (bufs s) dev n b.
Proof. intros [_ _ _ (f & Hf & Hk)]. apply (named_changed f); eauto with mh. Qed.
Lemma calm_count E s s' b : calm E s s' → count_of s' b = count_of s b.
Proof.
  intros [_ _ _ (f & Hf & Hk)]. unfold count_of. rewrite Hf. destruct (bufs s !! b) as [r|]; [|done].
  cbn. by rewrite (ident_count f).
Qed.
Lemma calm_kept E s s' : calm E s s' → kept s s'.
Proof.
  intros [Hr _ _ (f & Hf & Hk)]. split; [done|]. intros b r Hb _. exists (f b r).
  split; [by eapply changed_Some|]. specialize (Hk b r). unfold ident in Hk. split_and!; congruence.
Qed.
Lemma kept_trans s s' s'' :
  kept s s' → (∀ b r, bufs s !! b = Some r → 0 < b_count r → 0 < count_of s' b) → kept s' s'' → kept s s''.
Proof.
  intros [H1 H2] Hc [H3 H4]. split; [congruence|]. intros b r Hb Hp.
  destruct (H2 b r Hb Hp) as (r' & Hr' & E1 & E2 & E3). pose proof (Hc b r Hb Hp) as Hp'. unfold count_of in Hp'.
  rewrite Hr' in Hp'. destruct (H4 b r' Hr' Hp') as (r'' & Hr'' & E4 & E5 & E6). exists r''.
  split; [done|]. split_and!; congruence.
Qed.

(** ** Taking a buffer off the LRU chain *)
Lemma elem_of_delete (L : list Z) k b c : NoDup L → L !! k = Some b → c ∈ delete k L ↔ c ∈ L ∧ c ≠ b.
Proof.
  intros Hnd Hk. rewrite delete_take_drop. rewrite <-(take_drop_middle L k b Hk) in Hnd |- * at 3.
  apply NoDup_app in Hnd as (_ & Hx & [Hy _]%NoDup_cons).
  rewrite !elem_of_app, elem_of_cons. split.
  - intros [Hc|Hc]; split; try (by left); try (by right; right); intros ->; [by apply (Hx b); [|left]|done].
  - naive_solver.
Qed.

Lemma unlink_core L k : keeps core (unlink L k).
Proof. by apply unlink_keeps. Qed.
Lemma unlink_hash L k : keeps b_hash (unlink L k).
Proof. by apply unlink_keeps. Qed.

(** [free_on] and [filed] after a change of a buffer that is off the chain. *)
Lemma free_on_put t t' L b f r :
  free_on t L (Some b) → changed (upd (Some b) f) t t' → t !! b = Some r → b_count (f r) ≠ 0 → free_on t' L None.
Proof.
  intros Hf Hc Hb Hn c r' (rc & Hrc & ->)%(changed_inv _ _ _ _ _ Hc). destruct (decide (c = b)) as [->|Hne].
  - rewrite upd_eq, (Hf b rc Hrc). assert (rc = r) as -> by congruence. naive_solver.
  - rewrite upd_ne by congruence. rewrite (Hf c rc Hrc). naive_solver.
Qed.
Lemma free_on_some t L b r : free_on t L None → t !! b = Some r → b_count r ≠ 0 → free_on t L (Some b).
Proof.
  intros Hf Hb Hn c rc Hc. rewrite (Hf c rc Hc). destruct (decide (c = b)) as [->|].
  - assert (rc = r) as -> by congruence. naive_solver.
  - naive_solver.
Qed.

(** [rm_lru] on a buffer that is not in use. *)
Lemma rm_spec s E L b r (Q : unit → fsstate → Prop) :
  data_ok (bufs s) (disk s) E → lru s L → free_on (bufs s) L None → bufs s !! b = Some r → b_count r = 0 →
  (∀ s' f L', calm E s s' → changed f (bufs s) (bufs s') → keeps core f → keeps b_hash f →
     buf_hash s' = buf_hash s → lru s' L' → free_on (bufs s') L' (Some b) → Q tt s') →
  twp (rm_lru (Some b)) Q s.
Proof.
  intros Hd Hl Hf Hb H0 HQ. assert (b ∈ L) as [k Hk]%list_elem_of_lookup by by apply (Hf b r Hb).
  eapply twp_mono; [by apply (rm_lru_spec s L k b)|]. intros [] s' (t & -> & Hc & Hl').
  apply (HQ _ (unlink L k) (delete k L)); [|done|apply unlink_core|apply unlink_hash|done|done|].
  - apply (calm_core _ (unlink L k)); [done|done|done|done|apply unlink_core].
  - intros c rc' (rc & Hrc & ->)%(changed_inv _ _ _ _ _ Hc).
    rewrite (elem_of_delete L k b c) by (done || apply Hl).
    rewrite (Hf c rc Hrc). rewrite (ident_count (unlink L k)) by (apply core_ident, unlink_core). naive_solver.
Qed.

(** ** A block that is cached *)
Lemma data_ok_count t t' d E b f :
  data_ok t d E → changed (upd (Some b) f) t t' → (∀ r, b_data (f r) = b_data r) → (∀ r, b_dev (f r) = b_dev r) →
  (∀ r, b_blocknr (f r) = b_blocknr r) → (∀ r, b_dirt (f r) = b_dirt r) →
  (∀ r, t !! b = Some r → 0 ≤ b_count (f r) ≤ 127 ∧ (b ∈ E → 0 < b_count (f r))) → data_ok t' d E.
Proof.
  intros Hd Hc H1 H2 H3 H4 H5.
  assert (K1 : keeps b_data (upd (Some b) f)) by by apply keeps_upd.
  assert (K2 : keeps b_dev (upd (Some b) f)) by by apply keeps_upd.
  assert (K3 : keeps b_blocknr (upd (Some b) f)) by by apply keeps_upd.
  assert (K4 : keeps b_dirt (upd (Some b) f)) by by apply keeps_upd. split.
  - eapply all_bufs_changed; [done|apply Hd].
  - intros c rc' (rc & Hrc & ->)%(changed_inv _ _ _ _ _ Hc). destruct (decide (c = b)) as [->|Hne].
    + rewrite upd_eq. by apply H5.
    + rewrite upd_ne by congruence. by eapply do_count.
  - intros c rc' (rc & Hrc & ->)%(changed_inv _ _ _ _ _ Hc). rewrite K2, K3. by eapply do_within.
  - intros dev n c c' Hne. rewrite !(named_changed _ t t') by done. by eapply do_uniq.
  - intros c rc' o (rc & Hrc & ->)%(changed_inv _ _ _ _ _ Hc). rewrite K1, K2, K3, K4. by eapply do_clean.
  - intros c rc' (rc & Hrc & ->)%(changed_inv _ _ _ _ _ Hc) HcE. destruct (decide (c = b)) as [->|Hne].
    + rewrite upd_eq. by apply H5.
    + rewrite upd_ne by congruence. by eapply do_pinned.
Qed.

(** One more use of buffer [b]. *)
Definition used (s s' : fsstate) (b : Z) : Prop :=
  kept s s' ∧ ∀ c, count_of s' c = count_of s c + (if decide (c = b) then 1 else 0).

Lemma hit_spec s E b dev n :
  cache_ok s E → named (bufs s) dev n b → count_of s b < 127 →
  twp (let* r := getb (Some b) in
       when (b_count r =? 0) (rm_lru (Some b));;;
       putb (Some b) (λ r, r.[b_count := s8 (b_count r + 1)]);;; ret (Some b))
    (λ p s', p = Some b ∧ cache_ok s' E ∧ named (bufs s') dev n b ∧
       same_blocks geom (bufs s) (bufs s') (disk s) (disk s') ∧ used s s' b) s.
Proof.
  intros [He Hd (L & H & Hl & Hh & Hfi & Hfr)] Hnm Hlt. pose proof Hnm as (r & Hb & Hdev & Hn).
  unfold count_of in Hlt. rewrite Hb in Hlt. pose proof (do_count _ _ _ _ Hd b r Hb) as Hc0.
  apply twp_bind, (twp_getb _ r); [done|].
  set (Mid := λ s', ∃ f L', calm E s s' ∧ changed f (bufs s) (bufs s') ∧ keeps core f ∧ keeps b_hash f ∧
     buf_hash s' = buf_hash s ∧ lru s' L' ∧ free_on (bufs s') L' (Some b)).
  apply twp_bind, (twp_mono _ (λ _, Mid)).
  { destruct (Z.eqb_spec (b_count r) 0) as [H0|H0]; cbn [when].
    - eapply rm_spec; [done..|]. intros s' f L' ???????. by exists f, L'.
    - apply twp_skip. exists (λ _ r, r), L. split; [by apply calm_refl|].
      split; [intros c; by destruct (bufs s !! c)|]. do 3 (split; [done|]). split; [done|]. by eapply free_on_some. }
  intros [] s1 (f & L' & Hcalm & Hc & Hk & Hkh & Hbh & Hl' & Hfr').
  assert (Hb1 : bufs s1 !! b = Some (f b r)) by by eapply changed_Some.
  assert (Hcnt : b_count (f b r) = b_count r) by (apply ident_count; eauto with mh).
  apply twp_bind, twp_putb; [by eexists|]. twpgo. split; [done|].
  set (inc := λ r : buf, r.[b_count := s8 (b_count r + 1)]). set (t := modb (Some b) inc (bufs s1)).
  assert (Ht : changed (upd (Some b) inc) (bufs s1) t) by apply changed_modb.
  assert (Hd1 : data_ok t (disk s1) E).
  { eapply (data_ok_count _ _ _ _ b inc); [apply Hcalm|done..|]. intros r1 Hr1. assert (r1 = f b r) as -> by congruence.
    unfold inc. cbn. rewrite s8_id; lia. }
  split; [split|split; [|split]].
  - apply (env_rest _ s); [|done]. apply (ca_rest _ _ _ Hcalm).
  - done.
  - exists L', H. split; [by apply (lru_keep s1 _ L' (upd (Some b) inc)); [|apply keeps_upd..| | |]|].
    split; [|split].
    + apply (hashed_keep s1 _ H (upd (Some b) inc)); [done|by apply keeps_upd|done|].
      apply (hashed_keep s _ H f); [done|done|by rewrite Hbh|done].
    + apply (filed_keep (bufs s1) _ H None (upd (Some b) inc)); [done|by apply keeps_upd|].
      apply (filed_keep (bufs s) _ H None f); eauto with mh.
    + eapply (free_on_put (bufs s1) t L' b inc (f b r)); [done|done|done|]. unfold inc. cbn. rewrite s8_id; lia.
  - apply (named_changed (upd (Some b) inc) (bufs s1) t); [done|by apply keeps_upd..|]. by apply (calm_named E s s1).
  - eapply same_blocks_trans; [apply Hcalm|].
    eapply (same_blocks_changed _ Hgeom (upd (Some b) inc)); [done|by apply keeps_upd..|apply Hcalm|done|done].
  - assert (Hcts : ∀ c, count_of (s1.[bufs := t]) c = count_of s1 c + (if decide (c = b) then 1 else 0)).
    { intros c. unfold count_of. change (bufs (s1.[bufs := t])) with t. rewrite Ht.
      case_decide as Hcb; [subst c; rewrite Hb1; cbn; rewrite upd_eq; unfold inc; cbn; rewrite s8_id; lia|].
      destruct (bufs s1 !! c); [|done]. cbn. rewrite upd_ne by congruence. lia. }
    split.
    + destruct (calm_kept E s s1 Hcalm) as [HK1 HK2]. split; [done|]. intros c rc Hrc Hp.
      destruct (HK2 c rc Hrc Hp) as (r' & Hr' & E1 & E2 & E3). exists (upd (Some b) inc c r').
      split; [by eapply changed_Some|]. rewrite <-E1, <-E2, <-E3. split_and!; by apply keeps_upd.
    + intros c. by rewrite Hcts, (calm_count E s s1).
Qed.

(** ** A block that is not *)

(** The buffer [b] is off both chains, and clean. *)
Record evicted (s : fsstate) (b : Z) (r : buf) (L : list Z) (H : Z → list Z) : Prop := {
  ev_lru : lru s L;
  ev_hashed : hashed s H;
  ev_filed : filed (bufs s) H (Some b);
  ev_free : free_on (bufs s) L (Some b);
  ev_buf : bufs s !! b = Some r;
  ev_count : b_count r = 0;
  ev_clean : b_dev r = NO_DEV ∨ b_dirt r ≠ DIRTY }.

Lemma evicted_flushed E s s' l b r L H :
  flushed geom E s s' l → lru s L → hashed s H → filed (bufs s) H (Some b) → free_on (bufs s) L (Some b) →
  bufs s !! b = Some r → b_count r = 0 → (b_dev r = NO_DEV ∨ b_dirt r ≠ DIRTY ∨ b ∈ l) →
  ∃ r', evicted s' b r' L H.
Proof.
  intros (t & d & k & -> & Hc & _) Hl Hh Hfi Hfr Hb H0 Hor. exists (cleaned l b r). split.
  - by apply (lru_keep s _ L (cleaned l)); [|apply cleaned_keeps..| | |].
  - by apply (hashed_keep s _ H (cleaned l)); [|apply cleaned_keeps| |].
  - by apply (filed_keep (bufs s) t H _ (cleaned l)); [|apply cleaned_keeps|].
  - by apply (free_keep (bufs s) t L _ (cleaned l)); [|apply cleaned_keeps|].
  - by eapply changed_Some.
  - by rewrite (ident_count (cleaned l)) by apply cleaned_ident.
  - rewrite (ident_dev (cleaned l)) by apply cleaned_ident. unfold cleaned. case_decide; [by right|naive_solver].
Qed.

Lemma evict_spec {A} s E b (K : F A) (Q : A → fsstate → Prop) :
  cache_ok s E → front s = Some b →
  (∀ s' r L H, calm E s s' → evicted s' b r L H → twp K Q s') →
  twp (rm_lru (Some b);;; unhash (Some b);;;
       let* r := getb (Some b) in
       when (negb (b_dev r =? NO_DEV) && (b_dirt r =? DIRTY)) (flushall task_io (b_dev r));;; K) Q s.
Proof.
  intros [He Hd (L & H & Hl & Hh & Hfi & Hfr)] Hfront HQ.
  assert (b ∈ L) as HbL. { rewrite (lru_front s L Hl) in Hfront. destruct L; [done|]. injection Hfront as ->. by left. }
  destruct (links_elem _ _ _ (lru_links _ _ Hl) HbL) as [r Hr].
  assert (b_count r = 0) as Hr0 by by apply (Hfr b r Hr).
  apply twp_bind. eapply (rm_spec s E L b r); [done..|]. intros s1 f1 L1 Hca1 Hc1 Hk1 Hkh1 Hbh1 Hl1 Hfr1.
  assert (Hr1 : bufs s1 !! b = Some (f1 b r)) by by eapply changed_Some.
  assert (Hh1 : hashed s1 H) by (apply (hashed_keep s s1 H f1); [done|done|by rewrite Hbh1|done]).
  assert (Hfi1 : filed (bufs s1) H None) by (apply (filed_keep (bufs s) _ H None f1); eauto with mh).
  apply twp_bind. eapply twp_mono; [eapply (unhash_spec s1 H b); [apply (ca_data _ _ _ Hca1)|done|done|done]|].
  intros [] s2 (t2 & hh & f2 & Hs2 & Hc2 & Hk2 & Hkn2 & Hkp2 & Hh2 & Hfi2).
  assert (Hb2 : bufs s2 = t2) by by rewrite Hs2.
  assert (Hca2 : calm E s s2).
  { eapply calm_trans; [done|]. apply (calm_core E f2); [apply Hca1|by rewrite Hs2..|done]. }
  assert (Hr2 : bufs s2 !! b = Some (f2 b (f1 b r))) by (rewrite Hb2; by eapply changed_Some).
  assert (Hl2 : lru s2 L1) by (apply (lru_keep s1 s2 L1 f2); [by rewrite Hb2|done|done|by rewrite Hs2..|done]).
  assert (Hfr2 : free_on (bufs s2) L1 (Some b)).
  { rewrite Hb2. apply (free_keep (bufs s1) t2 L1 _ f2); eauto with mh. }
  assert (Hcnt : b_count (f2 b (f1 b r)) = 0).
  { rewrite (ident_count f2), (ident_count f1) by eauto with mh. done. }
  apply twp_bind, (twp_getb _ _ _ _ Hr2). apply twp_bind. set (r2 := f2 b (f1 b r)) in *.
  rewrite <-Hb2 in Hfi2. pose proof (ca_data _ _ _ Hca2) as Hd2.
  apply twp_when; [intros [Hne%negb_true_iff%Z.eqb_neq Hdi%Z.eqb_eq]%andb_true_iff|intros Hcl%andb_false_iff].
  - eapply (flushall_spec geom Hgeom task_io Hworks s2 E); [|eapply env_rest; [apply Hca2|done]|done|].
    { destruct (do_within _ _ _ _ Hd2 b r2 Hr2 Hne) as (g & Hg & _). by eexists. }
    intros s3 l Hfl Hlist. destruct (evicted_flushed E s2 s3 l b r2 L1 _ Hfl Hl2 Hh2 Hfi2 Hfr2 Hr2 Hcnt) as [r3 Hev].
    { right; right. apply Hlist, is_dirty_true. by exists r2. }
    eapply HQ; [|done]. eapply calm_trans; [done|]. by eapply calm_flushed.
  - eapply HQ; [done|]. split; [done..|]. rewrite negb_false_iff, Z.eqb_eq, Z.eqb_neq in Hcl. done.
Qed.

(** The new name: the contents of the block are not there yet. *)
Lemma data_ok_renamed t t' d E b r dev n p :
  data_ok t d E → changed (upd (Some b) (renamed dev n p)) t t' → t !! b = Some r → b_count r = 0 →
  (b_dev r = NO_DEV ∨ b_dirt r ≠ DIRTY) → within geom dev n → (∀ c, ¬ named t dev n c) →
  data_ok t' d ({[b]} ∪ E) ∧
  ∀ dev' n' o, inside dev' n' o → (dev', n') ≠ (dev, n) → blk t' d dev' n' o = blk t d dev' n' o.
Proof.
  intros Hd Hc Hb H0 Hcl Hw Hno. pose proof (within_dev _ Hgeom _ _ Hw) as Hdev.
  assert (Hnew : t' !! b = Some (renamed dev n p r)) by (rewrite Hc, Hb; cbn; by rewrite upd_eq).
  assert (Hold : ∀ c, c ≠ b → t' !! c = t !! c) by (intros c Hne; eapply changed_ne; [done|congruence]).
  assert (Hnm : ∀ dev' n' c, c ≠ b → named t' dev' n' c ↔ named t dev' n' c).
  { intros dev' n' c Hne. unfold named. by rewrite Hold. }
  assert (Hbn : ∀ dev' n', named t' dev' n' b → dev' = dev ∧ n' = n).
  { intros dev' n' (x & Hx & <- & <-). rewrite Hnew in Hx. by injection Hx as <-. }
  assert (Hd' : data_ok t' d ({[b]} ∪ E)).
  { split.
    - eapply all_bufs_changed; [done|apply Hd].
    - intros c rc Hrc. destruct (decide (c = b)) as [->|Hne]; [|rewrite Hold in Hrc by done; by eapply do_count].
      rewrite Hnew in Hrc. injection Hrc as <-. cbn. rewrite H0. done.
    - intros c rc Hrc. destruct (decide (c = b)) as [->|Hne]; [|rewrite Hold in Hrc by done; by eapply do_within].
      rewrite Hnew in Hrc. by injection Hrc as <-.
    - intros dev' n' c c' Hne H1 H2. destruct (decide (c = b)) as [->|Hcb], (decide (c' = b)) as [->|Hcb']; [done| | |].
      + apply Hbn in H1 as [-> ->]. apply Hnm in H2; [|done]. by destruct (Hno c').
      + apply Hbn in H2 as [-> ->]. apply Hnm in H1; [|done]. by destruct (Hno c).
      + rewrite !Hnm in H1, H2 by done. by eapply do_uniq.
    - intros c rc o Hrc Hdi HcE. rewrite Hold in Hrc by set_solver. eapply do_clean; [done..|set_solver].
    - intros c rc Hrc HcE. destruct (decide (c = b)) as [->|Hne].
      + rewrite Hnew in Hrc. injection Hrc as <-. cbn. rewrite H0. done.
      + rewrite Hold in Hrc by done. eapply do_pinned; [done..|set_solver]. }
  split; [done|]. intros dev' n' o Hin Hneq. pose proof (inside_dev _ Hgeom _ _ _ Hin) as Hdev'.
  destruct (cached t' dev' n') as [c|] eqn:Hca.
  - apply cached_named in Hca. destruct (decide (c = b)) as [->|Hcb]; [apply Hbn in Hca as [-> ->]; done|].
    destruct Hca as (rc & Hrc & H1 & H2). rewrite (blk_named _ t' d _ _ _ _ c rc) by done.
    rewrite Hold in Hrc by done. by rewrite (blk_named _ t d E _ _ _ c rc).
  - pose proof (cached_None _ _ _ (do_all _ _ _ _ Hd') Hca) as Hno'. rewrite blk_disk by done.
    destruct (cached t dev' n') as [c|] eqn:Hca'.
    + apply cached_named in Hca'. destruct (decide (c = b)) as [->|Hcb]; [|by apply Hnm, Hno' in Hca'].
      destruct Hca' as (x & Hx & H1 & H2). rewrite Hb in Hx. injection Hx as <-.
      rewrite (blk_named _ t d E _ _ _ b r) by done. subst dev' n'. symmetry. apply (do_clean _ _ _ _ Hd b r o Hb); [| |done].
      * destruct Hcl as [H3|H3]; [by rewrite H3 in Hdev'|done].
      * intros HbE. pose proof (do_pinned _ _ _ _ Hd b r Hb HbE). lia.
    + by rewrite blk_disk by (by apply cached_None; [apply Hd|]).
Qed.

(** The contents of the block, read from the disk. *)
Lemma data_ok_read t t' d d' E b r y :
  data_ok t d ({[b]} ∪ E) → changed (upd (Some b) (λ r, r.[b_data := y].[b_dirt := CLEAN])) t t' →
  t !! b = Some r → b_dev r ≠ NO_DEV → disks_eq d' d →
  (∀ o, inside (b_dev r) (b_blocknr r) o → y o = on_disk d (b_dev r) (b_blocknr r) o) →
  data_ok t' d' E ∧
  ∀ dev n o, inside dev n o → blk t' d' dev n o =
    if decide (dev = b_dev r ∧ n = b_blocknr r) then on_disk d dev n o else blk t d dev n o.
Proof.
  intros Hd Hc Hb Hdev Hdd Hy. set (f := upd (Some b) (λ r, r.[b_data := y].[b_dirt := CLEAN])) in *.
  assert (K2 : keeps b_dev f) by by apply keeps_upd. assert (K3 : keeps b_blocknr f) by by apply keeps_upd.
  assert (Hb' : t' !! b = Some (f b r)) by by eapply changed_Some.
  assert (Hyb : b_data (f b r) = y) by (unfold f; by rewrite upd_eq).
  assert (Hd' : data_ok t' d' E).
  { eapply (data_ok_changed _ f); [done|done|done|done|by apply keeps_upd|set_solver|].
    intros c rc o Hrc Hdi HcE Hin. rewrite (on_disk_eq _ _ _ _ _ _ Hdd). destruct (decide (c = b)) as [->|Hne].
    - assert (rc = r) as -> by congruence. rewrite Hyb. by apply Hy.
    - unfold f in *. rewrite upd_ne in * by congruence. eapply do_clean; [done..|set_solver|done]. }
  split; [done|]. intros dev n o Hin. pose proof (inside_dev _ Hgeom _ _ _ Hin) as Hne. case_decide as Hn.
  - destruct Hn as [-> ->]. rewrite (blk_named _ t' d' E _ _ _ b (f b r)); [|done|done|apply K2|apply K3|done].
    rewrite Hyb. by apply Hy.
  - destruct (cached t dev n) as [c|] eqn:Hca.
    + apply cached_named in Hca as (rc & Hrc & H1 & H2). rewrite (blk_named _ t d _ _ _ _ c rc) by done.
      assert (c ≠ b) by (intros ->; apply Hn; split; congruence).
      apply (blk_named _ t' d' E _ _ _ c rc); [done| |done..]. rewrite <-Hrc. eapply changed_ne; [done|congruence].
    + pose proof (cached_None _ _ _ (do_all _ _ _ _ Hd) Hca) as Hno.
      rewrite !blk_disk; [by apply on_disk_eq|done|]. intros c. by rewrite (named_changed f t t').
Qed.

Lemma chains_upd s s' b f :
  changed (upd (Some b) f) (bufs s) (bufs s') → (∀ r, b_next (f r) = b_next r) → (∀ r, b_prev (f r) = b_prev r) →
  (∀ r, b_hash (f r) = b_hash r) → (∀ r, b_blocknr (f r) = b_blocknr r) → (∀ r, b_count (f r) = b_count r) →
  front s' = front s → rear s' = rear s → buf_hash s' = buf_hash s → chains_ok s → chains_ok s'.
Proof.
  intros Hc H1 H2 H3 H4 H5 H6 H7 H8 (L & H & Hl & Hh & Hfi & Hfr). exists L, H. split_and!.
  - by eapply lru_keep; [done|apply keeps_upd..|done|done|].
  - by eapply hashed_keep; [done|apply keeps_upd|by rewrite H8|].
  - by eapply filed_keep; [done|apply keeps_upd|].
  - by eapply free_keep; [done|apply keeps_upd|].
Qed.

Lemma rename_used s E b r L H dev n (Q : unit → fsstate → Prop) :
  env_ok geom s → data_ok (bufs s) (disk s) E → evicted s b r L H → within geom dev n →
  (∀ c, ¬ named (bufs s) dev n c) →
  (∀ s', cache_ok s' ({[b]} ∪ E) → named (bufs s') dev n b →
     (∀ dev' n' o, inside dev' n' o → (dev', n') ≠ (dev, n) →
        blk (bufs s') (disk s') dev' n' o = blk (bufs s) (disk s) dev' n' o) →
     disk s' = disk s → used s s' b → Q tt s') →
  twp (rename (Some b) dev n) Q s.
Proof.
  intros He Hd [Hl Hh Hfi Hfr Hb H0 Hcl] Hw Hno HQ.
  eapply twp_mono; [by eapply rename_spec|]. intros [] s' (t & hh & p & Hs' & Hc & Hh' & Hfi').
  destruct (data_ok_renamed (bufs s) t (disk s) E b r dev n p) as [Hd' Hsame]; [done..|].
  assert (Hb' : t !! b = Some (renamed dev n p r)) by (rewrite Hc, Hb; cbn; by rewrite upd_eq).
  apply HQ; subst s'; [| |done|done|].
  - split; [done|done|]. exists L, (with_first b (hash_of n) H). split; [|split; [done|split; [done|]]].
    + by apply (lru_keep s _ L (upd (Some b) (renamed dev n p))); [|apply keeps_upd..| | |].
    + eapply (free_on_put (bufs s) t L b); [done|done|done|]. cbn. by rewrite H0.
  - by exists (renamed dev n p r).
  - split; [split; [done|]|].
    + intros c rc Hrc Hp. exists rc. split; [|done]. change (t !! c = Some rc). rewrite <-Hrc.
      eapply changed_ne; [done|]. intros [= ->]. simplify_eq. lia.
    + intros c. unfold count_of. change (bufs _) with t at 1. case_decide as Hcb.
      * subst c. rewrite Hb', Hb. cbn. by rewrite H0.
      * rewrite (changed_ne _ _ _ _ c Hc) by congruence. destruct (bufs s !! c); lia.
Qed.

Lemma read_used s E b dev n (Q : Z → fsstate → Prop) :
  cache_ok s ({[b]} ∪ E) → named (bufs s) dev n b → within geom dev n →
  (∀ s', cache_ok s' E → named (bufs s') dev n b → rest s' = rest s →
     (∀ dev' n' o, inside dev' n' o → blk (bufs s') (disk s') dev' n' o =
        if decide (dev' = dev ∧ n' = n) then on_disk (disk s) dev' n' o else blk (bufs s) (disk s) dev' n' o) →
     (∀ c, c ≠ b → bufs s' !! c = bufs s !! c) → (∀ c, count_of s' c = count_of s c) → Q OK s') →
  twp (rw_block task_io (Some b) READING) Q s.
Proof.
  intros [He Hd Hch] (r & Hb & <- & <-) Hw HQ. pose proof (within_dev _ Hgeom _ _ Hw) as Hdev.
  eapply (rw_block_read geom Hgeom task_io Hworks s b r); [done..|]. intros y t d k Hc Hdd Hy.
  destruct (data_ok_read (bufs s) t (disk s) d E b r y) as [Hd' Hblk]; [done..|]. apply HQ; [|  |done|done| |].
  - split; [done|done|]. by eapply (chains_upd s _ b).
  - exists (upd (Some b) (λ r, r.[b_data := y].[b_dirt := CLEAN]) b r). split; [by eapply changed_Some|]. by rewrite upd_eq.
  - intros c Hne. eapply changed_ne; [done|congruence].
  - intros c. unfold count_of. change (bufs (s.[bufs := ?x].[disk := _].[io_count := _])) with x. rewrite Hc.
    destruct (bufs s !! c); [|done]. cbn. by apply (keeps_upd b_count).
Qed.

Lemma free_front s L : lru s L → free_on (bufs s) L None → all_bufs (bufs s) → has_free s → ∃ b, front s = Some b.
Proof.
  intros Hl Hf Ha (b & Hb & H0). rewrite (lru_front _ _ Hl). apply Ha in Hb as [r Hr]. unfold count_of in H0.
  rewrite Hr in H0. assert (b ∈ L) as Hin by by apply (Hf b r Hr).
  destruct L as [|c L]; [by apply elem_of_nil in Hin|]. by exists c.
Qed.

(** The search, and the two cases after it. *)
Lemma get_block_cases s E dev n mode (Q : option Z → fsstate → Prop) :
  cache_ok s E → within geom dev n → has_free s → (∀ b, named (bufs s) dev n b → count_of s b < 127) →
  (∀ b s', cache_ok s' E → named (bufs s') dev n b →
     same_blocks geom (bufs s) (bufs s') (disk s) (disk s') → used s s' b → Q (Some b) s') →
  (∀ b s' s'', calm E s s' → cache_ok s'' ({[b]} ∪ E) → named (bufs s'') dev n b → b ∉ E →
     (∀ c, ¬ named (bufs s') dev n c) → count_of s' b = 0 →
     (∀ dev' n' o, inside dev' n' o → (dev', n') ≠ (dev, n) →
        blk (bufs s'') (disk s'') dev' n' o = blk (bufs s') (disk s') dev' n' o) →
     disk s'' = disk s' → used s' s'' b →
     twp (when (negb (dev =? NO_DEV)) (
            if mode =? PREFETCH then putb (Some b) (λ r, r.[b_dev := NO_DEV])
            else when (mode =? NORMAL) (rw_block task_io (Some b) READING;;; skip));;; ret (Some b)) Q s'') →
  twp (get_block task_io dev n mode) Q s.
Proof.
  intros Hok Hw Hfree H127 Hhit Hmiss. pose proof (within_dev _ Hgeom _ _ Hw) as Hdev.
  pose proof Hok as [He Hd (L & H & Hl & Hh & Hfi & Hfr)].
  unfold get_block. apply twp_bind. eapply twp_mono; [by apply (search_spec s H None); [apply Hd|..]|].
  intros [b|] s0 [-> Hs].
  - eapply twp_mono; [by apply (hit_spec s E b dev n); [| |apply H127]|].
    intros p s' (-> & H1 & H2 & H3 & H4). by apply Hhit.
  - twpgo. destruct (free_front s L) as [b Hb]; [done|done|apply Hd|done|]. rewrite Hb.
    eapply evict_spec; [done|done|]. intros s' r L' H' Hca Hev. apply twp_bind.
    assert (Hno : ∀ c, ¬ named (bufs s') dev n c) by (intros c; rewrite (calm_named E s s') by done; by apply Hs).
    eapply (rename_used s' E b r); [|apply Hca|done|done|done|].
    { eapply env_rest; [apply Hca|done]. }
    intros s'' H1 H2 H3 H4 H5. eapply Hmiss; [done..| |done| |done|done|done].
    + intros HbE. pose proof (do_pinned _ _ _ _ (ca_data _ _ _ Hca) b r (ev_buf _ _ _ _ _ Hev) HbE) as Hp.
      rewrite (ev_count _ _ _ _ _ Hev) in Hp. lia.
    + unfold count_of. rewrite (ev_buf _ _ _ _ _ Hev). apply Hev.
Qed.

(** ** The theorems on [get_block] *)
Lemma used_trans_calm E s s' s'' b : calm E s s' → used s' s'' b → used s s'' b.
Proof.
  intros Hca [Hk Hc]. split.
  - eapply kept_trans; [by eapply calm_kept| |done]. intros c r Hr Hp. rewrite (calm_count E s s') by done.
    unfold count_of. by rewrite Hr.
  - intros c. by rewrite Hc, (calm_count E s s').
Qed.

Lemma get_block_normal s E dev n :
  cache_ok s E → within geom dev n → has_free s → (∀ b, named (bufs s) dev n b → count_of s b < 127) →
  twp (get_block task_io dev n NORMAL) (λ p s', ∃ b, p = Some b ∧ cache_ok s' E ∧ named (bufs s') dev n b ∧
    same_blocks geom (bufs s) (bufs s') (disk s) (disk s') ∧ used s s' b) s.
Proof.
  intros Hok Hw Hfree H127. pose proof (within_dev _ Hgeom _ _ Hw) as Hdev.
  eapply get_block_cases; [done..| |]; [intros b s' ????; by exists b|].
  intros b s' s'' Hca Hok'' Hnm HbE Hno H0 Hblk Hdisk Hu. rewrite (proj2 (Z.eqb_neq _ _)) by done.
  cbn [negb when]. change (NORMAL =? PREFETCH) with false. change (NORMAL =? NORMAL) with true. cbn [when]. twpgo.
  eapply (read_used s'' E b dev n); [done..|]. intros s3 Hok3 Hnm3 Hr3 Hblk3 Hb3 Hc3. twpgo.
  exists b. split; [done|]. split; [done|]. split; [done|]. split.
  - eapply same_blocks_trans; [apply Hca|]. intros dev' n' o Hin. rewrite Hblk3 by done. case_decide as Hd.
    + destruct Hd as [-> ->]. rewrite (blk_disk _ (bufs s')) by done. by rewrite Hdisk.
    + apply Hblk; [done|]. intros [= -> ->]. by apply Hd.
  - eapply used_trans_calm; [done|]. destruct Hu as [[HK1 HK2] Hcnt]. split; [split; [congruence|]|].
    + intros c rc Hrc Hp. destruct (HK2 c rc Hrc Hp) as (r' & Hr' & ?). exists r'. split; [|done].
      rewrite Hb3; [done|]. intros ->. unfold count_of in H0. rewrite Hrc in H0. lia.
    + intros c. by rewrite Hc3, Hcnt.
Qed.

Lemma data_ok_weaken t d E b r : data_ok t d E → t !! b = Some r → 0 < b_count r → data_ok t d ({[b]} ∪ E).
Proof.
  intros [H1 H2 H3 H4 H5 H6] Hb Hp. split; [done|done|done|done| |].
  - intros c rc o Hrc Hdi HE. apply (H5 c); [done|done|set_solver].
  - intros c rc Hrc [->%elem_of_singleton|HE]%elem_of_union; [congruence|by eapply H6].
Qed.

(** A buffer for a block that will be overwritten. *)
Lemma get_block_no_read s E dev n :
  cache_ok s E → within geom dev n → has_free s → (∀ b, named (bufs s) dev n b → count_of s b < 127) →
  twp (get_block task_io dev n NO_READ) (λ p s', ∃ b, p = Some b ∧ cache_ok s' ({[b]} ∪ E) ∧ named (bufs s') dev n b ∧
    (∀ dev' n' o, inside dev' n' o → (dev', n') ≠ (dev, n) →
       blk (bufs s') (disk s') dev' n' o = blk (bufs s) (disk s) dev' n' o) ∧ used s s' b) s.
Proof.
  intros Hok Hw Hfree H127. pose proof (within_dev _ Hgeom _ _ Hw) as Hdev.
  eapply get_block_cases; [done..| |].
  - intros b s' [He Hd Hch] Hnm Hs Hu. exists b. split; [done|]. split; [|split; [done|split; [|done]]].
    + split; [done| |done]. pose proof Hnm as (r & Hr & _). apply (data_ok_weaken _ _ _ b r); [done..|].
      pose proof (proj2 Hu b) as Hc. rewrite decide_True in Hc by done. unfold count_of in Hc at 1. rewrite Hr in Hc.
      destruct (bufs s !! b) as [r0|] eqn:Hr0; [|unfold count_of in Hc; rewrite Hr0 in Hc; lia].
      pose proof (do_count _ _ _ _ (co_data _ _ Hok) b r0 Hr0). unfold count_of in Hc. rewrite Hr0 in Hc. lia.
    + intros dev' n' o Hin _. by apply Hs.
  - intros b s' s'' Hca Hok'' Hnm HbE Hno H0 Hblk Hdisk Hu. rewrite (proj2 (Z.eqb_neq _ _)) by done.
    cbn [negb when]. change (NO_READ =? PREFETCH) with false. change (NO_READ =? NORMAL) with false. cbn [when]. twpgo.
    exists b. split; [done|]. split; [done|]. split; [done|]. split; [|by eapply used_trans_calm].
    intros dev' n' o Hin Hne. rewrite Hblk by done. by apply (ca_same E s s' Hca).
Qed.
End get.
