(* ===== verification/FsPut.v ===== *)
(** * The block cache: [put_block] and [buf_pool]

    A buffer that nobody uses any more goes back to the LRU chain; the cache that the
    server starts with. *)
From stdpp Require Import base gmap list numbers strings.
From Stdlib Require Import ZArith Lia.
From S2P Require Import Prelude.
From S2P Require Import Chains.
From S2P Require Import KTypes.
From S2P Require Import FsTypes.
From S2P Require Import FsCache.
From S2P Require Import FsCacheInv.
From S2P Require Import FsHash.
From S2P Require Import FsIo.
From S2P Require Import FsFlush.
From S2P Require Import FsGet.

(** ** Putting a buffer on the LRU chain *)
Definition pushed (s s' : fsstate) (L' : list Z) : Prop := ∃ t f,
  s' = s.[bufs := t].[front := head L'].[rear := last L'] ∧ changed f (bufs s) t ∧ keeps core f ∧
  keeps b_hash f ∧ lru s' L'.

Lemma core_comp p q (f g : buf → buf) :
  (∀ r, core (f r) = core r) → (∀ r, core (g r) = core r) → keeps core (λ c r, upd p f c (upd q g c r)).
Proof. intros H1 H2. apply (keeps_comp core (upd q g) (upd p f)); by apply keeps_upd. Qed.
Lemma hash_comp p q (f g : buf → buf) :
  (∀ r, b_hash (f r) = b_hash r) → (∀ r, b_hash (g r) = b_hash r) → keeps b_hash (λ c r, upd p f c (upd q g c r)).
Proof. intros H1 H2. apply (keeps_comp b_hash (upd q g) (upd p f)); by apply keeps_upd. Qed.

Lemma push_front_spec s L b :
  lru s L → b ∉ L → is_Some (bufs s !! b) → twp (push_front (Some b)) (λ _ s', pushed s s' (b :: L)) s.
Proof.
  intros [Hnd Hl Hf Hr] Hb Hs. unfold push_front. twpgo. apply twp_putb; [done|]. twpgo. rewrite Hf.
  set (f1 := λ r, r.[b_prev := None].[b_next := head L]). set (f2 := λ r, r.[b_prev := Some b]).
  set (t1 := modb (Some b) f1 (bufs s)). set (t2 := modb (head L) f2 t1).
  assert (Hc : changed (λ c r, upd (head L) f2 c (upd (Some b) f1 c r)) (bufs s) t2).
  { eapply changed_trans; apply changed_modb. }
  assert (Hfin : ∀ s', s' = s.[bufs := t2].[front := head (b :: L)].[rear := last (b :: L)] → pushed s s' (b :: L)).
  { intros s' ->. exists t2, (λ c r, upd (head L) f2 c (upd (Some b) f1 c r)).
    split; [done|]. split; [done|]. split; [by apply core_comp|]. split; [by apply hash_comp|].
    split; [by constructor|by apply links_push_front|done|done]. }
  destruct L as [|a L]; cbn [head] in *.
  - unfold set_rear. twpgo. unfold set_front. apply twp_modify, Hfin. done.
  - apply twp_putb; [apply is_Some_modb; eapply links_elem; [done|by left]|]. unfold set_front. apply twp_modify, Hfin.
    change (last (b :: a :: L)) with (last (a :: L)). by rewrite <-Hr.
Qed.

Lemma push_rear_spec s L b :
  lru s L → b ∉ L → is_Some (bufs s !! b) → twp (push_rear (Some b)) (λ _ s', pushed s s' (L ++ [b])) s.
Proof.
  intros [Hnd Hl Hf Hr] Hb Hs. unfold push_rear. twpgo. apply twp_putb; [done|]. twpgo. rewrite Hr.
  set (f1 := λ r, r.[b_prev := last L].[b_next := None]). set (f2 := λ r, r.[b_next := Some b]).
  set (t1 := modb (Some b) f1 (bufs s)). set (t2 := modb (last L) f2 t1).
  assert (Hc : changed (λ c r, upd (last L) f2 c (upd (Some b) f1 c r)) (bufs s) t2).
  { eapply changed_trans; apply changed_modb. }
  assert (Hfin : ∀ s', s' = s.[bufs := t2].[front := head (L ++ [b])].[rear := last (L ++ [b])] → pushed s s' (L ++ [b])).
  { intros s' ->. exists t2, (λ c r, upd (last L) f2 c (upd (Some b) f1 c r)).
    split; [done|]. split; [done|]. split; [by apply core_comp|]. split; [by apply hash_comp|].
    split; [|by apply links_push_rear|done|done]. apply NoDup_app. split; [done|].
    split; [intros c Hc' ->%list_elem_of_singleton; done|apply NoDup_singleton]. }
  destruct (last L) as [a|] eqn:Hla.
  - apply twp_putb.
    { apply is_Some_modb. eapply links_elem; [done|]. by apply last_Some_elem_of. }
    unfold set_rear. apply twp_modify, Hfin. rewrite last_snoc.
    replace (head (L ++ [b])) with (head L) by by destruct L. by rewrite <-Hf.
  - apply last_None in Hla as ->. unfold set_rear, set_front. twpgo. by apply Hfin.
Qed.

Section put.
Context (geom : Z → option geometry) (Hgeom : geom_ok geom).
Context (task_io : Z → dev_req → Z → disks → dev_reply) (Hworks : works geom task_io).

#[local] Abbreviation data_ok := (data_ok geom).
#[local] Abbreviation on_disk := (on_disk geom).
#[local] Abbreviation inside := (inside geom).
#[local] Abbreviation cache_ok := (cache_ok geom).

(** ** Writing a block at once *)
Lemma data_ok_written t t' d d' E b r :
  data_ok t d E → changed (upd (Some b) (λ r, r.[b_dirt := CLEAN])) t t' → t !! b = Some r → b_dev r ≠ NO_DEV →
  (∀ dev n o, inside dev n o → on_disk d' dev n o =
     if decide (dev = b_dev r ∧ n = b_blocknr r) then b_data r o else on_disk d dev n o) →
  data_ok t' d' E ∧ same_blocks geom t t' d d'.
Proof.
  intros Hd Hc Hb Hdev Hdisk. set (f := upd (Some b) (λ r, r.[b_dirt := CLEAN])) in *.
  assert (Hk : keeps ident f) by by apply keeps_upd.
  assert (Hd' : data_ok t' d' E).
  { eapply (data_ok_changed _ f); [done|done|eauto with mh..|done|]. intros c rc o Hrc Hdi HcE Hin.
    rewrite (ident_data f) by done. rewrite Hdisk by done. case_decide as Hn.
    - assert (c = b) as ->; [|congruence]. destruct Hn as [Hn1 Hn2]. apply (do_uniq _ _ _ _ Hd (b_dev r) (b_blocknr r)); [done|by exists rc|by exists r].
    - unfold f in Hdi. destruct (decide (c = b)) as [->|Hne]; [|rewrite upd_ne in Hdi by congruence; by eapply do_clean].
      exfalso. apply Hn. assert (rc = r) as -> by congruence. done. }
  split; [done|]. eapply (same_blocks_changed _ Hgeom f); [done|eauto with mh..|done|done|].
  intros dev n o Hin Hno. rewrite Hdisk by done. case_decide as Hn; [|done]. exfalso.
  destruct Hn as [-> ->]. apply (Hno b). by exists r.
Qed.

(** A use of [b] ends. *)
Definition released (s s' : fsstate) (b : Z) : Prop :=
  rest s' = rest s ∧
  (∀ c r, bufs s !! c = Some r → ∃ r', bufs s' !! c = Some r' ∧ b_data r' = b_data r ∧ b_dev r' = b_dev r ∧
     b_blocknr r' = b_blocknr r ∧ b_count r' = b_count r - (if decide (c = b) then 1 else 0)).

Definition put_ok (s s' : fsstate) (E : gset Z) (b : Z) : Prop :=
  cache_ok s' E ∧ same_blocks geom (bufs s) (bufs s') (disk s) (disk s') ∧ released s s' b.

Lemma write_back s s' E b (Q : Z → fsstate → Prop) :
  put_ok s s' E b → (∀ r, bufs s' !! b = Some r → b_dev r ≠ NO_DEV) → is_Some (bufs s' !! b) →
  (∀ s'', put_ok s s'' E b → Q OK s'') → twp (rw_block task_io (Some b) WRITING) Q s'.
Proof.
  intros ([He Hd Hch] & Hsb & Hrel & Hbuf) Hdev [r Hr] HQ.
  eapply (rw_block_write geom Hgeom task_io Hworks s' b r); [done..|by apply Hdev|]. intros t d k Hc Hdisk.
  destruct (data_ok_written (bufs s') t (disk s') d E b r) as [Hd' Hsb']; [done..|by apply Hdev|done|].
  apply HQ. split; [split; [done|done|]|split; [by eapply same_blocks_trans|split; [done|]]].
  - by eapply (chains_upd s' _ b).
  - intros c rc Hrc. destruct (Hbuf c rc Hrc) as (r' & Hr' & Hid). exists (upd (Some b) (λ r, r.[b_dirt := CLEAN]) c r').
    split; [by eapply changed_Some|].
    assert (Hk : keeps ident (upd (Some b) (λ r, r.[b_dirt := CLEAN]))) by by apply keeps_upd.
    by rewrite (ident_data _ Hk), (ident_dev _ Hk), (ident_blocknr _ Hk), (ident_count _ Hk).
Qed.

(** The count goes down, and the buffer that is free goes on the chain. *)
Lemma put_chain s E b r (push : F unit) L L' (Q : unit → fsstate → Prop) :
  cache_ok s E → bufs s !! b = Some r → b ∉ E → b_count r = 1 → lru s L → free_on (bufs s) L None →
  let s1 := s.[bufs := modb (Some b) (λ r, r.[b_count := s8 (b_count r - 1)]) (bufs s)]
             .[bufs_in_use := bufs_in_use s - 1] in
  (∀ c, c ∈ L' ↔ c = b ∨ c ∈ L) → (lru s1 L → b ∉ L → is_Some (bufs s1 !! b) → twp push (λ _ s', pushed s1 s' L') s1) →
  (∀ s', put_ok s s' E b → Q tt s') → twp push Q s1.
Proof.
  intros [He Hd (L0 & H & _ & Hh & Hfi & _)] Hb HbE H1 Hl Hfr s1 HL' Hpush HQ.
  set (dec := λ r : buf, r.[b_count := s8 (b_count r - 1)]) in *.
  assert (Hc1 : changed (upd (Some b) dec) (bufs s) (bufs s1)) by apply changed_modb.
  assert (HbL : b ∉ L) by (rewrite (Hfr b r Hb); lia).
  assert (Hl1 : lru s1 L) by (apply (lru_keep s s1 L (upd (Some b) dec)); [done|by apply keeps_upd..|done|done|done]).
  eapply twp_mono; [apply Hpush; [done|done|apply is_Some_modb; by eexists]|].
  intros [] s' (t & f & Hs' & Hc & Hk & Hkh & Hl'). apply HQ.
  assert (Hb' : bufs s' = t) by by rewrite Hs'.
  assert (Hd1 : data_ok (bufs s1) (disk s1) E).
  { apply (data_ok_count _ (bufs s) _ _ _ b dec); [done..|]. intros r' Hr'. assert (r' = r) as -> by congruence.
    unfold dec. cbn. rewrite H1. change (s8 (1 - 1)) with 0. split; [done|]. by intros. }
  assert (Hca : calm geom E s1 s').
  { apply (calm_core geom Hgeom E f); [done|by rewrite Hs'|by rewrite Hs'|by rewrite Hb'|done]. }
  split; [split|split; [|split]].
  - eapply env_rest; [|done]. rewrite (ca_rest _ _ _ _ Hca). done.
  - apply Hca.
  - exists L', H. rewrite Hb'. split; [done|split; [|split]].
    + apply (hashed_keep s1 s' H f); [by rewrite Hb'|done|by rewrite Hs'|].
      apply (hashed_keep s s1 H (upd (Some b) dec)); [done|by apply keeps_upd|done|done].
    + apply (filed_keep (bufs s1) t H None f); [done|eauto with mh|].
      apply (filed_keep (bufs s) _ H None (upd (Some b) dec)); [done|by apply keeps_upd|done].
    + apply (free_keep (bufs s1) t L' None f); [done|eauto with mh|].
      intros c rc' (rc & Hrc & ->)%(changed_inv _ _ _ _ _ Hc1). rewrite HL'. destruct (decide (c = b)) as [->|Hne].
      * rewrite upd_eq. assert (rc = r) as -> by congruence. unfold dec. cbn. rewrite H1. change (s8 (1 - 1)) with 0. naive_solver.
      * rewrite upd_ne by congruence. rewrite (Hfr c rc Hrc). naive_solver.
  - eapply same_blocks_trans; [|apply Hca].
    by eapply (same_blocks_changed _ Hgeom (upd (Some b) dec)); [done|apply keeps_upd..|done|done|].
  - rewrite (ca_rest _ _ _ _ Hca). done.
  - intros c rc Hrc. exists (f c (upd (Some b) dec c rc)). split.
    { rewrite Hb'. eapply changed_Some; [done|]. by eapply changed_Some. }
    rewrite (ident_data f), (ident_dev f), (ident_blocknr f), (ident_count f) by eauto with mh.
    destruct (decide (c = b)) as [->|Hne]; [|rewrite upd_ne by congruence; split_and!; [done..|lia]].
    rewrite upd_eq. assert (rc = r) as -> by congruence. unfold dec. cbn. rewrite H1. done.
Qed.

Lemma put_block_spec s E b r block_type :
  cache_ok s E → bufs s !! b = Some r → 0 < b_count r → b ∉ E →
  twp (put_block task_io (Some b) block_type) (λ _ s', put_ok s s' E b) s.
Proof.
  intros Hok Hb Hp HbE. pose proof Hok as [He Hd (L & H & Hl & Hh & Hfi & Hfr)].
  pose proof (do_count _ _ _ _ Hd b r Hb) as Hcnt.
  set (dec := λ r : buf, r.[b_count := s8 (b_count r - 1)]).
  assert (Hc1 : changed (upd (Some b) dec) (bufs s) (modb (Some b) dec (bufs s))) by apply changed_modb.
  assert (Hb1 : modb (Some b) dec (bufs s) !! b = Some (dec r)) by (rewrite Hc1, Hb; cbn; by rewrite upd_eq).
  assert (Hs8 : s8 (b_count r - 1) = b_count r - 1) by (rewrite s8_id; lia).
  unfold put_block. apply twp_bind, twp_putb; [by eexists|]. apply twp_bind, (twp_getb _ (dec r)); [done|].
  change (b_count (dec r)) with (s8 (b_count r - 1)). rewrite Hs8.
  destruct (Z.eqb_spec (b_count r - 1) 0) as [H0|H0]; cbn [negb].
  - twpgo. assert (H1 : b_count r = 1) by lia.
    assert (Htail : ∀ s', put_ok s s' E b → twp (let* r0 := getb (Some b) in
        when (band block_type WRITE_IMMED && (b_dirt r0 =? DIRTY) && negb (b_dev r0 =? NO_DEV))
          (rw_block task_io (Some b) WRITING;;; skip)) (λ _ s', put_ok s s' E b) s').
    { intros s' Hput. pose proof Hput as (_ & _ & _ & Hbuf). destruct (Hbuf b r Hb) as (r' & Hr' & _).
      apply twp_bind, (twp_getb _ r'); [done|]. apply twp_when; [|done].
      intros [_ Hdev%negb_true_iff%Z.eqb_neq]%andb_true_iff. apply twp_bind.
      eapply write_back; [done| |by eexists|]; [intros r'' Hr''; congruence|]. by intros s''. }
    destruct ((b_dev (dec r) =? DEV_RAM) || band block_type ONE_SHOT).
    + eapply (put_chain s E b r _ L (b :: L)); [done..| |by apply push_front_spec|done]. intros c. apply elem_of_cons.
    + eapply (put_chain s E b r _ L (L ++ [b])); [done..| |by apply push_rear_spec|done].
      intros c. rewrite elem_of_app, list_elem_of_singleton. naive_solver.
  - twpgo. assert (Hcn : b_count (dec r) ≠ 0) by (unfold dec; cbn; lia).
    assert (Hd1 : data_ok (modb (Some b) dec (bufs s)) (disk s) E).
    { apply (data_ok_count _ (bufs s) _ _ _ b dec); [done..|]. intros r' Hr'. assert (r' = r) as -> by congruence.
      unfold dec. cbn. rewrite Hs8. split; [lia|]. by intros. }
    split; [split|split; [|split]]; [by apply (env_rest _ s)|done| | |done|].
    + exists L, H. split; [|split; [|split]].
      * by apply (lru_keep s _ L (upd (Some b) dec)); [|apply keeps_upd..| | |].
      * by apply (hashed_keep s _ H (upd (Some b) dec)); [|apply keeps_upd| |].
      * by apply (filed_keep (bufs s) _ H _ (upd (Some b) dec)); [|apply keeps_upd|].
      * eapply (free_on_put (bufs s) _ L b); [|done|done|done]. eapply free_on_some; [done|done|lia].
    + by eapply (same_blocks_changed _ Hgeom (upd (Some b) dec)); [done|apply keeps_upd..|done|done|].
    + intros c rc Hrc. exists (upd (Some b) dec c rc). split; [by eapply changed_Some|].
      destruct (decide (c = b)) as [->|Hne]; [|rewrite upd_ne by congruence; split_and!; [done..|lia]].
      rewrite upd_eq. assert (rc = r) as -> by congruence. unfold dec. cbn. by rewrite Hs8.
Qed.
End put.
