(* ===== verification/FsStore.v ===== *)
(** * The block cache as a store

    The abstract store that the cache implements, an array of blocks, and the steps of
    a user of buffers in terms of it: get a block, change it, put it back; and the cache
    that [buf_pool] builds, which satisfies the invariant. *)
From stdpp Require Import base gmap list numbers strings.
From Stdlib Require Import ZArith Lia.
From S2P Require Import Prelude.
From S2P Require Import Chains.
From S2P Require Import KTypes.
From S2P Require Import FsTypes.
From S2P Require Import FsCache.
From S2P Require Import FsCacheInv.
From S2P Require Import FsHash.
From S2P Require Import FsIo.
From S2P Require Import FsFlush.
From S2P Require Import FsGet.
From S2P Require Import FsPut.

(** ** The new cache *)
Definition pool : gmap Z buf := list_to_map (map (λ b, (b, new_buf b)) (zrange 0 NR_BUFS)).

Lemma pool_lookup b r : pool !! b = Some r ↔ 0 ≤ b < NR_BUFS ∧ r = new_buf b.
Proof.
  unfold pool. rewrite <-elem_of_list_to_map.
  - rewrite list_elem_of_fmap. split.
    + intros (c & [= -> ->] & Hc%elem_of_zrange). done.
    + intros [Hb ->]. exists b. split; [done|by apply elem_of_zrange].
  - rewrite <-list_fmap_compose. change (fst ∘ _) with (λ b : Z, b). rewrite list_fmap_id. apply zrange_nodup.
Qed.

Lemma pool_lru s : bufs s = pool → front s = Some 0 → rear s = Some (NR_BUFS - 1) → lru s (zrange 0 NR_BUFS).
Proof.
  intros Hb Hf Hr. split; [apply zrange_nodup| |by rewrite Hf|].
  - intros i b Hi. rewrite Hb. exists (new_buf b). apply zrange_lookup in Hi as [-> Hi].
    split; [apply pool_lookup; split; [lia|done]|]. unfold new_buf. cbn [b_next b_prev]. split.
    + symmetry. destruct (Z.eqb_spec (0 + Z.of_nat i) (NR_BUFS - 1)) as [He|He].
      * apply eq_None_not_Some. intros [x [-> Hx]%zrange_lookup]. lia.
      * apply zrange_lookup. lia.
    + destruct i as [|i]; [done|]. cbn [pred_of]. destruct (Z.eqb_spec (0 + Z.of_nat (Datatypes.S i)) 0); [lia|].
      symmetry. apply zrange_lookup. lia.
  - rewrite Hr, last_lookup, zrange_length. symmetry. apply zrange_lookup. done.
Qed.

Lemma pool_chain k : 0 ≤ k < NR_BUFS → chain b_hash pool (Some k) (zrange k NR_BUFS).
Proof.
  remember (Z.to_nat (NR_BUFS - k)) as n eqn:Hn. revert k Hn. induction n as [|n IH]; intros k Hn Hk; [lia|].
  rewrite zrange_cons by lia. split; [done|]. exists (new_buf k). split; [by apply pool_lookup|].
  unfold new_buf. cbn [b_hash]. destruct (Z.eqb_spec k (NR_BUFS - 1)) as [->|Hne].
  - by rewrite zrange_nil by lia.
  - apply IH; lia.
Qed.

Section pool.
Context (geom : Z → option geometry) (Hgeom : geom_ok geom).

Lemma buf_pool_ok s : env_ok geom s → twp buf_pool (λ _ s', cache_ok geom s' ∅ ∧ rest s' = rest s ∧
  disk s' = disk s ∧ (∀ b, count_of s' b = 0) ∧ ∀ b r, bufs s' !! b = Some r → b_dev r = NO_DEV) s.
Proof.
  intros He. unfold buf_pool. apply twp_modify. fold pool.
  set (s' := s.[bufs := pool].[buf_hash := _].[front := _].[rear := _].[bufs_in_use := _]).
  assert (Hcnt : ∀ b, count_of s' b = 0).
  { intros b. unfold count_of. change (bufs s') with pool. destruct (pool !! b) as [r|] eqn:Hr; [|done].
    by apply pool_lookup in Hr as [_ ->]. }
  split; [split|split; [done|split; [done|split; [exact Hcnt|by intros b r [_ ->]%pool_lookup]]]].
  - by apply (env_rest _ s).
  - change (bufs s') with pool. split.
    + intros b. split; [intros [r [? _]%pool_lookup]; done|]. intros Hb. exists (new_buf b). by apply pool_lookup.
    + intros b r [_ ->]%pool_lookup. done.
    + intros b r [_ ->]%pool_lookup. done.
    + intros dev n b c Hne (r & [_ ->]%pool_lookup & <- & _). done.
    + intros b r o [_ ->]%pool_lookup _ _ Hin. by apply (inside_dev _ Hgeom) in Hin.
    + intros b r _ Hb. by apply elem_of_empty in Hb.
  - exists (zrange 0 NR_BUFS), (λ h, if h =? 0 then zrange 0 NR_BUFS else []).
    split; [by apply pool_lru|]. split; [split|split].
    + intros h. change (buf_hash s') with ({[0 := 0]} : gmap Z Z). change (bufs s') with pool.
      destruct (Z.eqb_spec h 0) as [->|Hne]; [rewrite lookup_singleton_eq; by apply pool_chain|].
      by rewrite lookup_singleton_ne.
    + intros h. destruct (h =? 0); [apply zrange_nodup|constructor].
    + intros b r [Hb ->]%pool_lookup h. change (hash_of (b_blocknr (new_buf b))) with 0.
      destruct (Z.eqb_spec h 0) as [->|Hne]; [rewrite elem_of_zrange|rewrite elem_of_nil]; split; [by intros|done|done|by intros []].
    + intros b r [Hb ->]%pool_lookup. rewrite elem_of_zrange. done.
Qed.
End pool.

(** ** The abstract store: an array of blocks *)
Abbreviation contents := (Z → Z → Z → Z).

Definition update (v : contents) (dev n : Z) (x : Z → Z) : contents := λ dev' n' o,
  if decide (dev' = dev ∧ n' = n) then x o else v dev' n' o.

(** What a user of a buffer does to its data. *)
Definition write_buf (b : Z) (x : Z → Z) : F unit := putb (Some b) (λ r, r.[b_data := x].[b_dirt := DIRTY]).

Section store.
Context (geom : Z → option geometry).
Context (task_io : Z → dev_req → Z → disks → dev_reply).
Context (Hgeom : geom_ok geom) (Hworks : works geom task_io).

#[local] Abbreviation data_ok := (data_ok geom).
#[local] Abbreviation inside := (inside geom).
#[local] Abbreviation blk := (blk geom).

Definition refines (s : fsstate) (v : contents) : Prop :=
  cache_ok geom s ∅ ∧ ∀ dev n o, inside dev n o → blk (bufs s) (disk s) dev n o = v dev n o.

Lemma data_ok_dirty t t' d E b x dev n :
  data_ok t d ({[b]} ∪ E) → changed (upd (Some b) (λ r, r.[b_data := x].[b_dirt := DIRTY])) t t' →
  named t dev n b → within geom dev n →
  data_ok t' d E ∧ ∀ dev' n' o, inside dev' n' o → blk t' d dev' n' o = update (blk t d) dev n x dev' n' o.
Proof.
  intros Hd Hc (r & Hb & <- & <-) Hw. pose proof (within_dev _ Hgeom _ _ Hw) as Hdev.
  set (f := upd (Some b) (λ r, r.[b_data := x].[b_dirt := DIRTY])) in *.
  assert (K2 : keeps b_dev f) by by apply keeps_upd. assert (K3 : keeps b_blocknr f) by by apply keeps_upd.
  assert (Hd' : data_ok t' d E).
  { eapply (data_ok_changed _ f); [done|done|done|done|by apply keeps_upd|set_solver|].
    intros c rc o Hrc Hdi HcE Hin. unfold f in *. destruct (decide (c = b)) as [->|Hne]; [by rewrite upd_eq in Hdi|].
    rewrite upd_ne in * by congruence. eapply do_clean; [done..|set_solver|done]. }
  split; [done|]. intros dev n o Hin. pose proof (inside_dev _ Hgeom _ _ _ Hin) as Hne. unfold update. case_decide as Hn.
  - destruct Hn as [-> ->]. rewrite (blk_named _ t' d E _ _ _ b (f b r));
      [unfold f; by rewrite upd_eq|done|by eapply changed_Some|apply K2|apply K3|done].
  - destruct (cached t dev n) as [c|] eqn:Hca.
    + apply cached_named in Hca as (rc & Hrc & H1 & H2). rewrite (blk_named _ t d _ _ _ _ c rc) by done.
      assert (c ≠ b) by (intros ->; apply Hn; split; congruence).
      apply (blk_named _ t' d E _ _ _ c rc); [done| |done..]. rewrite <-Hrc. eapply changed_ne; [done|congruence].
    + pose proof (cached_None _ _ _ (do_all _ _ _ _ Hd) Hca) as Hno.
      rewrite !blk_disk; [done|done|]. intros c. by rewrite (named_changed f t t').
Qed.

Lemma write_refines s E b x dev n Q :
  cache_ok geom s ({[b]} ∪ E) → named (bufs s) dev n b → within geom dev n →
  (∀ s', cache_ok geom s' E → (∀ dev' n' o, inside dev' n' o →
     blk (bufs s') (disk s') dev' n' o = update (blk (bufs s) (disk s)) dev n x dev' n' o) → Q tt s') →
  twp (write_buf b x) Q s.
Proof.
  intros [He Hd Hch] Hn Hw HQ. pose proof Hn as (r & Hb & _). unfold write_buf. apply twp_putb; [by eexists|].
  edestruct (data_ok_dirty (bufs s)) as [Hd' Hblk]; [done|apply changed_modb|done|done|].
  apply HQ; [split; [done|done|]|exact Hblk].
  by eapply (chains_upd s _ b); [apply changed_modb|..].
Qed.

Lemma refines_same s s' v :
  refines s v → cache_ok geom s' ∅ → same_blocks geom (bufs s) (bufs s') (disk s) (disk s') → refines s' v.
Proof. intros [_ Hv] Hok Hs. split; [done|]. intros dev n o Hin. by rewrite Hs, Hv. Qed.

Lemma twp_Ret {A} (m : F A) Q s a s' : m s = Ret a s' → twp m Q s → Q a s'.
Proof. unfold twp. by intros ->. Qed.

Lemma count_pos s b : 0 < count_of s b → ∃ r, bufs s !! b = Some r ∧ b_count r = count_of s b.
Proof. unfold count_of. destruct (bufs s !! b) as [r|]; [by exists r|lia]. Qed.


(** ** The steps of a user *)

(** Some buffer is free, and none has 127 users. *)
Definition ready (s : fsstate) : Prop := has_free s ∧ ∀ b, count_of s b < 127.
Definition same_counts (s s' : fsstate) : Prop := ∀ b, count_of s' b = count_of s b.

Lemma ready_same s s' : same_counts s s' → ready s → ready s'.
Proof.
  intros H [(b & Hb & H0) H1]. split; [exists b; by rewrite H|]. intros c. by rewrite H.
Qed.

(** A buffer that is in use for block [n] of [dev], and its data. *)
Definition holds (s : fsstate) (b dev n : Z) (x : Z → Z) : Prop := ∃ r,
  bufs s !! b = Some r ∧ b_dev r = dev ∧ b_blocknr r = n ∧ 0 < b_count r ∧ b_data r = x.

Lemma get_refines s v dev n :
  refines s v → ready s → within geom dev n →
  twp (get_block task_io dev n NORMAL) (λ p s', ∃ b x, p = Some b ∧ refines s' v ∧ holds s' b dev n x ∧
    (∀ o, inside dev n o → x o = v dev n o) ∧ used s s' b) s.
Proof.
  intros [Hok Hv] [Hf H127] Hw.
  eapply twp_mono; [by apply (get_block_normal geom Hgeom task_io Hworks s ∅ dev n)|].
  intros p s' (b & -> & Hok' & (r & Hr & Hd & Hn) & Hs & Hu). exists b, (b_data r). split; [done|].
  split; [by apply (refines_same s s' v)|]. split; [exists r; split_and!; [done..| |done]|split; [|done]].
  - pose proof (proj2 Hu b) as Hc. rewrite decide_True in Hc by done. unfold count_of in Hc at 1. rewrite Hr in Hc.
    destruct (bufs s !! b) as [r0|] eqn:Hr0; [|unfold count_of in Hc; rewrite Hr0 in Hc; lia].
    pose proof (do_count _ _ _ _ (co_data _ _ _ Hok) b r0 Hr0). unfold count_of in Hc. rewrite Hr0 in Hc. lia.
  - intros o Hin. rewrite <-(Hv dev n o Hin), <-(Hs dev n o Hin). symmetry.
    eapply blk_named; [apply Hok'|done..|by eapply inside_dev].
Qed.

Lemma put_refines s v b dev n x block_type :
  refines s v → holds s b dev n x →
  twp (put_block task_io (Some b) block_type) (λ _ s', refines s' v ∧ released s s' b) s.
Proof.
  intros Hr (r & Hb & _ & _ & Hp & _). eapply twp_mono.
  { eapply (put_block_spec geom Hgeom task_io Hworks s ∅ b r); [apply Hr|done|done|set_solver]. }
  intros _ s' (Hok & Hs & Hrel). split; [by eapply refines_same|done].
Qed.

Lemma released_counts s s' b : released s s' b → is_Some (bufs s !! b) → all_bufs (bufs s) → all_bufs (bufs s') →
  ∀ c, count_of s' c = count_of s c - (if decide (c = b) then 1 else 0).
Proof.
  intros [_ Hbuf] Hb Ha Ha' c. unfold count_of. destruct (bufs s !! c) as [r|] eqn:Hr.
  - destruct (Hbuf c r Hr) as (r' & Hr' & _ & _ & _ & Hc). by rewrite Hr'.
  - case_decide; [subst; by destruct Hb; congruence|]. destruct (bufs s' !! c) as [r'|] eqn:Hr'; [|done].
    exfalso. assert (is_Some (bufs s !! c)) as [? ?]; [|congruence]. apply Ha, Ha'. by eexists.
Qed.

Lemma write_step s v b dev n x y f :
  refines s v → holds s b dev n x → within geom dev n →
  (∀ r, bufs s !! b = Some r → f r = r.[b_data := y].[b_dirt := DIRTY]) →
  twp (putb (Some b) f) (λ _ s', refines s' (update v dev n y) ∧ holds s' b dev n y ∧
    rest s' = rest s ∧ same_counts s s' ∧ ∀ c, c ≠ b → bufs s' !! c = bufs s !! c) s.
Proof.
  intros [Hok Hv] (r & Hb & Hd & Hn & Hp & Hx) Hw Hf.
  assert (Hnm : named (bufs s) dev n b) by by exists r.
  assert (Hc : changed (upd (Some b) (λ r, r.[b_data := y].[b_dirt := DIRTY])) (bufs s) (modb (Some b) f (bufs s))).
  { intros c. rewrite lookup_modb. destruct (bufs s !! c) as [rc|] eqn:Hrc; [|done]. cbn. f_equal.
    destruct (decide (c = b)) as [->|Hne]; [rewrite !upd_eq; by apply Hf|by rewrite !upd_ne by congruence]. }
  apply twp_putb; [by eexists|]. destruct Hok as [He Hdo Hch].
  destruct (data_ok_dirty (bufs s) (modb (Some b) f (bufs s)) (disk s) ∅ b y dev n) as [Hd' Hblk]; [|done..|].
  { by eapply data_ok_weaken. }
  assert (Hb' : modb (Some b) f (bufs s) !! b = Some (r.[b_data := y].[b_dirt := DIRTY])).
  { rewrite Hc, Hb. cbn. by rewrite upd_eq. }
  split; [split; [split; [by apply (env_rest _ s)|done|]|]|].
  - by eapply (chains_upd s _ b).
  - intros dev' n' o Hin. etransitivity; [exact (Hblk dev' n' o Hin)|]. unfold update. case_decide; [done|]. by apply Hv.
  - split; [by exists (r.[b_data := y].[b_dirt := DIRTY])|]. split; [done|]. split.
    + intros c. unfold count_of. change (bufs (s.[bufs := ?t])) with t. rewrite Hc.
      destruct (bufs s !! c); [|done]. cbn. by apply (keeps_upd b_count).
    + intros c Hne. eapply changed_ne; [done|congruence].
Qed.
End store.
