(* ===== verification/FsProps.v ===== *)
(** * The block cache: its theorems

    What the users of the cache rely on: whatever sequence of its operations has run,
    the cache with its disks is an array of blocks ([cache_refines]); a block that is
    asked for is returned ([get_block_returns]); a flush puts it all on the disk
    ([flushall_writes]); and the sort that orders a flush sorts ([shell_sort_sorts]).  The witnesses are about
    a small disk, behind a driver that keeps its promises ([demo_io]). *)
From stdpp Require Import base gmap list numbers strings.
From Stdlib Require Import ZArith Lia.
From stdpp Require Import base gmap list sorting numbers strings.
From S2P Require Import Prelude.
From S2P Require Import Chains.
From S2P Require Import KTypes.
From S2P Require Import KProc.
From S2P Require Import Timers.
From S2P Require Import FsTypes.
From S2P Require Import FsCache.
From S2P Require Import FsCacheInv.
From S2P Require Import FsHash.
From S2P Require Import FsIo.
From S2P Require Import FsFlush.
From S2P Require Import FsGet.
From S2P Require Import FsPut.
From S2P Require Import FsStore.

(** A driver that does what it is asked to. *)
Definition demo_io (drv : Z) (req : dev_req) (k : Z) (d : disks) : dev_reply :=
  let n := match dq_iov req with (n, _) :: _ => n | [] => 0 end in
  let done_iov := map (λ e, (0, e.2)) (dq_iov req) in
  if dq_type req =? DEV_READ then
    DevReply (dq_count req) false [(0, λ o, d drv (dq_device req) (dq_position req + o))] d
  else
    DevReply (if dq_type req =? DEV_WRITE then dq_count req else OK) false done_iov
      (scattered d drv (dq_device req) n (dq_position req) (dq_iov req)).

Lemma demo_works geom : works geom demo_io.
Proof.
  split.
  - intros dev g pos n x k d Hg H1 H2 H3. cbn. split; [done|]. split; [done|]. split; [by intros ???|].
    eexists _, _. split; [reflexivity|]. done.
  - intros dev g pos n x k d Hg H1 H2 H3. cbn. split; [done|]. split; [done|]. by intros ???.
  - intros dev g pos n l k d Hg H1 H2 H3 H4 H5. cbn. split; [done|]. split; [done|]. split; [apply length_map|].
    split; [by apply Forall_map, Forall_forall|]. destruct l as [|[n' x] l].
    + intros drv m p. unfold scattered. cbn [length]. rewrite !Z.mul_0_r. done.
    + apply Forall_cons in H5 as [Hn _]. cbn in Hn. by subst n'.
Qed.

(** Device 0x0301, of a driver with endpoint 5, has a file system of 64 blocks. *)
Definition demo_dev : Z := 0x0301.
Definition demo_geom (dev : Z) : option geometry := if dev =? demo_dev then Some (Geometry 5 1024 64) else None.
Definition demo_sp : super_block :=
  SuperBlock 64 64 1 1 8 0 1000000 64 SUPER_V2 1024 16 demo_dev false true V2 V2_NR_DZONES 256 0 0 None None.
Definition demo_fproc (e : Z) : fproc :=
  FProc 0 None None (replicate 30 None) 0 0 0 0 0 0 0 0 0 0 0 0 0 false false e 0 e.
Definition demo_disk : disks := λ drv m p, (drv + m + p + 1) mod 256.
Definition demo_fs : fsstate :=
  FsState ∅ ∅ None None 0 {[0 := demo_sp]} ∅ ∅ {[5 := demo_fproc 5; 7 := demo_fproc 7]} 7 true 0 0 {[3 := 5]} msg0 0
    (λ _, 0) 0 0 demo_dev 0 0 demo_disk ∅ ∅ ∅ 0 msg0 [] ∅ (TQueue None ∅) [].

Lemma demo_geom_ok : geom_ok demo_geom.
Proof.
  split.
  - done.
  - intros dev g. unfold demo_geom. destruct (dev =? demo_dev); [|done]. intros [= <-]. done.
  - intros dev dev' g g'. unfold demo_geom. destruct (Z.eqb_spec dev demo_dev), (Z.eqb_spec dev' demo_dev); congruence.
Qed.

Lemma demo_env : env_ok demo_geom demo_fs.
Proof.
  intros dev g. unfold demo_geom. destruct (Z.eqb_spec dev demo_dev) as [->|]; [|done]. intros [= <-].
  by vm_compute.
Qed.

Section store.
Context (geom : Z → option geometry).
Context (task_io : Z → dev_req → Z → disks → dev_reply).

(** The states that the operations reach, with what the store holds then. *)
Inductive reach : fsstate → contents → Prop :=
| reach_pool s0 s :
    env_ok geom s0 → buf_pool s0 = Ret tt s → reach s (on_disk geom (disk s0))
| reach_get s v dev n p s' :
    reach s v → within geom dev n → has_free s → (∀ b, named (bufs s) dev n b → count_of s b < 127) →
    get_block task_io dev n NORMAL s = Ret p s' → reach s' v
| reach_new s v dev n p s1 s2 :
    reach s v → within geom dev n → has_free s → (∀ b, named (bufs s) dev n b → count_of s b < 127) →
    get_block task_io dev n NO_READ s = Ret p s1 → zero_block p s1 = Ret tt s2 →
    reach s2 (update v dev n (λ _, 0))
| reach_write s v dev n b x s' :
    reach s v → within geom dev n → named (bufs s) dev n b → 0 < count_of s b →
    write_buf b x s = Ret tt s' → reach s' (update v dev n x)
| reach_put s v b block_type s' :
    reach s v → 0 < count_of s b → put_block task_io (Some b) block_type s = Ret tt s' → reach s' v
| reach_flush s v dev s' :
    reach s v → is_Some (geom dev) → flushall task_io dev s = Ret tt s' → reach s' v.

Context (Hgeom : geom_ok geom) (Hworks : works geom task_io).

#[local] Abbreviation refines := (FsStore.refines geom).

Lemma reach_refines s v : reach s v → refines s v.
Proof.
  induction 1 as [s0 s He Hrun|s v dev n p s' _ IH Hw Hf H127 Hrun|s v dev n p s1 s2 _ IH Hw Hf H127 Hrun Hz
    |s v dev n b x s' _ IH Hw Hn Hp Hrun|s v b ty s' _ IH Hp Hrun|s v dev s' _ IH Hg Hrun].
  - pose proof (twp_Ret _ _ _ _ _ Hrun (buf_pool_ok geom Hgeom s0 He)) as (Hok & Hr & Hd & Hcnt & Hno). split; [done|].
    intros dev n o Hin. rewrite blk_disk, Hd; [done|]. intros b (r & Hb & Hdev & _).
    apply (inside_dev _ Hgeom) in Hin. by rewrite (Hno b r Hb) in Hdev.
  - pose proof (twp_Ret _ _ _ _ _ Hrun (get_block_normal geom Hgeom task_io Hworks s ∅ dev n (proj1 IH) Hw Hf H127))
      as (b & -> & Hok & _ & Hs & _). by eapply refines_same.
  - pose proof (twp_Ret _ _ _ _ _ Hrun (get_block_no_read geom Hgeom task_io Hworks s ∅ dev n (proj1 IH) Hw Hf H127))
      as (b & -> & Hok & Hn & Hs & _).
    eapply (twp_Ret (write_buf b (λ _, 0)) (λ _ s2, refines s2 _)); [exact Hz|].
    eapply write_refines; [done..|]. intros s' Hok' Hblk. split; [done|]. intros dev' n' o Hin. rewrite Hblk by done.
    unfold update. case_decide as Hd; [done|]. rewrite Hs; [by apply IH|done|]. intros [= -> ->]. by apply Hd.
  - eapply (twp_Ret _ (λ _ s2, refines s2 _)); [exact Hrun|]. destruct IH as [Hok Hv].
    destruct (count_pos s b Hp) as (r & Hr & Hc).
    eapply (write_refines geom task_io Hgeom Hworks s ∅); [|done|done|].
    + destruct Hok as [He Hd Hch]. split; [done| |done]. eapply data_ok_weaken; [done..|lia].
    + intros s2 Hok' Hblk. split; [done|]. intros dev' n' o Hin. rewrite Hblk by done.
      unfold update. case_decide as Hd; [done|]. by apply Hv.
  - destruct (count_pos s b Hp) as (r & Hr & Hc).
    assert (Hput : twp (put_block task_io (Some b) ty) (λ _ s', put_ok geom s s' ∅ b) s).
    { eapply put_block_spec; [done|done|apply IH|done|lia|set_solver]. }
    pose proof (twp_Ret _ _ _ _ _ Hrun Hput) as (Hok & Hs & _). by eapply refines_same.
  - destruct IH as [[He Hd Hch] Hv].
    assert (Hfl : twp (flushall task_io dev) (λ _ s', refines s' v) s); [|exact (twp_Ret _ _ _ _ _ Hrun Hfl)].
    eapply flushall_spec; [done..|]. intros s2 l Hfl _.
    pose proof (calm_flushed geom ∅ s s2 l Hfl) as Hca. destruct Hfl as (t & d & k & -> & Hc & Hd2 & Hs).
    eapply refines_same; [split; [split; done|done]| |done]. split; [by apply (env_rest _ s)|done|].
    destruct Hch as (L & H & Hl & Hh & Hfi & Hfr). exists L, H. split_and!.
    + by apply (lru_keep s _ L (cleaned l)); [|apply cleaned_keeps..| | |].
    + by apply (hashed_keep s _ H (cleaned l)); [|apply cleaned_keeps| |].
    + by apply (filed_keep (bufs s) t H _ (cleaned l)); [|apply cleaned_keeps|].
    + by apply (free_keep (bufs s) t L _ (cleaned l)); [|apply cleaned_keeps|].
Qed.
End store.

(** ** The properties *)

(** C30. Whatever gets, writes, puts and flushes have run since [buf_pool], the cache is in
    order (LRU chain and hash chains hold exactly the buffers they should, no block has
    two buffers, clean buffers agree with the disk), and cache and disks together hold
    what an array of blocks would: evictions and flushes never lose or change a block. *)
Theorem cache_refines geom task_io s v :
  geom_ok geom → works geom task_io → reach geom task_io s v →
  cache_ok geom s ∅ ∧ ∀ dev n o, inside geom dev n o → blk geom (bufs s) (disk s) dev n o = v dev n o.
Proof. intros Hg Hw H. by apply (reach_refines geom task_io Hg Hw). Qed.

(** C31. A block that is asked for is returned, as long as some buffer is free: the buffer is
    the block's, holds its contents and is used once more; the buffers that others use
    keep their names, data and counts, and the rest of the server is not touched. *)
Theorem get_block_returns geom task_io s v dev n :
  geom_ok geom → works geom task_io → reach geom task_io s v → within geom dev n → has_free s →
  (∀ b, named (bufs s) dev n b → count_of s b < 127) →
  ∃ b r s', get_block task_io dev n NORMAL s = Ret (Some b) s' ∧ bufs s' !! b = Some r ∧
    b_dev r = dev ∧ b_blocknr r = n ∧ (∀ o, inside geom dev n o → b_data r o = v dev n o) ∧ used s s' b.
Proof.
  intros Hg Hw Hr Hwi Hf H127. destruct (reach_refines geom task_io Hg Hw s v Hr) as [Hok Hv].
  destruct (twp_inv _ _ _ (get_block_normal geom Hg task_io Hw s ∅ dev n Hok Hwi Hf H127))
    as (p & s' & Hrun & b & -> & Hok' & (r & Hb & Hd & Hn) & Hs & Hu).
  exists b, r, s'. do 4 (split; [done|]). split; [|done]. intros o Hin.
  rewrite <-(Hv dev n o Hin), <-(Hs dev n o Hin). symmetry. eapply blk_named; [apply Hok'|done..|by eapply inside_dev].
Qed.

(** C32. A flush ends, and afterwards every block of the device is on the disk. *)
Theorem flushall_writes geom task_io s v dev :
  geom_ok geom → works geom task_io → reach geom task_io s v → is_Some (geom dev) →
  ∃ s', flushall task_io dev s = Ret tt s' ∧
    ∀ n o, inside geom dev n o → on_disk geom (disk s') dev n o = v dev n o.
Proof.
  intros Hg Hw Hr Hdev. destruct (reach_refines geom task_io Hg Hw s v Hr) as [[He Hd _] Hv].
  assert (Hfl : twp (flushall task_io dev) (λ _ s',
    ∀ n o, inside geom dev n o → on_disk geom (disk s') dev n o = v dev n o) s).
  { eapply flushall_spec; [done..|]. intros s' l (t & d & k & -> & Hc & Hd' & Hs) Hl n o Hin.
    rewrite <-Hv, <-(Hs dev n o) by done. change (disk _) with d. destruct (cached t dev n) as [b|] eqn:Hca.
    - apply cached_named in Hca as (r & Hb & Hdr & Hn). pose proof (inside_dev _ Hg _ _ _ Hin).
      rewrite (blk_named _ t d ∅ _ _ _ b r) by done. symmetry. rewrite <-Hdr, <-Hn.
      eapply do_clean; [done..| |set_solver|by rewrite Hdr, Hn]. intros Hdi.
      assert (Hdirty : is_dirty t dev b = true) by (apply is_dirty_true; by exists r).
      apply (dirty_cleaned l (bufs s) t) in Hdirty as [H1 H2]; [|done]. by apply H2, Hl.
    - rewrite blk_disk; [done|]. by apply cached_None; [apply Hd'|]. }
  apply twp_inv in Hfl as ([] & s' & Hrun & H). by exists s'.
Qed.

(** C33. The Shell sort of [rw_scattered] sorts: it permutes the buffers of a transfer, and
    their blocks are in ascending order afterwards, for any number of buffers; where the
    blocks are distinct, it is the merge sort. *)
Theorem shell_sort_sorts key (q : list Z) :
  shell_sort key q ≡ₚ q ∧ Sorted (by_key key) (shell_sort key q) ∧
  (NoDup (map key q) → shell_sort key q = merge_sort (by_key key) q).
Proof.
  pose proof (shell_permutation key q) as Hp. pose proof (shell_ordered key q) as Ho.
  assert (Hs : StronglySorted (by_key key) (shell_sort key q)).
  { rewrite <-(Permutation_length Hp) in Ho. revert Ho. generalize (shell_sort key q). intros l. induction l as [|a l IH]; intros Ho; [constructor|].
    constructor.
    - apply IH. intros i j x y Hij Hx Hy. apply (Ho (Datatypes.S i) (Datatypes.S j)); [cbn; lia|done|done].
    - apply Forall_lookup. intros j y Hy. apply (Ho 0%nat (Datatypes.S j)); [|done|done].
      apply lookup_lt_Some in Hy. cbn. lia. }
  split; [done|]. split; [by apply StronglySorted_Sorted|]. intros Hnd.
  apply (StronglySorted_unique_strong (by_key key)); [|done|apply StronglySorted_merge_sort; typeclasses eauto|by rewrite Hp, merge_sort_Permutation].
  intros a b Ha Hb H1 H2. rewrite Hp in Ha. rewrite merge_sort_Permutation in Hb.
  apply list_elem_of_lookup in Ha as [i Hi]. apply list_elem_of_lookup in Hb as [j Hj].
  assert (i = j) as ->; [|congruence]. eapply (NoDup_lookup (map key q)); [done| |].
  - change (map key q) with (key <$> q). rewrite list_lookup_fmap, Hi. reflexivity.
  - change (map key q) with (key <$> q). rewrite list_lookup_fmap, Hj. cbn. f_equal. unfold by_key in *. lia.
Qed.

(** ** Concrete runs *)

(** The server after it has started, written a block and put it back. *)
Definition demo_pool : fsstate := in_state (buf_pool demo_fs) demo_fs.
Definition demo_got : fsstate := in_state (get_block demo_io demo_dev 9 NORMAL demo_pool) demo_pool.
Definition demo_written : fsstate := in_state (write_buf 0 (λ o, o mod 7) demo_got) demo_got.
Definition demo_back : fsstate := in_state (put_block demo_io (Some 0) PARTIAL_DATA_BLOCK demo_written) demo_written.
Definition demo_contents : contents := update (on_disk demo_geom demo_disk) demo_dev 9 (λ o, o mod 7).

Lemma demo_pool_eq : buf_pool demo_fs = Ret tt demo_pool.
Proof. apply answers_eq. by vm_compute. Qed.

Lemma demo_within n : 0 ≤ n < 64 → within demo_geom demo_dev n.
Proof. intros H. by exists (Geometry 5 1024 64). Qed.

Lemma demo_has_free s : bool_decide (count_of s 17 = 0) = true → has_free s.
Proof. intros H%bool_decide_eq_true. by exists 17. Qed.

(** No buffer is used 127 times. *)
Definition few_uses (s : fsstate) : bool := forallb (λ b, bool_decide (count_of s b < 127)) (zrange 0 NR_BUFS).
Lemma few_uses_ok s dev n : cache_ok demo_geom s ∅ → few_uses s = true →
  ∀ b, named (bufs s) dev n b → count_of s b < 127.
Proof.
  intros Hok Hf b (r & Hb & _). unfold few_uses in Hf. rewrite forallb_forall in Hf.
  eapply bool_decide_eq_true_1, Hf, list_elem_of_In, elem_of_zrange, (do_all _ _ _ _ (co_data _ _ _ Hok)). by exists r.
Qed.

Lemma demo_named s dev n b : bool_decide ((λ r, (b_dev r, b_blocknr r)) <$> bufs s !! b = Some (dev, n)) = true →
  named (bufs s) dev n b.
Proof.
  intros H%bool_decide_eq_true. apply fmap_Some in H as (r & Hr & Heq). injection Heq as -> ->. by exists r.
Qed.

Lemma demo_reach0 : reach demo_geom demo_io demo_pool (on_disk demo_geom demo_disk).
Proof. exact (reach_pool demo_geom demo_io demo_fs demo_pool demo_env demo_pool_eq). Qed.

Lemma demo_reach : reach demo_geom demo_io demo_back demo_contents.
Proof.
  pose proof (reach_refines _ _ demo_geom_ok (demo_works _)) as Href.
  assert (R1 : reach demo_geom demo_io demo_got (on_disk demo_geom demo_disk)).
  { eapply (reach_get _ _ demo_pool _ demo_dev 9 (Some 0)); [apply demo_reach0|by apply demo_within| | |].
    - apply demo_has_free. by vm_compute.
    - apply few_uses_ok; [apply (Href _ _ demo_reach0)|by vm_compute].
    - apply answers_eq. by vm_compute. }
  assert (R2 : reach demo_geom demo_io demo_written demo_contents).
  { eapply (reach_write _ _ demo_got _ demo_dev 9 0); [exact R1|by apply demo_within| |by vm_compute|].
    - apply demo_named. by vm_compute.
    - apply answers_eq. by vm_compute. }
  eapply (reach_put _ _ demo_written _ 0 PARTIAL_DATA_BLOCK); [exact R2|by vm_compute|].
  apply answers_eq. by vm_compute.
Qed.

Lemma cache_refines_witness :
  reach demo_geom demo_io demo_back demo_contents ∧ cache_ok demo_geom demo_back ∅.
Proof.
  split; [exact demo_reach|]. apply (cache_refines demo_geom demo_io demo_back demo_contents demo_geom_ok (demo_works _) demo_reach).
Defined.

Lemma get_block_returns_witness : ∃ b r s', get_block demo_io demo_dev 9 NORMAL demo_back = Ret (Some b) s' ∧
  bufs s' !! b = Some r ∧ b_data r 12 = 5.
Proof.
  destruct (get_block_returns demo_geom demo_io demo_back demo_contents demo_dev 9 demo_geom_ok (demo_works _) demo_reach)
    as (b & r & s' & H1 & H2 & _ & _ & H3 & _).
  - by apply demo_within.
  - apply demo_has_free. by vm_compute.
  - apply few_uses_ok; [apply (reach_refines _ _ demo_geom_ok (demo_works _) _ _ demo_reach)|by vm_compute].
  - exists b, r, s'. split; [exact H1|]. split; [exact H2|]. rewrite H3; [vm_compute; reflexivity|]. exists (Geometry 5 1024 64). split; [reflexivity|cbn; lia].
Defined.

Lemma flushall_writes_witness : ∃ s', flushall demo_io demo_dev demo_back = Ret tt s' ∧
  on_disk demo_geom (disk demo_back) demo_dev 9 12 = 19 ∧ on_disk demo_geom (disk s') demo_dev 9 12 = 5.
Proof.
  destruct (flushall_writes demo_geom demo_io demo_back demo_contents demo_dev demo_geom_ok (demo_works _) demo_reach)
    as (s' & H1 & H2); [by eexists|].
  exists s'. split; [exact H1|]. split; [vm_compute; reflexivity|]. rewrite H2; [vm_compute; reflexivity|]. exists (Geometry 5 1024 64). split; [reflexivity|cbn; lia].
Defined.
