(* ===== verification/FsMap.v ===== *)
(** * The file system server: bit maps and the blocks of a file

    The bit maps of [src/servers/fs/super.c], with [alloc_zone] and [free_zone] of
    [cache.c].  The zones of an inode, direct and through one or two indirect blocks: [read_map]
    and [rd_indir] of [src/servers/fs/read.c]; [write_map], [wr_indir], [empty_indir],
    [clear_zone] and [new_block] of [write.c].  [zero_block] is with the cache. *)
From stdpp Require Import base gmap list numbers strings.
From Stdlib Require Import ZArith Lia.
From S2P Require Import Prelude.
From S2P Require Import KTypes.
From S2P Require Import FsTypes.
From S2P Require Import FsCache.

Definition FS_BITCHUNK_BITS : Z := 16.
Definition FS_BITMAP_CHUNKS (block_size : Z) : Z := block_size / 2.
Definition FS_BITS_PER_BLOCK (block_size : Z) : Z := FS_BITMAP_CHUNKS block_size * FS_BITCHUNK_BITS.

(** Where a map begins, its bits and its blocks. *)
Definition start_block (sp : super_block) (map : Z) : Z :=
  if map =? IMAP then START_BLOCK else START_BLOCK + s_imap_blocks sp.
Definition map_bits (sp : super_block) (map : Z) : Z :=
  if map =? IMAP then u32 (s_ninodes sp + 1) else u32 (s_zones sp - (s_firstdatazone sp - 1)).
Definition bit_blocks (sp : super_block) (map : Z) : Z :=
  if map =? IMAP then s_imap_blocks sp else s_zmap_blocks sp.

(** The lowest bit from [i] on that is clear. *)
Fixpoint low_zero (fuel : nat) (k i : Z) : Z :=
  match fuel with
  | O => i
  | Datatypes.S fuel => if band k (Z.shiftl 1 i) then low_zero fuel k (i + 1) else i
  end.

Section bits.
Context (task_io : Z → dev_req → Z → disks → dev_reply).

(** One word of a bit map block: the next one, or the end of the search of the block. *)
Definition scan_word (sp : super_block) (map : Z) (bp : option Z) (block : Z) : Z → F (Z + option Z) := λ word,
  if FS_BITMAP_CHUNKS (s_block_size sp) <=? word then ret (inr None)
  else
    let* r := getb bp in
    let w := get16 (b_data r) (2 * word) in
    if w =? 0xFFFF then ret (inl (word + 1))
    else
      let k := conv2 (s_native sp) w in
      let i := low_zero 17 k 0 in
      let b := u32 (block * FS_BITS_PER_BLOCK (s_block_size sp) + word * FS_BITCHUNK_BITS + i) in
      if map_bits sp map <=? b then ret (inr None)
      else
        let k := Z.lor k (Z.shiftl 1 i) in
        putb bp (λ r, r.[b_data := put16 (b_data r) (2 * word) (conv2 (s_native sp) k)].[b_dirt := DIRTY]);;;
        ret (inr (Some b)).

(** One block; [bcount] rounds are left. *)
Definition scan_block (sp : super_block) (map : Z) : Z * Z * Z → F (Z * Z * Z + Z) := λ '(block, word, bcount),
  let* bp := get_block task_io (s_dev sp) (u32 (start_block sp map + block)) NORMAL in
  let* found := loop (Datatypes.S (Datatypes.S (Z.to_nat (FS_BITMAP_CHUNKS (s_block_size sp)))))
                  (scan_word sp map bp block) word in
  put_block task_io bp MAP_BLOCK;;;
  match found with
  | Some b => ret (inr b)
  | None =>
      let block := if bit_blocks sp map <=? block + 1 then 0 else block + 1 in
      let bcount := bcount - 1 in
      ret (if 0 <? bcount then inl (block, 0, bcount) else inr NO_BIT)
  end.

Definition alloc_bit (sp : option Z) (map origin : Z) : F Z :=
  let* sp := getsp sp in
  if s_rd_only sp then panic
  else
    let origin := if map_bits sp map <=? origin then 0 else origin in
    let block := origin / FS_BITS_PER_BLOCK (s_block_size sp) in
    let word := origin mod FS_BITS_PER_BLOCK (s_block_size sp) / FS_BITCHUNK_BITS in
    let bcount := bit_blocks sp map + 1 in
    loop (Datatypes.S (Z.to_nat bcount)) (scan_block sp map) (block, word, bcount).

Definition free_bit (sp : option Z) (map bit_returned : Z) : F unit :=
  let* sp := getsp sp in
  if s_rd_only sp then panic
  else
    let block := bit_returned / FS_BITS_PER_BLOCK (s_block_size sp) in
    let word := bit_returned mod FS_BITS_PER_BLOCK (s_block_size sp) / FS_BITCHUNK_BITS in
    let mask := Z.shiftl 1 (bit_returned mod FS_BITCHUNK_BITS) in
    let* bp := get_block task_io (s_dev sp) (u32 (start_block sp map + block)) NORMAL in
    let* r := getb bp in
    let k := conv2 (s_native sp) (get16 (b_data r) (2 * word)) in
    if negb (band k mask) then panic
    else
      putb bp (λ r, r.[b_data := put16 (b_data r) (2 * word) (conv2 (s_native sp) (bclr k mask))].[b_dirt := DIRTY]);;;
      put_block task_io bp MAP_BLOCK.

Definition alloc_zone (dev z : Z) : F Z :=
  let* p := get_super dev in
  let* sp := getsp p in
  let bit := if z =? s_firstdatazone sp then s_zsearch sp else u32 (z - (s_firstdatazone sp - 1)) in
  let* b := alloc_bit p ZMAP bit in
  if b =? NO_BIT then
    modify (λ s, s.[err_code := ENOSPC]);;;
    ret NO_ZONE
  else
    when (z =? s_firstdatazone sp) (putsp p (λ sp, sp.[s_zsearch := b]));;;
    ret (u32 (s_firstdatazone sp - 1 + b)).

Definition free_zone (dev numb : Z) : F unit :=
  let* p := get_super dev in
  let* sp := getsp p in
  if (numb <? s_firstdatazone sp) || (s_zones sp <=? numb) then skip
  else
    let bit := u32 (numb - (s_firstdatazone sp - 1)) in
    free_bit p ZMAP bit;;;
    when (bit <? s_zsearch sp) (putsp p (λ sp, sp.[s_zsearch := bit])).
End bits.

Definition V1_INDIRECTS : Z := STATIC_BLOCK_SIZE / 2.
Definition V2_INDIRECTS (block_size : Z) : Z := block_size / 4.

(** The zone number [zind] of an inode. *)
Definition get_zone (rip : option Z) (zind : Z) : F Z :=
  let* r := geti rip in of_option (aget (i_zone r) zind).
Definition set_zone (rip : option Z) (zind z : Z) : F unit :=
  let* r := geti rip in
  let* l := of_option (aset (i_zone r) zind z) in
  puti rip (λ r, r.[i_zone := l]).

(** ** Indirect blocks *)
Definition rd_indir (bp : option Z) (index : Z) : F Z :=
  let* r := getb bp in
  let* p := get_super (b_dev r) in
  let* sp := getsp p in
  let zone :=
    if s_version sp =? V1 then u32 (conv2 (s_native sp) (get16 (b_data r) (2 * index)))
    else u32 (conv4 (s_native sp) (s32 (get32 (b_data r) (4 * index)))) in
  if negb (zone =? NO_ZONE) && ((zone <? s_firstdatazone sp) || (s_zones sp <=? zone)) then panic
  else ret zone.

Definition wr_indir (bp : option Z) (index zone : Z) : F unit :=
  let* r := getb bp in
  let* p := get_super (b_dev r) in
  let* sp := getsp p in
  if s_version sp =? V1 then
    putb bp (λ r, r.[b_data := put16 (b_data r) (2 * index) (conv2 (s_native sp) (s32 zone))])
  else
    putb bp (λ r, r.[b_data := put32 (b_data r) (4 * index) (conv4 (s_native sp) (s32 zone))]).

(** Whether an indirect block has no zones, on [sb]. *)
Definition empty_indir (bp : option Z) (sb : super_block) : F bool :=
  let* r := getb bp in
  ret (if s_version sb =? V1 then forallb (λ i, get16 (b_data r) (2 * i) =? NO_ZONE) (zrange 0 V1_INDIRECTS)
       else forallb (λ i, get32 (b_data r) (4 * i) =? NO_ZONE) (zrange 0 (V2_INDIRECTS (s_block_size sb)))).

Section map.
Context (task_io : Z → dev_req → Z → disks → dev_reply).

(** The entry [index] of the indirect block in zone [z]. *)
Definition look_indir (dev scale z index : Z) : F Z :=
  let* bp := get_block task_io dev (u32 (Z.shiftl z scale)) NORMAL in
  let* z := rd_indir bp index in
  put_block task_io bp INDIRECT_BLOCK;;;
  ret z.

Definition read_map (rip : option Z) (position : Z) : F Z :=
  let* ip := geti rip in
  let* sp := getsp (i_sp ip) in
  let scale := s_log_zone_size sp in
  let block_pos := s32 (position / s_block_size sp) in
  let zone := Z.shiftr block_pos scale in
  let boff := block_pos - Z.shiftl zone scale in
  let dzones := i_ndzones ip in
  let nr_indirects := i_nindirs ip in
  if zone <? dzones then
    let* z := get_zone rip zone in
    ret (if z =? NO_ZONE then NO_BLOCK else u32 (Z.shiftl z scale + boff))
  else
    let excess := zone - dzones in
    let* ' (z, excess) :=
      if excess <? nr_indirects then
        let* z := get_zone rip dzones in ret (z, excess)
      else
        let* z := get_zone rip (dzones + 1) in
        if z =? NO_ZONE then ret (NO_ZONE, excess)
        else
          let excess := excess - nr_indirects in
          let* z := look_indir (i_dev ip) scale z (excess ÷ nr_indirects) in
          ret (z, Z.rem excess nr_indirects) in
    if z =? NO_ZONE then ret NO_BLOCK
    else
      let* z := look_indir (i_dev ip) scale z excess in
      ret (if z =? NO_ZONE then NO_BLOCK else u32 (Z.shiftl z scale + boff)).

(** A position in the inode itself. *)
Definition write_direct (rip : option Z) (zindex new_zone op : Z) : F Z :=
  let* ip := geti rip in
  let* z := get_zone rip zindex in
  (if negb (z =? NO_ZONE) && band op WMAP_FREE then
     free_zone task_io (i_dev ip) z;;;
     set_zone rip zindex NO_ZONE
   else set_zone rip zindex new_zone);;;
  ret OK.

(** The entry [ex] of the indirect block of zone [z1], which is new or not; the zone
    that the block has afterwards. *)
Definition write_entry (rip : option Z) (scale : Z) (single : bool) (zones : Z) (bp_dindir : option Z)
    (ind_ex z1 ex new_zone op : Z) (new_ind : bool) : F Z :=
  let* ip := geti rip in
  let* sp := getsp (i_sp ip) in
  let* bp := get_block task_io (i_dev ip) (u32 (Z.shiftl z1 scale)) (if new_ind then NO_READ else NORMAL) in
  when new_ind (zero_block bp);;;
  let* z1 :=
    if band op WMAP_FREE then
      let* old_zone := rd_indir bp ex in
      when (negb (old_zone =? NO_ZONE)) (
        free_zone task_io (i_dev ip) old_zone;;;
        wr_indir bp ex NO_ZONE);;;
      let* e := empty_indir bp sp in
      if e then
        free_zone task_io (i_dev ip) z1;;;
        (if single then set_zone rip zones NO_ZONE
         else
           wr_indir bp_dindir ind_ex NO_ZONE;;;
           putb bp_dindir (λ r, r.[b_dirt := DIRTY]));;;
        ret NO_ZONE
      else ret z1
    else wr_indir bp ex new_zone;;; ret z1 in
  putb bp (λ r, r.[b_dirt := DIRTY]);;;
  put_block task_io bp INDIRECT_BLOCK;;;
  ret z1.

(** From the zone of the single indirect block on; [z2] is the old zone of the double
    indirect block. *)
Definition write_single (rip : option Z) (scale : Z) (single : bool) (zones : Z) (bp_dindir : option Z)
    (ind_ex z1 z2 ex new_zone op : Z) : F Z :=
  let* ip := geti rip in
  let* sp := getsp (i_sp ip) in
  let new_ind := (z1 =? NO_ZONE) && negb (band op WMAP_FREE) in
  let* z1 :=
    if new_ind then
      let* z0 := get_zone rip 0 in
      let* z1 := alloc_zone task_io (i_dev ip) z0 in
      (if single then set_zone rip zones z1 else wr_indir bp_dindir ind_ex z1);;;
      match bp_dindir with Some _ => putb bp_dindir (λ r, r.[b_dirt := DIRTY]) | None => skip end;;;
      ret z1
    else ret z1 in
  if new_ind && (z1 =? NO_ZONE) then
    put_block task_io bp_dindir INDIRECT_BLOCK;;;
    let* s := get in
    ret (err_code s)
  else
    let* z1 :=
      if negb (z1 =? NO_ZONE) then
        write_entry rip scale single zones bp_dindir ind_ex z1 ex new_zone op new_ind
      else ret z1 in
    when ((z1 =? NO_ZONE) && negb single) (
      let* e := empty_indir bp_dindir sp in
      when (e && negb (z2 =? NO_ZONE)) (
        free_zone task_io (i_dev ip) z2;;;
        set_zone rip (zones + 1) NO_ZONE));;;
    put_block task_io bp_dindir INDIRECT_BLOCK;;;
    ret OK.

Definition write_double (rip : option Z) (scale zones nr_indirects excess new_zone op : Z) : F Z :=
  let* ip := geti rip in
  let* z2 := get_zone rip (zones + 1) in
  let new_dbl := (z2 =? NO_ZONE) && negb (band op WMAP_FREE) in
  let* z :=
    if new_dbl then
      let* z0 := get_zone rip 0 in
      let* z := alloc_zone task_io (i_dev ip) z0 in
      when (negb (z =? NO_ZONE)) (set_zone rip (zones + 1) z);;;
      ret z
    else ret z2 in
  if new_dbl && (z =? NO_ZONE) then
    let* s := get in
    ret (err_code s)
  else
    let excess := excess - nr_indirects in
    let ind_ex := excess ÷ nr_indirects in
    let excess := Z.rem excess nr_indirects in
    if nr_indirects <=? ind_ex then ret EFBIG
    else if z =? NO_ZONE then write_single rip scale false zones None ind_ex NO_ZONE z2 excess new_zone op
    else
      let* bp_dindir := get_block task_io (i_dev ip) (u32 (Z.shiftl z scale)) (if new_dbl then NO_READ else NORMAL) in
      when new_dbl (zero_block bp_dindir);;;
      let* z1 := rd_indir bp_dindir ind_ex in
      write_single rip scale false zones bp_dindir ind_ex z1 z2 excess new_zone op.

Definition write_map (rip : option Z) (position new_zone op : Z) : F Z :=
  puti rip (λ r, r.[i_dirt := DIRTY]);;;
  let* ip := geti rip in
  let* sp := getsp (i_sp ip) in
  let scale := s_log_zone_size sp in
  let zone := Z.shiftr (s32 (position / s_block_size sp)) scale in
  let zones := i_ndzones ip in
  let nr_indirects := i_nindirs ip in
  if zone <? zones then write_direct rip zone new_zone op
  else
    let excess := zone - zones in
    if excess <? nr_indirects then
      let* z1 := get_zone rip zones in
      write_single rip scale true zones None 0 z1 NO_ZONE excess new_zone op
    else write_double rip scale zones nr_indirects excess new_zone op.

Definition clear_zone (rip : option Z) (pos flag : Z) : F unit :=
  let* ip := geti rip in
  let* sp := getsp (i_sp ip) in
  let scale := s_log_zone_size sp in
  if scale =? 0 then skip
  else
    let zone_size := u32 (Z.shiftl (s_block_size sp) scale) in
    let pos := if flag =? 1 then pos / zone_size * zone_size else pos in
    let next := u32 (pos + s_block_size sp - 1) in
    if negb (next / zone_size =? pos / zone_size) then skip
    else
      let* blo := read_map rip next in
      if blo =? NO_BLOCK then skip
      else
        let bhi := u32 (Z.shiftl (Z.shiftr blo scale + 1) scale - 1) in
        for_list (zrange blo (bhi + 1)) (λ b,
          let* bp := get_block task_io (i_dev ip) b NO_READ in
          zero_block bp;;;
          put_block task_io bp FULL_DATA_BLOCK).

Definition new_block (rip : option Z) (position : Z) : F (option Z) :=
  let* ip := geti rip in
  let* sp := getsp (i_sp ip) in
  let* b := read_map rip position in
  let* b :=
    if b =? NO_BLOCK then
      let* z0 := get_zone rip 0 in
      let* z := alloc_zone task_io (i_dev ip) (if z0 =? NO_ZONE then s_firstdatazone sp else z0) in
      if z =? NO_ZONE then ret None
      else
        let* r := write_map rip position z 0 in
        if negb (r =? OK) then
          free_zone task_io (i_dev ip) z;;;
          modify (λ s, s.[err_code := r]);;;
          ret None
        else
          let* ip := geti rip in
          when (negb (position =? i_size ip)) (clear_zone rip position 1);;;
          let scale := s_log_zone_size sp in
          let zone_size := u32 (Z.shiftl (s_block_size sp) scale) in
          ret (Some (u32 (Z.shiftl z scale + position mod zone_size / s_block_size sp)))
    else ret (Some b) in
  match b with
  | None => ret None
  | Some b =>
      let* bp := get_block task_io (i_dev ip) b NO_READ in
      zero_block bp;;;
      ret bp
  end.
End map.
