(* ===== verification/FsBitsThms.v ===== *)
(** * Bit maps: theorems on [alloc_bit] and [free_bit]

    The bits of a map as the contents of its blocks give them ([bit_at]), and the two
    operations as the search for the first clear bit and as changes of one bit. *)
From stdpp Require Import base gmap list numbers strings.
From Stdlib Require Import ZArith Lia.
From S2P Require Import Prelude.
From S2P Require Import Chains.
From S2P Require Import KTypes.
From S2P Require Import FsTypes.
From S2P Require Import FsCache.
From S2P Require Import FsCacheInv.
From S2P Require Import FsHash.
From S2P Require Import FsIo.
From S2P Require Import FsGet.
From S2P Require Import FsPut.
From S2P Require Import FsStore.
From S2P Require Import FsMap.

(** ** Words *)

(** All words, by their two bytes. *)
Lemma swap_all : forallb (λ a, forallb (λ b, let w := 256 * a + b in
  (conv2 false w =? 256 * b + a) && (conv2 true w =? w)) (zrange 0 256)) (zrange 0 256) = true.
Proof. vm_compute. reflexivity. Qed.
Lemma byte_range z : 0 ≤ z < 256 → In z (zrange 0 256).
Proof. intros H. by apply list_elem_of_In, elem_of_zrange. Qed.
Lemma conv2_cases native w : 0 ≤ w < 65536 →
  conv2 native w = if native then w else 256 * (w mod 256) + w / 256.
Proof.
  intros Hw. pose proof swap_all as H. rewrite forallb_forall in H.
  assert (0 ≤ w / 256 < 256) as Ha by (split; [apply Z.div_pos|apply Z.div_lt_upper_bound]; lia).
  specialize (H _ (byte_range _ Ha)). rewrite forallb_forall in H.
  specialize (H _ (byte_range _ (Z.mod_pos_bound w 256 ltac:(lia)))). cbv zeta in H.
  rewrite <-(Z.div_mod w 256) in H by lia. apply andb_true_iff in H as [H1%Z.eqb_eq H2%Z.eqb_eq]. by destruct native.
Qed.
Lemma conv2_range native w : 0 ≤ w < 65536 → 0 ≤ conv2 native w < 65536.
Proof.
  intros Hw. rewrite conv2_cases by done. destruct native; [done|].
  pose proof (Z.mod_pos_bound w 256). assert (0 ≤ w / 256 < 256) by (split; [apply Z.div_pos|apply Z.div_lt_upper_bound]; lia). lia.
Qed.
Lemma conv2_conv2 native w : 0 ≤ w < 65536 → conv2 native (conv2 native w) = w.
Proof.
  intros Hw. pose proof (conv2_range native w Hw) as Hr. rewrite (conv2_cases native (conv2 native w)) by done.
  rewrite conv2_cases in Hr |- * by done. destruct native; [done|].
  assert (0 ≤ w / 256 < 256) by (split; [apply Z.div_pos|apply Z.div_lt_upper_bound]; lia).
  rewrite <-(Z.div_unique (256 * (w mod 256) + w / 256) 256 (w mod 256) (w / 256)) by lia.
  rewrite <-(Z.mod_unique (256 * (w mod 256) + w / 256) 256 (w mod 256) (w / 256)) by lia.
  pose proof (Z.div_mod w 256). lia.
Qed.
Lemma conv2_full native w : 0 ≤ w < 65536 → conv2 native w = 0xFFFF → w = 0xFFFF.
Proof. intros Hw H. rewrite <-(conv2_conv2 native w), H by done. by destruct native. Qed.

Definition byte (z : Z) : Prop := 0 ≤ z < 256.

Lemma get16_range d o : byte (d o) → byte (d (o + 1)) → 0 ≤ get16 d o < 65536.
Proof. unfold byte, get16. lia. Qed.

Lemma get16_put16 d o w : 0 ≤ w < 65536 → get16 (put16 d o w) o = w.
Proof.
  intros Hw. unfold get16, put16, put8. rewrite Z.eqb_refl, (proj2 (Z.eqb_neq o (o + 1))), Z.eqb_refl by lia.
  assert (0 ≤ w / 256 < 256) by (split; [apply Z.div_pos|apply Z.div_lt_upper_bound]; lia).
  rewrite (Z.mod_small (w / 256)) by lia. pose proof (Z.div_mod w 256). lia.
Qed.
Lemma put16_other d o w i : i ≠ o → i ≠ o + 1 → put16 d o w i = d i.
Proof.
  intros H1 H2. unfold put16, put8. rewrite (proj2 (Z.eqb_neq i (o + 1))), (proj2 (Z.eqb_neq i o)) by lia. done.
Qed.
Lemma get16_put16_other d o w o' : o' + 1 < o ∨ o + 1 < o' → get16 (put16 d o w) o' = get16 d o'.
Proof. intros H. unfold get16. by rewrite !put16_other by lia. Qed.
Lemma put16_byte d o w i : byte (d i) → byte (put16 d o w i).
Proof.
  intros Hb. unfold put16, put8, byte in *.
  destruct (i =? o + 1); [apply Z.mod_pos_bound; lia|]. destruct (i =? o); [apply Z.mod_pos_bound; lia|done].
Qed.

(** The search for a clear bit. *)
Lemma low_zero_spec fuel k i : 0 ≤ i → 
  let j := low_zero fuel k i in i ≤ j ≤ i + Z.of_nat fuel ∧ (∀ l, i ≤ l < j → Z.testbit k l = true) ∧
  (j < i + Z.of_nat fuel → Z.testbit k j = false).
Proof.
  revert i. induction fuel as [|fuel IH]; intros i Hi; cbn [low_zero].
  { split; [lia|]. split; [intros l; lia|]. lia. }
  rewrite band_shiftl by done. destruct (Z.testbit k i) eqn:Hk.
  - destruct (IH (i + 1)) as (H1 & H2 & H3); [lia|]. split; [lia|]. split.
    + intros l Hl. destruct (decide (l = i)) as [->|]; [done|]. apply H2. lia.
    + intros Hj. apply H3. lia.
  - split; [lia|]. split; [intros l; lia|done].
Qed.
Lemma low_zero_word k : 0 ≤ k < 65536 → k ≠ 0xFFFF →
  let i := low_zero 17 k 0 in 0 ≤ i < 16 ∧ Z.testbit k i = false ∧ ∀ l, 0 ≤ l < i → Z.testbit k l = true.
Proof.
  intros Hk Hn. destruct (low_zero_spec 17 k 0) as (H1 & H2 & H3); [done|]. set (i := low_zero 17 k 0) in *.
  assert (Hi : i < 16).
  { destruct (Z.lt_decidable i 16) as [|Hge]; [done|]. exfalso. apply Hn.
    assert (k = Z.ones 16) as ->; [|done]. apply Z.bits_inj'. intros l Hl. rewrite Z.testbit_ones_nonneg by lia.
    destruct (Z.ltb_spec l 16); [apply H2; lia|].
    apply Z.bits_above_log2; [lia|]. destruct (decide (k = 0)) as [->|]; [done|].
    apply Z.log2_lt_pow2; [lia|]. apply Z.lt_le_trans with (2 ^ 16); [lia|]. apply Z.pow_le_mono_r; lia. }
  split; [lia|]. split; [apply H3; lia|]. intros l Hl. apply H2. lia.
Qed.

Lemma lor_word k i : 0 ≤ k < 65536 → 0 ≤ i < 16 → 0 ≤ Z.lor k (Z.shiftl 1 i) < 65536.
Proof.
  intros Hk Hi. rewrite Z.shiftl_1_l. assert (2 ^ i ≤ 2 ^ 15) by (apply Z.pow_le_mono_r; lia).
  pose proof (Z.pow_pos_nonneg 2 i). split; [apply Z.lor_nonneg; lia|].
  assert (0 ≤ Z.lor k (2 ^ i)) by (apply Z.lor_nonneg; lia).
  destruct (decide (Z.lor k (2 ^ i) = 0)) as [->|]; [lia|]. change 65536 with (2 ^ 16). apply Z.log2_lt_pow2; [lia|].
  rewrite Z.log2_lor by lia. apply Z.max_lub_lt; [|rewrite Z.log2_pow2; lia].
  destruct (decide (k = 0)) as [->|]; [done|]. by apply Z.log2_lt_pow2; lia.
Qed.
Lemma testbit_set k i j : 0 ≤ i → Z.testbit (Z.lor k (Z.shiftl 1 i)) j = (if decide (j = i) then true else Z.testbit k j).
Proof.
  intros Hi. rewrite Z.lor_spec, Z.shiftl_1_l. case_decide as Hj.
  - subst. rewrite Z.pow2_bits_true by done. apply orb_true_r.
  - rewrite Z.pow2_bits_false by done. apply orb_false_r.
Qed.
Lemma testbit_clear k i j : 0 ≤ i → Z.testbit (bclr k (Z.shiftl 1 i)) j = (if decide (j = i) then false else Z.testbit k j).
Proof.
  intros Hi. unfold bclr. rewrite Z.land_spec, Z.shiftl_1_l. destruct (decide (0 ≤ j)) as [H0|H0].
  - rewrite Z.lnot_spec by done. case_decide as Hj.
    + subst. rewrite Z.pow2_bits_true by done. apply andb_false_r.
    + rewrite Z.pow2_bits_false by done. apply andb_true_r.
  - rewrite !Z.testbit_neg_r by lia. by case_decide.
Qed.
Lemma bclr_word k m : 0 ≤ k < 65536 → 0 ≤ bclr k m < 65536.
Proof.
  intros Hk. unfold bclr. assert (Hones : Z.land k (Z.ones 16) = k) by (rewrite Z.land_ones by lia; by apply Z.mod_small).
  rewrite <-Hones, <-Z.land_assoc, (Z.land_comm (Z.ones 16)), Z.land_assoc, Z.land_ones by lia. by apply Z.mod_pos_bound.
Qed.

(** ** One block of a map *)
Definition bit_in (native : bool) (x : Z → Z) (p : Z) : bool :=
  Z.testbit (conv2 native (get16 x (2 * (p / 16)))) (p mod 16).
Definition with_bit (native : bool) (x : Z → Z) (p : Z) (a : bool) : Z → Z :=
  let k := conv2 native (get16 x (2 * (p / 16))) in
  let m := Z.shiftl 1 (p mod 16) in
  put16 x (2 * (p / 16)) (conv2 native (if a then Z.lor k m else bclr k m)).

Definition bytes (x : Z → Z) (size : Z) : Prop := ∀ o, 0 ≤ o < size → byte (x o).

Lemma get16_ext x y o : x o = y o → x (o + 1) = y (o + 1) → get16 x o = get16 y o.
Proof. unfold get16. by intros -> ->. Qed.

Lemma word_of p size : 0 ≤ p < size / 2 * 16 → 0 ≤ p / 16 < size / 2 ∧ 0 ≤ 2 * (p / 16) ∧ 2 * (p / 16) + 1 < size.
Proof.
  intros Hp. assert (0 ≤ p / 16 < size / 2) as Hw by (split; [apply Z.div_pos|apply Z.div_lt_upper_bound]; lia).
  split; [done|]. pose proof (Z.mul_div_le size 2). lia.
Qed.

Lemma word_range x size p : bytes x size → 0 ≤ p < size / 2 * 16 → 0 ≤ get16 x (2 * (p / 16)) < 65536.
Proof. intros Hx Hp. destruct (word_of p size Hp) as (? & ? & ?). apply get16_range; apply Hx; lia. Qed.

Lemma bit_in_ext native x y size p :
  (∀ o, 0 ≤ o < size → x o = y o) → 0 ≤ p < size / 2 * 16 → bit_in native x p = bit_in native y p.
Proof.
  intros Hxy Hp. destruct (word_of p size Hp) as (? & ? & ?). unfold bit_in.
  rewrite (get16_ext x y); [done|apply Hxy; lia..].
Qed.

Lemma bit_in_with native x size p a q :
  bytes x size → 0 ≤ p < size / 2 * 16 → 0 ≤ q →
  bit_in native (with_bit native x p a) q = if decide (q = p) then a else bit_in native x q.
Proof.
  intros Hx Hp Hq. pose proof (word_range x size p Hx Hp) as Hw. pose proof (Z.mod_pos_bound p 16 ltac:(lia)) as Hi.
  unfold bit_in, with_bit. set (k := conv2 native (get16 x (2 * (p / 16)))).
  assert (Hk : 0 ≤ k < 65536) by by apply conv2_range.
  set (k' := if a then Z.lor k (Z.shiftl 1 (p mod 16)) else bclr k (Z.shiftl 1 (p mod 16))).
  assert (Hk' : 0 ≤ k' < 65536) by (unfold k'; destruct a; [by apply lor_word|by apply bclr_word]).
  destruct (decide (q / 16 = p / 16)) as [Heq|Hne].
  - rewrite Heq, get16_put16, conv2_conv2 by (done || by apply conv2_range). fold k. unfold k'.
    assert (q mod 16 = p mod 16 ↔ q = p) as Hqp.
    { pose proof (Z.div_mod q 16 ltac:(lia)). pose proof (Z.div_mod p 16 ltac:(lia)). split; [lia|by intros ->]. }
    destruct a; [rewrite testbit_set by lia|rewrite testbit_clear by lia]; by repeat case_decide; naive_solver.
  - rewrite get16_put16_other by lia. rewrite decide_False by (intros ->; done). done.
Qed.

Lemma bytes_with native x size p a : bytes x size → bytes (with_bit native x p a) size.
Proof. intros Hx o Ho. by apply put16_byte, Hx. Qed.

Lemma bytes_ext x y size : (∀ o, 0 ≤ o < size → x o = y o) → bytes y size → bytes x size.
Proof. intros Hxy Hy o Ho. rewrite Hxy by done. by apply Hy. Qed.

Lemma with_bit_ext native x y size p a o :
  (∀ o, 0 ≤ o < size → x o = y o) → 0 ≤ p < size / 2 * 16 → 0 ≤ o < size → with_bit native x p a o = with_bit native y p a o.
Proof.
  intros Hxy Hp Ho. destruct (word_of p size Hp) as (? & ? & ?). unfold with_bit.
  rewrite (get16_ext x y) by (apply Hxy; lia). unfold put16, put8. destruct (o =? _); [done|]. destruct (o =? _); [done|]. by apply Hxy.
Qed.

(** A full word has no clear bit. *)
Lemma full_word native x size w p :
  bytes x size → get16 x (2 * w) = 0xFFFF → p / 16 = w → bit_in native x p = true.
Proof.
  intros Hx Hf Hw. unfold bit_in. rewrite Hw, Hf. change 0xFFFF with (Z.ones 16).
  replace (conv2 native (Z.ones 16)) with (Z.ones 16) by by destruct native.
  pose proof (Z.mod_pos_bound p 16 ltac:(lia)). apply Z.ones_spec_low. lia.
Qed.

(** ** A map *)
Section maps.
Context (geom : Z → option geometry) (Hgeom : geom_ok geom).
Context (task_io : Z → dev_req → Z → disks → dev_reply) (Hworks : works geom task_io).
Context (sp : super_block) (map : Z).

#[local] Abbreviation dev := (s_dev sp).
#[local] Abbreviation size := (s_block_size sp).
#[local] Abbreviation BPB := (FS_BITS_PER_BLOCK (s_block_size sp)).
#[local] Abbreviation start := (start_block sp map).
#[local] Abbreviation nblocks := (bit_blocks sp map).
#[local] Abbreviation refines := (refines geom).

(** Bit [c] of the map. *)
Definition bit_at (v : contents) (c : Z) : bool :=
  bit_in (s_native sp) (v dev (start + c / BPB)) (c mod BPB).
Definition set_bit (v : contents) (c : Z) (a : bool) : contents :=
  update v dev (start + c / BPB) (with_bit (s_native sp) (v dev (start + c / BPB)) (c mod BPB) a).

(** The map is on the device, has room for its bits, and holds bytes. *)
Record map_ok (v : contents) : Prop := {
  mo_geom : ∃ g, geom dev = Some g ∧ g_size g = size ∧ start + nblocks ≤ g_blocks g;
  mo_size : 2 ≤ size;
  mo_start : 0 ≤ start;
  mo_blocks : 0 < nblocks ∧ nblocks * BPB ≤ 2 ^ 32;
  mo_bits : map_bits sp map ≤ nblocks * BPB;
  mo_bytes k : 0 ≤ k < nblocks → bytes (v dev (start + k)) size }.

Lemma map_inside v k o : map_ok v → 0 ≤ k < nblocks → inside geom dev (start + k) o ↔ 0 ≤ o < size.
Proof.
  intros H Hk. destruct (mo_geom v H) as (g & Hg & Hs & Hb). pose proof (mo_start v H). split.
  - intros (g' & Hg' & _ & Ho). assert (g' = g) as -> by congruence. lia.
  - intros Ho. exists g. split; [done|]. lia.
Qed.
Lemma map_within v k : map_ok v → 0 ≤ k < nblocks → within geom dev (start + k).
Proof. intros H Hk. apply (inside_within _ _ _ 0), (map_inside v); [done|done|]. pose proof (mo_size v H). lia. Qed.

Lemma bpb_eq : BPB = size / 2 * 16.
Proof. done. Qed.
Lemma bpb_pos v : map_ok v → 16 ≤ BPB.
Proof. intros H. rewrite bpb_eq. pose proof (mo_size v H). assert (1 ≤ size / 2) by (apply Z.div_le_lower_bound; lia). lia. Qed.

Lemma bit_place v k p : map_ok v → 0 ≤ p < BPB → (k * BPB + p) / BPB = k ∧ (k * BPB + p) mod BPB = p.
Proof.
  intros H Hp. pose proof (bpb_pos v H). split.
  - symmetry. apply Z.div_unique with p; lia.
  - symmetry. apply Z.mod_unique with k; lia.
Qed.

Lemma bit_range v c : map_ok v → 0 ≤ c < nblocks * BPB → 0 ≤ c / BPB < nblocks ∧ 0 ≤ c mod BPB < BPB.
Proof.
  intros H Hc. pose proof (bpb_pos v H). split; [|apply Z.mod_pos_bound; lia].
  split; [apply Z.div_pos; lia|apply Z.div_lt_upper_bound; lia].
Qed.

Lemma bit_at_set v c a c' : map_ok v → 0 ≤ c < nblocks * BPB → 0 ≤ c' →
  bit_at (set_bit v c a) c' = if decide (c' = c) then a else bit_at v c'.
Proof.
  intros H Hc Hc'. pose proof (bpb_pos v H) as Hpos. destruct (bit_range v c H Hc) as [Hk Hp].
  unfold bit_at, set_bit, update. case_decide as Hd.
  - destruct Hd as [_ Hd]. assert (Heq : c' / BPB = c / BPB) by lia.
    rewrite (bit_in_with _ _ size); [|by apply (mo_bytes v H)|done|apply Z.mod_pos_bound; lia]. rewrite Heq.
    assert (c' mod BPB = c mod BPB ↔ c' = c) as Hi; [|by repeat case_decide; naive_solver].
    pose proof (Z.div_mod c' BPB ltac:(lia)). pose proof (Z.div_mod c BPB ltac:(lia)). split; [nia|by intros ->].
  - rewrite decide_False; [done|]. intros ->. by apply Hd.
Qed.

(** *** The words of a block *)
Section block.
Context (s : fsstate) (v : contents) (block b : Z) (x : Z → Z).
Context (Hmo : map_ok v) (Hr : refines s v) (Hblk : 0 ≤ block < nblocks).
Context (Hheld : holds s b dev (start + block) x) (Hx : ∀ o, 0 ≤ o < size → x o = v dev (start + block) o).

Lemma block_bytes : bytes x size.
Proof. eapply bytes_ext; [exact Hx|by apply (mo_bytes v Hmo)]. Qed.
Lemma block_bit p : 0 ≤ p < BPB → bit_in (s_native sp) x p = bit_at v (block * BPB + p).
Proof.
  intros Hp. unfold bit_at. destruct (bit_place v block p Hmo Hp) as [-> ->].
  by apply (bit_in_ext _ _ _ size).
Qed.

(** What the search of the block from word [w0] on returns. *)
Definition word_post (w0 : Z) (found : option Z) (s' : fsstate) : Prop :=
  match found with
  | None => s' = s ∧ ∀ c, block * BPB + 16 * w0 ≤ c < (block + 1) * BPB → c < map_bits sp map → bit_at v c = true
  | Some c => block * BPB + 16 * w0 ≤ c < (block + 1) * BPB ∧ c < map_bits sp map ∧ bit_at v c = false ∧
      (∀ c', block * BPB + 16 * w0 ≤ c' < c → bit_at v c' = true) ∧
      refines s' (set_bit v c true) ∧ rest s' = rest s ∧ same_counts s s' ∧ is_Some (bufs s' !! b) ∧
      ∃ y, holds s' b dev (start + block) y
  end.

Lemma set_word s1 c p a (f : buf → buf) :
  s1 = s → 0 ≤ p < BPB → c = block * BPB + p →
  (∀ r, bufs s !! b = Some r → f r = r.[b_data := with_bit (s_native sp) x p a].[b_dirt := DIRTY]) →
  twp (putb (Some b) f) (λ _ s', refines s' (set_bit v c a) ∧ rest s' = rest s ∧ same_counts s s' ∧
    is_Some (bufs s' !! b) ∧ ∃ y, holds s' b dev (start + block) y) s1.
Proof.
  intros -> Hp -> Hf. eapply twp_mono.
  { eapply (write_step geom task_io Hgeom Hworks s v b _ _ x (with_bit (s_native sp) x p a)); [done|done|by apply (map_within v)|done]. }
  intros [] s' ([Hok Hv] & Hh & Hrest & Hcnt & _). split; [split; [done|]|].
  - intros dev' n' o Hin. rewrite Hv by done. unfold set_bit. destruct (bit_place v block p Hmo Hp) as [-> ->].
    unfold update. case_decide as Hd; [|done]. destruct Hd as [-> ->].
    apply (with_bit_ext _ _ _ size); [done|done|]. by apply (map_inside v block).
  - split; [done|]. split; [done|]. split; [|by eexists]. destruct Hh as (r & Hb & _). by eexists.
Qed.

Lemma scan_words w0 : 0 ≤ w0 ≤ FS_BITMAP_CHUNKS size →
  twp (loop (Datatypes.S (Datatypes.S (Z.to_nat (FS_BITMAP_CHUNKS size)))) (scan_word sp map (Some b) block) w0)
    (word_post w0) s.
Proof.
  intros Hw0. pose proof (mo_blocks v Hmo) as [_ H32]. pose proof (bpb_pos v Hmo) as Hpos.
  assert (Hch : BPB = FS_BITMAP_CHUNKS size * 16) by done.
  apply (twp_loop_measure (λ w s', s' = s ∧ w0 ≤ w ≤ FS_BITMAP_CHUNKS size ∧
    ∀ c, block * BPB + 16 * w0 ≤ c < block * BPB + 16 * w → bit_at v c = true)
    (λ w, Z.to_nat (FS_BITMAP_CHUNKS size - w))); [lia|split; [done|split; [lia|intros c; lia]]|].
  intros w s' (-> & Hw & Hset). unfold scan_word. destruct (Z.leb_spec (FS_BITMAP_CHUNKS size) w) as [Hend|Hlt].
  { apply twp_ret. split; [done|]. intros c Hc _. apply Hset. lia. }
  destruct Hheld as (r & Hb & Hd & Hn & Hp & Hxr). apply twp_bind, (twp_getb _ r); [done|].
  assert (Hin : ∀ p, 16 * w ≤ p < 16 * w + 16 → 0 ≤ p < BPB ∧ p / 16 = w ∧ p mod 16 = p - 16 * w).
  { intros p Hpw. split; [lia|]. assert (p / 16 = w) by (symmetry; apply Z.div_unique with (p - 16 * w); lia).
    split; [done|]. pose proof (Z.div_mod p 16). lia. }
  assert (Hx2 : b_data r = x) by done. rewrite Hx2.
  destruct (Z.eqb_spec (get16 x (2 * w)) 0xFFFF) as [Hfull|Hnf].
  { apply twp_ret. split; [split; [done|split; [lia|]]|lia]. intros c Hc.
    destruct (decide (c < block * BPB + 16 * w)); [apply Hset; lia|].
    destruct (Hin (c - block * BPB)) as (Hp1 & Hp2 & _); [lia|].
    replace c with (block * BPB + (c - block * BPB)) by lia. rewrite <-block_bit by done.
    by apply (full_word _ _ size w); [apply block_bytes|..]. }
  destruct (Hin (16 * w)) as (Hq1 & Hq2 & _); [lia|].
  pose proof (word_range x size (16 * w) block_bytes Hq1) as Hg16. rewrite Hq2 in Hg16.
  set (k := conv2 (s_native sp) (get16 x (2 * w))).
  destruct (low_zero_word k) as (Hi & Hi0 & Hil); [by apply conv2_range|intros Hk; apply Hnf; by apply conv2_full in Hk|].
  set (i := low_zero 17 k 0) in *.
  assert (Hbits : ∀ p, 16 * w ≤ p < 16 * w + 16 → bit_at v (block * BPB + p) = Z.testbit k (p - 16 * w)).
  { intros p Hpw. destruct (Hin p Hpw) as (Hp1 & Hp2 & Hp3). rewrite <-block_bit by done. unfold bit_in. by rewrite Hp2, Hp3. }
  change FS_BITCHUNK_BITS with 16. rewrite u32_id by nia. set (c := block * BPB + w * 16 + i).
  assert (Hbelow : ∀ c', block * BPB + 16 * w0 ≤ c' < c → bit_at v c' = true).
  { intros c' Hc'. destruct (decide (c' < block * BPB + 16 * w)); [apply Hset; lia|].
    replace c' with (block * BPB + (c' - block * BPB)) by lia. rewrite Hbits by (unfold c in Hc'; lia). apply Hil. unfold c in Hc'. lia. }
  destruct (Z.leb_spec (map_bits sp map) c) as [Hbeyond|Hok].
  { apply twp_ret. split; [done|]. intros c' Hc' Hm. apply Hbelow. lia. }
  apply twp_bind. eapply twp_mono.
  { apply (set_word s c (16 * w + i) true); [done|lia|unfold c; lia|].
    intros r' Hr'. assert (r' = r) as -> by congruence. rewrite Hx2. unfold with_bit.
    destruct (Hin (16 * w + i)) as (_ & -> & ->); [lia|]. fold k. by replace (16 * w + i - 16 * w) with i by lia. }
  intros [] s2 (H1 & H2 & H3 & H4 & H5). twpgo. split; [unfold c; lia|]. split; [done|]. split; [|by split_and!].
  unfold c. replace (block * BPB + w * 16 + i) with (block * BPB + (16 * w + i)) by lia.
  rewrite Hbits by lia. by replace (16 * w + i - 16 * w) with i by lia.
Qed.
End block.

Lemma u32_start v k : map_ok v → 0 ≤ k < nblocks → u32 (start + k) = start + k.
Proof.
  intros Hmo Hk. apply u32_id. destruct (mo_geom v Hmo) as (g & Hg & Hs & Hgb). pose proof (mo_start v Hmo).
  pose proof (go_size _ Hgeom _ _ Hg). nia.
Qed.

(** *** A use of a buffer from [get_block] to [put_block] *)
Lemma use_cycle s s1 s2 s3 v1 v3 b :
  refines s v1 → used s s1 b → rest s2 = rest s1 → same_counts s1 s2 → released s2 s3 b →
  is_Some (bufs s2 !! b) → all_bufs (bufs s2) → refines s3 v3 →
  rest s3 = rest s ∧ same_counts s s3.
Proof.
  intros [Hok _] [[Hk _] Hc] Hr2 Hc2 Hrel Hb Ha [Hok3 _]. split; [destruct Hrel; congruence|].
  intros c. rewrite (released_counts s2 s3 b Hrel Hb Ha (do_all _ _ _ _ (co_data _ _ _ Hok3))).
  rewrite Hc2, Hc. case_decide; lia.
Qed.

(** *** The search *)
Definition searched (s s' : fsstate) : Prop := rest s' = rest s ∧ same_counts s s'.

Definition round_post (s : fsstate) (v : contents) (block w0 bcount : Z) (x : Z * Z * Z + Z) (s' : fsstate) : Prop :=
  searched s s' ∧
  match x with
  | inr c => (∃ lo, lo = block * BPB + 16 * w0 ∧ lo ≤ c < (block + 1) * BPB ∧ c < map_bits sp map ∧
        bit_at v c = false ∧ (∀ c', lo ≤ c' < c → bit_at v c' = true) ∧ refines s' (set_bit v c true)) ∨
      (c = NO_BIT ∧ bcount ≤ 1 ∧ refines s' v ∧
        ∀ c', block * BPB + 16 * w0 ≤ c' < (block + 1) * BPB → c' < map_bits sp map → bit_at v c' = true)
  | inl (block', w', bcount') => refines s' v ∧ w' = 0 ∧ bcount' = bcount - 1 ∧ 0 < bcount' ∧
      block' = (if nblocks <=? block + 1 then 0 else block + 1) ∧
      ∀ c', block * BPB + 16 * w0 ≤ c' < (block + 1) * BPB → c' < map_bits sp map → bit_at v c' = true
  end.

Lemma round_spec s v block w0 bcount :
  map_ok v → refines s v → ready s → 0 ≤ block < nblocks → 0 ≤ w0 ≤ FS_BITMAP_CHUNKS size →
  twp (scan_block task_io sp map (block, w0, bcount)) (round_post s v block w0 bcount) s.
Proof.
  intros Hmo Hr Hready Hb Hw. unfold scan_block. apply twp_bind.
  rewrite (u32_start v) by done. eapply twp_mono; [by apply (get_refines geom task_io Hgeom Hworks s v); [| |by apply (map_within v)]|].
  intros p s1 (b & x & -> & Hr1 & Hh & Hx & Hused).
  assert (Hx' : ∀ o, 0 ≤ o < size → x o = v dev (start + block) o).
  { intros o Ho. apply Hx. by apply (map_inside v block). }
  apply twp_bind. eapply twp_mono; [by apply (scan_words s1 v block b x)|]. intros found s2 Hf. apply twp_bind.
  destruct found as [c|].
  - destruct Hf as (Hc & Hm & Hbit & Hbelow & Hr2 & Hrest & Hcnt & Hsome & y & Hh2).
    eapply twp_mono; [by eapply (put_refines geom task_io Hgeom Hworks s2)|]. intros [] s3 [Hr3 Hrel]. apply twp_ret. split.
    + eapply (use_cycle s s1 s2 s3); [done|done|done|done|done|done|apply Hr2|done].
    + left. by eexists.
  - destruct Hf as [-> Hset]. eapply twp_mono; [by eapply (put_refines geom task_io Hgeom Hworks s1)|]. intros [] s3 [Hr3 Hrel].
    assert (Hse : searched s s3).
    { eapply (use_cycle s s1 s1 s3); [done..| |apply Hr1|done]. destruct Hh as (r & Hb' & _). by eexists. }
    apply twp_ret. destruct (Z.ltb_spec 0 (bcount - 1)); split; [done| |done|].
    + by split_and!.
    + right. split; [done|]. split; [lia|]. done.
Qed.

Lemma searched_trans s s' s'' : searched s s' → searched s' s'' → searched s s''.
Proof. intros [H1 H2] [H3 H4]. split; [congruence|]. intros b. by rewrite H4, H2. Qed.

(** What [alloc_bit] returns when the search starts at [lo]: the first bit from there on
    that is clear, then the first one from the beginning; NO_BIT when all are set. *)
Definition alloc_post (s : fsstate) (v : contents) (lo : Z) (c : Z) (s' : fsstate) : Prop :=
  searched s s' ∧
  ((0 ≤ c < map_bits sp map ∧ bit_at v c = false ∧ refines s' (set_bit v c true) ∧
    (∀ c', lo ≤ c' < map_bits sp map → bit_at v c' = false → lo ≤ c ≤ c') ∧
    (c < lo → ∀ c', 0 ≤ c' < c → bit_at v c' = true)) ∨
   (c = NO_BIT ∧ refines s' v ∧ ∀ c', 0 ≤ c' < map_bits sp map → bit_at v c' = true)).

Lemma alloc_loop s v block0 word0 :
  map_ok v → refines s v → ready s → 0 ≤ block0 < nblocks → 0 ≤ word0 < FS_BITMAP_CHUNKS size →
  twp (loop (Datatypes.S (Z.to_nat (nblocks + 1))) (scan_block task_io sp map) (block0, word0, nblocks + 1))
    (alloc_post s v (block0 * BPB + 16 * word0)) s.
Proof.
  intros Hmo Hr Hready Hb0 Hw0. set (lo := block0 * BPB + 16 * word0). pose proof (bpb_pos v Hmo) as Hpos.
  assert (Hch : BPB = FS_BITMAP_CHUNKS size * 16) by done.
  set (all a z := ∀ c, a ≤ c < z → c < map_bits sp map → bit_at v c = true).
  apply (twp_loop_measure (λ '(block, word, bcount) s', searched s s' ∧ refines s' v ∧
      ((block0 ≤ block < nblocks ∧ word = (if decide (block = block0) then word0 else 0) ∧
        bcount = nblocks + 1 - (block - block0) ∧ all lo (block * BPB + 16 * word)) ∨
       (0 ≤ block ≤ block0 ∧ word = 0 ∧ bcount = block0 + 1 - block ∧ all lo (nblocks * BPB) ∧ all 0 (block * BPB))))
    (λ '(_, _, bcount), Z.to_nat (bcount - 1))).
  { lia. }
  { split; [by split|]. split; [done|]. left. rewrite decide_True by done. split; [lia|]. split; [done|]. split; [lia|].
    intros c Hc. unfold lo in Hc. lia. }
  intros [[block word] bcount] s1 (Hse & Hr1 & Hinv).
  assert (Hbw : 0 ≤ block < nblocks ∧ 0 ≤ word ≤ FS_BITMAP_CHUNKS size ∧ 1 ≤ bcount).
  { destruct Hinv as [(H1 & -> & -> & _)|(H1 & -> & -> & _)]; [case_decide|]; lia. }
  eapply twp_mono; [apply (round_spec s1 v block word bcount); [done|done|by eapply ready_same; [apply Hse|]|lia..]|].
  assert (Hn : map_bits sp map ≤ nblocks * BPB) by apply (mo_bits v Hmo).
  intros [[[block' word'] bcount']|c] s2 [Hse2 Hpost].
  - destruct Hpost as (Hr2 & -> & -> & Hbc & Hbl & Hset). split; [|lia]. split; [by eapply searched_trans|]. split; [done|].
    destruct Hinv as [(H1 & -> & -> & Hall)|(H1 & -> & -> & Hall1 & Hall2)].
    + assert (Hall' : all lo ((block + 1) * BPB)).
      { intros c Hc Hm. destruct (decide (c < block * BPB + 16 * (if decide (block = block0) then word0 else 0))).
        - apply Hall; [lia|done].
        - apply Hset; [lia|done]. }
      destruct (Z.leb_spec nblocks (block + 1)); subst block'.
      * right. split; [lia|]. split; [done|]. split; [lia|]. split; [|intros c; lia].
        replace nblocks with (block + 1) by lia. done.
      * left. split; [lia|]. rewrite decide_False by lia. split; [done|]. split; [lia|]. by rewrite Z.mul_0_r, Z.add_0_r.
    + destruct (Z.leb_spec nblocks (block + 1)); subst block'; [lia|]. right. split; [lia|]. split; [done|]. split; [lia|].
      split; [done|]. intros c Hc Hm. destruct (decide (c < block * BPB)); [by apply Hall2; [lia|]|].
      apply Hset; [lia|done].
  - split; [by eapply searched_trans|]. destruct Hpost as [(l & -> & Hc & Hm & Hbit & Hbelow & Hr2)|(-> & Hbc & Hr2 & Hset)].
    + left. split; [nia|]. split; [done|]. split; [done|].
      destruct Hinv as [(H1 & -> & -> & Hall)|(H1 & -> & -> & Hall1 & Hall2)].
      * assert (Hlo : lo ≤ c) by (unfold lo in *; case_decide; [subst block0|]; nia).
        split; [|lia]. intros c' Hc' Hb'. split; [done|]. destruct (decide (c ≤ c')); [done|]. exfalso.
        destruct (decide (c' < block * BPB + 16 * (if decide (block = block0) then word0 else 0))).
        -- rewrite (Hall c') in Hb' by lia. done.
        -- rewrite (Hbelow c') in Hb' by lia. done.
      * split.
        -- intros c' Hc' Hb'. rewrite (Hall1 c') in Hb' by lia. done.
        -- intros _ c' Hc'. destruct (decide (c' < block * BPB)); [apply Hall2; lia|apply Hbelow; lia].
    + right. split; [done|]. split; [done|]. intros c Hc.
      destruct Hinv as [(H1 & -> & -> & Hall)|(H1 & -> & -> & Hall1 & Hall2)]; [lia|].
      assert (block = block0) as -> by lia. destruct (decide (lo ≤ c)); [apply Hall1; lia|].
      destruct (decide (c < block0 * BPB)); [apply Hall2; lia|]. apply Hset; [|lia]. unfold lo in *. nia.
Qed.

(** *** The operations *)
Lemma bit_aligned o : o / BPB * BPB + 16 * (o mod BPB / 16) = 16 * (o / 16).
Proof.
  change BPB with (size / 2 * 16). set (n := size / 2). destruct (decide (n = 0)) as [->|Hn].
  - rewrite Z.mul_0_l, Z.div_0_r, Z.mod_0_r. lia.
  - rewrite (Z.div_mod o (n * 16)) at 3 by lia.
    replace (n * 16 * (o / (n * 16)) + o mod (n * 16)) with (n * (o / (n * 16)) * 16 + o mod (n * 16)) by lia.
    rewrite Z.div_add_l by lia. lia.
Qed.

(** Where the search starts: the beginning of the word of [origin]. *)
Definition search_from (origin : Z) : Z := 16 * ((if map_bits sp map <=? origin then 0 else origin) / 16).

Lemma alloc_bit_refines s v i origin :
  supers s !! i = Some sp → s_rd_only sp = false → map_ok v → refines s v → ready s → 0 ≤ origin →
  twp (alloc_bit task_io (Some i) map origin) (alloc_post s v (search_from origin)) s.
Proof.
  intros Hsp Hro Hmo Hr Hready H0. unfold alloc_bit. apply twp_bind. eapply twp_intro; [unfold getsp; by rewrite Hsp|].
  rewrite Hro. twpgo. set (o := if map_bits sp map <=? origin then 0 else origin).
  pose proof (bpb_pos v Hmo). pose proof (mo_bits v Hmo). pose proof (mo_blocks v Hmo).
  assert (0 ≤ o < nblocks * BPB) as Ho by (unfold o; destruct (Z.leb_spec (map_bits sp map) origin); nia).
  destruct (bit_range v o Hmo Ho) as [Hb Hp]. unfold search_from. fold o. rewrite <-bit_aligned.
  apply alloc_loop; [done|done|done|lia|]. change FS_BITCHUNK_BITS with 16. unfold FS_BITMAP_CHUNKS.
  change BPB with (size / 2 * 16) in Hp |- *. split; [apply Z.div_pos; lia|apply Z.div_lt_upper_bound; lia].
Qed.

Lemma mod_word c : c mod BPB mod 16 = c mod 16.
Proof. apply Z.mod_mod_divide. by exists (size / 2). Qed.

(** The bit as [free_bit] looks at it. *)
Lemma tested_bit v x c : map_ok v → 0 ≤ c < nblocks * BPB → (∀ o, 0 ≤ o < size → x o = v dev (start + c / BPB) o) →
  band (conv2 (s_native sp) (get16 x (2 * (c mod BPB / 16)))) (Z.shiftl 1 (c mod 16)) = bit_at v c.
Proof.
  intros Hmo Hc Hx. pose proof (Z.mod_pos_bound c 16 ltac:(lia)). rewrite band_shiftl by lia.
  destruct (bit_range v c Hmo Hc) as [_ Hp]. unfold bit_at. rewrite <-(bit_in_ext _ x _ size) by done.
  unfold bit_in. by rewrite mod_word.
Qed.

Lemma free_bit_refines s v i c :
  supers s !! i = Some sp → s_rd_only sp = false → map_ok v → refines s v → ready s → 0 ≤ c < nblocks * BPB →
  if bit_at v c then
    twp (free_bit task_io (Some i) map c) (λ _ s', searched s s' ∧ refines s' (set_bit v c false)) s
  else free_bit task_io (Some i) map c s = Crash.
Proof.
  intros Hsp Hro Hmo Hr Hready Hc. destruct (bit_range v c Hmo Hc) as [Hk Hp].
  destruct (twp_inv _ _ _ (get_refines geom task_io Hgeom Hworks s v dev (start + c / BPB) Hr Hready (map_within v _ Hmo Hk)))
    as (p & s1 & Hrun & b & x & -> & Hr1 & Hh & Hx & Hused).
  assert (Hx' : ∀ o, 0 ≤ o < size → x o = v dev (start + c / BPB) o).
  { intros o Ho. apply Hx. by apply (map_inside v (c / BPB)). }
  pose proof (tested_bit v x c Hmo Hc Hx') as Htest. pose proof Hh as (r & Hb & _ & _ & _ & Hxr).
  assert (Heq : free_bit task_io (Some i) map c s =
    (if negb (bit_at v c) then panic
     else
       putb (Some b) (λ r, r.[b_data := put16 (b_data r) (2 * (c mod BPB / 16))
         (conv2 (s_native sp) (bclr (conv2 (s_native sp) (get16 x (2 * (c mod BPB / 16)))) (Z.shiftl 1 (c mod 16))))]
         .[b_dirt := DIRTY]);;;
       put_block task_io (Some b) MAP_BLOCK) s1).
  { unfold free_bit. change FS_BITCHUNK_BITS with 16. unfold bind at 1, getsp. rewrite Hsp, Hro, (u32_start v) by done.
    unfold bind at 1. rewrite Hrun. unfold bind at 1, getb. rewrite Hb.
    assert (b_data r = x) as -> by done. by rewrite Htest. }
  destruct (bit_at v c) eqn:Hbit; cbn [negb] in Heq; [|done].
  unfold twp. rewrite Heq. match goal with |- match ?m s1 with _ => _ end => change (twp m (λ _ s', searched s s' ∧ refines s' (set_bit v c false)) s1) end.
  apply twp_bind. eapply twp_mono.
  { apply (set_word s1 v (c / BPB) b x Hmo Hr1 Hk Hh Hx' s1 c (c mod BPB) false); [done|done| |].
    - pose proof (bpb_pos v Hmo). rewrite (Z.div_mod c BPB) at 1 by lia. lia.
    - intros r' Hr'. assert (r' = r) as -> by congruence. assert (b_data r = x) as -> by done.
      unfold with_bit. by rewrite mod_word. }
  intros [] s2 (Hr2 & Hrest & Hcnt & Hsome & y & Hh2). eapply twp_mono; [by eapply (put_refines geom task_io Hgeom Hworks s2)|].
  intros [] s3 [Hr3 Hrel]. split; [|done]. eapply (use_cycle s s1 s2 s3); [done|done|done|done|done|done|apply Hr2|done].
Qed.

(** *** Allocation undone *)
Lemma map_ok_set v c a : map_ok v → 0 ≤ c < nblocks * BPB → map_ok (set_bit v c a).
Proof.
  intros Hmo Hc. pose proof Hmo as [H1 H2 H3 H4 H5 H6]. split; [done|done|done|done|done|].
  intros k Hk. unfold set_bit, update. case_decide as Hd; [|by apply H6].
  apply bytes_with. destruct (bit_range v c Hmo Hc) as [Hk' _]. by apply H6.
Qed.

Lemma lor_clear k i : 0 ≤ i → Z.testbit k i = false → bclr (Z.lor k (Z.shiftl 1 i)) (Z.shiftl 1 i) = k.
Proof.
  intros Hi Hb. apply Z.bits_inj'. intros j Hj. rewrite testbit_clear, testbit_set by done.
  repeat case_decide; by subst.
Qed.

Lemma put16_back x y o w i : byte (x o) → byte (x (o + 1)) → (∀ j, y j = put16 x o w j) → put16 y o (get16 x o) i = x i.
Proof.
  intros H1 H2 Hy. unfold byte in *. destruct (decide (i = o)) as [->|Hn]; [|destruct (decide (i = o + 1)) as [->|Hn']].
  - unfold put16, put8, get16. rewrite (proj2 (Z.eqb_neq o (o + 1))), Z.eqb_refl by lia.
    symmetry. apply Z.mod_unique with (x (o + 1)); lia.
  - unfold put16, put8, get16. rewrite Z.eqb_refl.
    rewrite <-(Z.div_unique (x o + 256 * x (o + 1)) 256 (x (o + 1)) (x o)) by lia. by rewrite Z.mod_small.
  - rewrite put16_other by done. rewrite Hy. by rewrite put16_other.
Qed.

Lemma with_bit_back native x p o :
  bytes x size → 0 ≤ p < BPB → bit_in native x p = false →
  with_bit native (with_bit native x p true) p false o = x o.
Proof.
  intros Hx Hp Hb. destruct (word_of p size Hp) as (? & ? & ?). pose proof (word_range x size p Hx Hp) as Hw.
  pose proof (Z.mod_pos_bound p 16 ltac:(lia)). pose proof (conv2_range native _ Hw) as Hk.
  unfold with_bit at 1. set (y := with_bit native x p true).
  assert (Hy : get16 y (2 * (p / 16)) = conv2 native (Z.lor (conv2 native (get16 x (2 * (p / 16)))) (Z.shiftl 1 (p mod 16)))).
  { unfold y, with_bit. apply get16_put16, conv2_range, lor_word; [done|lia]. }
  rewrite Hy, conv2_conv2 by (apply lor_word; [done|lia]). rewrite lor_clear by (done || lia). rewrite conv2_conv2 by done.
  apply (put16_back x y _ (conv2 native (Z.lor (conv2 native (get16 x (2 * (p / 16)))) (Z.shiftl 1 (p mod 16)))));
    [apply Hx; lia..|done].
Qed.

Lemma set_bit_back s v c : map_ok v → 0 ≤ c < nblocks * BPB → bit_at v c = false →
  refines s (set_bit (set_bit v c true) c false) → refines s v.
Proof.
  intros Hmo Hc Hb [Hok Hv]. destruct (bit_range v c Hmo Hc) as [Hk Hp]. split; [done|]. intros dev' n o Hin.
  rewrite Hv by done. unfold set_bit at 1, update at 1. case_decide as Hd.
  - destruct Hd as [-> ->]. assert (0 ≤ o < size) by by apply (map_inside v (c / BPB) o Hmo Hk).
    rewrite (with_bit_ext _ _ (with_bit (s_native sp) (v dev (start + c / BPB)) (c mod BPB) true) size);
      [apply with_bit_back; [by apply (mo_bytes v Hmo)|done|done]| |done|done].
    intros j _. unfold set_bit, update. by rewrite decide_True.
  - unfold set_bit, update. by rewrite decide_False.
Qed.
End maps.
