(* ===== verification/FsAlloc.v ===== *)
(** * Zones: theorems on [alloc_zone] and [free_zone] *)
From stdpp Require Import base gmap list numbers strings.
From Stdlib Require Import ZArith Lia.
From S2P Require Import Prelude.
From S2P Require Import Chains.
From S2P Require Import KTypes.
From S2P Require Import FsTypes.
From S2P Require Import FsCache.
From S2P Require Import FsCacheInv.
From S2P Require Import FsHash.
From S2P Require Import FsIo.
From S2P Require Import FsGet.
From S2P Require Import FsPut.
From S2P Require Import FsStore.
From S2P Require Import FsMap.
From S2P Require Import FsBitsThms.
From S2P Require Import FsProps.

(** The super block of a device is in slot [i]. *)
Definition super_at (s : fsstate) (dev i : Z) (sp : super_block) : Prop :=
  dev ≠ NO_DEV ∧ find_slot (λ sp, s_dev sp =? dev) (supers s) NR_SUPERS = Some i ∧ supers s !! i = Some sp ∧ s_dev sp = dev.

Lemma super_rest s s' dev i sp : rest s' = rest s → super_at s dev i sp → super_at s' dev i sp.
Proof. intros Hr. pose proof (f_equal supers Hr) as H. cbn in H. unfold super_at. by rewrite H. Qed.

Lemma find_slot_insert {A} (f : A → bool) t n i x y :
  t !! i = Some x → f y = f x → find_slot f (<[i := y]> t) n = find_slot f t n.
Proof.
  intros Hi Hf. unfold find_slot. generalize (zrange 0 n). intros l. induction l as [|a l IH]; [done|].
  cbn [find]. rewrite IH. destruct (decide (a = i)) as [->|Hne].
  - by rewrite lookup_insert_eq, Hi, Hf.
  - by rewrite lookup_insert_ne by done.
Qed.

Section zones.
Context (geom : Z → option geometry) (Hgeom : geom_ok geom).
Context (task_io : Z → dev_req → Z → disks → dev_reply) (Hworks : works geom task_io).

#[local] Abbreviation refines := (refines geom).

(** Where a search starts next is no part of what the store holds. *)
Lemma refines_zsearch s v dev i sp b :
  super_at s dev i sp → refines s v →
  refines (s.[supers := <[i := sp.[s_zsearch := b]]> (supers s)]) v ∧
  super_at (s.[supers := <[i := sp.[s_zsearch := b]]> (supers s)]) dev i (sp.[s_zsearch := b]).
Proof.
  intros (Hdev & Hf & Hi & Hd) [[He Hdo Hch] Hv]. split.
  - split; [split; [|done|by apply (chains_same s)]|done]. intros d g Hg. destruct (He d g Hg) as (H1 & H2 & H3 & H4 & H5).
    split; [exact H1|]. split; [exact H2|]. split; [exact H3|]. split; [exact H4|]. rewrite <-H5. unfold bsize. cbn [supers].
    change (supers (s.[supers := ?t])) with t. rewrite (find_slot_insert _ _ _ _ sp) by done.
    destruct (find_slot (λ sp, s_dev sp =? d) (supers s) NR_SUPERS) as [j|]; [|done]. change (supers (s.[supers := ?t])) with t.
    destruct (decide (j = i)) as [->|Hne].
    + by rewrite lookup_insert_eq, Hi.
    + by rewrite lookup_insert_ne by done.
  - split; [done|]. change (supers (s.[supers := ?t])) with t. rewrite (find_slot_insert _ _ _ _ sp) by done.
    split; [done|]. split; [apply lookup_insert_eq|done].
Qed.

Lemma map_ok_zsearch sp map v b : map_ok geom sp map v → map_ok geom (sp.[s_zsearch := b]) map v.
Proof. intros [? ? ? ? ? ?]. by split. Qed.

(** A file system whose zone map covers its zones; bit 0 is never free. *)
Record zones_ok (sp : super_block) (v : contents) : Prop := {
  zo_map : map_ok geom sp ZMAP v;
  zo_rw : s_rd_only sp = false;
  zo_first : 1 ≤ s_firstdatazone sp ≤ s_zones sp ∧ s_zones sp < 2 ^ 32;
  zo_bit0 : bit_at sp ZMAP v 0 = true }.

Definition zone_bit (sp : super_block) (z : Z) : Z := z - (s_firstdatazone sp - 1).

Lemma zone_bits sp v : zones_ok sp v → map_bits sp ZMAP = s_zones sp - (s_firstdatazone sp - 1).
Proof. intros H. unfold map_bits. change (ZMAP =? IMAP) with false. cbn iota. apply u32_id. pose proof (zo_first sp v H). lia. Qed.

Lemma get_super_eq s dev i sp : super_at s dev i sp → get_super dev s = Ret (Some i) s.
Proof.
  intros (Hdev & Hf & _). unfold get_super. rewrite (proj2 (Z.eqb_neq _ _)) by done. unfold bind, get. by rewrite Hf.
Qed.

Lemma alloc_zone_refines s v dev i sp z :
  super_at s dev i sp → zones_ok sp v → refines s v → ready s → 0 ≤ z → 0 ≤ s_zsearch sp →
  twp (alloc_zone task_io dev z) (λ r s', same_counts s s' ∧
    ((r = NO_ZONE ∧ err_code s' = ENOSPC ∧ refines s' v ∧ ∀ c, 0 ≤ c < map_bits sp ZMAP → bit_at sp ZMAP v c = true) ∨
     (s_firstdatazone sp ≤ r < s_zones sp ∧ bit_at sp ZMAP v (zone_bit sp r) = false ∧
      refines s' (set_bit sp ZMAP v (zone_bit sp r) true) ∧
      ∃ zs, super_at s' dev i (sp.[s_zsearch := zs]) ∧ 0 ≤ zs))) s.
Proof.
  intros Hsp Hz Hr Hready H0 Hzs. pose proof Hsp as (Hdev & Hf & Hi & Hd). pose proof (zone_bits sp v Hz) as Hmb.
  pose proof (zo_first sp v Hz) as Hfz.
  unfold alloc_zone. apply twp_bind. eapply twp_intro; [by eapply get_super_eq|].
  apply twp_bind. eapply twp_intro; [unfold getsp; by rewrite Hi|].
  set (bit := if z =? s_firstdatazone sp then s_zsearch sp else u32 (z - (s_firstdatazone sp - 1))).
  apply twp_bind. eapply twp_mono.
  { apply (alloc_bit_refines geom Hgeom task_io Hworks sp ZMAP s v i bit); [done|apply Hz|apply Hz|done|done|].
    unfold bit. destruct (z =? _); [done|]. apply Z.mod_pos_bound. lia. }
  intros c s1 [[Hrest Hcnt] Hpost]. destruct Hpost as [(Hc & Hb & Hr1 & _)|(-> & Hr1 & Hfull)].
  - assert (c ≠ 0) by (intros ->; by rewrite (zo_bit0 sp v Hz) in Hb).
    rewrite (proj2 (Z.eqb_neq _ _)) by done. apply twp_bind.
    assert (Hzone : u32 (s_firstdatazone sp - 1 + c) = s_firstdatazone sp - 1 + c) by (apply u32_id; lia).
    assert (Hbz : zone_bit sp (s_firstdatazone sp - 1 + c) = c) by (unfold zone_bit; lia).
    assert (Hsp1 : super_at s1 dev i sp) by by eapply super_rest.
    apply twp_when; intros _; [|apply twp_ret; rewrite Hzone, Hbz].
    + pose proof Hsp1 as (_ & _ & Hi1 & _). eapply twp_intro; [unfold putsp; by rewrite Hi1|].
      apply twp_ret. rewrite Hzone, Hbz.
      destruct (refines_zsearch s1 _ dev i sp c Hsp1 Hr1) as [Hr2 Hsp2].
      split; [done|]. right. split; [lia|]. split; [done|]. split; [done|]. exists c. split; [done|lia].
    + split; [done|]. right. split; [lia|]. split; [done|]. split; [done|]. by exists (s_zsearch sp).
  - change (NO_BIT =? NO_BIT) with true. cbn iota. apply twp_bind, twp_modify, twp_ret. split; [done|]. left.
    split; [done|]. split; [done|]. split; [|done]. destruct Hr1 as [[He Hdo Hch] Hv].
    split; [split; [|done|by apply (chains_same s1)]|done]. intros d g Hg. by apply He.
Qed.

Lemma free_zone_refines s v dev i sp z :
  super_at s dev i sp → map_ok geom sp ZMAP v → s_rd_only sp = false →
  1 ≤ s_firstdatazone sp ≤ s_zones sp → s_zones sp < 2 ^ 32 → refines s v → ready s →
  s_firstdatazone sp ≤ z < s_zones sp → bit_at sp ZMAP v (zone_bit sp z) = true →
  twp (free_zone task_io dev z) (λ _ s', same_counts s s' ∧ refines s' (set_bit sp ZMAP v (zone_bit sp z) false)) s.
Proof.
  intros Hsp Hmo Hro Hf Hz32 Hr Hready Hz Hb. pose proof Hsp as (Hdev & _ & Hi & _).
  unfold free_zone. apply twp_bind. eapply twp_intro; [by eapply get_super_eq|].
  apply twp_bind. eapply twp_intro; [unfold getsp; by rewrite Hi|].
  destruct (Z.ltb_spec z (s_firstdatazone sp)); [lia|]. destruct (Z.leb_spec (s_zones sp) z); [lia|]. cbn [orb].
  fold (zone_bit sp z). rewrite u32_id by (unfold zone_bit; lia).
  assert (Hc : 0 ≤ zone_bit sp z < bit_blocks sp ZMAP * FS_BITS_PER_BLOCK (s_block_size sp)).
  { pose proof (mo_bits _ _ _ _ Hmo) as Hmb. unfold map_bits in Hmb. change (ZMAP =? IMAP) with false in Hmb. cbn iota in Hmb.
    rewrite u32_id in Hmb by lia. unfold zone_bit. lia. }
  pose proof (free_bit_refines geom Hgeom task_io Hworks sp ZMAP s v i _ Hi Hro Hmo Hr Hready Hc) as Hfree.
  rewrite Hb in Hfree. apply twp_bind. eapply twp_mono; [exact Hfree|]. intros [] s1 [[Hrest Hcnt] Hr1].
  assert (Hsp1 : super_at s1 dev i sp) by by eapply super_rest. pose proof Hsp1 as (_ & _ & Hi1 & _).
  apply twp_when; intros _; [|done]. eapply twp_intro; [unfold putsp; by rewrite Hi1|].
  split; [done|]. by apply refines_zsearch with (dev := dev).
Qed.
End zones.

(** ** The properties *)

(** A search of a bit map finds the first clear bit from the word of [origin] on, or else
    the first one of the map, and sets it and nothing else; NO_BIT means that every bit is
    set.  Clear bits beyond the end of the map are never taken, words of either byte order
    are handled, and the cache ends up as it was used before. *)
Theorem alloc_bit_first_fit geom task_io sp map s v i origin :
  geom_ok geom → works geom task_io → supers s !! i = Some sp → s_rd_only sp = false →
  map_ok geom sp map v → refines geom s v → ready s → 0 ≤ origin →
  ∃ c s', alloc_bit task_io (Some i) map origin s = Ret c s' ∧ rest s' = rest s ∧ same_counts s s' ∧
    let lo := search_from sp map origin in
    ((0 ≤ c < map_bits sp map ∧ bit_at sp map v c = false ∧ refines geom s' (set_bit sp map v c true) ∧
      (∀ c', lo ≤ c' < map_bits sp map → bit_at sp map v c' = false → lo ≤ c ≤ c') ∧
      (c < lo → ∀ c', 0 ≤ c' < c → bit_at sp map v c' = true)) ∨
     (c = NO_BIT ∧ refines geom s' v ∧ ∀ c', 0 ≤ c' < map_bits sp map → bit_at sp map v c' = true)).
Proof.
  intros Hg Hw Hi Hro Hmo Hr Hready H0.
  destruct (twp_inv _ _ _ (alloc_bit_refines geom Hg task_io Hw sp map s v i origin Hi Hro Hmo Hr Hready H0))
    as (c & s' & Hrun & [Hrest Hcnt] & Hpost). by exists c, s'.
Qed.

(** [free_bit] clears the bit it is given, and nothing else, if it is set; it panics if the
    bit is clear. *)
Theorem free_bit_checks geom task_io sp map s v i c :
  geom_ok geom → works geom task_io → supers s !! i = Some sp → s_rd_only sp = false →
  map_ok geom sp map v → refines geom s v → ready s →
  0 ≤ c < bit_blocks sp map * FS_BITS_PER_BLOCK (s_block_size sp) →
  (bit_at sp map v c = true → ∃ s', free_bit task_io (Some i) map c s = Ret tt s' ∧ rest s' = rest s ∧
     same_counts s s' ∧ refines geom s' (set_bit sp map v c false) ∧
     ∀ c', 0 ≤ c' → bit_at sp map (set_bit sp map v c false) c' = if decide (c' = c) then false else bit_at sp map v c') ∧
  (bit_at sp map v c = false → free_bit task_io (Some i) map c s = Crash).
Proof.
  intros Hg Hw Hi Hro Hmo Hr Hready Hc.
  pose proof (free_bit_refines geom Hg task_io Hw sp map s v i c Hi Hro Hmo Hr Hready Hc) as H.
  destruct (bit_at sp map v c) eqn:Hb; (split; intros Hb'; [|done || by rewrite H]); [|done].
  destruct (twp_inv _ _ _ H) as ([] & s' & Hrun & [Hrest Hcnt] & Hr'). exists s'. split; [done|]. split; [done|]. split; [done|].
  split; [done|]. intros c' Hc'. by eapply bit_at_set.
Qed.

(** C34. A zone that [alloc_zone] hands out lies in the data area and was free; it reports
    ENOSPC exactly when no zone is free.  [free_zone] takes the zone back, and the disk
    and the cache then hold what they held before, byte for byte. *)
Theorem alloc_zone_roundtrip geom task_io s v dev i sp z :
  geom_ok geom → works geom task_io → super_at s dev i sp → zones_ok geom sp v → refines geom s v → ready s →
  0 ≤ z → 0 ≤ s_zsearch sp →
  ∃ r s1, alloc_zone task_io dev z s = Ret r s1 ∧
    ((r = NO_ZONE ∧ err_code s1 = ENOSPC ∧ refines geom s1 v ∧
      ∀ y, s_firstdatazone sp ≤ y < s_zones sp → bit_at sp ZMAP v (zone_bit sp y) = true) ∨
     (s_firstdatazone sp ≤ r < s_zones sp ∧ bit_at sp ZMAP v (zone_bit sp r) = false ∧
      ∃ s2, free_zone task_io dev r s1 = Ret tt s2 ∧ refines geom s2 v ∧ same_counts s s2)).
Proof.
  intros Hg Hw Hsp Hz Hr Hready H0 Hzs. pose proof (zone_bits geom sp v Hz) as Hmb. pose proof (zo_first _ _ _ Hz) as Hf.
  destruct (twp_inv _ _ _ (alloc_zone_refines geom Hg task_io Hw s v dev i sp z Hsp Hz Hr Hready H0 Hzs))
    as (r & s1 & Hrun & Hcnt & [(-> & He & Hr1 & Hfull)|(Hrz & Hb & Hr1 & zs & Hsp1 & Hzs1)]).
  - exists NO_ZONE, s1. split; [done|]. left. split; [done|]. split; [done|]. split; [done|]. intros y Hy. apply Hfull. unfold zone_bit. lia.
  - exists r, s1. split; [done|]. right. split; [done|]. split; [done|].
    assert (Hc : 0 ≤ zone_bit sp r < bit_blocks sp ZMAP * FS_BITS_PER_BLOCK (s_block_size sp)).
    { pose proof (mo_bits _ _ _ _ (zo_map _ _ _ Hz)). unfold zone_bit in *. lia. }
    assert (Hmo1 : map_ok geom sp ZMAP (set_bit sp ZMAP v (zone_bit sp r) true)) by (eapply map_ok_set; [apply Hz|done]).
    assert (Hset : bit_at (sp.[s_zsearch := zs]) ZMAP (set_bit sp ZMAP v (zone_bit sp r) true)
      (zone_bit (sp.[s_zsearch := zs]) r) = true).
    { change (bit_at (sp.[s_zsearch := zs]) ZMAP) with (bit_at sp ZMAP).
      change (zone_bit (sp.[s_zsearch := zs]) r) with (zone_bit sp r).
      rewrite (bit_at_set geom sp ZMAP v) by (apply Hz || unfold zone_bit in *; lia). by rewrite decide_True. }
    destruct (twp_inv _ _ _ (free_zone_refines geom Hg task_io Hw s1 (set_bit sp ZMAP v (zone_bit sp r) true) dev i
      (sp.[s_zsearch := zs]) r Hsp1 (map_ok_zsearch _ _ _ _ _ Hmo1) (zo_rw _ _ _ Hz) (proj1 Hf) (proj2 Hf) Hr1
      (ready_same _ _ Hcnt Hready) Hrz Hset)) as ([] & s2 & Hrun2 & Hcnt2 & Hr2).
    exists s2. split; [done|]. split.
    + eapply (set_bit_back geom sp ZMAP s2 v (zone_bit sp r)); [apply Hz|done|done|exact Hr2].
    + intros b. by rewrite Hcnt2, Hcnt.
Qed.

(** ** A concrete allocation *)
Definition demo_view : contents := on_disk demo_geom demo_disk.

Lemma demo_refines : refines demo_geom demo_pool demo_view.
Proof. exact (reach_refines _ _ demo_geom_ok (demo_works _) _ _ demo_reach0). Qed.

Lemma demo_ready : ready demo_pool.
Proof.
  split; [apply demo_has_free; by vm_compute|]. intros b.
  assert (H : few_uses demo_pool = true) by (vm_compute; reflexivity).
  destruct (bufs demo_pool !! b) as [r|] eqn:Hr; [|unfold count_of; by rewrite Hr].
  unfold few_uses in H. rewrite forallb_forall in H. eapply bool_decide_eq_true_1, H, list_elem_of_In, elem_of_zrange.
  apply (do_all _ _ _ _ (co_data _ _ _ (proj1 demo_refines))). by exists r.
Qed.

Lemma demo_map_ok map : map = IMAP ∨ map = ZMAP → map_ok demo_geom demo_sp map demo_view.
Proof.
  intros Hmap. split.
  - exists (Geometry 5 1024 64). split; [done|]. split; [done|]. by destruct Hmap as [->| ->]; vm_compute.
  - done.
  - by destruct Hmap as [->| ->]; vm_compute.
  - by destruct Hmap as [->| ->]; vm_compute.
  - by destruct Hmap as [->| ->]; vm_compute.
  - intros k _ o _. unfold demo_view, on_disk, byte. destruct (demo_geom _) as [g|]; [|done].
    unfold demo_disk. by apply Z.mod_pos_bound.
Qed.

Lemma demo_zones : zones_ok demo_geom demo_sp demo_view.
Proof. split; [apply demo_map_ok; by right|done|done|by vm_compute]. Qed.

Lemma demo_super : super_at demo_pool demo_dev 0 demo_sp.
Proof. split; [done|]. split; [by vm_compute|]. by split; vm_compute. Qed.

Lemma alloc_bit_first_fit_witness : ∃ s', alloc_bit demo_io (Some 0) ZMAP 20 demo_pool = Ret 17 s' ∧
  refines demo_geom s' (set_bit demo_sp ZMAP demo_view 17 true).
Proof.
  destruct (alloc_bit_first_fit demo_geom demo_io demo_sp ZMAP demo_pool demo_view 0 20 demo_geom_ok (demo_works _))
    as (c & s' & Hrun & _ & _ & Hpost); [apply demo_super|done|apply demo_map_ok; by right|exact demo_refines|exact demo_ready|done|].
  change (search_from demo_sp ZMAP 20) with 16 in Hpost.
  destruct Hpost as [(Hc & Hb & Hr & H1 & _)|(_ & _ & Hfull)].
  - assert (c = 17) as ->; [|exists s'; split; [exact Hrun|exact Hr]].
    assert (H17 : bit_at demo_sp ZMAP demo_view 17 = false) by (vm_compute; reflexivity).
    assert (Hm : 16 ≤ 17 < map_bits demo_sp ZMAP) by (split; [lia|vm_compute; reflexivity]).
    destruct (H1 17 Hm H17) as [H2 H3].
    assert (Hne : c ≠ 16) by (intros ->; vm_compute in Hb; discriminate Hb).
    clear - H2 H3 Hne. lia.
  - assert (Hno : bit_at demo_sp ZMAP demo_view 17 = true) by (clear Hrun; apply Hfull; by vm_compute).
    vm_compute in Hno. discriminate Hno.
Defined.

Lemma free_bit_checks_witness :
  (∃ s', free_bit demo_io (Some 0) ZMAP 16 demo_pool = Ret tt s') ∧ free_bit demo_io (Some 0) ZMAP 17 demo_pool = Crash.
Proof.
  assert (H : ∀ c, 0 ≤ c < 8192 → _) by exact (λ c Hc, free_bit_checks demo_geom demo_io demo_sp ZMAP demo_pool demo_view 0 c
    demo_geom_ok (demo_works _) (proj1 (proj2 (proj2 demo_super))) eq_refl (demo_map_ok ZMAP (or_intror eq_refl))
    demo_refines demo_ready Hc).
  split.
  - destruct (proj1 (H 16 ltac:(lia))) as (s' & Hrun & _); [vm_compute; reflexivity|]. exists s'. exact Hrun.
  - apply (proj2 (H 17 ltac:(lia))). vm_compute; reflexivity.
Defined.

Lemma alloc_zone_roundtrip_witness : ∃ r s1 s2, alloc_zone demo_io demo_dev 8 demo_pool = Ret r s1 ∧
  free_zone demo_io demo_dev r s1 = Ret tt s2 ∧ refines demo_geom s2 demo_view.
Proof.
  destruct (alloc_zone_roundtrip demo_geom demo_io demo_pool demo_view demo_dev 0 demo_sp 8 demo_geom_ok (demo_works _)
    demo_super demo_zones demo_refines demo_ready) as (r & s1 & Hrun & [(_ & _ & _ & Hfull)|(_ & _ & s2 & H1 & H2 & _)]); [done|done| |].
  - assert (Hno : bit_at demo_sp ZMAP demo_view (zone_bit demo_sp 11) = true) by (clear Hrun; apply Hfull; by vm_compute).
    vm_compute in Hno. discriminate Hno.
  - exists r, s1, s2. split; [exact Hrun|]. split; [exact H1|exact H2].
Defined.
