(* ===== verification/FsInode.v ===== *)
(** * The file system server: inodes

    The table of inodes in core and their disk images ([src/servers/fs/inode.c]), the
    truncation that [put_inode] needs ([truncate_inode], [freesp_inode] and their
    helpers in [link.c]), and [read_super] ([super.c]). *)
From stdpp Require Import base gmap list numbers strings.
From Stdlib Require Import ZArith Lia.
From S2P Require Import Prelude.
From S2P Require Import KTypes.
From S2P Require Import FsTypes.
From S2P Require Import FsCache.
From S2P Require Import FsMap.

Definition V1_INODE_SIZE : Z := 32.
Definition V2_INODE_SIZE : Z := 64.
Definition V1_INODES_PER_BLOCK : Z := STATIC_BLOCK_SIZE / V1_INODE_SIZE.
Definition V2_INODES_PER_BLOCK (block_size : Z) : Z := block_size / V2_INODE_SIZE.
Definition PIPE_SIZE (block_size : Z) : Z := V1_NR_DZONES * block_size.
Definition SUPER_BLOCK_BYTES : Z := 1024.
Definition SUPER_SIZE : Z := 76.

(** ** Disk images: [d1_inode] and [d2_inode] ([type.h]) at byte [o] of a block *)
Definition get_zone16 (norm : bool) (d : Z → Z) (o i : Z) : Z := u32 (conv2 norm (get16 d (o + 2 * i))).
Definition get_zone32 (norm : bool) (d : Z → Z) (o i : Z) : Z := u32 (conv4 norm (s32 (get32 d (o + 4 * i)))).

Definition old_icopy_read (norm : bool) (d : Z → Z) (o : Z) (r : inode) : inode :=
  let mtime := s32 (conv4 norm (s32 (get32 d (o + 8)))) in
  r.[i_mode := u16 (conv2 norm (get16 d o))]
   .[i_uid := s16 (conv2 norm (get16 d (o + 2)))]
   .[i_size := u32 (conv4 norm (s32 (get32 d (o + 4))))]
   .[i_mtime := mtime].[i_atime := mtime].[i_ctime := mtime]
   .[i_nlinks := d (o + 13)]
   .[i_gid := s8 (d (o + 12))]
   .[i_ndzones := V1_NR_DZONES].[i_nindirs := V1_INDIRECTS]
   .[i_zone := map (get_zone16 norm d (o + 14)) (zrange 0 V1_NR_TZONES) ++ drop (Z.to_nat V1_NR_TZONES) (i_zone r)].

Definition new_icopy_read (norm : bool) (block_size : Z) (d : Z → Z) (o : Z) (r : inode) : inode :=
  r.[i_mode := u16 (conv2 norm (get16 d o))]
   .[i_uid := s16 (conv2 norm (get16 d (o + 4)))]
   .[i_nlinks := s16 (conv2 norm (get16 d (o + 2)))]
   .[i_gid := s8 (conv2 norm (get16 d (o + 6)))]
   .[i_size := u32 (conv4 norm (s32 (get32 d (o + 8))))]
   .[i_atime := s32 (conv4 norm (s32 (get32 d (o + 12))))]
   .[i_ctime := s32 (conv4 norm (s32 (get32 d (o + 20))))]
   .[i_mtime := s32 (conv4 norm (s32 (get32 d (o + 16))))]
   .[i_ndzones := V2_NR_DZONES].[i_nindirs := V2_INDIRECTS block_size]
   .[i_zone := map (get_zone32 norm d (o + 24)) (zrange 0 V2_NR_TZONES)].

(** The zones of a list, written from byte [o] on. *)
Fixpoint put_zones16 (norm : bool) (d : Z → Z) (o : Z) (l : list Z) : Z → Z :=
  match l with
  | [] => d
  | z :: l => put_zones16 norm (put16 d o (conv2 norm (s32 z))) (o + 2) l
  end.
Fixpoint put_zones32 (norm : bool) (d : Z → Z) (o : Z) (l : list Z) : Z → Z :=
  match l with
  | [] => d
  | z :: l => put_zones32 norm (put32 d o (conv4 norm (s32 z))) (o + 4) l
  end.

Definition old_icopy_write (norm : bool) (d : Z → Z) (o : Z) (r : inode) : Z → Z :=
  let d := put16 d o (conv2 norm (i_mode r)) in
  let d := put16 d (o + 2) (conv2 norm (i_uid r)) in
  let d := put32 d (o + 4) (conv4 norm (s32 (i_size r))) in
  let d := put32 d (o + 8) (conv4 norm (i_mtime r)) in
  let d := put8 d (o + 13) (i_nlinks r) in
  let d := put8 d (o + 12) (i_gid r) in
  put_zones16 norm d (o + 14) (take (Z.to_nat V1_NR_TZONES) (i_zone r)).

Definition new_icopy_write (norm : bool) (d : Z → Z) (o : Z) (r : inode) : Z → Z :=
  let d := put16 d o (conv2 norm (i_mode r)) in
  let d := put16 d (o + 4) (conv2 norm (i_uid r)) in
  let d := put16 d (o + 2) (conv2 norm (i_nlinks r)) in
  let d := put16 d (o + 6) (conv2 norm (i_gid r)) in
  let d := put32 d (o + 8) (conv4 norm (s32 (i_size r))) in
  let d := put32 d (o + 12) (conv4 norm (i_atime r)) in
  let d := put32 d (o + 20) (conv4 norm (i_ctime r)) in
  let d := put32 d (o + 16) (conv4 norm (i_mtime r)) in
  put_zones32 norm d (o + 24) (take (Z.to_nat V2_NR_TZONES) (i_zone r)).

(** ** Times and the table *)
Definition update_times (rip : option Z) : F unit :=
  let* r := geti rip in
  let* sp := getsp (i_sp r) in
  if s_rd_only sp then skip
  else
    let* s := get in
    let cur_time := now s in
    when (band (i_update r) ATIME) (puti rip (λ r, r.[i_atime := cur_time]));;;
    when (band (i_update r) CTIME) (puti rip (λ r, r.[i_ctime := cur_time]));;;
    when (band (i_update r) MTIME) (puti rip (λ r, r.[i_mtime := cur_time]));;;
    puti rip (λ r, r.[i_update := 0]).

Definition wipe_inode (rip : option Z) : F unit :=
  puti rip (λ r, r.[i_size := 0].[i_update := Z.lor ATIME (Z.lor CTIME MTIME)].[i_dirt := DIRTY]
    .[i_zone := replicate (Z.to_nat V2_NR_TZONES) NO_ZONE]).

Definition dup_inode (ip : option Z) : F unit := puti ip (λ r, r.[i_count := i_count r + 1]).

Section inode.
Context (task_io : Z → dev_req → Z → disks → dev_reply).

Definition rw_inode (rip : option Z) (rw_flag : Z) : F unit :=
  let* r := geti rip in
  let* p := get_super (i_dev r) in
  let* sp := getsp p in
  puti rip (λ r, r.[i_sp := p]);;;
  let offset := s_imap_blocks sp + s_zmap_blocks sp + 2 in
  let b := u32 (u32 (i_num r - 1) / s_inodes_per_block sp + offset) in
  let* bp := get_block task_io (i_dev r) b NORMAL in
  let dip := u32 (i_num r - 1) mod V1_INODES_PER_BLOCK * V1_INODE_SIZE in
  let dip2 := u32 (i_num r - 1) mod V2_INODES_PER_BLOCK (s_block_size sp) * V2_INODE_SIZE in
  when (rw_flag =? WRITING) (
    when (negb (i_update r =? 0)) (update_times rip);;;
    when (negb (s_rd_only sp)) (putb bp (λ r, r.[b_dirt := DIRTY])));;;
  let* d := getb bp in
  (if s_version sp =? V1 then
     if rw_flag =? READING then puti rip (old_icopy_read (s_native sp) (b_data d) dip)
     else
       let* r := geti rip in
       putb bp (λ b, b.[b_data := old_icopy_write (s_native sp) (b_data b) dip r])
   else
     if rw_flag =? READING then puti rip (new_icopy_read (s_native sp) (s_block_size sp) (b_data d) dip2)
     else
       let* r := geti rip in
       putb bp (λ b, b.[b_data := new_icopy_write (s_native sp) (b_data b) dip2 r]));;;
  put_block task_io bp INODE_BLOCK;;;
  puti rip (λ r, r.[i_dirt := CLEAN]).

(** The last free slot of the table: each one that is met replaces the one before. *)
Definition last_free (t : gmap Z inode) : option Z :=
  find (λ i, match t !! i with Some r => negb (0 <? i_count r) | None => false end) (rev (zrange 0 NR_INODES)).

Definition get_inode (dev numb : Z) : F (option Z) :=
  let* s := get in
  match find_slot (λ r, (0 <? i_count r) && ((i_dev r =? dev) && (i_num r =? u32 numb))) (inodes s) NR_INODES with
  | Some rip => dup_inode (Some rip);;; ret (Some rip)
  | None =>
      match last_free (inodes s) with
      | None => set_err ENFILE;;; ret None
      | Some xp =>
          puti (Some xp) (λ r, r.[i_dev := dev].[i_num := u32 numb].[i_count := 1]);;;
          when (negb (dev =? NO_DEV)) (rw_inode (Some xp) READING);;;
          puti (Some xp) (λ r, r.[i_update := 0]);;;
          ret (Some xp)
      end
  end.

Definition free_inode (dev inumb : Z) : F unit :=
  let* p := get_super dev in
  let* sp := getsp p in
  if (inumb <=? 0) || (s_ninodes sp <? inumb) then skip
  else
    free_bit task_io p IMAP inumb;;;
    when (inumb <? s_isearch sp) (putsp p (λ sp, sp.[s_isearch := inumb])).

Definition alloc_inode (dev bits : Z) : F (option Z) :=
  let* p := get_super dev in
  let* sp := getsp p in
  if s_rd_only sp then set_err EROFS;;; ret None
  else
    let* b := alloc_bit task_io p IMAP (s_isearch sp) in
    if b =? NO_BIT then set_err ENFILE;;; ret None
    else
      putsp p (λ sp, sp.[s_isearch := b]);;;
      let* rip := get_inode NO_DEV b in
      match rip with
      | None => free_bit task_io p IMAP b;;; ret None
      | Some _ =>
          let* s := get in
          let* fpr := getfp (fp s) in
          puti rip (λ r, r.[i_mode := bits].[i_nlinks := 0].[i_uid := fp_effuid fpr].[i_gid := fp_effgid fpr]
            .[i_dev := dev].[i_ndzones := s_ndzones sp].[i_nindirs := s_nindirs sp].[i_sp := p]);;;
          wipe_inode rip;;;
          ret rip
      end.

(** ** Truncation ([link.c]) *)
Definition zeroblock_range (rip : option Z) (pos len : Z) : F unit :=
  if len =? 0 then skip
  else
    let* b := read_map task_io rip pos in
    if b =? NO_BLOCK then skip
    else
      let* r := geti rip in
      let* sp := getsp (i_sp r) in
      let* bp := get_block task_io (i_dev r) b NORMAL in
      let offset := pos mod s_block_size sp in
      if s_block_size sp <? u32 (offset + len) then panic
      else
        putb bp (λ r, r.[b_data := λ i, if (offset <=? i) && (i <? offset + len) then 0 else b_data r i].[b_dirt := DIRTY]);;;
        put_block task_io bp FULL_DATA_BLOCK.

(** [last]: LAST_HALF. *)
Definition zeroblock_half (rip : option Z) (pos : Z) (last : bool) : F unit :=
  let* r := geti rip in
  let* sp := getsp (i_sp r) in
  let offset := pos mod s_block_size sp in
  if last then zeroblock_range rip pos (s_block_size sp - offset)
  else zeroblock_range rip (pos - offset) offset.

Definition nextblock (pos zone_size : Z) : Z :=
  let p := pos / zone_size * zone_size in
  if negb (pos mod zone_size =? 0) then u32 (p + zone_size) else p.

Definition freesp_inode (rip : option Z) (start end_ : Z) : F Z :=
  let* r := geti rip in
  let* sp := getsp (i_sp r) in
  let end_ := if i_size r <? end_ then i_size r else end_ in
  if end_ <=? start then ret EINVAL
  else
    let zone_size := Z.shiftl (s_block_size sp) (s_log_zone_size sp) in
    (if start / zone_size =? (end_ - 1) / zone_size then zeroblock_range rip start (end_ - start)
     else
       when (negb (start mod zone_size =? 0)) (zeroblock_half rip start true);;;
       when (negb (end_ mod zone_size =? 0) && (end_ <? i_size r)) (zeroblock_half rip end_ false));;;
    let e := end_ / zone_size in
    let e := if (end_ =? i_size r) && negb (end_ mod zone_size =? 0) then e + 1 else e in
    for_list (zrange (nextblock start zone_size / zone_size) e) (λ p,
      write_map task_io rip (u32 (p * zone_size)) NO_ZONE WMAP_FREE;;; skip);;;
    ret OK.

Definition truncate_inode (rip : option Z) (newsize : Z) : F Z :=
  let* r := geti rip in
  let file_type := Z.land (i_mode r) I_TYPE in
  if (file_type =? I_CHAR_SPECIAL) || (file_type =? I_BLOCK_SPECIAL) then ret EINVAL
  else
    let* sp := getsp (i_sp r) in
    if s_max_size sp <? newsize then ret EFBIG
    else
      let waspipe := i_pipe r =? I_PIPE in
      if waspipe && negb (newsize =? 0) then ret EINVAL
      else
        when waspipe (puti rip (λ r, r.[i_size := PIPE_SIZE (s_block_size sp)]));;;
        let* r := geti rip in
        when (newsize <? i_size r) (freesp_inode rip newsize (i_size r);;; skip);;;
        (if negb waspipe then puti rip (λ r, r.[i_size := newsize]) else wipe_inode rip);;;
        puti rip (λ r, r.[i_dirt := DIRTY]);;;
        ret OK.

Definition put_inode (rip : option Z) : F unit :=
  match rip with
  | None => skip
  | Some _ =>
      puti rip (λ r, r.[i_count := i_count r - 1]);;;
      let* r := geti rip in
      when (i_count r =? 0) (
        (if i_nlinks r =? 0 then
           truncate_inode rip 0;;;
           puti rip (λ r, r.[i_mode := I_NOT_ALLOC].[i_dirt := DIRTY]);;;
           free_inode (i_dev r) (i_num r)
         else when (i_pipe r =? I_PIPE) (truncate_inode rip 0;;; skip));;;
        puti rip (λ r, r.[i_pipe := NO_PIPE]);;;
        let* r := geti rip in
        when (i_dirt r =? DIRTY) (rw_inode rip WRITING))
  end.

(** ** [read_super] ([super.c])

    The fields of the disk's super block; the two pointers, which the copy overwrites
    too, are set by the callers. *)
Definition parse_super (d : Z → Z) (sp : super_block) : super_block :=
  SuperBlock (get32 d 0) (get16 d 4) (s16 (get16 d 6)) (s16 (get16 d 8)) (get16 d 10) (s16 (get16 d 12))
    (get32 d 16) (get32 d 20) (s16 (get16 d 24)) (get16 d 28) (get32 d 40) NO_DEV (negb (get32 d 48 =? 0))
    (negb (get32 d 52 =? 0)) (s32 (get32 d 56)) (s32 (get32 d 60)) (s32 (get32 d 64)) (get32 d 68) (get32 d 72)
    (s_isup sp) (s_imount sp).

(** The version and byte order that a magic number means. *)
Definition fs_version (magic : Z) : option (Z * bool) :=
  if (magic =? SUPER_MAGIC) || (magic =? conv2 false SUPER_MAGIC) then Some (V1, magic =? SUPER_MAGIC)
  else if (magic =? SUPER_V2) || (magic =? conv2 false SUPER_V2) then Some (V2, magic =? SUPER_V2)
  else if magic =? SUPER_V3 then Some (V3, true)
  else None.

Definition swap_super (native : bool) (sp : super_block) : super_block :=
  sp.[s_ninodes := u32 (conv4 native (s32 (s_ninodes sp)))]
    .[s_nzones := u16 (conv2 native (s_nzones sp))]
    .[s_imap_blocks := s16 (conv2 native (s_imap_blocks sp))]
    .[s_zmap_blocks := s16 (conv2 native (s_zmap_blocks sp))]
    .[s_firstdatazone := u16 (conv2 native (s_firstdatazone sp))]
    .[s_log_zone_size := s16 (conv2 native (s_log_zone_size sp))]
    .[s_max_size := u32 (conv4 native (s32 (s_max_size sp)))]
    .[s_zones := u32 (conv4 native (s32 (s_zones sp)))].

(** What depends on the version; the last component: the block size is too small. *)
Definition size_super (version : Z) (sp : super_block) : super_block * bool :=
  if version =? V1 then
    (sp.[s_block_size := STATIC_BLOCK_SIZE].[s_zones := s_nzones sp].[s_inodes_per_block := V1_INODES_PER_BLOCK]
       .[s_ndzones := V1_NR_DZONES].[s_nindirs := V1_INDIRECTS], false)
  else
    let sp := if version =? V2 then sp.[s_block_size := STATIC_BLOCK_SIZE] else sp in
    if s_block_size sp <? MIN_BLOCK_SIZE then (sp, true)
    else (sp.[s_inodes_per_block := V2_INODES_PER_BLOCK (s_block_size sp)]
            .[s_ndzones := V2_NR_DZONES].[s_nindirs := V2_INDIRECTS (s_block_size sp)], false).

Definition bad_block_size (bs : Z) : bool :=
  (bs <? MIN_BLOCK_SIZE) || (MAX_BLOCK_SIZE <? bs) || negb (bs mod 512 =? 0) || (bs <? SUPER_SIZE) ||
  negb (bs mod V2_INODE_SIZE =? 0) || negb (bs mod V1_INODE_SIZE =? 0).

Definition bad_super (sp : super_block) : bool :=
  (s_imap_blocks sp <? 1) || (s_zmap_blocks sp <? 1) || (s_ninodes sp <? 1) || (s_zones sp <? 1) ||
  (4 <? u32 (s_log_zone_size sp)).

Definition read_super (p : option Z) : F Z :=
  let* sp := getsp p in
  let dev := s_dev sp in
  if dev =? NO_DEV then panic
  else
    let* ' (r, iov) := dev_io task_io DEV_READ dev FS_PROC_NR [(MIN_BLOCK_SIZE, λ _, 0)] SUPER_BLOCK_BYTES MIN_BLOCK_SIZE 0 in
    if negb (r =? MIN_BLOCK_SIZE) then ret EINVAL
    else
      let sbbuf := match iov with (_, d) :: _ => d | [] => λ _, 0 end in
      putsp p (parse_super sbbuf);;;
      let* sp := getsp p in
      match fs_version (s_magic sp) with
      | None => ret EINVAL
      | Some (version, native) =>
          let '(sp, too_small) := size_super version (swap_super native sp) in
          putsp p (λ _, sp);;;
          if too_small || bad_block_size (s_block_size sp) then ret EINVAL
          else
            putsp p (λ sp, sp.[s_isearch := 0].[s_zsearch := 0].[s_version := version].[s_native := native]);;;
            if bad_super sp then ret EINVAL
            else putsp p (λ sp, sp.[s_dev := dev]);;; ret OK
      end.
End inode.
