(* ===== verification/FsMapThms.v ===== *)
(** * The blocks of a file: theorems on [read_map]

    The zone and the block of a position of a file, as a function of the inode and of
    the contents of the disk alone ([file_zone], [file_block]); [read_map] computes it,
    whatever is in the cache, and panics where it meets an illegal zone. *)
From stdpp Require Import base gmap list numbers strings.
From Stdlib Require Import ZArith Lia.
From S2P Require Import Prelude.
From S2P Require Import Chains.
From S2P Require Import KTypes.
From S2P Require Import FsTypes.
From S2P Require Import FsCache.
From S2P Require Import FsCacheInv.
From S2P Require Import FsHash.
From S2P Require Import FsIo.
From S2P Require Import FsGet.
From S2P Require Import FsPut.
From S2P Require Import FsStore.
From S2P Require Import FsProps.
From S2P Require Import FsMap.
From S2P Require Import FsBitsThms.
From S2P Require Import FsAlloc.

(** ** The specification *)
Definition legal (sp : super_block) (z : Z) : bool :=
  (z =? NO_ZONE) || ((s_firstdatazone sp <=? z) && (z <? s_zones sp)).
Definition entry_width (sp : super_block) : Z := if s_version sp =? V1 then 2 else 4.
Definition entry (sp : super_block) (d : Z → Z) (index : Z) : Z :=
  if s_version sp =? V1 then u32 (conv2 (s_native sp) (get16 d (2 * index)))
  else u32 (conv4 (s_native sp) (s32 (get32 d (4 * index)))).

(** Entry [index] of the indirect block in zone [z]; [None] if it is illegal. *)
Definition look (v : contents) (sp : super_block) (z index : Z) : option Z :=
  let e := entry sp (v (s_dev sp) (Z.shiftl z (s_log_zone_size sp))) index in
  if legal sp e then Some e else None.

Definition file_zone (v : contents) (sp : super_block) (ip : inode) (zone : Z) : option Z :=
  let dzones := i_ndzones ip in
  let per := i_nindirs ip in
  if zone <? dzones then aget (i_zone ip) zone
  else if zone - dzones <? per then
    aget (i_zone ip) dzones ≫= λ z, if z =? NO_ZONE then Some NO_ZONE else look v sp z (zone - dzones)
  else
    let far := zone - dzones - per in
    aget (i_zone ip) (dzones + 1) ≫= λ z, if z =? NO_ZONE then Some NO_ZONE else
    look v sp z (far / per) ≫= λ z, if z =? NO_ZONE then Some NO_ZONE else look v sp z (far mod per).

Definition file_block (v : contents) (sp : super_block) (ip : inode) (position : Z) : option Z :=
  let scale := s_log_zone_size sp in
  let n := position / s_block_size sp in
  file_zone v sp ip (n / 2 ^ scale) ≫= λ z,
  Some (if z =? NO_ZONE then NO_BLOCK else z * 2 ^ scale + n mod 2 ^ scale).

(** [m] returns what [o] is in a state with [Q], or crashes if [o] is [None]. *)
Definition runs {S A} (m : M S A) (o : option A) (Q : S → Prop) (s : S) : Prop :=
  match o with Some r => twp m (λ r' s', r' = r ∧ Q s') s | None => m s = Crash end.

Lemma runs_bind {S A B} (m : M S A) (k : A → M S B) o (ko : A → option B) (Q Q' : S → Prop) s :
  runs m o Q s → (∀ r s', o = Some r → Q s' → runs (k r) (ko r) Q' s') → runs (bind m k) (o ≫= ko) Q' s.
Proof.
  unfold runs. intros Hm Hk. destruct o as [r|]; cbn.
  - destruct (twp_inv _ _ _ Hm) as (r' & s' & Hrun & -> & HQ). specialize (Hk r s' eq_refl HQ).
    destruct (ko r); [by apply twp_bind; eapply twp_intro|by rewrite (bind_Ret _ _ _ _ _ Hrun)].
  - by apply bind_Crash.
Qed.
Lemma runs_bind_Ret {S A B} (m : M S A) (k : A → M S B) o (Q : S → Prop) s a s' :
  m s = Ret a s' → runs (k a) o Q s' → runs (bind m k) o Q s.
Proof. unfold runs. intros Hm. rewrite (bind_Ret _ k _ _ _ Hm). unfold twp. by rewrite (bind_Ret _ k _ _ _ Hm). Qed.
Lemma runs_impl {S A} (m : M S A) o (Q Q' : S → Prop) s : (∀ s', Q s' → Q' s') → runs m o Q s → runs m o Q' s.
Proof. unfold runs. intros HQ. destruct o; [|done]. intros H. eapply twp_mono; [exact H|]. cbn. intros r s' [-> ?]. auto. Qed.
Lemma runs_ret {S A} (a : A) (Q : S → Prop) s : Q s → runs (ret a) (Some a) Q s.
Proof. done. Qed.

Section read_map.
Context (geom : Z → option geometry) (Hgeom : geom_ok geom).
Context (task_io : Z → dev_req → Z → disks → dev_reply) (Hworks : works geom task_io).

#[local] Abbreviation refines := (refines geom).

(** A file system on its device: its zones are blocks of it, and an indirect block has
    room for its entries. *)
Record fs_ok (sp : super_block) : Prop := {
  fo_geom : ∃ g, geom (s_dev sp) = Some g ∧ g_size g = s_block_size sp ∧ s_zones sp * 2 ^ s_log_zone_size sp ≤ g_blocks g;
  fo_scale : 0 ≤ s_log_zone_size sp;
  fo_first : 1 ≤ s_firstdatazone sp;
  fo_indirs : 0 < s_nindirs sp ∧ s_nindirs sp * entry_width sp ≤ s_block_size sp }.

(** An inode of it, whose own zones are legal. *)
Record file_ok (sp : super_block) (ip : inode) : Prop := {
  fi_dev : i_dev ip = s_dev sp;
  fi_ndzones : 0 ≤ i_ndzones ip ∧ i_ndzones ip + 2 ≤ Z.of_nat (length (i_zone ip));
  fi_nindirs : i_nindirs ip = s_nindirs sp;
  fi_zones : Forall (λ z, legal sp z = true) (i_zone ip) }.

Context (sp : super_block) (Hfs : fs_ok sp).
#[local] Abbreviation scale := (s_log_zone_size sp).

Lemma legal_block z : legal sp z = true → z ≠ NO_ZONE → ∀ k, 0 ≤ k < 2 ^ scale →
  within geom (s_dev sp) (z * 2 ^ scale + k) ∧ u32 (z * 2 ^ scale + k) = z * 2 ^ scale + k ∧ 0 < z * 2 ^ scale + k.
Proof.
  intros [->%Z.eqb_eq|[H1%Z.leb_le H2%Z.ltb_lt]%andb_true_iff]%orb_true_iff Hz k Hk; [done|].
  destruct (fo_geom sp Hfs) as (g & Hg & _ & Hb). pose proof (go_size _ Hgeom _ _ Hg). pose proof (fo_first sp Hfs).
  assert (z * 2 ^ scale + k < g_blocks g) by nia. split; [exists g; split; [done|nia]|]. split; [apply u32_id; nia|nia].
Qed.
Lemma legal_start z : legal sp z = true → z ≠ NO_ZONE →
  within geom (s_dev sp) (Z.shiftl z scale) ∧ u32 (Z.shiftl z scale) = Z.shiftl z scale.
Proof.
  intros Hl Hz. pose proof (fo_scale sp Hfs). rewrite Z.shiftl_mul_pow2 by done. pose proof (Z.pow_pos_nonneg 2 scale).
  destruct (legal_block z Hl Hz 0) as (H1 & H2 & _); [lia|]. by rewrite Z.add_0_r in *.
Qed.

Lemma entry_ext x y index : 0 ≤ index < s_nindirs sp → (∀ o, 0 ≤ o < s_block_size sp → x o = y o) →
  entry sp x index = entry sp y index.
Proof.
  intros Hi Hxy. pose proof (fo_indirs sp Hfs) as [_ Hw]. unfold entry_width in Hw. unfold entry, get32, get16.
  destruct (s_version sp =? V1); rewrite !Hxy by lia; done.
Qed.

Definition unchanged (v : contents) (s s' : fsstate) : Prop := refines s' v ∧ rest s' = rest s ∧ same_counts s s'.
Lemma unchanged_trans v s s' s'' : unchanged v s s' → unchanged v s' s'' → unchanged v s s''.
Proof. intros (_ & H1 & H2) (H3 & H4 & H5). split; [done|]. split; [congruence|]. intros b. by rewrite H5, H2. Qed.

Lemma look_spec s v i z index :
  super_at s (s_dev sp) i sp → refines s v → ready s → legal sp z = true → z ≠ NO_ZONE → 0 ≤ index < s_nindirs sp →
  runs (look_indir task_io (s_dev sp) scale z index) (look v sp z index) (unchanged v s) s.
Proof.
  intros Hsp Hr Hready Hl Hz Hi. destruct (legal_start z Hl Hz) as [Hw Hu]. unfold look_indir. rewrite Hu.
  destruct (twp_inv _ _ _ (get_refines geom task_io Hgeom Hworks s v _ _ Hr Hready Hw)) as
    (p & s1 & Hget & b & x & -> & Hr1 & Hh & Hx & Hused).
  eapply runs_bind_Ret; [exact Hget|]. pose proof Hh as (r & Hb & Hd & _ & _ & Hdata).
  assert (Hsp1 : super_at s1 (s_dev sp) i sp) by (eapply super_rest; [apply Hused|done]).
  assert (He : entry sp (b_data r) index = entry sp (v (s_dev sp) (Z.shiftl z scale)) index).
  { rewrite Hdata. apply entry_ext; [done|]. intros o Ho. apply Hx. destruct Hw as (g & Hg & Hn). exists g.
    destruct (fo_geom sp Hfs) as (g' & Hg' & Hs & _). assert (g' = g) as -> by congruence. by rewrite Hs. }
  assert (Hrd : rd_indir (Some b) index s1 = if legal sp (entry sp (b_data r) index) then Ret (entry sp (b_data r) index) s1 else Crash).
  { unfold rd_indir. rewrite (bind_Ret _ _ s1 r s1) by (unfold getb; by rewrite Hb). rewrite Hd.
    rewrite (bind_Ret _ _ s1 (Some i) s1) by (by eapply get_super_eq).
    pose proof Hsp1 as (_ & _ & Hi1 & _). rewrite (bind_Ret _ _ s1 sp s1) by (unfold getsp; by rewrite Hi1). cbv zeta.
    fold (entry sp (b_data r) index). unfold legal. generalize (entry sp (b_data r) index). intros e.
    destruct (Z.eqb_spec e NO_ZONE); [done|]. destruct (Z.ltb_spec e (s_firstdatazone sp)), (Z.leb_spec (s_zones sp) e),
      (Z.leb_spec (s_firstdatazone sp) e), (Z.ltb_spec e (s_zones sp)); cbn; done || lia. }
  rewrite He in Hrd. unfold look. cbv zeta. revert Hrd. generalize (entry sp (v (s_dev sp) (Z.shiftl z scale)) index).
  intros e Hrd. destruct (legal sp e); [|by apply bind_Crash].
  eapply runs_bind_Ret; [exact Hrd|].
  destruct (twp_inv _ _ _ (put_refines geom task_io Hgeom Hworks s1 v b _ _ x INDIRECT_BLOCK Hr1 Hh)) as ([] & s2 & Hput & Hr2 & Hrel).
  eapply runs_bind_Ret; [exact Hput|]. apply runs_ret. split; [done|].
  eapply (use_cycle geom s s1 s1 s2); [exact Hr|done..| |apply Hr1|done]. by eexists.
Qed.

Lemma look_legal v z index e : look v sp z index = Some e → legal sp e = true.
Proof. unfold look. cbv zeta. destruct (legal sp _) eqn:H; [|done]. by intros [= <-]. Qed.

Lemma block_of_zone z boff (Q : fsstate → Prop) s :
  legal sp z = true → 0 ≤ boff < 2 ^ scale → Q s →
  runs (ret (if z =? NO_ZONE then NO_BLOCK else u32 (Z.shiftl z scale + boff)))
    (Some (if z =? NO_ZONE then NO_BLOCK else z * 2 ^ scale + boff)) Q s.
Proof.
  intros Hl Hb HQ. destruct (Z.eqb_spec z NO_ZONE) as [|Hz]; [by apply runs_ret|].
  rewrite Z.shiftl_mul_pow2 by apply (fo_scale sp Hfs). destruct (legal_block z Hl Hz boff Hb) as (_ & -> & _). by apply runs_ret.
Qed.

(** The last step: the entry of the single indirect block. *)
Lemma last_look s v i z index boff :
  super_at s (s_dev sp) i sp → refines s v → ready s → legal sp z = true → 0 ≤ index < s_nindirs sp → 0 ≤ boff < 2 ^ scale →
  runs (if z =? NO_ZONE then ret NO_BLOCK
        else let* z := look_indir task_io (s_dev sp) scale z index in
             ret (if z =? NO_ZONE then NO_BLOCK else u32 (Z.shiftl z scale + boff)))
    ((if z =? NO_ZONE then Some NO_ZONE else look v sp z index) ≫= λ z,
     Some (if z =? NO_ZONE then NO_BLOCK else z * 2 ^ scale + boff)) (unchanged v s) s.
Proof.
  intros Hsp Hr Hready Hl Hi Hb. destruct (Z.eqb_spec z NO_ZONE) as [|Hz]; [by apply runs_ret|].
  eapply runs_bind; [by apply look_spec with (i := i)|]. intros e s' He Hs'. apply block_of_zone; [by eapply look_legal|done|done].
Qed.

Lemma read_map_runs s v i f ip pos :
  super_at s (s_dev sp) i sp → inodes s !! f = Some ip → i_sp ip = Some i → file_ok sp ip → refines s v → ready s →
  0 ≤ pos < 2 ^ 32 → 1024 ≤ s_block_size sp →
  pos / s_block_size sp / 2 ^ scale < i_ndzones ip + s_nindirs sp + s_nindirs sp * s_nindirs sp →
  runs (read_map task_io (Some f) pos) (file_block v sp ip pos) (unchanged v s) s.
Proof.
  intros Hsp Hf Hisp Hfi Hr Hready Hp Hbs Hlim. pose proof (fo_scale sp Hfs) as Hsc. pose proof (fo_indirs sp Hfs) as [Hni _].
  pose proof (Z.pow_pos_nonneg 2 scale ltac:(lia) Hsc) as Hpow. destruct (fi_ndzones _ _ Hfi) as [Hnd Hlen].
  unfold read_map. eapply runs_bind_Ret; [unfold geti; by rewrite Hf|]. rewrite Hisp. pose proof Hsp as (_ & _ & Hi & _).
  eapply runs_bind_Ret; [unfold getsp; by rewrite Hi|]. cbv zeta. unfold file_block. cbv zeta.
  set (n := pos / s_block_size sp) in *.
  assert (Hn : 0 ≤ n < 2 ^ 31).
  { split; [apply Z.div_pos; lia|]. apply Z.div_lt_upper_bound; lia. }
  rewrite s32_id by lia. rewrite Z.shiftr_div_pow2, Z.shiftl_mul_pow2 by done.
  replace (n - n / 2 ^ scale * 2 ^ scale) with (n mod 2 ^ scale) by (pose proof (Z.div_mod n (2 ^ scale)); lia).
  pose proof (Z.mod_pos_bound n (2 ^ scale) Hpow) as Hboff. pose proof (Z.div_pos n (2 ^ scale) ltac:(lia) Hpow) as Hzone.
  set (zone := n / 2 ^ scale) in *. set (boff := n mod 2 ^ scale) in *.
  assert (Hget : ∀ j, 0 ≤ j < i_ndzones ip + 2 → ∃ z, aget (i_zone ip) j = Some z ∧ legal sp z = true ∧ get_zone (Some f) j s = Ret z s).
  { intros j Hj. destruct (lookup_lt_is_Some_2 (i_zone ip) (Z.to_nat j)) as [z Hz]; [lia|]. exists z.
    assert (Ha : aget (i_zone ip) j = Some z) by (unfold aget; by rewrite (proj2 (Z.leb_le 0 j)) by lia).
    split; [done|]. split; [by eapply (proj1 (Forall_lookup _ _) (fi_zones _ _ Hfi))|].
    unfold get_zone, geti, bind. rewrite Hf. cbn. by rewrite Ha. }
  unfold file_zone. cbv zeta. rewrite (fi_dev _ _ Hfi), (fi_nindirs _ _ Hfi).
  destruct (Z.ltb_spec zone (i_ndzones ip)) as [Hd|Hd].
  { destruct (Hget zone) as (z & Ha & Hl & Hg); [lia|]. rewrite Ha. cbn [mbind option_bind].
    eapply runs_bind_Ret; [exact Hg|]. by apply block_of_zone. }
  destruct (Z.ltb_spec (zone - i_ndzones ip) (s_nindirs sp)) as [Hs|Hs].
  - destruct (Hget (i_ndzones ip)) as (z & Ha & Hl & Hg); [lia|]. rewrite Ha.
    eapply runs_bind_Ret; [etransitivity; [eapply bind_Ret; exact Hg|reflexivity]|]. cbv beta iota.
    apply (last_look s v i); [done|done|done|done|lia|done].
  - destruct (Hget (i_ndzones ip + 1)) as (z & Ha & Hl & Hg); [lia|]. rewrite Ha.
    set (far := zone - i_ndzones ip - s_nindirs sp) in *.
    assert (Hq : 0 ≤ far / s_nindirs sp < s_nindirs sp).
    { split; [apply Z.div_pos; lia|]. apply Z.div_lt_upper_bound; unfold far; lia. }
    pose proof (Z.mod_pos_bound far (s_nindirs sp) Hni) as Hm.
    rewrite Z.quot_div_nonneg, Z.rem_mod_nonneg by (unfold far; lia).
    destruct (Z.eqb_spec z NO_ZONE) as [->|Hz].
    + eapply runs_bind_Ret; [etransitivity; [eapply bind_Ret; exact Hg|reflexivity]|]. apply runs_ret. by split_and!.
    + match goal with |- runs _ ?o _ _ => replace o with
        ((look v sp z (far / s_nindirs sp) ≫= λ z1, Some (z1, far mod s_nindirs sp)) ≫= λ x, let '(z1, ex) := x in
         (if z1 =? NO_ZONE then Some NO_ZONE else look v sp z1 ex) ≫= λ z, Some (if z =? NO_ZONE then NO_BLOCK else z * 2 ^ scale + boff))
        end; [|cbn [mbind option_bind]; rewrite (proj2 (Z.eqb_neq z NO_ZONE)) by done; by destruct (look v sp z _)].
      apply runs_bind with (Q := unchanged v s).
      * eapply runs_bind_Ret; [exact Hg|]. rewrite (proj2 (Z.eqb_neq z NO_ZONE)) by done.
        eapply runs_bind; [by apply look_spec with (i := i)|]. intros e s' He Hs'. by apply runs_ret.
      * intros [z1 ex] s' Hx Hs'. destruct (look v sp z (far / s_nindirs sp)) as [e|] eqn:He; [|done]. cbn in Hx. injection Hx as <- <-.
        apply look_legal in He. destruct Hs' as (Hr' & Hrest & Hcnt).
        eapply runs_impl; [|apply (last_look s' v i); [by eapply super_rest|done|by eapply ready_same|done|done|done]].
        intros s'' Hs''. by eapply unchanged_trans.
Qed.
End read_map.

(** The zone of a file is legal. *)
Lemma file_zone_legal v sp ip zone z : file_ok sp ip → file_zone v sp ip zone = Some z → legal sp z = true.
Proof.
  intros Hfi. assert (Hown : ∀ j y, aget (i_zone ip) j = Some y → legal sp y = true).
  { intros j y. unfold aget. destruct (0 <=? j); [|done]. intros Hy. by eapply (proj1 (Forall_lookup _ _) (fi_zones _ _ Hfi)). }
  unfold file_zone. cbv zeta. destruct (zone <? _); [by apply Hown|]. destruct (_ <? _).
  - destruct (aget _ _) as [y|] eqn:Hy; [|done]. cbn. destruct (y =? NO_ZONE); [by intros [= <-]|apply look_legal].
  - destruct (aget _ _) as [y|] eqn:Hy; [|done]. cbn. destruct (y =? NO_ZONE); [by intros [= <-]|].
    destruct (look v sp y _) as [y'|]; [|done]. cbn. destruct (y' =? NO_ZONE); [by intros [= <-]|apply look_legal].
Qed.

Lemma file_block_range v sp ip pos b : 0 ≤ s_log_zone_size sp → file_ok sp ip → file_block v sp ip pos = Some b →
  b = NO_BLOCK ∨ s_firstdatazone sp * 2 ^ s_log_zone_size sp ≤ b < s_zones sp * 2 ^ s_log_zone_size sp.
Proof.
  intros Hsc Hfi. unfold file_block. cbv zeta. destruct (file_zone v sp ip _) as [z|] eqn:Hz; [|done].
  apply file_zone_legal in Hz; [|done]. cbn. intros [= <-]. destruct (Z.eqb_spec z NO_ZONE) as [|Hne]; [by left|]. right.
  unfold legal in Hz. rewrite (proj2 (Z.eqb_neq z NO_ZONE)) in Hz by done. cbn in Hz.
  apply andb_true_iff in Hz as [H1%Z.leb_le H2%Z.ltb_lt]. pose proof (Z.pow_pos_nonneg 2 (s_log_zone_size sp) ltac:(lia) Hsc) as Hpow.
  pose proof (Z.mod_pos_bound (pos / s_block_size sp) _ Hpow). nia.
Qed.

(** ** The property *)

(** C36. [read_map] finds the block of a position that the inode and the indirect blocks of the
    file system give, direct, through one or through two indirect blocks, and NO_BLOCK in a
    hole; what disk and cache hold stays the same and every buffer is put back.  The block
    lies in the data area.  An illegal zone in an indirect block makes it panic. *)
Theorem read_map_finds geom task_io s v i f sp ip pos :
  geom_ok geom → works geom task_io → fs_ok geom sp → file_ok sp ip → refines geom s v → ready s →
  super_at s (s_dev sp) i sp → inodes s !! f = Some ip → i_sp ip = Some i →
  0 ≤ pos < 2 ^ 32 → 1024 ≤ s_block_size sp →
  pos / s_block_size sp / 2 ^ s_log_zone_size sp < i_ndzones ip + s_nindirs sp + s_nindirs sp * s_nindirs sp →
  match file_block v sp ip pos with
  | Some b => ∃ s', read_map task_io (Some f) pos s = Ret b s' ∧ refines geom s' v ∧ rest s' = rest s ∧ same_counts s s' ∧
      (b = NO_BLOCK ∨ s_firstdatazone sp * 2 ^ s_log_zone_size sp ≤ b < s_zones sp * 2 ^ s_log_zone_size sp)
  | None => read_map task_io (Some f) pos s = Crash
  end.
Proof.
  intros Hg Hw Hfs Hfi Hr Hready Hsp Hf Hisp Hp Hbs Hlim.
  pose proof (read_map_runs geom Hg task_io Hw sp Hfs s v i f ip pos Hsp Hf Hisp Hfi Hr Hready Hp Hbs Hlim) as H.
  unfold runs in H. destruct (file_block v sp ip pos) as [b|] eqn:Hb; [|exact H].
  destruct (twp_inv _ _ _ H) as (r & s' & Hrun & -> & Hr' & Hrest & Hcnt). exists s'. split; [done|]. split_and!; [done..|].
  eapply file_block_range; [by apply (fo_scale geom)|done|done].
Qed.

(** ** A concrete file: two blocks, a hole, and an indirect block with illegal entries. *)
Definition demo_file : inode :=
  Inode 0x81FF 1 0 0 40000 0 0 0 [10; 0; 12; 0; 0; 0; 0; 20; 0; 0] demo_dev 5 1 7 256 (Some 0) CLEAN NO_PIPE 0 0 0.
Definition demo_open : fsstate := demo_pool.[inodes := {[3 := demo_file]}].

Lemma demo_open_refines : refines demo_geom demo_open demo_view.
Proof.
  destruct demo_refines as [[He Hd Hch] Hv]. split; [split; [|done|by apply (chains_same demo_pool)]|done].
  intros d g Hg. exact (He d g Hg).
Qed.

Lemma demo_fs_ok : fs_ok demo_geom demo_sp.
Proof. split; [by exists (Geometry 5 1024 64)|done..]. Qed.
Lemma demo_file_ok : file_ok demo_sp demo_file.
Proof. split; [done..|]. by repeat constructor. Qed.

Lemma read_map_finds_witness :
  (∃ s', read_map demo_io (Some 3) 2100 demo_open = Ret 12 s') ∧ (∃ s', read_map demo_io (Some 3) 1500 demo_open = Ret NO_BLOCK s') ∧
  read_map demo_io (Some 3) 8000 demo_open = Crash.
Proof.
  pose proof (λ pos H1 H2 H3, read_map_finds demo_geom demo_io demo_open demo_view 0 3 demo_sp demo_file pos demo_geom_ok (demo_works _) demo_fs_ok
    demo_file_ok demo_open_refines demo_ready demo_super eq_refl eq_refl H1 H2 H3) as H.
  split; [|split].
  - destruct (H 2100) as (s' & Hrun & _); [lia|done|by vm_compute|]. by exists s'.
  - destruct (H 1500) as (s' & Hrun & _); [lia|done|by vm_compute|]. by exists s'.
  - exact (H 8000 ltac:(lia) ltac:(done) ltac:(by vm_compute)).
Defined.
