(* ===== verification/FsCopyThms.v ===== *)
(** * Inodes on disk: theorems on [old_icopy] and [new_icopy]

    Words and double words in either byte order, and the round trip of an inode through
    its disk image. *)
From stdpp Require Import base gmap list numbers strings.
From Stdlib Require Import ZArith Lia.
From S2P Require Import Prelude.
From S2P Require Import KTypes.
From S2P Require Import FsTypes.
From S2P Require Import FsStore.
From S2P Require Import FsBitsThms.
From S2P Require Import FsMap.
From S2P Require Import FsInode.

(** ** Conversions *)
Lemma conv2_mod norm w : conv2 norm w = conv2 norm (w mod 65536).
Proof.
  unfold conv2. change 65536 with (2 ^ 16). destruct norm.
  - change 0xFFFF with (Z.ones 16). rewrite !Z.land_ones by lia. by rewrite Z.mod_mod.
  - change 255 with (Z.ones 8). f_equal; [f_equal|].
    + rewrite !Z.land_ones by lia. apply Z.bits_inj'. intros n Hn. destruct (decide (n < 8)).
      * by rewrite !Z.mod_pow2_bits_low by lia.
      * by rewrite !Z.mod_pow2_bits_high by lia.
    + apply Z.bits_inj'. intros n Hn. rewrite !Z.land_spec, !Z.shiftr_spec, Z.testbit_ones_nonneg by lia.
      destruct (Z.ltb_spec n 8); [|by rewrite !andb_false_r]. by rewrite Z.mod_pow2_bits_low by lia.
Qed.

Lemma conv2_back norm w : conv2 norm (conv2 norm w) = w mod 65536.
Proof. rewrite (conv2_mod norm w). apply conv2_conv2. by apply Z.mod_pos_bound. Qed.
Lemma conv2_word norm w : 0 ≤ conv2 norm w < 65536.
Proof. rewrite conv2_mod. apply conv2_range. by apply Z.mod_pos_bound. Qed.

Lemma conv4_halves x : conv4 false x = s32 (65536 * conv2 false x + conv2 false (x / 65536)).
Proof.
  unfold conv4. cbv zeta. f_equal. change 0xFFFF with (Z.ones 16). rewrite !Z.land_ones, Z.shiftr_div_pow2 by lia.
  change (2 ^ 16) with 65536. rewrite <-!conv2_mod. pose proof (conv2_word false (x / 65536)).
  assert (Hlo : Z.land (Z.shiftl (conv2 false x) 16) (conv2 false (x / 65536)) = 0).
  { apply Z.bits_inj'. intros n Hn. rewrite Z.land_spec, Z.bits_0. destruct (decide (n < 16)).
    - by rewrite Z.shiftl_spec_low.
    - rewrite (Z.bits_above_log2 (conv2 false (x / 65536))); [apply andb_false_r|lia|].
      destruct (decide (conv2 false (x / 65536) = 0)) as [->|]; [cbn; lia|]. apply Z.log2_lt_pow2; [lia|].
      apply Z.lt_le_trans with (2 ^ 16); [lia|]. apply Z.pow_le_mono_r; lia. }
  rewrite <-Z.lxor_lor, <-Z.add_nocarry_lxor by done. rewrite Z.shiftl_mul_pow2 by lia. lia.
Qed.
Lemma s32_mod x : s32 x mod 2 ^ 32 = x mod 2 ^ 32.
Proof. unfold s32. rewrite Zminus_mod_idemp_l. f_equal. lia. Qed.
Lemma s32_eq x y : x mod 2 ^ 32 = y mod 2 ^ 32 → s32 x = s32 y.
Proof. intros H. unfold s32. f_equal. by rewrite <-(Zplus_mod_idemp_l x), <-(Zplus_mod_idemp_l y), H. Qed.

Lemma mod_div_words x : x mod 2 ^ 32 = 65536 * ((x / 65536) mod 65536) + x mod 65536.
Proof. change (2 ^ 32) with (65536 * 65536). rewrite Z.rem_mul_r by lia. lia. Qed.

Lemma conv2_high x y : x mod 2 ^ 32 = y mod 2 ^ 32 → conv2 false (x / 65536) = conv2 false (y / 65536) ∧ conv2 false x = conv2 false y.
Proof.
  intros H. rewrite !mod_div_words in H. pose proof (Z.mod_pos_bound x 65536). pose proof (Z.mod_pos_bound y 65536).
  rewrite (conv2_mod false x), (conv2_mod false y), (conv2_mod false (x / 65536)), (conv2_mod false (y / 65536)).
  split; f_equal; lia.
Qed.

Lemma conv4_s32 norm x : conv4 norm (s32 x) mod 2 ^ 32 = conv4 norm x mod 2 ^ 32.
Proof.
  destruct norm; [apply s32_mod|]. rewrite !conv4_halves. destruct (conv2_high (s32 x) x (s32_mod x)) as [-> ->]. done.
Qed.

(** The bytes of a double word are swapped back. *)
Lemma conv4_back norm x y : y mod 2 ^ 32 = conv4 norm x mod 2 ^ 32 → s32 (conv4 norm y) = s32 x.
Proof.
  destruct norm; [apply s32_eq|]. rewrite !conv4_halves, s32_mod. intros H.
  destruct (conv2_high y _ H) as [H1 H2]. rewrite H1, H2. pose proof (conv2_word false x). pose proof (conv2_word false (x / 65536)).
  set (a := conv2 false x) in *. set (b := conv2 false (x / 65536)) in *.
  assert ((65536 * a + b) / 65536 = a) as -> by (symmetry; apply Z.div_unique with b; lia).
  rewrite (conv2_mod _ (_ + _)). assert ((65536 * a + b) mod 65536 = b) as -> by (symmetry; apply Z.mod_unique with a; lia).
  unfold a, b. rewrite !conv2_back. rewrite s32_id.
  - apply s32_eq. rewrite (mod_div_words x). rewrite Z.mod_small; [done|]. pose proof (Z.mod_pos_bound x 65536).
    pose proof (Z.mod_pos_bound (x / 65536) 65536). lia.
  - unfold s32. pose proof (Z.mod_pos_bound (65536 * ((x / 65536) mod 65536) + x mod 65536 + 2 ^ 31) (2 ^ 32)). lia.
Qed.

(** ** Words in a block *)
Lemma put8_eq d o v : put8 d o v o = v mod 256.
Proof. unfold put8. by rewrite Z.eqb_refl. Qed.
Lemma put8_other d o v i : i ≠ o → put8 d o v i = d i.
Proof. intros H. unfold put8. by rewrite (proj2 (Z.eqb_neq i o)). Qed.
Lemma get16_put16_mod d o w : get16 (put16 d o w) o = w mod 65536.
Proof.
  unfold get16, put16. rewrite put8_other, put8_eq, put8_eq by lia. change 65536 with (256 * 256).
  rewrite Z.rem_mul_r by lia. done.
Qed.
Lemma put32_other d o v i : i < o ∨ o + 3 < i → put32 d o v i = d i.
Proof. intros H. unfold put32. by rewrite !put16_other by lia. Qed.
Lemma get32_put32 d o v : get32 (put32 d o v) o = v mod 2 ^ 32.
Proof.
  unfold get32, put32. rewrite get16_put16_other, !get16_put16_mod by lia. rewrite mod_div_words. lia.
Qed.
Lemma get16_same x y o : x o = y o → x (o + 1) = y (o + 1) → get16 x o = get16 y o.
Proof. unfold get16. by intros -> ->. Qed.
Lemma get32_same x y o : (∀ i, o ≤ i ≤ o + 3 → x i = y i) → get32 x o = get32 y o.
Proof. intros H. unfold get32. rewrite (get16_same x y o), (get16_same x y (o + 2)) by (apply H; lia). done. Qed.

(** A field that was written, under fields that were written elsewhere. *)
Ltac field_of :=
  repeat first
    [ rewrite get16_put16_mod | rewrite get32_put32 | rewrite put8_eq
    | rewrite get16_put16_other by lia
    | match goal with
      | |- context [get16 (put32 ?d ?o ?v) ?p] => rewrite (get16_same (put32 d o v) d p) by (apply put32_other; lia)
      | |- context [get16 (put8 ?d ?o ?v) ?p] => rewrite (get16_same (put8 d o v) d p) by (apply put8_other; lia)
      | |- context [get32 (put16 ?d ?o ?v) ?p] => rewrite (get32_same (put16 d o v) d p) by (intros; apply put16_other; lia)
      | |- context [get32 (put32 ?d ?o ?v) ?p] => rewrite (get32_same (put32 d o v) d p) by (intros; apply put32_other; lia)
      | |- context [get32 (put8 ?d ?o ?v) ?p] => rewrite (get32_same (put8 d o v) d p) by (intros; apply put8_other; lia)
      | |- context [put8 ?d ?o ?v ?p] => rewrite (put8_other d o v p) by lia
      | |- context [put16 ?d ?o ?v ?p] => rewrite (put16_other d o v p) by lia
      | |- context [put32 ?d ?o ?v ?p] => rewrite (put32_other d o v p) by lia
      end ].

(** *** Zones *)
Lemma put_zones16_other norm d o l i : i < o ∨ o + 2 * Z.of_nat (length l) ≤ i → put_zones16 norm d o l i = d i.
Proof.
  revert d o. induction l as [|z l IH]; intros d o H; [done|]. cbn [put_zones16]. cbn [length] in H.
  rewrite IH by lia. apply put16_other; lia.
Qed.
Lemma put_zones32_other norm d o l i : i < o ∨ o + 4 * Z.of_nat (length l) ≤ i → put_zones32 norm d o l i = d i.
Proof.
  revert d o. induction l as [|z l IH]; intros d o H; [done|]. cbn [put_zones32]. cbn [length] in H.
  rewrite IH by lia. apply put32_other; lia.
Qed.
Lemma get_put_zones16 norm d o l k z : l !! k = Some z →
  get16 (put_zones16 norm d o l) (o + 2 * Z.of_nat k) = conv2 norm (s32 z).
Proof.
  revert d o k. induction l as [|y l IH]; intros d o k; [done|]. destruct k as [|k]; cbn [lookup list_lookup put_zones16].
  - intros [= ->]. rewrite Z.mul_0_r, Z.add_0_r. rewrite (get16_same _ (put16 d o (conv2 norm (s32 z)))) by (apply put_zones16_other; lia).
    rewrite get16_put16_mod. apply Z.mod_small, conv2_word.
  - intros Hk. rewrite <-(IH (put16 d o (conv2 norm (s32 y))) (o + 2) k Hk). f_equal. lia.
Qed.
Lemma get_put_zones32 norm d o l k z : l !! k = Some z →
  get32 (put_zones32 norm d o l) (o + 4 * Z.of_nat k) = conv4 norm (s32 z) mod 2 ^ 32.
Proof.
  revert d o k. induction l as [|y l IH]; intros d o k; [done|]. destruct k as [|k]; cbn [lookup list_lookup put_zones32].
  - intros [= ->]. rewrite Z.mul_0_r, Z.add_0_r. rewrite (get32_same _ (put32 d o (conv4 norm (s32 z)))); [apply get32_put32|].
    intros i Hi. apply put_zones32_other. lia.
  - intros Hk. rewrite <-(IH (put32 d o (conv4 norm (s32 y))) (o + 4) k Hk). f_equal. lia.
Qed.

Lemma map_zrange {A} (f : Z → A) (l : list A) :
  (∀ k x, l !! k = Some x → f (Z.of_nat k) = x) → map f (zrange 0 (Z.of_nat (length l))) = l.
Proof.
  intros H. apply list_eq. intros k. change (map f ?x) with (f <$> x). rewrite list_lookup_fmap.
  destruct (l !! k) as [x|] eqn:Hk.
  - pose proof (lookup_lt_Some _ _ _ Hk). assert (zrange 0 (Z.of_nat (length l)) !! k = Some (Z.of_nat k)) as ->.
    { apply zrange_lookup. lia. }
    cbn. f_equal. by apply H.
  - apply lookup_ge_None in Hk. rewrite lookup_ge_None_2; [done|]. rewrite zrange_length. lia.
Qed.

(** ** Fields *)
Lemma read_u16 norm w : 0 ≤ w < 65536 → u16 (conv2 norm (conv2 norm w mod 65536)) = w.
Proof. intros H. rewrite <-conv2_mod, conv2_back. unfold u16. change (2 ^ 16) with 65536. by rewrite Z.mod_mod, Z.mod_small. Qed.
Lemma read_s16 norm w : - 2 ^ 15 ≤ w < 2 ^ 15 → s16 (conv2 norm (conv2 norm w mod 65536)) = w.
Proof.
  intros H. rewrite <-conv2_mod, conv2_back. unfold s16. change (2 ^ 16) with 65536. rewrite Zplus_mod_idemp_l, Z.mod_small; lia.
Qed.
Lemma read_s8 norm w : - 2 ^ 7 ≤ w < 2 ^ 7 → s8 (conv2 norm (conv2 norm w mod 65536)) = w.
Proof.
  intros H. rewrite <-conv2_mod, conv2_back. unfold s8. rewrite <-Zplus_mod_idemp_l. change 65536 with (256 * 256).
  rewrite Z.rem_mul_r by lia. change (2 ^ 8) with 256. rewrite Z.mul_comm, Z.mod_add by lia. rewrite Z.mod_mod by lia.
  rewrite Zplus_mod_idemp_l, Z.mod_small; lia.
Qed.
Lemma read_s32 norm w : - 2 ^ 31 ≤ w < 2 ^ 31 → s32 (conv4 norm (s32 (conv4 norm w mod 2 ^ 32))) = w.
Proof. intros H. rewrite (conv4_back norm w); [by apply s32_id|]. by rewrite s32_mod, Z.mod_mod. Qed.
Lemma read_u32 norm w : 0 ≤ w < 2 ^ 32 → u32 (conv4 norm (s32 (conv4 norm (s32 w) mod 2 ^ 32))) = w.
Proof.
  intros H. rewrite <-(u32_id w H) at 2. unfold u32. rewrite <-(s32_mod (conv4 _ _)), (conv4_back norm (s32 w)).
  - by rewrite !s32_mod.
  - by rewrite s32_mod, Z.mod_mod.
Qed.

(** An in-core inode whose fields are in the range of their types. *)
Record inode_fits (r : inode) : Prop := {
  if_mode : 0 ≤ i_mode r < 65536;
  if_nlinks : - 2 ^ 15 ≤ i_nlinks r < 2 ^ 15;
  if_uid : - 2 ^ 15 ≤ i_uid r < 2 ^ 15;
  if_gid : - 2 ^ 7 ≤ i_gid r < 2 ^ 7;
  if_size : 0 ≤ i_size r < 2 ^ 32;
  if_atime : - 2 ^ 31 ≤ i_atime r < 2 ^ 31;
  if_mtime : - 2 ^ 31 ≤ i_mtime r < 2 ^ 31;
  if_ctime : - 2 ^ 31 ≤ i_ctime r < 2 ^ 31;
  if_zones : Forall (λ z, 0 ≤ z < 2 ^ 32) (i_zone r);
  if_length : Z.of_nat (length (i_zone r)) = V2_NR_TZONES }.

(** What fits the smaller fields of a V1 disk. *)
Definition fits_v1 (r : inode) : Prop :=
  0 ≤ i_nlinks r < 256 ∧ Forall (λ z, z < 65536) (take (Z.to_nat V1_NR_TZONES) (i_zone r)).

(** [r0] with the fields of [r] that a disk inode has. *)
Definition copied_v2 (block_size : Z) (r r0 : inode) : inode :=
  r0.[i_mode := i_mode r].[i_uid := i_uid r].[i_nlinks := i_nlinks r].[i_gid := i_gid r].[i_size := i_size r]
    .[i_atime := i_atime r].[i_ctime := i_ctime r].[i_mtime := i_mtime r]
    .[i_ndzones := V2_NR_DZONES].[i_nindirs := V2_INDIRECTS block_size].[i_zone := i_zone r].
Definition copied_v1 (r r0 : inode) : inode :=
  r0.[i_mode := i_mode r].[i_uid := i_uid r].[i_size := i_size r].[i_mtime := i_mtime r].[i_atime := i_mtime r]
    .[i_ctime := i_mtime r].[i_nlinks := i_nlinks r].[i_gid := i_gid r].[i_ndzones := V1_NR_DZONES].[i_nindirs := V1_INDIRECTS]
    .[i_zone := take (Z.to_nat V1_NR_TZONES) (i_zone r) ++ drop (Z.to_nat V1_NR_TZONES) (i_zone r0)].

Lemma new_icopy_back norm bs d o r r0 : inode_fits r →
  new_icopy_read norm bs (new_icopy_write norm d o r) o r0 = copied_v2 bs r r0.
Proof.
  intros [Hmode Hnl Huid Hgid Hsize Hat Hmt Hct Hz Hlen].
  assert (Hzones : map (get_zone32 norm (new_icopy_write norm d o r) (o + 24)) (zrange 0 V2_NR_TZONES) = i_zone r).
  { rewrite <-Hlen. apply map_zrange. intros k x Hk. unfold get_zone32, new_icopy_write. cbv zeta.
    rewrite take_ge by (change (Z.to_nat V2_NR_TZONES) with 10%nat; change V2_NR_TZONES with 10 in Hlen; lia).
    rewrite (get_put_zones32 _ _ _ _ _ x Hk). apply read_u32. by apply (proj1 (Forall_lookup _ _) Hz k). }
  unfold new_icopy_read. rewrite Hzones. unfold new_icopy_write. cbv zeta.
  match goal with |- context [put_zones32 norm ?x (o + 24) ?l] => set (d' := x); set (e := put_zones32 norm d' (o + 24) l) end.
  assert (Hbelow : ∀ i, i < o + 24 → e i = d' i) by (intros i Hi; apply put_zones32_other; lia).
  rewrite !(get16_same e d') by (apply Hbelow; lia). rewrite !(get32_same e d') by (intros; apply Hbelow; lia).
  unfold d'. field_of. rewrite read_u16, !read_s16, read_s8, read_u32, !read_s32 by done. done.
Qed.

Lemma old_icopy_back norm d o r r0 : inode_fits r → fits_v1 r →
  old_icopy_read norm (old_icopy_write norm d o r) o r0 = copied_v1 r r0.
Proof.
  intros [Hmode Hnl Huid Hgid Hsize Hat Hmt Hct Hz Hlen] [Hnl1 Hz1].
  change V2_NR_TZONES with 10 in Hlen. change (Z.to_nat V1_NR_TZONES) with 9%nat in *.
  assert (Hzones : map (get_zone16 norm (old_icopy_write norm d o r) (o + 14)) (zrange 0 V1_NR_TZONES) = take 9 (i_zone r)).
  { replace V1_NR_TZONES with (Z.of_nat (length (take 9 (i_zone r)))) by (rewrite length_take; change V1_NR_TZONES with 9; lia).
    apply map_zrange. intros k x Hk. unfold get_zone16, old_icopy_write. cbv zeta. rewrite (get_put_zones16 _ _ _ _ _ x Hk).
    rewrite conv2_back. pose proof (proj1 (Forall_lookup _ _) Hz1 k x Hk) as Hx. cbn in Hx.
    apply lookup_take_Some in Hk as [Hk _]. pose proof (proj1 (Forall_lookup _ _) Hz k x Hk) as Hx0. cbn in Hx0.
    unfold s32. rewrite (Z.mod_small (x + 2 ^ 31)) by lia. rewrite Z.mod_small by lia. unfold u32. rewrite Z.mod_small; lia. }
  unfold old_icopy_read. rewrite Hzones. unfold old_icopy_write. cbv zeta.
  match goal with |- context [put_zones16 norm ?x (o + 14) ?l] => set (d' := x); set (e := put_zones16 norm d' (o + 14) l) end.
  assert (Hbelow : ∀ i, i < o + 14 → e i = d' i) by (intros i Hi; apply put_zones16_other; lia).
  rewrite !(get16_same e d') by (apply Hbelow; lia). rewrite !(get32_same e d') by (intros; apply Hbelow; lia).
  rewrite !(Hbelow (o + 12)), !(Hbelow (o + 13)) by lia.
  unfold d'. field_of. rewrite read_u16, !read_s16, read_u32, !read_s32 by done.
  rewrite (Z.mod_small (i_nlinks r)) by done.
  assert (s8 (i_gid r mod 256) = i_gid r) as ->.
  { unfold s8. change (2 ^ 8) with 256. rewrite Zplus_mod_idemp_l, Z.mod_small; lia. }
  done.
Qed.

(** Nothing outside of the image is written. *)
Lemma new_icopy_frame norm d o r i : i < o ∨ o + V2_INODE_SIZE ≤ i → new_icopy_write norm d o r i = d i.
Proof.
  intros H. change V2_INODE_SIZE with 64 in H. unfold new_icopy_write. cbv zeta.
  rewrite put_zones32_other; [by field_of|]. rewrite length_take. change (Z.to_nat V2_NR_TZONES) with 10%nat. lia.
Qed.
Lemma old_icopy_frame norm d o r i : i < o ∨ o + V1_INODE_SIZE ≤ i → old_icopy_write norm d o r i = d i.
Proof.
  intros H. change V1_INODE_SIZE with 32 in H. unfold old_icopy_write. cbv zeta.
  rewrite put_zones16_other; [by field_of|]. rewrite length_take. change (Z.to_nat V1_NR_TZONES) with 9%nat. lia.
Qed.
