(* ===== verification/FsInodeThms.v ===== *)
(** * Inodes: theorems on [rw_inode]

    Where the inode table of a disk has an inode, and that an inode that is written to
    the disk through the block cache is read back as it was. *)
From stdpp Require Import base gmap list numbers strings.
From Stdlib Require Import ZArith Lia.
From S2P Require Import Prelude.
From S2P Require Import Chains.
From S2P Require Import KTypes.
From S2P Require Import FsTypes.
From S2P Require Import FsCache.
From S2P Require Import FsCacheInv.
From S2P Require Import FsHash.
From S2P Require Import FsIo.
From S2P Require Import FsGet.
From S2P Require Import FsPut.
From S2P Require Import FsStore.
From S2P Require Import FsProps.
From S2P Require Import FsMap.
From S2P Require Import FsBitsThms.
From S2P Require Import FsAlloc.
From S2P Require Import FsInode.
From S2P Require Import FsCopyThms.
From S2P Require Import FsMapThms.

(** ** The inode table of a disk *)
Definition inode_block (sp : super_block) (n : Z) : Z :=
  (n - 1) / s_inodes_per_block sp + (s_imap_blocks sp + s_zmap_blocks sp + 2).
Definition inode_offset (sp : super_block) (n : Z) : Z :=
  if s_version sp =? V1 then (n - 1) mod V1_INODES_PER_BLOCK * V1_INODE_SIZE
  else (n - 1) mod V2_INODES_PER_BLOCK (s_block_size sp) * V2_INODE_SIZE.
Definition write_image (sp : super_block) (d : Z → Z) (n : Z) (r : inode) : Z → Z :=
  if s_version sp =? V1 then old_icopy_write (s_native sp) d (inode_offset sp n) r
  else new_icopy_write (s_native sp) d (inode_offset sp n) r.
Definition read_image (sp : super_block) (d : Z → Z) (n : Z) (r : inode) : inode :=
  if s_version sp =? V1 then old_icopy_read (s_native sp) d (inode_offset sp n) r
  else new_icopy_read (s_native sp) (s_block_size sp) d (inode_offset sp n) r.

(** What a disk keeps of an inode, and what the rest comes from. *)
Definition copied (sp : super_block) (r r0 : inode) : inode :=
  if s_version sp =? V1 then copied_v1 r r0 else copied_v2 (s_block_size sp) r r0.
Definition fits (sp : super_block) (r : inode) : Prop := inode_fits r ∧ (s_version sp = V1 → fits_v1 r).

Lemma image_back sp d n r r0 : fits sp r → read_image sp (write_image sp d n r) n r0 = copied sp r r0.
Proof.
  intros [Hf Hv]. unfold read_image, write_image, copied. destruct (Z.eqb_spec (s_version sp) V1).
  - apply old_icopy_back; auto.
  - by apply new_icopy_back.
Qed.

(** ** Steps on the table in memory *)
Definition set_inode (f : Z) (r : inode) (s : fsstate) : fsstate := s.[inodes := <[f := r]> (inodes s)].

Lemma puti_eq s f r g : inodes s !! f = Some r → puti (Some f) g s = Ret tt (set_inode f (g r) s).
Proof. intros H. unfold puti. by rewrite H. Qed.
Lemma geti_eq s f r : inodes s !! f = Some r → geti (Some f) s = Ret r s.
Proof. intros H. unfold geti. by rewrite H. Qed.
Lemma set_inode_at f r s : inodes (set_inode f r s) !! f = Some r.
Proof. apply lookup_insert_eq. Qed.
Lemma set_inode_twice f r r' s : set_inode f r' (set_inode f r s) = set_inode f r' s.
Proof. unfold set_inode. change (inodes (s.[inodes := ?t])) with t. by rewrite insert_insert_eq. Qed.
Lemma set_inode_same f r s : inodes s !! f = Some r → set_inode f r s = s.
Proof. intros H. unfold set_inode. by rewrite insert_id. Qed.

(** Times are brought up to date. *)
Definition stamp (t : Z) (r : inode) : inode :=
  let u := i_update r in
  let r := if band u ATIME then r.[i_atime := t] else r in
  let r := if band u CTIME then r.[i_ctime := t] else r in
  let r := if band u MTIME then r.[i_mtime := t] else r in
  r.[i_update := 0].

Lemma update_times_eq s f r i sp :
  inodes s !! f = Some r → i_sp r = Some i → supers s !! i = Some sp → s_rd_only sp = false →
  update_times (Some f) s = Ret tt (set_inode f (stamp (now s) r) s).
Proof.
  intros Hf Hi Hs Hro. unfold update_times. rewrite (bind_Ret _ _ _ _ _ (geti_eq _ _ _ Hf)), Hi.
  rewrite (bind_Ret _ _ s sp s) by (unfold getsp; by rewrite Hs). rewrite Hro. rewrite (bind_Ret _ _ s s s) by done. cbv zeta. unfold stamp. cbv zeta.
  destruct (band (i_update r) ATIME), (band (i_update r) CTIME), (band (i_update r) MTIME); cbn [when];
    repeat (rewrite (bind_Ret _ _ _ _ _ (puti_eq _ _ _ _ Hf)) || rewrite (bind_Ret _ _ _ _ _ (puti_eq _ _ _ _ (set_inode_at _ _ _))) ||
            (unfold skip at 1; rewrite (bind_Ret (ret tt) _ _ tt _ eq_refl)));
    (rewrite (puti_eq _ _ _ _ Hf) || rewrite (puti_eq _ _ _ _ (set_inode_at _ _ _))); rewrite ?set_inode_twice; done.
Qed.

Section rw_inode.
Context (geom : Z → option geometry) (Hgeom : geom_ok geom).
Context (task_io : Z → dev_req → Z → disks → dev_reply) (Hworks : works geom task_io).

#[local] Abbreviation refines := (refines geom).

Lemma set_inode_refines f r s v : refines s v → refines (set_inode f r s) v.
Proof.
  intros [[He Hd Hch] Hv]. split; [split; [|done|by apply (chains_same s)]|done]. intros d g Hg. exact (He d g Hg).
Qed.
Lemma set_inode_super f r s dev i sp : super_at s dev i sp → super_at (set_inode f r s) dev i sp.
Proof. done. Qed.

(** Inode [n] has a place in the table of the disk. *)
Record inode_on (sp : super_block) (n : Z) : Prop := {
  io_num : 1 ≤ n < 2 ^ 32;
  io_within : within geom (s_dev sp) (inode_block sp n);
  io_size : ∃ g, geom (s_dev sp) = Some g ∧ g_size g = s_block_size sp;
  io_place : inode_offset sp n + (if s_version sp =? V1 then V1_INODE_SIZE else V2_INODE_SIZE) ≤ s_block_size sp ∧ 0 ≤ inode_offset sp n }.

Context (sp : super_block) (n : Z) (Hon : inode_on sp n).
#[local] Abbreviation dev := (s_dev sp).
#[local] Abbreviation blkno := (inode_block sp n).

Lemma inode_block_eq : u32 (u32 (n - 1) / s_inodes_per_block sp + (s_imap_blocks sp + s_zmap_blocks sp + 2)) = blkno.
Proof.
  destruct (io_num _ _ Hon). rewrite (u32_id (n - 1)) by lia. apply u32_id. destruct (io_within _ _ Hon) as (g & Hg & Hb).
  pose proof (go_size _ Hgeom _ _ Hg). unfold inode_block in *. nia.
Qed.
Lemma block_inside o : inside geom dev blkno o ↔ 0 ≤ o < s_block_size sp.
Proof.
  destruct (io_within _ _ Hon) as (g & Hg & Hb), (io_size _ _ Hon) as (g' & Hg' & Hs). assert (g' = g) as -> by congruence.
  split; [intros (g' & Hg'' & _ & Ho); assert (g' = g) as -> by congruence; lia|]. intros Ho. exists g. rewrite Hs. done.
Qed.

(** The images agree where the blocks do. *)
Lemma read_image_ext x y r : (∀ o, 0 ≤ o < s_block_size sp → x o = y o) → read_image sp x n r = read_image sp y n r.
Proof.
  intros Hxy. destruct (io_place _ _ Hon) as [H1 H2]. unfold read_image in *. destruct (s_version sp =? V1).
  - change V1_INODE_SIZE with 32 in H1. unfold old_icopy_read.
    rewrite (map_ext_in _ (get_zone16 (s_native sp) y (inode_offset sp n + 14))).
    { rewrite !(get16_same x y), !(get32_same x y), !Hxy by (intros; apply Hxy; lia) || lia. done. }
    intros k Hk%list_elem_of_In%elem_of_zrange. change V1_NR_TZONES with 9 in Hk. unfold get_zone16. rewrite (get16_same x y); [done|apply Hxy; lia..].
  - change V2_INODE_SIZE with 64 in H1. unfold new_icopy_read.
    rewrite (map_ext_in _ (get_zone32 (s_native sp) y (inode_offset sp n + 24))).
    { rewrite !(get16_same x y), !(get32_same x y) by (intros; apply Hxy; lia). done. }
    intros k Hk%list_elem_of_In%elem_of_zrange. change V2_NR_TZONES with 10 in Hk. unfold get_zone32. rewrite (get32_same x y); [done|intros; apply Hxy; lia].
Qed.

(** The inode as it is written: the super block found, the times up to date. *)
Definition written (s : fsstate) (i : Z) (r : inode) : inode :=
  let r := r.[i_sp := Some i] in if i_update r =? 0 then r else stamp (now s) r.

(** The part of [rw_inode] up to its buffer. *)
Ltac rw_start :=
  unfold rw_inode; apply twp_bind; eapply twp_intro; [by apply geti_eq|]; cbv beta;
  match goal with Hd : i_dev _ = _, Hn : i_num _ = _ |- _ => rewrite Hd, Hn end;
  apply twp_bind; eapply twp_intro; [by eapply get_super_eq|]; cbv beta;
  apply twp_bind; eapply twp_intro; [match goal with Hi : supers _ !! _ = Some _ |- _ => unfold getsp; by rewrite Hi end|]; cbv beta;
  apply twp_bind; eapply twp_intro; [by apply puti_eq|]; cbv beta zeta; rewrite inode_block_eq;
  apply twp_bind.

(** From [put_block] on. *)
Lemma rw_finish s0 s1 s2 v f b x r1 :
  refines s0 v → used s0 s1 b → same_counts s1 s2 → ∀ v', refines s2 v' → holds s2 b dev blkno x → inodes s2 !! f = Some r1 →
  twp (put_block task_io (Some b) INODE_BLOCK;;; puti (Some f) (λ r, r.[i_dirt := CLEAN]))
    (λ _ s', refines s' v' ∧ same_counts s0 s' ∧ rest s' = rest (set_inode f (r1.[i_dirt := CLEAN]) s2)) s2.
Proof.
  intros Hr0 [_ Hused] Hcnt v' Hr2 Hh Hf. apply twp_bind.
  eapply twp_mono; [by apply (put_refines geom task_io Hgeom Hworks s2 v' b dev blkno x)|]. intros [] s3 [Hr3 Hrel].
  pose proof (proj1 Hrel) as Hrest. pose proof (f_equal inodes Hrest) as Hino. cbn in Hino.
  eapply twp_intro; [apply puti_eq; by rewrite Hino|]. split; [by apply set_inode_refines|]. split.
  - intros c. etransitivity; [apply (released_counts s2 s3 b Hrel)|].
    + destruct Hh as (rb & Hb & _). by eexists.
    + apply (do_all _ _ _ _ (co_data _ _ _ (proj1 Hr2))).
    + apply (do_all _ _ _ _ (co_data _ _ _ (proj1 Hr3))).
    + rewrite Hcnt, Hused. case_decide; lia.
  - apply (f_equal (λ t, t.[inodes := <[f := r1.[i_dirt := CLEAN]]> (inodes s2)])) in Hrest.
    unfold set_inode. by rewrite Hino.
Qed.

Lemma rw_read_spec s v f r i :
  super_at s dev i sp → inodes s !! f = Some r → i_dev r = dev → i_num r = n → refines s v → ready s →
  twp (rw_inode task_io (Some f) READING) (λ _ s', refines s' v ∧ same_counts s s' ∧
    rest s' = rest (set_inode f ((read_image sp (v dev blkno) n (r.[i_sp := Some i])).[i_dirt := CLEAN]) s)) s.
Proof.
  intros Hsp Hf Hd Hn Hr Hready. pose proof Hsp as (_ & _ & Hi & _). rw_start.
  set (s0 := set_inode f (r.[i_sp := Some i]) s).
  assert (Hr0 : refines s0 v) by by apply set_inode_refines.
  eapply twp_mono; [by apply (get_refines geom task_io Hgeom Hworks s0 v _ _ Hr0 Hready), Hon|].
  intros p s1 (b & x & -> & Hr1 & Hh & Hx & Hused). pose proof Hh as (rb & Hb & _ & _ & _ & Hdata).
  change (READING =? WRITING) with false. cbn [when]. apply twp_bind, twp_skip. apply twp_bind.
  eapply twp_intro; [unfold getb; by rewrite Hb|]. cbv beta. change (READING =? READING) with true. cbv iota.
  assert (Hf1 : inodes s1 !! f = Some (r.[i_sp := Some i])).
  { pose proof (f_equal inodes (proj1 (proj1 Hused))) as H1. cbn in H1. rewrite H1. apply set_inode_at. }
  apply twp_bind. eapply twp_intro with (s' := set_inode f (read_image sp x n (r.[i_sp := Some i])) s1).
  { unfold read_image, inode_offset. rewrite <-Hdata. destruct (io_num _ _ Hon). rewrite (u32_id (n - 1)) by lia.
    destruct (s_version sp =? V1); by rewrite (puti_eq _ _ _ _ Hf1). }
  set (s2 := set_inode f _ s1). assert (Hh2 : holds s2 b dev blkno x) by done.
  assert (Hi2 : inodes s2 !! f = Some (read_image sp x n (r.[i_sp := Some i]))) by apply set_inode_at.
  eapply twp_mono; [eapply (rw_finish s0 s1 s2 v f b x _ Hr0 Hused); [done|by apply set_inode_refines|exact Hh2|exact Hi2]|]. intros [] s3 (Hr3 & Hcnt & Hrest).
  split; [done|]. split; [done|]. rewrite Hrest. unfold s2. rewrite set_inode_twice.
  rewrite (read_image_ext x (v dev blkno)) by (intros o Ho; apply Hx; by apply block_inside).
  pose proof (proj1 (proj1 Hused)) as Hrest1. apply (f_equal (set_inode f ((read_image sp (v dev blkno) n (r.[i_sp := Some i])).[i_dirt := CLEAN]))) in Hrest1.
  etransitivity; [exact Hrest1|]. unfold s0. change (rest (set_inode f ?a s)) with (set_inode f a (rest s)). by rewrite set_inode_twice.
Qed.


Lemma putb_eq s b r g : bufs s !! b = Some r → putb (Some b) g s = Ret tt (s.[bufs := <[b := g r]> (bufs s)]).
Proof. intros H. unfold putb. by rewrite H. Qed.

(** The buffer is marked dirty ... *)
Lemma mark_step s v b x :
  refines s v → holds s b dev blkno x → (∀ o, inside geom dev blkno o → x o = v dev blkno o) →
  ∃ s', putb (Some b) (λ r, r.[b_dirt := DIRTY]) s = Ret tt s' ∧ refines s' v ∧ holds s' b dev blkno x ∧ rest s' = rest s ∧
    same_counts s s' ∧ ∃ r, bufs s' !! b = Some r ∧ b_dirt r = DIRTY ∧ b_data r = x.
Proof.
  intros Hr Hh Hx. pose proof Hh as (rb & Hb & Hd & Hn & Hp & Hdata).
  assert (H : twp (putb (Some b) (λ r, r.[b_dirt := DIRTY])) (λ _ s', refines s' (update v dev blkno x) ∧ holds s' b dev blkno x ∧
    rest s' = rest s ∧ same_counts s s' ∧ ∀ c, c ≠ b → bufs s' !! c = bufs s !! c) s).
  { apply (write_step geom task_io Hgeom Hworks s v b _ _ x x); [done|done|by apply Hon|]. intros r Hbr.
    assert (r = rb) as -> by congruence. by rewrite <-Hdata. }
  apply (twp_Ret _ _ _ _ _ (putb_eq s b rb _ Hb)) in H as ([Hok Hv] & Hh' & Hrest & Hcnt & _).
  eexists. split; [by apply putb_eq|]. split; [split; [done|]|].
  - intros dev' n' o Hin. rewrite Hv by done. unfold update. case_decide as Hc; [|done]. destruct Hc as [-> ->]. by apply Hx.
  - do 3 (split; [done|]). exists (rb.[b_dirt := DIRTY]). split; [apply lookup_insert_eq|]. done.
Qed.

(** ... and the image is stored into it. *)
Lemma store_step s v b x y g :
  refines s v → holds s b dev blkno x → (∃ r, bufs s !! b = Some r ∧ b_dirt r = DIRTY ∧ b_data r = x) → (∀ r, b_data r = x → g r = r.[b_data := y]) →
  twp (putb (Some b) g) (λ _ s', refines s' (update v dev blkno y) ∧ holds s' b dev blkno y ∧
    rest s' = rest s ∧ same_counts s s' ∧ ∀ c, c ≠ b → bufs s' !! c = bufs s !! c) s.
Proof.
  intros Hr Hh (r & Hb & Hdi & Hda) Hg. apply (write_step geom task_io Hgeom Hworks s v b _ _ x y); [done|done|by apply Hon|].
  intros r' Hb'. assert (r' = r) as -> by congruence. rewrite Hg by done. by rewrite <-Hdi.
Qed.

Lemma rw_write_spec s v f r i :
  super_at s dev i sp → s_rd_only sp = false → inodes s !! f = Some r → i_dev r = dev → i_num r = n → refines s v → ready s →
  twp (rw_inode task_io (Some f) WRITING) (λ _ s', ∃ x, (∀ o, inside geom dev blkno o → x o = v dev blkno o) ∧
    refines s' (update v dev blkno (write_image sp x n (written s i r))) ∧ same_counts s s' ∧
    rest s' = rest (set_inode f ((written s i r).[i_dirt := CLEAN]) s)) s.
Proof.
  intros Hsp Hro Hf Hd Hn Hr Hready. pose proof Hsp as (_ & _ & Hi & _). rw_start.
  set (s0 := set_inode f (r.[i_sp := Some i]) s).
  assert (Hr0 : refines s0 v) by by apply set_inode_refines.
  eapply twp_mono; [by apply (get_refines geom task_io Hgeom Hworks s0 v _ _ Hr0 Hready), Hon|].
  intros p s1 (b & x & -> & Hr1 & Hh & Hx & Hused).
  assert (Hrest1 : rest s1 = rest s0) by apply Hused.
  assert (Hf1 : inodes s1 !! f = Some (r.[i_sp := Some i])).
  { pose proof (f_equal inodes Hrest1) as H1. cbn in H1. rewrite H1. apply set_inode_at. }
  change (WRITING =? WRITING) with true. cbn [when]. apply twp_bind, twp_bind.
  set (r1 := written s i r). set (s2 := set_inode f r1 s1).
  eapply twp_intro with (a := tt) (s' := s2).
  { unfold s2, r1, written. cbv zeta. change (i_update (r.[i_sp := Some i])) with (i_update r).
    destruct (i_update r =? 0); cbn [negb when]; [unfold skip, ret; f_equal; by rewrite set_inode_same|].
    assert (Hsp1 : super_at s1 dev i sp) by by apply (super_rest s0).
    rewrite (update_times_eq s1 f _ i sp Hf1 eq_refl) by (done || apply Hsp1).
    pose proof (f_equal now Hrest1) as Hnow. cbn in Hnow. by rewrite Hnow. }
  cbv beta. rewrite Hro. cbn [negb when].
  destruct (mark_step s2 v b x (set_inode_refines _ _ _ _ Hr1) Hh Hx) as (s3 & Hmark & Hr3 & Hh3 & Hrest3 & Hcnt3 & rb & Hb3 & Hdi3 & Hda3).
  eapply twp_intro; [exact Hmark|]. cbv beta. apply twp_bind. eapply twp_intro; [unfold getb; by rewrite Hb3|]. cbv beta.
  change (WRITING =? READING) with false. cbv iota.
  assert (Hf3 : inodes s3 !! f = Some r1).
  { pose proof (f_equal inodes Hrest3) as H1. cbn in H1. rewrite H1. apply set_inode_at. }
  apply twp_bind. set (y := write_image sp x n r1).
  eapply twp_mono with (Q := λ _ s', refines s' (update v dev blkno y) ∧ holds s' b dev blkno y ∧ rest s' = rest s3 ∧ same_counts s3 s').
  { destruct (io_num _ _ Hon). rewrite (u32_id (n - 1)) by lia.
    destruct (s_version sp =? V1) eqn:Hver.
    all: apply twp_bind; eapply twp_intro; [by apply geti_eq|].
    all: eapply twp_mono; [apply store_step with (x := x) (y := y); [done|done|by exists rb|]|intros ? ? (?&?&?&?&_); cbv beta; split_and!; assumption].
    all: intros rb' Hx'; unfold y, write_image, inode_offset; rewrite Hver, <-Hx'; done. }
  intros [] s4 (Hr4 & Hh4 & Hrest4 & Hcnt4).
  assert (Hf4 : inodes s4 !! f = Some r1).
  { pose proof (f_equal inodes Hrest4) as H1. cbn in H1. by rewrite H1. }
  eapply twp_mono; [eapply (rw_finish s0 s1 s4 v f b y r1 Hr0 Hused); [|exact Hr4|exact Hh4|exact Hf4]|].
  { intros c. rewrite Hcnt4, Hcnt3. done. }
  intros [] s5 (Hr5 & Hcnt5 & Hrest5). exists x. split; [done|]. split; [done|]. split; [done|]. rewrite Hrest5.
  change (rest (set_inode f ?a ?t)) with (set_inode f a (rest t)). rewrite Hrest4, Hrest3. unfold s2.
  change (rest (set_inode f ?a ?t)) with (set_inode f a (rest t)). rewrite Hrest1, set_inode_twice. unfold s0.
  change (rest (set_inode f ?a ?t)) with (set_inode f a (rest t)). by rewrite set_inode_twice.
Qed.
End rw_inode.

(** ** The property *)

(** Byte [o] of block [m] is part of the image of inode [n]. *)
Definition in_image (sp : super_block) (n dev m o : Z) : Prop :=
  dev = s_dev sp ∧ m = inode_block sp n ∧
  inode_offset sp n ≤ o < inode_offset sp n + (if s_version sp =? V1 then V1_INODE_SIZE else V2_INODE_SIZE).

Lemma image_frame sp d n r o : ¬ (inode_offset sp n ≤ o < inode_offset sp n + (if s_version sp =? V1 then V1_INODE_SIZE else V2_INODE_SIZE)) →
  write_image sp d n r o = d o.
Proof.
  unfold write_image, inode_offset. destruct (s_version sp =? V1); intros H; [apply old_icopy_frame|apply new_icopy_frame]; lia.
Qed.

(** C35. An inode that [rw_inode] writes, on a V1, V2 or V3 file system in either byte order,
    is read back with the fields a disk inode has, its times brought up to date; of all that
    disk and cache hold only the bytes of its own image change, and no other inode in
    memory does. *)
Theorem rw_inode_roundtrip geom task_io s v i sp f r :
  geom_ok geom → works geom task_io → inode_on geom sp (i_num r) → super_at s (s_dev sp) i sp → s_rd_only sp = false →
  inodes s !! f = Some r → i_dev r = s_dev sp → refines geom s v → ready s → fits sp (written s i r) →
  ∃ s1 v1, rw_inode task_io (Some f) WRITING s = Ret tt s1 ∧ refines geom s1 v1 ∧ same_counts s s1 ∧
    inodes s1 = <[f := (written s i r).[i_dirt := CLEAN]]> (inodes s) ∧
    (∀ dev m o, inside geom dev m o → ¬ in_image sp (i_num r) dev m o → v1 dev m o = v dev m o) ∧
    ∀ g r0, inodes s1 !! g = Some r0 → i_dev r0 = s_dev sp → i_num r0 = i_num r →
      ∃ s2, rw_inode task_io (Some g) READING s1 = Ret tt s2 ∧ refines geom s2 v1 ∧
        inodes s2 = <[g := (copied sp (written s i r) (r0.[i_sp := Some i])).[i_dirt := CLEAN]]> (inodes s1).
Proof.
  intros Hg Hw Hon Hsp Hro Hf Hd Hr Hready Hfits.
  destruct (twp_inv _ _ _ (rw_write_spec geom Hg task_io Hw sp _ Hon s v f r i Hsp Hro Hf Hd eq_refl Hr Hready))
    as ([] & s1 & Hrun & x & Hx & Hr1 & Hcnt & Hrest).
  pose proof (f_equal inodes Hrest) as Hino. cbn in Hino.
  eexists s1, _. split; [exact Hrun|]. split; [exact Hr1|]. split; [done|]. split; [done|]. split.
  - intros dev m o Hin Hno. unfold update. case_decide as Hc; [|done]. destruct Hc as [-> ->].
    rewrite image_frame; [by apply Hx|]. intros Ho. by apply Hno.
  - intros g r0 Hg0 Hd0 Hn0. assert (Hsp1 : super_at s1 (s_dev sp) i sp) by by apply (super_rest (set_inode f ((written s i r).[i_dirt := CLEAN]) s)).
    destruct (twp_inv _ _ _ (rw_read_spec geom Hg task_io Hw sp _ Hon s1 _ g r0 i Hsp1 Hg0 Hd0 Hn0 Hr1 (ready_same _ _ Hcnt Hready)))
      as ([] & s2 & Hrun2 & Hr2 & _ & Hrest2).
    exists s2. split; [done|]. split; [done|]. pose proof (f_equal inodes Hrest2) as Hino2. cbn in Hino2. rewrite Hino2.
    rewrite (read_image_ext geom sp _ Hon _ (write_image sp x (i_num r) (written s i r))); [by rewrite image_back|].
    intros o _. unfold update. by rewrite decide_True.
Qed.

Lemma rw_inode_roundtrip_witness : ∃ s1 s2,
  rw_inode demo_io (Some 3) WRITING demo_open = Ret tt s1 ∧ rw_inode demo_io (Some 3) READING s1 = Ret tt s2 ∧
  inodes s2 !! 3 = Some demo_file.
Proof.
  destruct (rw_inode_roundtrip demo_geom demo_io demo_open demo_view 0 demo_sp 3 demo_file demo_geom_ok (demo_works _))
    as (s1 & v1 & Hrun & _ & _ & Hino & _ & Hback).
  - split; [done|by exists (Geometry 5 1024 64)|by exists (Geometry 5 1024 64)|done].
  - exact demo_super.
  - done.
  - done.
  - done.
  - exact demo_open_refines.
  - exact demo_ready.
  - split; [split|]; try done. by repeat constructor.
  - destruct (Hback 3 demo_file) as (s2 & Hrun2 & _ & Hino2); [rewrite Hino; exact (lookup_insert_eq _ _ _)|reflexivity|reflexivity|].
    exists s1, s2. split; [exact Hrun|]. split; [exact Hrun2|]. rewrite Hino2. exact (lookup_insert_eq _ _ _).
Defined.
