(* ===== verification/FsTable.v ===== *)
(** * The table of inodes: theorems on [get_inode] and [put_inode]

    Which inode is in which slot, and how many references it has ([place]), is changed
    by [get_inode], [put_inode], [dup_inode] and [alloc_inode] alone: everything below
    them keeps it ([same_places]). *)
From stdpp Require Import base gmap list numbers strings.
From Stdlib Require Import ZArith Lia.
From S2P Require Import Prelude.
From S2P Require Import KTypes.
From S2P Require Import KProc.
From S2P Require Import FsTypes.
From S2P Require Import FsCache.
From S2P Require Import FsMap.
From S2P Require Import FsInode.
From S2P Require Import FsProps.

Definition place (r : inode) : Z * Z * Z := (i_dev r, i_num r, i_count r).
(** What the calls on descriptors and locks change besides: the counts of the slots of
    [filp], the descriptors of the processes, the table of locks, and the caller. *)
Definition fd_row (r : fproc) : Z * Z * list (option Z) := (fp_pid r, fp_endpoint r, fp_filp r).
Definition fd_view (s : fsstate) := (filp_count <$> filps s, fd_row <$> fprocs s, fp s, (file_locks s, nr_locks s), m_in s).

(** A relation that holds when neither changes: the functions below the calls keep it. *)
Class Frame (R : fsstate → fsstate → Prop) := {
  frame_preorder :: PreOrder R;
  frame_sub s s' : place <$> inodes s' = place <$> inodes s → fd_view s' = fd_view s → R s s' }.

Definition same_places (s s' : fsstate) : Prop := place <$> inodes s' = place <$> inodes s.
#[export] Instance same_places_frame : Frame same_places.
Proof.
  split; [split; [done|]|done]. intros s s' s'' H1 H2. unfold same_places in *. congruence.
Qed.

Section frame.
Context (R : fsstate → fsstate → Prop) `{!Frame R}.

Lemma frame_modify f : (∀ s, inodes (f s) = inodes s) → (∀ s, fd_view (f s) = fd_view s) → pres R (modify f).
Proof. intros H H'. apply pres_modify. intros s. apply frame_sub; [by rewrite H|done]. Qed.
Lemma frame_puti p g : (∀ r, place (g r) = place r) → pres R (puti p g).
Proof.
  intros Hg s a s'. unfold puti. destruct p as [f|]; [|done]. destruct (inodes s !! f) as [r|] eqn:Hf; [|done].
  intros [= <- <-]. apply frame_sub; [|done]. change (inodes (s.[inodes := ?t])) with t. rewrite fmap_insert, Hg.
  apply insert_id. by rewrite lookup_fmap, Hf.
Qed.
Lemma frame_putfp p g : (∀ r, fd_row (g r) = fd_row r) → pres R (putfp p g).
Proof.
  intros Hg s a s'. unfold putfp. destruct (fprocs s !! p) as [r|] eqn:Hf; [|done].
  intros [= <- <-]. apply frame_sub; [done|]. unfold fd_view. change (fprocs (s.[fprocs := ?t])) with t.
  rewrite fmap_insert, Hg. repeat f_equal. apply insert_id. by rewrite lookup_fmap, Hf.
Qed.
Lemma frame_get {A} (m : fsstate → option A) : pres R (λ s, match m s with Some r => Ret r s | None => Crash end).
Proof. intros s a s'. cbv beta. destruct (m s); [|done]. intros [= _ <-]. reflexivity. Qed.

(** The accessors of the other tables. *)
Lemma frame_getb p : pres R (getb p).
Proof. destruct p as [b|]; [apply (frame_get (λ s, bufs s !! b))|by intros ???]. Qed.
Lemma frame_getsp p : pres R (getsp p).
Proof. destruct p as [b|]; [apply (frame_get (λ s, supers s !! b))|by intros ???]. Qed.
Lemma frame_geti p : pres R (geti p).
Proof. destruct p as [b|]; [apply (frame_get (λ s, inodes s !! b))|by intros ???]. Qed.
Lemma frame_getf p : pres R (getf p).
Proof. destruct p as [b|]; [apply (frame_get (λ s, filps s !! b))|by intros ???]. Qed.
Lemma frame_getfp p : pres R (getfp p).
Proof. apply (frame_get (λ s, fprocs s !! p)). Qed.
Lemma frame_putb p g : pres R (putb p g).
Proof. intros s a s'. unfold putb. destruct p as [b|]; [|done]. destruct (bufs s !! b); [|done]. intros [= _ <-]. by apply frame_sub. Qed.
Lemma frame_putsp p g : pres R (putsp p g).
Proof. intros s a s'. unfold putsp. destruct p as [b|]; [|done]. destruct (supers s !! b); [|done]. intros [= _ <-]. by apply frame_sub. Qed.
End frame.

#[export] Hint Resolve frame_getb frame_getsp frame_geti frame_getf frame_getfp frame_putb frame_putsp same_places_frame : pres.
#[export] Hint Extern 1 (pres _ (modify _)) => (apply frame_modify; [typeclasses eauto|reflexivity|reflexivity]) : pres.
#[export] Hint Extern 1 (pres _ (puti _ _)) => (apply frame_puti; [typeclasses eauto|reflexivity]) : pres.
#[export] Hint Extern 1 (pres _ (putfp _ _)) => (apply frame_putfp; [typeclasses eauto|reflexivity]) : pres.

#[export] Hint Extern 0 (Frame _) => typeclasses eauto : core.

Ltac frame := intros; presto.

Section below.
Context (R : fsstate → fsstate → Prop) `{!Frame R} (task_io : Z → dev_req → Z → disks → dev_reply).

Lemma frame_set_err e : pres R (set_err e).
Proof. unfold set_err. frame. Qed.
Lemma frame_panic {A} : pres R (@FsTypes.panic A).
Proof. apply pres_crash. Qed.
Hint Resolve frame_set_err : pres.
Hint Extern 0 (pres R panic) => (intros ???; discriminate) : pres.
Lemma frame_get_super dev : pres R (get_super dev).
Proof. unfold get_super. frame. Qed.
Lemma frame_get_block_size dev : pres R (get_block_size dev).
Proof. unfold get_block_size. frame. Qed.
Lemma frame_suspend t : pres R (suspend t).
Proof. unfold suspend. frame. Qed.
Lemma frame_isokendpt e : pres R (fs_isokendpt e).
Proof. unfold fs_isokendpt. frame. Qed.
Lemma frame_call_task drv req : pres R (call_task task_io drv req).
Proof. unfold call_task, dmap_unmap_by_endpt. frame. Qed.
Hint Resolve frame_get_super frame_get_block_size frame_suspend frame_isokendpt frame_call_task : pres.
Lemma frame_dev_io op dev e iov pos n fl : pres R (dev_io task_io op dev e iov pos n fl).
Proof. unfold dev_io. frame. Qed.
Hint Resolve frame_dev_io : pres.
Lemma frame_rm_lru p : pres R (rm_lru p).
Proof. unfold rm_lru, set_front, set_rear. frame. Qed.
Lemma frame_push_front p : pres R (push_front p).
Proof. unfold push_front, set_front, set_rear. frame. Qed.
Lemma frame_push_rear p : pres R (push_rear p).
Proof. unfold push_rear, set_front, set_rear. frame. Qed.
Lemma frame_rw_block p rw : pres R (rw_block task_io p rw).
Proof. unfold rw_block. frame. Qed.
Hint Resolve frame_rm_lru frame_push_front frame_push_rear frame_rw_block : pres.
Lemma frame_put_block p t : pres R (put_block task_io p t).
Proof. unfold put_block. frame. Qed.
Hint Resolve frame_put_block : pres.
Lemma frame_harvest dev rw r i q iov : pres R (harvest task_io dev rw r i q iov).
Proof. revert i iov. induction q as [|b q IH]; intros i [|[n x] iov]; cbn [harvest]; frame. Qed.
Lemma frame_fill q iov : pres R (FsCache.fill q iov).
Proof. revert iov. induction q as [|b q IH]; intros [|[n x] iov]; cbn [FsCache.fill]; frame. Qed.
Hint Resolve frame_harvest frame_fill : pres.
Lemma frame_rw_scattered dev q rw : pres R (rw_scattered task_io dev q rw).
Proof. unfold rw_scattered, transfer. frame. Qed.
Hint Resolve frame_rw_scattered : pres.
Lemma frame_flushall dev : pres R (flushall task_io dev).
Proof. unfold flushall. frame. Qed.
Lemma frame_search dev n : pres R (search_block dev n).
Proof. unfold search_block, search_scan. frame. Qed.
Lemma frame_unhash p : pres R (unhash p).
Proof. unfold unhash, unhash_scan, set_hash. frame. Qed.
Lemma frame_rename p dev n : pres R (rename p dev n).
Proof. unfold rename, set_hash. frame. Qed.
Hint Resolve frame_flushall frame_search frame_unhash frame_rename : pres.
Lemma frame_get_block dev n m : pres R (get_block task_io dev n m).
Proof. unfold get_block. frame. Qed.
Hint Resolve frame_get_block : pres.
Lemma frame_zero_block p : pres R (zero_block p).
Proof. unfold zero_block. frame. Qed.
Hint Resolve frame_zero_block : pres.

(** Allocation and the blocks of files. *)
Lemma frame_alloc_bit p map o : pres R (alloc_bit task_io p map o).
Proof. unfold alloc_bit, scan_block, scan_word. frame. Qed.
Lemma frame_free_bit p map b : pres R (free_bit task_io p map b).
Proof. unfold free_bit. frame. Qed.
Hint Resolve frame_alloc_bit frame_free_bit : pres.
Lemma frame_alloc_zone dev z : pres R (alloc_zone task_io dev z).
Proof. unfold alloc_zone. frame. Qed.
Lemma frame_free_zone dev z : pres R (free_zone task_io dev z).
Proof. unfold free_zone. frame. Qed.
Lemma frame_get_zone p k : pres R (get_zone p k).
Proof. unfold get_zone. frame. Qed.
Lemma frame_set_zone p k z : pres R (set_zone p k z).
Proof. unfold set_zone. frame. Qed.
Lemma frame_rd_indir p k : pres R (rd_indir p k).
Proof. unfold rd_indir. frame. Qed.
Lemma frame_wr_indir p k z : pres R (wr_indir p k z).
Proof. unfold wr_indir. frame. Qed.
Lemma frame_empty_indir p sb : pres R (empty_indir p sb).
Proof. unfold empty_indir. frame. Qed.
Hint Resolve frame_alloc_zone frame_free_zone frame_get_zone frame_set_zone frame_rd_indir frame_wr_indir frame_empty_indir : pres.
Lemma frame_read_map p pos : pres R (read_map task_io p pos).
Proof. unfold read_map, look_indir. frame. Qed.
Lemma frame_write_direct p k z op : pres R (write_direct task_io p k z op).
Proof. unfold write_direct. frame. Qed.
Lemma frame_write_entry p sc si zs bp ie z1 ex z op ni : pres R (write_entry task_io p sc si zs bp ie z1 ex z op ni).
Proof. unfold write_entry. frame. Qed.
Hint Resolve frame_read_map frame_write_direct frame_write_entry : pres.
Lemma frame_write_single p sc si zs bp ie z1 z2 ex z op : pres R (write_single task_io p sc si zs bp ie z1 z2 ex z op).
Proof. unfold write_single. frame. Qed.
Hint Resolve frame_write_single : pres.
Lemma frame_write_double p sc zs ni ex z op : pres R (write_double task_io p sc zs ni ex z op).
Proof. unfold write_double. frame. Qed.
Hint Resolve frame_write_double : pres.
Lemma frame_write_map p pos z op : pres R (write_map task_io p pos z op).
Proof. unfold write_map. frame. Qed.
Hint Resolve frame_write_map : pres.

(** Inodes. *)
Lemma frame_update_times p : pres R (update_times p).
Proof. unfold update_times. frame. Qed.
Lemma frame_wipe p : pres R (wipe_inode p).
Proof. unfold wipe_inode. frame. Qed.
Hint Resolve frame_update_times frame_wipe : pres.
Lemma frame_rw_inode p rw : pres R (rw_inode task_io p rw).
Proof. unfold rw_inode. frame. Qed.
Lemma frame_free_inode dev n : pres R (free_inode task_io dev n).
Proof. unfold free_inode. frame. Qed.
Lemma frame_zeroblock_range p pos n : pres R (zeroblock_range task_io p pos n).
Proof. unfold zeroblock_range. frame. Qed.
Hint Resolve frame_rw_inode frame_free_inode frame_zeroblock_range : pres.
Lemma frame_freesp p a b : pres R (freesp_inode task_io p a b).
Proof. unfold freesp_inode, zeroblock_half. frame. Qed.
Hint Resolve frame_freesp : pres.
Lemma frame_truncate p n : pres R (truncate_inode task_io p n).
Proof. unfold truncate_inode. frame. Qed.
Hint Resolve frame_truncate : pres.
End below.

(** ** References *)

(** A step without a result, and the end. *)
Lemma unit_inv {S B} (m : M S unit) (k : unit → M S B) s b s2 :
  bind m k s = Ret b s2 → ∃ s1, m s = Ret tt s1 ∧ k tt s1 = Ret b s2.
Proof. intros ([] & s1 & H)%bind_inv. by exists s1. Qed.
Lemma ret_inv {S A} (a b : A) (s s' : S) : ret a s = Ret b s' → a = b ∧ s = s'.
Proof. by intros [= <- <-]. Qed.
#[export] Hint Resolve frame_alloc_bit frame_alloc_zone frame_call_task frame_dev_io frame_empty_indir frame_fill
  frame_flushall frame_free_bit frame_free_inode frame_free_zone frame_freesp frame_get_block frame_get_block_size
  frame_get_super frame_get_zone frame_harvest frame_isokendpt frame_push_front frame_push_rear frame_put_block
  frame_rd_indir frame_read_map frame_rename frame_rm_lru frame_rw_block frame_rw_inode frame_rw_scattered frame_search
  frame_set_err frame_set_zone frame_suspend frame_truncate frame_unhash frame_update_times frame_wipe frame_wr_indir
  frame_write_direct frame_write_double frame_write_entry frame_write_map frame_write_single frame_zero_block
  frame_zeroblock_range : pres.
#[export] Hint Extern 0 (pres _ panic) => (intros ???; discriminate) : pres.

#[local] Abbreviation table s := (place <$> inodes s).

Lemma table_at s f r : inodes s !! f = Some r → table s !! f = Some (place r).
Proof. intros H. by rewrite lookup_fmap, H. Qed.
Lemma table_inv s f p : table s !! f = Some p → ∃ r, inodes s !! f = Some r ∧ place r = p.
Proof. rewrite lookup_fmap, fmap_Some. intros (r & Hr & ->). by exists r. Qed.
Lemma table_puti f g s s' : puti (Some f) g s = Ret tt s' →
  ∃ r, inodes s !! f = Some r ∧ inodes s' = <[f := g r]> (inodes s) ∧ table s' = <[f := place (g r)]> (table s).
Proof.
  unfold puti. destruct (inodes s !! f) as [r|]; [|done]. intros [= <-]. exists r. split; [done|].
  change (inodes (s.[inodes := ?t])) with t. split; [done|]. by rewrite fmap_insert.
Qed.

(** Slot [f] is in use for inode [n] of [dev]. *)
Definition in_use (s : fsstate) (dev n f : Z) : Prop := ∃ c, table s !! f = Some (dev, n, c) ∧ 0 < c.

Lemma in_use_slot (s : fsstate) dev n : (∀ f, is_Some (inodes s !! f) → 0 ≤ f < NR_INODES) →
  match find_slot (λ r, (0 <? i_count r) && ((i_dev r =? dev) && (i_num r =? n))) (inodes s) NR_INODES with
  | Some f => in_use s dev n f
  | None => ∀ f, ¬ in_use s dev n f
  end.
Proof.
  intros Hdom. destruct (find_slot _ _ _) as [f|] eqn:Hs.
  - unfold find_slot in Hs. apply find_some in Hs as [_ Hs]. destruct (inodes s !! f) as [r|] eqn:Hf; [|done].
    apply andb_true_iff in Hs as [H1%Z.ltb_lt [H2%Z.eqb_eq H3%Z.eqb_eq]%andb_true_iff].
    exists (i_count r). split; [|done]. rewrite (table_at s f r Hf). unfold place. by rewrite H2, H3.
  - intros f (c & Hf & Hc). apply table_inv in Hf as (r & Hf & [= <- <- <-]).
    unfold find_slot in Hs. pose proof (find_none _ _ Hs f) as Hn. cbv beta in Hn. rewrite Hf, Z.eqb_refl, Z.eqb_refl, (proj2 (Z.ltb_lt _ _) Hc) in Hn.
    assert (true = false); [|done]. apply Hn, list_elem_of_In, elem_of_zrange, Hdom. by eexists.
Qed.

Lemma last_free_spec (t : gmap Z inode) : match last_free t with
  | Some f => ∃ r, t !! f = Some r ∧ i_count r ≤ 0
  | None => ∀ f r, 0 ≤ f < NR_INODES → t !! f = Some r → 0 < i_count r
  end.
Proof.
  destruct (last_free t) as [f|] eqn:Hl; unfold last_free in Hl.
  - apply find_some in Hl as [_ Hl]. destruct (t !! f) as [r|] eqn:Hf; [|done]. exists r. split; [done|].
    apply negb_true_iff, Z.ltb_ge in Hl. done.
  - intros f r Hf Hr. pose proof (find_none _ _ Hl f) as Hn. cbv beta in Hn. rewrite Hr in Hn.
    assert (negb (0 <? i_count r) = false) as Hc; [|by apply negb_false_iff, Z.ltb_lt in Hc].
    apply Hn. rewrite <-in_rev. apply list_elem_of_In, elem_of_zrange. done.
Qed.

Section table.
Context (task_io : Z → dev_req → Z → disks → dev_reply).

Definition indexed (s : fsstate) : Prop := ∀ f, is_Some (table s !! f) → 0 ≤ f < NR_INODES.

Lemma get_inode_places s dev numb p s' : indexed s → get_inode task_io dev numb s = Ret p s' →
  match p with
  | None => table s' = table s ∧ err_code s' = ENFILE ∧ (∀ f, ¬ in_use s dev (u32 numb) f) ∧ ∀ f d n c, table s !! f = Some (d, n, c) → 0 < c
  | Some f => ∃ d n c, table s !! f = Some (d, n, c) ∧
      ((d = dev ∧ n = u32 numb ∧ 0 < c ∧ table s' = <[f := (dev, u32 numb, c + 1)]> (table s)) ∨
       (c ≤ 0 ∧ (∀ g, ¬ in_use s dev (u32 numb) g) ∧ table s' = <[f := (dev, u32 numb, 1)]> (table s)))
  end.
Proof.
  intros Hdom Hrun. assert (Hdom' : ∀ f, is_Some (inodes s !! f) → 0 ≤ f < NR_INODES).
  { intros f [r Hr]. apply Hdom. rewrite (table_at s f r Hr). by eexists. }
  pose proof (in_use_slot s dev (u32 numb) Hdom') as Hslot. unfold get_inode in Hrun. rewrite (bind_Ret _ _ s s s) in Hrun by done. cbv beta in Hrun.
  destruct (find_slot _ _ _) as [f|].
  - apply unit_inv in Hrun as (s1 & Hrun & Hret). apply ret_inv in Hret as [<- <-]. apply table_puti in Hrun as (r & Hf & _ & Ht).
    destruct Hslot as (c & Hc & Hpos). exists dev, (u32 numb), c. split; [done|]. left. split_and!; [done..|].
    rewrite (table_at _ _ _ Hf) in Hc. injection Hc as H1 H2 H3. rewrite Ht. unfold place. cbn. congruence.
  - pose proof (last_free_spec (inodes s)) as Hfree. destruct (last_free (inodes s)) as [f|].
    + destruct Hfree as (r & Hf & Hc).
      apply unit_inv in Hrun as (s1 & Hrun1 & Hrun). apply unit_inv in Hrun as (s2 & Hrun2 & Hrun).
      apply unit_inv in Hrun as (s3 & Hrun3 & Hret). apply ret_inv in Hret as [<- <-]. apply table_puti in Hrun1 as (r' & Hf' & _ & Ht).
      assert (H1 : same_places s1 s2).
      { eapply (pres_when same_places); [apply frame_rw_inode, _|exact Hrun2]. }
      assert (H2 : same_places s2 s3) by (eapply frame_puti; [apply _| |exact Hrun3]; reflexivity).
      exists (i_dev r), (i_num r), (i_count r). split; [by apply table_at|]. right. split; [done|]. split; [done|].
      rewrite H2, H1, Ht. done.
    + apply unit_inv in Hrun as (s1 & Hrun & Hret). apply ret_inv in Hret as [<- <-]. injection Hrun as <-. split; [done|]. split; [done|]. split; [done|].
      intros f d n c Hf. apply table_inv in Hf as (r & Hr & [= _ _ <-]). eapply Hfree; [|exact Hr]. apply Hdom'. by eexists.
Qed.

Lemma put_inode_places s f s' : put_inode task_io (Some f) s = Ret tt s' →
  ∃ d n c, table s !! f = Some (d, n, c) ∧ table s' = <[f := (d, n, c - 1)]> (table s).
Proof.
  unfold put_inode. intros Hrun. apply unit_inv in Hrun as (s1 & Hrun1 & Hrun).
  apply table_puti in Hrun1 as (r & Hf & _ & Ht). exists (i_dev r), (i_num r), (i_count r). split; [by apply table_at|].
  assert (H : same_places s1 s') by (revert Hrun; generalize tt at 1; match goal with |- ∀ u, ?m s1 = _ → _ =>
    intros u Hrun; assert (Hp : pres same_places m) by frame; exact (Hp _ _ _ Hrun) end).
  by rewrite H, Ht.
Qed.

Lemma dup_inode_places s f s' : dup_inode (Some f) s = Ret tt s' →
  ∃ d n c, table s !! f = Some (d, n, c) ∧ table s' = <[f := (d, n, c + 1)]> (table s).
Proof.
  intros Hrun. apply table_puti in Hrun as (r & Hf & _ & Ht). exists (i_dev r), (i_num r), (i_count r).
  split; [by apply table_at|done].
Qed.

(** A new inode comes into a free slot. *)
Lemma alloc_inode_places s dev bits p s' : indexed s → (∀ b f, ¬ in_use s NO_DEV b f) → alloc_inode task_io dev bits s = Ret p s' →
  match p with
  | None => table s' = table s
  | Some f => ∃ d n c b, table s !! f = Some (d, n, c) ∧ c ≤ 0 ∧ table s' = <[f := (dev, b, 1)]> (table s)
  end.
Proof.
  intros Hdom Hno. unfold alloc_inode. intros Hrun.
  apply bind_inv in Hrun as (i & s1 & H1 & Hrun). apply bind_inv in Hrun as (sp & s2 & H2 & Hrun).
  assert (E2 : same_places s s2) by (transitivity s1; [by eapply frame_get_super|by eapply frame_getsp]).
  destruct (s_rd_only sp).
  { apply unit_inv in Hrun as (s3 & H3 & Hret). apply ret_inv in Hret as [<- <-]. rewrite <-E2. by eapply (frame_set_err same_places). }
  apply bind_inv in Hrun as (b & s3 & H3 & Hrun).
  assert (E3 : same_places s s3) by (transitivity s2; [done|by eapply frame_alloc_bit]). destruct (b =? NO_BIT).
  { apply unit_inv in Hrun as (s4 & H4 & Hret). apply ret_inv in Hret as [<- <-]. rewrite <-E3. by eapply (frame_set_err same_places). }
  apply unit_inv in Hrun as (s4 & H4 & Hrun).
  assert (E4 : same_places s s4) by (transitivity s3; [done|by eapply frame_putsp]).
  apply bind_inv in Hrun as (rip & s5 & H5 & Hrun).
  apply get_inode_places in H5; [|by unfold indexed; rewrite E4]. destruct rip as [f|].
  - destruct H5 as (d & n & c & Hf & [(-> & -> & Hc & Ht)|(Hc & _ & Ht)]).
    + exfalso. eapply Hno. exists c. split; [rewrite <-E4; exact Hf|done].
    + apply bind_inv in Hrun as (x & s6 & H6 & Hrun). apply bind_inv in Hrun as (fpr & s7 & H7 & Hrun).
      apply unit_inv in Hrun as (s8 & H8 & Hrun). apply unit_inv in Hrun as (s9 & H9 & Hret). apply ret_inv in Hret as [<- <-].
      assert (E7 : same_places s5 s7) by (transitivity s6; [eapply (pres_get same_places); exact H6|by eapply frame_getfp]).
      apply table_puti in H8 as (r & Hr & _ & H8). apply (frame_wipe same_places) in H9.
      assert (Hpl : place r = (NO_DEV, u32 b, 1)).
      { apply table_at in Hr. rewrite E7, Ht, lookup_insert_eq in Hr. congruence. }
      injection Hpl as Hpd Hpn Hpc. exists d, n, c, (u32 b). rewrite <-E4. split; [done|]. split; [done|].
      rewrite H9, H8, E7, Ht, insert_insert_eq. unfold place. cbn. by rewrite Hpn, Hpc.
  - apply unit_inv in Hrun as (s6 & H6 & Hret). apply ret_inv in Hret as [<- <-]. rewrite <-E4.
    destruct H5 as [H5 _]. rewrite <-H5. by eapply (frame_free_bit same_places).
Qed.
End table.

(** ** Holders of inodes *)

(** [c f] counts who holds slot [f]. *)
Abbreviation holders := (Z → Z).
Definition held (f k : Z) (c : holders) : holders := λ g, if g =? f then c g + k else c g.

Section holders.
(** [sound] says of the run that the bit maps are right: they never give the number of an inode
    that is in a slot. *)
Context (task_io : Z → dev_req → Z → disks → dev_reply) (sound : Prop).

(** The steps of the server: an inode is taken, taken again, given back or made, or
    something is done that none of these functions is called for.  Neither the functions of the
    table nor [alloc_inode] look whether the number of a new inode is in use. *)
Inductive istep : fsstate * holders → fsstate * holders → Prop :=
  | step_get s c dev numb f s' : dev ≠ NO_DEV → get_inode task_io dev numb s = Ret (Some f) s' → istep (s, c) (s', held f 1 c)
  | step_full s c dev numb s' : dev ≠ NO_DEV → get_inode task_io dev numb s = Ret None s' → istep (s, c) (s', c)
  | step_put s c f s' : 0 < c f → put_inode task_io (Some f) s = Ret tt s' → istep (s, c) (s', held f (-1) c)
  | step_dup s c f s' : 0 < c f → dup_inode (Some f) s = Ret tt s' → istep (s, c) (s', held f 1 c)
  | step_new s c dev bits f s' : dev ≠ NO_DEV → alloc_inode task_io dev bits s = Ret (Some f) s' →
      (sound → ∀ b g, in_use s' dev b f → ¬ in_use s dev b g) → istep (s, c) (s', held f 1 c)
  | step_none s c dev bits s' : alloc_inode task_io dev bits s = Ret None s' → istep (s, c) (s', c)
  | step_other s c s' : same_places s s' → istep (s, c) (s', c).

(** The references are counted, and no inode has two slots as long as the bit maps are right. *)
Record held_ok (s : fsstate) (c : holders) : Prop := {
  ho_indexed : indexed s;
  ho_count f d n k : table s !! f = Some (d, n, k) → k = c f ∧ 0 ≤ k ∧ (0 < k → d ≠ NO_DEV);
  ho_unique d n f g : sound → in_use s d n f → in_use s d n g → f = g }.

Definition fresh (s : fsstate) : Prop := indexed s ∧ ∀ f d n k, table s !! f = Some (d, n, k) → k = 0.

Lemma fresh_ok s : fresh s → held_ok s (λ _, 0).
Proof.
  intros [Hi Hz]. split; [done| |].
  - intros f d n k Hf. rewrite (Hz f d n k Hf). lia.
  - intros d n f g _ (k & Hf & Hk). apply Hz in Hf. lia.
Qed.

Lemma held_eq f k c : held f k c f = c f + k.
Proof. unfold held. by rewrite Z.eqb_refl. Qed.
Lemma held_ne f k c g : g ≠ f → held f k c g = c g.
Proof. intros H. unfold held. by rewrite (proj2 (Z.eqb_neq g f)). Qed.

(** One slot changes. *)
Lemma held_ok_slot s s' c f d n k k' dn : held_ok s c → table s !! f = Some (d, n, k) → table s' = <[f := (dn, k')]> (table s) →
  0 ≤ k' → (0 < k' → dn.1 ≠ NO_DEV) → (sound → 0 < k' → ∀ g, g ≠ f → ¬ in_use s dn.1 dn.2 g) → held_ok s' (held f (k' - k) c).
Proof.
  intros [Hi Hc Hu] Hf Ht Hk Hd Hno. destruct dn as [d' n']. cbn in *. destruct (Hc _ _ _ _ Hf) as (-> & Hk0 & _).
  assert (Huse : ∀ d0 n0 g, in_use s' d0 n0 g → (g = f ∧ d0 = d' ∧ n0 = n' ∧ 0 < k') ∨ (g ≠ f ∧ in_use s d0 n0 g)).
  { intros d0 n0 g (k0 & Hg & Hp). rewrite Ht in Hg. destruct (decide (g = f)) as [->|Hne].
    - rewrite lookup_insert_eq in Hg. injection Hg as -> -> ->. by left.
    - rewrite lookup_insert_ne in Hg by done. right. split; [done|]. by exists k0. }
  split.
  - intros g. rewrite Ht. destruct (decide (g = f)) as [->|Hne]; [intros _; apply Hi; by eexists|].
    rewrite lookup_insert_ne by done. apply Hi.
  - intros g d0 n0 k0. rewrite Ht. destruct (decide (g = f)) as [->|Hne].
    + rewrite lookup_insert_eq, held_eq. intros [= <- <- <-]. split; [lia|]. done.
    + rewrite lookup_insert_ne, held_ne by done. apply Hc.
  - intros d0 n0 g h Hb Hg Hh. apply Huse in Hg as [(-> & -> & -> & Hp)|[Hg1 Hg2]], Hh as [(-> & H1 & H2 & Hp')|[Hh1 Hh2]]; try done.
    + by destruct (Hno Hb Hp h Hh1).
    + subst. by destruct (Hno Hb Hp' g Hg1).
    + by eapply Hu.
Qed.

Lemma held_ok_same s s' c : same_places s s' → held_ok s c → held_ok s' c.
Proof.
  unfold same_places. intros H [Hi Hc Hu]. split.
  - unfold indexed. by rewrite H.
  - by rewrite H.
  - unfold in_use. by rewrite H.
Qed.

Lemma in_use_slots s s' f d0 n0 g dnk : table s' = <[f := dnk]> (table s) → g ≠ f → in_use s d0 n0 g → in_use s' d0 n0 g.
Proof. intros Ht Hne (k & Hg & Hk). exists k. by rewrite Ht, lookup_insert_ne. Qed.

Lemma istep_ok s c s' c' : istep (s, c) (s', c') → held_ok s c →
  held_ok s' c' ∧ ∀ f d n, in_use s d n f → 0 < c' f → in_use s' d n f.
Proof.
  intros Hstep Hok. pose proof (ho_indexed _ _ Hok) as Hi. pose proof (ho_count _ _ Hok) as Hc. pose proof (ho_unique _ _ Hok) as Hu.
  inversion Hstep as [s0 c0 dev numb f s1 Hd Hrun|s0 c0 dev numb s1 Hd Hrun|s0 c0 f s1 Hp Hrun|s0 c0 f s1 Hp Hrun|
    s0 c0 dev bits f s1 Hd Hrun Hnew|s0 c0 dev bits s1 Hrun|s0 c0 s1 Hsame]; subst.
  - apply get_inode_places in Hrun as (d & n & k & Hf & [(-> & -> & Hk & Ht)|(Hk & Hno & Ht)]); [| |done].
    + split.
      * replace 1 with (k + 1 - k) by lia. eapply held_ok_slot; [done|done|exact Ht|lia|done|].
        intros Hb _ g Hne Hg. apply Hne. eapply Hu; [exact Hb|exact Hg|]. by exists k.
      * intros g d n Hg _. destruct (decide (g = f)) as [->|Hne]; [|by eapply in_use_slots].
        destruct Hg as (k' & Hg & Hk'). rewrite Hf in Hg. injection Hg as <- <- <-. exists (k + 1). rewrite Ht, lookup_insert_eq. split; [done|lia].
    + destruct (Hc _ _ _ _ Hf) as (-> & Hk0 & _). split.
      * replace 1 with (1 - c f) by lia. eapply held_ok_slot; [done|done|exact Ht|lia|done|]. intros _ _ g _. apply Hno.
      * intros g d0 n0 Hg _. destruct (decide (g = f)) as [->|Hne]; [|by eapply in_use_slots].
        destruct Hg as (k' & Hg & Hk'). rewrite Hf in Hg. injection Hg as <- <- <-. lia.
  - apply get_inode_places in Hrun as (Ht & _); [|done]. split; [by eapply held_ok_same|]. intros f d n Hf _. unfold in_use. by rewrite Ht.
  - apply put_inode_places in Hrun as (d & n & k & Hf & Ht). destruct (Hc _ _ _ _ Hf) as (-> & Hk0 & Hd). split.
    + replace (-1) with (c f - 1 - c f) by lia. eapply held_ok_slot; [done|done|exact Ht|lia|intros _; apply Hd; lia|].
      intros Hb _ g Hne Hg. apply Hne. eapply Hu; [exact Hb|exact Hg|]. by exists (c f).
    + intros g d0 n0 Hg Hpos. destruct (decide (g = f)) as [->|Hne]; [|by eapply in_use_slots].
      rewrite held_eq in Hpos. destruct Hg as (k' & Hg & Hk'). rewrite Hf in Hg. injection Hg as <- <- <-.
      exists (c f - 1). rewrite Ht, lookup_insert_eq. split; [done|lia].
  - apply dup_inode_places in Hrun as (d & n & k & Hf & Ht). destruct (Hc _ _ _ _ Hf) as (-> & Hk0 & Hd). split.
    + replace 1 with (c f + 1 - c f) by lia. eapply held_ok_slot; [done|done|exact Ht|lia|intros _; apply Hd; lia|].
      intros Hb _ g Hne Hg. apply Hne. eapply Hu; [exact Hb|exact Hg|]. by exists (c f).
    + intros g d0 n0 Hg _. destruct (decide (g = f)) as [->|Hne]; [|by eapply in_use_slots].
      destruct Hg as (k' & Hg & Hk'). rewrite Hf in Hg. injection Hg as <- <- <-. exists (c f + 1). rewrite Ht, lookup_insert_eq. split; [done|lia].
  - apply alloc_inode_places in Hrun as (d & n & k & b & Hf & Hk & Ht); [|done|].
    + destruct (Hc _ _ _ _ Hf) as (-> & Hk0 & _). split.
      * replace 1 with (1 - c f) by lia. eapply held_ok_slot; [done|done|exact Ht|lia|done|]. intros Hb _ g _. apply (Hnew Hb b).
        exists 1. by rewrite Ht, lookup_insert_eq.
      * intros g d0 n0 Hg _. destruct (decide (g = f)) as [->|Hne]; [|by eapply in_use_slots].
        destruct Hg as (k' & Hg & Hk'). rewrite Hf in Hg. injection Hg as <- <- <-. lia.
    + intros b g (k & Hg & Hk). by destruct (Hc _ _ _ _ Hg) as (_ & _ & []).
  - apply alloc_inode_places in Hrun; [|done|].
    + split; [by eapply held_ok_same|]. intros f d n Hf _. unfold in_use. by rewrite Hrun.
    + intros b g (k & Hg & Hk). by destruct (Hc _ _ _ _ Hg) as (_ & _ & []).
  - split; [by eapply held_ok_same|]. intros f d n Hf _. unfold in_use. by rewrite Hsame.
Qed.

Lemma istep_kept s0 s c : fresh s0 → rtc istep (s0, λ _, 0) (s, c) → held_ok s c.
Proof.
  intros H0 Hsteps. remember (s0, λ _, 0) as x. remember (s, c) as y. apply fresh_ok in H0.
  assert (Hx : held_ok x.1 x.2) by by subst x. clear H0 Heqx s0. revert s c Heqy.
  induction Hsteps as [x|[s1 c1] [s2 c2] z Hstep _ IH]; intros s c ->; [done|]. eapply IH; [|done]. by eapply istep_ok.
Qed.
End holders.

(** ** The property *)

(** C37. From an empty table on, whatever sequence of the functions of the inode table and of
    others runs: the count of a slot is the number of its holders, and a slot keeps its inode as
    long as somebody holds it.  If the bit maps are right ([sound]: [alloc_inode] never gets the
    number of an inode that is in a slot, which nothing checks), no inode has two slots. *)
Theorem inode_references task_io (sound : Prop) s0 s1 c1 s c :
  fresh s0 → rtc (istep task_io sound) (s0, λ _, 0) (s1, c1) → istep task_io sound (s1, c1) (s, c) →
  (∀ f r, inodes s !! f = Some r → i_count r = c f) ∧
  (∀ dev n f, in_use s1 dev n f → 0 < c f → in_use s dev n f) ∧
  (sound → ∀ dev n f g, in_use s dev n f → in_use s dev n g → f = g).
Proof.
  intros H0 H1 H. apply istep_kept in H1; [|done]. destruct (istep_ok _ _ _ _ _ _ H H1) as [Hok Hkeep].
  split_and!; [|auto|intros Hb ????; by apply (ho_unique _ _ _ Hok)].
  intros f r Hr. by destruct (ho_count _ _ _ Hok f _ _ _ (table_at s f r Hr)) as [-> _].
Qed.

(** ** A concrete run: inode 5 is read into the only slot, and taken a second time. *)
Definition free_inode_slot : inode := Inode 0 0 0 0 0 0 0 0 (replicate 10 0) 0 0 0 7 256 None CLEAN NO_PIPE 0 0 0.
Definition demo_table : fsstate := demo_pool.[inodes := {[3 := free_inode_slot]}].
Definition demo_got : fsstate := in_state (get_inode demo_io demo_dev 5 demo_table) demo_table.

Lemma demo_get : get_inode demo_io demo_dev 5 demo_table = Ret (Some 3) demo_got.
Proof. apply answers_eq. by vm_compute. Qed.

Lemma demo_fresh : fresh demo_table.
Proof.
  assert (H : ∀ f d n k, table demo_table !! f = Some (d, n, k) → f = 3 ∧ k = 0).
  { intros f d n k. change (inodes demo_table) with ({[3 := free_inode_slot]} : gmap Z inode). rewrite map_fmap_singleton.
    intros [<- [= _ _ <-]]%lookup_singleton_Some. done. }
  split.
  - intros f [[[d n] k] Hf]. apply H in Hf as [-> _]. done.
  - intros f d n k Hf. by apply H in Hf as [_ ->].
Qed.

Lemma inode_references_witness : ∃ s, dup_inode (Some 3) demo_got = Ret tt s ∧
  (∀ f r, inodes s !! f = Some r → i_count r = held 3 1 (held 3 1 (λ _, 0)) f).
Proof.
  assert (Hdup : is_Some (inodes demo_got !! 3)) by (vm_compute; by eexists). destruct Hdup as [r Hr].
  eexists. split; [unfold dup_inode, puti; rewrite Hr; reflexivity|].
  refine (proj1 (inode_references demo_io True demo_table demo_got (held 3 1 (λ _, 0)) _ (held 3 1 (held 3 1 (λ _, 0))) demo_fresh _ _)).
  - apply rtc_once. eapply step_get; [|exact demo_get]. discriminate.
  - apply step_dup; [reflexivity|]. unfold dup_inode, puti. rewrite Hr. reflexivity.
Defined.
