(* ===== verification/FsPath.v ===== *)
(** * The file system server: path names

    [src/servers/fs/path.c] with the permissions of [protect.c] that it checks.  A
    pointer into [user_path] is an index: what is read beyond the array is what lies
    behind it, a store beyond it is a crash.  A [char string[NAME_MAX]] is the list of
    its characters up to the end; [dot1] and [dot2], which [search_dir] and [advance]
    tell from a name by their addresses, are the other [component]s. *)
From stdpp Require Import base gmap list numbers strings.
From Stdlib Require Import ZArith Lia.
From S2P Require Import Prelude.
From S2P Require Import KTypes.
From S2P Require Import FsTypes.
From S2P Require Import FsCache.
From S2P Require Import FsMap.
From S2P Require Import FsInode.

Definition DIRSIZ : Z := 60.
Definition NAME_MAX : Z := DIRSIZ.
Definition DIR_ENTRY_SIZE : Z := 64.
Definition NR_DIR_ENTRIES (b : Z) : Z := b / DIR_ENTRY_SIZE.
Definition LOOK_UP : Z := 0.
Definition ENTER : Z := 1.
Definition DELETE : Z := 2.
Definition IS_EMPTY : Z := 3.
Definition PATH_TRANSPARENT : Z := 0.
Definition PATH_PENULTIMATE : Z := 1.
Definition PATH_OPAQUE : Z := 2.
Definition PATH_NONSYMBOLIC : Z := 4.
Definition EAT_PATH : Z := PATH_TRANSPARENT.
Definition LAST_DIR : Z := PATH_PENULTIMATE.
Definition SYMLOOP : Z := 16.
Definition ACCESS : Z := 33.
Definition ENOTDIR : Z := -20.
Definition ENAMETOOLONG : Z := -36.
Definition ENOTEMPTY : Z := -39.
Definition ELOOP : Z := -40.

(** ['/'] and ['.'] *)
Definition slash : Z := 47.
Definition dot : Z := 46.

(** One more than the characters of any path, the mounted file systems above each
    other, and the components of a path with all the symbolic links it may have. *)
Definition path_fuel : nat := 257.
Definition mount_fuel : nat := 14.
Definition parse_fuel : nat := 5000.

Inductive component :=
  | Dot1
  | Dot2
  | Name (s : list Z).
Definition chars (c : component) : list Z :=
  match c with Dot1 => [dot] | Dot2 => [dot; dot] | Name s => s end.

Fixpoint cstring (l : list Z) : list Z :=
  match l with
  | [] => []
  | c :: l => if c =? 0 then [] else c :: cstring l
  end.

Definition char_at (i : Z) : F Z := let* s := get in ret (user_path s i).
Definition root_dir : F (option Z) := let* s := get in let* r := getfp (fp s) in ret (fp_rootdir r).
Definition work_dir : F (option Z) := let* s := get in let* r := getfp (fp s) in ret (fp_workdir r).

(** ** [get_name] *)
Definition skip_slashes (bound : option Z) : Z → F (Z + Z) := λ rnp,
  let* c := char_at rnp in
  ret (if (c =? slash) && match bound with Some b => rnp <? b | None => true end then inl (rnp + 1) else inr rnp).

Definition copy_name (bound : Z) : Z * list Z → F (Z * list Z + Z * list Z) := λ '(rnp, string),
  let* c := char_at rnp in
  ret (if (rnp <? bound) && negb (c =? slash) && negb (c =? 0) then
         inl (rnp + 1, if Z.of_nat (length string) <? NAME_MAX then string ++ [c] else string)
       else inr (rnp, string)).

(** The rest of the path, unless it is too long, and the component. *)
Definition get_name (old_name : Z) : F (option Z * list Z) :=
  let* rnp := loop path_fuel (skip_slashes None) old_name in
  let* ' (rnp, string) := loop path_fuel (copy_name (old_name + PATH_MAX)) (rnp, []) in
  let* rnp := loop path_fuel (skip_slashes (Some (old_name + PATH_MAX))) rnp in
  if old_name + PATH_MAX <=? rnp then set_err ENAMETOOLONG;;; ret (None, string)
  else ret (Some rnp, string).

(** ** Permissions ([protect.c]) *)
Definition read_only (ip : option Z) : F Z :=
  let* r := geti ip in
  let* sp := getsp (i_sp r) in
  ret (if s_rd_only sp then EROFS else OK).

(** The permission bits of a user for a mode. *)
Definition perm_bits (bits uid gid test_uid test_gid : Z) : Z :=
  if test_uid =? SU_UID then
    if (Z.land bits I_TYPE =? I_DIRECTORY) || band bits (Z.lor (Z.lor (Z.shiftl X_BIT 6) (Z.shiftl X_BIT 3)) X_BIT)
    then Z.lor (Z.lor R_BIT W_BIT) X_BIT else Z.lor R_BIT W_BIT
  else
    let shift := if test_uid =? uid then 6 else if test_gid =? gid then 3 else 0 in
    Z.land (Z.shiftr bits shift) (Z.lor (Z.lor R_BIT W_BIT) X_BIT).

(** The place of a super block among those from [a] on. *)
Definition find_super (a : Z) (f : super_block → bool) (t : gmap Z super_block) : option Z :=
  find (λ i, match t !! i with Some r => f r | None => false end) (zrange a NR_SUPERS).

Section path.
Context (task_io : Z → dev_req → Z → disks → dev_reply).

Definition forbidden (rip : option Z) (access_desired : Z) : F Z :=
  let old_rip := rip in
  let* r := geti rip in
  let* s := get in
  let* rip :=
    if i_mount r =? I_MOUNT then
      match find_super 1 (λ sp, opt_eqb (s_imount sp) rip) (supers s) with
      | Some p => let* sp := getsp (Some p) in get_inode task_io (s_dev sp) ROOT_INODE
      | None => ret rip
      end
    else ret rip in
  let* r := geti rip in
  let* s := get in
  let* fpr := getfp (fp s) in
  let access := call_nr s =? ACCESS in
  let perm := perm_bits (i_mode r) (i_uid r) (i_gid r) (if access then fp_realuid fpr else fp_effuid fpr)
                (if access then fp_realgid fpr else fp_effgid fpr) in
  let* res :=
    if negb (Z.lor perm access_desired =? perm) then ret EACCES
    else if band access_desired W_BIT then read_only rip
    else ret OK in
  when (negb (opt_eqb rip old_rip)) (put_inode task_io rip);;;
  ret res.

(** ** [search_dir] *)

(** The name of the entry at byte [o] of a block. *)
Definition entry_name (d : Z → Z) (o : Z) : list Z :=
  cstring (map (λ k, d (o + 4 + k)) (zrange 0 NAME_MAX)).
Definition entry_match (flag : Z) (string : list Z) (d : Z → Z) (o : Z) : bool :=
  negb (flag =? ENTER) && negb (get32 d o =? 0) &&
  (if flag =? IS_EMPTY then negb (bool_decide (entry_name d o = chars Dot1)) && negb (bool_decide (entry_name d o = chars Dot2))
   else bool_decide (entry_name d o = take (Z.to_nat NAME_MAX) string)).

(** The entry with its name cleared and then copied, and its number. *)
Definition put_entry (d : Z → Z) (o : Z) (string : list Z) (ino : Z) : Z → Z :=
  put32 (λ i, if (o + 4 <=? i) && (i <? o + 4 + NAME_MAX) then
                match take (Z.to_nat NAME_MAX) string !! Z.to_nat (i - (o + 4)) with Some c => c mod 256 | None => 0 end
              else d i) o ino.

(** How the search of a block ends: with the result of the call, at a free entry, or
    with the block. *)
Inductive scan_end :=
  | Found (r numb : Z)
  | Free (bp : option Z) (dp new_slots : Z)
  | Over (new_slots : Z).

Definition found (ldir_ptr bp : option Z) (o numb flag : Z) : F scan_end :=
  let* d := getb bp in
  let* ' (r, numb) :=
    if flag =? IS_EMPTY then ret (ENOTEMPTY, numb)
    else if flag =? DELETE then
      putb bp (λ b, b.[b_data := put32 (put32 (b_data b) (o + 4 + (NAME_MAX - 4)) (get32 (b_data b) o)) o 0].[b_dirt := DIRTY]);;;
      puti ldir_ptr (λ r, r.[i_update := Z.lor (i_update r) (Z.lor CTIME MTIME)].[i_dirt := DIRTY]);;;
      ret (OK, numb)
    else
      let* r := geti ldir_ptr in
      let* sp := getsp (i_sp r) in
      ret (OK, u32 (conv4 (s_native sp) (s32 (get32 (b_data d) o)))) in
  put_block task_io bp DIRECTORY_BLOCK;;;
  ret (Found r numb).

Definition scan_entry (ldir_ptr bp : option Z) (string : list Z) (numb flag entries old_slots : Z)
    : Z * Z → F (Z * Z + scan_end) := λ '(dp, new_slots),
  if entries <=? dp then ret (inr (Over new_slots))
  else
    let new_slots := u32 (new_slots + 1) in
    if old_slots <? new_slots then ret (inr (if flag =? ENTER then Free bp dp new_slots else Over new_slots))
    else
      let* d := getb bp in
      if entry_match flag string (b_data d) (dp * DIR_ENTRY_SIZE) then
        let* e := found ldir_ptr bp (dp * DIR_ENTRY_SIZE) numb flag in
        ret (inr e)
      else if (flag =? ENTER) && (get32 (b_data d) (dp * DIR_ENTRY_SIZE) =? 0) then ret (inr (Free bp dp new_slots))
      else ret (inl (dp + 1, new_slots)).

Definition scan_dir (ldir_ptr : option Z) (string : list Z) (numb flag old_slots : Z)
    : Z * Z → F (Z * Z + scan_end) := λ '(pos, new_slots),
  let* r := geti ldir_ptr in
  if i_size r <=? pos then ret (inr (Over new_slots))
  else
    let* sp := getsp (i_sp r) in
    let* b := read_map task_io ldir_ptr pos in
    let* bp := get_block task_io (i_dev r) b NORMAL in
    let entries := NR_DIR_ENTRIES (s_block_size sp) in
    let* e := loop (Datatypes.S (Datatypes.S (Z.to_nat entries)))
                (scan_entry ldir_ptr bp string numb flag entries old_slots) (0, new_slots) in
    match e with
    | Over new_slots => put_block task_io bp DIRECTORY_BLOCK;;; ret (inl (u32 (pos + s_block_size sp), new_slots))
    | _ => ret (inr e)
    end.

(** ENTER, once the search is over: into a free entry, or into a new block. *)
Definition enter_dir (ldir_ptr : option Z) (string : list Z) (numb old_slots : Z) (e : scan_end) : F Z :=
  let* r := geti ldir_ptr in
  let* slot :=
    match e with
    | Free bp dp new_slots => ret (inr (bp, dp, new_slots, false))
    | Over new_slots =>
        let new_slots := u32 (new_slots + 1) in
        if new_slots =? 0 then ret (inl EFBIG)
        else
          let* bp := new_block task_io ldir_ptr (i_size r) in
          match bp with
          | None => let* s := get in ret (inl (err_code s))
          | Some _ => ret (inr (bp, 0, new_slots, true))
          end
    | Found r _ => ret (inl r)
    end in
  match slot with
  | inl r => ret r
  | inr (bp, dp, new_slots, extended) =>
      let* sp := getsp (i_sp r) in
      putb bp (λ b, b.[b_data := put_entry (b_data b) (dp * DIR_ENTRY_SIZE) string (conv4 (s_native sp) (s32 numb))]
        .[b_dirt := DIRTY]);;;
      put_block task_io bp DIRECTORY_BLOCK;;;
      puti ldir_ptr (λ r, r.[i_update := Z.lor (i_update r) (Z.lor CTIME MTIME)].[i_dirt := DIRTY]);;;
      when (old_slots <? new_slots) (
        puti ldir_ptr (λ r, r.[i_size := u32 (new_slots * DIR_ENTRY_SIZE)]);;;
        when extended (rw_inode task_io ldir_ptr WRITING));;;
      ret OK
  end.

(** The result and the inode number, which LOOK_UP sets. *)
Definition search_dir (ldir_ptr : option Z) (string : component) (numb flag : Z) : F (Z * Z) :=
  let* r := geti ldir_ptr in
  if negb (Z.land (i_mode r) I_TYPE =? I_DIRECTORY) then ret (ENOTDIR, numb)
  else
    let* res :=
      if flag =? IS_EMPTY then ret OK
      else
        let bits := if flag =? LOOK_UP then X_BIT else Z.lor W_BIT X_BIT in
        match string with
        | Name _ => forbidden ldir_ptr bits
        | _ => if negb (flag =? LOOK_UP) then read_only ldir_ptr else ret OK
        end in
    if negb (res =? OK) then ret (res, numb)
    else
      let* r := geti ldir_ptr in
      let* sp := getsp (i_sp r) in
      let old_slots := i_size r / DIR_ENTRY_SIZE in
      let* e := loop (Datatypes.S (Datatypes.S (Z.to_nat (i_size r / s_block_size sp))))
                  (scan_dir ldir_ptr (chars string) numb flag old_slots) (0, 0) in
      match e with
      | Found r numb => ret (r, numb)
      | _ =>
          if negb (flag =? ENTER) then ret (if flag =? IS_EMPTY then OK else ENOENT, numb)
          else let* r := enter_dir ldir_ptr (chars string) numb old_slots e in ret (r, numb)
      end.

(** ** [advance] *)

(** From a directory that is mounted on to the root of what is mounted there, again and
    again. *)
Definition cross_mount : option Z → F (option Z + option Z) := λ rip,
  match rip with
  | None => ret (inr None)
  | Some _ =>
      let* r := geti rip in
      if negb (i_mount r =? I_MOUNT) then ret (inr rip)
      else
        let* s := get in
        match find_super 0 (λ sp, opt_eqb (s_imount sp) rip) (supers s) with
        | Some p =>
            put_inode task_io rip;;;
            let* sp := getsp (Some p) in
            let* rip := get_inode task_io (s_dev sp) ROOT_INODE in
            ret (inl rip)
        | None => ret (inl rip)
        end
  end.

Definition is_dotdot (s : list Z) : bool := bool_decide (s = chars Dot2).

(** The inode of the component and the directory, which changes at a mount point. *)
Fixpoint advance (fuel : nat) (dirp : option Z) (string : component) : F (option Z * option Z) :=
  match fuel with
  | O => spin
  | Datatypes.S fuel =>
      if bool_decide (chars string = []) then
        let* d := geti dirp in
        let* rip := get_inode task_io (i_dev d) (s32 (i_num d)) in
        ret (rip, dirp)
      else
        match dirp with
        | None => ret (None, dirp)
        | Some _ =>
            let* ' (r, numb) := search_dir dirp string 0 LOOK_UP in
            if negb (r =? OK) then set_err r;;; ret (None, dirp)
            else
              let* d := geti dirp in
              let* root := root_dir in
              if opt_eqb dirp root && is_dotdot (chars string) && match string with Dot2 => false | _ => true end then
                let* rip := get_inode task_io (i_dev d) (s32 (i_num d)) in
                ret (rip, dirp)
              else
                let* rip := get_inode task_io (i_dev d) (s32 numb) in
                match rip with
                | None => ret (None, dirp)
                | Some _ =>
                    let* r := geti rip in
                    let* ' (rip, dirp) :=
                      if (i_num r =? ROOT_INODE) && (i_num d =? ROOT_INODE) &&
                         match chars string !! 1%nat with Some c => c =? dot | None => false end then
                        let* sp := getsp (i_sp r) in
                        if negb (opt_eqb (s_imount sp) (s_isup sp)) then
                          put_inode task_io rip;;;
                          put_inode task_io dirp;;;
                          let* sp := getsp (i_sp r) in
                          let* m := geti (s_imount sp) in
                          let* dirp := get_inode task_io (i_dev m) (s32 (i_num m)) in
                          advance fuel dirp string
                        else ret (rip, dirp)
                      else ret (rip, dirp) in
                    let* rip := loop mount_fuel cross_mount rip in
                    ret (rip, dirp)
                end
        end
  end.

(** ** [ltraverse] *)
Definition strlen_scan : Z * Z → F (Z * Z + Z) := λ '(i, n),
  let* c := char_at i in
  ret (if c =? 0 then inr n else inl (i + 1, n + 1)).
Definition strlen (i : Z) : F Z := loop path_fuel strlen_scan (i, 0).

(** The [sl] bytes of [d] and then the [tl] bytes from [suffix] on, stored at [path]
    with a zero after them. *)
Definition insert_link (path suffix sl tl : Z) (d : Z → Z) : F unit :=
  if PATH_MAX <=? path + sl + tl then crash
  else
    modify (λ s, s.[user_path := λ i,
      if (path <=? i) && (i <? path + sl) then d (i - path)
      else if (path + sl <=? i) && (i <? path + sl + tl) then user_path s (suffix + (i - (path + sl)))
      else if i =? path + sl + tl then 0
      else user_path s i]).

Definition ltraverse (rip : option Z) (path suffix : Z) (ldip : option Z) : F (option Z) :=
  let* b := read_map task_io rip 0 in
  let* ' (bip, bp) :=
    if b =? NO_BLOCK then ret (None, None)
    else
      let* r := geti rip in
      let* bp := get_block task_io (i_dev r) b NORMAL in
      let sl := i_size r in
      let* tl := strlen suffix in
      if (0 <? sl) && (u32 (sl + tl) <=? PATH_MAX - 1) then
        let* d := getb bp in
        insert_link path suffix sl tl (b_data d);;;
        let* c := char_at path in
        let* root := root_dir in
        let bip := if c =? slash then root else ldip in
        dup_inode bip;;;
        ret (bip, bp)
      else ret (None, bp) in
  put_block task_io bp DIRECTORY_BLOCK;;;
  put_inode task_io rip;;;
  match bip with None => set_err ENOENT | Some _ => skip end;;;
  ret bip.

(** ** [parse_path] *)

(** One component; the state is the directory, the path and the links that were met. *)
Definition parse_step (action : Z) : option Z * Z * Z → F (option Z * Z * Z + option Z * list Z) :=
  λ '(rip, path, symloop),
  let* ' (new_name, string) := get_name path in
  match new_name with
  | None => put_inode task_io rip;;; ret (inr (None, string))
  | Some new_name =>
      let* c := char_at new_name in
      let last := c =? 0 in
      if last && band action PATH_PENULTIMATE then
        let* r := geti rip in
        if Z.land (i_mode r) I_TYPE =? I_DIRECTORY then ret (inr (rip, string))
        else
          put_inode task_io rip;;;
          set_err ENOTDIR;;;
          ret (inr (None, string))
      else
        let* ' (rip, dir_ip) := advance mount_fuel rip (Name string) in
        match rip with
        | None =>
            if last && band action PATH_NONSYMBOLIC then ret (inr (dir_ip, string))
            else put_inode task_io dir_ip;;; ret (inr (None, string))
        | Some _ =>
            let* r := geti rip in
            let islnk := Z.land (i_mode r) I_TYPE =? I_SYMBOLIC_LINK in
            if islnk && (negb last || negb (band action PATH_OPAQUE)) then
              let new_name := if negb last then new_name - 1 else new_name in
              let* rip := ltraverse rip path new_name dir_ip in
              put_inode task_io dir_ip;;;
              let symloop := symloop + 1 in
              let* rip :=
                if SYMLOOP <? symloop then
                  set_err ELOOP;;;
                  put_inode task_io rip;;;
                  ret None
                else ret rip in
              ret (match rip with None => inr (None, string) | Some _ => inl (rip, path, symloop) end)
            else if negb islnk && negb last then
              put_inode task_io dir_ip;;;
              ret (inl (rip, new_name, symloop))
            else if band action PATH_NONSYMBOLIC then
              put_inode task_io rip;;;
              ret (inr (dir_ip, string))
            else
              put_inode task_io dir_ip;;;
              ret (inr (rip, string))
        end
  end.

Definition parse_path (path action : Z) : F (option Z * list Z) :=
  let* c := char_at path in
  let* rip := if c =? slash then root_dir else work_dir in
  let* r := geti rip in
  if (i_nlinks r =? 0) || (c =? 0) then set_err ENOENT;;; ret (None, [])
  else
    dup_inode rip;;;
    loop parse_fuel (parse_step action) (rip, path, 0).

Definition eat_path (path : Z) : F (option Z) :=
  let* ' (rip, _) := parse_path path EAT_PATH in
  ret rip.
Definition last_dir (path : Z) : F (option Z * list Z) := parse_path path LAST_DIR.
End path.
