(* ===== verification/FsPathThms.v ===== *)
(** * Path names: theorems on [get_name] and [search_dir]

    What a path is as a list of characters, and how it falls into its first component
    and the rest; a directory as a function of the contents of the disk, and that
    [search_dir] finds what is in it. *)
From stdpp Require Import base gmap list numbers strings.
From Stdlib Require Import ZArith Lia.
From S2P Require Import Prelude.
From S2P Require Import Chains.
From S2P Require Import KTypes.
From S2P Require Import FsTypes.
From S2P Require Import FsCache.
From S2P Require Import FsCacheInv.
From S2P Require Import FsHash.
From S2P Require Import FsIo.
From S2P Require Import FsGet.
From S2P Require Import FsPut.
From S2P Require Import FsStore.
From S2P Require Import FsProps.
From S2P Require Import FsMap.
From S2P Require Import FsBitsThms.
From S2P Require Import FsAlloc.
From S2P Require Import FsInode.
From S2P Require Import FsMapThms.
From S2P Require Import FsCopyThms.
From S2P Require Import FsPath.

(** ** The specification *)
Fixpoint drop_slashes (l : list Z) : list Z :=
  match l with
  | c :: l' => if c =? slash then drop_slashes l' else l
  | [] => []
  end.
Fixpoint up_to_slash (l : list Z) : list Z * list Z :=
  match l with
  | c :: l' => if c =? slash then ([], l) else let '(name, rest) := up_to_slash l' in (c :: name, rest)
  | [] => ([], [])
  end.

(** The first component, cut at NAME_MAX, and the rest without its slashes. *)
Definition split_path (l : list Z) : list Z * list Z :=
  let '(name, rest) := up_to_slash (drop_slashes l) in
  (take (Z.to_nat NAME_MAX) name, drop_slashes rest).

(** The characters from [i] on are [l], and then the string ends. *)
Fixpoint path_at (s : fsstate) (i : Z) (l : list Z) : Prop :=
  match l with
  | c :: l => user_path s i = c ∧ c ≠ 0 ∧ path_at s (i + 1) l
  | [] => user_path s i = 0
  end.

(** ** The loops *)
Lemma char_at_eq s i : char_at i s = Ret (user_path s i) s.
Proof. done. Qed.

#[local] Abbreviation len l := (Z.of_nat (length l)).

Lemma drop_slashes_length l : (length (drop_slashes l) ≤ length l)%nat.
Proof. induction l as [|c l IH]; cbn [drop_slashes length]; [done|]. destruct (c =? slash); cbn [length]; lia. Qed.
Lemma up_to_slash_length l : (length (up_to_slash l).2 + length (up_to_slash l).1 = length l)%nat.
Proof.
  induction l as [|c l IH]; [done|]. cbn [up_to_slash length]. destruct (c =? slash); [cbn [fst snd length]; lia|].
  destruct (up_to_slash l) as [name rest]. cbn [fst snd length] in *. lia.
Qed.

Lemma skip_eq s bound l n i : path_at s i l → (length l < n)%nat → match bound with Some b => i + len l < b | None => True end →
  loop n (skip_slashes bound) i s = Ret (i + len l - len (drop_slashes l)) s ∧ path_at s (i + len l - len (drop_slashes l)) (drop_slashes l).
Proof.
  revert n i. induction l as [|c l IH]; intros n i Hp Hn Hb; (destruct n as [|n]; [cbn in Hn; lia|]); rewrite loop_S; unfold skip_slashes;
    rewrite (bind_Ret _ _ _ _ _ (char_at_eq s i)).
  - cbn in Hp. rewrite Hp. change (0 =? slash) with false. cbn. rewrite Z.add_0_r, Z.sub_0_r. done.
  - destruct Hp as (Hc & H0 & Hp). rewrite Hc. cbn [drop_slashes]. cbn [length] in *. destruct (Z.eqb_spec c slash) as [->|Hne]; cbn [andb].
    + assert (match bound with Some b => i <? b | None => true end = true) as ->.
      { destruct bound; [apply Z.ltb_lt; lia|done]. }
      destruct (IH n (i + 1) Hp) as [H1 H2]; [lia|destruct bound; lia|].
      replace (i + Z.of_nat (S (length l))) with (i + 1 + len l) by lia. unfold ret at 1. split; [exact H1|exact H2].
    + unfold ret. cbn [length]. replace (i + Z.of_nat (S (length l)) - Z.of_nat (S (length l))) with i by lia. split; [done|]. cbn [path_at]. done.
Qed.

Lemma copy_eq s bound l n i acc : path_at s i l → (length l < n)%nat → i + len l < bound →
  let '(name, rest) := up_to_slash l in
  loop n (copy_name bound) (i, acc) s = Ret (i + len l - len rest, acc ++ take (Z.to_nat NAME_MAX - length acc) name) s ∧
  path_at s (i + len l - len rest) rest.
Proof.
  revert n i acc. induction l as [|c l IH]; intros n i acc Hp Hn Hb; (destruct n as [|n]; [cbn in Hn; lia|]); rewrite loop_S; unfold copy_name at 1;
    rewrite (bind_Ret _ _ _ _ _ (char_at_eq s i)).
  - cbn in Hp. rewrite Hp. cbn [up_to_slash]. rewrite (proj2 (Z.ltb_lt i bound)) by (cbn in Hb; lia).
    change (negb (0 =? slash)) with true. change (negb (0 =? 0)) with false. cbn. rewrite Z.add_0_r, Z.sub_0_r, take_nil, app_nil_r. done.
  - destruct Hp as (Hc & H0 & Hp). rewrite Hc. cbn [up_to_slash]. cbn [length] in *. rewrite (proj2 (Z.ltb_lt i bound)) by lia.
    rewrite (proj2 (Z.eqb_neq c 0)) by done. destruct (Z.eqb_spec c slash) as [->|Hne]; cbn [andb negb].
    + unfold ret. cbn [length]. replace (i + Z.of_nat (S (length l)) - Z.of_nat (S (length l))) with i by lia.
      rewrite take_nil, app_nil_r. split; [done|]. cbn [path_at]. done.
    + set (acc' := if Z.of_nat (length acc) <? NAME_MAX then acc ++ [c] else acc). specialize (IH n (i + 1) acc' Hp).
      destruct (up_to_slash l) as [name rest]. destruct IH as [H1 H2]; [lia|lia|].
      replace (i + Z.of_nat (S (length l))) with (i + 1 + len l) by lia. unfold ret at 1. rewrite H1. split; [|done]. do 2 f_equal. unfold acc'.
      change NAME_MAX with 60. change (Z.to_nat 60) with 60%nat. destruct (Z.ltb_spec (Z.of_nat (length acc)) 60).
      * rewrite length_app. cbn [length]. destruct (60 - length acc)%nat as [|k] eqn:Hk; [lia|].
        replace (60 - (length acc + 1))%nat with k by lia. cbn [take]. by rewrite <-app_assoc.
      * replace (60 - length acc)%nat with 0%nat by lia. done.
Qed.

(** A component that does not end before the bound is cut. *)
Lemma copy_long s path k n acc : (∀ i, 0 ≤ i < PATH_MAX → user_path s (path + i) ≠ 0 ∧ user_path s (path + i) ≠ slash) →
  0 ≤ k ≤ PATH_MAX → (Z.to_nat (PATH_MAX - k) < n)%nat →
  ∃ string, loop n (copy_name (path + PATH_MAX)) (path + k, acc) s = Ret (path + PATH_MAX, string) s.
Proof.
  change PATH_MAX with 255. intros Hs. revert k acc. induction n as [|n IH]; intros k acc Hk Hn; [lia|].
  rewrite loop_S. unfold copy_name at 1. rewrite (bind_Ret _ _ _ _ _ (char_at_eq s (path + k))).
  destruct (Z.ltb_spec (path + k) (path + 255)) as [Hlt|Hge]; cbn [andb].
  - destruct (Hs k) as [H0 H1]; [lia|]. rewrite (proj2 (Z.eqb_neq _ _) H0), (proj2 (Z.eqb_neq _ _) H1). cbn [andb negb].
    unfold ret at 1. rewrite <-Z.add_assoc. apply IH; lia.
  - replace (path + k) with (path + 255) by lia. by eexists.
Qed.

(** ** The property *)

(** [get_name] takes the first component off a path: without leading slashes, cut at
    NAME_MAX characters, and the rest begins at the next component, so that repeated and
    trailing slashes make no difference; nothing else changes.  A component that goes on for
    PATH_MAX characters gives ENAMETOOLONG. *)
Theorem get_name_splits s path :
  (∀ l, path_at s path l → len l < PATH_MAX →
     let '(name, rest) := split_path l in
     get_name path s = Ret (Some (path + len l - len rest), name) s ∧ path_at s (path + len l - len rest) rest) ∧
  ((∀ i, 0 ≤ i < PATH_MAX → user_path s (path + i) ≠ 0 ∧ user_path s (path + i) ≠ slash) →
     ∃ string, get_name path s = Ret (None, string) (s.[err_code := ENAMETOOLONG])).
Proof.
  split; [intros l|intros Hlong].
  2: { destruct (Hlong 0) as [H0 H1]; [done|]. rewrite Z.add_0_r in H0, H1.
    assert (Hskip : loop path_fuel (skip_slashes None) path s = Ret path s).
    { unfold path_fuel. rewrite loop_S. unfold skip_slashes. rewrite (bind_Ret _ _ _ _ _ (char_at_eq s path)).
      by rewrite (proj2 (Z.eqb_neq _ _) H1). }
    destruct (copy_long s path 0 path_fuel [] Hlong) as [string Hcopy]; [by split|unfold path_fuel; change PATH_MAX with 255; lia|].
    rewrite Z.add_0_r in Hcopy. exists string. unfold get_name. rewrite (bind_Ret _ _ _ _ _ Hskip), (bind_Ret _ _ _ _ _ Hcopy). cbv beta iota.
    rewrite (bind_Ret _ _ s (path + PATH_MAX) s).
    - rewrite (proj2 (Z.leb_le _ _)) by lia. done.
    - unfold path_fuel. rewrite loop_S. unfold skip_slashes. rewrite (bind_Ret _ _ _ _ _ (char_at_eq s _)).
      rewrite Z.ltb_irrefl, andb_false_r. done. }
  intros Hp Hl. change PATH_MAX with 255 in Hl. unfold split_path. pose proof (drop_slashes_length l) as Hd.
  destruct (skip_eq s None l path_fuel path Hp) as [H1 Hp1]; [unfold path_fuel; lia|done|].
  pose proof (copy_eq s (path + PATH_MAX) (drop_slashes l) path_fuel (path + len l - len (drop_slashes l)) [] Hp1) as H2.
  pose proof (up_to_slash_length (drop_slashes l)) as Hu. destruct (up_to_slash (drop_slashes l)) as [name rest]. cbn [fst snd] in Hu.
  change PATH_MAX with 255 in *. destruct H2 as [H2 Hp2]; [unfold path_fuel; lia|lia|].
  replace (path + len l - len (drop_slashes l) + len (drop_slashes l) - len rest) with (path + len l - len rest) in * by lia.
  destruct (skip_eq s (Some (path + 255)) rest path_fuel _ Hp2) as [H3 Hp3]; [unfold path_fuel; lia|lia|].
  pose proof (drop_slashes_length rest) as Hd2.
  replace (path + len l - len rest + len rest - len (drop_slashes rest)) with (path + len l - len (drop_slashes rest)) in * by lia.
  split; [|done]. unfold get_name. change PATH_MAX with 255. rewrite (bind_Ret _ _ _ _ _ H1), (bind_Ret _ _ _ _ _ H2). cbv beta iota.
  rewrite (bind_Ret _ _ _ _ _ H3). rewrite (proj2 (Z.leb_gt _ _)) by lia. cbn [app length]. by rewrite Nat.sub_0_r.
Qed.

(** ** A concrete path: "/usr//ast" *)
Definition demo_path : list Z := [47; 117; 115; 114; 47; 47; 97; 115; 116].
Definition demo_named : fsstate :=
  demo_fs.[user_path := λ i, match aget demo_path i with Some c => c | None => 0 end].

Lemma get_name_splits_witness : ∃ rest, get_name 0 demo_named = Ret (Some 6, [117; 115; 114]) demo_named ∧
  path_at demo_named 6 rest ∧ rest = [97; 115; 116].
Proof.
  destruct (proj1 (get_name_splits demo_named 0) demo_path) as [H1 H2].
  - cbn. repeat split; done.
  - reflexivity.
  - exists [97; 115; 116]. split; [exact H1|]. split; [exact H2|reflexivity].
Defined.

(** ** Directories *)

(** A search for the first index with a property. *)
Lemma find_zrange (f : Z → bool) a b :
  match find f (zrange a b) with
  | Some j => a ≤ j < b ∧ f j = true ∧ ∀ i, a ≤ i < j → f i = false
  | None => ∀ i, a ≤ i < b → f i = false
  end.
Proof.
  destruct (Z.le_gt_cases b a) as [Hle|Hlt]; [rewrite zrange_nil by done; cbn; intros; lia|].
  remember (Z.to_nat (b - a)) as n eqn:Hn. revert a Hlt Hn. induction n as [|n IH]; intros a Hlt Hn; [lia|].
  rewrite zrange_cons by done. cbn [find]. destruct (f a) eqn:Ha; [split; [lia|split; [done|intros; lia]]|].
  destruct (Z.le_gt_cases b (a + 1)) as [Hle|Hlt'].
  { rewrite zrange_nil by done. cbn. intros i Hi. by replace i with a by lia. }
  specialize (IH (a + 1) Hlt' ltac:(lia)). destruct (find f (zrange (a + 1) b)) as [j|].
  - destruct IH as (H1 & H2 & H3). split; [lia|]. split; [done|]. intros i Hi. destruct (decide (i = a)) as [->|]; [done|]. apply H3. lia.
  - intros i Hi. destruct (decide (i = a)) as [->|]; [done|]. apply IH. lia.
Qed.
Lemma find_zrange_eq (f : Z → bool) a b j : a ≤ j < b → f j = true → (∀ i, a ≤ i < j → f i = false) → find f (zrange a b) = Some j.
Proof.
  intros Hj Hf Hno. pose proof (find_zrange f a b) as H. destruct (find f (zrange a b)) as [k|].
  - destruct H as (H1 & H2 & H3). f_equal. destruct (Z.lt_trichotomy k j) as [Hlt|[->|Hlt]]; [|done|].
    + rewrite Hno in H2 by lia. done.
    + rewrite H3 in Hf by lia. done.
  - rewrite H in Hf by lia. done.
Qed.
Lemma find_zrange_none (f : Z → bool) a b : (∀ i, a ≤ i < b → f i = false) → find f (zrange a b) = None.
Proof.
  intros Hno. pose proof (find_zrange f a b) as H. destruct (find f (zrange a b)) as [k|]; [|done].
  destruct H as (H1 & H2 & _). by rewrite Hno in H2.
Qed.

Lemma entry_match_ext flag name x y o : (∀ i, o ≤ i < o + DIR_ENTRY_SIZE → x i = y i) → entry_match flag name x o = entry_match flag name y o.
Proof.
  change DIR_ENTRY_SIZE with 64. intros H. unfold entry_match, entry_name. rewrite (get32_same x y) by (intros; apply H; lia).
  rewrite (map_ext_in _ (λ k, y (o + 4 + k))); [done|]. intros k Hk%list_elem_of_In%elem_of_zrange. change NAME_MAX with 60 in Hk. apply H. lia.
Qed.

Section dir.
Context (v : contents) (sp : super_block) (ip : inode).

(** Entry [j] of a directory: the contents of its block, and its place there. *)
Definition per_block : Z := NR_DIR_ENTRIES (s_block_size sp).
Definition dir_block (k : Z) : Z := default NO_BLOCK (file_block v sp ip (k * s_block_size sp)).
Definition dir_data (j : Z) : Z → Z := v (s_dev sp) (dir_block (j / per_block)).
Definition dir_offset (j : Z) : Z := j mod per_block * DIR_ENTRY_SIZE.
Definition dir_find (flag : Z) (name : list Z) : option Z :=
  find (λ j, entry_match flag name (dir_data j) (dir_offset j)) (zrange 0 (i_size ip / DIR_ENTRY_SIZE)).
Definition dir_number (j : Z) : Z := u32 (conv4 (s_native sp) (s32 (get32 (dir_data j) (dir_offset j)))).

(** What LOOK_UP and IS_EMPTY answer. *)
Definition dir_answer (flag : Z) (name : list Z) (numb : Z) : Z * Z :=
  match dir_find flag name with
  | Some j => if flag =? IS_EMPTY then (ENOTEMPTY, numb) else (OK, dir_number j)
  | None => (if flag =? IS_EMPTY then OK else ENOENT, numb)
  end.
End dir.

(** A directory without holes, whose blocks hold whole entries. *)
Record dir_ok (v : contents) (sp : super_block) (ip : inode) : Prop := {
  dk_file : file_ok sp ip;
  dk_block : 1024 ≤ s_block_size sp ∧ s_block_size sp mod DIR_ENTRY_SIZE = 0;
  dk_size : 0 ≤ i_size ip ∧ i_size ip + s_block_size sp < 2 ^ 32;
  dk_limit : i_size ip / s_block_size sp / 2 ^ s_log_zone_size sp < i_ndzones ip + s_nindirs sp + s_nindirs sp * s_nindirs sp;
  dk_blocks k : 0 ≤ k → k * s_block_size sp < i_size ip → ∃ b, file_block v sp ip (k * s_block_size sp) = Some b ∧ b ≠ NO_BLOCK }.

Section search.
Context (geom : Z → option geometry) (Hgeom : geom_ok geom).
Context (task_io : Z → dev_req → Z → disks → dev_reply) (Hworks : works geom task_io).
Context (sp : super_block) (Hfs : fs_ok geom sp) (f i : Z) (ip : inode).
Context (v : contents) (name : list Z) (numb flag : Z) (Hflag : flag = LOOK_UP ∨ flag = IS_EMPTY).

#[local] Abbreviation refines := (refines geom).
#[local] Abbreviation dev := (s_dev sp).
#[local] Abbreviation bs := (s_block_size sp).
#[local] Abbreviation epb := (per_block sp).

(** The search of one block, with [base] entries before it. *)
Lemma scan_entries s b blkno x base old dp n :
  super_at s dev i sp → inodes s !! f = Some ip → i_sp ip = Some i →
  holds s b dev blkno x → refines s v → 0 ≤ dp ≤ epb → 0 ≤ base → base + epb < 2 ^ 32 → (Z.to_nat (epb - dp) < n)%nat →
  twp (loop n (scan_entry task_io (Some f) (Some b) name numb flag epb old) (dp, base + dp)) (λ e s',
    match find (λ d, entry_match flag name x (d * DIR_ENTRY_SIZE)) (zrange dp (Z.min epb (old - base))) with
    | Some d => refines s' v ∧ released s s' b ∧
        e = (if flag =? IS_EMPTY then Found ENOTEMPTY numb else Found OK (u32 (conv4 (s_native sp) (s32 (get32 x (d * DIR_ENTRY_SIZE))))))
    | None => s' = s ∧ ∃ slots, e = Over slots ∧ (base + epb ≤ old → slots = base + epb)
    end) s.
Proof.
  intros Hsp Hf Hisp Hh Hr Hdp Hbase Hmax. revert dp Hdp. induction n as [|n IH]; intros dp Hdp Hn; [lia|].
  pose proof Hh as (r & Hb & _ & _ & _ & Hdata). cbn [loop]. apply twp_bind. unfold scan_entry at 1.
  destruct (Z.leb_spec epb dp) as [Hend|Hlt].
  { apply twp_ret, twp_ret. rewrite zrange_nil by lia. cbn [find]. split; [done|]. eexists. split; [done|]. intros _. f_equal. lia. }
  cbv zeta. rewrite u32_id by lia. destruct (Z.ltb_spec old (base + dp + 1)) as [Hold|Hold].
  { apply twp_ret. replace (flag =? ENTER) with false by (by destruct Hflag as [->| ->]). apply twp_ret.
    rewrite zrange_nil by lia. cbn [find]. split; [done|]. eexists. split; [done|]. lia. }
  rewrite zrange_cons by lia. cbn [find]. apply twp_bind. eapply twp_intro; [unfold getb; by rewrite Hb|]. cbv beta. rewrite Hdata.
  destruct (entry_match flag name x (dp * DIR_ENTRY_SIZE)).
  - apply twp_bind. unfold found. apply twp_bind. eapply twp_intro; [unfold getb; by rewrite Hb|]. cbv beta.
    apply twp_bind. pose proof Hsp as (_ & _ & Hi & _).
    eapply twp_intro with (a := if flag =? IS_EMPTY then (ENOTEMPTY, numb) else (OK, u32 (conv4 (s_native sp) (s32 (get32 x (dp * DIR_ENTRY_SIZE)))))) (s' := s).
    { destruct Hflag as [->| ->]; [|done]. change (LOOK_UP =? IS_EMPTY) with false. change (LOOK_UP =? DELETE) with false. cbv iota.
      rewrite (bind_Ret _ _ s ip s) by (unfold geti; by rewrite Hf). rewrite Hisp. rewrite (bind_Ret _ _ s sp s) by (unfold getsp; by rewrite Hi).
      by rewrite Hdata. }
    assert (Hput : twp (put_block task_io (Some b) DIRECTORY_BLOCK) (λ _ s', refines s' v ∧ released s s' b) s)
      by (by eapply (put_refines geom task_io Hgeom Hworks)).
    destruct (flag =? IS_EMPTY); apply twp_bind; (eapply twp_mono; [exact Hput|]); intros [] s' [H1 H2]; apply twp_ret, twp_ret, twp_ret; done.
  - replace (flag =? ENTER) with false by (by destruct Hflag as [->| ->]). cbn [andb]. apply twp_ret.
    replace (base + dp + 1) with (base + (dp + 1)) by lia. apply IH; lia.
Qed.

Context (Hdir : dir_ok v sp ip).

Lemma epb_eq : epb * DIR_ENTRY_SIZE = bs ∧ 16 ≤ epb.
Proof.
  destruct (dk_block _ _ _ Hdir) as [H1 H2]. unfold per_block, NR_DIR_ENTRIES. pose proof (Z.div_mod bs DIR_ENTRY_SIZE).
  change DIR_ENTRY_SIZE with 64 in *. split; [lia|]. apply Z.div_le_lower_bound; lia.
Qed.

#[local] Abbreviation old := (i_size ip / DIR_ENTRY_SIZE).
#[local] Abbreviation hit := (λ j, entry_match flag name (dir_data v sp ip j) (dir_offset sp j)).

(** The entries of block [k]. *)
Lemma entry_place k d : 0 ≤ d < epb → (k * epb + d) / epb = k ∧ (k * epb + d) mod epb = d.
Proof.
  intros Hd. split; symmetry; [apply Z.div_unique with d; lia|apply Z.mod_unique with k; lia].
Qed.
Lemma hit_place k d x : 0 ≤ d < epb → (∀ o, 0 ≤ o < bs → x o = v dev (dir_block v sp ip k) o) →
  hit (k * epb + d) = entry_match flag name x (d * DIR_ENTRY_SIZE).
Proof.
  intros Hd Hx. destruct (entry_place k d Hd) as [H1 H2], epb_eq as [H3 H4]. unfold dir_data, dir_offset. rewrite H1, H2.
  symmetry. apply entry_match_ext. intros o Ho. apply Hx. change DIR_ENTRY_SIZE with 64 in *. nia.
Qed.
Lemma number_place k d x : 0 ≤ d < epb → (∀ o, 0 ≤ o < bs → x o = v dev (dir_block v sp ip k) o) →
  dir_number v sp ip (k * epb + d) = u32 (conv4 (s_native sp) (s32 (get32 x (d * DIR_ENTRY_SIZE)))).
Proof.
  intros Hd Hx. destruct (entry_place k d Hd) as [H1 H2], epb_eq as [H3 H4]. unfold dir_number, dir_data, dir_offset. rewrite H1, H2.
  do 3 f_equal. apply get32_same. intros o Ho. symmetry. apply Hx. change DIR_ENTRY_SIZE with 64 in *. nia.
Qed.

(** Before the round for the block [k] at [pos]. *)
Definition scanned (s0 : fsstate) (st : Z * Z) (s : fsstate) : Prop := ∃ k,
  0 ≤ k ∧ st.1 = k * bs ∧ (k - 1) * bs < i_size ip ∧ (st.1 < i_size ip → st.2 = k * epb) ∧ unchanged geom v s0 s ∧
  ∀ j, 0 ≤ j < k * epb → j < old → hit j = false.

Definition search_over (s0 : fsstate) (e : scan_end) (s : fsstate) : Prop :=
  unchanged geom v s0 s ∧
  match dir_find v sp ip flag name with
  | Some j => e = (if flag =? IS_EMPTY then Found ENOTEMPTY numb else Found OK (dir_number v sp ip j))
  | None => ∃ slots, e = Over slots
  end.

(** What a directory of [old] whole entries has room for. *)
Lemma old_eq : old * DIR_ENTRY_SIZE ≤ i_size ip < (old + 1) * DIR_ENTRY_SIZE.
Proof.
  change DIR_ENTRY_SIZE with 64. pose proof (Z.div_mod (i_size ip) 64). pose proof (Z.mod_pos_bound (i_size ip) 64). lia.
Qed.

(** The block [k], into a buffer. *)
Lemma fetch_block s k (Q : option Z → fsstate → Prop) :
  super_at s dev i sp → inodes s !! f = Some ip → i_sp ip = Some i → refines s v → ready s → 0 ≤ k → k * bs < i_size ip →
  (∀ s' bb x b, refines s' v → rest s' = rest s → (∃ s1, unchanged geom v s s1 ∧ used s1 s' bb) → holds s' bb dev b x →
     (∀ o, 0 ≤ o < bs → x o = v dev (dir_block v sp ip k) o) → Q (Some bb) s') →
  twp (let* b := read_map task_io (Some f) (k * bs) in get_block task_io (i_dev ip) b NORMAL) Q s.
Proof.
  intros Hsp Hf Hisp Hr Hready Hk Hlt HQ. destruct (dk_size _ _ _ Hdir) as [Hs0 Hs32]. destruct (dk_block _ _ _ Hdir) as [Hbs _].
  destruct (dk_blocks _ _ _ Hdir k Hk Hlt) as (b & Hfb & Hnb).
  assert (Hlim : k * bs / bs / 2 ^ s_log_zone_size sp < i_ndzones ip + s_nindirs sp + s_nindirs sp * s_nindirs sp).
  { eapply Z.le_lt_trans; [|apply (dk_limit _ _ _ Hdir)]. apply Z.div_le_mono; [apply Z.pow_pos_nonneg; [lia|apply (fo_scale _ _ Hfs)]|].
    apply Z.div_le_mono; lia. }
  pose proof (read_map_runs geom Hgeom task_io Hworks sp Hfs s v i f ip (k * bs) Hsp Hf Hisp (dk_file _ _ _ Hdir) Hr Hready
    ltac:(nia) Hbs Hlim) as Hmap. rewrite Hfb in Hmap. cbn [runs] in Hmap.
  apply twp_bind. eapply twp_mono; [exact Hmap|]. intros b' s1 (-> & Hs1). pose proof Hs1 as (Hr1 & Hrest1 & Hcnt1).
  rewrite (fi_dev _ _ (dk_file _ _ _ Hdir)).
  destruct (file_block_range v sp ip _ _ (fo_scale _ _ Hfs) (dk_file _ _ _ Hdir) Hfb) as [->|Hrange]; [done|].
  destruct (fo_geom _ _ Hfs) as (g & Hg & Hgs & Hgb).
  assert (Hw : within geom dev b).
  { exists g. split; [done|]. pose proof (fo_first _ _ Hfs). pose proof (Z.pow_pos_nonneg 2 (s_log_zone_size sp) ltac:(lia) (fo_scale _ _ Hfs)). nia. }
  eapply twp_mono; [apply (get_refines geom task_io Hgeom Hworks s1 v dev b Hr1); [by eapply ready_same|exact Hw]|].
  intros p s2 (bb & x & -> & Hr2 & Hh & Hx & Hused). apply (HQ s2 bb x b); [done| |by exists s1|done|].
  - transitivity (rest s1); [apply Hused|done].
  - intros o Ho. unfold dir_block. rewrite Hfb. apply Hx. exists g. rewrite Hgs. destruct Hw as (g' & Hg' & Hn). assert (g' = g) as -> by congruence. done.
Qed.

Lemma twp_bind2 {A B C} (m : F A) (k : A → F B) (h : B → F C) Q s :
  twp (bind m k) (λ b s', twp (h b) Q s') s → twp (bind m (λ a, bind (k a) h)) Q s.
Proof. intros H%twp_bind. revert H. unfold twp. by rewrite bind_assoc. Qed.

(** From the state [s] of a round to its end. *)
Lemma round_unchanged s0 s s1 s2 s3 bb :
  unchanged geom v s0 s → unchanged geom v s s1 → used s1 s2 bb → is_Some (bufs s2 !! bb) → refines s2 v →
  released s2 s3 bb → refines s3 v → unchanged geom v s0 s3.
Proof.
  intros H0 H1 Hused Hb Hr2 Hrel Hr3. eapply unchanged_trans; [exact H0|]. eapply unchanged_trans; [exact H1|]. split; [done|].
  eapply (use_cycle geom s1 s2 s2 s3); [apply H1|done..| |apply Hr2|done]. done.
Qed.

Lemma scan_round s0 st s :
  super_at s0 dev i sp → inodes s0 !! f = Some ip → i_sp ip = Some i → ready s0 → scanned s0 st s →
  twp (scan_dir task_io (Some f) name numb flag old st) (λ r s', match r with
    | inl st' => scanned s0 st' s' ∧ st'.1 = st.1 + bs ∧ st.1 < i_size ip
    | inr e => search_over s0 e s' end) s.
Proof.
  intros Hsp0 Hf0 Hisp Hready0 (k & Hk & Hpos & Hprev & Hslots & Hu & Hno). pose proof Hu as (Hr & Hrest & Hcnt).
  destruct st as [pos slots]. cbn [fst snd] in *. subst pos. destruct epb_eq as [Hepb H16]. destruct (dk_size _ _ _ Hdir) as [Hs0 Hs32].
  pose proof old_eq as Hold. change DIR_ENTRY_SIZE with 64 in Hold, Hepb.
  assert (Hsp : super_at s dev i sp) by by eapply super_rest.
  assert (Hf : inodes s !! f = Some ip) by (pose proof (f_equal inodes Hrest) as H; cbn in H; by rewrite H).
  unfold scan_dir. apply twp_bind. eapply twp_intro; [unfold geti; by rewrite Hf|]. cbv beta.
  destruct (Z.leb_spec (i_size ip) (k * bs)) as [Hend|Hlt].
  { apply twp_ret. split; [done|]. unfold dir_find. rewrite find_zrange_none; [by eexists|]. intros j Hj. apply Hno; [|lia]. change DIR_ENTRY_SIZE with 64 in Hj. nia. }
  rewrite (Hslots Hlt), Hisp. pose proof Hsp as (_ & _ & Hi & _).
  apply twp_bind. eapply twp_intro; [unfold getsp; by rewrite Hi|]. cbv beta.
  apply twp_bind2. apply (fetch_block s k); [done|done|done|done|by eapply ready_same|done|done|].
  intros s2 bb x b Hr2 Hrest2' (s1 & Hs1 & Hused) Hh Hx. assert (Hrest2 : rest s2 = rest s0) by congruence.
  apply twp_bind. change (NR_DIR_ENTRIES bs) with epb. rewrite <-(Z.add_0_r (k * epb)) at 1.
  assert (Hsome : is_Some (bufs s2 !! bb)) by (destruct Hh as (rb & Hb & _); by eexists).
  eapply twp_mono; [apply (scan_entries s2 bb b x (k * epb) old 0); [by eapply super_rest| |done|exact Hh|done|lia|nia|nia|lia]|].
  { pose proof (f_equal inodes Hrest2) as H. cbn in H. by rewrite H. }
  intros e s3 He. pose proof (find_zrange (λ d, entry_match flag name x (d * DIR_ENTRY_SIZE)) 0 (Z.min epb (old - k * epb))) as Hfind.
  destruct (find _ _) as [d|].
  - destruct Hfind as (Hd & Hm & Hbefore), He as (Hr3 & Hrel & ->).
    assert (Hans : search_over s0 (if flag =? IS_EMPTY then Found ENOTEMPTY numb else Found OK (u32 (conv4 (s_native sp) (s32 (get32 x (d * DIR_ENTRY_SIZE)))))) s3).
    { split; [by eapply (round_unchanged s0 s s1 s2 s3 bb)|]. unfold dir_find. rewrite (find_zrange_eq _ _ _ (k * epb + d)).
      - rewrite (number_place k d x) by (done || lia). done.
      - nia.
      - rewrite (hit_place k d x) by (done || lia). done.
      - intros j Hj. destruct (Z.lt_ge_cases j (k * epb)); [apply Hno; lia|]. replace j with (k * epb + (j - k * epb)) by lia.
        rewrite (hit_place k (j - k * epb) x) by (done || lia). apply Hbefore. lia. }
    destruct (flag =? IS_EMPTY); apply twp_ret; exact Hans.
  - destruct He as (-> & slots' & -> & Hs'). apply twp_bind.
    eapply twp_mono; [by eapply (put_refines geom task_io Hgeom Hworks s2)|]. intros [] s4 [Hr4 Hrel]. apply twp_ret. cbn [fst].
    assert (Hk64 : k * epb * 64 = k * bs) by (rewrite <-Hepb; ring).
    rewrite u32_id by lia. split; [|split; [done|exact Hlt]]. exists (k + 1). cbn [fst snd].
    assert (Hnext : unchanged geom v s0 s4) by (eapply (round_unchanged s0 s s1 s2 s4 bb); done).
    split; [lia|]. split; [ring|]. split; [replace (k + 1 - 1) with k by lia; exact Hlt|].
    split; [intros Hlt'; rewrite Hs'; [ring|change DIR_ENTRY_SIZE with 64; lia]|]. split; [exact Hnext|].
    intros j Hj Hjo. destruct (Z.lt_ge_cases j (k * epb)); [apply Hno; lia|]. replace j with (k * epb + (j - k * epb)) by lia.
    rewrite (hit_place k (j - k * epb) x) by (done || lia). apply Hfind. lia.
Qed.

(** All blocks of the directory. *)
Lemma scan_all s0 :
  super_at s0 dev i sp → inodes s0 !! f = Some ip → i_sp ip = Some i → refines s0 v → ready s0 →
  twp (loop (Datatypes.S (Datatypes.S (Z.to_nat (i_size ip / bs)))) (scan_dir task_io (Some f) name numb flag old) (0, 0))
      (search_over s0) s0.
Proof.
  intros Hsp Hf Hisp Hr Hready. destruct (dk_size _ _ _ Hdir) as [Hs0 _]. destruct (dk_block _ _ _ Hdir) as [Hbs _].
  pose proof (Z.div_mod (i_size ip) bs ltac:(lia)) as Hdm. pose proof (Z.mod_pos_bound (i_size ip) bs ltac:(lia)) as Hm.
  assert (Hq : 0 ≤ i_size ip / bs) by (apply Z.div_pos; lia).
  apply (twp_loop_measure (scanned s0) (λ st, Z.to_nat (i_size ip / bs + 1 - st.1 / bs))).
  - cbn [fst]. rewrite Z.div_0_l by lia. lia.
  - exists 0. cbn [fst snd]. split_and!; [lia|ring|lia|intros _; ring|done..|lia].
  - intros st s Hst. eapply twp_mono; [by apply (scan_round s0)|]. intros [st'|e] s' H; [|done]. destruct H as (H1 & H2 & Hlt).
    split; [done|]. destruct Hst as (k & Hk & Hpos & _). rewrite H2, Hpos. replace (k * bs + bs) with ((k + 1) * bs) by ring.
    rewrite !Z.div_mul by lia. assert (k ≤ i_size ip / bs) by (apply Z.div_le_lower_bound; lia). lia.
Qed.
End search.

(** Who may search a directory that nothing is mounted on. *)
Definition granted (s : fsstate) (fpr : fproc) (ip : inode) (string : component) (flag : Z) : bool :=
  (flag =? IS_EMPTY) ||
  match string with
  | Name _ =>
      let access := call_nr s =? ACCESS in
      let perm := perm_bits (i_mode ip) (i_uid ip) (i_gid ip) (if access then fp_realuid fpr else fp_effuid fpr)
                    (if access then fp_realgid fpr else fp_effgid fpr) in
      Z.lor perm X_BIT =? perm
  | _ => true
  end.

Lemma forbidden_granted task_io s f ip fpr l :
  inodes s !! f = Some ip → i_mount ip ≠ I_MOUNT → fprocs s !! fp s = Some fpr →
  forbidden task_io (Some f) X_BIT s = Ret (if granted s fpr ip (Name l) LOOK_UP then OK else EACCES) s.
Proof.
  intros Hf Hm Hp. unfold forbidden. rewrite (bind_Ret _ _ s ip s) by (unfold geti; by rewrite Hf).
  rewrite (bind_Ret _ _ s s s) by done. rewrite (proj2 (Z.eqb_neq _ _) Hm).
  rewrite (bind_Ret _ _ s (Some f) s) by done. rewrite (bind_Ret _ _ s ip s) by (unfold geti; by rewrite Hf).
  rewrite (bind_Ret _ _ s s s) by done. rewrite (bind_Ret _ _ s fpr s) by (unfold getfp; by rewrite Hp).
  cbv zeta. unfold granted. change (LOOK_UP =? IS_EMPTY) with false. cbn [orb]. cbv zeta.
  destruct (opt_eqb_spec (Some f) (Some f)) as [_|]; [|done].
  generalize (perm_bits (i_mode ip) (i_uid ip) (i_gid ip) (if call_nr s =? ACCESS then fp_realuid fpr else fp_effuid fpr)
    (if call_nr s =? ACCESS then fp_realgid fpr else fp_effgid fpr)). intros perm.
  by destruct (Z.lor perm X_BIT =? perm).
Qed.

(** ** The property *)

(** C38. Looking a name up: [search_dir] refuses an inode that is no directory (ENOTDIR) and a
    caller without search permission (EACCES); otherwise it answers for the first entry of
    the directory, over all its blocks, whose name is the one it is given: its inode number
    in the byte order of the file system, or ENOENT when there is none.  For IS_EMPTY, which
    needs no permission, it answers ENOTEMPTY when some entry is neither [.] nor [..].  What disk and cache
    hold stays the same, no table changes, and every buffer is put back. *)
Theorem search_dir_finds geom task_io s v sp i f ip fpr string numb flag :
  geom_ok geom → works geom task_io → fs_ok geom sp → dir_ok v sp ip → refines geom s v → ready s →
  super_at s (s_dev sp) i sp → inodes s !! f = Some ip → i_sp ip = Some i → i_mount ip ≠ I_MOUNT →
  fprocs s !! fp s = Some fpr → flag = LOOK_UP ∨ flag = IS_EMPTY →
  ∃ s', search_dir task_io (Some f) string numb flag s = Ret (
      if negb (Z.land (i_mode ip) I_TYPE =? I_DIRECTORY) then (ENOTDIR, numb)
      else if granted s fpr ip string flag then dir_answer v sp ip flag (chars string) numb
      else (EACCES, numb)) s' ∧
    refines geom s' v ∧ rest s' = rest s ∧ same_counts s s'.
Proof.
  intros Hg Hw Hfs Hd Hr Hready Hsp Hf Hisp Hm Hp Hflag. unfold search_dir.
  rewrite (bind_Ret _ _ s ip s) by (unfold geti; by rewrite Hf). destruct (_ =? I_DIRECTORY); cbn [negb]; [|by exists s].
  rewrite (bind_Ret _ _ s (if granted s fpr ip string flag then OK else EACCES) s).
  2:{ destruct Hflag as [->| ->]; [|done]. destruct string; [done..|]. change (LOOK_UP =? IS_EMPTY) with false.
      change (LOOK_UP =? LOOK_UP) with true. cbv iota zeta. by apply forbidden_granted. }
  destruct (granted _ _ _ _ _); [|by exists s]. change (negb (OK =? OK)) with false. cbv iota.
  rewrite (bind_Ret _ _ s ip s) by (unfold geti; by rewrite Hf). pose proof Hsp as (_ & _ & Hi & _).
  rewrite Hisp, (bind_Ret _ _ s sp s) by (unfold getsp; by rewrite Hi). cbv zeta.
  destruct (twp_inv _ _ _ (scan_all geom Hg task_io Hw sp Hfs f i ip v (chars string) numb flag Hflag Hd s Hsp Hf Hisp Hr Hready))
    as (e & s' & Hrun & Hu & Hans).
  rewrite (bind_Ret _ _ s e s' Hrun). exists s'. split; [|exact Hu]. unfold dir_answer.
  destruct (dir_find _ _ _ _ _) as [j|].
  - rewrite Hans. by destruct (flag =? IS_EMPTY).
  - destruct Hans as [slots ->]. by destruct Hflag as [->| ->].
Qed.

(** ** A concrete directory, of two blocks, in which entry 3 is found, and a name that is not there. *)
Definition demo_dir : inode :=
  Inode 0x41FF 1 0 0 1100 0 0 0 [10; 12; 0; 0; 0; 0; 0; 0; 0; 0] demo_dev 6 1 7 256 (Some 0) CLEAN NO_PIPE 0 0 0.
Definition demo_dir_open : fsstate := demo_pool.[inodes := {[4 := demo_dir]}].
Definition demo_name : component := Name (map (λ k, 203 + k) (zrange 0 53)).

Lemma demo_dir_refines : refines demo_geom demo_dir_open demo_view.
Proof.
  destruct demo_refines as [[He Hd Hch] Hv]. split; [split; [|done|by apply (chains_same demo_pool)]|done].
  intros d g Hg. exact (He d g Hg).
Qed.

Lemma demo_dir_ok : dir_ok demo_view demo_sp demo_dir.
Proof.
  split; [split; [done..|]; by repeat constructor|done|done|done|].
  intros k Hk Hlt. cbn in Hlt. assert (k = 0 ∨ k = 1) as [-> | ->] by lia; [exists 10|exists 12]; split; by vm_compute.
Qed.

Lemma demo_answers :
  dir_answer demo_view demo_sp demo_dir LOOK_UP (chars demo_name) 0 = (OK, 3402221767) ∧
  dir_answer demo_view demo_sp demo_dir LOOK_UP (chars (Name [97; 98])) 0 = (ENOENT, 0) ∧
  dir_answer demo_view demo_sp demo_dir IS_EMPTY (chars Dot1) 0 = (ENOTEMPTY, 0).
Proof. by vm_compute. Qed.
Lemma demo_granted : granted demo_dir_open (demo_fproc 7) demo_dir demo_name LOOK_UP = true ∧
  granted demo_dir_open (demo_fproc 7) demo_dir (Name [97; 98]) LOOK_UP = true ∧
  granted demo_dir_open (demo_fproc 7) demo_dir Dot1 IS_EMPTY = true.
Proof. by vm_compute. Qed.
Lemma demo_is_dir : (Z.land (i_mode demo_dir) I_TYPE =? I_DIRECTORY) = true.
Proof. done. Qed.

Lemma search_dir_finds_witness :
  (∃ s', search_dir demo_io (Some 4) demo_name 0 LOOK_UP demo_dir_open = Ret (OK, 3402221767) s') ∧
  (∃ s', search_dir demo_io (Some 4) (Name [97; 98]) 0 LOOK_UP demo_dir_open = Ret (ENOENT, 0) s') ∧
  (∃ s', search_dir demo_io (Some 4) Dot1 0 IS_EMPTY demo_dir_open = Ret (ENOTEMPTY, 0) s').
Proof.
  pose proof (λ string flag, search_dir_finds demo_geom demo_io demo_dir_open demo_view demo_sp 0 4 demo_dir (demo_fproc 7) string 0 flag
    demo_geom_ok (demo_works _) demo_fs_ok demo_dir_ok demo_dir_refines demo_ready demo_super eq_refl eq_refl ltac:(done) eq_refl) as H.
  rewrite demo_is_dir in H. destruct demo_granted as (G1 & G2 & G3), demo_answers as (A1 & A2 & A3). split; [|split].
  - destruct (H demo_name LOOK_UP (or_introl eq_refl)) as (s' & Hrun & _). rewrite G1, A1 in Hrun. exists s'. exact Hrun.
  - destruct (H (Name [97; 98]) LOOK_UP (or_introl eq_refl)) as (s' & Hrun & _). rewrite G2 in Hrun. rewrite A2 in Hrun. exists s'. exact Hrun.
  - destruct (H Dot1 IS_EMPTY (or_intror eq_refl)) as (s' & Hrun & _). rewrite G3, A3 in Hrun. exists s'. exact Hrun.
Defined.
