(* ===== verification/FsSelect.v ===== *)
(** * The file system server: descriptors, suspended processes and [select]

    [src/servers/fs]: [filedes.c], the timers of [timers.c], [select.c], and the suspension
    and revival of processes of [pipe.c].  Arguments of the model: the drivers [task_io] and
    the calls of the kernel ([sys_calls]), by the number of requests made before.  A reply
    that is sent is recorded in [replies], a signal or an alarm that is asked for in [kcalls]. *)
From stdpp Require Import base gmap list numbers strings.
From Stdlib Require Import ZArith Lia.
From S2P Require Import Prelude.
From S2P Require Import Timers.
From S2P Require Import KTypes.
From S2P Require Import KProc.
From S2P Require Import FsTypes.
From S2P Require Import FsCache.
From S2P Require Import FsMap.
From S2P Require Import FsInode.
From S2P Require Import FsPath.

(** ** Constants *)
Definition NR_LOCKS : Z := 8.
Definition NR_DEVICES : Z := 32.
Definition DMAP_BABY : Z := 4.
Definition FILP_CLOSED : Z := 0.
Definition NOT_SUSPENDED : Z := 0.
Definition REVIVING : Z := 1.
Definition NOT_REVIVING : Z := 0.
Definition XSELECT : Z := - NR_TASKS - 4.
Definition DUP_MASK : Z := 64.
Definition FP_EXITING : Z := 1.
Definition LAST_DIR_EATSYM : Z := PATH_NONSYMBOLIC.
Definition DEV_OPEN : Z := DEV_RQ_BASE + 6.
Definition DEV_CLOSE : Z := DEV_RQ_BASE + 7.
Definition SEL_RD : Z := 1.
Definition SEL_WR : Z := 2.
Definition FD_SETSIZE : Z := OPEN_MAX.
Definition MAXSELECTS : Z := 25.
Definition SEL_ERR : Z := 4.
Definition SEL_NOTIFY : Z := 8.
Definition SEL_OK : Z := 0.
Definition DEV_SELECT : Z := DEV_RQ_BASE + 12.
Definition TTY_MAJOR : Z := 4.
Definition INET_MAJOR : Z := 7.
Definition LOG_MAJOR : Z := 15.
Definition USECPERSEC : Z := 1000000.
Definition SIGPIPE : Z := 13.
Definition EPIPE : Z := -32.
Definition MAX_FILE_POS : Z := 0xFFFFFFFF.
Definition M3_STRING : Z := 14.
Definition ALL_MODES : Z := 0xDFF.
Definition RWX_MODES : Z := 0x1FF.

Definition READ : Z := 3.
Definition WRITE : Z := 4.
Definition OPEN : Z := 5.
Definition CREAT : Z := 8.
Definition SETUID : Z := 23.
Definition SETGID : Z := 46.

Definition O_ACCMODE : Z := 3.
Definition O_CREAT : Z := 0x40.
Definition O_EXCL : Z := 0x80.
Definition O_NOCTTY : Z := 0x100.
Definition O_TRUNC : Z := 0x200.
Definition O_APPEND : Z := 0x400.
Definition O_WRONLY : Z := 1.
Definition O_RDONLY : Z := 0.
Definition F_DUPFD : Z := 0.
Definition F_GETFD : Z := 1.
Definition F_SETFD : Z := 2.
Definition F_GETFL : Z := 3.
Definition F_SETFL : Z := 4.
Definition F_GETLK : Z := 5.
Definition F_SETLK : Z := 6.
Definition F_SETLKW : Z := 7.
Definition F_FREESP : Z := 8.
Definition FD_CLOEXEC : Z := 1.
Definition F_RDLCK : Z := 1.
Definition F_WRLCK : Z := 2.
Definition F_UNLCK : Z := 3.
Definition SEEK_SET : Z := 0.
Definition SEEK_CUR : Z := 1.
Definition SEEK_END : Z := 2.

Definition EBADF : Z := -9.
Definition EEXIST : Z := -17.
Definition ENODEV : Z := -19.
Definition EISDIR : Z := -21.
Definition EMFILE : Z := -24.
Definition ESPIPE : Z := -29.
Definition EMLINK : Z := -31.
Definition ENOLCK : Z := -37.
Definition EGENERIC : Z := -99.

(** The words of messages ([param.h]). *)
Abbreviation m1_p2 := m_w4 (only parsing).
Abbreviation m2_i1 := m_w0 (only parsing).
Abbreviation m2_i2 := m_w1 (only parsing).
Abbreviation m2_l1 := m_w3 (only parsing).
Abbreviation m3_i1 := m_w0 (only parsing).
Abbreviation m3_i2 := m_w1 (only parsing).
Abbreviation m3_p1 := m_w2 (only parsing).
Definition set_fd (i : Z) : F unit := modify (λ s, s.[m_in := (m_in s).[m_w0 := i]]).
Definition who_e (s : fsstate) : Z := m_source (m_in s).

Definition word (n : nat) (z : Z) : list Z := map (λ i, Z.land (Z.shiftr z (8 * Z.of_nat i)) 255) (seq 0 n).

(** ** The table of locks *)
Definition getlock (i : Z) : F file_lock := λ s,
  match file_locks s !! i with Some r => Ret r s | None => Crash end.
Definition putlock (i : Z) (f : file_lock → file_lock) : F unit := λ s,
  match file_locks s !! i with
  | Some r => Ret tt (s.[file_locks := <[i := f r]> (file_locks s)])
  | None => Crash
  end.

(** ** [filedes.c] *)

(** [fp->fp_filp[i]]. *)
Definition filp_at (r : fproc) (i : Z) : option (option Z) := aget (fp_filp r) i.
Definition fd_unused (r : fproc) (i : Z) : bool :=
  match filp_at r i with Some None => negb (Z.testbit (fp_filp_inuse r) i) | _ => false end.

(** The result, the descriptor or -1, and the slot. *)
Definition get_fd (start bits : Z) : F (Z * Z * option Z) :=
  let* s := get in
  let* r := getfp (fp s) in
  match find (fd_unused r) (zrange start OPEN_MAX) with
  | None => ret (EMFILE, -1, None)
  | Some k =>
      match find_slot (λ f, filp_count f =? 0) (filps s) NR_FILPS with
      | Some f =>
          putf (Some f) (λ f, f.[filp_mode := bits].[filp_pos := 0].[filp_selectors := 0].[filp_select_ops := 0]
            .[filp_pipe_select_ops := 0].[filp_flags := 0]);;;
          ret (OK, k, Some f)
      | None => ret (ENFILE, k, None)
      end
  end.

Definition get_filp (fild : Z) : F (option Z) :=
  set_err EBADF;;;
  if (fild <? 0) || (OPEN_MAX <=? fild) then ret None
  else
    let* s := get in
    let* r := getfp (fp s) in
    of_option (filp_at r fild).

Definition find_filp (rip : option Z) (bits : Z) : F (option Z) :=
  let* s := get in
  ret (find_slot (λ f, negb (filp_count f =? 0) && (opt_eqb (filp_ino f) rip && band (filp_mode f) bits)) (filps s) NR_FILPS).

(** The number of descriptors that pointed to the slot. *)
Definition drop_filp (f : Z) (r : fproc) : fproc :=
  if fp_pid r =? PID_FREE then r
  else r.[fp_filp := (λ p, if opt_eqb p (Some f) then None else p) <$> fp_filp r].
Definition inval_filp (f : Z) : F unit := modify (λ s, s.[fprocs := drop_filp f <$> fprocs s]).

(** [fp->fp_filp[i] = p] with the bit of [fp_filp_inuse]. *)
Definition set_filp (i : Z) (p : option Z) : F unit :=
  let* s := get in
  let* r := getfp (fp s) in
  let* l := of_option (aset (fp_filp r) i p) in
  putfp (fp s) (λ r, r.[fp_filp := l]).
Definition FD_SET (i : Z) : F unit :=
  let* s := get in putfp (fp s) (λ r, r.[fp_filp_inuse := Z.lor (fp_filp_inuse r) (Z.shiftl 1 i)]).
Definition FD_CLR (i : Z) : F unit :=
  let* s := get in putfp (fp s) (λ r, r.[fp_filp_inuse := bclr (fp_filp_inuse r) (Z.shiftl 1 i)]).

(** ** Suspended processes ([pipe.c]) *)
Definition reply (whom result : Z) : F unit :=
  modify (λ s, s.[m_out := (m_out s).[m_type := result]].[replies := (whom, result) :: replies s]).

Definition revive (proc_nr_e returned : Z) : F unit :=
  let* ok := fs_isokendpt proc_nr_e in
  if negb (ok =? OK) then skip
  else
    let p := ENDPOINT_P proc_nr_e in
    let* r := getfp p in
    if (fp_suspended r =? NOT_SUSPENDED) || (fp_revived r =? REVIVING) then skip
    else
      let task := - fp_task r in
      if (task =? XPIPE) || (task =? XLOCK) then
        putfp p (λ r, r.[fp_revived := REVIVING]);;;
        modify (λ s, s.[reviving := reviving s + 1])
      else
        putfp p (λ r, r.[fp_suspended := NOT_SUSPENDED]);;;
        if task =? XPOPEN then reply proc_nr_e (Z.shiftr (fp_fd r) 8)
        else if task =? XSELECT then reply proc_nr_e returned
        else
          putfp p (λ r, r.[fp_nbytes := returned]);;;
          reply proc_nr_e returned.

(** [isokendpt_f] that panics. *)
Definition okendpt (e : Z) : F Z :=
  let* ok := fs_isokendpt e in
  if ok =? OK then ret (ENDPOINT_P e) else panic.

Definition lock_revive : F unit :=
  for_list (zrange (INIT_PROC_NR + 1) NR_PROCS) (λ p,
    let* r := getfp p in
    when (negb (fp_pid r =? PID_FREE) && ((fp_suspended r =? SUSPENDED) && (- fp_task r =? XLOCK)))
      (revive (fp_endpoint r) 0)).

(** The device of a special file. *)
Definition special_dev (ip : inode) : F Z := let* z := of_option (aget (i_zone ip) 0) in ret (s16 z).

(** ** Calls of the kernel

    By the number of the request: what a copy from a process brings, how a copy to a process
    ends, the uptime, and how the setting of an alarm ends. *)
Record sys_calls := SysCalls {
  usercopy : Z → Z → Z → Z → Z * list Z;
  userput : Z → Z → Z → list Z → Z;
  sys_uptime : Z → Z * Z;
  sys_setalarm : Z → Z → Z }.

(** The entries of [selecttab]. *)
Definition gete (i : Z) : F selectentry := λ s,
  match selecttab s !! i with Some r => Ret r s | None => Crash end.
Definition pute (i : Z) (f : selectentry → selectentry) : F unit := λ s,
  match selecttab s !! i with
  | Some r => Ret tt (s.[selecttab := <[i := f r]> (selecttab s)])
  | None => Crash
  end.

(** The operations that a call wants on a descriptor. *)
Definition tab2ops (fd : Z) (e : selectentry) : Z :=
  Z.lor (Z.lor (if Z.testbit (readfds e) fd then SEL_RD else 0) (if Z.testbit (writefds e) fd then SEL_WR else 0))
    (if Z.testbit (errorfds e) fd then SEL_ERR else 0).
(** Operations that are possible are noted, each once. *)
Definition ops2tab (ops fd : Z) (e : selectentry) : selectentry :=
  let e := if band ops SEL_RD && negb (vir_readfds e =? 0) && Z.testbit (readfds e) fd && negb (Z.testbit (ready_readfds e) fd)
           then e.[ready_readfds := Z.lor (ready_readfds e) (Z.shiftl 1 fd)].[nreadyfds := nreadyfds e + 1] else e in
  let e := if band ops SEL_WR && negb (vir_writefds e =? 0) && Z.testbit (writefds e) fd && negb (Z.testbit (ready_writefds e) fd)
           then e.[ready_writefds := Z.lor (ready_writefds e) (Z.shiftl 1 fd)].[nreadyfds := nreadyfds e + 1] else e in
  if band ops SEL_ERR && negb (vir_errorfds e =? 0) && Z.testbit (errorfds e) fd && negb (Z.testbit (ready_errorfds e) fd)
  then e.[ready_errorfds := Z.lor (ready_errorfds e) (Z.shiftl 1 fd)].[nreadyfds := nreadyfds e + 1] else e.

(** [filps[fd]] of an entry is the slot. *)
Definition watching (e : selectentry) (fd f : Z) : bool :=
  match aget (se_filps e) fd with Some p => opt_eqb p (Some f) | None => false end.

(** What the blocked calls still want on a slot. *)
Definition wanted_by (f : Z) (e : selectentry) : Z :=
  match requestor e with
  | None => 0
  | Some _ => fold_right (λ fd ops, if watching e fd f then Z.lor ops (tab2ops fd e) else ops) 0 (zrange 0 (nfds e))
  end.
Definition select_reevaluate (f : Z) : F Z :=
  let* s := get in
  let remain_ops := fold_right (λ i ops, match selecttab s !! i with Some e => Z.lor ops (wanted_by f e) | None => ops end) 0 (zrange 0 MAXSELECTS) in
  putf (Some f) (λ r, r.[filp_select_ops := remain_ops]);;;
  ret remain_ops.

Section select.
Context (task_io : Z → dev_req → Z → disks → dev_reply) (sys : sys_calls).

Definition next_request : F Z :=
  let* s := get in
  modify (λ s, s.[io_count := io_count s + 1]);;;
  ret (io_count s).

(** [sys_datacopy] and [sys_vircopy] from and to a process. *)
Definition copy_from (e addr n : Z) : F (Z * list Z) := let* k := next_request in ret (usercopy sys k e addr n).
Definition copy_to (e addr : Z) (l : list Z) : F Z := let* k := next_request in ret (userput sys k e addr l).

(** ** [timers.c] *)
Definition SELECT_TIMEOUT_CHECK : Z := 0.
Definition set_alarm (t : Z) : F unit :=
  let* k := next_request in
  modify (λ s, s.[kcalls := KSetAlarm t :: kcalls s]);;;
  if sys_setalarm sys k t =? OK then skip else panic.
Definition fs_set_timer (tp : tid) (ticks watchdog arg : Z) : F unit :=
  let* k := next_request in
  let '(r, now) := sys_uptime sys k in
  if negb (r =? OK) then panic
  else
    putt tp (λ t, t.[tmr_arg := Some (arg, 0)]);;;
    let* ' (old_head, new_head) := tmrs_settimer tp (s32 (now + ticks)) watchdog in
    when ((old_head =? 0) || (new_head <? old_head)) (set_alarm new_head).
Definition fs_cancel_timer (tp : tid) : F unit :=
  let* ' (old_head, new_head) := tmrs_clrtimer tp in
  when ((old_head <? new_head) || (new_head =? 0)) (set_alarm new_head).

(** ** [select.c] *)
Definition timer_of_entry (i : Z) : tid := (i, 0).

Definition cancel_fd (i fd : Z) : F unit :=
  let* e := gete i in
  let* p := of_option (aget (se_filps e) fd) in
  match p with
  | None => skip
  | Some f =>
      let* r := getf p in
      if filp_selectors r <? 1 then skip
      else
        putf p (λ r, r.[filp_selectors := filp_selectors r - 1]);;;
        let* l := of_option (aset (se_filps e) fd None) in
        pute i (λ e, e.[se_filps := l]);;;
        select_reevaluate f;;; skip
  end.
Definition select_cancel_all (i : Z) : F unit :=
  let* e := gete i in
  for_list (zrange 0 (nfds e)) (cancel_fd i);;;
  let* e := gete i in
  when (0 <? expiry e) (
    fs_cancel_timer (timer_of_entry i);;;
    pute i (λ e, e.[expiry := 0])).

Definition copy_fdsets (i : Z) : F unit :=
  let* e := gete i in
  when (negb (vir_readfds e =? 0)) (copy_to (req_endpt e) (vir_readfds e) (word 4 (ready_readfds e));;; skip);;;
  when (negb (vir_writefds e =? 0)) (copy_to (req_endpt e) (vir_writefds e) (word 4 (ready_writefds e));;; skip);;;
  when (negb (vir_errorfds e =? 0)) (copy_to (req_endpt e) (vir_errorfds e) (word 4 (ready_errorfds e));;; skip).

Definition select_return (i r : Z) : F unit :=
  select_cancel_all i;;;
  copy_fdsets i;;;
  let* e := gete i in
  revive (req_endpt e) (if r =? 0 then nreadyfds e else r);;;
  pute i (λ e, e.[requestor := None]).

(** Operations are possible on a slot: the calls that wait for them return. *)
Definition satisfied (e : selectentry) (f ops fd : Z) : bool := watching e fd f && band (tab2ops fd e) ops.
Definition callback_entry (f ops i : Z) : F unit :=
  let* e := gete i in
  match requestor e with
  | None => skip
  | Some _ =>
      pute i (λ e', fold_left (λ e' fd, if satisfied e f ops fd then ops2tab ops fd e' else e') (zrange 0 (nfds e)) e');;;
      when (existsb (satisfied e f ops) (zrange 0 (nfds e))) (select_return i 0)
  end.
Definition select_callback (f ops : Z) : F unit := for_list (zrange 0 MAXSELECTS) (callback_entry f ops).

Definition select_forget (proc_e : Z) : F unit :=
  let* s := get in
  match find_slot (λ e, match requestor e with Some _ => req_endpt e =? proc_e | None => false end) (selecttab s) MAXSELECTS with
  | None => skip
  | Some i =>
      select_cancel_all i;;;
      pute i (λ e, e.[requestor := None])
  end.

Definition select_timeout_check (tp : tid) : F unit :=
  let* t := gett tp in
  let* arg := of_option (tmr_arg t) in
  let i := arg.1 in
  if (i <? 0) || (MAXSELECTS <=? i) then skip
  else
    let* e := gete i in
    match requestor e with
    | None => skip
    | Some _ =>
        if expiry e <=? 0 then skip
        else
          pute i (λ e, e.[expiry := 0]);;;
          select_return i 0
    end.
Definition select_fuel : nat := 26.
Definition fs_expire_timers (now : Z) : F unit :=
  let* new_head := tmrs_exptimers (λ _, select_timeout_check) select_fuel now in
  when (0 <? new_head) (set_alarm new_head).

(** [dmap_driver_match] ([dmap.c]). *)
Definition dmap_driver_match (proc maj : Z) : F bool :=
  if (maj <? 0) || (NR_DEVICES <=? maj) then ret false
  else
    let* s := get in
    let* drv := of_option (dmap_driver s !! maj) in
    ret (negb (drv =? NONE) && (drv =? proc)).
Definition unsuspend_fd (proc_e i fd : Z) : F unit :=
  let* e := gete i in
  let* p := of_option (aget (se_filps e) fd) in
  match p with
  | None => skip
  | Some _ =>
      let* f := getf p in
      match filp_ino f with
      | None => skip
      | Some _ =>
          let* ip := geti (filp_ino f) in
          let* z := of_option (aget (i_zone ip) 0) in
          let* m := dmap_driver_match proc_e (major z) in
          when m (select_return i EAGAIN)
      end
  end.
Definition select_unsuspend_by_endpt (proc_e : Z) : F unit :=
  for_list (zrange 0 MAXSELECTS) (λ i,
    let* e := gete i in
    match requestor e with
    | None => skip
    | Some _ => for_list (zrange 0 (nfds e)) (unsuspend_fd proc_e i)
    end).

(** ** [pipe.c] *)

(** Is the process hanging in [call_nr] on the pipe? *)
Definition hangs_on (ip : option Z) (call_nr : Z) (r : fproc) : F bool :=
  if negb (fp_pid r =? PID_FREE) && ((fp_suspended r =? SUSPENDED) && ((fp_revived r =? NOT_REVIVING) && (Z.land (fp_fd r) 255 =? call_nr))) then
    let* p := of_option (filp_at r (Z.shiftr (fp_fd r) 8)) in
    let* f := getf p in
    ret (opt_eqb (filp_ino f) ip)
  else ret false.
Fixpoint release_procs (l : list Z) (ip : option Z) (call_nr count : Z) : F unit :=
  match l with
  | [] => skip
  | p :: l =>
      let* r := getfp p in
      let* b := hangs_on ip call_nr r in
      if b : bool then
        revive (fp_endpoint r) 0;;;
        modify (λ s, s.[susp_count := susp_count s - 1]);;;
        if count - 1 =? 0 then skip else release_procs l ip call_nr (count - 1)
      else release_procs l ip call_nr count
  end.
Definition release_select (ip : option Z) (op f : Z) : F unit :=
  let* r := getf (Some f) in
  if (filp_count r <? 1) || (negb (band (filp_pipe_select_ops r) op) || negb (opt_eqb (filp_ino r) ip)) then skip
  else
    select_callback f op;;;
    putf (Some f) (λ r, r.[filp_pipe_select_ops := bclr (filp_pipe_select_ops r) op]).
Definition release (ip : option Z) (call_nr count : Z) : F unit :=
  when ((call_nr =? READ) || (call_nr =? WRITE))
    (for_list (zrange 0 NR_FILPS) (release_select ip (if call_nr =? READ then SEL_RD else SEL_WR)));;;
  release_procs (zrange 0 NR_PROCS) ip call_nr count.

Definition unsuspend_by_endpt (proc_e : Z) : F unit :=
  for_list (zrange 0 NR_PROCS) (λ p,
    let* r := getfp p in
    when (negb (fp_pid r =? PID_FREE) && ((fp_suspended r =? SUSPENDED) && (fp_task r =? - proc_e)))
      (revive (fp_endpoint r) EAGAIN));;;
  select_unsuspend_by_endpt proc_e.

(** May a pipe be read or written now?  The result, and what is stored in [*canwrite]. *)
Definition pipe_check (rip : option Z) (rw_flag oflags bytes position : Z) (notouch : bool) : F (Z * option Z) :=
  let* ip := geti rip in
  let wake call := let* s := get in when (negb notouch) (release rip call (susp_count s)) in
  if rw_flag =? READING then
    if i_size ip <=? position then
      let* w := find_filp rip W_BIT in
      match w with
      | None => ret (0, None)
      | Some _ =>
          let* r := if band oflags O_NONBLOCK then ret EAGAIN else when (negb notouch) (suspend XPIPE);;; ret SUSPEND in
          let* s := get in
          when (0 <? susp_count s) (wake WRITE);;;
          ret (r, None)
      end
    else ret (1, Some 0)
  else
    let* p := find_filp rip R_BIT in
    match p with
    | None =>
        let* s := get in
        let* r := getfp (fp s) in
        when (negb notouch) (modify (λ s, s.[kcalls := KKill (fp_endpoint r) SIGPIPE :: kcalls s]));;;
        ret (EPIPE, None)
    | Some _ =>
        let* sp := getsp (i_sp ip) in
        let size := PIPE_SIZE (s_block_size sp) in
        let canwrite := s32 (size - position) in
        if size <? u32 (position + bytes) then
          if band oflags O_NONBLOCK && (bytes <? size) then ret (EAGAIN, None)
          else if band oflags O_NONBLOCK && (size <? bytes) then
            if 0 <? canwrite then wake READ;;; ret (1, Some canwrite)
            else ret (EAGAIN, Some canwrite)
          else if (size <? bytes) && (0 <? canwrite) then wake READ;;; ret (1, Some canwrite)
          else
            when (negb notouch) (suspend XPIPE);;;
            ret (SUSPEND, if size <? bytes then Some canwrite else None)
        else
          when (position =? 0) (wake READ);;;
          ret (1, Some 0)
    end.

(** The result of a check for select, when it is an answer. *)
Definition select_err (err : Z) : Z := if (err <? 0) && negb (err =? SUSPEND) then SEL_ERR else 0.
Definition request_read (f : filp) (ops : Z) : F Z :=
  if band ops (Z.lor SEL_RD SEL_ERR) then
    let* ' (err, _) := pipe_check (filp_ino f) READING 0 1 (filp_pos f) true in
    ret (Z.lor (if negb (err =? SUSPEND) && (0 <? err) then SEL_RD else 0) (select_err err))
  else ret 0.
Definition request_write (f : filp) (ops : Z) : F Z :=
  if band ops (Z.lor SEL_WR SEL_ERR) then
    let* ' (err, canwrite) := pipe_check (filp_ino f) WRITING 0 1 (filp_pos f) true in
    let* w :=
      if negb (err =? SUSPEND) && (0 <? err) then let* c := of_option canwrite in ret (0 <? c)
      else ret false in
    ret (Z.lor (if w : bool then SEL_WR else 0) (select_err err))
  else ret 0.
(** The result and the operations that are possible. *)
Definition select_request_pipe (p : option Z) (ops : Z) (block : bool) : F (Z * Z) :=
  let* f := getf p in
  let* r1 := request_read f ops in
  let* r2 := request_write f ops in
  let r := Z.land (Z.lor r1 r2) ops in
  when ((r =? 0) && block) (putf p (λ f, f.[filp_pipe_select_ops := Z.lor (filp_pipe_select_ops f) ops]));;;
  ret (SEL_OK, r).

(** ** The types of files ([fdtypes]) and [do_select] *)
Inductive selfd := SelFile | SelMajor (select_major : Z) | SelPipe.
Definition fdtypes : list selfd := [SelFile; SelMajor TTY_MAJOR; SelMajor INET_MAJOR; SelPipe; SelMajor LOG_MAJOR].

Definition select_match (t : selfd) (p : option Z) : F bool :=
  let* f := getf p in
  match filp_ino f with
  | None => ret false
  | Some _ =>
      let* ip := geti (filp_ino f) in
      match t with
      | SelFile => ret (band (i_mode ip) I_REGULAR)
      | SelPipe => ret (band (i_mode ip) I_NAMED_PIPE)
      | SelMajor m =>
          let* z := of_option (aget (i_zone ip) 0) in
          ret ((Z.land (i_mode ip) I_TYPE =? I_CHAR_SPECIAL) && (major z =? m))
      end
  end.
(** The last type that matches, with its number. *)
Fixpoint select_type (l : list selfd) (i : Z) (p : option Z) (type : option (Z * selfd)) : F (option (Z * selfd)) :=
  match l with
  | [] => ret type
  | t :: l =>
      let* m := select_match t p in
      select_type l (i + 1) p (if m : bool then Some (i, t) else type)
  end.

Definition select_request_general (p : option Z) (ops : Z) (block : bool) : F (Z * Z) :=
  let* f := getf p in
  let* ip := geti (filp_ino f) in
  let* dev := special_dev ip in
  let rops := if block then Z.lor ops SEL_NOTIFY else ops in
  let* ' (r, _) := dev_io task_io DEV_SELECT dev rops [] 0 0 0 in
  ret (if r <? 0 then SEL_ERR else SEL_OK, r).
Definition select_request (t : selfd) (p : option Z) (ops : Z) (block : bool) : F (Z * Z) :=
  match t with
  | SelFile => ret (SEL_OK, ops)
  | SelMajor _ => select_request_general p ops block
  | SelPipe => select_request_pipe p ops block
  end.

(** One set of descriptors: 0 when its address is 0. *)
Definition fetch_fdset (e addr : Z) : F (Z * Z) :=
  if addr =? 0 then ret (OK, 0)
  else
    let* ' (r, l) := copy_from e addr 4 in
    ret (r, get32 (λ i, nth (Z.to_nat i) l 0) 0).

(** A descriptor of the call: [Some] ends it. *)
Definition select_fd (i : Z) (block : bool) (fd : Z) : F (option Z) :=
  let* e := gete i in
  let ops := tab2ops fd e in
  if ops =? 0 then ret None
  else
    let* p := get_filp fd in
    let* l := of_option (aset (se_filps e) fd p) in
    pute i (λ e, e.[se_filps := l]);;;
    match p with
    | None => select_cancel_all i;;; ret (Some EBADF)
    | Some f =>
        let* type := select_type fdtypes 0 p None in
        match type with
        | None => ret (Some EBADF)
        | Some (n, t) =>
            let* l := of_option (aset (se_type e) fd n) in
            pute i (λ e, e.[se_type := l]);;;
            let* r := getf p in
            let* err :=
              if Z.land (filp_select_ops r) ops =? ops then ret false
              else
                let wantops := Z.lor (filp_select_ops r) ops in
                putf p (λ r, r.[filp_select_ops := wantops]);;;
                let* ' (res, wantops) := select_request t p wantops block in
                if negb (res =? SEL_OK) then select_cancel_all i;;; ret true
                else
                  when (negb (wantops =? 0)) (
                    when (band wantops ops) (pute i (ops2tab wantops fd));;;
                    select_callback f ops);;;
                  ret false in
            if err : bool then ret (Some EINVAL)
            else
              pute i (λ e, e.[nfds := fd + 1]);;;
              putf p (λ r, r.[filp_selectors := filp_selectors r + 1]);;;
              ret None
        end
    end.
Fixpoint select_fds (l : list Z) (i : Z) (block : bool) : F (option Z) :=
  match l with
  | [] => ret None
  | fd :: l =>
      let* r := select_fd i block fd in
      match r with Some r => ret (Some r) | None => select_fds l i block end
  end.

(** The words of the message ([minix/com.h]). *)
Abbreviation SEL_NFDS := m_w0 (only parsing).
Abbreviation SEL_READFDS := m_w2 (only parsing).
Abbreviation SEL_WRITEFDS := m_w3 (only parsing).
Abbreviation SEL_ERRORFDS := m_w4 (only parsing).
Abbreviation SEL_TIMEOUT := m_w5 (only parsing).

Definition timeval_ticks (sec usec : Z) : Z :=
  s32 (s32 (sec + usec ÷ USECPERSEC) * HZ + (Z.rem usec USECPERSEC * HZ + USECPERSEC - 1) ÷ USECPERSEC).

(** The result or the time limit. *)
Definition fetch_timeout (m : message) : F (Z + option (Z * Z)) :=
  if SEL_TIMEOUT m =? 0 then ret (inr None)
  else
    let* ' (r, l) := copy_from (m_source m) (SEL_TIMEOUT m) 8 in
    if negb (r =? OK) then ret (inl r)
    else
      let d i := nth (Z.to_nat i) l 0 in
      let sec := s32 (get32 d 0) in
      let usec := s32 (get32 d 4) in
      if (sec <? 0) || (usec <? 0) then ret (inl EINVAL) else ret (inr (Some (sec, usec))).

Definition do_select : F Z :=
  let* s := get in
  let m := m_in s in
  let n := SEL_NFDS m in
  if (n <? 0) || (FD_SETSIZE <? n) then ret EINVAL
  else
    match find_slot (λ e, match requestor e with None => true | Some _ => false end) (selecttab s) MAXSELECTS with
    | None => ret ENOSPC
    | Some i =>
        pute i (λ e, SelectEntry (requestor e) (who_e s) 0 0 0 0 0 0 (SEL_READFDS m) (SEL_WRITEFDS m) (SEL_ERRORFDS m)
          (replicate (Z.to_nat FD_SETSIZE) None) (se_type e) 0 0 (expiry e));;;
        let* ' (r, v) := fetch_fdset (who_e s) (SEL_READFDS m) in
        if negb (r =? OK) then ret r
        else
          pute i (λ e, e.[readfds := v]);;;
          let* ' (r, v) := fetch_fdset (who_e s) (SEL_WRITEFDS m) in
          if negb (r =? OK) then ret r
          else
            pute i (λ e, e.[writefds := v]);;;
            let* ' (r, v) := fetch_fdset (who_e s) (SEL_ERRORFDS m) in
            if negb (r =? OK) then ret r
            else
              pute i (λ e, e.[errorfds := v]);;;
              let* t := fetch_timeout m in
              match t with
              | inl r => ret r
              | inr t =>
                  let block := match t with Some (sec, usec) => (0 <? sec) || (0 <? usec) | None => true end in
                  pute i (λ e, e.[expiry := 0]);;;
                  let* r := select_fds (zrange 0 n) i block in
                  match r with
                  | Some r => ret r
                  | None =>
                      let* e := gete i in
                      if (0 <? nreadyfds e) || negb block then
                        copy_fdsets i;;;
                        select_cancel_all i;;;
                        pute i (λ e, e.[requestor := None]);;;
                        let* e := gete i in
                        ret (nreadyfds e)
                      else
                        match t with
                        | Some (sec, usec) =>
                            let ticks := timeval_ticks sec usec in
                            pute i (λ e, e.[expiry := ticks]);;;
                            fs_set_timer (timer_of_entry i) ticks SELECT_TIMEOUT_CHECK i
                        | None => skip
                        end;;;
                        let* s := get in
                        pute i (λ e, e.[requestor := Some (fp s)]);;;
                        suspend XSELECT;;;
                        ret SUSPEND
                  end
              end
    end.

(** A driver says that operations are possible on a minor device. *)
Definition notified_fd (maj min ops i f : Z) : F unit :=
  let* e := gete i in
  let* p := of_option (aget (se_filps e) f) in
  match p with
  | None => skip
  | Some k =>
      let* m := select_match (SelMajor maj) p in
      if negb m then skip
      else
        let* r := getf p in
        let* ip := geti (filp_ino r) in
        let* z := of_option (aget (i_zone ip) 0) in
        when ((minor z =? min) && band ops (tab2ops f e)) (select_callback k (Z.land ops (tab2ops f e)))
  end.
Definition select_notified (maj min selected_ops : Z) : F unit :=
  if negb (existsb (λ t, match t with SelMajor m => m =? maj | _ => false end) fdtypes) then skip
  else
    for_list (zrange 0 MAXSELECTS) (λ i,
      let* e := gete i in
      match requestor e with
      | None => skip
      | Some _ => for_list (zrange 0 (nfds e)) (notified_fd maj min selected_ops i)
      end).
End select.
