(* ===== verification/FsFd.v ===== *)
(** * The file system server: locks, devices and the calls on descriptors

    [src/servers/fs]: [lock.c], the opening and closing of devices of [device.c] and
    [dmap.c], the calls of [misc.c] and [open.c], [do_pipe] and [do_unpause]. *)
From stdpp Require Import base gmap list numbers strings.
From Stdlib Require Import ZArith Lia.
From S2P Require Import Prelude.
From S2P Require Import Timers.
From S2P Require Import KTypes.
From S2P Require Import KProc.
From S2P Require Import FsTypes.
From S2P Require Import FsCache.
From S2P Require Import FsMap.
From S2P Require Import FsInode.
From S2P Require Import FsPath.
From S2P Require Import FsSelect.

Section fd.
Context (task_io : Z → dev_req → Z → disks → dev_reply) (sys : sys_calls).
#[local] Abbreviation put_inode := (put_inode task_io).
#[local] Abbreviation rw_inode := (rw_inode task_io).
#[local] Abbreviation search_dir := (search_dir task_io).
#[local] Abbreviation copy_from := (copy_from sys).
#[local] Abbreviation copy_to := (copy_to sys).
#[local] Abbreviation release := (release sys).
#[local] Abbreviation unsuspend_by_endpt := (unsuspend_by_endpt sys).
#[local] Abbreviation select_forget := (select_forget sys).

(** ** [lock.c] *)

(** [struct flock] in the memory of a process. *)
Record flock := Flock { l_type : Z; l_whence : Z; l_start : Z; l_len : Z; l_pid : Z }.
Definition sizeof_flock : Z := 16.
Definition parse_flock (l : list Z) : flock :=
  let d i := nth (Z.to_nat i) l 0 in
  Flock (s16 (get16 d 0)) (s16 (get16 d 2)) (get32 d 4) (get32 d 8) (s32 (get32 d 12)).
Definition flock_bytes (f : flock) : list Z :=
  word 2 (l_type f) ++ word 2 (l_whence f) ++ word 4 (l_start f) ++ word 4 (l_len f) ++ word 4 (l_pid f).

(** The position that [whence] stands for. *)
Definition seek_base (whence : Z) (f : filp) (ip : inode) : option Z :=
  if whence =? SEEK_SET then Some 0
  else if whence =? SEEK_CUR then Some (filp_pos f)
  else if whence =? SEEK_END then Some (i_size ip)
  else None.

(** The first and the last byte of the region, unsigned words. *)
Definition lock_region (fl : flock) (base : Z) : option (Z * Z) :=
  let first := u32 (base + l_start fl) in
  if (0 <? s32 (l_start fl)) && (first <? base) then None
  else if (s32 (l_start fl) <? 0) && (base <? first) then None
  else
    let last := if l_len fl =? 0 then MAX_FILE_POS else u32 (first + l_len fl - 1) in
    if last <? first then None else Some (first, last).

(** Does a lock concern a request for this region? *)
Definition concerns (r : file_lock) (ino : option Z) (ltype pid first last : Z) : bool :=
  opt_eqb (lock_inode r) ino && (negb (last <? lock_first r) && negb (lock_last r <? first)) &&
  (negb ((ltype =? F_RDLCK) && (lock_type r =? F_RDLCK)) && negb (negb (ltype =? F_UNLCK) && (lock_pid r =? pid))).

(** The bytes of the region are taken out of lock [i]; a lock in the middle of which they
    are is split. *)
Definition unlock_part (i first last : Z) : F (option Z) :=
  let* r := getlock i in
  if (first <=? lock_first r) && (lock_last r <=? last) then
    putlock i (λ r, r.[lock_type := 0]);;;
    modify (λ s, s.[nr_locks := nr_locks s - 1]);;;
    ret None
  else if first <=? lock_first r then
    putlock i (λ r, r.[lock_first := u32 (last + 1)]);;;
    ret None
  else if lock_last r <=? last then
    putlock i (λ r, r.[lock_last := u32 (first - 1)]);;;
    ret None
  else
    let* s := get in
    if nr_locks s =? NR_LOCKS then ret (Some ENOLCK)
    else
      let* j := of_option (find_slot (λ r, lock_type r =? 0) (file_locks s) NR_LOCKS) in
      putlock j (λ _, r.[lock_first := u32 (last + 1)]);;;
      putlock i (λ r, r.[lock_last := u32 (first - 1)]);;;
      modify (λ s, s.[nr_locks := nr_locks s + 1]);;;
      ret None.

(** How the search for conflicts ends: with a result, at a lock that F_GETLK asks for, or
    at the end of the table, with the first slot that was seen empty and whether a lock was
    cleared. *)
Inductive lock_end := LockResult (r : Z) | LockFound (i : Z) | LockFree (empty : option Z) (unlocking : bool).

Fixpoint lock_scan (l : list Z) (ino : option Z) (req ltype first last : Z) (empty : option Z) (unlocking : bool) : F lock_end :=
  match l with
  | [] => ret (LockFree empty unlocking)
  | i :: l =>
      let* s := get in
      let* fpr := getfp (fp s) in
      let* r := getlock i in
      if lock_type r =? 0 then
        lock_scan l ino req ltype first last (match empty with None => Some i | _ => empty end) unlocking
      else if negb (concerns r ino ltype (fp_pid fpr) first last) then lock_scan l ino req ltype first last empty unlocking
      else if req =? F_GETLK then ret (LockFound i)
      else if (ltype =? F_RDLCK) || (ltype =? F_WRLCK) then
        if req =? F_SETLK then ret (LockResult EAGAIN)
        else suspend XLOCK;;; ret (LockResult SUSPEND)
      else
        let* e := unlock_part i first last in
        match e with
        | Some e => ret (LockResult e)
        | None => lock_scan l ino req ltype first last empty true
        end
  end.

(** What F_GETLK stores. *)
Definition lock_answer (i : option Z) (fl : flock) : F flock :=
  match i with
  | Some i =>
      let* r := getlock i in
      ret (Flock (lock_type r) SEEK_SET (lock_first r) (u32 (lock_last r - lock_first r + 1)) (lock_pid r))
  | None => ret (Flock F_UNLCK (l_whence fl) (l_start fl) (l_len fl) (l_pid fl))
  end.

Definition lock_checks (fl : flock) (req : Z) (f : filp) (ip : inode) : Z :=
  let ltype := l_type fl in
  if negb (ltype =? F_UNLCK) && (negb (ltype =? F_RDLCK) && negb (ltype =? F_WRLCK)) then EINVAL
  else if (req =? F_GETLK) && (ltype =? F_UNLCK) then EINVAL
  else if negb (Z.land (i_mode ip) I_TYPE =? I_REGULAR) then EINVAL
  else if negb (req =? F_GETLK) && ((ltype =? F_RDLCK) && negb (band (filp_mode f) R_BIT)) then EBADF
  else if negb (req =? F_GETLK) && ((ltype =? F_WRLCK) && negb (band (filp_mode f) W_BIT)) then EBADF
  else OK.

Definition lock_op (p : option Z) (req : Z) : F Z :=
  let* s := get in
  let user_flock := m1_p1 (m_in s) in
  let* ' (r, bytes) := copy_from (who_e s) user_flock sizeof_flock in
  if negb (r =? OK) then ret EINVAL
  else
    let fl := parse_flock bytes in
    let* f := getf p in
    let* ip := geti (filp_ino f) in
    let r := lock_checks fl req f ip in
    if negb (r =? OK) then ret r
    else
      match seek_base (l_whence fl) f ip ≫= lock_region fl with
      | None => ret EINVAL
      | Some (first, last) =>
          let* e := lock_scan (zrange 0 NR_LOCKS) (filp_ino f) req (l_type fl) first last None false in
          let answer i :=
            let* fl := lock_answer i fl in
            copy_to (who_e s) user_flock (flock_bytes fl) in
          match e with
          | LockResult r => ret r
          | LockFound i => answer (Some i)
          | LockFree empty unlocking =>
              when unlocking lock_revive;;;
              if req =? F_GETLK then answer None
              else if l_type fl =? F_UNLCK then ret OK
              else
                match empty with
                | None => ret ENOLCK
                | Some i =>
                    let* fpr := getfp (fp s) in
                    putlock i (λ _, FileLock (l_type fl) (fp_pid fpr) (filp_ino f) first last);;;
                    modify (λ s, s.[nr_locks := nr_locks s + 1]);;;
                    ret OK
                end
          end
      end.

(** ** Devices ([device.c], [dmap.c]) *)
Definition driver_of (dev : Z) : F Z := let* s := get in of_option (dmap_driver s !! major dev).
Definition opcl_req (op dev proc_e flags : Z) : dev_req := DevReq op (minor dev) 0 proc_e flags 0 [].

(** A driver is there and its endpoint is right. *)
Definition driver_ok (drv : Z) : F bool :=
  if drv =? NONE then ret false
  else let* ok := fs_isokendpt drv in ret (ok =? OK).

Definition gen_opcl (op dev proc_e flags : Z) : F Z :=
  let* drv := driver_of dev in
  let* ok := driver_ok drv in
  if negb ok then ret ENXIO
  else let* ' (status, _) := call_task task_io drv (opcl_req op dev proc_e flags) in ret status.

Definition tty_opcl (op dev proc_e flags : Z) : F Z :=
  let* s := get in
  let* r := getfp (fp s) in
  let taken p := match fprocs s !! p with Some q => negb (fp_pid q =? PID_FREE) && (fp_tty q =? dev) | None => false end in
  let noctty := negb (fp_sesldr r) || negb (fp_tty r =? 0) || existsb taken (zrange 0 NR_PROCS) in
  let* r := gen_opcl op dev proc_e (if noctty then Z.lor flags O_NOCTTY else flags) in
  if r =? 1 then
    let* s := get in
    putfp (fp s) (λ r, r.[fp_tty := dev]);;;
    ret OK
  else ret r.

Definition ctty_opcl : F Z :=
  let* s := get in
  let* r := getfp (fp s) in
  ret (if fp_tty r =? 0 then ENXIO else OK).

(** A driver that answers an open with a new minor number has its device replaced by a new
    inode for it; [undo] closes the device when there is no inode. *)
Definition clone_call (undo : Z → F unit) (op dev proc_e flags : Z) : F Z :=
  let* drv := driver_of dev in
  let* ok := driver_ok drv in
  if negb ok then ret ENXIO
  else
    let* ' (status, _) := call_task task_io drv (opcl_req op dev proc_e flags) in
    let* drv := driver_of dev in
    if drv =? NONE then ret status
    else if (op =? DEV_OPEN) && (0 <=? status) then
      if status =? minor dev then ret OK
      else
        let dev := s16 (Z.lor (bclr dev 255) status) in
        let* s := get in
        let* ip := alloc_inode task_io (root_dev s) (Z.lor ALL_MODES I_CHAR_SPECIAL) in
        match ip with
        | None => undo dev;;; let* s := get in ret (err_code s)
        | Some _ =>
            set_zone ip 0 (u32 dev);;;
            let* s := get in
            let* r := getfp (fp s) in
            let* p := of_option (filp_at r (m1_i1 (m_in s))) in
            let* f := getf p in
            put_inode (filp_ino f);;;
            putf p (λ f, f.[filp_ino := ip]);;;
            ret OK
        end
    else ret status.
Definition clone_opcl (op dev proc_e flags : Z) : F Z :=
  clone_call (λ dev, clone_call (λ _, skip) DEV_CLOSE dev proc_e 0;;; skip) op dev proc_e flags.

Definition call_opcl (o : opcl) (op dev proc_e flags : Z) : F Z :=
  match o with
  | GenOpcl => gen_opcl op dev proc_e flags
  | TtyOpcl => tty_opcl op dev proc_e flags
  | CttyOpcl => ctty_opcl
  | CloneOpcl => clone_opcl op dev proc_e flags
  | NoDev => ret ENODEV
  end.

Definition dev_open (dev proc flags : Z) : F Z :=
  let maj := if NR_DEVICES <=? major dev then 0 else major dev in
  let* s := get in
  let* drv := of_option (dmap_driver s !! maj) in
  if drv =? NONE then ret ENXIO
  else
    let* o := of_option (dmap_opcl s !! maj) in
    let* r := call_opcl o DEV_OPEN dev proc flags in
    if r =? SUSPEND then panic else ret r.

(** The first test takes the whole of [dev >> MAJOR] for the index. *)
Definition dev_close (dev : Z) : F unit :=
  let* s := get in
  let* drv := of_option (dmap_driver s !! Z.shiftr dev 8) in
  if drv =? NONE then skip
  else
    let* o := of_option (dmap_opcl s !! major dev) in
    call_opcl o DEV_CLOSE dev 0 0;;; skip.


(** [dmap_io]: the driver itself, or for /dev/tty that of the controlling terminal. *)
Definition dmap_io (dev drv : Z) (req : dev_req) : F unit :=
  let* s := get in
  let* o := of_option (dmap_opcl s !! major dev) in
  match o with
  | NoDev => skip
  | CttyOpcl =>
      let* r := getfp (fp s) in
      if fp_tty r =? 0 then skip
      else
        let* drv := driver_of (fp_tty r) in
        let* ok := driver_ok drv in
        if negb ok then skip
        else
          call_task task_io drv (DevReq (dq_type req) (minor (fp_tty r)) (dq_position req) (dq_endpt req) (dq_count req) (dq_flags req) (dq_iov req));;;
          skip
  | _ => call_task task_io drv req;;; skip
  end.

(** A mounted device or an open special file of a driver that has come up is opened
    again; when that fails its descriptors become invalid.  [i_mode] is compared with
    two types that share bits with those of directories and links. *)
Definition reopen_super (maj : Z) (p : Z) : F unit :=
  let* sp := getsp (Some p) in
  if (s_dev sp =? NO_DEV) || negb (major (s_dev sp) =? maj) then skip
  else dev_open (s_dev sp) FS_PROC_NR (if s_rd_only sp then R_BIT else Z.lor R_BIT W_BIT);;; skip.
Definition reopen_filp (maj : Z) (f : Z) : F unit :=
  let* r := getf (Some f) in
  match filp_ino r with
  | Some i =>
      if filp_count r <? 1 then skip
      else
        let* ip := geti (Some i) in
        let* dev := of_option (aget (i_zone ip) 0) in
        if negb (major dev =? maj) || negb (band (i_mode ip) (Z.lor I_BLOCK_SPECIAL I_CHAR_SPECIAL)) then skip
        else
          let* res := dev_open (s16 dev) FS_PROC_NR (Z.land (i_mode ip) (Z.lor R_BIT W_BIT)) in
          if res =? OK then skip
          else
            inval_filp f;;;
            putf (Some f) (λ r, r.[filp_count := 0])
  | None => skip
  end.
Definition dev_up (maj : Z) : F unit :=
  for_list (zrange 0 NR_SUPERS) (reopen_super maj);;;
  for_list (zrange 0 NR_FILPS) (reopen_filp maj).

Definition dmap_endpt_up (proc_e : Z) : F unit :=
  for_list (zrange 0 NR_DEVICES) (λ i,
    let* s := get in
    let* drv := of_option (dmap_driver s !! i) in
    let* flags := of_option (dmap_flags s !! i) in
    when (negb (drv =? NONE) && ((drv =? proc_e) && band flags DMAP_BABY)) (
      modify (λ s, s.[dmap_flags := <[i := bclr flags DMAP_BABY]> (dmap_flags s)]);;;
      dev_up i)).

Definition do_setsid : F Z :=
  let* s := get in
  if negb (who_e s =? PM_PROC_NR) then ret ENOSYS
  else
    let* slot := okendpt (m1_i1 (m_in s)) in
    putfp slot (λ r, r.[fp_sesldr := true].[fp_tty := 0]);;;
    ret OK.

Definition do_unpause : F Z :=
  let* s := get in
  if negb (who_e s =? PM_PROC_NR) then ret EPERM
  else
    let proc_nr_e := m1_i1 (m_in s) in
    let* p := okendpt proc_nr_e in
    let* r := getfp p in
    if fp_suspended r =? NOT_SUSPENDED then ret OK
    else
      let task := - fp_task r in
      (if (task =? XPIPE) || (task =? XLOCK) || (task =? XPOPEN) then skip
       else if task =? XSELECT then select_forget proc_nr_e
       else
         let fild := Z.land (Z.shiftr (fp_fd r) 8) 255 in
         if OPEN_MAX <=? fild then panic
         else
           let* q := of_option (filp_at r fild) in
           let* f := getf q in
           let* ip := geti (filp_ino f) in
           let* dev := special_dev ip in
           modify (λ s, s.[fp := p]);;;
           dmap_io dev task (DevReq CANCEL (minor dev) 0 proc_nr_e (if Z.land (fp_fd r) 255 =? READ then R_BIT else W_BIT) 0 []));;;
      putfp p (λ r, r.[fp_suspended := NOT_SUSPENDED]);;;
      reply proc_nr_e EINTR;;;
      ret OK.

(** ** Closing ([misc.c], [open.c]) *)
Definition sync_inode (i : Z) : F unit :=
  let* r := geti (Some i) in
  when ((0 <? i_count r) && (i_dirt r =? DIRTY)) (rw_inode (Some i) WRITING).
Definition sync_buf (b : Z) : F unit :=
  let* r := getb (Some b) in
  when (negb (b_dev r =? NO_DEV) && (b_dirt r =? DIRTY)) (flushall task_io (b_dev r)).
Definition do_sync : F Z :=
  for_list (zrange 0 NR_INODES) sync_inode;;;
  for_list (zrange 0 NR_BUFS) sync_buf;;;
  ret OK.

(** The last user of a special file closes the device. *)
Definition close_special (f : filp) (ip : inode) : F unit :=
  let mode_word := Z.land (i_mode ip) I_TYPE in
  if (filp_count f - 1 =? 0) && (negb (filp_mode f =? FILP_CLOSED) && ((mode_word =? I_CHAR_SPECIAL) || (mode_word =? I_BLOCK_SPECIAL))) then
    let* dev := special_dev ip in
    (if mode_word =? I_BLOCK_SPECIAL then
       let* m := mounted (filp_ino f) in
       if m : bool then skip
       else do_sync;;; invalidate dev
     else skip);;;
    dev_close dev
  else skip.

(** The locks of a process on a file. *)
Definition drop_lock (rip : option Z) (pid i : Z) : F unit :=
  let* r := getlock i in
  if lock_type r =? 0 then skip
  else if opt_eqb (lock_inode r) rip && (lock_pid r =? pid) then
    putlock i (λ r, r.[lock_type := 0]);;;
    modify (λ s, s.[nr_locks := nr_locks s - 1])
  else skip.

Definition do_close : F Z :=
  let* s := get in
  let fd := m1_i1 (m_in s) in
  let* p := get_filp fd in
  match p with
  | None => let* s := get in ret (err_code s)
  | Some _ =>
      let* f := getf p in
      let rip := filp_ino f in
      let* ip := geti rip in
      close_special f ip;;;
      let* ip := geti rip in
      when (i_pipe ip =? I_PIPE) (release rip (if band (filp_mode f) R_BIT then WRITE else READ) NR_PROCS);;;
      putf p (λ f, f.[filp_count := filp_count f - 1]);;;
      let* f := getf p in
      when (filp_count f =? 0) (
        let* ip := geti rip in
        when ((i_pipe ip =? I_PIPE) && (1 <? i_count ip))
          (set_zone rip (if filp_mode f =? R_BIT then V2_NR_DZONES else V2_NR_DZONES + 1) (filp_pos f));;;
        put_inode rip);;;
      let* s := get in
      putfp (FsTypes.fp s) (λ r, r.[fp_cloexec := bclr (fp_cloexec r) (Z.shiftl 1 fd)]);;;
      set_filp fd None;;;
      FD_CLR fd;;;
      let* s := get in
      if nr_locks s =? 0 then ret OK
      else
        let lock_count := nr_locks s in
        let* r := getfp (FsTypes.fp s) in
        for_list (zrange 0 NR_LOCKS) (drop_lock rip (fp_pid r));;;
        let* s := get in
        when (nr_locks s <? lock_count) lock_revive;;;
        ret OK
  end.

(** ** Duplicates and their flags ([misc.c]) *)
Definition incr_filp (p : option Z) : F unit := putf p (λ f, f.[filp_count := filp_count f + 1]).

Definition do_dup : F Z :=
  let* s := get in
  let m := m_in s in
  let rfd := bclr (m1_i1 m) DUP_MASK in
  let* p := get_filp rfd in
  match p with
  | None => let* s := get in ret (err_code s)
  | Some _ =>
      let* early :=
        if m1_i1 m =? rfd then
          let* ' (r, k, _) := get_fd 0 0 in
          modify (λ s, s.[m_in := (m_in s).[m_w1 := k]]);;;
          ret (if r =? OK then None else Some r)
        else if (m1_i2 m <? 0) || (OPEN_MAX <=? m1_i2 m) then ret (Some EBADF)
        else if rfd =? m1_i2 m then ret (Some (m1_i2 m))
        else
          set_fd (m1_i2 m);;;
          do_close;;;
          ret None in
      match early with
      | Some r => ret r
      | None =>
          incr_filp p;;;
          let* s := get in
          let fd2 := m1_i2 (m_in s) in
          set_filp fd2 p;;;
          FD_SET fd2;;;
          ret fd2
      end
  end.

(** F_FREESP: the part of a file that is freed, [None] for an error. *)
Definition free_range (fl : flock) (f : filp) (ip : inode) : option (Z * option Z) :=
  let offset := s32 (l_start fl) in
  if (l_whence fl =? SEEK_SET) && (offset <? 0) then None
  else
    base ← seek_base (l_whence fl) f ip;
    let start := u32 (base + offset) in
    if (0 <? offset) && (start <? base) then None
    else if (offset <? 0) && (base <? start) then None
    else if l_len fl =? 0 then Some (start, None)
    else
      let end_ := u32 (start + l_len fl) in
      if end_ <=? start then None else Some (start, Some end_).
Definition fcntl_freesp (p : option Z) : F Z :=
  let* f := getf p in
  let* ip := geti (filp_ino f) in
  if negb (Z.land (i_mode ip) I_TYPE =? I_REGULAR) then ret EINVAL
  else
    let* s := get in
    let* ' (r, bytes) := copy_from (who_e s) (m1_p1 (m_in s)) sizeof_flock in
    if negb (r =? OK) then ret r
    else
      match free_range (parse_flock bytes) f ip with
      | None => ret EINVAL
      | Some (start, Some end_) => freesp_inode task_io (filp_ino f) start end_
      | Some (start, None) => truncate_inode task_io (filp_ino f) start
      end.

Definition do_fcntl : F Z :=
  let* s := get in
  let m := m_in s in
  let fd := m1_i1 m in
  let request := m1_i2 m in
  let addr := m1_i3 m in
  let* p := get_filp fd in
  match p with
  | None => let* s := get in ret (err_code s)
  | Some _ =>
      let* f := getf p in
      let* r := getfp (FsTypes.fp s) in
      if request =? F_DUPFD then
        if (addr <? 0) || (OPEN_MAX <=? addr) then ret EINVAL
        else
          let* ' (r, new_fd, _) := get_fd addr 0 in
          if negb (r =? OK) then ret r
          else
            incr_filp p;;;
            set_filp new_fd p;;;
            ret new_fd
      else if request =? F_GETFD then ret (if Z.testbit (fp_cloexec r) fd then FD_CLOEXEC else 0)
      else if request =? F_SETFD then
        putfp (FsTypes.fp s) (λ r, r.[fp_cloexec := Z.lor (bclr (fp_cloexec r) (Z.shiftl 1 fd))
                                         (if band addr FD_CLOEXEC then Z.shiftl 1 fd else 0)]);;;
        ret OK
      else if request =? F_GETFL then ret (Z.land (filp_flags f) (Z.lor (Z.lor O_NONBLOCK O_APPEND) O_ACCMODE))
      else if request =? F_SETFL then
        let fl := Z.lor O_NONBLOCK O_APPEND in
        putf p (λ f, f.[filp_flags := Z.lor (bclr (filp_flags f) fl) (Z.land addr fl)]);;;
        ret OK
      else if (request =? F_GETLK) || (request =? F_SETLK) || (request =? F_SETLKW) then lock_op p request
      else if request =? F_FREESP then fcntl_freesp p
      else ret EINVAL
  end.

(** ** Processes ([misc.c]) *)
Definition from_pm (s : fsstate) : bool := (who_e s =? PM_PROC_NR) || (who_e s =? VMM_PROC_NR).

Definition do_fork : F Z :=
  let* s := get in
  let m := m_in s in
  if negb (from_pm s) then ret EGENERIC
  else
    let* parentno := okendpt (m1_i1 m) in
    let childno := ENDPOINT_P (m1_i2 m) in
    if (childno <? 0) || (NR_PROCS <=? childno) then panic
    else
      let* c := getfp childno in
      if negb (fp_pid c =? PID_FREE) then panic
      else
        let* parent := getfp parentno in
        putfp childno (λ _, parent);;;
        for_list (fp_filp parent) (λ p, match p with Some _ => incr_filp p | None => skip end);;;
        putfp childno (λ r, r.[fp_pid := m1_i3 m].[fp_endpoint := m1_i2 m].[fp_sesldr := false].[fp_execced := false]);;;
        dup_inode (fp_rootdir parent);;;
        dup_inode (fp_workdir parent);;;
        ret OK.

Definition close_fd (i : Z) : F unit := set_fd i;;; do_close;;; skip.

Definition do_exec : F Z :=
  let* s := get in
  if negb (from_pm s) then ret EGENERIC
  else
    let* proc := okendpt (m1_i1 (m_in s)) in
    modify (λ s, s.[fp := proc]);;;
    let* r := getfp proc in
    let bitmap := fp_cloexec r in
    when (negb (bitmap =? 0))
      (for_list (zrange 0 OPEN_MAX) (λ i, set_fd i;;; when (Z.testbit bitmap i) (do_close;;; skip)));;;
    putfp proc (λ r, r.[fp_execced := true]);;;
    reply (who_e s) OK;;;
    let* r := getfp proc in
    dmap_endpt_up (fp_endpoint r);;;
    ret SUSPEND.

(** The controlling terminal of a session leader is taken from a process; its open files
    on the terminal are closed. *)
Definition revoke_filp (dev : Z) (p : option Z) : F unit :=
  match p with
  | None => skip
  | Some _ =>
      let* f := getf p in
      if filp_mode f =? FILP_CLOSED then skip
      else
        let* ip := geti (filp_ino f) in
        if negb (Z.land (i_mode ip) I_TYPE =? I_CHAR_SPECIAL) then skip
        else
          let* d := special_dev ip in
          if negb (d =? dev) then skip
          else
            dev_close dev;;;
            putf p (λ f, f.[filp_mode := FILP_CLOSED])
  end.
Definition revoke_tty (dev p : Z) : F unit :=
  let* r := getfp p in
  if fp_pid r =? PID_FREE then skip
  else
    when (fp_tty r =? dev) (putfp p (λ r, r.[fp_tty := 0]));;;
    for_list (fp_filp r) (revoke_filp dev).

Definition release_dirs (exiter : Z) : F unit :=
  let* r := getfp exiter in
  put_inode (fp_rootdir r);;;
  put_inode (fp_workdir r);;;
  putfp exiter (λ r, r.[fp_rootdir := None].[fp_workdir := None]).

Definition free_proc (exiter : Z) (flags : Z) : F Z :=
  modify (λ s, s.[fp := exiter]);;;
  let* r := getfp exiter in
  when (fp_suspended r =? SUSPENDED) (
    let task := - fp_task r in
    when ((task =? XPIPE) || (task =? XPOPEN)) (modify (λ s, s.[susp_count := susp_count s - 1]));;;
    set_fd (fp_endpoint r);;;
    do_unpause;;;
    putfp exiter (λ r, r.[fp_suspended := NOT_SUSPENDED]));;;
  for_list (zrange 0 OPEN_MAX) close_fd;;;
  release_dirs exiter;;;
  let* r := getfp exiter in
  unsuspend_by_endpt (fp_endpoint r);;;
  if negb (band flags FP_EXITING) then ret OK
  else
    dmap_unmap_by_endpt (fp_endpoint r);;;
    putfp exiter (λ r, r.[fp_endpoint := NONE]);;;
    let* r := getfp exiter in
    when (fp_sesldr r && negb (fp_tty r =? 0)) (for_list (zrange 0 NR_PROCS) (revoke_tty (fp_tty r)));;;
    putfp exiter (λ r, r.[fp_pid := PID_FREE]);;;
    ret OK.

Definition do_exit : F Z :=
  let* s := get in
  if negb (who_e s =? PM_PROC_NR) then ret EGENERIC
  else
    let* exitee := okendpt (m1_i1 (m_in s)) in
    free_proc exitee FP_EXITING.

Definition do_set : F Z :=
  let* s := get in
  let m := m_in s in
  if negb (who_e s =? PM_PROC_NR) then ret EGENERIC
  else
    let* proc := okendpt (m1_i1 m) in
    when (call_nr s =? SETUID) (putfp proc (λ r, r.[fp_realuid := s16 (m1_i2 m)].[fp_effuid := s16 (m1_i3 m)]));;;
    when (call_nr s =? SETGID) (putfp proc (λ r, r.[fp_effgid := s8 (m1_i3 m)].[fp_realgid := s8 (m1_i2 m)]));;;
    ret OK.

Definition do_revive : F Z :=
  let* s := get in
  revive (m2_i1 (m_in s)) (m2_i2 (m_in s));;;
  ret SUSPEND.

(** ** Opening ([open.c], [pipe.c]) *)

(** A path in the message itself starts in the fourth word. *)
Definition message_chars (m : message) : list Z := word 4 (m_w3 m) ++ word 4 (m_w4 m) ++ word 4 (m_w5 m) ++ word 4 (m_w6 m).
Definition store_path (len : Z) (l : list Z) : F unit := modify (λ s,
  s.[user_path := λ i, if (0 <=? i) && (i <? len) then nth (Z.to_nat i) l 0 else user_path s i]).
Definition fetch_name (path len : Z) (m3 : bool) : F Z :=
  if len <=? 0 then set_err EINVAL;;; ret EGENERIC
  else if PATH_MAX <? len then set_err ENAMETOOLONG;;; ret EGENERIC
  else
    let* s := get in
    if m3 && (len <=? M3_STRING) then
      store_path len (message_chars (m_in s));;;
      ret OK
    else
      let* ' (r, l) := copy_from (who_e s) path len in
      when (r =? OK) (store_path len l);;;
      ret r.

Definition do_lseek : F Z :=
  let* s := get in
  let m := m_in s in
  let* p := get_filp (m2_i1 m) in
  match p with
  | None => let* s := get in ret (err_code s)
  | Some _ =>
      let* f := getf p in
      let* ip := geti (filp_ino f) in
      if i_pipe ip =? I_PIPE then ret ESPIPE
      else
        match seek_base (m2_i2 m) f ip with
        | None => ret EINVAL
        | Some base =>
            let offset := s32 (m2_l1 m) in
            let pos := u32 (base + offset) in
            if (0 <? offset) && (s32 pos <? s32 base) then ret EINVAL
            else if (offset <? 0) && (s32 base <? s32 pos) then ret EINVAL
            else
              when (negb (pos =? filp_pos f)) (puti (filp_ino f) (λ r, r.[i_seek := ISEEK]));;;
              putf p (λ f, f.[filp_pos := pos]);;;
              modify (λ s, s.[m_out := (m_out s).[m_w3 := pos]]);;;
              ret OK
        end
  end.

(** The inode of a new name, with the directory it is in and its last component; it exists
    already when [err_code] is EEXIST. *)
Definition new_entry (ldirp : option Z) (string : list Z) (bits z0 : Z) : F (option Z) :=
  let* d := geti ldirp in
  let* rip := alloc_inode task_io (i_dev d) bits in
  match rip with
  | None => ret None
  | Some _ =>
      puti rip (λ r, r.[i_nlinks := i_nlinks r + 1]);;;
      set_zone rip 0 z0;;;
      rw_inode rip WRITING;;;
      let* ip := geti rip in
      let* ' (r, _) := search_dir ldirp (Name string) (i_num ip) ENTER in
      if negb (r =? OK) then
        puti rip (λ r, r.[i_nlinks := i_nlinks r - 1].[i_dirt := DIRTY]);;;
        put_inode rip;;;
        set_err r;;;
        ret None
      else
        set_err OK;;;
        ret rip
  end.
Definition full_dir (ldirp : option Z) : F bool :=
  let* d := geti ldirp in
  let* sp := getsp (i_sp d) in
  ret ((if s_version sp =? V1 then 127 else 32767) <=? i_nlinks d).
(** [parsed] gets one character less than a component has. *)
Definition parsed_name (string : list Z) : list Z := take (Z.to_nat (NAME_MAX - 1)) string.
Definition new_node (path bits z0 : Z) (opaque : bool) : F (option Z * option Z * list Z) :=
  let* ' (ldirp, string) := parse_path task_io path (if opaque then LAST_DIR else LAST_DIR_EATSYM) in
  match ldirp with
  | None => ret (None, None, string)
  | Some _ =>
      let* ' (rip, ldirp) := advance task_io mount_fuel ldirp (Name string) in
      let* full := if Z.land bits I_TYPE =? I_DIRECTORY then full_dir ldirp else ret false in
      if full : bool then
        put_inode rip;;;
        set_err EMLINK;;;
        ret (None, ldirp, string)
      else
        let* s := get in
        match rip with
        | Some _ => set_err EEXIST;;; ret (rip, ldirp, parsed_name string)
        | None =>
            if err_code s =? ENOENT then
              let* rip := new_entry ldirp string bits z0 in
              ret (rip, ldirp, parsed_name string)
            else ret (None, ldirp, string)
        end
  end.

Definition pipe_open (rip : option Z) (bits oflags : Z) : F Z :=
  puti rip (λ r, r.[i_pipe := I_PIPE]);;;
  if Z.land bits (Z.lor R_BIT W_BIT) =? Z.lor R_BIT W_BIT then ret ENXIO
  else
    let* p := find_filp rip (if band bits W_BIT then R_BIT else W_BIT) in
    match p with
    | None =>
        if band oflags O_NONBLOCK then ret (if band bits W_BIT then ENXIO else OK)
        else suspend XPOPEN;;; ret SUSPEND
    | Some _ =>
        let* s := get in
        when (0 <? susp_count s) (
          release rip OPEN (susp_count s);;;
          let* s := get in
          release rip CREAT (susp_count s));;;
        ret OK
    end.

(** A FIFO shares the slot of those who read or write it already. *)
Definition share_fifo (rip fil_ptr : option Z) (fd bits oflags : Z) : F unit :=
  let b := if band bits R_BIT then R_BIT else W_BIT in
  putf fil_ptr (λ f, f.[filp_count := 0]);;;
  let* filp2 := find_filp rip b in
  match filp2 with
  | Some _ =>
      set_filp fd filp2;;;
      incr_filp filp2;;;
      putf filp2 (λ f, f.[filp_ino := rip].[filp_flags := oflags]);;;
      puti rip (λ r, r.[i_count := i_count r - 1])
  | None =>
      putf fil_ptr (λ f, f.[filp_count := 1]);;;
      let* pos := get_zone rip (if b =? R_BIT then V2_NR_DZONES else V2_NR_DZONES + 1) in
      putf fil_ptr (λ f, f.[filp_pos := pos])
  end.

Definition open_existing (rip fil_ptr : option Z) (fd bits oflags : Z) : F Z :=
  let* r := forbidden task_io rip bits in
  if negb (r =? OK) then ret r
  else
    let* ip := geti rip in
    let type := Z.land (i_mode ip) I_TYPE in
    if type =? I_REGULAR then
      if band oflags O_TRUNC then
        let* r := forbidden task_io rip W_BIT in
        if negb (r =? OK) then ret r
        else
          truncate_inode task_io rip 0;;;
          wipe_inode rip;;;
          rw_inode rip WRITING;;;
          ret OK
      else ret OK
    else if type =? I_DIRECTORY then ret (if band bits W_BIT then EISDIR else OK)
    else if (type =? I_CHAR_SPECIAL) || (type =? I_BLOCK_SPECIAL) then
      let* dev := special_dev ip in
      let* s := get in
      dev_open dev (who_e s) (Z.lor bits (bclr oflags O_ACCMODE))
    else if type =? I_NAMED_PIPE then
      let oflags := Z.lor oflags O_APPEND in
      putf fil_ptr (λ f, f.[filp_flags := oflags]);;;
      let* r := pipe_open rip bits oflags in
      when (negb (r =? ENXIO)) (share_fifo rip fil_ptr fd bits oflags);;;
      ret r
    else ret OK.

Definition mode_map (n : Z) : Z := if n =? 0 then R_BIT else if n =? 1 then W_BIT else if n =? 2 then Z.lor R_BIT W_BIT else 0.

(** The inode, whether the file was there before, and [r]; or the error. *)
Definition open_inode (oflags omode : Z) : F (Z + option Z * bool * Z) :=
  if band oflags O_CREAT then
    let* s := get in
    let* fpr := getfp (fp s) in
    let omode := Z.lor I_REGULAR (Z.land (Z.land (u16 omode) ALL_MODES) (fp_umask fpr)) in
    let* ' (rip, ldirp, _) := new_node 0 omode NO_ZONE (band oflags O_EXCL) in
    let* s := get in
    let r := err_code s in
    put_inode ldirp;;;
    if r =? OK then ret (inr (rip, false, r))
    else if negb (r =? EEXIST) then ret (inl r)
    else ret (inr (rip, negb (band oflags O_EXCL), r))
  else
    let* rip := eat_path task_io 0 in
    match rip with
    | None => let* s := get in ret (inl (err_code s))
    | Some _ => ret (inr (rip, true, OK))
    end.

Definition common_open (oflags omode : Z) : F Z :=
  let bits := mode_map (Z.land oflags O_ACCMODE) in
  let* ' (r, k, fil_ptr) := get_fd 0 bits in
  set_fd k;;;
  if negb (r =? OK) then ret r
  else
    let* o := open_inode oflags omode in
    match o with
    | inl e => ret e
    | inr (rip, old, r) =>
        set_filp k fil_ptr;;;
        FD_SET k;;;
        putf fil_ptr (λ f, f.[filp_count := 1].[filp_ino := rip].[filp_flags := oflags]);;;
        let* r := if old : bool then open_existing rip fil_ptr k bits oflags else ret r in
        if r =? OK then ret k
        else if r =? SUSPEND then ret r
        else
          set_filp k None;;;
          FD_CLR k;;;
          putf fil_ptr (λ f, f.[filp_count := 0]);;;
          put_inode rip;;;
          ret r
    end.

Definition do_creat : F Z :=
  let* s := get in
  let m := m_in s in
  let* r := fetch_name (m3_p1 m) (m3_i1 m) true in
  if negb (r =? OK) then let* s := get in ret (err_code s)
  else common_open (Z.lor O_WRONLY (Z.lor O_CREAT O_TRUNC)) (m3_i2 m).

Definition do_open : F Z :=
  let* s := get in
  let m := m_in s in
  let create := band (m3_i2 m) O_CREAT in
  let* r := if create then fetch_name (m1_p1 m) (m1_i1 m) false else fetch_name (m3_p1 m) (m3_i1 m) true in
  if negb (r =? OK) then let* s := get in ret (err_code s)
  else common_open (m3_i2 m) (if create then m1_i3 m else 0).

Definition do_mknod : F Z :=
  let* s := get in
  let m := m_in s in
  let mode_bits := u16 (m1_i2 m) in
  if negb (super_user s) && negb (Z.land mode_bits I_TYPE =? I_NAMED_PIPE) then ret EPERM
  else
    let* r := fetch_name (m1_p1 m) (m1_i1 m) false in
    if negb (r =? OK) then let* s := get in ret (err_code s)
    else
      let* fpr := getfp (FsTypes.fp s) in
      let bits := Z.lor (Z.land mode_bits I_TYPE) (Z.land (Z.land mode_bits ALL_MODES) (fp_umask fpr)) in
      let* ' (ip, ldirp, _) := new_node 0 bits (u32 (m1_i3 m)) true in
      put_inode ip;;;
      put_inode ldirp;;;
      let* s := get in
      ret (err_code s).

Definition do_mkdir : F Z :=
  let* s := get in
  let m := m_in s in
  let* r := fetch_name (m1_p1 m) (m1_i1 m) false in
  if negb (r =? OK) then let* s := get in ret (err_code s)
  else
    let* fpr := getfp (FsTypes.fp s) in
    let bits := Z.lor I_DIRECTORY (Z.land (Z.land (u16 (m3_i2 m)) RWX_MODES) (fp_umask fpr)) in
    let* ' (rip, ldirp, string) := new_node 0 bits 0 true in
    let* s := get in
    match rip with
    | Some _ =>
        if err_code s =? EEXIST then
          put_inode rip;;;
          put_inode ldirp;;;
          ret (err_code s)
        else
          let* d := geti ldirp in
          let* ip := geti rip in
          puti rip (λ r, r.[i_mode := bits]);;;
          let* ' (r1, _) := search_dir rip Dot1 (i_num ip) ENTER in
          let* ' (r2, _) := search_dir rip Dot2 (i_num d) ENTER in
          (if (r1 =? OK) && (r2 =? OK) then
             puti rip (λ r, r.[i_nlinks := i_nlinks r + 1]);;;
             puti ldirp (λ r, r.[i_nlinks := i_nlinks r + 1].[i_dirt := DIRTY])
           else
             let* ' (r, _) := search_dir ldirp (Name string) 0 DELETE in
             if negb (r =? OK) then panic
             else puti rip (λ r, r.[i_nlinks := i_nlinks r - 1]));;;
          puti rip (λ r, r.[i_dirt := DIRTY]);;;
          put_inode ldirp;;;
          put_inode rip;;;
          let* s := get in
          ret (err_code s)
    | None =>
        put_inode ldirp;;;
        ret (err_code s)
    end.

(** The block of a symbolic link and what of the name is in it; the first NUL ends it. *)
Definition link_block (sip : option Z) (addr len : Z) : F Z :=
  let* bp := new_block task_io sip 0 in
  let* s := get in
  let* r :=
    match bp with
    | None => ret (err_code s)
    | Some _ =>
        let* ' (r, l) := copy_from (who_e s) addr (len - 1) in
        if negb (r =? OK) then ret r
        else
          putb bp (λ b, b.[b_data := λ i, if i =? MIN_BLOCK_SIZE - 1 then 0
                                          else if (0 <=? i) && (i <? len - 1) then nth (Z.to_nat i) l 0 else b_data b i]);;;
          let* b := getb bp in
          let size := Z.of_nat (length (cstring (map (b_data b) (zrange 0 MIN_BLOCK_SIZE)))) in
          puti sip (λ r, r.[i_size := size]);;;
          ret (if size =? len - 1 then OK else ENAMETOOLONG)
    end in
  put_block task_io bp DIRECTORY_BLOCK;;;
  ret r.

Definition do_slink : F Z :=
  let* s := get in
  let m := m_in s in
  let* r := fetch_name (m1_p2 m) (m1_i2 m) false in
  if negb (r =? OK) then let* s := get in ret (err_code s)
  else if (m1_i1 m <=? 1) || (MIN_BLOCK_SIZE <=? m1_i1 m) then ret ENAMETOOLONG
  else
    let* ' (sip, ldirp, string) := new_node 0 (Z.lor I_SYMBOLIC_LINK RWX_MODES) 0 true in
    let* s := get in
    let* r :=
      if err_code s =? OK then
        let* r := link_block sip (m1_p1 m) (m1_i1 m) in
        (if negb (r =? OK) then
           puti sip (λ r, r.[i_nlinks := 0]);;;
           let* ' (e, _) := search_dir ldirp (Name string) 0 DELETE in
           if negb (e =? OK) then panic else skip
         else skip);;;
        ret r
      else ret (err_code s) in
    put_inode sip;;;
    put_inode ldirp;;;
    ret r.

(** A descriptor with its slot, used by nobody yet. *)
Definition claim (k : Z) (p : option Z) : F unit :=
  set_filp k p;;;
  FD_SET k;;;
  putf p (λ f, f.[filp_count := 1]).
Definition unclaim (k : Z) (p : option Z) : F unit :=
  set_filp k None;;;
  FD_CLR k;;;
  putf p (λ f, f.[filp_count := 0]).

Definition do_pipe : F Z :=
  let* ' (r, fd0, p0) := get_fd 0 R_BIT in
  if negb (r =? OK) then ret r
  else
    claim fd0 p0;;;
    let* ' (r, fd1, p1) := get_fd 0 W_BIT in
    if negb (r =? OK) then unclaim fd0 p0;;; ret r
    else
      claim fd1 p1;;;
      let* s := get in
      let* rip := alloc_inode task_io (root_dev s) I_REGULAR in
      match rip with
      | None =>
          unclaim fd0 p0;;;
          unclaim fd1 p1;;;
          let* s := get in
          ret (err_code s)
      | Some _ =>
          let* ro := read_only rip in
          when (negb (ro =? OK)) panic;;;
          puti rip (λ r, r.[i_pipe := I_PIPE].[i_mode := Z.lor (bclr (i_mode r) I_REGULAR) I_NAMED_PIPE]);;;
          putf p0 (λ f, f.[filp_ino := rip].[filp_flags := O_RDONLY]);;;
          dup_inode rip;;;
          putf p1 (λ f, f.[filp_ino := rip].[filp_flags := O_WRONLY]);;;
          rw_inode rip WRITING;;;
          modify (λ s, s.[m_out := (m_out s).[m_w0 := fd0].[m_w1 := fd1]]);;;
          puti rip (λ r, r.[i_update := Z.lor ATIME (Z.lor CTIME MTIME)]);;;
          ret OK
      end.
End fd.
