(* ===== verification/FsFdThms.v ===== *)
(** * The file system server: theorems on descriptors

    [do_select] changes neither a descriptor of a process nor the count of a slot of [filp]
    nor the table of locks ([same_fds]).  [lock_op] keeps the table of locks free of
    conflicts ([locks_ok]): two processes never hold overlapping locks on a file unless both
    are read locks. *)
From stdpp Require Import base gmap list numbers strings.
From Stdlib Require Import ZArith Lia.
From S2P Require Import Prelude.
From S2P Require Import Timers.
From S2P Require Import KTypes.
From S2P Require Import KProc.
From S2P Require Import FsTypes.
From S2P Require Import FsCache.
From S2P Require Import FsMap.
From S2P Require Import FsInode.
From S2P Require Import FsPath.
From S2P Require Import FsIo.
From S2P Require Import FsHash.
From S2P Require Import FsProps.
From S2P Require Import FsTable.
From S2P Require Import FsSelect.
From S2P Require Import FsFd.

#[local] Hint Constants Opaque : pres.

Definition same_fds (s s' : fsstate) : Prop := fd_view s' = fd_view s.
#[export] Instance same_fds_frame : Frame same_fds.
Proof. split; [split; [done|]|done]. intros s s' s'' H1 H2. unfold same_fds in *. congruence. Qed.

Lemma fds_modify f : (∀ s, fd_view (f s) = fd_view s) → pres same_fds (modify f).
Proof. intros H. apply pres_modify. exact H. Qed.
Lemma fds_puti p g : pres same_fds (puti p g).
Proof. intros s a s'. unfold puti. destruct p as [f|]; [|done]. destruct (inodes s !! f); [|done]. by intros [= _ <-]. Qed.
Lemma fds_putf p g : (∀ r, filp_count (g r) = filp_count r) → pres same_fds (putf p g).
Proof.
  intros Hg s a s'. unfold putf. destruct p as [f|]; [|done]. destruct (filps s !! f) as [r|] eqn:Hf; [|done].
  intros [= _ <-]. unfold same_fds, fd_view. change (filps (s.[filps := ?t])) with t. rewrite fmap_insert, Hg.
  repeat f_equal. apply insert_id. by rewrite lookup_fmap, Hf.
Qed.
Lemma fds_gett tp : pres same_fds (gett tp).
Proof. apply (frame_get same_fds (λ s, tm_store (tq s) !! tp)). Qed.
Lemma fds_putt tp f : pres same_fds (putt tp f).
Proof. intros s a s'. unfold putt. destruct (_ !! tp); [|done]. by intros [= _ <-]. Qed.
Lemma fds_gete i : pres same_fds (gete i).
Proof. apply (frame_get same_fds (λ s, selecttab s !! i)). Qed.
Lemma fds_pute i f : pres same_fds (pute i f).
Proof. intros s a s'. unfold pute. destruct (_ !! i); [|done]. by intros [= _ <-]. Qed.
Lemma fds_getlock i : pres same_fds (getlock i).
Proof. apply (frame_get same_fds (λ s, file_locks s !! i)). Qed.
#[export] Hint Resolve fds_puti fds_gett fds_putt fds_gete fds_pute fds_getlock same_fds_frame : pres.
#[export] Hint Extern 1 (pres same_fds (modify _)) => (apply fds_modify; reflexivity) : pres.
#[export] Hint Extern 1 (pres same_fds (putf _ _)) => (apply fds_putf; reflexivity) : pres.

Section below.
Context (task_io : Z → dev_req → Z → disks → dev_reply) (sys : sys_calls).

(** Select and the suspension of processes. *)
Lemma fds_reply e r : pres same_fds (reply e r).
Proof. unfold reply. frame. Qed.
Hint Resolve fds_reply : pres.
Lemma fds_revive e r : pres same_fds (revive e r).
Proof. unfold revive. frame. Qed.
Hint Resolve fds_revive : pres.
Lemma fds_lock_revive : pres same_fds lock_revive.
Proof. unfold lock_revive. frame. Qed.
Lemma fds_get_filp i : pres same_fds (get_filp i).
Proof. unfold get_filp. frame. Qed.
Lemma fds_find_filp p b : pres same_fds (find_filp p b).
Proof. unfold find_filp. frame. Qed.
Lemma fds_next_request : pres same_fds next_request.
Proof. unfold next_request. frame. Qed.
Hint Resolve fds_lock_revive fds_get_filp fds_find_filp fds_next_request : pres.
Lemma fds_copy_from e a n : pres same_fds (copy_from sys e a n).
Proof. unfold copy_from. frame. Qed.
Lemma fds_copy_to e a l : pres same_fds (copy_to sys e a l).
Proof. unfold copy_to. frame. Qed.
Lemma fds_set_alarm t : pres same_fds (set_alarm sys t).
Proof. unfold set_alarm. frame. Qed.
Lemma fds_clrtimer tp : pres same_fds (tmrs_clrtimer tp).
Proof. unfold tmrs_clrtimer, clr_scan, head_time, tload, tstore. frame. Qed.
Hint Resolve fds_copy_from fds_copy_to fds_set_alarm fds_clrtimer : pres.
Lemma fds_settimer tp e w : pres same_fds (tmrs_settimer tp e w).
Proof. unfold tmrs_settimer, set_scan, head_time, tload, tstore. frame. Qed.
Hint Resolve fds_settimer : pres.
Lemma fds_cancel_timer tp : pres same_fds (fs_cancel_timer sys tp).
Proof. unfold fs_cancel_timer. frame. Qed.
Lemma fds_set_timer tp t w a : pres same_fds (fs_set_timer sys tp t w a).
Proof. unfold fs_set_timer. frame. Qed.
Lemma fds_reevaluate f : pres same_fds (select_reevaluate f).
Proof. unfold select_reevaluate. frame. Qed.
Hint Resolve fds_cancel_timer fds_set_timer fds_reevaluate : pres.
Lemma fds_cancel_all i : pres same_fds (select_cancel_all sys i).
Proof. unfold select_cancel_all, cancel_fd. frame. Qed.
Lemma fds_copy_fdsets i : pres same_fds (copy_fdsets sys i).
Proof. unfold copy_fdsets. frame. Qed.
Hint Resolve fds_cancel_all fds_copy_fdsets : pres.
Lemma fds_select_return i r : pres same_fds (select_return sys i r).
Proof. unfold select_return. frame. Qed.
Hint Resolve fds_select_return : pres.
Lemma fds_select_callback f ops : pres same_fds (select_callback sys f ops).
Proof. unfold select_callback, callback_entry. frame. Qed.
Lemma fds_select_forget e : pres same_fds (select_forget sys e).
Proof. unfold select_forget. frame. Qed.
Lemma fds_select_unsuspend e : pres same_fds (select_unsuspend_by_endpt sys e).
Proof. unfold select_unsuspend_by_endpt, unsuspend_fd, dmap_driver_match. frame. Qed.
Hint Resolve fds_select_callback fds_select_forget fds_select_unsuspend : pres.
Lemma fds_release_procs l p c n : pres same_fds (release_procs l p c n).
Proof. revert n. induction l as [|x l IH]; intros n; cbn [release_procs]; unfold hangs_on; frame. Qed.
Hint Resolve fds_release_procs : pres.
Lemma fds_release p c n : pres same_fds (release sys p c n).
Proof. unfold release, release_select. frame. Qed.
Lemma fds_unsuspend e : pres same_fds (unsuspend_by_endpt sys e).
Proof. unfold unsuspend_by_endpt. frame. Qed.
Hint Resolve fds_release fds_unsuspend : pres.
Lemma fds_pipe_check p rw fl n pos t : pres same_fds (pipe_check sys p rw fl n pos t).
Proof. unfold pipe_check. frame. Qed.
Hint Resolve fds_pipe_check : pres.
Lemma fds_request_pipe p ops b : pres same_fds (select_request_pipe sys p ops b).
Proof. unfold select_request_pipe, request_read, request_write. frame. Qed.
Lemma fds_select_type l n p t : pres same_fds (select_type l n p t).
Proof. revert n t. induction l as [|x l IH]; intros n t; cbn [select_type]; unfold select_match; frame. Qed.
Hint Resolve fds_request_pipe fds_select_type : pres.
Lemma fds_select_fd i b fd : pres same_fds (select_fd task_io sys i b fd).
Proof. unfold select_fd, select_request, select_request_general, special_dev. frame. Qed.
Hint Resolve fds_select_fd : pres.
Lemma fds_select_fds l i b : pres same_fds (select_fds task_io sys l i b).
Proof. induction l as [|x l IH]; cbn [select_fds]; frame. Qed.
Hint Resolve fds_select_fds : pres.
(** [do_select] leaves descriptors, counts, locks and the request as they are. *)
Theorem fds_do_select : pres same_fds (do_select task_io sys).
Proof. unfold do_select, fetch_fdset, fetch_timeout. frame. Qed.

End below.

(** ** Locks *)
Definition overlap (r r' : file_lock) : Prop := lock_first r <= lock_last r' ∧ lock_first r' <= lock_last r.
Record locks_ok (t : gmap Z file_lock) : Prop := {
  lo_dom i r : t !! i = Some r → 0 <= i < NR_LOCKS;
  lo_range i r : t !! i = Some r → lock_type r ≠ 0 → 0 <= lock_first r <= lock_last r ∧ lock_last r < 2 ^ 32;
  lo_agree i j r r' : t !! i = Some r → t !! j = Some r' → lock_type r ≠ 0 → lock_type r' ≠ 0 →
    lock_inode r = lock_inode r' → lock_pid r ≠ lock_pid r' → overlap r r' →
    lock_type r = F_RDLCK ∧ lock_type r' = F_RDLCK }.

(** A lock that covers part of another one of the same owner. *)
Definition part_of (r q : file_lock) : Prop :=
  lock_type r = lock_type q ∧ lock_inode r = lock_inode q ∧ lock_pid r = lock_pid q ∧
  lock_first q <= lock_first r <= lock_last r ∧ lock_last r <= lock_last q.

Lemma locks_ok_below t t' :
  locks_ok t → (∀ i, is_Some (t' !! i) → is_Some (t !! i)) →
  (∀ i r, t' !! i = Some r → lock_type r ≠ 0 → ∃ k q, t !! k = Some q ∧ part_of r q) →
  locks_ok t'.
Proof.
  intros Ht Hd Hp. split.
  - intros i r Hi. destruct (Hd i) as [q Hq]; [by eexists|]. by eapply (lo_dom t Ht).
  - intros i r Hi Hu. destruct (Hp i r Hi Hu) as (k & q & Hk & He & _ & _ & Hr & Hl).
    destruct (lo_range t Ht k q Hk); [congruence|]. lia.
  - intros i j r r' Hi Hj Hu Hu' Hino Hpid [Ho Ho'].
    destruct (Hp i r Hi Hu) as (k & q & Hk & E1 & E2 & E3 & ? & ?), (Hp j r' Hj Hu') as (k' & q' & Hk' & E1' & E2' & E3' & ? & ?).
    rewrite E1, E1'. eapply (lo_agree t Ht k k' q q'); [done|done|congruence..|split; lia].
Qed.

Lemma part_of_refl t i r : locks_ok t → t !! i = Some r → lock_type r ≠ 0 → ∃ k q, t !! k = Some q ∧ part_of r q.
Proof. intros Ht Hi Hu. destruct (lo_range t Ht i r Hi Hu). exists i, r. repeat split; auto; lia. Qed.

(** One entry changes to a part of itself, or to a part of another one. *)
Lemma locks_ok_insert t i j r q :
  locks_ok t → is_Some (t !! j) → t !! i = Some q → (lock_type r ≠ 0 → part_of r q) → locks_ok (<[j := r]> t).
Proof.
  intros Ht Hj Hi Hp. apply (locks_ok_below t); [done|..].
  - intros k. destruct (decide (k = j)) as [->|]; [done|by rewrite lookup_insert_ne by done].
  - intros k r'. destruct (decide (k = j)) as [->|].
    + rewrite lookup_insert_eq. intros [= <-] Hu. exists i, q. auto.
    + rewrite lookup_insert_ne by done. intros Hk Hu. by eapply part_of_refl.
Qed.

Lemma putlock_inv i f s s' a : putlock i f s = Ret a s' →
  ∃ r, file_locks s !! i = Some r ∧ file_locks s' = <[i := f r]> (file_locks s).
Proof. unfold putlock. destruct (_ !! i) as [r|]; [|done]. intros [= <- <-]. by exists r. Qed.
Lemma getlock_inv i s r s' : getlock i s = Ret r s' → file_locks s !! i = Some r ∧ s' = s.
Proof. unfold getlock. destruct (_ !! i) as [q|]; [|done]. by intros [= <- <-]. Qed.

(** Taking a region out of a lock leaves parts of it. *)
Lemma unlock_part_keeps i first last s r e s' :
  locks_ok (file_locks s) → file_locks s !! i = Some r → lock_type r ≠ 0 →
  0 <= first <= last → last < 2 ^ 32 → first <= lock_last r → lock_first r <= last →
  unlock_part i first last s = Ret e s' → locks_ok (file_locks s').
Proof.
  intros Ht Hi Hu H0 H32 Ho Ho' H. pose proof (lo_range _ Ht i r Hi Hu) as [Hr Hr32].
  unfold unlock_part in H. minv H. apply getlock_inv in H1 as [Hi' ->]. rewrite Hi in Hi'. injection Hi' as <-.
  destruct (Z.leb_spec first (lock_first r)) as [L|L], (Z.leb_spec (lock_last r) last) as [L'|L']; cbn [andb] in H.
  - minv H. apply putlock_inv in H1 as (q & Hq & Hs). minv H. injection H1 as _ <-. injection H as _ <-.
    cbn. rewrite Hs. by apply (locks_ok_insert _ i i _ r).
  - minv H. apply putlock_inv in H1 as (q & Hq & Hs). injection H as _ <-. rewrite Hs.
    rewrite Hi in Hq. injection Hq as <-. apply (locks_ok_insert _ i i _ r); [done..|]. intros _.
    repeat split; cbn; try done; rewrite u32_id by lia; lia.
  - minv H. apply putlock_inv in H1 as (q & Hq & Hs). injection H as _ <-. rewrite Hs.
    rewrite Hi in Hq. injection Hq as <-. apply (locks_ok_insert _ i i _ r); [done..|]. intros _.
    repeat split; cbn; try done; rewrite u32_id by lia; lia.
  - minv H. injection H1 as <- <-. destruct (_ =? NR_LOCKS); [by injection H as _ <-|].
    minv H. destruct (find_slot _ _ _) as [j|] eqn:Hj; [|done]. injection H1 as <- <-.
    apply find_slot_Some in Hj as (_ & y & Hj & Hfree). apply Z.eqb_eq in Hfree.
    minv H. apply putlock_inv in H1 as (q & Hq & Hs). minv H. apply putlock_inv in H1 as (q' & Hq' & Hs').
    minv H. injection H1 as _ <-. injection H as _ <-. cbn. rewrite Hs'.
    rewrite Hs in Hq' |- *. rewrite Hj in Hq. injection Hq as <-.
    assert (i ≠ j) as Hne by congruence. rewrite lookup_insert_ne, Hi in Hq' by done. injection Hq' as <-.
    apply (locks_ok_insert _ i i _ r).
    + apply (locks_ok_insert _ i j _ r); [done|by eexists|done|]. intros _. repeat split; cbn; try done; rewrite u32_id by lia; lia.
    + rewrite lookup_insert_ne by done. by eexists.
    + by rewrite lookup_insert_ne.
    + intros _. repeat split; cbn; try done; rewrite u32_id by lia; lia.
Qed.

Lemma fds_suspend t : pres same_fds (suspend t).
Proof. unfold suspend. frame. Qed.
Lemma fds_locks {A} (m : F A) s a s' : pres same_fds m → m s = Ret a s' → file_locks s' = file_locks s.
Proof. intros Hm H%Hm. by injection H. Qed.

Lemma concerns_overlap r ino ltype pid first last :
  concerns r ino ltype pid first last = true → first <= lock_last r ∧ lock_first r <= last.
Proof. unfold concerns. rewrite !andb_true_iff, !negb_true_iff, !Z.ltb_ge. lia. Qed.

(** A search for a lock that ends at the end of the table has changed nothing and met no
    conflict; one that takes a region out of the locks leaves parts of them. *)
Lemma lock_scan_keeps l ino req ltype first last empty u s e s' :
  locks_ok (file_locks s) → 0 <= first <= last → last < 2 ^ 32 →
  lock_scan l ino req ltype first last empty u s = Ret e s' →
  locks_ok (file_locks s') ∧
  (∀ em u', e = LockFree em u' → ltype = F_RDLCK ∨ ltype = F_WRLCK → s' = s ∧
     ∀ i r q, i ∈ l → file_locks s !! i = Some r → lock_type r ≠ 0 → fprocs s !! fp s = Some q →
       concerns r ino ltype (fp_pid q) first last = false).
Proof.
  intros Ht H0 H32. revert empty u s Ht. induction l as [|k l IH]; intros empty u s Ht H; cbn [lock_scan] in H.
  { injection H as <- <-. split; [done|]. intros em u' _ _. split; [done|]. intros i r q Hin. by apply elem_of_nil in Hin. }
  minv H. injection H1 as <- <-. minv H. unfold getfp in H1. destruct (fprocs s !! fp s) as [q0|] eqn:Hq; [|done].
  injection H1 as <- <-. minv H. apply getlock_inv in H1 as [Hk ->]. rename a into rk.
  assert (∀ i r, i ∈ k :: l → file_locks s !! i = Some r → i ∈ l ∨ r = rk) as Hin.
  { intros i r [->|Hin]%elem_of_cons Hi; [right; congruence|by left]. }
  destruct (Z.eqb_spec (lock_type rk) 0) as [Hz|Hz].
  { apply IH in H as [? HF]; [|done]. split; [done|]. intros em u' -> Hlt. destruct (HF _ _ eq_refl Hlt) as [-> HF'].
    split; [done|]. intros i r q Hi0 Hi Hu Hp. destruct (Hin i r Hi0 Hi) as [Hl| ->]; [exact (HF' i r q Hl Hi Hu (eq_trans Hq Hp))|congruence]. }
  destruct (concerns rk ino ltype (fp_pid q0) first last) eqn:Hc; cbn [negb] in H.
  2:{ apply IH in H as [? HF]; [|done]. split; [done|]. intros em u' -> Hlt. destruct (HF _ _ eq_refl Hlt) as [-> HF'].
    split; [done|]. intros i r q Hi0 Hi Hu Hp. destruct (Hin i r Hi0 Hi) as [Hl| ->]; [exact (HF' i r q Hl Hi Hu (eq_trans Hq Hp))|congruence]. }
  destruct (req =? F_GETLK); [injection H as <- <-; by split|].
  destruct ((ltype =? F_RDLCK) || (ltype =? F_WRLCK)) eqn:Hlt.
  { destruct (req =? F_SETLK); [injection H as <- <-; by split|]. minv H. injection H as <- <-.
    apply fds_locks in H1; [|apply fds_suspend]. by rewrite H1. }
  apply orb_false_iff in Hlt as [Hn%Z.eqb_neq Hn'%Z.eqb_neq]. minv H. apply concerns_overlap in Hc as [Ho Ho'].
  eapply unlock_part_keeps in H1; [|done..]. split; [|by intros em u' _ []].
  destruct a as [e'|]; [by injection H as _ <-|by apply IH in H as [? _]].
Qed.

Lemma locks_ok_add t i ltype pid ino first last :
  locks_ok t → is_Some (t !! i) → 0 <= first <= last → last < 2 ^ 32 → ltype ≠ F_UNLCK →
  (∀ j r, t !! j = Some r → lock_type r ≠ 0 → concerns r ino ltype pid first last = false) →
  locks_ok (<[i := FileLock ltype pid ino first last]> t).
Proof.
  intros Ht [r0 Hi] H0 H32 Hun Hno.
  assert (∀ j r, t !! j = Some r → lock_type r ≠ 0 → lock_inode r = ino → lock_pid r ≠ pid →
    first <= lock_last r → lock_first r <= last → lock_type r = F_RDLCK ∧ ltype = F_RDLCK) as Hadd.
  { intros j r Hj Hu He Hp Hl Hf. specialize (Hno j r Hj Hu). unfold concerns in Hno.
    rewrite (proj2 (Z.ltb_ge _ _) Hl), (proj2 (Z.ltb_ge _ _) Hf), (proj2 (Z.eqb_neq _ _) Hp), (proj2 (Z.eqb_neq _ _) Hun) in Hno.
    destruct (opt_eqb_spec (lock_inode r) ino); [|done].
    destruct (Z.eqb_spec ltype F_RDLCK), (Z.eqb_spec (lock_type r) F_RDLCK); done. }
  split.
  - intros j r. destruct (decide (j = i)) as [->|]; [intros _; by eapply (lo_dom t Ht)|].
    rewrite lookup_insert_ne by done. apply (lo_dom t Ht).
  - intros j r. destruct (decide (j = i)) as [->|]; [rewrite lookup_insert_eq; by intros [= <-]|].
    rewrite lookup_insert_ne by done. apply (lo_range t Ht).
  - intros j k r r' Hj Hk Hu Hu' He Hp [Ho Ho']. rewrite lookup_insert in Hj, Hk.
    destruct (decide (i = j)) as [<-|Hne], (decide (i = k)) as [<-|Hne'];
      [|injection Hj as <-|injection Hk as <-|by eapply (lo_agree t Ht j k); [..|split]].
    + congruence.
    + cbn in *. destruct (Hadd k r' Hk); auto; try congruence; lia.
    + cbn in *. destruct (Hadd j r Hj); auto; try congruence; lia.
Qed.

Lemma lock_region_range fl base first last :
  lock_region fl base = Some (first, last) → 0 <= first <= last ∧ last < 2 ^ 32.
Proof.
  unfold lock_region. intros H. repeat case_match; simplify_eq.
  all: repeat match goal with H : (_ <? _) = false |- _ => apply Z.ltb_ge in H end.
  all: pose proof (Z.mod_pos_bound (base + l_start fl) (2 ^ 32)); unfold u32, MAX_FILE_POS in *.
  all: try (pose proof (Z.mod_pos_bound ((base + l_start fl) `mod` 2 ^ 32 + l_len fl - 1) (2 ^ 32))); lia.
Qed.

(** The checks leave the three types of requests, and F_GETLK not with F_UNLCK. *)
Lemma lock_checks_types fl req f ip : lock_checks fl req f ip = OK →
  l_type fl = F_UNLCK ∨ l_type fl = F_RDLCK ∨ l_type fl = F_WRLCK.
Proof.
  unfold lock_checks. destruct (Z.eqb_spec (l_type fl) F_UNLCK); [auto|].
  destruct (Z.eqb_spec (l_type fl) F_RDLCK); [auto|]. destruct (Z.eqb_spec (l_type fl) F_WRLCK); [auto|done].
Qed.

Lemma same_fds_pid s s' p r : same_fds s s' → fprocs s' !! p = Some r →
  ∃ q, fprocs s !! p = Some q ∧ fp_pid q = fp_pid r.
Proof.
  intros Hs Hr. injection Hs as _ Hp _ _ _ _. apply (f_equal (λ t, t !! p)) in Hp.
  rewrite !lookup_fmap, Hr in Hp. destruct (fprocs s !! p) as [q|]; [|done]. exists q. by injection Hp.
Qed.

(** The last part of [lock_op]: the lock is put into the empty slot. *)
Lemma lock_put_keeps s i fl ino first last p a s' :
  locks_ok (file_locks s) → 0 <= first <= last → last < 2 ^ 32 → l_type fl ≠ F_UNLCK →
  (∀ j r q, file_locks s !! j = Some r → lock_type r ≠ 0 → fprocs s !! p = Some q →
     concerns r ino (l_type fl) (fp_pid q) first last = false) →
  (let* fpr := getfp p in
   putlock i (λ _, FileLock (l_type fl) (fp_pid fpr) ino first last);;;
   modify (λ s, s.[nr_locks := nr_locks s + 1]);;;
   ret OK) s = Ret a s' → locks_ok (file_locks s').
Proof.
  intros Ht H0 H32 Hun Hno H. minv H. unfold getfp in H1. destruct (fprocs s !! p) as [q|] eqn:Hq; [|done].
  injection H1 as <- <-. minv H. apply putlock_inv in H1 as (r & Hr & Hs). minv H. injection H1 as _ <-. injection H as _ <-.
  cbn. rewrite Hs. apply locks_ok_add; [done|by eexists|done..|]. intros j r' Hj Hu. by eapply Hno.
Qed.

(** [lock_op] keeps the table of locks free of conflicts, whatever the request and however
    it ends. *)
Theorem lock_op_keeps sys p req s a s' :
  locks_ok (file_locks s) → lock_op sys p req s = Ret a s' → locks_ok (file_locks s').
Proof.
  intros Ht H. unfold lock_op in H. minv H. injection H0 as <- <-. minv H. destruct a0 as [r bytes].
  apply fds_copy_from in H0. rename s0 into s1. assert (file_locks s1 = file_locks s) as E1 by (by injection H0).
  destruct (r =? OK); cbn [negb] in H; [|injection H as _ <-; congruence]. minv H.
  assert (same_fds s1 s0) as H1' by (eapply frame_getf; [apply same_fds_frame|exact H1]). minv H.
  assert (same_fds s0 s2) as H2' by (eapply frame_geti; [apply same_fds_frame|exact H2]).
  assert (same_fds s s2) as Hs by (by etransitivity; [|etransitivity]). rename s2 into s3, s0 into s2.
  assert (file_locks s3 = file_locks s) as E3 by exact (f_equal (λ v, v.1.2.1) Hs).
  destruct (Z.eqb_spec (lock_checks (parse_flock bytes) req a0 a1) OK) as [Hc|]; cbn [negb] in H; [|injection H as _ <-; congruence].
  destruct (seek_base _ _ _ ≫= _) as [[first last]|] eqn:Hr; [|injection H as _ <-; congruence].
  apply bind_Some in Hr as (base & _ & [Hr H32]%lock_region_range).
  assert (locks_ok (file_locks s3)) as Ht3 by congruence.
  minv H. rename a2 into e, s0 into s4. eapply lock_scan_keeps in H3 as [Ht4 HF]; [|done..].
  assert (∀ i z s5 s6, locks_ok (file_locks s5) →
    (let* fl := lock_answer i (parse_flock bytes) in copy_to sys (who_e s) (m1_p1 (m_in s)) (flock_bytes fl)) s5 = Ret z s6 →
    locks_ok (file_locks s6)) as Hans.
  { intros i z s5 s6 Ht5 Ha. apply fds_locks in Ha; [by rewrite Ha|]. unfold lock_answer.
    apply pres_bind; [typeclasses eauto|destruct i; presto|]. intros. apply fds_copy_to. }
  destruct e as [z|i|em u]; [by injection H as _ <-|by eapply Hans|]. minv H.
  assert (same_fds s4 s0) as G by (eapply pres_when; [typeclasses eauto|apply fds_lock_revive|exact H3]).
  assert (file_locks s0 = file_locks s4) as E5 by (exact (f_equal (λ v, v.1.2.1) G)). rewrite <-E5 in Ht4.
  destruct (req =? F_GETLK); [by eapply Hans|].
  destruct (Z.eqb_spec (l_type (parse_flock bytes)) F_UNLCK) as [|Hun]; [by injection H as _ <-|].
  destruct (lock_checks_types _ _ _ _ Hc) as [?|Hlt]; [done|]. destruct (HF em u eq_refl Hlt) as [-> Hno].
  destruct em as [i|]; [|by injection H as _ <-].
  eapply lock_put_keeps; [..|exact H]; [done..|]. intros j r' q Hj Hu Hq. rewrite E5 in Hj.
  apply (same_fds_pid _ _ _ _ G) in Hq as (q' & Hq' & <-). apply (Hno j r' q'); [|done..|].
  - apply elem_of_zrange. exact (lo_dom _ Ht3 j r' Hj).
  - assert (fp s3 = fp s) as -> by exact (f_equal (λ v, v.1.1.2) Hs). done.
Qed.

(** [do_close]: the locks of the process on the file go. *)
Lemma drop_locks_keep l rip pid s a s' :
  locks_ok (file_locks s) → for_list l (drop_lock rip pid) s = Ret a s' → locks_ok (file_locks s').
Proof.
  revert s. induction l as [|i l IH]; intros s Ht H; cbn [for_list] in H; [by injection H as _ <-|].
  minv H. apply (IH s0); [|done]. clear H. unfold drop_lock in H0. minv H0. apply getlock_inv in H1 as [Hi ->].
  destruct (lock_type a1 =? 0); [by injection H0 as _ <-|]. destruct (opt_eqb _ _ && _); [|by injection H0 as _ <-].
  minv H0. apply putlock_inv in H1 as (q & Hq & Hs). injection H0 as _ <-. cbn. rewrite Hs.
  by apply (locks_ok_insert _ i i _ q).
Qed.

(** ** A table with one lock

    Process 9 has the bytes 0 to 99 of a file for writing.  Another process cannot have
    them for reading; but a request of it to unlock ten of them splits the lock. *)
Definition demo_lock : file_lock := FileLock F_WRLCK 9 (Some 3) 0 99.
Definition demo_locked : fsstate := demo_fs
  .[inodes := {[3 := Inode 0x81FF 1 0 0 40000 0 0 0 [] demo_dev 5 1 7 256 (Some 0) CLEAN NO_PIPE 0 0 0]}]
  .[fprocs := list_to_map (map (λ p, (p, demo_fproc p)) (zrange 0 NR_PROCS))]
  .[filps := {[2 := Filp (Z.lor R_BIT W_BIT) 0 1 (Some 3) 0 0 0 0]}]
  .[file_locks := <[0 := demo_lock]> (list_to_map (map (λ i, (i, FileLock 0 0 None 0 0)) (zrange 0 NR_LOCKS)))]
  .[nr_locks := 1].
Definition asks (fl : flock) : sys_calls := SysCalls (λ _ _ _ _, (OK, flock_bytes fl)) (λ _ _ _ _, OK) (λ _, (OK, 0)) (λ _ _, OK).

Example lock_refused : answers (lock_op (asks (Flock F_RDLCK SEEK_SET 50 100 0)) (Some 2) F_SETLK demo_locked) EAGAIN.
Proof. by vm_compute. Qed.
Example lock_of_another_split :
  let s := in_state (lock_op (asks (Flock F_UNLCK SEEK_SET 10 10 0)) (Some 2) F_SETLK demo_locked) demo_locked in
  file_locks s !! 0 = Some (FileLock F_WRLCK 9 (Some 3) 0 9) ∧
  file_locks s !! 1 = Some (FileLock F_WRLCK 9 (Some 3) 20 99) ∧ nr_locks s = 2.
Proof. by vm_compute. Qed.
