(* ===== verification/DsStore.v ===== *)
(** * The data store server ([src/servers/ds/store.c] and the dispatch of [main.c])

    A table of (key, value) pairs.  The bytes of the configuration union travel
    through the kernel call [sys_datacopy]: what it finds in the caller's memory,
    and whether it succeeds, is the argument [env] of a request; what it writes
    there is recorded in [copied_out].  The strings of a configuration are printed with
    [%s]: to print one that does not end within its array is a crash.  The other calls of
    [printf] are left out. *)
From stdpp Require Import base gmap list numbers strings.
From Stdlib Require Import ZArith Lia.
From S2P Require Import Prelude.
From S2P Require Import KTypes.

Definition DS_FREE : Z := 0x00.
Definition DS_IN_USE : Z := 0x01.
Definition DS_PUBLIC : Z := 0x02.
Definition DS_VMM_CFG : Z := 0x04.
Definition DS_PROC_CFG : Z := 0x08.
Definition DS_VDEV_CFG : Z := 0x10.
Definition NR_DS_KEYS : Z := 64.

Definition DS_RQ_BASE : Z := 0x800.
Definition DS_PUBLISH : Z := DS_RQ_BASE + 0.
Definition DS_RETRIEVE : Z := DS_RQ_BASE + 1.
Definition DS_SUBSCRIBE : Z := DS_RQ_BASE + 2.
Definition DS_DELETE : Z := DS_RQ_BASE + 3.
Definition GETSYSINFO : Z := 79.
Definition PROC_EVENT : Z := NOTIFY_FROM PM_PROC_NR.
Definition SI_DATA_STORE : Z := 5.


Set Primitive Projections.
Record data_store := DataStore {
  ds_key : Z;
  ds_flags : Z;
  ds_val_l1 : Z;
  ds_val_l2 : Z;
  ds_endpoint : Z;
  ds_u : list Z }.  (* the bytes of the union *)

(** What the server copies into its clients. *)
Inductive image :=
  | UnionImage (bytes : list Z)
  | TableImage (table : list data_store).

(** The globals of the server. *)
Record dsstate := DsState {
  ds_store : list data_store;
  nr_in_use : Z;
  who_e : Z;
  callnr : Z;
  copied_out : list (Z * Z * image) }.

(** The other end of [sys_datacopy]: its result for a process and an address, and
    the bytes found there. *)
Record callenv := CallEnv {
  copy_status : Z → Z → Z;
  user_data : Z → Z → list Z }.
Unset Primitive Projections.
#[export] Instance data_store_eta : Eta data_store := λ d,
  DataStore (ds_key d) (ds_flags d) (ds_val_l1 d) (ds_val_l2 d) (ds_endpoint d) (ds_u d).
#[export] Instance dsstate_eta : Eta dsstate := λ s,
  DsState (ds_store s) (nr_in_use s) (who_e s) (callnr s) (copied_out s).

Abbreviation DS := (M dsstate).

(** The fields of a request, words of the message. *)
Abbreviation DS_KEY := m_w0 (only parsing).
Abbreviation DS_FLAGS := m_w1 (only parsing).
Abbreviation DS_ENDPOINT := m_w2 (only parsing).
Abbreviation DS_VAL_L1 := m_w3 (only parsing).
Abbreviation DS_VAL_L2 := m_w4 (only parsing).
Abbreviation DS_PTR := m_w5 (only parsing).
Abbreviation m1_i1 := m_w0 (only parsing).
Abbreviation m1_p1 := m_w3 (only parsing).

Definition getd (i : Z) : DS data_store :=
  let* s := get in of_option (aget (ds_store s) i).
Definition putd (i : Z) (f : data_store → data_store) : DS unit :=
  let* d := getd i in
  let* s := get in
  let* t := of_option (aset (ds_store s) i (f d)) in
  modify (λ s, s.[ds_store := t]).

Definition init_store : DS unit :=
  for_list (zrange 0 NR_DS_KEYS) (λ i, putd i (λ d, d.[ds_key := DS_FREE])).

Definition set_owner (dsp : Z) : DS bool := ret true.
Definition is_authorized (dsp : Z) : DS bool := ret true.

(** The loop of [find_key] from slot [i] on, [n] slots left. *)
Fixpoint find_from (key : Z) (n : nat) (i : Z) : DS (option Z) :=
  match n with
  | O => ret None
  | Datatypes.S n =>
      let* d := getd i in
      if band (ds_flags d) DS_IN_USE && (ds_key d =? key) then ret (Some i)
      else find_from key n (i + 1)
  end.
Definition find_key (key : Z) : DS (option Z) :=
  find_from key (Z.to_nat NR_DS_KEYS) 0.

(** [DS_VMM_CFG | DS_PROC_CFG | DS_VDEV_CFG]. *)
Definition cfg_flags : Z := Z.lor (Z.lor DS_VMM_CFG DS_PROC_CFG) DS_VDEV_CFG.

(** ** [do_publish] *)

(** The slot for the pair: the key's, or a new one; [inl] is an error return. *)
Definition publish_slot (m : message) : DS (Z + Z) :=
  let* found := find_key (DS_KEY m) in
  match found with
  | Some dsp =>
      let* auth := is_authorized dsp in
      if negb auth then ret (inl EPERM) else ret (inr dsp)
  | None =>
      let* s := get in
      if NR_DS_KEYS <=? nr_in_use s then ret (inl EAGAIN)
      else
        let dsp := nr_in_use s in
        putd dsp (λ d, d.[ds_key := DS_KEY m]);;;
        let* owned := (if negb (band (DS_FLAGS m) cfg_flags) then set_owner dsp
                       else ret true) in
        if negb owned then ret (inl EINVAL)
        else
          putd dsp (λ d, d.[ds_flags := Z.lor DS_IN_USE (DS_FLAGS m)]);;;
          modify (λ s, s.[nr_in_use := nr_in_use s + 1]);;;
          ret (inr dsp)
  end.

(** [(m_ptr->DS_ENDPOINT == SELF)? who_e : m_ptr->DS_ENDPOINT]. *)
Definition request_ep (m : message) (who : Z) : Z :=
  if DS_ENDPOINT m =? SELF then who else DS_ENDPOINT m.

(** The strings of a configuration that [do_publish] prints, as places in the union
    ([vmconfig.h]): the name and the two paths of a VM; the names and the path of a process;
    the two names of a device. *)
Definition PROC_NAME_LEN : nat := 16.
Definition POSIX_PATH_MAX : nat := 255.
Definition config_strings (flags : Z) : list (nat * nat) :=
  if band flags DS_VMM_CFG then [(0, PROC_NAME_LEN); (32, POSIX_PATH_MAX); (287, POSIX_PATH_MAX)]%nat
  else if band flags DS_PROC_CFG then [(0, PROC_NAME_LEN); (28, PROC_NAME_LEN); (49, POSIX_PATH_MAX)]%nat
  else [(0, PROC_NAME_LEN); (16, PROC_NAME_LEN)]%nat.
Definition printable (flags : Z) (bytes : list Z) : bool :=
  forallb (λ '(o, n), str_in bytes o n) (config_strings flags).

Definition do_publish (env : callenv) (m : message) : DS Z :=
  let* slot := publish_slot m in
  match slot with
  | inl e => ret e
  | inr dsp =>
      let* s := get in
      putd dsp (λ d, d.[ds_endpoint := request_ep m (who_e s)]
        .[ds_val_l1 := DS_VAL_L1 m].[ds_val_l2 := DS_VAL_L2 m]);;;
      let* d := getd dsp in
      if band (ds_flags d) cfg_flags then
        let rcode := copy_status env (who_e s) (DS_PTR m) in
        if negb (rcode =? OK) then ret rcode
        else
          putd dsp (λ d, d.[ds_u := user_data env (who_e s) (DS_PTR m)]);;;
          if printable (ds_flags d) (user_data env (who_e s) (DS_PTR m)) then ret OK else crash
      else ret OK
  end.

(** ** [do_retrieve]: the result and the message, which becomes the reply *)

(** [! dsp->ds_flags & DS_PUBLIC]: the negation is taken first. *)
Definition is_private (flags : Z) : bool :=
  band (if flags =? 0 then 1 else 0) DS_PUBLIC.

Definition do_retrieve (env : callenv) (m : message) : DS (Z * message) :=
  let* found := find_key (DS_KEY m) in
  match found with
  | Some dsp =>
      let* d := getd dsp in
      let* auth := (if is_private (ds_flags d) then is_authorized dsp else ret true) in
      if negb auth then ret (EPERM, m)
      else
        let m := m.[DS_VAL_L1 := ds_val_l1 d].[DS_VAL_L2 := ds_val_l2 d]
                  .[DS_ENDPOINT := ds_endpoint d] in
        if band (ds_flags d) cfg_flags then
          let* s := get in
          let rcode := copy_status env (who_e s) (DS_PTR m) in
          if negb (rcode =? OK) then ret (rcode, m)
          else
            modify (λ s, s.[copied_out :=
              (who_e s, DS_PTR m, UnionImage (ds_u d)) :: copied_out s]);;;
            ret (OK, m)
        else ret (OK, m)
  | None => ret (ESRCH, m)
  end.

(** ** [do_delete], [do_subscribe], [do_getsysinfo] *)
Definition do_delete (m : message) : DS Z :=
  let* found := find_key (DS_KEY m) in
  match found with
  | Some dsp =>
      let* s := get in
      let rqst_ep := request_ep m (who_e s) in
      let* d := getd dsp in
      if rqst_ep =? ds_endpoint d then ret EPERM
      else putd dsp (λ d, d.[ds_key := DS_FREE]);;; ret OK
  | None => ret ESRCH
  end.

Definition do_subscribe (m : message) : DS Z := ret ENOSYS.

Definition do_getsysinfo (env : callenv) (m : message) : DS Z :=
  if m1_i1 m =? SI_DATA_STORE then
    let* s := get in
    let rcode := copy_status env (m_source m) (m1_p1 m) in
    if negb (rcode =? OK) then ret rcode
    else
      modify (λ s, s.[copied_out :=
        (m_source m, m1_p1 m, TableImage (ds_store s)) :: copied_out s]);;;
      ret OK
  else ret EINVAL.

(** ** One round of [main]: the reply and its destination

    A signal from PM is not answered; the shutdown it may ask for is not
    modelled. *)
Definition ds_result (r : DS Z) (m : message) : DS (Z * message) :=
  let* z := r in ret (z, m).

Definition ds_round (env : callenv) (m : message) : DS (option (Z * message)) :=
  modify (λ s, s.[who_e := m_source m].[callnr := m_type m]);;;
  let* s := get in
  if callnr s =? PROC_EVENT then ret None
  else
    let* ' (result, m) :=
      (if callnr s =? DS_PUBLISH then ds_result (do_publish env m) m
       else if callnr s =? DS_RETRIEVE then do_retrieve env m
       else if callnr s =? DS_DELETE then ds_result (do_delete m) m
       else if callnr s =? DS_SUBSCRIBE then ds_result (do_subscribe m) m
       else if callnr s =? GETSYSINFO then ds_result (do_getsysinfo env m) m
       else ret (EINVAL, m)) in
    if negb (result =? EDONTREPLY) then ret (Some (who_e s, m.[m_type := result]))
    else ret None.
