(* ===== verification/DsProps.v ===== *)
(** * What the data store promises

    The data store as a map from keys to entries: [published s k] is what the server
    holds for key [k], the invariant [ds_ok] holds in every reachable state, and no
    request makes the server index its table out of range.  Then publishing and
    retrieving, deletion, and what happens to a full table. *)
From stdpp Require Import base gmap list numbers strings.
From Stdlib Require Import ZArith Lia.
From S2P Require Import Prelude.
From S2P Require Import KTypes.
From S2P Require Import DsStore.

(** Does [find_key] take this slot for key [k]? *)
Definition holds (k : Z) (d : data_store) : Prop :=
  band (ds_flags d) DS_IN_USE = true ∧ ds_key d = k.
#[export] Instance holds_dec k d : Decision (holds k d).
Proof. unfold holds. apply _. Defined.

Definition slot_of (k : Z) (t : list data_store) : option (nat * data_store) :=
  list_find (holds k) t.
Definition published (s : dsstate) (k : Z) : option data_store :=
  snd <$> slot_of k (ds_store s).

(** The used slots are the first [nr_in_use] ones; a key other than [DS_FREE] is in
    one slot at most. *)
Record ds_ok (s : dsstate) : Prop := {
  ok_length : length (ds_store s) = Z.to_nat NR_DS_KEYS;
  ok_count : 0 <= nr_in_use s <= NR_DS_KEYS;
  ok_used : ∀ i d, ds_store s !! i = Some d →
    (band (ds_flags d) DS_IN_USE = true ↔ Z.of_nat i < nr_in_use s);
  ok_unique : ∀ i j d d' k, ds_store s !! i = Some d → ds_store s !! j = Some d' →
    holds k d → holds k d' → k ≠ DS_FREE → i = j }.

(** ** Looking up *)
Lemma getd_ok s i d :
  ds_store s !! i = Some d → getd (Z.of_nat i) s = Ret d s.
Proof.
  intros H. unfold getd, bind, get, aget. rewrite (proj2 (Z.leb_le _ _)) by lia.
  by rewrite Nat2Z.id, H.
Qed.

Lemma putd_ok s i d f :
  ds_store s !! i = Some d →
  putd (Z.of_nat i) f s = Ret tt (s.[ds_store := <[i := f d]> (ds_store s)]).
Proof.
  intros H. unfold putd. rewrite (bind_Ret _ _ _ _ _ (getd_ok s i d H)).
  pose proof (lookup_lt_Some _ _ _ H). unfold bind, get, aset.
  rewrite (proj2 (Z.leb_le _ _)), (proj2 (Z.ltb_lt _ _)) by lia. cbn.
  by rewrite Nat2Z.id.
Qed.

Lemma find_from_run k s n i :
  (i + n = length (ds_store s))%nat →
  find_from k n (Z.of_nat i) s =
  Ret ((λ p, Z.of_nat (i + p.1)) <$> slot_of k (drop i (ds_store s))) s.
Proof.
  revert i. induction n as [|n IH]; intros i Hn; cbn [find_from].
  - by rewrite drop_ge by lia.
  - destruct (lookup_lt_is_Some_2 (ds_store s) i) as [d Hd]; [lia|].
    rewrite (bind_Ret _ _ _ _ _ (getd_ok s i d Hd)), (drop_S _ d i Hd).
    unfold slot_of. cbn [list_find]. destruct (decide (holds k d)) as [[Hu Hk]|Hno].
    + rewrite Hu, Hk, Z.eqb_refl. cbn. by rewrite Nat.add_0_r.
    + assert (band (ds_flags d) DS_IN_USE && (ds_key d =? k) = false) as ->.
      { unfold holds in Hno. destruct (band _ _), (Z.eqb_spec (ds_key d) k); tauto. }
      replace (Z.of_nat i + 1) with (Z.of_nat (S i)) by lia. rewrite IH by lia.
      f_equal. unfold slot_of. destruct (list_find _ _) as [[j y]|]; cbn; [|done].
      do 2 f_equal. lia.
Qed.

Lemma find_key_run k s :
  ds_ok s → find_key k s = Ret ((λ p, Z.of_nat p.1) <$> slot_of k (ds_store s)) s.
Proof. intros Hok. unfold find_key. apply (find_from_run k s _ 0). by rewrite ok_length. Qed.

(** ** Updating a slot *)
Section slots.
Implicit Types t : list data_store.

Lemma slot_insert_other k t i d d' :
  t !! i = Some d → ¬ holds k d → ¬ holds k d' →
  snd <$> slot_of k (<[i := d']> t) = snd <$> slot_of k t.
Proof.
  unfold slot_of. revert i. induction t as [|x t IH]; intros i; [done|].
  destruct i as [|i]; cbn [lookup list_lookup insert list_insert list_find].
  - intros [= ->] Hd Hd'. by rewrite (decide_False _ _ Hd'), (decide_False _ _ Hd).
  - intros Hi Hd Hd'. destruct (decide (holds k x)); [done|].
    specialize (IH _ Hi Hd Hd'). destruct (list_find _ (<[i:=d']> t)) as [[]|],
      (list_find _ t) as [[]|]; cbn in *; congruence.
Qed.

Lemma slot_insert_same k t i d d' :
  slot_of k t = Some (i, d) → holds k d' → slot_of k (<[i := d']> t) = Some (i, d').
Proof.
  unfold slot_of. intros (Hi & Hd & Hlt)%list_find_Some Hd'. apply list_find_Some.
  split_and!; [|done|].
  - apply list_lookup_insert_eq. by eapply lookup_lt_Some.
  - intros j y Hy Hj. rewrite list_lookup_insert_ne in Hy by lia. by eapply Hlt.
Qed.

Lemma slot_insert_new k t i d' :
  slot_of k t = None → (i < length t)%nat → holds k d' →
  slot_of k (<[i := d']> t) = Some (i, d').
Proof.
  unfold slot_of. intros Hn Hi Hd'. apply list_find_Some. split_and!; [|done|].
  - by apply list_lookup_insert_eq.
  - intros j y Hy Hj. rewrite list_lookup_insert_ne in Hy by lia.
    apply list_find_None in Hn. exact (Forall_lookup_1 _ _ _ _ Hn Hy).
Qed.
End slots.

(** [s'] is [s] with another entry [d'] in slot [i]. *)
Lemma ds_ok_update s i d d' :
  ds_ok s → ds_store s !! i = Some d → ds_flags d' = ds_flags d →
  ds_key d' = ds_key d ∨ ds_key d' = DS_FREE →
  ds_ok (s.[ds_store := <[i := d']> (ds_store s)]).
Proof.
  intros [Hl Hc Hu Hq] Hi Hf Hk. pose proof (lookup_lt_Some _ _ _ Hi) as Hlt.
  split; cbn; [by rewrite length_insert|done| |].
  - intros j x [[<- [<- _]]|[Hne Hx]]%list_lookup_insert_Some; [|by apply Hu].
    rewrite Hf. by apply Hu.
  - assert (∀ j x k, <[i:=d']> (ds_store s) !! j = Some x → holds k x → k ≠ DS_FREE →
      ∃ y, ds_store s !! j = Some y ∧ holds k y) as Hback.
    { intros j x k [[<- [<- _]]|[Hne Hx]]%list_lookup_insert_Some [Hb Hkx] Hk0; [|by exists x].
      exists d. split; [done|]. split; [congruence|]. destruct Hk; congruence. }
    intros j j' x x' k Hx Hx' Hh Hh' Hk0.
    destruct (Hback _ _ _ Hx Hh Hk0) as (y & Hy & Hhy).
    destruct (Hback _ _ _ Hx' Hh' Hk0) as (y' & Hy' & Hhy'). by eapply Hq.
Qed.

(** [s'] differs from [s] in what it holds for [k] only. *)
Definition only_key (k : Z) (s s' : dsstate) : Prop :=
  (∀ k', k' ≠ k → published s' k' = published s k') ∧ who_e s' = who_e s.

Lemma only_key_trans k s1 s2 s3 : only_key k s1 s2 → only_key k s2 s3 → only_key k s1 s3.
Proof. intros [H1 W1] [H2 W2]. split; [|congruence]. intros. by rewrite H2, H1. Qed.

Lemma slot_of_lookup k s i d :
  slot_of k (ds_store s) = Some (i, d) → ds_store s !! i = Some d ∧ holds k d.
Proof. unfold slot_of. by intros (? & ? & _)%list_find_Some. Qed.

(** Writing the key's slot. *)
Lemma putd_slot s k i d f :
  ds_ok s → slot_of k (ds_store s) = Some (i, d) →
  ds_key (f d) = ds_key d → ds_flags (f d) = ds_flags d →
  ∃ s', putd (Z.of_nat i) f s = Ret tt s' ∧ ds_ok s' ∧
    slot_of k (ds_store s') = Some (i, f d) ∧ only_key k s s' ∧
    nr_in_use s' = nr_in_use s.
Proof.
  intros Hok Hs Hk Hf. destruct (slot_of_lookup _ _ _ _ Hs) as [Hi [Hu Hkd]].
  eexists. split; [by apply putd_ok|]. split_and!; try done.
  - eapply ds_ok_update; [done..|]. by left.
  - apply slot_insert_same with (d := d); [done|]. split; congruence.
  - split; [|done]. intros k' Hne. unfold published. cbn.
    apply slot_insert_other with (d := d); [done| |]; intros [? ?]; congruence.
Qed.

Lemma in_use_lor f : band (Z.lor DS_IN_USE f) DS_IN_USE = true.
Proof.
  unfold band. destruct (Z.eqb_spec (Z.land (Z.lor DS_IN_USE f) DS_IN_USE) 0) as [Heq|]; [|done].
  apply (f_equal (λ z, Z.testbit z 0)) in Heq.
  by rewrite Z.land_spec, Z.lor_spec in Heq.
Qed.

(** The first unused slot. *)
Lemma slot_unused s :
  ds_ok s → nr_in_use s < NR_DS_KEYS →
  ∃ i d, nr_in_use s = Z.of_nat i ∧ ds_store s !! i = Some d ∧
    band (ds_flags d) DS_IN_USE = false.
Proof.
  intros [Hl Hc Hu _] Hlt. exists (Z.to_nat (nr_in_use s)).
  destruct (lookup_lt_is_Some_2 (ds_store s) (Z.to_nat (nr_in_use s))) as [d Hd].
  { rewrite Hl. lia. }
  exists d. split_and!; [lia|done|]. apply not_true_is_false.
  rewrite (Hu _ _ Hd). lia.
Qed.

(** The flags of the key's entry: a new one has those of the request. *)
Definition entry_flags (s : dsstate) (m : message) : Z :=
  match published s (DS_KEY m) with
  | Some d => ds_flags d
  | None => Z.lor DS_IN_USE (DS_FLAGS m)
  end.

(** The table with a new key in the first unused slot. *)
Lemma publish_new s m i d :
  ds_ok s → slot_of (DS_KEY m) (ds_store s) = None → nr_in_use s = Z.of_nat i →
  ds_store s !! i = Some d → band (ds_flags d) DS_IN_USE = false →
  nr_in_use s < NR_DS_KEYS →
  let d' := d.[ds_key := DS_KEY m].[ds_flags := Z.lor DS_IN_USE (DS_FLAGS m)] in
  let s' := s.[ds_store := <[i := d']> (ds_store s)].[nr_in_use := nr_in_use s + 1] in
  ds_ok s' ∧ slot_of (DS_KEY m) (ds_store s') = Some (i, d') ∧ only_key (DS_KEY m) s s'.
Proof.
  intros [Hl Hc Hu Hq] Hn Hnr Hi Hf Hlt d' s'.
  pose proof (lookup_lt_Some _ _ _ Hi) as Hil.
  assert (holds (DS_KEY m) d') as Hd' by (split; [apply in_use_lor|done]).
  split_and!.
  - split; cbn; [by rewrite length_insert|lia| |].
    + intros j x [[<- [<- _]]|[Hne Hx]]%list_lookup_insert_Some.
      * split; [lia|]. intros _. apply in_use_lor.
      * rewrite (Hu _ _ Hx). lia.
    + assert (∀ j x k, ds_store s !! j = Some x → holds k x → holds k d' → False) as Hno.
      { intros j x k Hx Hh [_ <-]. unfold slot_of in Hn. apply list_find_None in Hn.
        by apply (Forall_lookup_1 _ _ _ _ Hn Hx). }
      intros j j' x x' k [[<- [<- _]]|[Hne Hx]]%list_lookup_insert_Some
        [[<- [<- _]]|[Hne' Hx']]%list_lookup_insert_Some Hh Hh' Hk; [done|..|by eapply Hq].
      * by destruct (Hno _ _ _ Hx' Hh').
      * by destruct (Hno _ _ _ Hx Hh).
  - cbn. by apply slot_insert_new.
  - split; [|done]. intros k' Hne. unfold published. cbn.
    apply slot_insert_other with (d := d); [done| |].
    + intros [? _]. congruence.
    + intros [_ Hk]. by apply Hne.
Qed.

(** The slot [do_publish] works on. *)
Lemma publish_slot_run s m :
  ds_ok s → published s (DS_KEY m) ≠ None ∨ nr_in_use s < NR_DS_KEYS →
  ∃ s' i d, publish_slot m s = Ret (inr (Z.of_nat i)) s' ∧ ds_ok s' ∧
    slot_of (DS_KEY m) (ds_store s') = Some (i, d) ∧ ds_flags d = entry_flags s m ∧
    only_key (DS_KEY m) s s' ∧
    nr_in_use s' = nr_in_use s +
      (if decide (published s (DS_KEY m) = None) then 1 else 0).
Proof.
  intros Hok Hroom. unfold publish_slot. rewrite (bind_Ret _ _ _ _ _ (find_key_run _ _ Hok)).
  unfold entry_flags. unfold published in *.
  destruct (slot_of (DS_KEY m) (ds_store s)) as [[i d]|] eqn:Hs; cbn [fmap option_fmap option_map] in *.
  - exists s, i, d. rewrite decide_False by done. split_and!; try done. lia.
  - destruct Hroom as [?|Hlt]; [done|].
    destruct (slot_unused s Hok Hlt) as (i & d & Hnr & Hi & Hf).
    destruct (publish_new s m i d) as (Hok' & Hs' & Ho); [done..|].
    rewrite (bind_Ret get _ s s s) by done. rewrite (proj2 (Z.leb_gt _ _) Hlt). cbv zeta.
    rewrite Hnr, (bind_Ret _ _ _ _ _ (putd_ok s i d _ Hi)).
    set (d1 := d.[ds_key := DS_KEY m]). set (s1 := s.[ds_store := <[i := d1]> (ds_store s)]).
    assert (ds_store s1 !! i = Some d1) as Hi1.
    { apply list_lookup_insert_eq. by eapply lookup_lt_Some. }
    assert (∀ K : bool → DS (Z + Z),
      bind (if negb (band (DS_FLAGS m) cfg_flags) then set_owner (Z.of_nat i) else ret true)
        K s1 = K true s1) as Hown by (intros K; destruct (negb _); reflexivity).
    rewrite Hown. cbn [negb]. rewrite (bind_Ret _ _ _ _ _ (putd_ok s1 i d1 _ Hi1)).
    eexists _, i, _. split; [reflexivity|]. cbn. rewrite list_insert_insert_eq.
    rewrite decide_True by done. split_and!; [exact Hok'|exact Hs'|done|exact Ho|by rewrite Hnr].
Qed.

(** What a published entry says. *)
Record entry_is (d : data_store) (key flags endpoint val_l1 val_l2 : Z) : Prop := {
  ei_key : ds_key d = key;
  ei_flags : ds_flags d = flags;
  ei_endpoint : ds_endpoint d = endpoint;
  ei_val_l1 : ds_val_l1 d = val_l1;
  ei_val_l2 : ds_val_l2 d = val_l2 }.

(** The result of the copy that [do_publish] makes for a configuration. *)
Definition publish_rcode (env : callenv) (m : message) (s : dsstate) : Z :=
  if band (entry_flags s m) cfg_flags then copy_status env (who_e s) (DS_PTR m) else OK.

(** A configuration that was copied and has a string that does not end in its array. *)
Definition bad_config (env : callenv) (m : message) (s : dsstate) : bool :=
  band (entry_flags s m) cfg_flags && (copy_status env (who_e s) (DS_PTR m) =? OK) &&
  negb (printable (entry_flags s m) (user_data env (who_e s) (DS_PTR m))).

(** [do_publish] on the map. *)
Lemma do_publish_run env m s :
  ds_ok s → published s (DS_KEY m) ≠ None ∨ nr_in_use s < NR_DS_KEYS →
  if bad_config env m s then do_publish env m s = Crash else
  ∃ s' d, do_publish env m s = Ret (publish_rcode env m s) s' ∧ ds_ok s' ∧
    published s' (DS_KEY m) = Some d ∧
    entry_is d (DS_KEY m) (entry_flags s m) (request_ep m (who_e s))
      (DS_VAL_L1 m) (DS_VAL_L2 m) ∧
    (band (entry_flags s m) cfg_flags = true → publish_rcode env m s = OK →
     ds_u d = user_data env (who_e s) (DS_PTR m)) ∧
    only_key (DS_KEY m) s s' ∧
    nr_in_use s' = nr_in_use s +
      (if decide (published s (DS_KEY m) = None) then 1 else 0).
Proof.
  intros Hok Hroom.
  destruct (publish_slot_run s m Hok Hroom) as (s1 & i & d & Hrun & Hok1 & Hs1 & Hf & Ho1 & Hn1).
  unfold do_publish. rewrite (bind_Ret _ _ _ _ _ Hrun).
  rewrite (bind_Ret get _ s1 s1 s1) by done. cbv zeta. rewrite (proj2 Ho1).
  set (f := λ d, d.[ds_endpoint := request_ep m (who_e s)]
    .[ds_val_l1 := DS_VAL_L1 m].[ds_val_l2 := DS_VAL_L2 m]).
  destruct (putd_slot s1 (DS_KEY m) i d f) as (s2 & Hp & Hok2 & Hs2 & Ho2 & Hn2); [done..|].
  rewrite (bind_Ret _ _ _ _ _ Hp).
  destruct (slot_of_lookup _ _ _ _ Hs2) as [Hi2 [_ Hk2]].
  rewrite (bind_Ret _ _ _ _ _ (getd_ok s2 i _ Hi2)).
  change (ds_flags (f d)) with (ds_flags d). rewrite Hf.
  pose proof (only_key_trans _ _ _ _ Ho1 Ho2) as Ho.
  assert (entry_is (f d) (DS_KEY m) (entry_flags s m) (request_ep m (who_e s))
    (DS_VAL_L1 m) (DS_VAL_L2 m)) as Hentry by done.
  assert (published s2 (DS_KEY m) = Some (f d)) as Hpub.
  { unfold published. by rewrite Hs2. }
  unfold publish_rcode, bad_config. destruct (band (entry_flags s m) cfg_flags) eqn:Hcfg; cbn [andb].
  2:{ exists s2, (f d). split_and!; try done. congruence. }
  destruct (Z.eqb_spec (copy_status env (who_e s) (DS_PTR m)) OK) as [Hst|Hst]; cbn [negb andb].
  2:{ exists s2, (f d). split_and!; try done. congruence. }
  set (g := λ d, d.[ds_u := user_data env (who_e s) (DS_PTR m)]).
  destruct (putd_slot s2 (DS_KEY m) i (f d) g) as (s3 & Hp' & Hok3 & Hs3 & Ho3 & Hn3); [done..|].
  rewrite (bind_Ret _ _ _ _ _ Hp'). destruct (printable _ _); [|done]. exists s3, (g (f d)). rewrite Hst.
  split_and!; try done.
  - unfold published. by rewrite Hs3.
  - by eapply only_key_trans.
  - congruence.
Qed.

Lemma do_publish_full env m s :
  ds_ok s → published s (DS_KEY m) = None → nr_in_use s = NR_DS_KEYS →
  do_publish env m s = Ret EAGAIN s.
Proof.
  intros Hok Hn Hfull. unfold do_publish, publish_slot. rewrite bind_assoc.
  rewrite (bind_Ret _ _ _ _ _ (find_key_run _ _ Hok)).
  unfold published in Hn. destruct (slot_of _ _); [done|]. cbn.
  unfold bind, get. by rewrite Hfull.
Qed.

(** ** [do_retrieve] on the map *)

(** The reply to a retrieval of the entry [d]. *)
Definition retrieved (m : message) (d : data_store) : message :=
  m.[DS_VAL_L1 := ds_val_l1 d].[DS_VAL_L2 := ds_val_l2 d].[DS_ENDPOINT := ds_endpoint d].

Definition push_copy (x : Z * Z * image) (s : dsstate) : dsstate :=
  s.[copied_out := x :: copied_out s].

(** The precedence of [!] makes every entry public. *)
Lemma never_private flags : is_private flags = false.
Proof. unfold is_private. by destruct (flags =? 0). Qed.

Lemma do_retrieve_run env m s :
  ds_ok s →
  do_retrieve env m s =
  match published s (DS_KEY m) with
  | None => Ret (ESRCH, m) s
  | Some d =>
      if band (ds_flags d) cfg_flags then
        let rcode := copy_status env (who_e s) (DS_PTR m) in
        if rcode =? OK
        then Ret (OK, retrieved m d) (push_copy (who_e s, DS_PTR m, UnionImage (ds_u d)) s)
        else Ret (rcode, retrieved m d) s
      else Ret (OK, retrieved m d) s
  end.
Proof.
  intros Hok. unfold do_retrieve. rewrite (bind_Ret _ _ _ _ _ (find_key_run _ _ Hok)).
  unfold published. destruct (slot_of (DS_KEY m) (ds_store s)) as [[i d]|] eqn:Hs; [|done].
  destruct (slot_of_lookup _ _ _ _ Hs) as [Hi _].
  cbn [fmap option_fmap option_map fst snd].
  rewrite (bind_Ret _ _ _ _ _ (getd_ok s i d Hi)), never_private.
  cbn [negb ret bind]. destruct (band (ds_flags d) cfg_flags); [|done].
  rewrite (bind_Ret get _ s s s) by done. cbv zeta. cbn.
  by destruct (copy_status env (who_e s) (m_w5 m) =? OK).
Qed.

Lemma push_copy_ok x s : ds_ok s → ds_ok (push_copy x s).
Proof. by intros []. Qed.

(** ** [do_delete] on the map *)
Lemma do_delete_run m s d :
  ds_ok s → published s (DS_KEY m) = Some d →
  if request_ep m (who_e s) =? ds_endpoint d then do_delete m s = Ret EPERM s
  else ∃ s', do_delete m s = Ret OK s' ∧ ds_ok s' ∧ nr_in_use s' = nr_in_use s ∧
    (DS_KEY m ≠ DS_FREE → published s' (DS_KEY m) = None) ∧
    (∀ k', k' ≠ DS_KEY m → k' ≠ DS_FREE → published s' k' = published s k').
Proof.
  intros Hok Hp. unfold published in Hp.
  destruct (slot_of (DS_KEY m) (ds_store s)) as [[i d']|] eqn:Hs; [|done].
  injection Hp as ->. destruct (slot_of_lookup _ _ _ _ Hs) as [Hi [Hu Hk]].
  assert (∀ o : outcome dsstate Z, o = do_delete m s → o =
    if request_ep m (who_e s) =? ds_endpoint d then Ret EPERM s
    else Ret OK (s.[ds_store := <[i := d.[ds_key := DS_FREE]]> (ds_store s)])) as Hrun.
  { intros o ->. unfold do_delete. rewrite (bind_Ret _ _ _ _ _ (find_key_run _ _ Hok)), Hs.
    cbn [fmap option_fmap option_map fst]. rewrite (bind_Ret get _ s s s) by done. cbv zeta.
    rewrite (bind_Ret _ _ _ _ _ (getd_ok s i d Hi)).
    destruct (_ =? _); [done|]. by rewrite (bind_Ret _ _ _ _ _ (putd_ok s i d _ Hi)). }
  specialize (Hrun _ eq_refl). destruct (_ =? _); [done|].
  eexists. split; [exact Hrun|].
  assert (ds_ok (s.[ds_store := <[i := d.[ds_key := DS_FREE]]> (ds_store s)])) as Hok'.
  { eapply ds_ok_update; [done..|]. by right. }
  split_and!; [done|done| |].
  - intros Hk0. unfold published, slot_of. cbn.
    destruct (list_find _ _) as [[j y]|] eqn:Hf; [|done]. exfalso.
    apply list_find_Some in Hf as (Hy & Hh & _).
    apply list_lookup_insert_Some in Hy as [[<- [<- _]]|[Hne Hy]].
    + destruct Hh as [_ Hh]. cbn in Hh. congruence.
    + apply Hne. eapply (ok_unique _ Hok); [exact Hi|exact Hy| |exact Hh|done]. by split.
  - intros k' Hne Hk0. unfold published. cbn.
    apply slot_insert_other with (d := d); [done| |]; intros [_ Hh]; cbn in Hh; congruence.
Qed.

(** ** A round of the server *)

(** [get_work] sets the caller and the call. *)
Definition got_work (m : message) (s : dsstate) : dsstate :=
  s.[who_e := m_source m].[callnr := m_type m].

(** What one request does to the table: it stays sound, no slot is given back, and
    a full table takes no new key. *)
Record ds_step (s s' : dsstate) : Prop := {
  st_ok : ds_ok s';
  st_count : nr_in_use s <= nr_in_use s';
  st_full : nr_in_use s = NR_DS_KEYS →
    ∀ k, k ≠ DS_FREE → published s k = None → published s' k = None }.

Lemma ds_step_refl s : ds_ok s → ds_step s s.
Proof. by split. Qed.

Lemma ds_step_trans s1 s2 s3 : ds_step s1 s2 → ds_step s2 s3 → ds_step s1 s3.
Proof.
  intros [O1 C1 F1] [O2 C2 F2]. split; [done|lia|]. intros Hf k Hk Hn.
  apply F2; [|done|by apply F1]. pose proof (ok_count _ O1). lia.
Qed.

(** A request that makes the server print a string that does not end. *)
Definition bad_publish (env : callenv) (m : message) (s : dsstate) : Prop :=
  ¬ (published s (DS_KEY m) = None ∧ nr_in_use s = NR_DS_KEYS) ∧ bad_config env m s = true.

Lemma publish_room m s :
  ds_ok s → ¬ (published s (DS_KEY m) = None ∧ nr_in_use s = NR_DS_KEYS) →
  published s (DS_KEY m) ≠ None ∨ nr_in_use s < NR_DS_KEYS.
Proof.
  intros Hok Hroom. destruct (published s (DS_KEY m)); [by left|right].
  pose proof (ok_count _ Hok). destruct (decide (nr_in_use s = NR_DS_KEYS)); [tauto|lia].
Qed.

Lemma do_publish_step env m s :
  ds_ok s → (bad_publish env m s ∧ do_publish env m s = Crash) ∨
  (¬ bad_publish env m s ∧ ∃ z s', do_publish env m s = Ret z s' ∧ ds_step s s').
Proof.
  intros Hok. destruct (decide (published s (DS_KEY m) = None ∧ nr_in_use s = NR_DS_KEYS))
    as [[Hn Hf]|Hroom].
  - right. split; [intros [Hno _]; tauto|]. exists EAGAIN, s. split; [by apply do_publish_full|by apply ds_step_refl].
  - pose proof (do_publish_run env m s Hok (publish_room m s Hok Hroom)) as Hrun. unfold bad_publish.
    destruct (bad_config env m s); [by left|right]. split; [intros [_ ?]; done|].
    destruct Hrun as (s' & d & Hrun & Hok' & _ & _ & _ & Ho & Hn).
    exists (publish_rcode env m s), s'. split; [done|]. split; [done|case_decide; lia|].
    intros Hfull k Hk Hnone. destruct (decide (k = DS_KEY m)) as [->|Hne].
    + tauto.
    + by rewrite (proj1 Ho).
Qed.

Lemma do_retrieve_step env m s :
  ds_ok s → ∃ z s', do_retrieve env m s = Ret z s' ∧ ds_step s s'.
Proof.
  intros Hok. rewrite do_retrieve_run by done.
  destruct (published s (DS_KEY m)) as [d|]; [|by eauto using ds_step_refl].
  destruct (band _ _); [|by eauto using ds_step_refl]. cbv zeta.
  destruct (_ =? _); [|by eauto using ds_step_refl].
  eexists _, _. split; [done|]. split; [by apply push_copy_ok|done|done].
Qed.

Lemma do_delete_step m s : ds_ok s → ∃ z s', do_delete m s = Ret z s' ∧ ds_step s s'.
Proof.
  intros Hok. destruct (published s (DS_KEY m)) as [d|] eqn:Hp.
  - pose proof (do_delete_run m s d Hok Hp) as Hrun. destruct (_ =? _).
    + eauto using ds_step_refl.
    + destruct Hrun as (s' & Hrun & Hok' & Hn & Hgone & Ho). exists OK, s'.
      split; [done|]. split; [done|lia|]. intros _ k Hk Hnone.
      destruct (decide (k = DS_KEY m)) as [->|Hne]; [by apply Hgone|by rewrite Ho].
  - exists ESRCH, s. split; [|by apply ds_step_refl]. unfold do_delete.
    rewrite (bind_Ret _ _ _ _ _ (find_key_run _ _ Hok)). unfold published in Hp.
    by destruct (slot_of _ _).
Qed.

Lemma do_getsysinfo_step env m s :
  ds_ok s → ∃ z s', do_getsysinfo env m s = Ret z s' ∧ ds_step s s'.
Proof.
  intros Hok. unfold do_getsysinfo, bind, get. destruct (_ =? SI_DATA_STORE); cbn.
  - destruct (_ =? OK); cbn; (eexists _, _; split; [done|]); [|by apply ds_step_refl].
    split; [by apply (push_copy_ok _ s)|done|done].
  - eexists _, _. split; [done|by apply ds_step_refl].
Qed.

Lemma ds_result_step (r : DS Z) m s :
  (∃ z s', r s = Ret z s' ∧ ds_step s s') →
  ∃ z s', ds_result r m s = Ret z s' ∧ ds_step s s'.
Proof.
  intros (z & s' & Hr & Hst). exists (z, m), s'. split; [|done].
  unfold ds_result. by rewrite (bind_Ret _ _ _ _ _ Hr).
Qed.

(** A round crashes on a bad publication, and only then. *)
Definition bad_request (env : callenv) (m : message) (s : dsstate) : Prop :=
  m_type m = DS_PUBLISH ∧ bad_publish env m (got_work m s).

Lemma ds_round_run env m s :
  ds_ok s → (bad_request env m s ∧ ds_round env m s = Crash) ∨
  (¬ bad_request env m s ∧ ∃ r s', ds_round env m s = Ret r s' ∧ ds_step s s').
Proof.
  intros Hok. unfold ds_round. rewrite (bind_Ret (modify _) _ s tt (got_work m s)) by done.
  rewrite (bind_Ret get _ (got_work m s) (got_work m s) (got_work m s)) by done.
  assert (ds_step s (got_work m s)) as Hst by by (destruct Hok; split).
  pose proof (st_ok _ _ Hst) as Hok'. change (callnr (got_work m s)) with (m_type m). unfold bad_request.
  destruct (Z.eqb_spec (m_type m) PROC_EVENT) as [E|E].
  { right. rewrite E. split; [by intros [? _]|]. by eauto. }
  destruct (Z.eqb_spec (m_type m) DS_PUBLISH) as [Ep|Ep].
  - destruct (do_publish_step env m (got_work m s) Hok') as [[Hbad Hrun]|[Hbad (z & s' & Hrun & Hst')]].
    + left. split; [done|]. unfold ds_result. rewrite bind_assoc. by rewrite (bind_Crash _ _ _ Hrun).
    + right. split; [tauto|]. unfold ds_result. rewrite bind_assoc, (bind_Ret _ _ _ _ _ Hrun).
      pose proof (ds_step_trans _ _ _ Hst Hst'). cbn. destruct (negb (z =? EDONTREPLY)); by eauto.
  - right. split; [tauto|].
    match goal with |- context [bind ?b ?k] => set (body := b); set (K := k) end.
    assert (∃ z s', body (got_work m s) = Ret z s' ∧ ds_step (got_work m s) s')
      as ([z m'] & s' & Hb & Hst').
    { subst body. repeat case_match;
        eauto using ds_result_step, do_retrieve_step, do_delete_step,
          do_getsysinfo_step; (eexists _, _; split; [reflexivity|by apply ds_step_refl]). }
    rewrite (bind_Ret _ _ _ _ _ Hb). subst K. cbn.
    pose proof (ds_step_trans _ _ _ Hst Hst'). destruct (negb (z =? EDONTREPLY)); by eauto.
Qed.

(** Rounds one after the other. *)
Fixpoint ds_rounds (reqs : list (callenv * message)) : DS (list (option (Z * message))) :=
  match reqs with
  | [] => ret []
  | (env, m) :: reqs =>
      let* r := ds_round env m in
      let* rs := ds_rounds reqs in
      ret (r :: rs)
  end.

(** The rounds up to a request that stops the server. *)
Definition stops_at (reqs : list (callenv * message)) (s : dsstate) : Prop :=
  ∃ before env m after rs s1, reqs = before ++ (env, m) :: after ∧
    ds_rounds before s = Ret rs s1 ∧ ds_ok s1 ∧ bad_request env m s1.

Lemma ds_rounds_run reqs : ∀ s,
  ds_ok s → (stops_at reqs s ∧ ds_rounds reqs s = Crash) ∨
  ∃ rs s', ds_rounds reqs s = Ret rs s' ∧ ds_step s s'.
Proof.
  induction reqs as [|[env m] reqs IH]; intros s Hok; cbn [ds_rounds].
  - right. exists [], s. split; [done|by apply ds_step_refl].
  - destruct (ds_round_run env m s Hok) as [[Hbad Hrun]|[_ (r & s1 & H1 & Hst1)]].
    { left. split; [|by rewrite (bind_Crash _ _ _ Hrun)]. by exists [], env, m, reqs, [], s. }
    destruct (IH s1 (st_ok _ _ Hst1)) as [[(before & env' & m' & after & rs & s2 & -> & H2 & Hok2 & Hbad) Hrun]|(rs & s2 & H2 & Hst2)].
    + left. split; [|by rewrite (bind_Ret _ _ _ _ _ H1), (bind_Crash _ _ _ Hrun)].
      exists ((env, m) :: before), env', m', after, (r :: rs), s2. split; [done|]. split; [|done].
      cbn [ds_rounds]. by rewrite (bind_Ret _ _ _ _ _ H1), (bind_Ret _ _ _ _ _ H2).
    + right. exists (r :: rs), s2. split; [|by eapply ds_step_trans].
      rewrite (bind_Ret _ _ _ _ _ H1). by rewrite (bind_Ret _ _ _ _ _ H2).
Qed.


(** [do_publish]: a new key in a full table gives [EAGAIN] and changes nothing.
    Otherwise the key's entry has the values and the endpoint of the request, with
    the flags of its first publication; a failed copy of the configuration is
    reported although the entry was written; no other key is touched. *)
Theorem do_publish_spec env m s :
  ds_ok s →
  if decide (published s (DS_KEY m) = None ∧ nr_in_use s = NR_DS_KEYS) then
    do_publish env m s = Ret EAGAIN s
  else if bad_config env m s then do_publish env m s = Crash
  else ∃ s' d,
    do_publish env m s = Ret (publish_rcode env m s) s' ∧
    published s' (DS_KEY m) = Some d ∧
    entry_is d (DS_KEY m) (entry_flags s m) (request_ep m (who_e s))
      (DS_VAL_L1 m) (DS_VAL_L2 m) ∧
    (∀ k, k ≠ DS_KEY m → published s' k = published s k).
Proof.
  intros Hok. destruct (decide _) as [[Hn Hf]|Hroom]; [by apply do_publish_full|].
  pose proof (do_publish_run env m s Hok (publish_room m s Hok Hroom)) as Hrun.
  destruct (bad_config env m s); [done|]. destruct Hrun as (s' & d & Hrun & _ & Hp & He & _ & [Ho _] & _).
  exists s', d. auto.
Qed.

(** After a successful publication anyone who asks for the key gets the values
    and the publisher's endpoint and, for a configuration, a copy of the
    publisher's bytes, even if the entry is not marked [DS_PUBLIC]. *)
Theorem publish_retrieve env m s s1 env2 m2 who :
  ds_ok s → do_publish env m s = Ret OK s1 → DS_KEY m2 = DS_KEY m →
  copy_status env2 who (DS_PTR m2) = OK →
  ∃ reply s2, do_retrieve env2 m2 (s1.[who_e := who]) = Ret (OK, reply) s2 ∧
    DS_VAL_L1 reply = DS_VAL_L1 m ∧ DS_VAL_L2 reply = DS_VAL_L2 m ∧
    DS_ENDPOINT reply = request_ep m (who_e s) ∧
    (band (entry_flags s m) cfg_flags = true →
     head (copied_out s2) =
       Some (who, DS_PTR m2, UnionImage (user_data env (who_e s) (DS_PTR m)))).
Proof.
  intros Hok Hpub Hk Hst.
  destruct (decide (published s (DS_KEY m) = None ∧ nr_in_use s = NR_DS_KEYS))
    as [[Hn Hf]|Hroom].
  { by rewrite (do_publish_full env m s Hok Hn Hf) in Hpub. }
  pose proof (do_publish_run env m s Hok (publish_room m s Hok Hroom)) as Hrun.
  destruct (bad_config env m s); [congruence|]. destruct Hrun as (s' & d & Hrun & Hok' & Hp & He & Hu & _ & _).
  rewrite Hpub in Hrun. injection Hrun as Hrc ->. destruct He as [_ Hfl Hep Hv1 Hv2].
  assert (ds_ok (s'.[who_e := who])) as Hok2 by by destruct Hok'.
  rewrite (do_retrieve_run env2 m2 _ Hok2).
  change (published (s'.[who_e := who]) (DS_KEY m2)) with (published s' (DS_KEY m2)).
  rewrite Hk, Hp, Hfl. cbn -[band]. rewrite Hst.
  destruct (band (entry_flags s m) cfg_flags); cbn.
  - eexists _, _. split; [reflexivity|]. cbn. rewrite Hv1, Hv2, Hep, Hu by done. done.
  - eexists _, _. split; [reflexivity|]. cbn. by rewrite Hv1, Hv2, Hep.
Qed.

(** [do_delete] refuses the owner of the entry, and only the owner: to it the
    call gives [EPERM], to anyone else it deletes the entry. *)
Theorem do_delete_refuses_owner m s d :
  ds_ok s → published s (DS_KEY m) = Some d → DS_KEY m ≠ DS_FREE →
  (request_ep m (who_e s) = ds_endpoint d → do_delete m s = Ret EPERM s) ∧
  (request_ep m (who_e s) ≠ ds_endpoint d →
   ∃ s', do_delete m s = Ret OK s' ∧ published s' (DS_KEY m) = None ∧
     nr_in_use s' = nr_in_use s ∧
     (∀ k, k ≠ DS_KEY m → k ≠ DS_FREE → published s' k = published s k)).
Proof.
  intros Hok Hp Hk. pose proof (do_delete_run m s d Hok Hp) as Hrun.
  destruct (Z.eqb_spec (request_ep m (who_e s)) (ds_endpoint d)) as [He|Hne].
  - done.
  - split; [done|]. intros _. destruct Hrun as (s' & Hrun & _ & Hn & Hgone & Ho).
    exists s'. auto.
Qed.

(** Once [NR_DS_KEYS] different keys have been published the table takes no new
    key again, whatever is deleted meanwhile. *)
Theorem full_store_takes_no_key reqs s replies s' k :
  ds_ok s → nr_in_use s = NR_DS_KEYS → k ≠ DS_FREE → published s k = None →
  ds_rounds reqs s = Ret replies s' →
  published s' k = None ∧
  ∀ env m, DS_KEY m = k → do_publish env m s' = Ret EAGAIN s'.
Proof.
  intros Hok Hf Hk Hn Hrun.
  destruct (ds_rounds_run reqs s Hok) as [[_ ?]|(rs & s2 & Hrun' & [Hok' Hc Hfull])]; [congruence|].
  rewrite Hrun in Hrun'. injection Hrun' as <- <-.
  assert (published s' k = None) as Hn' by by apply Hfull.
  split; [done|]. intros env m <-. apply do_publish_full; [done..|].
  pose proof (ok_count _ Hok'). lia.
Qed.

(** ** Tables for the witnesses *)
Definition free_entry : data_store := DataStore DS_FREE 0 0 0 0 [].
Definition ds_empty : dsstate := DsState (replicate 64 free_entry) 0 0 0 [].
Definition ds_full : dsstate :=
  DsState (map (λ i, DataStore (i + 1) DS_IN_USE 0 0 7 []) (zrange 0 NR_DS_KEYS))
    NR_DS_KEYS 0 0 [].
Definition demo_env : callenv := CallEnv (λ _ _, OK) (λ e p, e :: p :: replicate 302 0).

(** A proc configuration published by process 7 under key 5. *)
Definition demo_publish : message := Message 7 DS_PUBLISH 5 DS_PROC_CFG SELF 11 12 99 0.
Definition demo_retrieve : message := Message 8 DS_RETRIEVE 5 0 0 0 0 98 0.
Definition demo_delete : message := Message 7 DS_DELETE 5 0 SELF 0 0 0 0.

(** The invariant of a table whose slots are all unused, or all in use under
    different keys. *)
Lemma ds_empty_ok : ds_ok ds_empty.
Proof.
  assert (∀ i d, ds_store ds_empty !! i = Some d → d = free_entry) as Hfree.
  { intros i d. cbn [ds_store ds_empty]. by intros [-> _]%lookup_replicate. }
  split; [done|done| |].
  - intros i d ->%Hfree. cbn. split; [done|lia].
  - by intros i j d d' k ->%Hfree _ [? _].
Qed.

Lemma ds_full_ok : ds_ok ds_full.
Proof.
  assert (∀ i d, ds_store ds_full !! i = Some d →
    (i < 64)%nat ∧ d = DataStore (Z.of_nat i + 1) DS_IN_USE 0 0 7 []) as Hd.
  { intros i d. cbn [ds_store ds_full]. rewrite list_lookup_fmap.
    unfold zrange. rewrite list_lookup_fmap. intros H.
    destruct (seq 0 (Z.to_nat (NR_DS_KEYS - 0)) !! i) as [j|] eqn:Hs; [|done].
    apply lookup_seq in Hs as [-> Hlt]. cbn in H. injection H as <-.
    split; [exact Hlt|done]. }
  split; [by vm_compute|done| |].
  - intros i d [Hi ->]%Hd. split; [|done]. unfold ds_full, NR_DS_KEYS. cbn. lia.
  - intros i j d d' k [_ ->]%Hd [_ ->]%Hd [_ Hk] [_ Hk'] _. cbn in *. lia.
Qed.

(** A device with a name of 16 characters. *)
Definition endless_env : callenv := CallEnv (λ _ _, OK) (λ e p, replicate 32 97).
Definition demo_device : message := Message 7 DS_PUBLISH 6 DS_VDEV_CFG SELF 11 12 99 0.
Example endless_name : ds_round endless_env demo_device ds_empty = Crash.
Proof. by vm_compute. Qed.


Lemma do_publish_spec_witness :
  do_publish demo_env (demo_publish.[DS_KEY := 99]) ds_full = Ret EAGAIN ds_full.
Proof.
  pose proof (do_publish_spec demo_env (demo_publish.[DS_KEY := 99]) ds_full ds_full_ok) as H.
  destruct (decide _) as [_|Hno]; [exact H|].
  exfalso. apply Hno. by split; vm_compute.
Defined.

Lemma publish_retrieve_witness :
  ∃ s1 reply s2, do_publish demo_env demo_publish (ds_empty.[who_e := 7]) = Ret OK s1 ∧
    do_retrieve demo_env demo_retrieve (s1.[who_e := 8]) = Ret (OK, reply) s2 ∧
    DS_VAL_L1 reply = 11 ∧ DS_ENDPOINT reply = 7 ∧
    head (copied_out s2) = Some (8, 98, UnionImage (7 :: 99 :: replicate 302 0)).
Proof.
  destruct (do_publish demo_env demo_publish (ds_empty.[who_e := 7]))
    as [z s1| |] eqn:Hp; [|by vm_compute in Hp..].
  assert (z = OK) as -> by by (vm_compute in Hp; injection Hp).
  destruct (publish_retrieve demo_env demo_publish (ds_empty.[who_e := 7]) s1
    demo_env demo_retrieve 8) as (reply & s2 & H1 & H2 & _ & H3 & H4).
  - by destruct ds_empty_ok.
  - exact Hp.
  - done.
  - done.
  - exists s1, reply, s2. split_and!; [done|exact H1|exact H2|exact H3|].
    apply H4. by vm_compute.
Defined.

Lemma do_delete_refuses_owner_witness :
  do_delete demo_delete (ds_full.[who_e := 7]) = Ret EPERM (ds_full.[who_e := 7]).
Proof.
  refine (proj1 (do_delete_refuses_owner demo_delete (ds_full.[who_e := 7])
    (DataStore 5 DS_IN_USE 0 0 7 []) _ _ _) _).
  - by destruct ds_full_ok.
  - by vm_compute.
  - done.
  - done.
Defined.

Lemma full_store_takes_no_key_witness :
  ∃ s', ds_rounds [(demo_env, demo_delete.[m_source := 8])] ds_full =
      Ret [Some (8, demo_delete.[m_source := 8].[m_type := OK])] s' ∧
    published s' 99 = None.
Proof.
  destruct (ds_rounds [(demo_env, demo_delete.[m_source := 8])] ds_full)
    as [rs s'| |] eqn:Hr; [|by vm_compute in Hr..].
  pose proof (full_store_takes_no_key [(demo_env, demo_delete.[m_source := 8])] ds_full rs s' 99 ds_full_ok eq_refl) as H.
  exists s'. split.
  - vm_compute in Hr. by injection Hr as <- <-.
  - apply (H ltac:(done) ltac:(by vm_compute) Hr).
Defined.
