(* ===== verification/PmAlloc.v ===== *)
(** * The memory holes of the process manager ([src/servers/pm/alloc.c])

    The table of holes holds two linked lists: the holes, sorted by address, and
    the unused slots.  The build has [ENABLE_SWAP] 0: [swap_base] is the largest
    number of clicks and [swap_out] always fails.  PM's [panic] ends the server,
    here [crash]. *)
From stdpp Require Import base gmap list numbers strings.
From Stdlib Require Import ZArith Lia.
From S2P Require Import Prelude.
From S2P Require Import KTypes.

Definition NO_MEM : Z := 0.
Definition NR_MEMS : Z := 8.
Definition NR_HOLES : Z := 204.
Definition swap_base : Z := 2 ^ 32 - 1.

Set Primitive Projections.
Record hole := Hole { h_next : option Z; h_base : Z; h_len : Z }.

(** The file's variables; a [struct hole *] is an index of the table. *)
Record pmstate := PmState {
  holes : gmap Z hole;
  hole_head : option Z;
  free_slots : option Z;
  high_watermark : Z;
  pm_vmid : Z }.
Unset Primitive Projections.
#[export] Instance hole_eta : Eta hole := λ r, Hole (h_next r) (h_base r) (h_len r).
#[export] Instance pmstate_eta : Eta pmstate := λ s,
  PmState (holes s) (hole_head s) (free_slots s) (high_watermark s) (pm_vmid s).

Abbreviation PM := (M pmstate).

Definition geth (p : option Z) : PM hole := λ s,
  match p with
  | Some i => match holes s !! i with Some r => Ret r s | None => Crash end
  | None => Crash
  end.
Definition puth (p : option Z) (f : hole → hole) : PM unit := λ s,
  match p with
  | Some i =>
      match holes s !! i with
      | Some r => Ret tt (s.[holes := <[i := f r]> (holes s)])
      | None => Crash
      end
  | None => Crash
  end.

(** Every slot is on a list at most once. *)
Definition hole_fuel : nat := 205.

(** ** [del_slot] and [merge] *)
Definition del_slot (prev_ptr hp : option Z) : PM unit :=
  let* s := get in
  let* r := geth hp in
  (if bool_decide (hp = hole_head s) then modify (λ s, s.[hole_head := h_next r])
   else puth prev_ptr (λ p, p.[h_next := h_next r]));;;
  let* s := get in
  puth hp (λ r, r.[h_next := free_slots s]);;;
  puth hp (λ r, r.[h_len := 0].[h_base := 0]);;;
  modify (λ s, s.[free_slots := hp]).

(** One of the two attempts to absorb the successor of [hp]: [inl] is an early
    return, [inr] the hole the code goes on with. *)
Definition absorb (hp : option Z) : PM (unit + option Z) :=
  let* r := geth hp in
  match h_next r with
  | None => ret (inl tt)
  | Some _ =>
      let* n := geth (h_next r) in
      if u32 (h_base r + h_len r) =? h_base n then
        puth hp (λ r, r.[h_len := u32 (h_len r + h_len n)]);;;
        del_slot hp (h_next r);;;
        ret (inr hp)
      else ret (inr (h_next r))
  end.

Definition merge (hp : option Z) : PM unit :=
  let* r := absorb hp in
  match r with
  | inl _ => skip
  | inr hp => absorb hp;;; skip
  end.

(** ** [alloc_mem] *)
Definition alloc_scan (clicks : Z) :
    option Z * option Z → PM (option Z * option Z + Z) := λ '(prev_ptr, hp),
  match hp with
  | None => ret (inr NO_MEM)
  | Some _ =>
      let* r := geth hp in
      if negb (h_base r <? swap_base) then ret (inr NO_MEM)
      else if clicks <=? h_len r then
        let old_base := h_base r in
        puth hp (λ r, r.[h_base := u32 (h_base r + clicks)].[h_len := u32 (h_len r - clicks)]);;;
        let* s := get in
        let* r := geth hp in
        when (high_watermark s <? h_base r) (modify (λ s, s.[high_watermark := h_base r]));;;
        when (h_len r =? 0) (del_slot prev_ptr hp);;;
        ret (inr old_base)
      else ret (inl (hp, h_next r))
  end.

(** A PM inside a VM first reads the first hole for a debug message. *)
Definition alloc_mem (clicks : Z) : PM Z :=
  let* s := get in
  (if negb (pm_vmid s =? 0) then geth (hole_head s);;; skip else skip);;;
  loop hole_fuel (alloc_scan clicks) (None, hole_head s).

(** ** [free_mem] *)
Definition free_scan (base : Z) :
    option Z * option Z → PM (option Z * option Z + option Z) := λ '(prev_ptr, hp),
  match hp with
  | None => ret (inr prev_ptr)
  | Some _ =>
      let* r := geth hp in
      if h_base r <? base then ret (inl (hp, h_next r)) else ret (inr prev_ptr)
  end.

(** Does the block go on the front of the list? *)
Definition goes_first (base : Z) (hp : option Z) : PM bool :=
  match hp with
  | None => ret true
  | Some _ => let* r := geth hp in ret (base <=? h_base r)
  end.

Definition free_mem (base clicks : Z) : PM unit :=
  if clicks =? 0 then skip
  else
    let* s := get in
    let new_ptr := free_slots s in
    if bool_decide (new_ptr = None) then crash
    else
      puth new_ptr (λ r, r.[h_base := base].[h_len := clicks]);;;
      let* n := geth new_ptr in
      modify (λ s, s.[free_slots := h_next n]);;;
      let hp := hole_head s in
      let* first := goes_first base hp in
      if first : bool then
        puth new_ptr (λ r, r.[h_next := hp]);;;
        modify (λ s, s.[hole_head := new_ptr]);;;
        merge new_ptr
      else
        let* prev_ptr := loop hole_fuel (free_scan base) (None, hp) in
        let* p := geth prev_ptr in
        puth new_ptr (λ r, r.[h_next := h_next p]);;;
        puth prev_ptr (λ r, r.[h_next := new_ptr]);;;
        merge prev_ptr.

(** ** [mem_init] *)
Definition empty_slot (i : Z) : hole :=
  Hole (if i =? NR_HOLES - 1 then None else Some (i + 1)) 0 0.

Definition clear_holes : PM unit :=
  modify (λ s, s
    .[holes := list_to_map (map (λ i, (i, empty_slot i)) (zrange 0 NR_HOLES))]
    .[hole_head := None].[free_slots := Some 0]).

Fixpoint init_chunks (chunks : list (Z * Z)) (free : Z) : PM Z :=
  match chunks with
  | [] => ret free
  | (base, size) :: chunks =>
      if 0 <? size then
        free_mem base size;;;
        init_chunks chunks (u32 (free + size))
      else init_chunks chunks free
  end.

(** [chunks] are the [NR_MEMS] chunks, base and size; the result is [*free]. *)
Definition mem_init (chunks : list (Z * Z)) : PM Z :=
  clear_holes;;;
  init_chunks (rev chunks) 0.

(** ** [mem_holes_copy] *)
Definition sizeof_hole : Z := 12 * NR_HOLES.

(** The result code and, on success, the copy of the table, its size and the
    high watermark. *)
Definition mem_holes_copy (bytes : Z) : PM (Z * option (gmap Z hole * Z * Z)) :=
  let* s := get in
  ret (if bytes <? sizeof_hole then (ENOSPC, None)
       else (0, Some (holes s, sizeof_hole, high_watermark s))).
