(* ===== verification/PmHoles.v ===== *)
(** * The hole lists hold the free regions

    [pm_rep s regs]: the list of holes holds the regions [regs], and it and the
    list of unused slots share out the table.  Each operation of [alloc.c] is
    followed on this state: [del_slot], [merge], [alloc_mem], [free_mem].
    The first part is the abstract state: the free regions, sorted by address, none
    touching the next, with the abstract operations [first_fit] and [release]. *)
From stdpp Require Import base gmap list numbers strings.
From Stdlib Require Import ZArith Lia.
From S2P Require Import Prelude.
From S2P Require Import Chains.
From S2P Require Import PmAlloc.

Abbreviation region := (Z * Z)%type.

(** The regions are not empty, in order, above [lo] and do not touch. *)
Fixpoint separated (lo : Z) (regs : list region) : Prop :=
  match regs with
  | [] => True
  | (b, n) :: rest => lo < b ∧ 0 < n ∧ b + n <= swap_base ∧ separated (b + n) rest
  end.

(** The clicks of the regions. *)
Fixpoint covers (regs : list region) (x : Z) : Prop :=
  match regs with
  | [] => False
  | (b, n) :: rest => b <= x < b + n ∨ covers rest x
  end.

Fixpoint first_fit (c : Z) (regs : list region) : option (Z * list region) :=
  match regs with
  | [] => None
  | (b, n) :: rest =>
      if c <=? n then Some (b, if n =? c then rest else (b + c, n - c) :: rest)
      else '(a, rest') ← first_fit c rest; Some (a, (b, n) :: rest')
  end.

(** Put [r] before [rest], as one region with the first if the two touch. *)
Definition join (r : region) (rest : list region) : list region :=
  match rest with
  | (b, n) :: t => if r.1 + r.2 =? b then (r.1, r.2 + n) :: t else r :: rest
  | [] => [r]
  end.

Fixpoint release (b n : Z) (regs : list region) : list region :=
  match regs with
  | [] => [(b, n)]
  | r :: rest => if b <=? r.1 then join (b, n) regs else join r (release b n rest)
  end.

(** The block may be given back: it lies in the memory and no click is free. *)
Definition returnable (b n : Z) (regs : list region) : Prop :=
  0 <= b ∧ 0 < n ∧ b + n <= swap_base ∧
  Forall (λ r, b + n <= r.1 ∨ r.1 + r.2 <= b) regs.

(** A block below [swap_base]: its end does not wrap around. *)
Definition in_memory (r : region) : Prop := 0 <= r.1 ∧ 0 <= r.2 ∧ r.1 + r.2 <= swap_base.

Definition usable (r : region) : Prop := in_memory r ∧ r.1 < swap_base.

(** [merge] on a region and the two after it. *)
Definition merge_regs (r : region) (rest : list region) : list region :=
  match rest with
  | (b, n) :: t =>
      if r.1 + r.2 =? b then join (r.1, r.2 + n) t else r :: join (b, n) t
  | [] => [r]
  end.

Definition all_below (b : Z) (regs : list region) : Prop := Forall (λ r, r.1 < b) regs.
Definition starts_at_least (b : Z) (regs : list region) : Prop :=
  match regs with [] => True | r :: _ => b <= r.1 end.

(** Two chunks do not share a click. *)
Definition apart (r1 r2 : region) : Prop :=
  r1.2 <= 0 ∨ r2.2 <= 0 ∨ r1.1 + r1.2 <= r2.1 ∨ r2.1 + r2.2 <= r1.1.

(** The sum of the chunks' sizes. *)
Definition total (chunks : list region) : Z :=
  foldr (λ r z, Z.max 0 r.2 + z) 0 chunks.

(** ** The abstract operations *)
Lemma separated_weaken lo lo' regs : lo' <= lo → separated lo regs → separated lo' regs.
Proof. destruct regs as [|[b n] rest]; cbn; [done|]. intuition lia. Qed.

Lemma separated_covers lo regs x : separated lo regs → covers regs x → lo < x.
Proof.
  revert lo. induction regs as [|[b n] rest IH]; cbn; [done|].
  intros lo (? & ? & ? & Hs) [?|Hc]; [lia|]. apply IH in Hs; [lia|done].
Qed.

Lemma first_fit_separated c lo regs b regs' :
  0 <= c → separated lo regs → first_fit c regs = Some (b, regs') →
  separated lo regs'.
Proof.
  intros Hc. revert lo regs'. induction regs as [|[b1 n1] rest IH]; cbn; [done|].
  intros lo regs' (? & ? & ? & Hs). destruct (Z.leb_spec c n1).
  - intros [= <- <-]. destruct (Z.eqb_spec n1 c) as [->|Hne].
    + eapply separated_weaken; [|done]. lia.
    + cbn. replace (b1 + c + (n1 - c)) with (b1 + n1) by lia. intuition lia.
  - destruct (first_fit c rest) as [[a rest']|] eqn:Hf; cbn; [|done].
    intros [= <- <-]. cbn. repeat split; [done..|]. by apply IH.
Qed.

Lemma first_fit_covers c lo regs b regs' :
  0 <= c → separated lo regs → first_fit c regs = Some (b, regs') →
  (∀ x, covers regs x ↔ covers regs' x ∨ b <= x < b + c) ∧
  (∀ x, b <= x < b + c → ¬ covers regs' x).
Proof.
  intros Hc. revert lo regs'. induction regs as [|[b1 n1] rest IH]; cbn; [done|].
  intros lo regs' (? & ? & ? & Hs). destruct (Z.leb_spec c n1).
  - intros [= <- <-]. destruct (Z.eqb_spec n1 c) as [->|Hne].
    + split; [tauto|]. intros x Hx Hcov. eapply separated_covers in Hs; [|done]. lia.
    + cbn. split.
      * intros x. assert (b1 <= x < b1 + n1 ↔
          b1 + c <= x < b1 + c + (n1 - c) ∨ b1 <= x < b1 + c) by lia. tauto.
      * intros x Hx [?|Hcov]; [lia|]. eapply separated_covers in Hs; [|done]. lia.
  - destruct (first_fit c rest) as [[a rest']|] eqn:Hf; cbn; [|done].
    intros [= <- <-]. destruct (IH _ _ Hs eq_refl) as [H1' H2']. cbn. split.
    + intros x. rewrite H1'. tauto.
    + intros x Hx [?|Hcov]; [|by eapply H2'].
      assert (covers rest x) as Hr by (apply H1'; by right).
      eapply separated_covers in Hs; [|done]. lia.
Qed.

Lemma join_covers r rest x :
  0 <= r.2 → Forall (λ r, 0 <= r.2) rest →
  covers (join r rest) x ↔ r.1 <= x < r.1 + r.2 ∨ covers rest x.
Proof.
  destruct r as [b n], rest as [|[b1 n1] t]; cbn; [done|].
  intros ? [? _]%Forall_cons. cbn in *. destruct (Z.eqb_spec (b + n) b1); cbn; [|done].
  assert (b <= x < b + (n + n1) ↔ b <= x < b + n ∨ b1 <= x < b1 + n1) by lia. tauto.
Qed.

Lemma separated_pos lo regs : separated lo regs → Forall (λ r, 0 <= r.2) regs.
Proof.
  revert lo. induction regs as [|[b n] t IH]; intros lo; [constructor|].
  intros (? & ? & ? & ?). constructor; [cbn; lia|eauto].
Qed.

(** [join] restores separation at the seam. *)
Lemma join_separated lo b n rest :
  lo < b → 0 < n → b + n <= swap_base → separated (b + n - 1) rest →
  separated lo (join (b, n) rest).
Proof.
  intros ? ? ? Hs. destruct rest as [|[b1 n1] t]; cbn in *; [done|].
  destruct Hs as (? & ? & ? & ?). destruct (Z.eqb_spec (b + n) b1) as [<-|]; cbn.
  - rewrite Z.add_assoc. intuition lia.
  - intuition lia.
Qed.

Lemma returnable_cons b n r regs :
  returnable b n (r :: regs) → (b + n <= r.1 ∨ r.1 + r.2 <= b) ∧ returnable b n regs.
Proof. unfold returnable. rewrite Forall_cons. tauto. Qed.

Lemma release_separated lo b n regs :
  lo < b → separated lo regs → returnable b n regs → separated lo (release b n regs).
Proof.
  revert lo. induction regs as [|[b1 n1] t IH]; cbn -[join]; intros lo ? Hs Hr.
  - destruct Hr as (? & ? & ? & _). auto.
  - apply returnable_cons in Hr as [Hd Hr]. pose proof Hr as (? & ? & ? & _).
    destruct Hs as (? & ? & ? & Hs). cbn in Hd. destruct (Z.leb_spec b b1).
    + apply join_separated; [done..|]. cbn. intuition lia.
    + apply join_separated; [done..|].
      apply IH; [lia| |done]. eapply separated_weaken; [|done]. lia.
Qed.

Lemma release_covers lo b n regs x :
  lo < b → separated lo regs → returnable b n regs →
  covers (release b n regs) x ↔ covers regs x ∨ b <= x < b + n.
Proof.
  revert lo. induction regs as [|[b1 n1] t IH]; cbn -[join]; intros lo Hlo Hs Hr.
  { tauto. }
  pose proof (separated_pos lo ((b1, n1) :: t) Hs) as Hpos.
  apply returnable_cons in Hr as [Hd Hr]. pose proof Hr as (? & ? & ? & _).
  destruct Hs as (? & ? & ? & Hs). cbn in Hd. destruct (Z.leb_spec b b1).
  - rewrite join_covers by (done || (cbn; lia)). cbn. tauto.
  - assert (separated (b1 + n1 - 1) t) as Hs'
      by (eapply separated_weaken; [|done]; lia).
    rewrite join_covers; [|cbn; lia|].
    + rewrite IH; [cbn; tauto| |exact Hs'|done]. lia.
    + eapply separated_pos, release_separated; [|exact Hs'|done]. lia.
Qed.

(** Giving an allocated block back restores the regions. *)
Lemma join_apart r rest : separated (r.1 + r.2) rest → join r rest = r :: rest.
Proof.
  destruct rest as [|[b n] t]; cbn; [done|]. intros (? & _).
  by rewrite (proj2 (Z.eqb_neq _ _)) by lia.
Qed.

Lemma first_fit_release c lo regs b regs' :
  0 < c → separated lo regs → first_fit c regs = Some (b, regs') →
  release b c regs' = regs.
Proof.
  intros Hc. revert lo regs'. induction regs as [|[b1 n1] t IH]; cbn; [done|].
  intros lo regs' (? & ? & ? & Hs). destruct (Z.leb_spec c n1).
  - intros [= <- <-]. destruct (Z.eqb_spec n1 c) as [->|Hne].
    + pose proof (join_apart (b1, c) t Hs) as Hj.
      destruct t as [|[b2 n2] t]; [done|]. cbn [release fst].
      destruct Hs as (? & _). rewrite (proj2 (Z.leb_le _ _)) by lia. exact Hj.
    + cbn. rewrite (proj2 (Z.leb_le _ _)) by lia. rewrite Z.eqb_refl. cbn.
      by replace (c + (n1 - c)) with n1 by lia.
  - destruct (first_fit c t) as [[a t']|] eqn:Hf; cbn; [|done].
    intros [= <- <-]. cbn -[join].
    assert (b1 + n1 < a).
    { eapply separated_covers; [exact Hs|].
      eapply first_fit_covers; [|done|done|]; [lia|]. right. lia. }
    rewrite (proj2 (Z.leb_gt _ _)) by lia. rewrite (IH _ _ Hs eq_refl).
    by apply join_apart.
Qed.

Lemma in_memory_u32 r : in_memory r → u32 (r.1 + r.2) = r.1 + r.2.
Proof. intros (? & ? & ?). apply u32_id. unfold swap_base in *. lia. Qed.

Lemma separated_usable lo regs : 0 <= lo + 1 → separated lo regs → Forall usable regs.
Proof.
  revert lo. induction regs as [|[b n] t IH]; intros lo Hlo; [constructor|].
  intros (? & ? & ? & Hs). constructor.
  - unfold usable, in_memory. cbn. lia.
  - apply IH in Hs; [done|lia].
Qed.

Lemma merge_regs_join r b n rest :
  merge_regs r ((b, n) :: rest) = join r (join (b, n) rest).
Proof.
  destruct rest as [|[b1 n1] t]; cbn; [done|].
  destruct (Z.eqb_spec (b + n) b1) as [<-|Hne]; cbn;
    destruct (Z.eqb_spec (r.1 + r.2) b) as [<-|Hne']; cbn; try done.
  - rewrite (proj2 (Z.eqb_eq _ _)) by lia. by rewrite Z.add_assoc.
  - by rewrite (proj2 (Z.eqb_neq _ _)) by lia.
Qed.

Lemma release_front b n lo regs :
  separated lo regs → starts_at_least b regs →
  release b n regs = join (b, n) regs ∧ merge_regs (b, n) regs = join (b, n) regs.
Proof.
  destruct regs as [|[b1 n1] t]; cbn; [done|]. intros (? & ? & ? & Hs) Hge.
  rewrite (proj2 (Z.leb_le _ _)) by lia. split; [done|].
  destruct (Z.eqb_spec (b + n) b1) as [<-|].
  - apply join_apart. cbn. by replace (b + (n + n1)) with (b + n + n1) by lia.
  - by rewrite (join_apart (b1, n1)) by done.
Qed.

Lemma release_after b n lo regs1 r rest :
  separated lo (regs1 ++ r :: rest) → returnable b n (regs1 ++ r :: rest) →
  all_below b (regs1 ++ [r]) → starts_at_least b rest →
  release b n (regs1 ++ r :: rest) = regs1 ++ merge_regs r ((b, n) :: rest).
Proof.
  revert lo. induction regs1 as [|[b1 n1] regs1 IH]; intros lo Hs Hr Hb Hge.
  - apply Forall_cons in Hb as [Hb _]. destruct r as [b1 n1]. cbn -[join merge_regs] in *.
    rewrite (proj2 (Z.leb_gt _ _)) by lia. rewrite merge_regs_join.
    f_equal. eapply release_front; [apply Hs|done].
  - apply Forall_cons in Hb as [Hb1 Hb]. destruct Hs as (? & ? & ? & Hs).
    apply returnable_cons in Hr as [Hd Hr]. cbn -[join merge_regs] in *.
    rewrite (proj2 (Z.leb_gt _ _)) by lia. rewrite <- (IH _ Hs Hr Hb Hge).
    apply join_apart. apply release_separated; [|done..]. cbn.
    destruct Hr as (? & ? & ? & _).
    apply Forall_app in Hb as [_ [Hrb _]%Forall_cons].
    assert (b1 + n1 < r.1); [|lia].
    eapply separated_covers; [exact Hs|].
    clear -Hs. revert Hs. generalize (b1 + n1).
    induction regs1 as [|[b2 n2] regs1 IH]; intros lo; destruct r as [b3 n3]; cbn.
    + intros (? & ? & _). lia.
    + intros (_ & _ & _ & Hs). right. by eapply IH.
Qed.

(** What [merge] may assume of the blocks it joins. *)
Lemma returnable_in_memory b n lo regs :
  0 <= lo + 1 → separated lo regs → returnable b n regs →
  Forall in_memory ((b, n) :: regs).
Proof.
  intros Hlo Hs (? & ? & ? & _). constructor; [unfold in_memory; cbn; lia|].
  eapply Forall_impl; [by eapply separated_usable|]. by intros r [? _].
Qed.

Lemma first_fit_returnable c lo regs b regs' :
  0 < c → 0 <= lo + 1 → separated lo regs → first_fit c regs = Some (b, regs') →
  returnable b c regs' ∧ (length regs' <= length regs)%nat.
Proof.
  intros Hc. revert lo regs'. induction regs as [|[b1 n1] t IH]; cbn; [done|].
  intros lo regs' Hlo (? & ? & ? & Hs).
  assert (∀ x, x <= b1 + n1 → Forall (λ r, x <= r.1) t) as Ht.
  { clear IH. intros x Hx. revert Hs Hx. generalize (b1 + n1).
    induction t as [|[b2 n2] t IH]; intros lo'; [constructor|].
    intros (? & ? & ? & Hs) Hx. constructor; [cbn; lia|].
    apply (IH (b2 + n2)); [done|lia]. }
  destruct (Z.leb_spec c n1).
  - intros [= <- <-]. specialize (Ht (b1 + c) ltac:(lia)).
    assert (Forall (λ r, b1 + c <= r.1 ∨ r.1 + r.2 <= b1) t) as Hd.
    { eapply Forall_impl; [exact Ht|]. auto. }
    destruct (Z.eqb_spec n1 c) as [->|Hne]; cbn; (split; [|lia]);
      split_and!; try lia; [done|].
    constructor; [cbn; lia|done].
  - destruct (first_fit c t) as [[a t']|] eqn:Hf; cbn; [|done].
    intros [= <- <-]. destruct (IH (b1 + n1) t') as [(? & ? & ? & Hd) Hl]; [lia|done..|].
    split; [|cbn; lia]. split_and!; try done. constructor; [|done]. right. cbn.
    assert (b1 + n1 < a); [|lia]. eapply separated_covers; [exact Hs|].
    eapply first_fit_covers; [|done|done|]; [lia|]. right. lia.
Qed.

Lemma apart_sym r1 r2 : apart r1 r2 → apart r2 r1.
Proof. unfold apart. lia. Qed.

Lemma join_length r rest : (length (join r rest) <= S (length rest))%nat.
Proof. destruct rest as [|[b n] t]; cbn; [lia|]. case_match; cbn; lia. Qed.

Lemma release_length b n regs : (length (release b n regs) <= S (length regs))%nat.
Proof.
  induction regs as [|r t IH]; cbn -[join]; [lia|]. case_match.
  - pose proof (join_length (b, n) (r :: t)). cbn in *. lia.
  - pose proof (join_length r (release b n t)). lia.
Qed.

(** A block none of whose clicks is free may be given back. *)
Lemma uncovered_returnable b n lo regs :
  separated lo regs → 0 <= b → 0 < n → b + n <= swap_base →
  (∀ x, b <= x < b + n → ¬ covers regs x) → returnable b n regs.
Proof.
  intros Hs ? ? ? Hx. split_and!; [done..|]. revert lo Hs Hx.
  induction regs as [|[b1 n1] t IH]; intros lo; [constructor|].
  intros (? & ? & ? & Hs) Hx. constructor.
  - cbn. destruct (decide (b + n <= b1 ∨ b1 + n1 <= b)) as [|Hno]; [done|].
    exfalso. apply (Hx (Z.max b b1)); [lia|]. left. lia.
  - apply (IH _ Hs). intros x Hin Hc. apply (Hx x Hin). by right.
Qed.

Lemma apart_uncovered r chunks x :
  Forall (apart r) chunks → r.1 <= x < r.1 + r.2 → ¬ covers chunks x.
Proof.
  intros Hap Hx. induction Hap as [|[b n] t Hr _ IH]; cbn; [tauto|].
  intros [?|?]; [|tauto]. unfold apart in Hr. cbn in Hr. lia.
Qed.

Lemma covers_app l1 l2 x : covers (l1 ++ l2) x ↔ covers l1 x ∨ covers l2 x.
Proof. induction l1 as [|[b n] t IH]; cbn; [tauto|]. rewrite IH. tauto. Qed.

Lemma covers_rev l x : covers (rev l) x ↔ covers l x.
Proof.
  induction l as [|[b n] t IH]; cbn; [done|]. rewrite covers_app, IH. cbn. tauto.
Qed.

Lemma total_rev l : total (rev l) = total l.
Proof.
  assert (∀ l1 l2, total (l1 ++ l2) = total l1 + total l2) as Happ.
  { intros l1 l2. unfold total. induction l1 as [|r l1 IH]; cbn; lia. }
  induction l as [|r l IH]; [done|]. cbn [rev]. rewrite Happ, IH. unfold total. cbn. lia.
Qed.

Lemma apart_rev l : ForallOrdPairs apart l → ForallOrdPairs apart (rev l).
Proof.
  assert (∀ l1 r, ForallOrdPairs apart l1 → Forall (apart r) l1 →
    ForallOrdPairs apart (l1 ++ [r])) as Hsnoc.
  { intros l1 r. induction 1 as [|r1 l1 Hr Hl IH]; intros Hf; cbn.
    - repeat constructor.
    - apply Forall_cons in Hf as [Hr1 Hf]. constructor; [|by apply IH].
      apply Forall_app. split; [done|]. constructor; [by apply apart_sym|done]. }
  induction 1 as [|r l Hr Hl IH]; cbn; [constructor|].
  apply Hsnoc; [done|]. by apply Forall_rev.
Qed.

(** The hole in a slot, its base and length. *)
Definition slot_region (hm : gmap Z hole) (i : Z) : option region :=
  (λ r, (h_base r, h_len r)) <$> hm !! i.

(** [l] is the list of holes, [fr] the list of unused slots. *)
Record pm_lists (s : pmstate) (l fr : list Z) : Prop := {
  pl_holes : chain h_next (holes s) (hole_head s) l;
  pl_free : chain h_next (holes s) (free_slots s) fr;
  pl_nodup : NoDup (l ++ fr) }.

Definition pm_rep (s : pmstate) (regs : list region) : Prop :=
  ∃ l fr, pm_lists s l fr ∧ Z.of_nat (length (l ++ fr)) = NR_HOLES ∧
    map (slot_region (holes s)) l = map Some regs.

(** ** The table's slots *)

(** [s'] differs from [s] in the lists and in the holes of the slots of [X]. *)
Record slots_only (X : list Z) (s s' : pmstate) : Prop := {
  so_region : ∀ i, i ∉ X → slot_region (holes s') i = slot_region (holes s) i;
  so_mark : high_watermark s' = high_watermark s;
  so_vmid : pm_vmid s' = pm_vmid s }.

Lemma slots_only_trans X s1 s2 s3 :
  slots_only X s1 s2 → slots_only X s2 s3 → slots_only X s1 s3.
Proof.
  intros [H1 M1 V1] [H2 M2 V2]. split; [|congruence..].
  intros i Hi. by rewrite H2, H1.
Qed.

Lemma slots_only_mono (X Y : list Z) s s' :
  X ⊆ Y → slots_only X s s' → slots_only Y s s'.
Proof. intros HXY [H1 ? ?]. split; [|done..]. intros i Hi. apply H1. set_solver. Qed.

Lemma geth_ok s i r : holes s !! i = Some r → geth (Some i) s = Ret r s.
Proof. intros H. unfold geth. by rewrite H. Qed.

Lemma puth_ok s i f r :
  holes s !! i = Some r →
  puth (Some i) f s = Ret tt (s.[holes := <[i := f r]> (holes s)]).
Proof. intros H. unfold puth. by rewrite H. Qed.

Lemma slot_region_insert_ne hm i j r :
  i ≠ j → slot_region (<[i := r]> hm) j = slot_region hm j.
Proof. intros. unfold slot_region. by rewrite lookup_insert_ne. Qed.

Lemma slot_region_insert_eq hm i r :
  slot_region (<[i := r]> hm) i = Some (h_base r, h_len r).
Proof. unfold slot_region. by rewrite lookup_insert_eq. Qed.

Lemma slots_only_insert s i r : slots_only [i] s (s.[holes := <[i := r]> (holes s)]).
Proof.
  split; [|done..]. intros j Hj. cbn. apply slot_region_insert_ne. set_solver.
Qed.

Lemma slot_region_inv hm i b n :
  slot_region hm i = Some (b, n) →
  ∃ r, hm !! i = Some r ∧ h_base r = b ∧ h_len r = n.
Proof.
  unfold slot_region. destruct (hm !! i) as [r|]; cbn; [|done]. intros [= <- <-]. eauto.
Qed.

Lemma regions_agree hm hm' l :
  (∀ i, i ∈ l → slot_region hm' i = slot_region hm i) →
  map (slot_region hm') l = map (slot_region hm) l.
Proof. intros H. apply map_ext_in. intros i Hi. apply H. by apply list_elem_of_In. Qed.

(** Changing a hole's base and length leaves the lists alone. *)
Lemma pm_lists_insert s l fr i r r' :
  pm_lists s l fr → holes s !! i = Some r → h_next r' = h_next r →
  pm_lists (s.[holes := <[i := r']> (holes s)]) l fr.
Proof.
  intros [H1 H2 H3] Hi Hn. split; cbn; [..|done]; by eapply chain_insert_link.
Qed.

Lemma pm_lists_slot s l1 a l2 fr :
  pm_lists s (l1 ++ a :: l2) fr →
  ∃ r, holes s !! a = Some r ∧ chain h_next (holes s) (h_next r) l2.
Proof. intros [H1 _ _]. by eapply chain_app. Qed.

(** The element [a] of the first of two lists of distinct slots. *)
Lemma nodup_parts (l1 l2 fr : list Z) a :
  NoDup ((l1 ++ a :: l2) ++ fr) →
  (a ∉ l1) ∧ (a ∉ l2) ∧ (a ∉ fr) ∧ NoDup (l1 ++ [a]) ∧ NoDup ((l1 ++ l2) ++ a :: fr).
Proof.
  intros H3.
  assert (NoDup ((l1 ++ l2) ++ a :: fr)) as Hnd.
  { eapply NoDup_Permutation_proper; [|exact H3].
    rewrite <- !app_assoc. apply Permutation_app_head. cbn.
    symmetry. apply Permutation_middle. }
  apply NoDup_app in H3 as (H3 & Hd & _).
  assert (a ∉ fr) by (apply Hd; set_solver).
  change (a :: l2) with ([a] ++ l2) in H3. rewrite (assoc_L (++)) in H3. apply NoDup_app in H3 as (H1 & Hd' & _).
  assert (a ∉ l2) by (apply Hd'; set_solver).
  split_and!; [|done..]. apply NoDup_app in H1 as (_ & Hd1 & _).
  intros Hin. apply (Hd1 a Hin). set_solver.
Qed.

(** [del_slot] moves a hole to the unused slots. *)
Lemma del_slot_run s l1 a l2 fr :
  pm_lists s (l1 ++ a :: l2) fr →
  ∃ s', del_slot (last l1) (Some a) s = Ret tt s' ∧
    pm_lists s' (l1 ++ l2) (a :: fr) ∧ slots_only [a] s s'.
Proof.
  intros Hl. destruct (pm_lists_slot _ _ _ _ _ Hl) as (r & Hr & Hc).
  destruct Hl as [H1 H2 H3].
  destruct (nodup_parts _ _ _ _ H3) as (Ha1 & Ha2 & Hafr & _ & Hnd).
  unfold del_slot. rewrite (bind_Ret get _ s s s) by done.
  rewrite (bind_Ret _ _ _ _ _ (geth_ok s a r Hr)).
  destruct (last l1) as [p|] eqn:Hlast.
  - apply last_Some in Hlast as [l1' ->].
    assert (NoDup (l1' ++ [p]) ∧ (p ∉ l2) ∧ (p ∉ fr)) as (Hnp & Hp2 & Hpfr).
    { clear -H3. rewrite <- (app_assoc l1' [p]) in H3. apply nodup_parts in H3.
      set_solver. }
    rewrite <- app_assoc in H1. cbn in H1.
    rewrite bool_decide_false.
    2:{ rewrite (chain_head _ _ _ _ H1). intros Heq. apply Ha1.
        destruct l1'; cbn in Heq; injection Heq as ->; set_solver. }
    destruct (chain_app _ _ _ _ _ _ H1) as (rp & Hp & _).
    erewrite (bind_Ret (puth (Some p) _)) by by apply puth_ok.
    assert (p ≠ a) by set_solver.
    unfold bind, get, modify, puth. cbn. rewrite lookup_insert_ne, Hr by done. cbn.
    rewrite lookup_insert_eq. cbn. eexists. split; [done|].
    split.
    + split; cbn; [| |done].
      * apply chain_insert_ne; [set_solver|]. apply chain_insert_ne; [set_solver|].
        rewrite <- app_assoc. cbn. eapply chain_redirect; [| |done|exact H1|].
        -- done.
        -- set_solver.
        -- done.
      * split; [done|]. eexists. split; [by apply lookup_insert_eq|]. cbn.
        do 2 (apply chain_insert_ne; [done|]). by apply chain_insert_ne.
    + split; cbn; [|done..]. intros j Hj.
      do 2 rewrite slot_region_insert_ne by (clear -Hj; set_solver).
      destruct (decide (j = p)) as [->|]; [|by apply slot_region_insert_ne].
      rewrite slot_region_insert_eq. unfold slot_region. by rewrite Hp.
  - apply last_None in Hlast as ->. cbn in H1. destruct H1 as [H1 _].
    rewrite bool_decide_true by done.
    unfold bind, get, modify, puth. cbn. rewrite Hr. cbn. rewrite lookup_insert_eq. cbn.
    eexists. split; [done|]. split.
    + split; cbn; [| |done].
      * by repeat (apply chain_insert_ne; [done|]).
      * split; [done|]. eexists. split; [by apply lookup_insert_eq|]. cbn.
        by repeat (apply chain_insert_ne; [done|]).
    + split; cbn; [|done..]. intros j Hj.
      by do 2 rewrite slot_region_insert_ne by (clear -Hj; set_solver).
Qed.

(** ** [merge] *)

(** [absorb] on the hole [a] with the holes of [l2] after it. *)
Lemma absorb_last s l1 a fr :
  pm_lists s (l1 ++ [a]) fr → absorb (Some a) s = Ret (inl tt) s.
Proof.
  intros Hl. destruct (pm_lists_slot _ _ _ _ _ Hl) as (r & Hr & Hc). cbn in Hc.
  unfold absorb. rewrite (bind_Ret _ _ _ _ _ (geth_ok s a r Hr)). by rewrite Hc.
Qed.

Lemma absorb_apart s l1 a b l2 fr ra rb :
  pm_lists s (l1 ++ a :: b :: l2) fr → in_memory ra →
  slot_region (holes s) a = Some ra → slot_region (holes s) b = Some rb →
  ra.1 + ra.2 ≠ rb.1 → absorb (Some a) s = Ret (inr (Some b)) s.
Proof.
  intros Hl Hm Ha Hb Hne. destruct (pm_lists_slot _ _ _ _ _ Hl) as (r & Hr & Hc).
  cbn in Hc. destruct Hc as (Hn & r2 & Hr2 & _). destruct ra as [b1 n1], rb as [b2 n2].
  apply in_memory_u32 in Hm. unfold slot_region in *. rewrite Hr in Ha. rewrite Hr2 in Hb.
  cbn in *. injection Ha as <- <-. injection Hb as <- <-.
  unfold absorb. rewrite (bind_Ret _ _ _ _ _ (geth_ok s a r Hr)). rewrite Hn.
  rewrite (bind_Ret _ _ _ _ _ (geth_ok s b r2 Hr2)).
  by rewrite Hm, (proj2 (Z.eqb_neq _ _) Hne).
Qed.

Lemma absorb_joins s l1 a b l2 fr ra rb :
  pm_lists s (l1 ++ a :: b :: l2) fr → in_memory ra → in_memory rb →
  slot_region (holes s) a = Some ra → slot_region (holes s) b = Some rb →
  ra.1 + ra.2 = rb.1 →
  ∃ s', absorb (Some a) s = Ret (inr (Some a)) s' ∧
    pm_lists s' (l1 ++ a :: l2) (b :: fr) ∧ slots_only [a; b] s s' ∧
    slot_region (holes s') a = Some (ra.1, ra.2 + rb.2).
Proof.
  intros Hl Hm Hmb Ha Hb Heq. destruct (pm_lists_slot _ _ _ _ _ Hl) as (r & Hr & Hc).
  cbn in Hc. destruct Hc as (Hn & r2 & Hr2 & _). destruct ra as [b1 n1], rb as [b2 n2].
  pose proof Hm as Hm'. apply in_memory_u32 in Hm'. unfold in_memory, swap_base in *.
  unfold slot_region in Ha, Hb. rewrite Hr in Ha. rewrite Hr2 in Hb. cbn in *.
  injection Ha as <- <-. injection Hb as <- <-.
  assert (a ≠ b).
  { destruct Hl as [_ _ H3]. apply nodup_parts in H3. set_solver. }
  unfold absorb. rewrite (bind_Ret _ _ _ _ _ (geth_ok s a r Hr)). rewrite Hn.
  rewrite (bind_Ret _ _ _ _ _ (geth_ok s b r2 Hr2)).
  rewrite Hm', (proj2 (Z.eqb_eq _ _) Heq).
  rewrite (bind_Ret _ _ _ _ _ (puth_ok s a _ r Hr)).
  set (s1 := s.[holes := _]).
  assert (pm_lists s1 ((l1 ++ [a]) ++ b :: l2) fr) as Hl1.
  { rewrite <- app_assoc. by eapply pm_lists_insert. }
  destruct (del_slot_run _ _ _ _ _ Hl1) as (s' & Hd & Hl' & Ho).
  rewrite last_snoc in Hd. erewrite bind_Ret by exact Hd.
  exists s'. split; [done|]. rewrite <- app_assoc in Hl'. split; [done|]. split.
  - eapply slots_only_trans; [|eapply slots_only_mono, Ho; set_solver].
    eapply slots_only_mono, slots_only_insert. set_solver.
  - rewrite (so_region _ _ _ Ho) by set_solver. subst s1. cbn.
    rewrite slot_region_insert_eq. cbn. rewrite u32_id by lia. done.
Qed.

(** The holes from slot [a] on are [regs], in the slots [l2]. *)
Record tail_rep (s : pmstate) (l1 l2 fr : list Z) (regs : list region) : Prop := {
  tr_lists : pm_lists s (l1 ++ l2) fr;
  tr_regs : map (slot_region (holes s)) l2 = map Some regs }.

(** The slots of [l2] end as the regions [regs], those before are not touched. *)
Definition tail_step (s s' : pmstate) (l1 l2 fr : list Z) (regs : list region) : Prop :=
  ∃ l2' fr', tail_rep s' l1 l2' fr' regs ∧
    length (l2' ++ fr') = length (l2 ++ fr) ∧ slots_only l2 s s'.

Lemma tail_rep_cons s l1 a l2 fr r rest :
  tail_rep s l1 (a :: l2) fr (r :: rest) ↔
  slot_region (holes s) a = Some r ∧ tail_rep s (l1 ++ [a]) l2 fr rest.
Proof.
  split.
  - intros [Hl [= Hr Hm]]. split; [done|]. split; [|done]. by rewrite <- app_assoc.
  - intros (Hr & Hl & Hm). rewrite <- app_assoc in Hl. split; [done|].
    cbn. by rewrite Hr, Hm.
Qed.

Lemma tail_step_skip s s' l1 a l2 fr r rest :
  slot_region (holes s) a = Some r → a ∉ l2 →
  tail_step s s' (l1 ++ [a]) l2 fr rest → tail_step s s' l1 (a :: l2) fr (r :: rest).
Proof.
  intros Ha Hni (l2' & fr' & Hr & Hlen & Ho). exists (a :: l2'), fr'. split_and!.
  - apply tail_rep_cons. split; [|done]. by rewrite (so_region _ _ _ Ho).
  - cbn. by rewrite Hlen.
  - eapply slots_only_mono; [|done]. set_solver.
Qed.

Lemma tail_step_refl s l1 l2 fr regs :
  tail_rep s l1 l2 fr regs → tail_step s s l1 l2 fr regs.
Proof. intros Hr. exists l2, fr. split_and!; [done..|]. by split. Qed.

(** The state after the hole [b] was absorbed into [a]. *)
Lemma absorb_joins_tail s l1 a l2 fr r b n t :
  tail_rep s l1 (a :: l2) fr (r :: (b, n) :: t) → Forall in_memory (r :: (b, n) :: t) →
  r.1 + r.2 = b →
  ∃ s' l2' fr', absorb (Some a) s = Ret (inr (Some a)) s' ∧
    tail_rep s' l1 (a :: l2') fr' ((r.1, r.2 + n) :: t) ∧
    length (a :: l2' ++ fr') = length (a :: l2 ++ fr) ∧
    slots_only (a :: l2) s s' ∧ l2' ⊆ l2.
Proof.
  intros [Hl [= Ha Hm]] (Hir & (Hib & _)%Forall_cons)%Forall_cons Heq.
  destruct l2 as [|c l2]; [done|]. cbn in Hm. injection Hm as Hc Hm.
  destruct (absorb_joins _ _ _ _ _ _ _ _ Hl Hir Hib Ha Hc Heq)
    as (s' & Hab & Hl' & Ho & Hra).
  pose proof (pl_nodup _ _ _ Hl) as Hnd. rewrite <- app_assoc in Hnd. cbn in Hnd.
  exists s', l2, (c :: fr). split_and!; [done| | | |set_solver].
  - split; [done|]. cbn. rewrite Hra. f_equal. rewrite <- Hm. apply regions_agree.
    intros i Hi. apply (so_region _ _ _ Ho).
    apply NoDup_app in Hnd as (_ & _ & Hnd). clear -Hnd Hi.
    apply NoDup_cons in Hnd as [Ha Hnd]. apply NoDup_cons in Hnd as [Hc _]. set_solver.
  - cbn. rewrite !length_app. cbn. lia.
  - eapply slots_only_mono; [|done]. set_solver.
Qed.

Lemma tail_rep_fresh s l1 a l2 fr regs :
  tail_rep s l1 (a :: l2) fr regs → (a ∉ l1) ∧ (a ∉ l2).
Proof. intros [[_ _ Hnd] _]. apply nodup_parts in Hnd. tauto. Qed.

Lemma tail_step_trans s s1 s' l1 l2 l2' fr fr' regs :
  slots_only l2 s s1 → l2' ⊆ l2 → length (l2' ++ fr') = length (l2 ++ fr) →
  tail_step s1 s' l1 l2' fr' regs → tail_step s s' l1 l2 fr regs.
Proof.
  intros Ho Hsub Hlen (l2'' & fr'' & Hr & Hlen' & Ho'). exists l2'', fr''. split_and!.
  - done.
  - congruence.
  - eapply slots_only_trans; [done|]. by eapply slots_only_mono.
Qed.

(** One attempt to absorb refines [join]. *)
Lemma absorb_run s l1 a l2 fr r rest :
  tail_rep s l1 (a :: l2) fr (r :: rest) → Forall in_memory (r :: rest) →
  ∃ o s', absorb (Some a) s = Ret o s' ∧ tail_step s s' l1 (a :: l2) fr (join r rest).
Proof.
  intros Hr Him. destruct rest as [|[b n] t].
  - pose proof Hr as [Hl [= _ Hm]]. destruct l2; [|done].
    eexists _, s. split; [by eapply absorb_last|]. by apply tail_step_refl.
  - cbn. destruct (Z.eqb_spec (r.1 + r.2) b) as [Heq|Hne].
    + destruct (absorb_joins_tail _ _ _ _ _ _ _ _ _ Hr Him Heq)
        as (s' & l2' & fr' & Hab & Hr' & Hlen & Ho & Hsub).
      eexists _, s'. split; [done|].
      eapply (tail_step_trans _ s' _ _ _ (a :: l2') _ fr');
        [done|set_solver|exact Hlen|by apply tail_step_refl].
    + pose proof Hr as [Hl [= Ha Hm]]. destruct l2 as [|c l2]; [done|].
      cbn in Hm. injection Hm as Hc _. apply Forall_cons in Him as [Hi _].
      eexists _, s. split; [by eapply absorb_apart|]. by apply tail_step_refl.
Qed.

Lemma merge_run s l1 a l2 fr r rest :
  tail_rep s l1 (a :: l2) fr (r :: rest) → Forall in_memory (r :: rest) →
  ∃ s', merge (Some a) s = Ret tt s' ∧
    tail_step s s' l1 (a :: l2) fr (merge_regs r rest).
Proof.
  intros Hr Him. unfold merge. destruct rest as [|[b n] t].
  - pose proof Hr as [Hl [= _ Hm]]. destruct l2; [|done].
    erewrite bind_Ret by (by eapply absorb_last).
    eexists. split; [done|]. by apply tail_step_refl.
  - cbn. destruct (Z.eqb_spec (r.1 + r.2) b) as [Heq|Hne].
    + destruct (absorb_joins_tail _ _ _ _ _ _ _ _ _ Hr Him Heq)
        as (s1 & l2' & fr' & Hab & Hr' & Hlen & Ho & Hsub).
      erewrite bind_Ret by exact Hab. cbn.
      destruct (absorb_run _ _ _ _ _ _ _ Hr') as (o & s' & Hab' & Hst).
      { do 2 apply Forall_cons in Him as [? Him]. constructor; [|done].
        unfold in_memory in *. cbn in *. lia. }
      exists s'. split; [by erewrite bind_Ret by exact Hab'|].
      eapply (tail_step_trans _ s1 _ _ _ (a :: l2') _ fr');
        [done|set_solver|exact Hlen|done].
    + pose proof Hr as [Hl [= Ha Hm]]. destruct l2 as [|c l2]; [done|].
      cbn in Hm. injection Hm as Hc _. apply Forall_cons in Him as [Hi Him].
      erewrite bind_Ret by (by eapply absorb_apart). cbn.
      pose proof (tail_rep_fresh _ _ _ _ _ _ Hr) as [_ Hni].
      apply tail_rep_cons in Hr as [_ Hr].
      destruct (absorb_run _ _ _ _ _ _ _ Hr Him) as (o & s' & Hab' & Hst).
      exists s'. split; [by erewrite bind_Ret by exact Hab'|].
      by apply tail_step_skip.
Qed.

(** ** [alloc_mem] *)
Lemma tail_step_rep s s' l1 l2 fr regs1 regs2 :
  tail_step s s' l1 l2 fr regs2 → map (slot_region (holes s)) l1 = map Some regs1 →
  NoDup ((l1 ++ l2) ++ fr) → Z.of_nat (length ((l1 ++ l2) ++ fr)) = NR_HOLES →
  pm_rep s' (regs1 ++ regs2).
Proof.
  intros (l2' & fr' & [Hl Hm] & Hlen & Ho) Hm1 Hnd Hn. exists (l1 ++ l2'), fr'.
  split_and!; [done| |].
  - rewrite <- Hn, <- !app_assoc, !(length_app l1), Hlen. done.
  - rewrite !map_app, Hm, <- Hm1. f_equal. apply regions_agree.
    intros i Hi. apply (so_region _ _ _ Ho). intros Hi2.
    apply NoDup_app in Hnd as (Hnd & _ & _). apply NoDup_app in Hnd as (_ & Hd & _).
    by apply (Hd i).
Qed.

(** Record the new high watermark of used memory. *)
Definition mark (x : Z) (s : pmstate) : pmstate :=
  s.[high_watermark := Z.max (high_watermark s) x].

Lemma mark_run x s :
  when (high_watermark s <? x) (modify (λ s, s.[high_watermark := x])) s =
  Ret tt (mark x s).
Proof.
  unfold mark. destruct (Z.ltb_spec (high_watermark s) x); cbn.
  - by rewrite Z.max_r by lia.
  - by rewrite Z.max_l by lia.
Qed.

Lemma tail_rep_mark s x l1 l2 fr regs :
  tail_rep s l1 l2 fr regs → tail_rep (mark x s) l1 l2 fr regs.
Proof. intros [[H1 H2 H3] Hm]. split; [by split|done]. Qed.

(** The hole [a] fits: it is bitten, and goes when nothing is left of it. *)
Lemma alloc_scan_fits c s l1 a l2 fr b n rest :
  tail_rep s l1 (a :: l2) fr ((b, n) :: rest) →
  in_memory (b, n) → b < swap_base → 0 <= c <= n →
  ∃ s', alloc_scan c (last l1, Some a) s = Ret (inr b) s' ∧
    tail_step (mark (b + c) s) s' l1 (a :: l2) fr
      (if n =? c then rest else (b + c, n - c) :: rest).
Proof.
  intros Hr (Hb & Hn & Hbn) Hlt Hc. pose proof Hr as [Hl [= Ha Hm]].
  pose proof (tail_rep_fresh _ _ _ _ _ _ Hr) as [_ Hni].
  destruct (slot_region_inv _ _ _ _ Ha) as (r & Hh & Hrb & Hrn).
  unfold alloc_scan. rewrite (bind_Ret _ _ _ _ _ (geth_ok s a r Hh)).
  rewrite Hrb, Hrn, (proj2 (Z.ltb_lt _ _) Hlt). cbn in *.
  rewrite (proj2 (Z.leb_le _ _)) by lia.
  rewrite (bind_Ret _ _ _ _ _ (puth_ok s a _ r Hh)).
  set (r1 := fupd h_len _ _). set (s1 := s.[holes := _]).
  assert (h_base r1 = b + c ∧ h_len r1 = n - c ∧ h_next r1 = h_next r) as (Hb1 & Hn1 & Hnx).
  { unfold swap_base in *. cbn. rewrite Hrb, Hrn, !u32_id by lia. done. }
  assert (holes s1 !! a = Some r1) as Hh1 by apply lookup_insert_eq.
  assert (tail_rep s1 l1 (a :: l2) fr ((b + c, n - c) :: rest)) as Hr1.
  { split; [by eapply pm_lists_insert|]. cbn. rewrite slot_region_insert_eq, Hb1, Hn1.
    f_equal. rewrite <- Hm. apply regions_agree. intros i Hi.
    apply slot_region_insert_ne. set_solver. }
  rewrite (bind_Ret get _ s1 s1 s1) by done.
  rewrite (bind_Ret _ _ _ _ _ (geth_ok s1 a r1 Hh1)), Hb1, Hn1.
  rewrite (bind_Ret _ _ _ _ _ (mark_run _ _)).
  apply (tail_rep_mark _ (b + c)) in Hr1.
  assert (slots_only [a] (mark (b + c) s) (mark (b + c) s1)) as Ho1.
  { split; [|done..]. apply (so_region _ _ _ (slots_only_insert s a r1)). }
  assert ((n - c =? 0) = (n =? c)) as ->.
  { destruct (Z.eqb_spec (n - c) 0), (Z.eqb_spec n c); lia || done. }
  destruct (n =? c).
  - destruct (del_slot_run _ _ _ _ _ (tr_lists _ _ _ _ _ Hr1)) as (s' & Hd & Hl' & Ho).
    exists s'. split; [by erewrite bind_Ret by exact Hd|].
    exists l2, (a :: fr). split_and!.
    + split; [done|]. destruct Hr1 as [_ [= _ Hm1]]. rewrite <- Hm1.
      apply regions_agree. intros i Hi. apply (so_region _ _ _ Ho). set_solver.
    + cbn. rewrite !length_app. cbn. lia.
    + eapply slots_only_trans; (eapply slots_only_mono; [|done]); set_solver.
  - eexists. split; [done|]. exists (a :: l2), fr. split_and!; [done..|].
    eapply slots_only_mono; [|done]. set_solver.
Qed.

Lemma alloc_scan_run c s fr n : 0 <= c → ∀ regs l2 l1,
  tail_rep s l1 l2 fr regs → Forall usable regs → (length l2 < n)%nat →
  match first_fit c regs with
  | None => loop n (alloc_scan c) (last l1, head l2) s = Ret NO_MEM s
  | Some (b, regs') => ∃ s', loop n (alloc_scan c) (last l1, head l2) s = Ret b s' ∧
      tail_step (mark (b + c) s) s' l1 l2 fr regs'
  end.
Proof.
  intros Hc. induction n as [|n IH]; intros regs l2 l1 Hr Hu Hn; [lia|].
  destruct l2 as [|a l2], regs as [|[b k] rest]; try by destruct Hr.
  apply Forall_cons in Hu as [[Hi Hlt] Hu]. cbn in Hlt. cbn [first_fit head].
  destruct (Z.leb_spec c k) as [Hle|Hgt].
  - destruct (alloc_scan_fits c _ _ _ _ _ _ _ _ Hr Hi Hlt) as (s' & Hs & Hst); [lia|].
    exists s'. split; [|done]. rewrite loop_S. by rewrite Hs.
  - pose proof (tail_rep_fresh _ _ _ _ _ _ Hr) as [_ Hni].
    pose proof Hr as Hr2. apply tail_rep_cons in Hr2 as [Ha Hr2].
    destruct (slot_region_inv _ _ _ _ Ha) as (r & Hh & Hrb & Hrn).
    assert (h_next r = head l2) as Hnx.
    { destruct (pm_lists_slot _ _ _ _ _ (tr_lists _ _ _ _ _ Hr)) as (r' & Hh' & Hch).
      simplify_eq. by apply chain_head in Hch. }
    assert (alloc_scan c (last l1, Some a) s = Ret (inl (last (l1 ++ [a]), head l2)) s) as Hs.
    { unfold alloc_scan. rewrite (bind_Ret _ _ _ _ _ (geth_ok s a r Hh)).
      rewrite last_snoc, Hrb, Hrn, Hnx, (proj2 (Z.ltb_lt _ _) Hlt). cbn.
      by rewrite (proj2 (Z.leb_gt _ _)) by lia. }
    specialize (IH _ _ _ Hr2 Hu). cbn in Hn.
    destruct (first_fit c rest) as [[b' rest']|]; cbn -[loop].
    + destruct IH as (s' & Hlp & Hst); [lia|]. exists s'. split.
      * rewrite loop_S. by rewrite Hs.
      * by apply tail_step_skip.
    + rewrite loop_S, Hs. apply IH. lia.
Qed.

Lemma pm_rep_tail s regs :
  pm_rep s regs →
  ∃ l fr, tail_rep s [] l fr regs ∧ Z.of_nat (length (l ++ fr)) = NR_HOLES ∧
    hole_head s = head l ∧ (length l < hole_fuel)%nat.
Proof.
  intros (l & fr & Hl & Hn & Hm). exists l, fr. split_and!.
  - by split.
  - done.
  - by apply (chain_head _ _ _ _ (pl_holes _ _ _ Hl)).
  - unfold NR_HOLES, hole_fuel in *. rewrite length_app in Hn. lia.
Qed.

(** [alloc_mem] on the abstract state. *)
Lemma alloc_mem_run c s regs :
  pm_rep s regs → separated (-1) regs → 0 <= c → pm_vmid s = 0 ∨ regs ≠ [] →
  match first_fit c regs with
  | None => alloc_mem c s = Ret NO_MEM s
  | Some (b, regs') => ∃ s', alloc_mem c s = Ret b s' ∧ pm_rep s' regs' ∧
      high_watermark s' = Z.max (high_watermark s) (b + c)
  end.
Proof.
  intros Hrep Hs Hc Hvm.
  destruct (pm_rep_tail _ _ Hrep) as (l & fr & Hr & Hlen & Hh & Hf).
  assert (alloc_mem c s = loop hole_fuel (alloc_scan c) (last [], head l) s) as ->.
  { unfold alloc_mem. rewrite (bind_Ret get _ s s s), Hh by done.
    destruct (Z.eqb_spec (pm_vmid s) 0) as [|Hne]; [done|]. cbn [negb].
    destruct Hr as [Hl Hm]. destruct l as [|a l]; [by destruct regs, Hvm|].
    destruct (pm_lists_slot s [] a l fr Hl) as (r & Ha & _). cbn [head].
    rewrite bind_assoc. by rewrite (bind_Ret _ _ _ _ _ (geth_ok s a r Ha)). }
  pose proof (separated_usable (-1) regs ltac:(lia) Hs) as Hu.
  pose proof (alloc_scan_run c s fr hole_fuel Hc regs l [] Hr Hu Hf) as Hscan.
  destruct (first_fit c regs) as [[b regs']|]; [|done].
  destruct Hscan as (s' & Hlp & Hst). exists s'. split_and!; [done| |].
  - apply (tail_step_rep _ _ _ _ _ [] _ Hst); [done|by destruct Hr as [[]]|done].
  - destruct Hst as (? & ? & _ & _ & [_ Hmk _]). by rewrite Hmk.
Qed.

(** ** [free_mem] *)
Lemma free_scan_run b s fr n : ∀ regs l2 l1,
  tail_rep s l1 l2 fr regs → (length l2 < n)%nat →
  ∃ la lb ra rb, l2 = la ++ lb ∧ regs = ra ++ rb ∧ length la = length ra ∧
    all_below b ra ∧ starts_at_least b rb ∧
    loop n (free_scan b) (last l1, head l2) s = Ret (last (l1 ++ la)) s.
Proof.
  induction n as [|n IH]; intros regs l2 l1 Hr Hn; [lia|].
  destruct l2 as [|a l2], regs as [|[b1 n1] rest]; try by destruct Hr.
  { exists [], [], [], []. split_and!; [done..|constructor|done|].
    by rewrite loop_S, app_nil_r. }
  pose proof Hr as Hr2. apply tail_rep_cons in Hr2 as [Ha Hr2].
  destruct (slot_region_inv _ _ _ _ Ha) as (r & Hh & Hrb & Hrn).
  destruct (Z.ltb_spec b1 b) as [Hlt|Hge].
  - destruct (IH _ _ _ Hr2) as (la & lb & ra & rb & -> & -> & Hlen & Hbe & Hat & Hlp).
    { cbn in Hn. lia. }
    exists (a :: la), lb, ((b1, n1) :: ra), rb. split_and!; try done.
    + cbn. lia.
    + by constructor.
    + rewrite loop_S. cbn [head]. unfold free_scan at 1.
      rewrite (bind_Ret _ _ _ _ _ (geth_ok s a r Hh)), Hrb.
      rewrite (proj2 (Z.ltb_lt _ _) Hlt). cbn [ret].
      destruct (pm_lists_slot _ _ _ _ _ (tr_lists _ _ _ _ _ Hr)) as (r' & Hh' & Hch).
      simplify_eq. apply chain_head in Hch. rewrite Hch.
      rewrite last_snoc in Hlp. rewrite Hlp. by rewrite <- app_assoc.
  - exists [], (a :: l2), [], ((b1, n1) :: rest).
    split_and!; [done..|constructor|done|]. rewrite loop_S, app_nil_r. cbn [head]. unfold free_scan.
    rewrite (bind_Ret _ _ _ _ _ (geth_ok s a r Hh)), Hrb.
    by rewrite (proj2 (Z.ltb_ge _ _) Hge).
Qed.

(** ** Linking the block's slot [e], the first unused one, into the list *)

Definition fill (e : Z) (b n : Z) (s : pmstate) (r : hole) : pmstate :=
  s.[holes := <[e := r.[h_base := b].[h_len := n]]> (holes s)].[free_slots := h_next r].

Lemma link_front s l e fr b n regs r :
  tail_rep s [] l (e :: fr) regs → holes s !! e = Some r →
  ∃ s', (puth (Some e) (λ r, r.[h_next := hole_head s]);;;
         modify (λ s, s.[hole_head := Some e])) (fill e b n s r) = Ret tt s' ∧
    tail_rep s' [] (e :: l) fr ((b, n) :: regs) ∧
    high_watermark s' = high_watermark s ∧ pm_vmid s' = pm_vmid s.
Proof.
  intros [[H1 H2 H3] Hm] He. cbn in *.
  destruct H2 as (_ & r' & Hr' & H2). rewrite He in Hr'. injection Hr' as <-.
  destruct (nodup_parts l fr [] e) as (Hel & Hef & _ & _ & Hnd).
  { by rewrite app_nil_r. }
  unfold bind, puth, fill. cbn. rewrite lookup_insert_eq. cbn.
  eexists. split; [done|]. split_and!; [|done..]. split.
  - split; cbn.
    + split; [done|]. eexists. split; [by apply lookup_insert_eq|]. cbn.
      by do 2 (apply chain_insert_ne; [done|]).
    + by do 2 (apply chain_insert_ne; [done|]).
    + eapply NoDup_Permutation_proper; [|exact H3]. apply Permutation_middle.
  - cbn. rewrite slot_region_insert_eq. cbn. f_equal. rewrite <- Hm.
    apply regions_agree. intros i Hi. assert (e ≠ i) by congruence.
    by do 2 rewrite slot_region_insert_ne by done.
Qed.

Lemma link_after s l1 p l2 e fr b n rp rest r :
  tail_rep s l1 (p :: l2) (e :: fr) (rp :: rest) → holes s !! e = Some r →
  ∃ s', (let* q := geth (Some p) in
         puth (Some e) (λ r, r.[h_next := h_next q]);;;
         puth (Some p) (λ r, r.[h_next := Some e])) (fill e b n s r) = Ret tt s' ∧
    tail_rep s' l1 (p :: e :: l2) fr (rp :: (b, n) :: rest) ∧
    map (slot_region (holes s')) l1 = map (slot_region (holes s)) l1 ∧
    high_watermark s' = high_watermark s ∧ pm_vmid s' = pm_vmid s.
Proof.
  intros [[H1 H2 H3] [= Hp Hm]] He. destruct H2 as (_ & r' & Hr' & H2). simplify_eq.
  destruct (chain_app _ _ _ _ _ _ H1) as (q & Hq & Hc).
  destruct (nodup_parts (l1 ++ p :: l2) fr [] e) as (Hel & Hef & _ & _ & Hnd).
  { rewrite app_nil_r. exact H3. }
  destruct (nodup_parts _ _ _ _ H3) as (Hp1 & Hp2 & Hpe & Hnp & _).
  assert (e ≠ p ∧ (e ∉ l1) ∧ (e ∉ l2) ∧ (p ∉ fr)) as (Hne & Hel1 & Hel2 & Hpf).
  { clear -Hel Hpe. set_solver. }
  unfold bind, geth, puth, fill. cbn. rewrite lookup_insert_ne, Hq by done. cbn.
  rewrite lookup_insert_eq. cbn. do 2 rewrite lookup_insert_ne by done. rewrite Hq.
  eexists. split; [done|].
  assert (∀ i, i ≠ e → i ≠ p → ∀ r1 r2 r3,
    slot_region (<[p := r3]> (<[e := r2]> (<[e := r1]> (holes s)))) i =
    slot_region (holes s) i) as Hag.
  { intros i ?? r1 r2 r3. by do 3 rewrite slot_region_insert_ne by done. }
  split_and!; [|apply regions_agree; intros i Hi; cbn; apply Hag; congruence|done..].
  split; [split; cbn|].
  - eapply chain_redirect; [done|set_solver| | |].
    + by do 2 rewrite lookup_insert_ne by done.
    + do 2 (apply chain_insert_ne; [set_solver|]). exact H1.
    + cbn. split; [done|]. eexists. split; [by apply lookup_insert_eq|]. cbn.
      by do 2 (apply chain_insert_ne; [done|]).
  - do 3 (apply chain_insert_ne; [done|]). done.
  - eapply NoDup_Permutation_proper; [|exact H3]. rewrite <- !app_assoc.
    apply Permutation_app_head. cbn. f_equiv. apply Permutation_middle.
  - cbn. rewrite slot_region_insert_eq. cbn.
    rewrite slot_region_insert_ne, slot_region_insert_eq by done. cbn.
    unfold slot_region in Hp. rewrite Hq in Hp. cbn in Hp. rewrite Hp. do 2 f_equal.
    rewrite <- Hm. apply regions_agree. intros i Hi. apply Hag; congruence.
Qed.

(** The two places where the code links and merges, as one step on [pm_rep]. *)
Lemma merge_rep s l1 a l2 fr regs1 r rest :
  tail_rep s l1 (a :: l2) fr (r :: rest) → Forall in_memory (r :: rest) →
  map (slot_region (holes s)) l1 = map Some regs1 →
  Z.of_nat (length ((l1 ++ a :: l2) ++ fr)) = NR_HOLES →
  ∃ s', merge (Some a) s = Ret tt s' ∧ pm_rep s' (regs1 ++ merge_regs r rest) ∧
    high_watermark s' = high_watermark s ∧ pm_vmid s' = pm_vmid s.
Proof.
  intros Hr Him Hm1 Hlen. pose proof Hr as [[_ _ Hnd] _].
  destruct (merge_run _ _ _ _ _ _ _ Hr Him) as (s' & Hmg & Hst).
  exists s'. split; [done|]. split; [by eapply tail_step_rep|].
  destruct Hst as (? & ? & _ & _ & []). done.
Qed.

Lemma tail_rep_fill s l e fr b n regs r :
  tail_rep s [] l (e :: fr) regs → holes s !! e = Some r →
  tail_rep (fill e b n s r) [] l fr regs ∧ e ∉ l.
Proof.
  intros [[H1 H2 H3] Hm] He. cbn in *. destruct H2 as (_ & r' & Hr' & H2). simplify_eq.
  destruct (nodup_parts l fr [] e) as (Hel & Hef & _ & _ & Hnd).
  { by rewrite app_nil_r. }
  split; [|done]. split; [split; cbn|].
  - by apply chain_insert_ne.
  - by apply chain_insert_ne.
  - by apply NoDup_app in Hnd as (Hnd & _ & _).
  - rewrite <- Hm. apply regions_agree. intros i Hi. cbn.
    apply slot_region_insert_ne. congruence.
Qed.

(** Does the block go first? *)
Lemma goes_first_run b s l fr regs :
  tail_rep s [] l fr regs →
  ∃ first : bool, goes_first b (head l) s = Ret first s ∧
    if first then starts_at_least b regs else ∃ r t, regs = r :: t ∧ r.1 < b.
Proof.
  intros [Hl Hm]. destruct l as [|a l], regs as [|[b1 n1] t]; try done.
  { by exists true. }
  injection Hm as Ha _. destruct (slot_region_inv _ _ _ _ Ha) as (q & Hq & Hb & _).
  cbn [head goes_first]. rewrite (bind_Ret _ _ _ _ _ (geth_ok s a q Hq)), Hb.
  exists (b <=? b1). split; [done|]. destruct (Z.leb_spec b b1); [done|]. eauto.
Qed.

(** The slots and the regions before the insertion point end in the hole after
    which the block goes. *)
Lemma split_last {A B} (la : list A) (ra : list B) :
  length la = length ra → ra ≠ [] →
  ∃ l1 p r1 rp, la = l1 ++ [p] ∧ ra = r1 ++ [rp] ∧ length l1 = length r1.
Proof.
  intros Hlen Hne. destruct la as [|p l1 _] using rev_ind; [by destruct ra|].
  destruct ra as [|rp r1 _] using rev_ind; [done|].
  exists l1, p, r1, rp. rewrite !length_app in Hlen. cbn in Hlen.
  split_and!; [done..|lia].
Qed.

Lemma map_app_split {A B} (f : A → option B) l1 l2 r1 r2 :
  map f (l1 ++ l2) = map Some (r1 ++ r2) → length l1 = length r1 →
  map f l1 = map Some r1 ∧ map f l2 = map Some r2.
Proof.
  rewrite !map_app. intros Heq Hlen. apply app_inj_1 in Heq; [done|].
  by rewrite !length_map.
Qed.

(** The slot is filled, then linked in one of two places. *)
Lemma free_mem_front b n s e fr l regs r :
  tail_rep s [] l (e :: fr) regs → holes s !! e = Some r → n ≠ 0 →
  separated (-1) regs → returnable b n regs → starts_at_least b regs →
  Z.of_nat (length (l ++ e :: fr)) = NR_HOLES →
  ∃ s', (puth (Some e) (λ r, r.[h_next := hole_head s]);;;
         modify (λ s, s.[hole_head := Some e]);;;
         merge (Some e)) (fill e b n s r) = Ret tt s' ∧
    pm_rep s' (release b n regs) ∧
    high_watermark s' = high_watermark s ∧ pm_vmid s' = pm_vmid s.
Proof.
  intros Hr He Hn Hs Hret Hge Hlen.
  destruct (link_front _ _ _ _ b n _ _ Hr He) as (s1 & Hlk & Hr1 & Hw & Hv).
  destruct (merge_rep s1 [] e l fr [] (b, n) regs Hr1) as (s' & Hmg & Hrep & Hw' & Hv').
  - by apply (returnable_in_memory _ _ (-1)).
  - done.
  - rewrite <- Hlen. cbn. rewrite !length_app. cbn. lia.
  - exists s'. rewrite <- bind_assoc. erewrite bind_Ret by exact Hlk.
    destruct (release_front b n _ _ Hs Hge) as [-> <-].
    split_and!; [exact Hmg|exact Hrep|congruence..].
Qed.

Lemma free_mem_middle b n s e fr l regs r :
  tail_rep s [] l (e :: fr) regs → holes s !! e = Some r → n ≠ 0 →
  separated (-1) regs → returnable b n regs → (∃ r t, regs = r :: t ∧ r.1 < b) →
  Z.of_nat (length (l ++ e :: fr)) = NR_HOLES →
  ∃ s', (let* prev_ptr := loop hole_fuel (free_scan b) (None, head l) in
         let* p := geth prev_ptr in
         puth (Some e) (λ r, r.[h_next := h_next p]);;;
         puth prev_ptr (λ r, r.[h_next := Some e]);;;
         merge prev_ptr) (fill e b n s r) = Ret tt s' ∧
    pm_rep s' (release b n regs) ∧
    high_watermark s' = high_watermark s ∧ pm_vmid s' = pm_vmid s.
Proof.
  intros Hr He Hn Hs Hret (r0 & t0 & -> & Hlt) Hlen.
  destruct (tail_rep_fill _ _ _ _ b n _ _ Hr He) as [Hf _].
  destruct (free_scan_run b _ _ hole_fuel _ _ _ Hf)
    as (la & lb & ra & rb & -> & Hregs & Hll & Hbe & Hge & Hlp).
  { unfold NR_HOLES, hole_fuel in *. rewrite !length_app in Hlen. lia. }
  rewrite Hregs in Hr, Hs, Hret |- *. destruct (split_last la ra)
    as (l1 & p & r1 & rp & -> & -> & Hl1); [done| |].
  { intros ->. cbn in Hregs. subst rb. cbn in Hge. lia. }
  cbn [app] in Hlp. rewrite last_snoc in Hlp. erewrite bind_Ret by exact Hlp.
  rewrite <- (app_assoc r1 [rp] rb) in Hr, Hs, Hret |- *.
  rewrite <- (app_assoc l1 [p] lb) in Hr, Hlen. cbn [app] in Hr, Hs, Hret, Hlen |- *.
  destruct Hr as [Hl Hm]. destruct (map_app_split _ _ _ _ _ Hm Hl1) as [Hm1 Hm2].
  destruct (link_after s l1 p lb e fr b n rp rb r) as (s1 & Hlk & Hr1 & Hm1' & Hw & Hv);
    [by split|done|].
  destruct (merge_rep s1 l1 p (e :: lb) fr r1 rp ((b, n) :: rb) Hr1)
    as (s' & Hmg & Hrep & Hw' & Hv').
  - pose proof (returnable_in_memory _ _ (-1) _ ltac:(lia) Hs Hret) as Him.
    apply Forall_cons in Him as [? Him]. apply Forall_app in Him as [_ Him].
    apply Forall_cons in Him as [? Him]. constructor; [done|by constructor].
  - congruence.
  - rewrite <- Hlen. repeat (rewrite length_app; cbn). lia.
  - exists s'. rewrite (release_after b n (-1) r1 rp rb Hs Hret Hbe Hge).
    split_and!; [|exact Hrep|congruence..]. revert Hlk. unfold bind.
    destruct (geth _ _); [|done..]. destruct (puth _ _ _); [|done..].
    by intros ->.
Qed.

(** [free_mem] on the abstract state. *)
Lemma free_mem_run b n s regs :
  pm_rep s regs → separated (-1) regs → returnable b n regs →
  Z.of_nat (length regs) < NR_HOLES →
  ∃ s', free_mem b n s = Ret tt s' ∧ pm_rep s' (release b n regs) ∧
    high_watermark s' = high_watermark s ∧ pm_vmid s' = pm_vmid s.
Proof.
  intros Hrep Hs Hret Hroom. pose proof Hret as (Hb & Hn & _).
  destruct (pm_rep_tail _ _ Hrep) as (l & fr & Hr & Hlen & Hh & _).
  destruct fr as [|e fr].
  { destruct Hr as [_ Hm%(f_equal length)]. rewrite !length_map in Hm.
    rewrite app_nil_r in Hlen. lia. }
  pose proof (tr_lists _ _ _ _ _ Hr) as [_ (Hfs & r & He & _) _].
  unfold free_mem. rewrite (proj2 (Z.eqb_neq _ _)) by lia.
  rewrite (bind_Ret get _ s s s) by done. cbv zeta.
  rewrite Hfs, bool_decide_false by done.
  rewrite (bind_Ret _ _ _ _ _ (puth_ok s e _ r He)).
  erewrite bind_Ret; [|apply geth_ok, lookup_insert_eq].
  erewrite bind_Ret; [|done].
  match goal with |- context [bind _ _ ?s1] => change s1 with (fill e b n s r) end.
  destruct (tail_rep_fill _ _ _ _ b n _ _ Hr He) as [Hf _].
  destruct (goes_first_run b _ _ _ _ Hf) as (first & Hg & Hcase).
  rewrite Hh. erewrite bind_Ret by exact Hg. destruct first.
  - rewrite <- Hh. eapply free_mem_front; [done|done|lia|done..].
  - eapply free_mem_middle; [done|done|lia|done..].
Qed.

