(* ===== verification/PmAllocThms.v ===== *)
(** * First fit and coalescing in the process manager

    [alloc_mem] refines [first_fit], [free_mem] refines [release], and the two are
    inverse; [mem_init] builds the holes of the machine's memory. *)
From stdpp Require Import base gmap list numbers strings.
From Stdlib Require Import ZArith Lia.
From S2P Require Import Prelude Chains PmAlloc PmHoles.

(** C28. [alloc_mem] is first fit.  If no hole is large enough it returns
    [NO_MEM] and nothing changes.  Otherwise it returns the base of the first
    hole that is: the clicks it returns were free, no longer are, and no other
    click changes; the lists stay sound and the high watermark covers the block.
    A PM inside a VM that has no hole at all reads a slot that is not there. *)
Theorem alloc_mem_first_fit c s regs :
  pm_rep s regs → separated (-1) regs → 0 <= c →
  match first_fit c regs with
  | None => alloc_mem c s = if decide (pm_vmid s ≠ 0 ∧ regs = []) then Crash else Ret NO_MEM s
  | Some (b, regs') => ∃ s', alloc_mem c s = Ret b s' ∧
      pm_rep s' regs' ∧ separated (-1) regs' ∧
      (∀ x, covers regs x ↔ covers regs' x ∨ b <= x < b + c) ∧
      (∀ x, b <= x < b + c → ¬ covers regs' x) ∧
      high_watermark s' = Z.max (high_watermark s) (b + c)
  end.
Proof.
  intros Hrep Hs Hc. destruct (decide (pm_vmid s ≠ 0 ∧ regs = [])) as [[Hvm ->]|Hvm].
  { destruct Hrep as (l & fr & [Hch _ _] & _ & Hl). destruct l; [|done]. cbn in Hch.
    unfold alloc_mem. rewrite (bind_Ret get _ s s s) by done. rewrite (proj2 (Z.eqb_neq _ _) Hvm). cbn. unfold bind, geth.
    by rewrite Hch. }
  assert (Hvm' : pm_vmid s = 0 ∨ regs ≠ []) by (destruct (decide (pm_vmid s = 0)), (decide (regs = [])); tauto).
  pose proof (alloc_mem_run c s regs Hrep Hs Hc Hvm') as Hrun.
  destruct (first_fit c regs) as [[b regs']|] eqn:Hff; [|done].
  destruct Hrun as (s' & Hrun & Hrep' & Hw). exists s'.
  pose proof (first_fit_covers _ _ _ _ _ Hc Hs Hff) as [Hcov Hnot].
  pose proof (first_fit_separated _ _ _ _ _ Hc Hs Hff). auto 10.
Qed.

(** C29. [free_mem] gives a block back.  The clicks that are free afterwards are
    those that were and the block's; the holes stay sorted and no two touch, so
    the block was merged with the holes at its ends; the high watermark stays.
    It needs one unused slot. *)
Theorem free_mem_release b n s regs :
  pm_rep s regs → separated (-1) regs → returnable b n regs →
  Z.of_nat (length regs) < NR_HOLES →
  ∃ s', free_mem b n s = Ret tt s' ∧
    pm_rep s' (release b n regs) ∧ separated (-1) (release b n regs) ∧
    (∀ x, covers (release b n regs) x ↔ covers regs x ∨ b <= x < b + n) ∧
    high_watermark s' = high_watermark s ∧ pm_vmid s' = pm_vmid s.
Proof.
  intros Hrep Hs Hret Hroom. pose proof Hret as (Hb & Hn & _).
  destruct (free_mem_run b n s regs) as (s' & Hrun & Hrep' & Hw & Hv); [done..|].
  exists s'. split_and!; try done.
  - apply release_separated; [lia|done..].
  - intros x. apply (release_covers (-1)); [lia|done..].
Qed.

(** A block that [alloc_mem] returned can be given back, and then the holes
    are exactly what they were, however the block was cut out of them. *)
Theorem alloc_free_inverse c s regs b s1 :
  pm_rep s regs → separated (-1) regs → 0 < c → Z.of_nat (length regs) < NR_HOLES →
  alloc_mem c s = Ret b s1 → b ≠ NO_MEM →
  ∃ s2, free_mem b c s1 = Ret tt s2 ∧ pm_rep s2 regs.
Proof.
  intros Hrep Hs Hc Hroom Hal Hb. assert (pm_vmid s = 0 ∨ regs ≠ []) as Hvm.
  { destruct regs as [|r regs]; [left|by right].
    destruct Hrep as ([|a l] & fr & [Hl _ _] & _ & Hm); [|done].
    revert Hal. unfold alloc_mem, bind, get. cbn in Hl. rewrite Hl.
    by destruct (Z.eqb_spec (pm_vmid s) 0). }
  pose proof (alloc_mem_run c s regs Hrep Hs ltac:(lia) Hvm) as Hrun.
  destruct (first_fit c regs) as [[b' regs']|] eqn:Hff; [|congruence].
  destruct Hrun as (s' & Hrun & Hrep' & _). rewrite Hal in Hrun.
  injection Hrun as <- <-.
  destruct (first_fit_returnable c (-1) regs b regs') as [Hret Hle]; [done|lia|done..|].
  pose proof (first_fit_separated c (-1) regs b regs' ltac:(lia) Hs Hff) as Hs'.
  destruct (free_mem_run b c s1 regs') as (s2 & Hfr & Hrep2 & _); [done..|lia|].
  exists s2. split; [done|]. by rewrite (first_fit_release c (-1) regs b regs') in Hrep2.
Qed.

(** With every slot of the table in use, [free_mem] panics, even if the
    block touches a hole and would need no slot after the merge. *)
Theorem free_mem_table_full b n s regs :
  pm_rep s regs → Z.of_nat (length regs) = NR_HOLES → n ≠ 0 →
  free_mem b n s = Crash.
Proof.
  intros Hrep Hfull Hn. destruct (pm_rep_tail _ _ Hrep) as (l & fr & [Hl Hm] & Hlen & _).
  apply (f_equal length) in Hm. rewrite !length_map in Hm.
  rewrite length_app in Hlen. destruct fr as [|e fr]; [|cbn in Hlen; lia].
  destruct Hl as [_ Hfs _]. cbn in Hfs. unfold free_mem.
  rewrite (proj2 (Z.eqb_neq _ _)) by done. unfold bind, get. by rewrite Hfs.
Qed.

Lemma clear_holes_run s :
  ∃ s', clear_holes s = Ret tt s' ∧ pm_rep s' [] ∧ high_watermark s' = high_watermark s.
Proof.
  eexists. split; [done|]. split; [|done]. exists [], (zrange 0 NR_HOLES).
  split; [|by split]. split; [done| |].
  - apply (walk_chain h_next _ hole_fuel). by vm_compute.
  - apply (bool_decide_unpack _). by vm_compute.
Qed.

Lemma u32_add_idemp a b : u32 (u32 a + b) = u32 (a + b).
Proof. unfold u32. by rewrite Z.add_mod_idemp_l. Qed.

Lemma init_chunks_run chunks : ∀ s regs free,
  pm_rep s regs → separated (-1) regs → Forall in_memory chunks →
  ForallOrdPairs apart chunks → (∀ x, covers chunks x → ¬ covers regs x) →
  Z.of_nat (length regs + length chunks) <= NR_HOLES →
  ∃ s' regs', init_chunks chunks (u32 free) s = Ret (u32 (free + total chunks)) s' ∧
    pm_rep s' regs' ∧ separated (-1) regs' ∧
    (∀ x, covers regs' x ↔ covers regs x ∨ covers chunks x).
Proof.
  induction chunks as [|[b n] t IH]; intros s regs free Hrep Hs Him Hap Hnc Hlen.
  - exists s, regs. cbn. rewrite Z.add_0_r. split_and!; try done. tauto.
  - apply Forall_cons in Him as [(Hb & Hn & Hbn) Him]. inversion Hap as [|? ? Ha Hap']; subst.
    cbn -[u32] in Hb, Hn, Hbn, Hlen |- *. destruct (Z.ltb_spec 0 n) as [Hpos|Hz].
    + assert (returnable b n regs) as Hret.
      { apply (uncovered_returnable _ _ (-1)); [done..|]. intros x Hx. apply Hnc. by left. }
      destruct (free_mem_run b n s regs) as (s1 & Hrun & Hrep1 & _); [done..|lia|].
      erewrite bind_Ret by exact Hrun. rewrite u32_add_idemp, Z.max_r by lia.
      assert (∀ x, covers (release b n regs) x ↔ covers regs x ∨ b <= x < b + n) as Hcov.
      { intros x. apply (release_covers (-1)); [lia|done..]. }
      pose proof (release_length b n regs) as Hrl.
      destruct (IH s1 (release b n regs) (free + n)) as (s' & regs' & Hi & Hrep' & Hs' & Hc');
        [done|by apply release_separated; [lia|..]|done|done| |lia|].
      { intros x Hx. rewrite Hcov. intros [Hr|Hr]; [by apply (Hnc x); [right|]|].
        by apply (apart_uncovered _ _ _ Ha Hr). }
      exists s', regs'. rewrite Z.add_assoc. split_and!; try done.
      intros x. rewrite Hc', Hcov. tauto.
    + rewrite Z.max_l by lia.
      destruct (IH s regs free) as (s' & regs' & Hi & Hrep' & Hs' & Hc');
        [done..| |lia|].
      { intros x Hx. apply Hnc. by right. }
      exists s', regs'. split_and!; try done. intros x. rewrite Hc'.
      assert (¬ b <= x < b + n) by lia. tauto.
Qed.

(** [mem_init], on the [NR_MEMS] chunks of the machine's memory, which share no
    click, makes the holes that cover exactly the chunks, in order and merged where
    chunks touch, whatever the table held, and returns the total size. *)
Theorem mem_init_holes chunks s :
  Z.of_nat (length chunks) = NR_MEMS → Forall in_memory chunks →
  ForallOrdPairs apart chunks →
  ∃ s' regs, mem_init chunks s = Ret (u32 (total chunks)) s' ∧
    pm_rep s' regs ∧ separated (-1) regs ∧ (∀ x, covers regs x ↔ covers chunks x).
Proof.
  intros Hlen Him Hap. destruct (clear_holes_run s) as (s0 & Hrun & Hrep & _).
  unfold mem_init. erewrite bind_Ret by exact Hrun.
  destruct (init_chunks_run (rev chunks) s0 [] 0) as (s' & regs & Hi & Hrep' & Hs & Hc).
  - done.
  - done.
  - by apply Forall_rev.
  - by apply apart_rev.
  - intros x _ [].
  - rewrite length_rev. unfold NR_MEMS, NR_HOLES in *. cbn. lia.
  - exists s', regs. split_and!; [by rewrite <- total_rev|done..|].
    intros x. rewrite Hc, covers_rev. cbn. tauto.
Qed.

(** ** A machine with three chunks of memory *)
Definition no_pm : pmstate := PmState ∅ None None 0 0.
Definition demo_chunks : list region :=
  [(10, 5); (20, 30); (60, 4); (0, 0); (0, 0); (0, 0); (0, 0); (0, 0)].
Definition demo_regions : list region := [(10, 5); (20, 30); (60, 4)].
Definition demo_pm : pmstate :=
  match mem_init demo_chunks no_pm with Ret _ s => s | _ => no_pm end.

(** A table whose two lists were walked. *)
Lemma pm_rep_walk s l fr regs :
  walk hole_fuel h_next (holes s) (hole_head s) = Some l →
  walk hole_fuel h_next (holes s) (free_slots s) = Some fr →
  bool_decide (NoDup (l ++ fr)) = true →
  Z.of_nat (length (l ++ fr)) = NR_HOLES →
  map (slot_region (holes s)) l = map Some regs → pm_rep s regs.
Proof.
  intros H1 H2 H3 H4 H5. exists l, fr. split; [|done].
  split; [by eapply walk_chain..|]. by apply bool_decide_eq_true in H3.
Qed.

Lemma demo_pm_rep : pm_rep demo_pm demo_regions.
Proof.
  apply (pm_rep_walk _ [2; 1; 0] (zrange 3 NR_HOLES)); by vm_compute.
Qed.

Lemma demo_separated : separated (-1) demo_regions.
Proof. cbn. unfold swap_base. lia. Qed.

Lemma alloc_mem_first_fit_witness :
  ∃ s', alloc_mem 8 demo_pm = Ret 20 s' ∧ pm_rep s' [(10, 5); (28, 22); (60, 4)] ∧
    high_watermark s' = 28.
Proof.
  pose proof (alloc_mem_first_fit 8 demo_pm demo_regions demo_pm_rep demo_separated
    ltac:(lia)) as H.
  cbn in H. destruct H as (s' & H1 & H2 & _ & _ & _ & H3). exists s'.
  split; [exact H1|]. split; [exact H2|]. rewrite H3. by vm_compute.
Defined.

Lemma free_mem_release_witness :
  ∃ s', free_mem 15 5 demo_pm = Ret tt s' ∧ pm_rep s' [(10, 40); (60, 4)].
Proof.
  destruct (free_mem_release 15 5 demo_pm demo_regions demo_pm_rep demo_separated)
    as (s' & H1 & H2 & _).
  - unfold returnable, swap_base. split_and!; [lia..|]. repeat constructor; cbn; lia.
  - by vm_compute.
  - exists s'. split; [exact H1|exact H2].
Defined.

Lemma alloc_free_inverse_witness :
  ∃ s1 s2, alloc_mem 5 demo_pm = Ret 10 s1 ∧
    free_mem 10 5 s1 = Ret tt s2 ∧ pm_rep s2 demo_regions.
Proof.
  destruct (alloc_mem 5 demo_pm) as [b s1| |] eqn:Ha; [|by vm_compute in Ha..].
  assert (b = 10) as -> by by (vm_compute in Ha; injection Ha).
  destruct (alloc_free_inverse 5 demo_pm demo_regions 10 s1 demo_pm_rep demo_separated)
    as (s2 & H1 & H2); [lia|by vm_compute|exact Ha|done|].
  exists s1, s2. auto.
Defined.

(** Each odd click is a hole. *)
Definition odd_regions : list region := map (λ i, (2 * i + 1, 1)) (zrange 0 NR_HOLES).
Definition odd_pm : pmstate :=
  PmState (list_to_map (map (λ i, (i, (empty_slot i).[h_base := 2 * i + 1].[h_len := 1]))
    (zrange 0 NR_HOLES))) (Some 0) None 0 0.

Lemma free_mem_table_full_witness : free_mem 2 1 odd_pm = Crash.
Proof.
  apply (free_mem_table_full 2 1 odd_pm odd_regions); [|by vm_compute|done].
  apply (pm_rep_walk _ (zrange 0 NR_HOLES) []); by vm_compute.
Defined.

Lemma mem_init_holes_witness :
  ∃ s' regs, mem_init demo_chunks no_pm = Ret 39 s' ∧ pm_rep s' regs ∧
    (∀ x, covers regs x ↔ covers demo_chunks x).
Proof.
  destruct (mem_init_holes demo_chunks no_pm) as (s' & regs & H1 & H2 & _ & H3).
  - done.
  - repeat (apply Forall_cons; split; [unfold in_memory, swap_base; cbn [fst snd]; lia|]).
    constructor.
  - repeat (constructor; [repeat (apply Forall_cons; split;
      [unfold apart; cbn [fst snd]; lia|]); constructor|]). constructor.
  - exists s', regs. auto.
Defined.
