(* ===== verification/PmTypes.v ===== *)
(** * The process manager: its data and its calls to the kernel

    The structures of [src/servers/pm] ([mproc.h], [glo.h], [timers.c]) and the small
    operations on them.  A [struct mproc *] is an index of the table.  What other
    processes answer to PM (the kernel's system task, the file system) is an argument
    [kernel] of the model: it gives the answer to a call from the calls made before it.
    The calls are recorded in [calls], the latest first. *)
From stdpp Require Import base gmap list numbers strings.
From Stdlib Require Import ZArith Lia.
From S2P Require Import Prelude.
From S2P Require Import Timers.
From S2P Require Import KTypes.
From S2P Require Import PmAlloc.

(** ** Constants ([const.h], [mproc.h], [signal.h], [callnr.h]) *)
Definition NR_PIDS : Z := 30000.
Definition PM_PID : Z := 0.
Definition INIT_PID : Z := 1.
Definition TTY_PROC_NR : Z := 5.
Definition DS_PROC_NR : Z := 6.
Definition SUPER_USER : Z := 0.
Definition LAST_FEW : Z := 2.
Definition PROC_NAME_LEN : Z := 16.

Definition IN_USE : Z := 0x001.
Definition WAITING : Z := 0x002.
Definition ZOMBIE : Z := 0x004.
Definition PAUSED : Z := 0x008.
Definition ALARM_ON : Z := 0x010.
Definition SEPARATE : Z := 0x020.
Definition TRACED : Z := 0x040.
Definition STOPPED : Z := 0x080.
Definition SIGSUSPENDED : Z := 0x100.
Definition REPLY : Z := 0x200.
Definition ONSWAP : Z := 0x400.
Definition SWAPIN : Z := 0x800.
Definition DONT_SWAP : Z := 0x1000.
Definition PRIV_PROC : Z := 0x2000.
Definition VM_PROC : Z := 0x8000.

Definition SIGHUP : Z := 1.
Definition SIGINT : Z := 2.
Definition SIGQUIT : Z := 3.
Definition SIGILL : Z := 4.
Definition SIGTRAP : Z := 5.
Definition SIGABRT : Z := 6.
Definition SIGFPE : Z := 8.
Definition SIGUSR1 : Z := 10.
Definition SIGSEGV : Z := 11.
Definition SIGUSR2 : Z := 12.
Definition SIGALRM : Z := 14.
Definition SIGTERM : Z := 15.
Definition SIGEMT : Z := 16.
Definition SIGCHLD : Z := 17.
Definition SIGCONT : Z := 18.
Definition SIGSTOP : Z := 19.
Definition SIGWINCH : Z := 21.
Definition _NSIG : Z := 23.
Definition SIG_DFL : Z := 0.
Definition SIG_IGN : Z := 1.
Definition SIG_MESS : Z := 4.
Definition SA_RESETHAND : Z := 2.
Definition SA_NODEFER : Z := 4.
Definition SIG_BLOCK : Z := 0.
Definition SIG_UNBLOCK : Z := 1.
Definition SIG_SETMASK : Z := 2.
Definition SIG_INQUIRE : Z := 4.
Definition CORE_MODE : Z := 0x1FF.
Definition DUMPED : Z := 0x80.
Definition WNOHANG : Z := 1.
Definition ECHILD : Z := -10.
Definition T_STOP : Z := -1.
Definition T_OK : Z := 0.
Definition T_GETUSER : Z := 3.
Definition T_RESUME : Z := 7.
Definition T_EXIT : Z := 8.
Definition T_STEP : Z := 9.

Definition EXIT : Z := 1.
Definition FORK : Z := 2.
Definition WAIT : Z := 7.
Definition CHDIR : Z := 12.
Definition GETPID : Z := 20.
Definition SETUID : Z := 23.
Definition GETUID : Z := 24.
Definition STIME : Z := 25.
Definition SETGID : Z := 46.
Definition GETGID : Z := 47.
Definition EXEC : Z := 59.
Definition SETSID : Z := 62.
Definition GETPGRP : Z := 63.
Definition UNPAUSE : Z := 65.
Definition REBOOT : Z := 76.
Definition GETPRIORITY : Z := 88.
Definition SETEUID : Z := 91.
Definition SETEGID : Z := 92.
Definition NCALLS : Z := 98.

(** ** The words of messages ([ipc.h]) and what [param.h] calls them *)
Abbreviation m1_i1 := m_w0 (only parsing).
Abbreviation m1_i2 := m_w1 (only parsing).
Abbreviation m1_i3 := m_w2 (only parsing).
Abbreviation m1_p1 := m_w3 (only parsing).
Abbreviation m1_p2 := m_w4 (only parsing).
Abbreviation m1_p3 := m_w5 (only parsing).
Abbreviation m2_i1 := m_w0 (only parsing).
Abbreviation m2_i2 := m_w1 (only parsing).
Abbreviation m2_l1 := m_w3 (only parsing).
Abbreviation m2_l2 := m_w4 (only parsing).
Abbreviation m2_p1 := m_w5 (only parsing).
Abbreviation m4_l1 := m_w0 (only parsing).
Abbreviation m4_l2 := m_w1 (only parsing).
Abbreviation m4_l3 := m_w2 (only parsing).
Abbreviation m4_l4 := m_w3 (only parsing).
Abbreviation m4_l5 := m_w4 (only parsing).

(** ** Structures *)
Set Primitive Projections.
Record sigaction := SigAction { sa_handler : Z; sa_mask : Z; sa_flags : Z }.

(** [mp_seg] is three fields; [mp_timer] is in the queue of timers; [mp_swapq] and
    [mp_func] are not used. *)
Record mproc := MProc {
  seg_T : mem_map; seg_D : mem_map; seg_S : mem_map;
  mp_exitstatus : Z; mp_sigstatus : Z;
  mp_pid : Z; mp_endpoint : Z; mp_procgrp : Z; mp_wpid : Z; mp_parent : Z;
  mp_child_utime : Z; mp_child_stime : Z;
  mp_realuid : Z; mp_effuid : Z; mp_realgid : Z; mp_effgid : Z;
  mp_ino : Z; mp_dev : Z; mp_ctime : Z;
  mp_ignore : Z; mp_catch : Z; mp_sig2mess : Z; mp_sigmask : Z; mp_sigmask2 : Z; mp_sigpending : Z;
  mp_sigact : list sigaction; mp_sigreturn : Z;
  mp_flags : Z; mp_procargs : Z; mp_reply : message; mp_nice : Z; mp_name : list Z; mp_vmsize : Z }.

(** The calls to other processes.  The library's [open], [read] and the like are
    requests to the file system. *)
Inductive kcall :=
  | SysAbscopy (src dst bytes : Z)
  | SysFork (parent child : Z)
  | SysNewmap (e : Z) (t d s : mem_map)
  | SysTimes (e : Z)
  | SysNice (e pri : Z)
  | SysExit (e : Z)
  | SysTrace (req e addr data : Z)
  | SysGetproc (e : Z)
  | SysSigsend (e : Z) (signo mask handler sigreturn stkptr : Z)
  | SysSigreturn (e context : Z)
  | SysGetksig
  | SysEndksig (e : Z)
  | SysUptime
  | SysSetalarm (t : Z)
  | SysDatacopy (src_e src dst_e dst bytes : Z) (data : list Z)
  | SysMemset (pattern base bytes : Z)
  | SysExec (e sp pc : Z) (name : list Z)
  | SysAbort (how bytes : Z) (code : list Z)
  | SysInfo (what : Z)
  | Notify (e : Z)
  | Send (e : Z) (m : message)
  | TellFs (what p1 p2 p3 : Z)
  | TaskCall (e what w : Z)
  | FsOpen (name : list Z) (flags mode : Z)
  | FsAccess (name : list Z) (mask : Z)
  | FsFstat (fd : Z)
  | FsRead (fd bytes : Z)
  | FsWrite (fd : Z) (data : list Z)
  | FsLseek (fd pos whence : Z)
  | FsClose (fd : Z)
  | FsMove (rw fd buf bytes seg e : Z).

(** The result of a call and what it stores. *)
Record kreply := KReply { k_res : Z; k_out : list Z }.

(** The global and static variables. *)
Record pms := Pms {
  mprocs : gmap Z mproc;
  procs_in_use : Z;
  mp : Z;
  who_p : Z; who_e : Z; call_nr : Z; m_in : message;
  next_child : Z; next_pid : Z; boottime : Z;
  pm_tq : tqueue;
  pm_mem : pmstate;
  monitor_params : list Z;
  local_params : list (list Z * list Z);
  calls : list kcall }.
Unset Primitive Projections.

#[export] Instance sigaction_eta : Eta sigaction := λ a, SigAction (sa_handler a) (sa_mask a) (sa_flags a).
#[export] Instance mproc_eta : Eta mproc := λ r,
  MProc (seg_T r) (seg_D r) (seg_S r) (mp_exitstatus r) (mp_sigstatus r) (mp_pid r) (mp_endpoint r)
    (mp_procgrp r) (mp_wpid r) (mp_parent r) (mp_child_utime r) (mp_child_stime r) (mp_realuid r)
    (mp_effuid r) (mp_realgid r) (mp_effgid r) (mp_ino r) (mp_dev r) (mp_ctime r) (mp_ignore r)
    (mp_catch r) (mp_sig2mess r) (mp_sigmask r) (mp_sigmask2 r) (mp_sigpending r) (mp_sigact r)
    (mp_sigreturn r) (mp_flags r) (mp_procargs r) (mp_reply r) (mp_nice r) (mp_name r) (mp_vmsize r).
#[export] Instance pms_eta : Eta pms := λ s,
  Pms (mprocs s) (procs_in_use s) (mp s) (who_p s) (who_e s) (call_nr s) (m_in s) (next_child s)
    (next_pid s) (boottime s) (pm_tq s) (pm_mem s) (monitor_params s) (local_params s) (calls s).
#[export] Program Instance pms_timed : Timed pms := {| tq := pm_tq; set_tq := λ q s, s.[pm_tq := q] |}.
Solve Obligations with done.

Abbreviation P := (M pms).

(** [rmp->field] and the assignment to it. *)
Definition getp (p : Z) : P mproc := λ s, match mprocs s !! p with Some r => Ret r s | None => Crash end.
Definition putp (p : Z) (f : mproc → mproc) : P unit := λ s,
  match mprocs s !! p with
  | Some r => Ret tt (s.[mprocs := <[p := f r]> (mprocs s)])
  | None => Crash
  end.
Definition set_flags (p f : Z) : P unit := putp p (λ r, r.[mp_flags := Z.lor (mp_flags r) f]).
Definition clr_flags (p f : Z) : P unit := putp p (λ r, r.[mp_flags := bclr (mp_flags r) f]).

(** The functions of [alloc.c]. *)
Definition mem {A} (m : M pmstate A) : P A := λ s,
  match m (pm_mem s) with
  | Ret a h => Ret a (s.[pm_mem := h])
  | Crash => Crash
  | Spin => Spin
  end.

(** [mp_flags & (IN_USE | ZOMBIE) == IN_USE]. *)
Definition alive (r : mproc) : bool := Z.land (mp_flags r) (Z.lor IN_USE ZOMBIE) =? IN_USE.

(** ** Sets of signals ([src/lib/posix/_sigset.c])

    An invalid number sets [errno]; [sigismember] then returns -1, which is true. *)
Definition sigisvalid (signo : Z) : bool := u32 signo <=? _NSIG.
Definition sigaddset (set signo : Z) : Z := if sigisvalid signo then Z.lor set (Z.shiftl 1 signo) else set.
Definition sigdelset (set signo : Z) : Z := if sigisvalid signo then bclr set (Z.shiftl 1 signo) else set.
Definition sigismember (set signo : Z) : bool := if sigisvalid signo then band set (Z.shiftl 1 signo) else true.
Definition SIGMASK : Z := 2 ^ 24 - 1.

(** The sets that [pm_init] builds and nothing changes. *)
Definition core_sset : Z :=
  foldl sigaddset 0 [SIGQUIT; SIGILL; SIGTRAP; SIGABRT; SIGEMT; SIGFPE; SIGUSR1; SIGSEGV; SIGUSR2].
Definition ign_sset : Z := foldl sigaddset 0 [SIGCHLD; SIGWINCH; SIGCONT].

Section calls.
Context (kernel : list kcall → kcall → kreply).

Definition call (c : kcall) : P kreply := λ s, Ret (kernel (calls s) c) (s.[calls := c :: calls s]).
Definition out (r : kreply) (i : nat) : Z := nth i (k_out r) 0.

(** A call whose failure is a panic. *)
Definition must (c : kcall) : P kreply :=
  let* r := call c in
  if k_res r =? OK then ret r else crash.

(** ** [utility.c] *)

(** [SysGetproc] stores [p_rts_flags], the stack pointer and the memory map. *)
Definition get_stack_ptr (e : Z) : P (Z * Z) :=
  let* r := call (SysGetproc e) in
  ret (k_res r, out r 1).

(** The result and the process number stored through [proc]. *)
Definition pm_isokendpt (e : Z) : P (Z * Z) :=
  let p := ENDPOINT_P e in
  if (p <? - NR_TASKS) || (NR_PROCS <=? p) then ret (EINVAL, p)
  else
    let* unknown :=
      if 0 <=? p then let* r := getp p in ret (negb (e =? mp_endpoint r) || negb (band (mp_flags r) IN_USE))
      else ret false in
    if unknown : bool then
      let* r := call (SysGetproc e) in
      if negb (k_res r =? OK) then ret (k_res r, p)
      else ret (if out r 0 =? SLOT_FREE then EDEADSRCDST else OK, p)
    else ret (OK, p).

Definition tell_fs (what p1 p2 p3 : Z) : P unit :=
  let* r := getp FS_PROC_NR in
  if negb (alive r) then skip
  else call (TellFs what p1 p2 p3);;; skip.

(** A pid is taken when a slot, in use or not, has it as its pid or its group. *)
Definition pid_taken (pid : Z) (t : gmap Z mproc) : bool :=
  existsb (λ p, match t !! p with Some r => (mp_pid r =? pid) || (mp_procgrp r =? pid) | None => false end)
    (zrange 0 NR_PROCS).
Definition bump_pid (pid : Z) : Z := if pid <? NR_PIDS then pid + 1 else INIT_PID + 1.
Definition pid_round (_ : unit) : P (unit + Z) :=
  modify (λ s, s.[next_pid := bump_pid (next_pid s)]);;;
  let* s := get in
  ret (if pid_taken (next_pid s) (mprocs s) then inl tt else inr (next_pid s)).
Definition pid_fuel : nat := 202.
Definition get_free_pid : P Z := loop pid_fuel pid_round tt.

(** The first slot with this pid, used or not, or -1. *)
Definition proc_from_pid (pid : Z) : P Z :=
  let* s := get in
  ret (match find (λ p, match mprocs s !! p with Some r => mp_pid r =? pid | None => false end) (zrange 0 NR_PROCS) with
       | Some p => p | None => -1 end).

(** ** [setreply] ([main.c]) *)
Definition setreply (proc_nr result : Z) : P unit :=
  if (proc_nr <? 0) || (NR_PROCS <=? proc_nr) then crash
  else
    putp proc_nr (λ r, r.[mp_reply := (mp_reply r).[m_type := result]]);;;
    set_flags proc_nr REPLY.

(** ** [timers.c] *)
Definition timer_of (p : Z) : tid := (p, 0).

Definition pm_set_timer (p ticks watchdog arg : Z) : P unit :=
  let* r := must SysUptime in
  let now := out r 0 in
  putt (timer_of p) (λ t, t.[tmr_arg := Some (arg, 0)]);;;
  let* ' (prev_time, next_time) := tmrs_settimer (timer_of p) (s32 (now + ticks)) watchdog in
  if (prev_time =? 0) || (next_time <? prev_time) then must (SysSetalarm next_time);;; skip else skip.

Definition pm_cancel_timer (p : Z) : P unit :=
  let* ' (prev_time, next_time) := tmrs_clrtimer (timer_of p) in
  if (prev_time <? next_time) || (next_time =? 0) then must (SysSetalarm next_time);;; skip else skip.
End calls.
