(* ===== verification/PmProc.v ===== *)
(** * The process manager: processes and signals

    [src/servers/pm/break.c], [signal.c], [forkexit.c], [trace.c] and, of [exec.c],
    [find_share] and [rw_seg].  [pm_exit], [sig_proc] and [check_sig] call each other;
    the recursion is on fuel, as every round makes a live process a zombie. *)
From stdpp Require Import base gmap list numbers strings.
From Stdlib Require Import ZArith Lia.
From S2P Require Import Prelude.
From S2P Require Import Timers.
From S2P Require Import KTypes.
From S2P Require Import PmAlloc.
From S2P Require Import PmTypes.

Section pm.
Context (kernel : list kcall → kcall → kreply).
#[local] Abbreviation call := (call kernel).
#[local] Abbreviation must := (must kernel).

(** ** [break.c] *)
Definition SAFETY_BYTES : Z := 384 * 4.
Definition SAFETY_CLICKS : Z := (SAFETY_BYTES + CLICK_SIZE - 1) / CLICK_SIZE.

(** What becomes of the map when the data segment is to have [data_clicks] and the stack
    pointer is [sp], and whether that changes it; [None] is ENOMEM. *)
Definition new_map (r : mproc) (data_clicks sp : Z) : option (mproc * bool) :=
  let base_of_stack := s32 (s32 (mem_vir (seg_S r)) + s32 (mem_len (seg_S r))) in
  let sp_click := Z.shiftr sp CLICK_SHIFT in
  if u32 base_of_stack <=? sp_click then None
  else
    let delta := s32 (s32 (mem_vir (seg_S r)) - s32 sp_click) in
    let lower := if 0 <? delta then sp_click else mem_vir (seg_S r) in
    let gap_base := u32 (u32 (mem_vir (seg_D r) + data_clicks) + SAFETY_CLICKS) in
    if lower <? gap_base then None
    else
      let changed := negb (data_clicks =? mem_len (seg_D r)) || (0 <? delta) in
      let r := r.[seg_D := (seg_D r).[mem_len := data_clicks]] in
      let r := if 0 <? delta then
          r.[seg_S := MemMap (u32 (mem_vir (seg_S r) - delta)) (u32 (mem_phys (seg_S r) - delta)) (u32 (mem_len (seg_S r) + delta))]
        else r in
      if mem_vir (seg_S r) <? u32 (mem_vir (seg_D r) + mem_len (seg_D r)) then None else Some (r, changed).

Definition adjust (rmp data_clicks sp : Z) : P Z :=
  let* r := getp rmp in
  if mem_len (seg_S r) =? 0 then ret OK
  else
    match new_map r data_clicks sp with
    | None => ret ENOMEM
    | Some (r', changed) =>
        putp rmp (λ q, q.[seg_D := seg_D r'].[seg_S := seg_S r']);;;
        when changed (must (SysNewmap (mp_endpoint r) (seg_T r') (seg_D r') (seg_S r'));;; skip);;;
        ret OK
    end.

Definition do_brk : P Z :=
  let* s := get in
  let v := m1_p1 (m_in s) in
  let new_clicks := u32 (Z.shiftr (s32 (s32 v + CLICK_SIZE - 1)) CLICK_SHIFT) in
  let* r := getp (mp s) in
  if new_clicks <? mem_vir (seg_D r) then
    putp (mp s) (λ r, r.[mp_reply := (mp_reply r).[m2_p1 := -1]]);;;
    ret ENOMEM
  else
    let new_clicks := u32 (new_clicks - mem_vir (seg_D r)) in
    let* ' (res, new_sp) := get_stack_ptr kernel (who_e s) in
    if negb (res =? OK) then crash
    else
      let* res := adjust (mp s) new_clicks new_sp in
      putp (mp s) (λ r, r.[mp_reply := (mp_reply r).[m2_p1 := if res =? OK then m1_p1 (m_in s) else -1]]);;;
      ret res.

(** ** [find_share] and [rw_seg] ([exec.c]) *)
Definition shares (r : mproc) (ino dev ctime : Z) : bool :=
  band (mp_flags r) SEPARATE && (mp_ino r =? ino) && (mp_dev r =? dev) && (mp_ctime r =? ctime).
Definition find_share (mp_ign ino dev ctime : Z) : P (option Z) :=
  let* s := get in
  ret (find (λ p, match mprocs s !! p with Some r => negb (p =? mp_ign) && shares r ino dev ctime | None => false end)
         (zrange 0 NR_PROCS)).

Definition PM_CHUNK_SIZE : Z := 8192.
Definition INT_MAX : Z := 2 ^ 31 - 1.

(** The address and the bytes that are left; a transfer of 2 ^ 32 bytes takes three rounds. *)
Definition seg_step (rw fd seg e : Z) : Z * Z → P (Z * Z + unit) := λ '(buf, seg_bytes),
  if seg_bytes =? 0 then ret (inr tt)
  else
    let bytes := Z.min (INT_MAX / PM_CHUNK_SIZE * PM_CHUNK_SIZE) seg_bytes in
    let* r := call (FsMove rw fd buf bytes seg e) in
    ret (if negb (k_res r =? bytes) then inr tt else inl (u32 (buf + bytes), seg_bytes - bytes)).

Definition segment (r : mproc) (seg : Z) : mem_map :=
  if seg =? 0 then seg_T r else if seg =? 1 then seg_D r else seg_S r.
Definition rw_seg (rw fd e seg seg_bytes : Z) : P unit :=
  let* ' (res, p) := pm_isokendpt kernel e in
  if negb (res =? OK) || (p <? 0) then skip
  else
    let* r := getp p in
    loop 4 (seg_step rw fd seg e) (u32 (Z.shiftl (mem_vir (segment r seg)) CLICK_SHIFT), seg_bytes).

(** ** Timers of alarms ([signal.c]) *)
Definition SIGALRM_FUNC : Z := 1.
Definition LONG_MAX : Z := 2 ^ 31 - 1.

Definition alarm_ticks (sec : Z) : Z :=
  let ticks := s32 (u32 (HZ * u32 sec)) in
  if negb (u32 ticks / HZ =? u32 sec) then LONG_MAX else ticks.

Definition set_alarm (e sec : Z) : P Z :=
  let* ' (res, p) := pm_isokendpt kernel e in
  if negb (res =? OK) then ret EINVAL
  else
    let* r := getp p in
    let* remaining :=
      if band (mp_flags r) ALARM_ON then
        let* u := must SysUptime in
        let* t := gett (timer_of p) in
        ret (Z.max 0 (s32 (s32 (tmr_exp_time t - out u 0) + (HZ - 1)) ÷ HZ))
      else ret 0 in
    let ticks := alarm_ticks sec in
    (if negb (ticks =? 0) then
       pm_set_timer kernel p ticks SIGALRM_FUNC e;;;
       set_flags p ALARM_ON
     else when (band (mp_flags r) ALARM_ON)
       (pm_cancel_timer kernel p;;; clr_flags p ALARM_ON));;;
    ret remaining.

Definition do_alarm : P Z := let* s := get in set_alarm (who_e s) (m1_i1 (m_in s)).

(** ** [unpause], [stop_proc] and [dump_core] *)
Definition HANGING : Z := Z.lor PAUSED (Z.lor WAITING SIGSUSPENDED).
Definition unpause (pro : Z) : P unit :=
  let* r := getp pro in
  if band (mp_flags r) HANGING then
    clr_flags pro HANGING;;;
    setreply pro EINTR
  else tell_fs kernel UNPAUSE (mp_endpoint r) 0 0.

(** [0177 | (sig << 8)]. *)
Definition stop_status (sig : Z) : Z := Z.lor 0x7F (Z.shiftl sig 8).
Definition stop_proc (rmp signo : Z) : P unit :=
  let* r := getp rmp in
  must (SysTrace T_STOP (mp_endpoint r) 0 0);;;
  set_flags rmp STOPPED;;;
  let* rp := getp (mp_parent r) in
  if band (mp_flags rp) WAITING then
    clr_flags (mp_parent r) WAITING;;;
    putp (mp_parent r) (λ q, q.[mp_reply := (mp_reply q).[m2_i1 := stop_status signo]]);;;
    setreply (mp_parent r) (mp_pid r)
  else putp rmp (λ r, r.[mp_sigstatus := s8 signo]).

Definition trace_fuel : nat := 1024.
Definition core_name : list Z := [99; 111; 114; 101].
Definition O_WRONLY : Z := 1.
Definition O_CREAT : Z := 0x40.
Definition O_TRUNC : Z := 0x200.

(** The bytes of a word, lowest first. *)
Definition word_bytes (w : Z) : list Z := [w mod 256; w / 256 mod 256; w / 65536 mod 256; w / 16777216 mod 256].
Definition map_bytes (m : mem_map) : list Z :=
  word_bytes (mem_vir m) ++ word_bytes (mem_phys m) ++ word_bytes (mem_len m).

(** [true]: a write failed. *)
Definition trace_step (fd e : Z) : Z → P (Z + bool) := λ off,
  let* r := call (SysTrace T_GETUSER e off 0) in
  if negb (k_res r =? OK) then ret (inr false)
  else
    let* w := call (FsWrite fd (word_bytes (out r 0))) in
    ret (if negb (k_res w =? 4) then inr true else inl (off + 4)).

Definition dump_core (rmp : Z) : P unit :=
  let* r := getp rmp in
  if negb (mp_realuid r =? mp_effuid r) then skip
  else
    let* o := call (FsOpen core_name (Z.lor O_WRONLY (Z.lor O_CREAT (Z.lor O_TRUNC O_NONBLOCK))) CORE_MODE) in
    let fd := k_res o in
    if fd <? 0 then skip
    else
      putp rmp (λ r, r.[mp_sigstatus := s8 (Z.lor (mp_sigstatus r) DUMPED)]);;;
      let* ' (res, current_sp) := get_stack_ptr kernel (mp_endpoint r) in
      if negb (res =? OK) then crash
      else
        adjust rmp (mem_len (seg_D r)) current_sp;;;
        let* r := getp rmp in
        let* w := call (FsWrite fd (map_bytes (seg_T r) ++ map_bytes (seg_D r) ++ map_bytes (seg_S r))) in
        if negb (k_res w =? 36) then call (FsClose fd);;; skip
        else
          let* failed := loop trace_fuel (trace_step fd (mp_endpoint r)) 0 in
          if failed : bool then call (FsClose fd);;; skip
          else
            for_list (zrange 0 3) (λ seg,
              let* r := getp rmp in
              rw_seg 1 fd (mp_endpoint r) seg (u32 (Z.shiftl (mem_len (segment r seg)) CLICK_SHIFT)));;;
            call (FsClose fd);;; skip.

(** ** [sig_proc] ([signal.c]), given what [pm_exit] does *)

(** The [sigcontext] and the part of the [sigframe] below it. *)
Definition FRAME_BYTES : Z := 72 + 3 * 4 + 2 * 4.

(** The handler is to be called: the masks that change, once there is room on the stack. *)
Definition catching (signo : Z) (a : sigaction) (r : mproc) : mproc :=
  let mask := Z.lor (mp_sigmask r) (sa_mask a) in
  let r := r.[mp_sigmask := if band (sa_flags a) SA_NODEFER then sigdelset mask signo else sigaddset mask signo] in
  if band (sa_flags a) SA_RESETHAND then
    r.[mp_catch := sigdelset (mp_catch r) signo]
     .[mp_sigact := <[Z.to_nat signo := a.[sa_handler := SIG_DFL]]> (mp_sigact r)]
  else r.

(** [true]: the signal is caught; [false]: there is no room on the stack. *)
Definition catch_signal (rmp signo : Z) (a : sigaction) : P bool :=
  let* r := getp rmp in
  let sm_mask := if band (mp_flags r) SIGSUSPENDED then mp_sigmask2 r else mp_sigmask r in
  let* ' (res, sp) := get_stack_ptr kernel (mp_endpoint r) in
  if negb (res =? OK) then crash
  else
    let* fits := adjust rmp (mem_len (seg_D r)) (u32 (sp - FRAME_BYTES)) in
    if negb (fits =? OK) then ret false
    else
      putp rmp (catching signo a);;;
      must (SysSigsend (mp_endpoint r) signo sm_mask (sa_handler a) (mp_sigreturn r) sp);;;
      putp rmp (λ r, r.[mp_sigpending := sigdelset (mp_sigpending r) signo]);;;
      unpause rmp;;;
      ret true.

(** The default action. *)
Definition terminate_with (pm_exit : Z → Z → P unit) (rmp signo : Z) : P unit :=
  if sigismember ign_sset signo then skip
  else
    putp rmp (λ r, r.[mp_sigstatus := s8 signo]);;;
    when (sigismember core_sset signo && negb (rmp =? FS_PROC_NR))
      (let* r := getp rmp in
       tell_fs kernel CHDIR (mp_endpoint r) 0 0;;;
       dump_core rmp);;;
    pm_exit rmp 0.

Definition sig_proc_with (pm_exit : Z → Z → P unit) (rmp signo : Z) : P unit :=
  let* r := getp rmp in
  if negb (alive r) then crash
  else if band (mp_flags r) TRACED && negb (signo =? SIGKILL) then
    unpause rmp;;;
    stop_proc rmp signo
  else if sigismember (mp_ignore r) signo then skip
  else if sigismember (mp_sigmask r) signo then
    putp rmp (λ r, r.[mp_sigpending := sigaddset (mp_sigpending r) signo])
  else
    let* a := of_option (aget (mp_sigact r) signo) in
    if sigismember (mp_catch r) signo then
      let* caught := catch_signal rmp signo a in
      if caught : bool then skip else terminate_with pm_exit rmp signo
    else if sigismember (mp_sig2mess r) signo then
      putp rmp (λ r, r.[mp_sigpending := sigaddset (mp_sigpending r) signo]);;;
      call (Notify (mp_endpoint r));;; skip
    else terminate_with pm_exit rmp signo.

(** ** [check_sig], given what [sig_proc] does *)

(** Whom a signal to [proc_id] is meant for. *)
Definition selected (caller r : mproc) (proc_id signo : Z) : bool :=
  band (mp_flags r) IN_USE &&
  negb (band (mp_flags r) ZOMBIE && negb (signo =? 0)) &&
  negb (band (mp_flags r) VM_PROC && negb (signo =? 0)) &&
  negb ((0 <? proc_id) && negb (proc_id =? mp_pid r)) &&
  negb ((proc_id =? 0) && negb (mp_procgrp caller =? mp_procgrp r)) &&
  negb ((proc_id =? -1) && (mp_pid r <=? INIT_PID)) &&
  negb ((proc_id <? -1) && negb (mp_procgrp r =? - proc_id)) &&
  negb ((proc_id =? -1) && (signo =? SIGKILL) && band (mp_flags r) PRIV_PROC).
Definition may_signal (caller r : mproc) : bool :=
  (mp_effuid caller =? SUPER_USER) || (mp_realuid caller =? mp_realuid r) ||
  (mp_effuid caller =? mp_realuid r) || (mp_realuid caller =? mp_effuid r) || (mp_effuid caller =? mp_effuid r).

(** The slot, the signals sent and the error code. *)
Definition check_step (sig_proc : Z → Z → P unit) (proc_id signo : Z) : Z * Z * Z → P (Z * Z * Z + Z * Z) :=
  λ '(p, count, error_code),
  if NR_PROCS <=? p then ret (inr (count, error_code))
  else
    let* r := getp p in
    let* s := get in
    let* caller := getp (mp s) in
    if negb (selected caller r proc_id signo) then ret (inl (p + 1, count, error_code))
    else if negb (may_signal caller r) then ret (inl (p + 1, count, EPERM))
    else if signo =? 0 then ret (inl (p + 1, count + 1, error_code))
    else
      sig_proc p signo;;;
      ret (if 0 <? proc_id then inr (count + 1, error_code) else inl (p + 1, count + 1, error_code)).

Definition proc_fuel : nat := 101.
Definition check_sig_with (sig_proc : Z → Z → P unit) (proc_id signo : Z) : P Z :=
  if (signo <? 0) || (_NSIG <? signo) then ret EINVAL
  else if (proc_id =? INIT_PID) && (signo =? SIGKILL) then ret EINVAL
  else
    let* ' (count, error_code) := loop proc_fuel (check_step sig_proc proc_id signo) (0, 0, ESRCH) in
    let* s := get in
    let* caller := getp (mp s) in
    if negb (alive caller) then ret SUSPEND
    else ret (if 0 <? count then OK else error_code).

(** ** [forkexit.c] *)

(** [(exitstatus << 8) | (sigstatus & 0377)]. *)
Definition wait_status (exitstatus sigstatus : Z) : Z := Z.lor (Z.shiftl exitstatus 8) (Z.land sigstatus 0xFF).

Definition cleanup (child : Z) : P unit :=
  let* r := getp child in
  let parent := mp_parent r in
  putp parent (λ q, q.[mp_reply := (mp_reply q).[m2_i1 := wait_status (mp_exitstatus r) (mp_sigstatus r)]]);;;
  setreply parent (mp_pid r);;;
  clr_flags parent WAITING;;;
  putp child (λ r, r.[mp_pid := 0].[mp_flags := 0].[mp_child_utime := 0].[mp_child_stime := 0]);;;
  modify (λ s, s.[procs_in_use := s32 (procs_in_use s - 1)]).

(** The child meets one of the three tests of [pidarg]. *)
Definition right_child (pidarg : Z) (r : mproc) : bool :=
  (pidarg =? -1) || (pidarg =? mp_pid r) || (- pidarg =? mp_procgrp r).

(** What the exit of a process takes away: its time goes to its parent, the kernel and
    the file system forget it, its memory is free again. *)
Definition exit_release (rmp exit_status : Z) : P unit :=
  let* r := getp rmp in
  let e := mp_endpoint r in
  when (band (mp_flags r) ALARM_ON) (set_alarm e 0;;; skip);;;
  let* t := must (SysTimes e) in
  putp (mp_parent r) (λ q, q
    .[mp_child_utime := s32 (mp_child_utime q + s32 (out t 0 + mp_child_utime r))]
    .[mp_child_stime := s32 (mp_child_stime q + s32 (out t 1 + mp_child_stime r))]);;;
  call (SysNice e PRIO_STOP);;;
  when (negb (e =? FS_PROC_NR)) (tell_fs kernel EXIT e 0 0);;;
  must (SysExit e);;;
  clr_flags rmp REPLY;;;
  let* shared := find_share rmp (mp_ino r) (mp_dev r) (mp_ctime r) in
  (if shared is Some _ then skip else mem (free_mem (mem_phys (seg_T r)) (mem_len (seg_T r))));;;
  mem (free_mem (mem_phys (seg_D r)) (u32 (mem_vir (seg_S r) + mem_len (seg_S r) - mem_vir (seg_D r))));;;
  putp rmp (λ r, r.[mp_exitstatus := s8 exit_status]).

(** A child of the process gets INIT as its parent. *)
Definition disinherit (proc_nr q : Z) : P unit :=
  let* r := getp q in
  if band (mp_flags r) IN_USE && (mp_parent r =? proc_nr) then
    putp q (λ r, r.[mp_parent := INIT_PROC_NR]);;;
    let* i := getp INIT_PROC_NR in
    let* r := getp q in
    when (band (mp_flags i) WAITING && band (mp_flags r) ZOMBIE) (cleanup q)
  else skip.

Definition pm_exit_with (sig_proc : Z → Z → P unit) (check_sig : Z → Z → P Z) (rmp exit_status : Z) : P unit :=
  let* r := getp rmp in
  let* s := get in
  let* caller := getp (mp s) in
  let procgrp := if mp_pid r =? mp_procgrp caller then mp_procgrp caller else 0 in
  exit_release rmp exit_status;;;
  let* p_mp := getp (mp_parent r) in
  (if band (mp_flags p_mp) WAITING && right_child (mp_wpid p_mp) r then cleanup rmp
   else
     putp rmp (λ r, r.[mp_flags := Z.lor IN_USE ZOMBIE]);;;
     sig_proc (mp_parent r) SIGCHLD);;;
  for_list (zrange 0 NR_PROCS) (disinherit rmp);;;
  if negb (procgrp =? 0) then check_sig (- procgrp) SIGHUP;;; skip else skip.

(** Every round ends a process, and there are [NR_PROCS]: [bottom] is not reached. *)
Fixpoint pm_exit_n (bottom : Z → Z → P unit) (n : nat) (rmp exit_status : Z) : P unit :=
  match n with
  | O => bottom rmp exit_status
  | Datatypes.S n =>
      let sig_proc := sig_proc_with (pm_exit_n bottom n) in
      pm_exit_with sig_proc (check_sig_with sig_proc) rmp exit_status
  end.
Definition pm_exit : Z → Z → P unit := pm_exit_n (λ _ _, spin) proc_fuel.
Definition sig_proc : Z → Z → P unit := sig_proc_with pm_exit.
Definition check_sig : Z → Z → P Z := check_sig_with sig_proc.

Definition do_pm_exit : P Z :=
  let* s := get in
  pm_exit (mp s) (m1_i1 (m_in s));;;
  ret SUSPEND.

(** The slot for the child: [n] slots have been looked at. *)
Definition slot_step (n : Z) : P (Z + Z) :=
  modify (λ s, s.[next_child := Z.rem (next_child s + 1) NR_PROCS]);;;
  let* s := get in
  let* r := getp (next_child s) in
  ret (if band (mp_flags r) IN_USE && (n + 1 <=? NR_PROCS) then inl (n + 1) else inr (n + 1)).

Definition INHERITED : Z := Z.lor IN_USE (Z.lor SEPARATE (Z.lor PRIV_PROC DONT_SWAP)).

(** The child's copy of its parent's slot. *)
Definition fork_slot (parent_nr child_base : Z) (r : mproc) : mproc :=
  let r := r.[mp_parent := parent_nr].[mp_flags := Z.land (mp_flags r) INHERITED]
            .[mp_child_utime := 0].[mp_child_stime := 0].[mp_vmsize := 0] in
  let r := if negb (band (mp_flags r) SEPARATE) then r.[seg_T := (seg_T r).[mem_phys := child_base]] else r in
  r.[seg_S := (seg_S r).[mem_phys := u32 (child_base + (mem_vir (seg_S r) - mem_vir (seg_D r)))]]
   .[seg_D := (seg_D r).[mem_phys := child_base]]
   .[mp_exitstatus := 0].[mp_sigstatus := 0].

Definition do_fork : P Z :=
  let* s := get in
  let* r := getp (mp s) in
  if (procs_in_use s =? NR_PROCS) || ((NR_PROCS - LAST_FEW <=? procs_in_use s) && negb (mp_effuid r =? 0)) then ret EAGAIN
  else
    let prog_clicks := u32 (mem_len (seg_S r) + (mem_vir (seg_S r) - mem_vir (seg_D r))) in
    let* child_base := mem (alloc_mem prog_clicks) in
    if child_base =? NO_MEM then ret ENOMEM
    else
      let* c := call (SysAbscopy (u32 (Z.shiftl (mem_phys (seg_D r)) CLICK_SHIFT)) (u32 (Z.shiftl child_base CLICK_SHIFT))
                        (u32 (Z.shiftl prog_clicks CLICK_SHIFT))) in
      if k_res c <? 0 then crash
      else
        let* n := loop proc_fuel slot_step 0 in
        if NR_PROCS <? n then crash
        else
          let* s := get in
          let child_nr := next_child s in
          let* old := getp child_nr in
          if band (mp_flags old) IN_USE then crash
          else
            modify (λ s, s.[procs_in_use := procs_in_use s + 1]);;;
            putp child_nr (λ _, fork_slot (who_p s) child_base r);;;
            let* t := gett (timer_of (mp s)) in
            putt (timer_of child_nr) (λ _, t);;;
            let* new_pid := get_free_pid in
            putp child_nr (λ c, c.[mp_pid := new_pid]);;;
            let* f := must (SysFork (who_e s) child_nr) in
            putp child_nr (λ c, c.[mp_endpoint := out f 0]);;;
            tell_fs kernel FORK (who_e s) (out f 0) new_pid;;;
            let* c := getp child_nr in
            must (SysNewmap (mp_endpoint c) (seg_T c) (seg_D c) (seg_S c));;;
            setreply child_nr 0;;;
            putp (mp s) (λ r, r.[mp_reply := (mp_reply r).[m1_i1 := mp_endpoint c]]);;;
            ret new_pid.

(** [inl]: the call returns; [inr]: the qualifying children that are still running. *)
Definition wait_step (pidarg : Z) : Z * Z → P (Z * Z + (Z + Z)) := λ '(p, children),
  if NR_PROCS <=? p then ret (inr (inr children))
  else
    let* r := getp p in
    let* s := get in
    if negb (band (mp_flags r) IN_USE && (mp_parent r =? who_p s)) then ret (inl (p + 1, children))
    else if (0 <? pidarg) && negb (pidarg =? mp_pid r) then ret (inl (p + 1, children))
    else if (pidarg <? -1) && negb (- pidarg =? mp_procgrp r) then ret (inl (p + 1, children))
    else if band (mp_flags r) ZOMBIE then
      cleanup p;;;
      ret (inr (inl SUSPEND))
    else if band (mp_flags r) STOPPED && negb (mp_sigstatus r =? 0) then
      putp (mp s) (λ q, q.[mp_reply := (mp_reply q).[m2_i1 := stop_status (mp_sigstatus r)]]);;;
      putp p (λ r, r.[mp_sigstatus := 0]);;;
      ret (inr (inl (mp_pid r)))
    else ret (inl (p + 1, children + 1)).

Definition do_waitpid : P Z :=
  let* s := get in
  let* r := getp (mp s) in
  let pidarg := if call_nr s =? WAIT then -1 else m1_i1 (m_in s) in
  let options := if call_nr s =? WAIT then 0 else m1_i2 (m_in s) in
  let pidarg := if pidarg =? 0 then - mp_procgrp r else pidarg in
  let* e := loop proc_fuel (wait_step pidarg) (0, 0) in
  match e with
  | inl result => ret result
  | inr children =>
      if 0 <? children then
        if band options WNOHANG then ret 0
        else
          set_flags (mp s) WAITING;;;
          putp (mp s) (λ r, r.[mp_wpid := pidarg]);;;
          ret SUSPEND
      else ret ECHILD
  end.

(** ** The calls of [signal.c] *)
Definition check_pending (rmp : Z) : P unit :=
  let* r := getp rmp in
  match find (λ i, sigismember (mp_sigpending r) i && negb (sigismember (mp_sigmask r) i)) (zrange 1 (_NSIG + 1)) with
  | Some i =>
      putp rmp (λ r, r.[mp_sigpending := sigdelset (mp_sigpending r) i]);;;
      sig_proc rmp i
  | None => skip
  end.

(** What [sigaction] does to the sets of a process. *)
Definition set_action (signo handler : Z) (r : mproc) : mproc :=
  if handler =? SIG_IGN then
    r.[mp_ignore := sigaddset (mp_ignore r) signo].[mp_sigpending := sigdelset (mp_sigpending r) signo]
     .[mp_catch := sigdelset (mp_catch r) signo].[mp_sig2mess := sigdelset (mp_sig2mess r) signo]
  else if handler =? SIG_DFL then
    r.[mp_ignore := sigdelset (mp_ignore r) signo].[mp_catch := sigdelset (mp_catch r) signo]
     .[mp_sig2mess := sigdelset (mp_sig2mess r) signo]
  else if handler =? SIG_MESS then
    r.[mp_ignore := sigdelset (mp_ignore r) signo].[mp_sig2mess := sigaddset (mp_sig2mess r) signo]
     .[mp_catch := sigdelset (mp_catch r) signo]
  else
    r.[mp_ignore := sigdelset (mp_ignore r) signo].[mp_catch := sigaddset (mp_catch r) signo]
     .[mp_sig2mess := sigdelset (mp_sig2mess r) signo].

(** The copies are of the three words of a [struct sigaction]. *)
Definition do_sigaction : P Z :=
  let* s := get in
  let m := m_in s in
  let signo := m1_i2 m in
  if signo =? SIGKILL then ret OK
  else if (signo <? 1) || (_NSIG <? signo) then ret EINVAL
  else
    let* r := getp (mp s) in
    let* old := of_option (aget (mp_sigact r) signo) in
    let* res :=
      if m1_p2 m =? 0 then ret OK
      else
        let* c := call (SysDatacopy PM_PROC_NR 0 (who_e s) (m1_p2 m) 12 [sa_handler old; sa_mask old; sa_flags old]) in
        ret (k_res c) in
    if negb (res =? OK) then ret res
    else if m1_p1 m =? 0 then ret OK
    else
      let* c := call (SysDatacopy (who_e s) (m1_p1 m) PM_PROC_NR 0 12 []) in
      if negb (k_res c =? OK) then ret (k_res c)
      else if (out c 0 =? SIG_MESS) && negb (band (mp_flags r) PRIV_PROC) then ret EPERM
      else
        putp (mp s) (set_action signo (out c 0));;;
        putp (mp s) (λ r, r
          .[mp_sigact := <[Z.to_nat signo := SigAction (out c 0) (sigdelset (u32 (out c 1)) SIGKILL) (out c 2)]> (mp_sigact r)]
          .[mp_sigreturn := m1_p3 m]);;;
        ret OK.

Definition do_sigpending : P Z :=
  let* s := get in
  putp (mp s) (λ r, r.[mp_reply := (mp_reply r).[m2_l1 := s32 (mp_sigpending r)]]);;;
  ret OK.

Definition do_sigprocmask : P Z :=
  let* s := get in
  let* r := getp (mp s) in
  putp (mp s) (λ r, r.[mp_reply := (mp_reply r).[m2_l1 := s32 (mp_sigmask r)]]);;;
  let how := m2_i1 (m_in s) in
  let sig_set := u32 (m2_l1 (m_in s)) in
  if how =? SIG_BLOCK then
    let set := sigdelset (sigdelset sig_set SIGKILL) SIGSTOP in
    putp (mp s) (λ r, r.[mp_sigmask :=
      foldl (λ mask i, if sigismember set i then sigaddset mask i else mask) (mp_sigmask r) (zrange 1 (_NSIG + 1))]);;;
    ret OK
  else if how =? SIG_UNBLOCK then
    putp (mp s) (λ r, r.[mp_sigmask :=
      foldl (λ mask i, if sigismember sig_set i then sigdelset mask i else mask) (mp_sigmask r) (zrange 1 (_NSIG + 1))]);;;
    check_pending (mp s);;;
    ret OK
  else if how =? SIG_SETMASK then
    putp (mp s) (λ r, r.[mp_sigmask := sigdelset (sigdelset sig_set SIGKILL) SIGSTOP]);;;
    check_pending (mp s);;;
    ret OK
  else if how =? SIG_INQUIRE then ret OK
  else ret EINVAL.

Definition do_sigsuspend : P Z :=
  let* s := get in
  putp (mp s) (λ r, r.[mp_sigmask2 := mp_sigmask r]
    .[mp_sigmask := sigdelset (u32 (m2_l1 (m_in s))) SIGKILL]);;;
  set_flags (mp s) SIGSUSPENDED;;;
  check_pending (mp s);;;
  ret SUSPEND.

Definition do_sigreturn : P Z :=
  let* s := get in
  putp (mp s) (λ r, r.[mp_sigmask := sigdelset (u32 (m2_l1 (m_in s))) SIGKILL]);;;
  let* c := call (SysSigreturn (who_e s) (m2_p1 (m_in s))) in
  check_pending (mp s);;;
  ret (k_res c).

Definition do_kill : P Z := let* s := get in check_sig (m1_i1 (m_in s)) (m1_i2 (m_in s)).

(** Signals of the keyboard go to the whole process group. *)
Definition group_signal (i : Z) : bool := (i =? SIGINT) || (i =? SIGQUIT) || (i =? SIGWINCH).
Definition handle_ksig (e sig_map : Z) : P unit :=
  let* ' (res, p) := pm_isokendpt kernel e in
  if negb (res =? OK) || (p <? 0) then skip
  else
    let* r := getp p in
    if negb (alive r) then skip
    else
      modify (λ s, s.[mp := 0]);;;
      putp 0 (λ q, q.[mp_procgrp := mp_procgrp r]);;;
      for_list (zrange 1 (_NSIG + 1)) (λ i,
        when (sigismember sig_map i) (check_sig (if group_signal i then 0 else mp_pid r) i;;; skip)).

Definition ksig_round (_ : unit) : P (unit + unit) :=
  let* c := must SysGetksig in
  let e := out c 0 in
  if e =? NONE then ret (inr tt)
  else
    let* ' (res, p) := pm_isokendpt kernel e in
    if negb (res =? OK) then crash
    else
      handle_ksig e (out c 1);;;
      let* r := getp p in
      when (alive r) (must (SysEndksig e);;; skip);;;
      ret (inl tt).
Definition ksig_fuel : nat := 1024.
Definition ksig_pending : P Z := loop ksig_fuel ksig_round tt;;; ret SUSPEND.

Definition cause_sigalrm (tp : tid) : P unit :=
  let* t := gett tp in
  let* arg := of_option (tmr_arg t) in
  let* ' (res, p) := pm_isokendpt kernel arg.1 in
  if negb (res =? OK) then skip
  else
    let* r := getp p in
    if negb (alive r) || negb (band (mp_flags r) ALARM_ON) then skip
    else
      clr_flags p ALARM_ON;;;
      check_sig (mp_pid r) SIGALRM;;; skip.

(** [pm_expire_timers] ([timers.c]): no more timers expire than there are slots. *)
Definition run_watchdog (_ : Z) (tp : tid) : P unit := cause_sigalrm tp.
Definition pm_expire_timers (now : Z) : P unit :=
  let* next_time := tmrs_exptimers run_watchdog proc_fuel now in
  when (0 <? next_time) (must (SysSetalarm next_time);;; skip).

Definition do_pause : P Z := let* s := get in set_flags (mp s) PAUSED;;; ret SUSPEND.

(** ** [do_trace] ([trace.c]) *)
Definition find_proc (lpid : Z) : P (option Z) :=
  let* s := get in
  ret (find (λ p, match mprocs s !! p with Some r => band (mp_flags r) IN_USE && (mp_pid r =? lpid) | None => false end)
         (zrange 0 NR_PROCS)).

Definition trace_passed (child : Z) : P Z :=
  let* s := get in
  let* r := getp child in
  let* c := call (SysTrace (m2_i2 (m_in s)) (mp_endpoint r) (m2_l1 (m_in s)) (m2_l2 (m_in s))) in
  if negb (k_res c =? OK) then ret (k_res c)
  else putp (mp s) (λ q, q.[mp_reply := (mp_reply q).[m2_l2 := out c 0]]);;; ret OK.

Definition do_trace : P Z :=
  let* s := get in
  let request := m2_i2 (m_in s) in
  let data := m2_l2 (m_in s) in
  if request =? T_OK then
    set_flags (mp s) TRACED;;;
    putp (mp s) (λ q, q.[mp_reply := (mp_reply q).[m2_l2 := 0]]);;;
    ret OK
  else
    let* found := find_proc (m1_i1 (m_in s)) in
    match found with
    | None => ret ESRCH
    | Some child =>
        let* r := getp child in
        if negb (band (mp_flags r) STOPPED) then ret ESRCH
        else if request =? T_EXIT then
          pm_exit child data;;;
          putp (mp s) (λ q, q.[mp_reply := (mp_reply q).[m2_l2 := 0]]);;;
          ret OK
        else if (request =? T_RESUME) || (request =? T_STEP) then
          if (data <? 0) || (_NSIG <? data) then ret EIO
          else
            when (0 <? data) (clr_flags child TRACED;;; sig_proc child data;;; set_flags child TRACED);;;
            clr_flags child STOPPED;;;
            trace_passed child
        else trace_passed child
    end.
End pm.
