(* ===== verification/PmTree.v ===== *)
(** * The process manager: the tree of processes

    What the operations of PM do to the table of processes as a tree: which slots are
    free, live or zombies, with their pids and parents ([slot_of]).  Everything below
    [fork], [exit] and [cleanup] keeps it ([same_skel]). *)
From stdpp Require Import base gmap list numbers strings.
From Stdlib Require Import ZArith Lia.
From S2P Require Import Prelude.
From S2P Require Import Timers.
From S2P Require Import KTypes.
From S2P Require Import PmAlloc.
From S2P Require Import PmTypes.
From S2P Require Import PmProc.

Inductive slot :=
  | Free
  | Live (pid parent : Z)
  | Zombie (pid parent : Z).
#[export] Instance slot_dec : EqDecision slot.
Proof. solve_decision. Defined.

Definition slot_of (r : mproc) : slot :=
  if negb (band (mp_flags r) IN_USE) then Free
  else if band (mp_flags r) ZOMBIE then Zombie (mp_pid r) (mp_parent r)
  else Live (mp_pid r) (mp_parent r).
Definition tree (s : pms) : gmap Z slot := slot_of <$> mprocs s.

(** What decides on signals, besides. *)
Definition skel (r : mproc) : slot * (Z * Z) * bool :=
  (slot_of r, (mp_realuid r, mp_effuid r), band (mp_flags r) VM_PROC).
Definition same_skel (s s' : pms) : Prop :=
  skel <$> mprocs s' = skel <$> mprocs s ∧ procs_in_use s' = procs_in_use s ∧ mp s' = mp s ∧ who_p s' = who_p s.

#[export] Instance same_skel_preorder : PreOrder same_skel.
Proof. split; [done|]. intros s s' s'' (H1 & H2 & H3 & H4) (G1 & G2 & G3 & G4). unfold same_skel. split_and!; congruence. Qed.

(** ** Flags *)
Lemma band_set x f m : Z.land f m = 0 → band (Z.lor x f) m = band x m.
Proof. intros H. unfold band. by rewrite Z.land_lor_distr_l, H, Z.lor_0_r. Qed.
Lemma band_clr x f m : Z.land f m = 0 → band (bclr x f) m = band x m.
Proof.
  intros H. unfold band, bclr. do 2 f_equal. rewrite <-Z.land_assoc. f_equal. apply Z.bits_inj'. intros i Hi.
  rewrite Z.land_spec, Z.lnot_spec by done. apply (f_equal (λ z, Z.testbit z i)) in H. rewrite Z.land_spec, Z.bits_0 in H.
  destruct (Z.testbit f i), (Z.testbit m i); done.
Qed.
Lemma alive_band r : alive r = band (mp_flags r) IN_USE && negb (band (mp_flags r) ZOMBIE).
Proof.
  unfold alive, band. change IN_USE with 1. change ZOMBIE with 4. change (Z.lor 1 4) with 5. generalize (mp_flags r). intros x.
  assert (H : ∀ m, Z.land 7 m = m → Z.land x m = Z.land (x mod 8) m).
  { intros m Hm. rewrite <-Hm at 1. rewrite Z.land_assoc. change 7 with (Z.ones 3). rewrite Z.land_ones by done. done. }
  rewrite (H 1), (H 4), (H 5) by done. assert (Hr : 0 ≤ x mod 8 < 8) by (apply Z.mod_pos_bound; lia).
  assert (x mod 8 = 0 ∨ x mod 8 = 1 ∨ x mod 8 = 2 ∨ x mod 8 = 3 ∨ x mod 8 = 4 ∨ x mod 8 = 5 ∨ x mod 8 = 6 ∨ x mod 8 = 7)
    as [-> | [-> | [-> | [-> | [-> | [-> | [-> | ->]]]]]]] by lia; done.
Qed.

(** ** The small operations *)
Lemma skel_modify f : (∀ s, mprocs (f s) = mprocs s ∧ procs_in_use (f s) = procs_in_use s ∧ mp (f s) = mp s ∧ who_p (f s) = who_p s) →
  pres same_skel (modify f).
Proof. intros H. apply pres_modify. intros s. destruct (H s) as (H1 & H2 & H3 & H4). unfold same_skel. by rewrite H1, H2, H3, H4. Qed.
Lemma skel_putp p g : (∀ r, skel (g r) = skel r) → pres same_skel (putp p g).
Proof.
  intros Hg s a s'. unfold putp. destruct (mprocs s !! p) as [r|] eqn:Hp; [|done]. intros [= <- <-].
  split; [|done]. change (mprocs (s.[mprocs := ?t])) with t. rewrite fmap_insert, Hg. apply insert_id. by rewrite lookup_fmap, Hp.
Qed.
Lemma skel_same {A} (m : P A) : (∀ s a s', m s = Ret a s' → s' = s) → pres same_skel m.
Proof. intros H s a s' ->%H. reflexivity. Qed.
Lemma skel_getp p : pres same_skel (getp p).
Proof. apply skel_same. intros s a s'. unfold getp. case_match; [|done]. by intros [= _ <-]. Qed.
Lemma skel_gett t : pres same_skel (gett t).
Proof. apply skel_same. intros s a s'. unfold gett. case_match; [|done]. by intros [= _ <-]. Qed.
Lemma skel_putt t f : pres same_skel (putt t f).
Proof. intros s a s'. unfold putt. case_match; [|done]. by intros [= _ <-]. Qed.
Lemma skel_mem {A} (m : M pmstate A) : pres same_skel (mem m).
Proof. intros s a s'. unfold mem. case_match; [|done..]. by intros [= _ <-]. Qed.
Lemma skel_set_flags p f : Z.land f (Z.lor IN_USE (Z.lor ZOMBIE VM_PROC)) = 0 → pres same_skel (set_flags p f).
Proof.
  intros H. rewrite !Z.land_lor_distr_r in H. apply Z.lor_eq_0_iff in H as [H1 [H2 H3]%Z.lor_eq_0_iff].
  apply skel_putp. intros r. unfold skel, slot_of. cbn. by rewrite !band_set.
Qed.
Lemma skel_clr_flags p f : Z.land f (Z.lor IN_USE (Z.lor ZOMBIE VM_PROC)) = 0 → pres same_skel (clr_flags p f).
Proof.
  intros H. rewrite !Z.land_lor_distr_r in H. apply Z.lor_eq_0_iff in H as [H1 [H2 H3]%Z.lor_eq_0_iff].
  apply skel_putp. intros r. unfold skel, slot_of. cbn. by rewrite !band_clr.
Qed.

#[export] Hint Resolve skel_getp skel_gett skel_putt skel_mem same_skel_preorder : pres.
#[export] Hint Extern 1 (pres same_skel (modify _)) => (apply skel_modify; intros; split_and!; reflexivity) : pres.
#[export] Hint Extern 1 (pres same_skel (putp _ _)) => (apply skel_putp; intros; reflexivity) : pres.
#[export] Hint Extern 1 (pres same_skel (set_flags _ _)) => (apply skel_set_flags; reflexivity) : pres.
#[export] Hint Extern 1 (pres same_skel (clr_flags _ _)) => (apply skel_clr_flags; reflexivity) : pres.

Ltac skel := intros; presto.

Section ops.
Context (kernel : list kcall → kcall → kreply).

Lemma skel_call c : pres same_skel (call kernel c).
Proof. intros s a s' [= _ <-]. done. Qed.
Hint Resolve skel_call : pres.
Lemma skel_must c : pres same_skel (must kernel c).
Proof. unfold must. skel. Qed.
Hint Resolve skel_must : pres.
Lemma skel_stack_ptr e : pres same_skel (get_stack_ptr kernel e).
Proof. unfold get_stack_ptr. skel. Qed.
Lemma skel_isokendpt e : pres same_skel (pm_isokendpt kernel e).
Proof. unfold pm_isokendpt. skel. Qed.
Lemma skel_tell_fs w a b c : pres same_skel (tell_fs kernel w a b c).
Proof. unfold tell_fs. skel. Qed.
Lemma skel_setreply p r : pres same_skel (setreply p r).
Proof. unfold setreply. skel. Qed.
Lemma skel_tmrs_clr t : pres same_skel (tmrs_clrtimer t).
Proof. unfold tmrs_clrtimer, clr_scan, head_time, tload, tstore. skel. Qed.
Hint Resolve skel_stack_ptr skel_isokendpt skel_tell_fs skel_setreply skel_tmrs_clr : pres.
Lemma skel_tmrs_set t e w : pres same_skel (tmrs_settimer t e w).
Proof. unfold tmrs_settimer, set_scan, head_time, tload, tstore. skel. Qed.
Hint Resolve skel_tmrs_set : pres.
Lemma skel_set_timer p t w a : pres same_skel (pm_set_timer kernel p t w a).
Proof. unfold pm_set_timer. skel. Qed.
Lemma skel_cancel p : pres same_skel (pm_cancel_timer kernel p).
Proof. unfold pm_cancel_timer. skel. Qed.
Hint Resolve skel_set_timer skel_cancel : pres.
Lemma skel_set_alarm e sec : pres same_skel (set_alarm kernel e sec).
Proof. unfold set_alarm. skel. Qed.
Lemma skel_find_share p i d c : pres same_skel (find_share p i d c).
Proof. unfold find_share. skel. Qed.
Lemma skel_rw_seg rw fd e seg n : pres same_skel (rw_seg kernel rw fd e seg n).
Proof. unfold rw_seg, seg_step. skel. Qed.
Hint Resolve skel_set_alarm skel_find_share skel_rw_seg : pres.
Lemma skel_adjust p d sp : pres same_skel (adjust kernel p d sp).
Proof. unfold adjust. skel. Qed.
Hint Resolve skel_adjust : pres.
Lemma skel_unpause p : pres same_skel (unpause kernel p).
Proof. unfold unpause. skel. Qed.
Lemma skel_stop p sig : pres same_skel (stop_proc kernel p sig).
Proof. unfold stop_proc. skel. Qed.
Lemma skel_dump p : pres same_skel (dump_core kernel p).
Proof. unfold dump_core, trace_step. skel. Qed.
Hint Resolve skel_unpause skel_stop skel_dump : pres.
Lemma skel_catching p sig a : pres same_skel (putp p (catching sig a)).
Proof. apply skel_putp. intros r. unfold catching. by destruct (band (sa_flags a) SA_RESETHAND). Qed.
Hint Resolve skel_catching : pres.
Lemma skel_catch p sig a : pres same_skel (catch_signal kernel p sig a).
Proof. unfold catch_signal. skel. Qed.
Hint Resolve skel_catch : pres.

(** A signal that is ignored by default ends no process. *)
Lemma skel_sig_ignored ex p sig : sigismember ign_sset sig = true → pres same_skel (sig_proc_with kernel ex p sig).
Proof. intros H. unfold sig_proc_with, terminate_with. rewrite H. skel. Qed.

(** Before the exit: until [pm_exit] is called. *)
Lemma skel_release p st : pres same_skel (exit_release kernel p st).
Proof. unfold exit_release. skel. Qed.
End ops.
#[export] Hint Resolve skel_call skel_must skel_stack_ptr skel_isokendpt skel_tell_fs skel_setreply skel_tmrs_clr skel_tmrs_set
  skel_set_timer skel_cancel skel_set_alarm skel_find_share skel_rw_seg skel_adjust skel_unpause skel_stop skel_dump skel_catching
  skel_catch skel_release : pres.

(** ** The live processes *)
Definition is_live (x : slot) : bool := if x is Live _ _ then true else false.
Definition lives (s : pms) : gset Z := dom (filter (λ x, is_live x.2 = true) (tree s)).
Definition fewer (s s' : pms) : Prop := lives s' ⊆ lives s.
#[export] Instance fewer_preorder : PreOrder fewer.
Proof. split; [intros s; by unfold fewer|]. intros s s1 s2. unfold fewer. intros H1 H2. by etransitivity. Qed.

Lemma elem_of_lives s p : p ∈ lives s ↔ ∃ r, mprocs s !! p = Some r ∧ alive r = true.
Proof.
  unfold lives, tree. rewrite elem_of_dom. split.
  - intros [x [(r & <- & Hp)%lookup_fmap_Some Hx]%map_lookup_filter_Some]. exists r. split; [done|].
    rewrite alive_band. cbn in Hx. unfold slot_of in Hx. by destruct (band _ IN_USE), (band _ ZOMBIE).
  - intros (r & Hp & Ha). exists (slot_of r). apply map_lookup_filter_Some. rewrite lookup_fmap, Hp. split; [done|]. cbn.
    rewrite alive_band in Ha. unfold slot_of. by destruct (band _ IN_USE), (band _ ZOMBIE).
Qed.
Lemma lives_tree s s' : tree s' = tree s → lives s' = lives s.
Proof. unfold lives. by intros ->. Qed.

Lemma same_skel_tree s s' : same_skel s s' → tree s' = tree s.
Proof.
  intros (H & _). assert (Ht : ∀ x, tree x = (λ k, k.1.1) <$> (skel <$> mprocs x)); [|by rewrite !Ht, H].
  intros x. unfold tree. rewrite <-map_fmap_compose. by apply map_fmap_ext.
Qed.
Lemma same_skel_fewer s s' : same_skel s s' → fewer s s'.
Proof. intros H%same_skel_tree%lives_tree. unfold fewer. by rewrite H. Qed.
Lemma skel_fewer {A} (m : P A) : pres same_skel m → pres fewer m.
Proof. intros H s a s' Hm. by eapply same_skel_fewer, H. Qed.

Lemma tree_putp p g s a s' :
  putp p g s = Ret a s' → ∃ r, mprocs s !! p = Some r ∧ mprocs s' = <[p := g r]> (mprocs s) ∧ tree s' = <[p := slot_of (g r)]> (tree s).
Proof.
  unfold putp. destruct (mprocs s !! p) as [r|] eqn:Hp; [|done]. intros [= _ <-]. exists r. split_and!; [done..|].
  unfold tree. change (mprocs (s.[mprocs := ?t])) with t. by rewrite fmap_insert.
Qed.

(** [cleanup] frees the slot. *)
Lemma cleanup_tree c s a s' : cleanup c s = Ret a s' →
  tree s' = <[c := Free]> (tree s) ∧ procs_in_use s' = s32 (procs_in_use s - 1) ∧ mp s' = mp s ∧ who_p s' = who_p s.
Proof.
  unfold cleanup. intros H. minv H. assert (E1 := skel_getp c _ _ _ H0).
  minv H. assert (E2 : same_skel s0 s1) by (eapply (skel_putp (mp_parent a0)); [|exact H1]; done).
  minv H. assert (E3 := skel_setreply _ _ _ _ _ H2).
  minv H. assert (E4 : same_skel s2 s3) by (eapply (skel_clr_flags (mp_parent a0)); [|exact H3]; done).
  minv H. assert (E : same_skel s s3) by (etransitivity; [exact E1|etransitivity; [exact E2|etransitivity; eassumption]]).
  destruct (tree_putp _ _ _ _ _ H4) as (r & Hr & Hm & Ht). injection H as _ <-.
  assert (Hrest : procs_in_use s4 = procs_in_use s3 ∧ mp s4 = mp s3 ∧ who_p s4 = who_p s3).
  { revert H4. unfold putp. case_match; [|done]. by intros [= _ <-]. }
  destruct Hrest as (R1 & R2 & R3), E as (Es & P1 & P2 & P3). split_and!.
  - change (tree (s4.[procs_in_use := ?t])) with (tree s4). rewrite Ht. rewrite (same_skel_tree s s3); done.
  - cbn. congruence.
  - cbn. congruence.
  - cbn. congruence.
Qed.

Lemma lives_insert s s' p x : tree s' = <[p := x]> (tree s) → is_live x = false → lives s' = lives s ∖ {[p]}.
Proof.
  intros H Hx. apply set_eq. intros q. unfold lives. rewrite elem_of_difference, !elem_of_dom, not_elem_of_singleton. rewrite H. split.
  - intros [y [Hl Hy]%map_lookup_filter_Some]. cbn in Hy. destruct (decide (q = p)) as [->|Hne].
    + rewrite lookup_insert_eq in Hl. congruence.
    + rewrite lookup_insert_ne in Hl by done. split; [|done]. exists y. by apply map_lookup_filter_Some.
  - intros [[y [Hl Hy]%map_lookup_filter_Some] Hne]. exists y. apply map_lookup_filter_Some. by rewrite lookup_insert_ne.
Qed.
Lemma cleanup_lives c s a s' : cleanup c s = Ret a s' → lives s' = lives s ∖ {[c]}.
Proof. intros [H _]%cleanup_tree. by eapply lives_insert. Qed.
Lemma cleanup_fewer c : pres fewer (cleanup c).
Proof. intros s a s' H%cleanup_lives. unfold fewer. rewrite H. apply subseteq_difference_l. done. Qed.
Lemma zombify_lives p s a s' : putp p (λ r, r.[mp_flags := Z.lor IN_USE ZOMBIE]) s = Ret a s' → lives s' = lives s ∖ {[p]}.
Proof. intros (r & _ & _ & Ht)%tree_putp. by eapply lives_insert. Qed.

(** Changes of the parent. *)
Lemma fewer_putp p g : (∀ r, alive (g r) = true → alive r = true) → pres fewer (putp p g).
Proof.
  intros Hg s a s' (r & Hr & Hm & _)%tree_putp q (r' & Hq & Ha)%elem_of_lives. apply elem_of_lives. rewrite Hm in Hq.
  destruct (decide (q = p)) as [->|Hne]; [|rewrite lookup_insert_ne in Hq by done; by exists r'].
  rewrite lookup_insert_eq in Hq. injection Hq as <-. exists r. auto.
Qed.
#[export] Hint Resolve cleanup_fewer fewer_preorder : pres.
#[export] Hint Extern 1 (pres fewer (putp _ _)) => (apply fewer_putp; intros; assumption) : pres.
#[export] Hint Extern 2 (pres fewer _) => (apply skel_fewer; solve [skel]) : pres.

Lemma disinherit_fewer p q : pres fewer (disinherit p q).
Proof. unfold disinherit. presto. Qed.
#[export] Hint Resolve disinherit_fewer : pres.

(** ** The depth of the recursion *)
Section depth.
Context (kernel : list kcall → kcall → kreply).

Lemma bind_agree {A B} (m : P A) (k1 k2 : A → P B) s :
  (∀ a s', m s = Ret a s' → k1 a s' = k2 a s') → bind m k1 s = bind m k2 s.
Proof. intros H. unfold bind. destruct (m s); auto. Qed.
Lemma loop_agree {A B} (I : pms → Prop) n (b1 b2 : A → P (A + B)) a s :
  I s → (∀ a s, I s → b1 a s = b2 a s) → (∀ a s r s', I s → b1 a s = Ret r s' → I s') → loop n b1 a s = loop n b2 a s.
Proof.
  intros HI Hb Hk. revert a s HI. induction n as [|n IH]; intros a s HI; [done|]. rewrite !loop_S, <-Hb by done.
  destruct (b1 a s) as [[a'|b] s'| |] eqn:E; try done. apply IH. by eapply Hk.
Qed.

(** With at most [n] live processes the two functions do the same. *)
Definition agree {A} (n : nat) (f g : Z → Z → P A) : Prop := ∀ p x s, (size (lives s) ≤ n)%nat → f p x s = g p x s.
Definition agree_live (n : nat) (f g : Z → Z → P unit) : Prop :=
  ∀ p x s, (size (lives s) ≤ n)%nat → p ∈ lives s → f p x s = g p x s.

Lemma few_kept {A} (m : P A) n s a s' : pres fewer m → m s = Ret a s' → (size (lives s) ≤ n)%nat → (size (lives s') ≤ n)%nat.
Proof. intros Hm H Hn. apply Hm in H. unfold fewer in H. apply subseteq_size in H. lia. Qed.

Lemma sig_fewer ex p sig : (∀ p x, pres fewer (ex p x)) → pres fewer (sig_proc_with kernel ex p sig).
Proof. intros H. unfold sig_proc_with, terminate_with. presto. Qed.
Lemma check_fewer sp id sig : (∀ p x, pres fewer (sp p x)) → pres fewer (check_sig_with sp id sig).
Proof. intros H. unfold check_sig_with, check_step. presto. Qed.
Lemma exit_with_fewer sp ck p st : (∀ p x, pres fewer (sp p x)) → (∀ p x, pres fewer (ck p x)) → pres fewer (pm_exit_with kernel sp ck p st).
Proof.
  intros H1 H2. assert (Hz : pres fewer (putp p (λ r, r.[mp_flags := Z.lor IN_USE ZOMBIE]))).
  { intros s a s' Hr%zombify_lives. unfold fewer. rewrite Hr. by apply subseteq_difference_l. }
  unfold pm_exit_with. presto.
Qed.
Lemma exit_fewer b n p st : (∀ p st, pres fewer (b p st)) → pres fewer (pm_exit_n kernel b n p st).
Proof.
  intros Hb. revert p st. induction n as [|n IH]; intros p st; [apply Hb|]. cbn [pm_exit_n]. apply exit_with_fewer; intros.
  - by apply sig_fewer.
  - apply check_fewer. intros. by apply sig_fewer.
Qed.

Lemma bind_agree2 {A B} (m1 m2 : P A) (k1 k2 : A → P B) s :
  m1 s = m2 s → (∀ a s', m1 s = Ret a s' → k1 a s' = k2 a s') → bind m1 k1 s = bind m2 k2 s.
Proof. intros Hm H. unfold bind. rewrite <-Hm. destruct (m1 s); auto. Qed.
Lemma skel_kept {A} (m : P A) s a s' : pres same_skel m → m s = Ret a s' → lives s' = lives s.
Proof. intros Hm H. by eapply lives_tree, same_skel_tree, Hm. Qed.

(** The next step of a run that keeps the live processes. *)
Ltac same_step :=
  let a := fresh "a" in let s' := fresh "s'" in let E := fresh "E" in let L := fresh "L" in
  apply bind_agree; intros a s' E;
  lazymatch type of E with
  | ?m ?s = _ => assert (L : lives s' = lives s) by (apply (skel_kept m s a s'); [skel|exact E])
  end.

Lemma terminate_agree n ex1 ex2 p x s : agree_live n ex1 ex2 → (size (lives s) ≤ n)%nat → p ∈ lives s →
  terminate_with kernel ex1 p x s = terminate_with kernel ex2 p x s.
Proof.
  intros H Hn Hp. unfold terminate_with. destruct (sigismember ign_sset x); [done|]. same_step. same_step.
  apply H; rewrite L0, L; done.
Qed.
Lemma sig_agree n ex1 ex2 : agree_live n ex1 ex2 → agree n (sig_proc_with kernel ex1) (sig_proc_with kernel ex2).
Proof.
  intros H p x s Hn. unfold sig_proc_with. same_step. assert (Hp : alive a = true → p ∈ lives s').
  { intros Ha. unfold getp in E. destruct (mprocs s !! p) as [r|] eqn:Er; [|done]. injection E as -> <-. apply elem_of_lives. by exists a. }
  destruct (alive a); [|done]. specialize (Hp eq_refl). cbn [negb]. destruct (_ && _); [done|]. destruct (sigismember _ _); [done|].
  destruct (sigismember _ _); [done|]. same_step. destruct (sigismember _ _).
  - same_step. destruct a1; [done|]. apply (terminate_agree n); [done|congruence|congruence].
  - destruct (sigismember _ _); [done|]. apply (terminate_agree n); [done|congruence|congruence].
Qed.
Lemma check_agree n sp1 sp2 : (∀ p x, pres fewer (sp1 p x)) → agree n sp1 sp2 → agree n (check_sig_with sp1) (check_sig_with sp2).
Proof.
  intros Hf H id sig s Hn. unfold check_sig_with. do 2 (case_match; [done|]). apply bind_agree2; [|done].
  apply (loop_agree (λ s, size (lives s) ≤ n)%nat); [done|..].
  - intros [[p c] e] s1 Hs1. unfold check_step. case_match; [done|]. same_step. same_step. same_step.
    do 3 (case_match; [done|]). apply bind_agree2; [|done]. apply H. congruence.
  - intros a s1 r s2 Hs1 E. eapply few_kept; [|exact E|done]. unfold check_step. presto.
Qed.
Lemma exit_agree n sp1 sp2 ck1 ck2 p x s : (∀ p x, pres fewer (sp1 p x)) → agree n sp1 sp2 → agree n ck1 ck2 →
  (size (lives s ∖ {[p]}) ≤ n)%nat → pm_exit_with kernel sp1 ck1 p x s = pm_exit_with kernel sp2 ck2 p x s.
Proof.
  intros Hf Hsp Hck Hn. unfold pm_exit_with. do 5 same_step. cbv zeta.
  assert (Hl : lives s'3 = lives s) by congruence.
  set (m := λ sp : Z → Z → P unit, if band (mp_flags a3) WAITING && right_child (mp_wpid a3) a then cleanup p
    else putp p (λ r, r.[mp_flags := Z.lor IN_USE ZOMBIE]);;; sp (mp_parent a) SIGCHLD).
  assert (Hm : m sp1 s'3 = m sp2 s'3 ∧ ∀ b t, m sp1 s'3 = Ret b t → (size (lives t) ≤ n)%nat).
  { unfold m. destruct (_ && _).
    - split; [done|]. intros b t Hc%cleanup_lives. rewrite Hc, Hl. done.
    - split.
      + apply bind_agree. intros b t Hz%zombify_lives. apply Hsp. rewrite Hz, Hl. done.
      + intros b t Hb. minv Hb. apply zombify_lives in Hb0. eapply few_kept; [|exact Hb|]; [apply Hf|]. rewrite Hb0, Hl. done. }
  destruct Hm as [Hm1 Hm2]. fold (m sp1) (m sp2). apply bind_agree2; [done|]. intros b s4 E4%Hm2.
  apply bind_agree. intros c s5 E5. assert (H5 : (size (lives s5) ≤ n)%nat) by (eapply few_kept; [|exact E5|done]; presto).
  destruct (negb _); [|done]. apply bind_agree2; [|done]. by apply Hck.
Qed.

(** Two bottoms, two depths: the same run. *)
Lemma depth_enough b b' n m m' p x s : (∀ p x, pres fewer (b p x)) → (n ≤ m)%nat → (n ≤ m')%nat → (size (lives s) ≤ n)%nat → p ∈ lives s →
  pm_exit_n kernel b m p x s = pm_exit_n kernel b' m' p x s.
Proof.
  intros Hb. revert m m' p x s. induction n as [|n IH]; intros m m' p x s Hm Hm' Hn Hp.
  - exfalso. assert (lives s ≡ ∅) as E by (apply size_empty_inv; lia). by apply E, not_elem_of_empty in Hp.
  - destruct m as [|m], m' as [|m']; [lia..|]. cbn [pm_exit_n].
    assert (Ha : agree_live n (pm_exit_n kernel b m) (pm_exit_n kernel b' m')) by (intros q y t Ht Hq; apply IH; [lia|lia|done|done]).
    assert (Hf : ∀ q y, pres fewer (sig_proc_with kernel (pm_exit_n kernel b m) q y)) by (intros; apply sig_fewer; intros; by apply exit_fewer).
    apply (exit_agree n); [exact Hf|by apply sig_agree| |].
    + apply check_agree; [exact Hf|by apply sig_agree].
    + rewrite size_difference by (apply singleton_subseteq_l; done). rewrite size_singleton. lia.
Qed.
End depth.
