(* ===== verification/PmCalls.v ===== *)
(** * The process manager: identities, time, memory and other calls

    [src/servers/pm/getset.c], [time.c], [vmmreq.c], [find_param] of [utility.c] and
    [misc.c] less [do_getsysinfo], which copies whole tables. *)
From stdpp Require Import base gmap list numbers strings.
From Stdlib Require Import ZArith Lia.
From S2P Require Import Prelude.
From S2P Require Import KTypes.
From S2P Require Import PmAlloc.
From S2P Require Import PmTypes.
From S2P Require Import PmProc.

Definition PRIO_PROCESS : Z := 0.
Definition RBT_MONITOR : Z := 3.
Definition RBT_INVALID : Z := 5.
Definition DS_RETRIEVE : Z := 0x801.
Definition MMGETPARAM : Z := 0x40104D05.
Definition MMSETPARAM : Z := s32 0x80104D07.
Definition MAX_LOCAL_PARAMS : Z := 2.

(** The first [n] bytes that a copy of [n] bytes brought. *)
Definition copied (n : Z) (l : list Z) : list Z := take (Z.to_nat n) (l ++ replicate (Z.to_nat n) 0).

Section pm.
Context (kernel : list kcall → kcall → kreply).
#[local] Abbreviation call := (call kernel).
#[local] Abbreviation must := (must kernel).

(** The fields of the reply to the caller. *)
Definition reply (p : Z) (f : message → message) : P unit := putp p (λ r, r.[mp_reply := f (mp_reply r)]).

(** ** [getset.c] *)
Definition set_uid (r : mproc) (uid : Z) (real : bool) : mproc :=
  (if real then r.[mp_realuid := uid] else r).[mp_effuid := uid].
Definition set_gid (r : mproc) (gid : Z) (real : bool) : mproc :=
  (if real then r.[mp_realgid := gid] else r).[mp_effgid := gid].

Definition do_getset : P Z :=
  let* s := get in
  let* r := getp (mp s) in
  let c := call_nr s in
  let m := m_in s in
  if c =? GETUID then
    reply (mp s) (λ m, m.[m2_i1 := mp_effuid r]);;;
    ret (mp_realuid r)
  else if c =? GETGID then
    reply (mp s) (λ m, m.[m2_i1 := mp_effgid r]);;;
    ret (mp_realgid r)
  else if c =? GETPID then
    let* w := getp (who_p s) in
    let* parent := getp (mp_parent r) in
    reply (mp s) (λ m, m.[m2_i1 := mp_pid parent]);;;
    let* ' (res, p) := pm_isokendpt kernel (m1_i1 m) in
    (if (res =? OK) && (0 <=? p) then
       let* q := getp p in
       reply (mp s) (λ m, m.[m2_i2 := mp_pid q])
     else skip);;;
    ret (mp_pid w)
  else if (c =? SETEUID) || (c =? SETUID) then
    let uid := s16 (m1_i1 m) in
    if negb (mp_realuid r =? uid) && negb (mp_effuid r =? SUPER_USER) then ret EPERM
    else
      putp (mp s) (λ r, set_uid r uid (c =? SETUID));;;
      let* r := getp (mp s) in
      tell_fs kernel SETUID (who_e s) (mp_realuid r) (mp_effuid r);;;
      ret OK
  else if (c =? SETEGID) || (c =? SETGID) then
    let gid := s8 (m1_i1 m) in
    if negb (mp_realgid r =? gid) && negb (mp_effuid r =? SUPER_USER) then ret EPERM
    else
      putp (mp s) (λ r, set_gid r gid (c =? SETGID));;;
      let* r := getp (mp s) in
      tell_fs kernel SETGID (who_e s) (mp_realgid r) (mp_effgid r);;;
      ret OK
  else if c =? SETSID then
    if mp_procgrp r =? mp_pid r then ret EPERM
    else
      putp (mp s) (λ r, r.[mp_procgrp := mp_pid r]);;;
      tell_fs kernel SETSID (who_e s) 0 0;;;
      ret (mp_pid r)
  else if c =? GETPGRP then ret (mp_procgrp r)
  else ret EINVAL.

Definition do_getvmid : P Z := let* s := get in ret (pm_vmid (pm_mem s)).

(** The reply of the data store: its result and the endpoint. *)
Definition do_getsep : P Z :=
  let* c := call (TaskCall DS_PROC_NR DS_RETRIEVE 0x1234) in
  ret (if negb (k_res c =? OK) then k_res c else out c 0).

(** ** [time.c] *)
Definition do_time : P Z :=
  let* s := get in
  let* u := must SysUptime in
  let uptime := out u 0 in
  reply (mp s) (λ m, m.[m2_l1 := s32 (boottime s + uptime ÷ HZ)].[m2_l2 := s32 (Z.rem uptime HZ * 1000000) ÷ HZ]);;;
  ret OK.

Definition do_stime : P Z :=
  let* s := get in
  let* r := getp (mp s) in
  if negb (mp_effuid r =? SUPER_USER) then ret EPERM
  else
    let* u := must SysUptime in
    let t := s32 (m2_l1 (m_in s) - out u 0 ÷ HZ) in
    modify (λ s, s.[boottime := t]);;;
    tell_fs kernel STIME t 0 0;;;
    ret OK.

Definition do_times : P Z :=
  let* s := get in
  let* t := must (SysTimes (who_e s)) in
  let* r := getp (mp s) in
  reply (mp s) (λ m, m.[m4_l1 := out t 0].[m4_l2 := out t 1].[m4_l3 := mp_child_utime r].[m4_l4 := mp_child_stime r].[m4_l5 := out t 4]);;;
  ret OK.

(** ** [misc.c] *)
Definition clicks_of (bytes : Z) : Z := u32 (Z.shiftr (s32 (bytes + CLICK_SIZE - 1)) CLICK_SHIFT).

Definition do_allocmem : P Z :=
  let* s := get in
  let* mem_base := mem (alloc_mem (clicks_of (m4_l1 (m_in s)))) in
  if mem_base =? NO_MEM then ret ENOMEM
  else
    reply (mp s) (λ m, m.[m4_l2 := u32 (Z.shiftl mem_base CLICK_SHIFT)]);;;
    ret OK.

Definition do_freemem : P Z :=
  let* s := get in
  mem (free_mem (clicks_of (m4_l2 (m_in s))) (clicks_of (m4_l1 (m_in s))));;;
  ret OK.

Definition do_procstat : P Z :=
  let* s := get in
  if m2_i1 (m_in s) =? SELF then
    let* r := getp (mp s) in
    reply (mp s) (λ m, m.[m2_l1 := s32 (mp_sigpending r)]);;;
    putp (mp s) (λ r, r.[mp_sigpending := 0]);;;
    ret OK
  else ret ENOSYS.

(** [strncmp (a, b, n) == 0] on C strings. *)
Fixpoint strn_eq (n : nat) (a b : list Z) : bool :=
  match n with
  | O => true
  | Datatypes.S n =>
      match a, b with
      | [], [] => true
      | x :: a, y :: b => (x =? y) && strn_eq n a b
      | _, _ => false
      end
  end.

Definition do_getprocnr : P Z :=
  let* s := get in
  let m := m_in s in
  let found (f : mproc → bool) : P Z :=
    let* s := get in
    match find (λ p, match mprocs s !! p with Some r => f r | None => false end) (zrange 0 NR_PROCS) with
    | Some p =>
        let* r := getp p in
        reply (mp s) (λ m, m.[m1_i1 := mp_endpoint r]);;;
        ret OK
    | None => ret ESRCH
    end in
  if 0 <=? m1_i1 m then found (λ r, band (mp_flags r) IN_USE && (mp_pid r =? m1_i1 m))
  else if 0 <? m1_i2 m then
    let key_len := Z.min (m1_i2 m) PROC_NAME_LEN in
    let* c := call (SysDatacopy (who_e s) (m1_p1 m) SELF 0 key_len []) in
    if negb (k_res c =? OK) then ret (k_res c)
    else
      let key := c_str (copied key_len (k_out c)) in
      found (λ r, alive r && strn_eq (Z.to_nat key_len) (c_str (mp_name r)) key)
  else
    let* r := getp (mp s) in
    let* parent := getp (mp_parent r) in
    reply (mp s) (λ m, m.[m1_i1 := who_e s].[m1_i2 := mp_endpoint parent]);;;
    ret OK.

(** Without a string for the monitor its address and size are whatever is on the stack. *)
Definition do_reboot : P Z :=
  let* s := get in
  let m := m_in s in
  let* r := getp (mp s) in
  let abort_flag := m1_i1 m in
  if negb (mp_effuid r =? SUPER_USER) then ret EPERM
  else if RBT_INVALID <=? abort_flag then ret EINVAL
  else
    let* code :=
      if abort_flag =? RBT_MONITOR then
        if 256 <=? u32 (m1_i2 m) then ret (inl EINVAL)
        else
          let* c := call (SysDatacopy (who_e s) (m1_p1 m) SELF 0 (m1_i2 m) []) in
          ret (if negb (k_res c =? OK) then inl (k_res c) else inr (copied (m1_i2 m) (k_out c) ++ [0]))
      else ret (inr []) in
    match code with
    | inl e => ret e
    | inr code =>
        check_sig kernel (-1) SIGKILL;;;
        call (SysNice INIT_PROC_NR PRIO_STOP);;;
        tell_fs kernel REBOOT 0 0 0;;;
        call (SysAbort abort_flag (Z.of_nat (length code)) code);;;
        ret SUSPEND
    end.

Definition do_getsetpriority : P Z :=
  let* s := get in
  let m := m_in s in
  let* caller := getp (mp s) in
  if negb (m1_i1 m =? PRIO_PROCESS) then ret EINVAL
  else
    let* rmp := if m1_i2 m =? 0 then ret (who_p s) else proc_from_pid (m1_i2 m) in
    if negb (m1_i2 m =? 0) && (rmp <? 0) then ret ESRCH
    else
      let* r := getp rmp in
      if negb (mp_effuid caller =? SUPER_USER) && negb (mp_effuid caller =? mp_effuid r) && negb (mp_effuid caller =? mp_realuid r) then ret EPERM
      else if call_nr s =? GETPRIORITY then ret (s32 (mp_nice r - PRIO_MIN))
      else if (m1_i3 m <? mp_nice r) && negb (mp_effuid caller =? SUPER_USER) then ret EACCES
      else
        putp rmp (λ r, r.[mp_nice := m1_i3 m]);;;
        let* c := call (SysNice (mp_endpoint r) (m1_i3 m)) in
        ret (k_res c).

(** ** [find_param] ([utility.c])

    The rest of the name and of the environment after the characters they share. *)
Fixpoint share (name env : list Z) : list Z * list Z :=
  match name, env with
  | n :: name', e :: env' => if n =? e then share name' env' else (name, env)
  | _, _ => (name, env)
  end.
(** Behind the next NUL; [None]: there is none. *)
Fixpoint after_nul (env : list Z) : option (list Z) :=
  match env with
  | [] => None
  | c :: env => if c =? 0 then Some env else after_nul env
  end.
(** [inr]: what [find_param] returns; [name] has no NUL. *)
Definition param_step (name env : list Z) : P (list Z + option (list Z)) :=
  let* c := of_option (head env) in
  if c =? 0 then ret (inr None)
  else
    let '(n, e) := share name env in
    let* c := of_option (head e) in
    if bool_decide (n = []) && (c =? 0x3D) then ret (inr (Some (tail e)))
    else
      let* e := of_option (after_nul e) in
      ret (inl e).
Definition find_param (name : list Z) : P (option (list Z)) :=
  let* s := get in
  loop (Datatypes.S (length (monitor_params s))) (param_step name) (monitor_params s).

(** ** [do_svrctl]: the words of a [struct sysgetenv] are [key], [keylen], [val], [vallen]. *)
Definition fetch (addr n : Z) : P (Z * list Z) :=
  let* s := get in
  let* c := call (SysDatacopy (who_e s) addr SELF 0 n []) in
  ret (k_res c, copied n (k_out c)).

(** The value is copied with the length of the key, into a buffer that is zero. *)
Definition set_param (key keylen val vallen : Z) : P Z :=
  let* s := get in
  if MAX_LOCAL_PARAMS <=? Z.of_nat (length (local_params s)) then ret ENOSPC
  else if (keylen <=? 0) || (30 <=? keylen) || (vallen <=? 0) || (30 <=? vallen) then ret EINVAL
  else
    let* ' (res, name) := fetch key keylen in
    if negb (res =? OK) then ret res
    else
      let* ' (res, value) := fetch val keylen in
      if negb (res =? OK) then ret res
      else
        modify (λ s, s.[local_params := local_params s ++ [(c_str name, c_str (copied vallen value))]]);;;
        ret OK.

(** The value, and what is copied of it: a string with its NUL, or all parameters. *)
Definition get_param (key keylen val vallen : Z) : P Z :=
  let* s := get in
  let* found :=
    if keylen =? 0 then ret (inr (monitor_params s))
    else if 64 <? keylen then ret (inl EINVAL)
    else
      let* ' (res, name) := fetch key keylen in
      if negb (res =? OK) then ret (inl res)
      else
        let search_key := c_str (take (Z.to_nat (keylen - 1)) name) in
        match find (λ l, bool_decide (search_key = l.1)) (local_params s) with
        | Some l => ret (inr (l.2 ++ [0]))
        | None =>
            let* v := find_param search_key in
            ret (match v with Some v => inr (c_str v ++ [0]) | None => inl ESRCH end)
        end in
  match found with
  | inl e => ret e
  | inr v =>
      if vallen <? Z.of_nat (length v) then ret E2BIG
      else
        let* c := call (SysDatacopy SELF 0 (who_e s) val (Z.min (Z.of_nat (length v)) vallen) v) in
        ret (k_res c)
  end.

Definition do_svrctl : P Z :=
  let* s := get in
  let req := m2_i1 (m_in s) in
  if negb (Z.land (Z.shiftr req 8) 0xFF =? 0x4D) then ret EINVAL
  else if (req =? MMSETPARAM) || (req =? MMGETPARAM) then
    let* c := call (SysDatacopy (who_e s) (m2_p1 (m_in s)) SELF 0 16 []) in
    if negb (k_res c =? OK) then ret EFAULT
    else (if req =? MMSETPARAM then set_param else get_param) (out c 0) (u32 (out c 1)) (out c 2) (u32 (out c 3))
  else ret EINVAL.

(** ** [vmmreq.c] *)
Definition vm_name (old : list Z) (vmid : Z) : list Z := [86; 77; s8 (vmid + 48); 0] ++ drop 4 old.

(** After ESRCH the code goes on with [mproc[-1]]. *)
Definition vmm_load (vmpid vmid : Z) : P Z :=
  let* s := get in
  let* p_nr := proc_from_pid vmpid in
  set_flags p_nr VM_PROC;;;
  putp p_nr (λ r, r.[mp_name := vm_name (mp_name r) vmid]);;;
  let* r := getp p_nr in
  reply (mp s) (λ m, m.[m1_i2 := mp_endpoint r].[m1_i3 := mp_vmsize r]);;;
  ret OK.

Definition vmm_kill (vmloadep : Z) : P Z :=
  let* ' (res, vm_proc) := pm_isokendpt kernel vmloadep in
  if negb (res =? OK) then ret ENOENT
  else
    let* r := getp vm_proc in
    if band (mp_flags r) VM_PROC then
      clr_flags vm_proc VM_PROC;;;
      ret OK
    else ret ENOENT.

Definition do_vmmreq : P Z :=
  let* s := get in
  let m := m_in s in
  if negb (who_e s =? VMM_PROC_NR) then ret EPERM
  else if negb (pm_vmid (pm_mem s) =? 0) then ret EPERM
  else if m1_i1 m =? VMM_LOAD then vmm_load (m1_i2 m) (m1_i3 m)
  else if m1_i1 m =? VMM_KILL then vmm_kill (m1_i2 m)
  else ret EBADREQUEST.
End pm.
