(* ===== verification/PmExec.v ===== *)
(** * The process manager: [exec]

    [src/servers/pm/exec.c] less [find_share] and [rw_seg].  The buffer for the initial
    stack is a function from offsets to bytes.  [allowed] is in [utility.c]. *)
From stdpp Require Import base gmap list numbers strings.
From Stdlib Require Import ZArith Lia.
From S2P Require Import Prelude.
From S2P Require Import KTypes.
From S2P Require Import PmAlloc.
From S2P Require Import PmTypes.
From S2P Require Import PmProc.
From S2P Require Import PmCalls.

Definition ENOEXEC : Z := -8.
Definition ESCRIPT : Z := -2000.
Definition ARG_MAX : Z := 16384.
Definition PTRSIZE : Z := 4.
Definition A_MINHDR : Z := 32.
Definition A_I80386 : Z := 0x10.
Definition A_NSYM : Z := 0x04.
Definition A_EXEC : Z := 0x10.
Definition I_SET_UID_BIT : Z := 0x800.
Definition I_SET_GID_BIT : Z := 0x400.
Definition SEEK_SET : Z := 0.
Definition SEEK_CUR : Z := 1.

(** ** The initial stack *)

(** [memmove] and [strcpy] in the buffer. *)
Definition memmove (d : Z → Z) (dst src n : Z) : Z → Z :=
  λ i, if (dst <=? i) && (i <? dst + n) then d (src + (i - dst)) else d i.
Definition strcpy (d : Z → Z) (dst : Z) (l : list Z) : Z → Z :=
  λ i, if (dst <=? i) && (i <=? dst + Z.of_nat (length l)) then nth (Z.to_nat (i - dst)) l 0 else d i.

(** The words from [ap] on; [flag] counts the null pointers. *)
Fixpoint patch_words (n : nat) (base ap flag : Z) (d : Z → Z) : Z → Z :=
  match n with
  | O => d
  | Datatypes.S n =>
      if 2 <=? flag then d
      else if ARG_MAX <=? PTRSIZE * ap then d
      else
        let w := get32 d (PTRSIZE * ap) in
        if w =? 0 then patch_words n base (ap + 1) (flag + 1) d
        else patch_words n base (ap + 1) flag (put32 d (PTRSIZE * ap) (u32 (w + base)))
  end.
Definition stack_words : nat := Z.to_nat (ARG_MAX / PTRSIZE).
Definition patch_ptr (stack : Z → Z) (base : Z) : Z → Z := patch_words stack_words base 1 0 stack.

(** The place behind the NUL of the string at [a1]; [None]: there is no NUL before [bound]. *)
Fixpoint string_end (n : nat) (d : Z → Z) (a1 bound : Z) : option Z :=
  match n with
  | O => None
  | Datatypes.S n => if a1 =? bound then None else if d a1 =? 0 then Some (a1 + 1) else string_end n d (a1 + 1) bound
  end.

(** Whether the argument was put in, the stack and its size.  The size of a pointer is
    unsigned, so that a negative [argv[0]] passes the test of its lower bound. *)
Definition insert_arg (stack : Z → Z) (stk_bytes : Z) (arg : list Z) (replace : bool) : P (bool * (Z → Z) * Z) :=
  let a0 := s32 (get32 stack PTRSIZE) in
  if (u32 a0 <? 4 * PTRSIZE) || (stk_bytes <=? a0) then ret (false, stack, stk_bytes)
  else if a0 <? 0 then crash
  else
    let place :=
      if replace then
        match string_end (Z.to_nat ARG_MAX) stack a0 stk_bytes with
        | Some a1 => Some (a0, a1, Z.of_nat (length arg) + 1 - (a1 - a0))
        | None => None
        end
      else Some (a0 + PTRSIZE, a0, Z.of_nat (length arg) + 1 + PTRSIZE) in
    match place with
    | None => ret (false, stack, stk_bytes)
    | Some (a0, a1, offset) =>
        let size := u32 (stk_bytes + offset) in
        if ARG_MAX <? size then ret (false, stack, size)
        else
          let d := strcpy (memmove stack (a1 + offset) a1 (stk_bytes - a1)) a0 arg in
          let d := if replace then d
                   else
                     let d := memmove d (2 * PTRSIZE) PTRSIZE (a0 - 2 * PTRSIZE) in
                     put32 d 0 (u32 (get32 d 0 + 1)) in
          ret (true, put32 (patch_ptr d (u32 offset)) PTRSIZE a0, size)
    end.

(** ** Scripts *)
Definition blank (c : Z) : bool := (c =? 0x20) || (c =? 0x09).
Fixpoint drop_while (f : Z → bool) (l : list Z) : list Z :=
  match l with [] => [] | c :: l' => if f c then drop_while f l' else l end.
Fixpoint take_while (f : Z → bool) (l : list Z) : list Z :=
  match l with [] => [] | c :: l' => if f c then c :: take_while f l' else [] end.

(** [before] is the line before [sp], read backwards: the strings, last first. *)
Fixpoint insert_words (n : nat) (before : list Z) (stack : Z → Z) (stk_bytes : Z) (interp : option (list Z)) :
    P (bool * (Z → Z) * Z * option (list Z)) :=
  match n with
  | O => spin
  | Datatypes.S n =>
      match drop_while blank before with
      | [] | [_] => ret (true, stack, stk_bytes, interp)
      | rest =>
          let arg := c_str (rev (take_while (λ c, negb (blank c)) rest)) in
          let* ' (ok, stack, stk_bytes) := insert_arg stack stk_bytes arg false in
          if negb ok then ret (false, stack, stk_bytes, None)
          else insert_words n (drop_while (λ c, negb (blank c)) rest) stack stk_bytes (Some arg)
      end
  end.

Definition newline (c : Z) : bool := c =? 0x0A.

Section pm.
Context (kernel : list kcall → kcall → kreply).
#[local] Abbreviation call := (call kernel).
#[local] Abbreviation must := (must kernel).

(** The interpreter, if any, the stack and its size. *)
Definition patch_stack (fd : Z) (stack : Z → Z) (stk_bytes : Z) (script : list Z) : P (option (list Z) * (Z → Z) * Z) :=
  let* ' (ok, stack, stk_bytes) := insert_arg stack stk_bytes script true in
  if negb ok then ret (None, stack, stk_bytes)
  else
    let* l := call (FsLseek fd 2 SEEK_SET) in
    if k_res l =? -1 then ret (None, stack, stk_bytes)
    else
      let* r := call (FsRead fd PATH_MAX) in
      if k_res r <? 0 then ret (None, stack, stk_bytes)
      else
        let line := copied (k_res r) (k_out r) in
        if negb (existsb newline line) then ret (None, stack, stk_bytes)
        else
          let* ' (ok, stack, stk_bytes, interp) :=
            insert_words 256 (rev (take_while (λ c, negb (newline c)) line)) stack stk_bytes None in
          if negb ok then ret (None, stack, stk_bytes)
          else
            call (FsClose fd);;;
            ret (interp, stack, u32 (stk_bytes + PTRSIZE - 1) / PTRSIZE * PTRSIZE).

(** ** [read_header] *)
Record header := Header {
  h_ft : Z; h_text : Z; h_data : Z; h_bss : Z; h_tot : Z; h_pc : Z }.
Definition header0 : header := Header 0 0 0 0 0 0.
Definition clicks_up (bytes : Z) : Z := Z.shiftr (u32 (bytes + CLICK_SIZE - 1)) CLICK_SHIFT.

Definition read_header (fd sc : Z) : P (Z * header) :=
  let* r := call (FsRead fd A_MINHDR) in
  let b i := nth i (k_out r) 0 in
  let w i := get32 (λ o, b (Z.to_nat o)) i in
  if k_res r <? 2 then ret (ENOEXEC, header0)
  else if (b 0%nat =? 0x23) && (b 1%nat =? 0x21) then ret (ESCRIPT, header0)
  else if negb (k_res r =? A_MINHDR) then ret (ENOEXEC, header0)
  else if negb ((b 0%nat =? 1) && (b 1%nat =? 3)) then ret (ENOEXEC, header0)
  else if negb (b 3%nat =? A_I80386) then ret (ENOEXEC, header0)
  else if band (b 2%nat) (Z.lnot (Z.lor A_NSYM (Z.lor A_EXEC A_SEP))) then ret (ENOEXEC, header0)
  else if w 24 =? 0 then ret (ENOEXEC, header0)
  else
    let sep := band (b 2%nat) A_SEP in
    let h := Header (if sep then SEPARATE else 0) (if sep then w 8 else 0) (if sep then w 12 else u32 (w 12 + w 8))
               (w 16) (w 24) (w 20) in
    let tc := clicks_up (h_text h) in
    let dc := clicks_up (h_data h + h_bss h) in
    let totc := clicks_up (h_tot h) in
    if totc <=? dc then ret (ENOEXEC, h)
    else
      let dvir := if sep then 0 else tc in
      let s_vir := u32 (dvir + (totc - sc)) in
      (if A_MINHDR <? b 4%nat then call (FsLseek fd (b 4%nat) SEEK_SET);;; skip else skip);;;
      ret (if s_vir <? u32 (dvir + dc) then ENOMEM else OK, h).

(** ** [allowed]: a descriptor or an error, and what [fstat] tells *)
Record stat := Stat { st_ino : Z; st_dev : Z; st_ctime : Z; st_mode : Z; st_uid : Z; st_gid : Z }.
Definition stat0 : stat := Stat 0 0 0 0 0 0.

Definition allowed (name : list Z) (mask : Z) : P (Z * stat) :=
  let* a := call (FsAccess name mask) in
  if k_res a <? 0 then ret (k_res a, stat0)
  else
    tell_fs kernel SETUID PM_PROC_NR SUPER_USER SUPER_USER;;;
    let* o := call (FsOpen name O_NONBLOCK 0) in
    let fd := k_res o in
    let* s := get in
    let* r := getp (mp s) in
    tell_fs kernel SETUID PM_PROC_NR (mp_effuid r) (mp_effuid r);;;
    if fd <? 0 then ret (fd, stat0)
    else
      let* f := call (FsFstat fd) in
      if k_res f <? 0 then crash
      else
        let st := Stat (out f 0) (out f 1) (out f 2) (out f 3) (out f 4) (out f 5) in
        if (mask =? X_BIT) && negb (Z.land (st_mode st) I_TYPE =? I_REGULAR) then
          call (FsClose fd);;;
          ret (EACCES, stat0)
        else ret (fd, st).

(** ** [new_mem] *)

(** The map of the new image, of [text] clicks at [base] unless they are shared. *)
Definition image_map (shared : option mem_map) (base text data gap stack : Z) (r : mproc) : mproc :=
  r.[seg_T := match shared with Some t => t | None => MemMap 0 base text end]
   .[seg_D := MemMap 0 (u32 (base + text)) data]
   .[seg_S := MemMap (u32 (data + gap)) (u32 (base + text + data + gap)) stack].

Definition new_mem (sh_mp : option Z) (text_bytes data_bytes bss_bytes stk_bytes tot_bytes : Z) : P Z :=
  let* s := get in
  let rmp := mp s in
  let text_bytes := if sh_mp is Some _ then 0 else text_bytes in
  set_flags rmp WAITING;;;
  let text := clicks_up text_bytes in
  let data := clicks_up (data_bytes + bss_bytes) in
  let stack := clicks_up stk_bytes in
  let tot := clicks_up tot_bytes in
  let gap := u32 (tot - data - stack) in
  if s32 gap <? 0 then ret ENOMEM
  else
    let* new_base := mem (alloc_mem (u32 (text + tot))) in
    if new_base =? NO_MEM then ret ENOMEM
    else
      let* r := getp rmp in
      let* other := find_share rmp (mp_ino r) (mp_dev r) (mp_ctime r) in
      (if other is Some _ then skip else mem (free_mem (mem_phys (seg_T r)) (mem_len (seg_T r))));;;
      mem (free_mem (mem_phys (seg_D r)) (u32 (mem_vir (seg_S r) + mem_len (seg_S r) - mem_vir (seg_D r))));;;
      let* shared := match sh_mp with Some p => let* q := getp p in ret (Some (seg_T q)) | None => ret None end in
      putp rmp (image_map shared new_base text data gap stack);;;
      let* r := getp rmp in
      must (SysNewmap (who_e s) (seg_T r) (seg_D r) (seg_S r));;;
      clr_flags rmp (Z.lor WAITING (Z.lor ONSWAP SWAPIN));;;
      let bss_offset := Z.shiftl (Z.shiftr data_bytes CLICK_SHIFT) CLICK_SHIFT in
      must (SysMemset 0 (u32 (Z.shiftl (mem_phys (seg_D r)) CLICK_SHIFT + bss_offset))
              (u32 (u32 (Z.shiftl (data + gap + stack) CLICK_SHIFT) - bss_offset)));;;
      ret OK.

(** ** [do_exec] *)

(** The header of [name], or of its interpreter when it is a script.  [inl]: the call
    returns; else the descriptor, [m], the header, the stack and its size, what [fstat] told
    of the first and of the last file, and the name of the last. *)
Definition exec_file : Type := Z * Z * header * (Z → Z) * Z * stat * stat * list Z.
Definition open_file (name : list Z) (stk_bytes : Z) : P (Z + Z * stat * Z * header) :=
  let* s := get in
  tell_fs kernel CHDIR (who_e s) 0 0;;;
  let* ' (fd, st) := allowed name X_BIT in
  if fd <? 0 then ret (inl fd)
  else
    let* ' (m, h) := read_header fd (clicks_up stk_bytes) in
    ret (inr (fd, st, m, h)).

Definition open_image (name : list Z) (stack : Z → Z) (stk_bytes : Z) : P (Z + exec_file) :=
  let* first := open_file name stk_bytes in
  match first with
  | inl e => ret (inl e)
  | inr (fd, st, m, h) =>
      if negb (m =? ESCRIPT) then ret (inr (fd, m, h, stack, stk_bytes, st, st, name))
      else
        let* ' (interp, stack, stk_bytes) := patch_stack fd stack stk_bytes name in
        match interp with
        | None => ret (inr (fd, m, h, stack, stk_bytes, st, st, name))
        | Some interp =>
            let* second := open_file interp stk_bytes in
            ret (match second with
                 | inl e => inl e
                 | inr (fd, st2, m, h) => inr (fd, m, h, stack, stk_bytes, st, st2, interp)
                 end)
        end
  end.

(** The handlers that a program has set are gone with it. *)
Definition reset_caught (sn : Z) (r : mproc) : mproc :=
  if sigismember (mp_catch r) sn then
    r.[mp_catch := sigdelset (mp_catch r) sn]
     .[mp_sigact := alter (λ a, a.[sa_handler := SIG_DFL].[sa_mask := 0]) (Z.to_nat sn) (mp_sigact r)]
  else r.

Fixpoint last_part (l name : list Z) : list Z :=
  match l with [] => name | c :: l => if c =? 0x2F then last_part l l else last_part l name end.
(** [strrchr (name, '/') + 1], or [name]. *)
Definition basename (name : list Z) : list Z := last_part name name.

(** [strncpy] of fifteen characters; the NUL at [mp_name[16]] is behind the array, in the
    lowest byte of [mp_vmsize]. *)
Definition set_name (base : list Z) (r : mproc) : mproc :=
  r.[mp_name := copied (PROC_NAME_LEN - 1) (take (Z.to_nat (PROC_NAME_LEN - 1)) base) ++ drop (Z.to_nat (PROC_NAME_LEN - 1)) (mp_name r)]
   .[mp_vmsize := bclr (mp_vmsize r) 0xFF].

Definition set_ids (st : stat) : P unit :=
  let* s := get in
  let* r := getp (mp s) in
  if band (mp_flags r) TRACED then skip
  else
    when (band (st_mode st) I_SET_UID_BIT)
      (putp (mp s) (λ r, r.[mp_effuid := st_uid st]);;;
       tell_fs kernel SETUID (who_e s) (mp_realuid r) (st_uid st));;;
    when (band (st_mode st) I_SET_GID_BIT)
      (putp (mp s) (λ r, r.[mp_effgid := st_gid st]);;;
       tell_fs kernel SETGID (who_e s) (mp_realgid r) (st_gid st)).

(** The new image is in memory from here on: the stack, the segments, the table. *)
Definition load_image (vmsize : Z) (sh_mp : option Z) (f : exec_file) : P Z :=
  let '(fd, _, h, stack, stk_bytes, st0, st, name) := f in
  let* s := get in
  putp (mp s) (λ r, r.[mp_ino := if 0 <? vmsize then 0 else st_ino st].[mp_dev := st_dev st].[mp_ctime := st_ctime st]);;;
  let* r := getp (mp s) in
  let vsp := u32 (u32 (Z.shiftl (mem_vir (seg_S r) + mem_len (seg_S r)) CLICK_SHIFT) - stk_bytes) in
  let stack := patch_ptr stack vsp in
  must (SysDatacopy PM_PROC_NR 0 (who_e s) vsp stk_bytes (map stack (zrange 0 stk_bytes)));;;
  (match sh_mp with
   | Some _ => call (FsLseek fd (h_text h) SEEK_CUR);;; skip
   | None => rw_seg kernel 0 fd (who_e s) 0 (h_text h)
   end);;;
  rw_seg kernel 0 fd (who_e s) 1 (h_data h);;;
  call (FsClose fd);;;
  set_ids st0;;;
  putp (mp s) (λ r, r.[mp_procargs := vsp]);;;
  for_list (zrange 1 (_NSIG + 1)) (λ sn, putp (mp s) (reset_caught sn));;;
  clr_flags (mp s) SEPARATE;;;
  set_flags (mp s) (h_ft h);;;
  tell_fs kernel EXEC (who_e s) 0 0;;;
  putp (mp s) (set_name (basename name));;;
  must (SysExec (who_e s) vsp (h_pc h) (basename name));;;
  let* r := getp (mp s) in
  when (band (mp_flags r) TRACED) (check_sig kernel (mp_pid r) SIGTRAP;;; skip);;;
  ret SUSPEND.

Definition do_exec : P Z :=
  let* s := get in
  let m := m_in s in
  let* r := getp (mp s) in
  let stk_bytes := u32 (m1_i2 m) in
  let vmsize := if pm_vmid (pm_mem s) =? VM0 then u32 (m1_i3 m) else 0 in
  if (pm_vmid (pm_mem s) =? VM0) && negb (vmsize =? 0) && negb (mp_effuid r =? SUPER_USER) then ret EPERM
  else if ARG_MAX <? stk_bytes then ret ENOMEM
  else if (m1_i1 m <=? 0) || (PATH_MAX <? m1_i1 m) then ret EINVAL
  else
    let* c := call (SysDatacopy (who_e s) (m1_p1 m) PM_PROC_NR 0 (m1_i1 m) []) in
    if negb (k_res c =? OK) then ret (k_res c)
    else
      let name := c_str (copied (m1_i1 m) (k_out c)) in
      let* c := call (SysDatacopy (who_e s) (m1_p2 m) PM_PROC_NR 0 stk_bytes []) in
      if negb (k_res c =? OK) then ret EACCES
      else
        let* f := open_image name (λ o, nth (Z.to_nat o) (copied stk_bytes (k_out c)) 0) stk_bytes in
        match f with
        | inl e => ret e
        | inr ((fd, m, h, stack, stk_bytes, st0, st, name) as f) =>
            if m <? 0 then
              call (FsClose fd);;;
              ret (if ARG_MAX <? stk_bytes then ENOMEM else ENOEXEC)
            else
              let* sh_mp := if vmsize =? 0 then find_share (mp s) (st_ino st) (st_dev st) (st_ctime st) else ret None in
              let tot := if 0 <? vmsize then u32 (Z.shiftl vmsize CLICK_SHIFT) else h_tot h in
              when (0 <? vmsize) (putp (mp s) (λ r, r.[mp_vmsize :=
                u32 (vmsize - clicks_up (h_data h + h_bss h) - clicks_up stk_bytes - clicks_up (h_text h))]));;;
              let* res := new_mem sh_mp (h_text h) (h_data h) (h_bss h) stk_bytes tot in
              if negb (res =? OK) then
                call (FsClose fd);;;
                ret res
              else load_image vmsize sh_mp f
        end.
End pm.
