(* ===== verification/PmMain.v ===== *)
(** * The process manager: start-up and the main loop

    [src/servers/pm/main.c] less [do_x86_vm] and the unused [patch_init], the table of
    [table.c] and [do_getsysinfo] of [misc.c].  [layout] is how the compiler lays the
    tables of PM out as bytes. *)
From stdpp Require Import base gmap list numbers strings.
From Stdlib Require Import ZArith Lia.
From S2P Require Import Prelude.
From S2P Require Import Timers.
From S2P Require Import KTypes.
From S2P Require Import PmAlloc.
From S2P Require Import PmTypes.
From S2P Require Import PmProc.
From S2P Require Import PmCalls.
From S2P Require Import PmExec.

Definition SI_KINFO : Z := 0.
Definition SI_PROC_ADDR : Z := 1.
Definition SI_PROC_TAB : Z := 2.
Definition SI_MEM_ALLOC : Z := 4.
Definition SI_LOADINFO : Z := 6.
Definition SI_KPROC_TAB : Z := 7.
Definition USER_Q : Z := 7.
Definition SYN_ALARM : Z := NOTIFY_FROM CLOCK.
Definition SYS_SIG : Z := NOTIFY_FROM SYSTEM.

(** ** Memory at boot time *)

(** [strtoul (s, &end, 16)]: the value and what follows, [None] when there is no number. *)
Definition hex_digit (c : Z) : option Z :=
  if (48 <=? c) && (c <=? 57) then Some (c - 48)
  else if (97 <=? c) && (c <=? 102) then Some (c - 97 + 10)
  else if (65 <=? c) && (c <=? 70) then Some (c - 65 + 10)
  else None.
Fixpoint hex_digits (l : list Z) (val : Z) : Z * list Z :=
  match l with
  | c :: l' => match hex_digit c with Some v => hex_digits l' (val * 16 + v) | None => (val, l) end
  | [] => (val, [])
  end.
Definition is_space (c : Z) : bool := (c =? 32) || ((9 <=? c) && (c <=? 13)).
Definition strtoul16 (s : list Z) : option (Z * list Z) :=
  let l := drop_while is_space s in
  let '(neg, l) := match l with 45 :: l' => (true, l') | 43 :: l' => (false, l') | _ => (false, l) end in
  let digits := match l with 48 :: 120 :: l' => l' | 48 :: 88 :: l' => l' | _ => l end in
  let '(val, rest) := hex_digits digits 0 in
  if (length rest =? length l)%nat then None
  else Some (if 2 ^ 32 <=? val then 2 ^ 32 - 1 else u32 (if neg : bool then - val else val), rest).

(** One chunk, what is left of the text, whether it is at its end and whether the text is
    to be cut off at its current place. *)
Definition chunk_of (base size : Z) : Z * Z :=
  let base := s32 base in
  let limit := s32 (base + s32 size) in
  let base := bclr (s32 (base + CLICK_SIZE - 1)) (CLICK_SIZE - 1) in
  let limit := bclr limit (CLICK_SIZE - 1) in
  if limit <=? base then (0, 0) else (u32 (Z.shiftr base CLICK_SHIFT), u32 (Z.shiftr (s32 (limit - base)) CLICK_SHIFT)).

Definition read_pair (s : list Z) : Z * Z * list Z * bool * bool :=
  match c_str s with
  | [] => (0, 0, s, false, false)
  | _ =>
      let '(base, s, cut) :=
        match strtoul16 s with
        | Some (v, c :: l) => if c =? 0x3A then (v, l, false) else (v, s, true)
        | Some (v, []) => (v, s, true)
        | None => (0, s, true)
        end in
      if cut then (base, 0, 0 :: tail s, true, true)
      else
        match strtoul16 s with
        | Some (v, c :: l) => if c =? 0x2C then (base, v, l, false, false) else (base, v, s, true, false)
        | Some (v, []) => (base, v, s, true, false)
        | None => (base, 0, s, true, false)
        end
  end.

(** The chunks that are still to be filled in, [n] of them. *)
Fixpoint mem_pairs (n : nat) (s : list Z) : list (Z * Z) * option nat :=
  match n with
  | O => ([], None)
  | Datatypes.S n =>
      let '(base, size, s', finished, cut) := read_pair s in
      if finished then (chunk_of base size :: replicate n (0, 0), if cut : bool then Some (length s') else None)
      else let '(l, c) := mem_pairs n s' in (chunk_of base size :: l, c)
  end.

(** A malformed text is cut off in [monitor_params] itself. *)
Definition cut_at (k : nat) (l : list Z) : list Z := <[(length l - k)%nat := 0]> l.

Definition get_mem_chunks : P (list (Z * Z)) :=
  let* v := find_param [109; 101; 109; 111; 114; 121] in
  let* s := of_option v in
  let '(chunks, cut) := mem_pairs (Z.to_nat NR_MEMS) s in
  (match cut with
   | Some k => modify (λ s, s.[monitor_params := cut_at k (monitor_params s)])
   | None => skip
   end);;;
  ret chunks.

Definition patch_chunk (t d : mem_map) (c : Z * Z) : Z * Z :=
  if c.1 =? mem_phys t then (u32 (c.1 + (mem_len t + mem_len d)), u32 (c.2 - (mem_len t + mem_len d))) else c.
Definition patch_mem_chunks (chunks : list (Z * Z)) (t d : mem_map) : list (Z * Z) := map (patch_chunk t d) chunks.

(** ** The table of processes at boot time *)
Definition get_nice_value (queue : Z) : Z :=
  let nice_val := (queue - USER_Q) * (PRIO_MAX - PRIO_MIN + 1) ÷ (MIN_USER_Q - MAX_USER_Q + 1) in
  let nice_val := if PRIO_MAX <? nice_val then PRIO_MAX else nice_val in
  if nice_val <? PRIO_MIN then PRIO_MIN else nice_val.

Definition chars_of (s : string) : list Z := map (λ c, Z.of_nat (Ascii.nat_of_ascii c)) (String.list_ascii_of_string s).
Definition mess_sset : Z := foldl sigaddset 0 [SIGTERM; SIGHUP; SIGABRT; SIGQUIT].

Section pm.
Context (kernel : list kcall → kcall → kreply) (layout : Z → pms → list Z).
#[local] Abbreviation call := (call kernel).
#[local] Abbreviation must := (must kernel).

(** [get_mem_map]: the map behind the flags and the stack pointer. *)
Definition map_at (r : kreply) (i : nat) : mem_map := MemMap (out r i) (out r (i + 1)) (out r (i + 2)).
Definition get_mem_map (e : Z) : P (mem_map * mem_map * mem_map) :=
  let* r := must (SysGetproc e) in
  ret (map_at r 2, map_at r 5, map_at r 8).

Definition boot_slot (ip : boot_image) (r : mproc) : mproc :=
  r.[mp_name := copied PROC_NAME_LEN (take (Z.to_nat PROC_NAME_LEN) (chars_of (bi_proc_name ip)))]
   .[mp_parent := RS_PROC_NR].[mp_nice := get_nice_value (bi_priority ip)]
   .[mp_sig2mess := 0].[mp_ignore := 0].[mp_sigmask := 0].[mp_catch := 0].

(** An entry of the image: the chunks of memory that are left. *)
Definition boot_process (chunks : list (Z * Z)) (ip : boot_image) : P (list (Z * Z)) :=
  let p := bi_proc_nr ip in
  if p <? 0 then ret chunks
  else
    modify (λ s, s.[procs_in_use := procs_in_use s + 1]);;;
    putp p (boot_slot ip);;;
    (if p =? INIT_PROC_NR then
       putp p (λ r, r.[mp_procgrp := INIT_PID].[mp_pid := INIT_PID]);;;
       set_flags p IN_USE
     else
       let* pid := get_free_pid in
       putp p (λ r, r.[mp_pid := pid]);;;
       set_flags p (Z.lor IN_USE (Z.lor DONT_SWAP PRIV_PROC));;;
       putp p (λ r, r.[mp_sig2mess := Z.lor (mp_sig2mess r) mess_sset]));;;
    putp p (λ r, r.[mp_endpoint := bi_endpoint ip]);;;
    let* chunks :=
      if p <=? INIT_PROC_NR then
        let* ' (t, d, st) := get_mem_map p in
        putp p (λ r, r.[seg_T := t].[seg_D := d].[seg_S := st]);;;
        when (negb (mem_len t =? 0)) (set_flags p SEPARATE);;;
        ret (patch_mem_chunks chunks t d)
      else ret chunks in
    let* r := getp p in
    must (Send FS_PROC_NR (Message 0 0 (mp_endpoint r) p (mp_pid r) 0 0 0 0));;;
    ret chunks.

Fixpoint boot_processes (chunks : list (Z * Z)) (image : list boot_image) : P (list (Z * Z)) :=
  match image with
  | [] => ret chunks
  | ip :: image => let* chunks := boot_process chunks ip in boot_processes chunks image
  end.

(** INIT, PM, FS and RS are somewhat special. *)
Definition override_details : P unit :=
  putp PM_PROC_NR (λ r, r.[mp_pid := PM_PID]);;;
  putp RS_PROC_NR (λ r, r.[mp_parent := INIT_PROC_NR]);;;
  putp PM_PROC_NR (λ r, r.[mp_ignore := SIGMASK]).

(** [params] and [image]: what [sys_getmonparams] and [sys_getimage] bring.  PM in a VM goes on
    when FS does not answer. *)
Definition pm_init (params : list Z) (image : list boot_image) : P unit :=
  modify (λ s, s.[monitor_params := params]);;;
  let* chunks := get_mem_chunks in
  let* ' (t, d, _) := get_mem_map SYSTEM in
  modify (λ s, s.[procs_in_use := 0]);;;
  let* chunks := boot_processes (patch_mem_chunks chunks t d) image in
  override_details;;;
  let* c := call (TaskCall FS_PROC_NR 0 NONE) in
  let* s := get in
  when ((pm_vmid (pm_mem s) =? VM0) && negb (k_res c =? OK)) crash;;;
  mem (mem_init chunks);;; skip.

(** ** [do_getsysinfo] *)
Definition do_getsysinfo : P Z :=
  let* s := get in
  let what := m1_i1 (m_in s) in
  let* src :=
    if (what =? SI_KINFO) || (what =? SI_LOADINFO) then
      let* c := call (SysInfo what) in ret (inr (k_out c))
    else if what =? SI_KPROC_TAB then
      let* c := call (SysInfo what) in ret (if negb (k_res c =? OK) then inl (k_res c) else inr (k_out c))
    else if (what =? SI_PROC_ADDR) || (what =? SI_PROC_TAB) then ret (inr (layout what s))
    else if what =? SI_MEM_ALLOC then
      let* ' (res, _) := mem (mem_holes_copy sizeof_hole) in
      ret (if negb (res =? 0) then inl res else inr (layout what s))
    else ret (inl EINVAL) in
  match src with
  | inl e => ret e
  | inr bytes =>
      let* c := call (SysDatacopy SELF 0 (who_e s) (m1_p1 (m_in s)) (Z.of_nat (length bytes)) bytes) in
      ret (k_res c)
  end.

(** ** [call_vec] ([table.c]) *)
Definition no_sys : P Z := ret ENOSYS.
Definition call_vec (nr : Z) : P Z :=
  match nr with
  | 1 => do_pm_exit kernel | 2 => do_fork kernel | 7 | 11 => do_waitpid
  | 13 | 90 => do_time kernel | 17 => do_brk kernel
  | 20 | 23 | 24 | 46 | 47 | 62 | 63 | 91 | 92 => do_getset kernel
  | 25 => do_stime kernel | 26 => do_trace kernel | 27 => do_alarm kernel | 29 => do_pause
  | 37 => do_kill kernel | 43 => do_times kernel | 59 => do_exec kernel
  | 71 => do_sigaction kernel | 72 => do_sigsuspend kernel | 73 => do_sigpending
  | 74 => do_sigprocmask kernel | 75 => do_sigreturn kernel | 76 => do_reboot kernel
  | 77 => do_svrctl kernel | 78 => do_procstat | 79 => do_getsysinfo | 80 => do_getprocnr kernel
  | 83 => do_allocmem | 84 => do_freemem | 88 | 89 => do_getsetpriority kernel
  | 95 => do_getvmid | 96 => do_getsep kernel | 97 => do_vmmreq kernel
  | _ => no_sys
  end.

(** ** The main loop *)
Definition get_work (m : message) : P unit :=
  modify (λ s, s.[m_in := m].[who_e := m_source m]);;;
  let* ' (res, p) := pm_isokendpt kernel (m_source m) in
  if negb (res =? OK) then crash
  else
    modify (λ s, s.[who_p := p].[call_nr := m_type m].[mp := if p <? 0 then PM_PROC_NR else p]);;;
    if 0 <=? p then
      let* r := getp p in
      if negb (mp_endpoint r =? m_source m) then crash else skip
    else skip.

Definition pm_dispatch : P Z :=
  let* s := get in
  if call_nr s =? SYN_ALARM then pm_expire_timers kernel (NOTIFY_TIMESTAMP (m_in s));;; ret SUSPEND
  else if call_nr s =? SYS_SIG then
    (if sigismember (u32 (NOTIFY_ARG (m_in s))) SIGKSIG then ksig_pending kernel;;; skip else skip);;;
    ret SUSPEND
  else if NCALLS <=? u32 (call_nr s) then ret ENOSYS
  else call_vec (call_nr s).

Definition ready_reply (r : mproc) : bool :=
  Z.land (mp_flags r) (Z.lor REPLY (Z.lor ONSWAP (Z.lor IN_USE ZOMBIE))) =? Z.lor REPLY IN_USE.
Definition send_reply (p : Z) : P unit :=
  let* r := getp p in
  if ready_reply r then
    must (Send (mp_endpoint r) (mp_reply r));;;
    clr_flags p REPLY
  else skip.

(** One round of the loop, for the message [m] that [receive] brings. *)
Definition pm_round (m : message) : P unit :=
  get_work m;;;
  let* result := pm_dispatch in
  let* s := get in
  when (negb (result =? SUSPEND)) (setreply (who_p s) result);;;
  for_list (zrange 0 NR_PROCS) send_reply.
End pm.
