(* ===== verification/PmTreeThms.v ===== *)
(** * The process manager: theorems on the tree of processes

    The depth of the recursion of [pm_exit] ([pm_exit_depth]); forks, exits and the
    collection of zombies as steps of an abstract tree ([tstep]), which every round of the
    main loop refines ([pm_round_refines]); and the invariant that follows. *)
From stdpp Require Import base gmap list numbers strings relations.
From Stdlib Require Import ZArith Lia.
From S2P Require Import Prelude.
From S2P Require Import Timers.
From S2P Require Import KTypes.
From S2P Require Import PmAlloc.
From S2P Require Import PmTypes.
From S2P Require Import PmProc.
From S2P Require Import PmTree.
From S2P Require Import PmCalls.
From S2P Require Import PmExec.
From S2P Require Import PmMain.

(** ** The abstract tree *)
Definition pid_of (x : slot) : option Z :=
  match x with Free => None | Live pid _ | Zombie pid _ => Some pid end.
Definition parent_of (x : slot) : option Z :=
  match x with Free => None | Live _ p | Zombie _ p => Some p end.

(** The children of [p] get INIT as their parent. *)
Definition adopt1 (p : Z) (x : slot) : slot :=
  match x with
  | Free => Free
  | Live pid q => Live pid (if q =? p then INIT_PROC_NR else q)
  | Zombie pid q => Zombie pid (if q =? p then INIT_PROC_NR else q)
  end.
Definition adopt (p : Z) (t : gmap Z slot) : gmap Z slot := adopt1 p <$> t.

Inductive tstep : gmap Z slot → gmap Z slot → Prop :=
  | TFork t p c pid ppid pp :
      t !! p = Some (Live ppid pp) → t !! c = Some Free → (∀ q x, t !! q = Some x → pid_of x ≠ Some pid) →
      tstep t (<[c := Live pid p]> t)
  | TExit t p x pid pp :
      t !! p = Some x → pid_of x = Some pid → parent_of x = Some pp → p ≠ INIT_PROC_NR →
      tstep t (adopt p (<[p := Zombie pid pp]> t))
  | TReap t c pid pp : t !! c = Some (Zombie pid pp) → tstep t (<[c := Free]> t).

Definition in_use (x : slot) : bool := if x is Free then false else true.
Definition used (t : gmap Z slot) : nat := size (filter (λ x, in_use x.2 = true) t).
Definition count_ok (s : pms) : Prop := procs_in_use s = Z.of_nat (used (tree s)) ∧ Z.of_nat (used (tree s)) ≤ NR_PROCS.

Lemma used_free t c x : t !! c = Some x → in_use x = true → used t = Datatypes.S (used (<[c := Free]> t)).
Proof.
  intros Hc Hx. unfold used.
  assert (E : filter (λ x, in_use x.2 = true) (<[c := Free]> t) = delete c (filter (λ x, in_use x.2 = true) t)).
  { apply map_eq. intros q. apply option_eq. intros y. rewrite map_lookup_filter_Some. destruct (decide (q = c)) as [->|Hne].
    - rewrite lookup_insert_eq, lookup_delete_eq. split; [|done]. by intros [[= <-] ?].
    - rewrite lookup_insert_ne, lookup_delete_ne, map_lookup_filter_Some by done. done. }
  assert (Hf : filter (λ x, in_use x.2 = true) t !! c = Some x) by by apply map_lookup_filter_Some.
  rewrite E, map_size_delete, Hf. cbn.
  assert (size (filter (λ x, in_use x.2 = true) t) ≠ 0%nat); [|lia].
  intros H0%map_size_empty_inv. by rewrite H0 in Hf.
Qed.
Lemma used_live t c x : t !! c = Some Free → in_use x = true → used (<[c := x]> t) = Datatypes.S (used t).
Proof.
  intros Hc Hx. rewrite (used_free (<[c := x]> t) c x); [|by rewrite lookup_insert_eq|done]. by rewrite insert_insert_eq, insert_id.
Qed.
Lemma used_ext t t' : (∀ q, in_use <$> t !! q = in_use <$> t' !! q) → used t = used t'.
Proof.
  intros H. unfold used. rewrite <-!size_dom. f_equal. apply set_eq. intros q. rewrite !elem_of_dom.
  specialize (H q). split; intros [x [Hl Hx]%map_lookup_filter_Some]; cbn in Hx; rewrite Hl in H; cbn in H.
  - destruct (t' !! q) as [y|] eqn:E; [|done]. exists y. apply map_lookup_filter_Some. split; [done|]. cbn. cbn in H. congruence.
  - destruct (t !! q) as [y|] eqn:E; [|done]. exists y. apply map_lookup_filter_Some. split; [done|]. cbn. cbn in H. congruence.
Qed.

Definition in_table (s : pms) : Prop := ∀ q, is_Some (mprocs s !! q) → 0 ≤ q < NR_PROCS.

(** ** Runs that follow the tree

    As long as INIT lives. *)
Definition follows (s s' : pms) : Prop :=
  fewer s s' ∧ (in_table s → in_table s') ∧ (in_table s → INIT_PROC_NR ∈ lives s' → rtc tstep (tree s) (tree s')) ∧
  (count_ok s → count_ok s').
#[export] Instance follows_preorder : PreOrder follows.
Proof.
  split; [intros s; split_and!; [done|done|by intros _ _; apply rtc_refl|done]|].
  intros s s1 s2 (H1 & H2 & H3 & H4) (G1 & G2 & G3 & G4). split_and!; [by etransitivity|auto| |auto].
  intros Ht Hi. etransitivity; [apply H3; [done|by apply G1]|by apply G3; [apply H2|]].
Qed.

Definition same_tree (s s' : pms) : Prop := tree s' = tree s ∧ procs_in_use s' = procs_in_use s.
Lemma table_tree s s' : dom (tree s') = dom (tree s) → in_table s → in_table s'.
Proof.
  unfold tree. rewrite !dom_fmap_L. intros H Ht q Hq. apply Ht. by rewrite <-elem_of_dom, <-H, elem_of_dom.
Qed.
Lemma same_follows s s' : same_tree s s' → follows s s'.
Proof.
  intros [H1 H2]. split_and!.
  - unfold fewer. by rewrite (lives_tree s s').
  - apply table_tree. by rewrite H1.
  - intros _ _. rewrite H1. apply rtc_refl.
  - unfold count_ok. by rewrite H1, H2.
Qed.
Lemma skel_same_tree s s' : same_skel s s' → same_tree s s'.
Proof. intros H. split; [by apply same_skel_tree|apply H]. Qed.
Lemma skel_follows {A} (m : P A) : pres same_skel m → pres follows m.
Proof. intros H s a s' Hm. by eapply same_follows, skel_same_tree, H. Qed.

Lemma follows_modify f : (∀ s, mprocs (f s) = mprocs s ∧ procs_in_use (f s) = procs_in_use s) → pres follows (modify f).
Proof. intros H. apply pres_modify. intros s. destruct (H s) as [H1 H2]. apply same_follows. unfold same_tree, tree. by rewrite H1, H2. Qed.
Lemma follows_putp p g : (∀ r, slot_of (g r) = slot_of r) → pres follows (putp p g).
Proof.
  intros Hg s a s' H. destruct (tree_putp _ _ _ _ _ H) as (r & Hr & _ & Ht). apply same_follows. split.
  - rewrite Ht, Hg. apply insert_id. unfold tree. by rewrite lookup_fmap, Hr.
  - revert H. unfold putp. case_match; [|done]. by intros [= _ <-].
Qed.
Lemma follows_set_flags p f : Z.land f (Z.lor IN_USE ZOMBIE) = 0 → pres follows (set_flags p f).
Proof.
  intros H. rewrite Z.land_lor_distr_r in H. apply Z.lor_eq_0_iff in H as [H1 H2].
  apply follows_putp. intros r. unfold slot_of. cbn. by rewrite !band_set.
Qed.
Lemma follows_clr_flags p f : Z.land f (Z.lor IN_USE ZOMBIE) = 0 → pres follows (clr_flags p f).
Proof.
  intros H. rewrite Z.land_lor_distr_r in H. apply Z.lor_eq_0_iff in H as [H1 H2].
  apply follows_putp. intros r. unfold slot_of. cbn. by rewrite !band_clr.
Qed.
#[export] Hint Resolve follows_preorder : pres.
#[export] Hint Extern 1 (pres follows (modify _)) => (apply follows_modify; intros; split; reflexivity) : pres.
#[export] Hint Extern 1 (pres follows (putp _ _)) => (apply follows_putp; intros; reflexivity) : pres.
#[export] Hint Extern 1 (pres follows (set_flags _ _)) => (apply follows_set_flags; reflexivity) : pres.
#[export] Hint Extern 1 (pres follows (clr_flags _ _)) => (apply follows_clr_flags; reflexivity) : pres.
#[export] Hint Extern 2 (pres follows _) => (apply skel_follows; solve [auto with pres nocore]) : pres.

(** ** The depth of the recursion *)
Section depth.
Context (kernel : list kcall → kcall → kreply).

Lemma lives_bound s : in_table s → (size (lives s) ≤ 100)%nat.
Proof.
  intros H. change 100%nat with (length (zrange 0 NR_PROCS)). rewrite <-(size_list_to_set (C:=gset Z)).
  - apply subseteq_size. intros q (r & Hr & _)%elem_of_lives. apply elem_of_list_to_set, elem_of_zrange. apply H. by exists r.
  - apply zrange_nodup.
Qed.

Lemma depth_any k b b' n n' p x s : (∀ p x, pres fewer (b p x)) → (k ≤ n)%nat → (k ≤ n')%nat → (size (lives s) ≤ k)%nat →
  pm_exit_n kernel b (Datatypes.S n) p x s = pm_exit_n kernel b' (Datatypes.S n') p x s.
Proof.
  intros Hb Hn Hn' Hs. cbn [pm_exit_n].
  assert (Ha : agree_live k (pm_exit_n kernel b n) (pm_exit_n kernel b' n')).
  { intros q y t Hl Hq. by apply (depth_enough kernel _ _ k). }
  assert (Hf : ∀ p x, pres fewer (sig_proc_with kernel (pm_exit_n kernel b n) p x)).
  { intros. apply sig_fewer. intros. by apply exit_fewer. }
  apply (exit_agree kernel k); [exact Hf|by apply sig_agree|by apply check_agree, sig_agree|].
  etransitivity; [|exact Hs]. by apply subseteq_size, subseteq_difference_l.
Qed.

(** C23. The mutual recursion of [pm_exit], [sig_proc] and [check_sig] ends: whatever stands
    at its bottom, with a depth of [proc_fuel] or more the run is the same, for every
    table of at most [NR_PROCS] slots, every process and every behaviour of the kernel
    and of the file system. *)
Theorem pm_exit_depth bottom n p exit_status s : in_table s → (proc_fuel ≤ n)%nat →
  pm_exit_n kernel bottom n p exit_status s = pm_exit kernel p exit_status s.
Proof.
  intros Ht Hn. destruct n as [|n]; [by apply Nat.nle_succ_0 in Hn|]. symmetry.
  exact (depth_any 100 (λ _ _, spin) bottom 100 n p exit_status s (λ _ _, pres_spin _) (le_n _) (le_S_n _ _ Hn) (lives_bound s Ht)).
Qed.
End depth.

(** ** Exits *)
Definition reap (t t' : gmap Z slot) : Prop := ∃ c pid pp, t !! c = Some (Zombie pid pp) ∧ t' = <[c := Free]> t.
Lemma reap_tstep t t' : rtc reap t t' → rtc tstep t t'.
Proof.
  induction 1 as [|t1 t2 t3 (c & pid & pp & H & ->) _ IH]; [done|]. eapply rtc_l; [by eapply TReap|done].
Qed.
Lemma reap_dom t t' : rtc reap t t' → dom t' = dom t.
Proof.
  induction 1 as [|t1 t2 t3 (c & pid & pp & H & ->) _ IH]; [done|]. rewrite IH. apply dom_insert_lookup_L. by eexists.
Qed.

Lemma adopt1_idem p x : adopt1 p (adopt1 p x) = adopt1 p x.
Proof. destruct x as [|pid q|pid q]; unfold adopt1; [done|..]; f_equal; destruct (q =? p) eqn:E; rewrite ?E; try done; by destruct (INIT_PROC_NR =? p). Qed.
Lemma adopt1_in_use p x : in_use (adopt1 p x) = in_use x.
Proof. by destruct x. Qed.
Lemma adopt_lookup p t q : adopt p t !! q = adopt1 p <$> t !! q.
Proof. apply lookup_fmap. Qed.
Lemma adopt_insert p t c x : adopt p (<[c := x]> t) = <[c := adopt1 p x]> (adopt p t).
Proof. apply fmap_insert. Qed.

(** The children among the slots [l] are adopted. *)
Definition adopt_in (p : Z) (l : list Z) (t : gmap Z slot) : gmap Z slot := foldl (λ t q, alter (adopt1 p) q t) t l.
Lemma adopt_in_lookup p l t q : adopt_in p l t !! q = (if decide (q ∈ l) then adopt1 p else id) <$> t !! q.
Proof.
  revert t. induction l as [|c l IH]; intros t; cbn.
  - rewrite decide_False by (by intros ?%not_elem_of_nil). by destruct (t !! q).
  - unfold adopt_in in IH. rewrite IH. destruct (decide (q = c)) as [->|Hne].
    + rewrite lookup_alter_eq. rewrite (decide_True (P := c ∈ c :: l)) by (by left). destruct (t !! c) as [x|]; [|done]. cbn. f_equal.
      case_decide; [apply adopt1_idem|done].
    + rewrite lookup_alter_ne by done. f_equal. destruct (decide (q ∈ l)); [rewrite decide_True by (by right); done|].
      rewrite decide_False; [done|]. by intros [?|?]%elem_of_cons.
Qed.
Lemma adopt_in_all p s : in_table s → adopt_in p (zrange 0 NR_PROCS) (tree s) = adopt p (tree s).
Proof.
  intros Ht. apply map_eq. intros q. rewrite adopt_in_lookup, adopt_lookup. destruct (tree s !! q) as [x|] eqn:E; [|done].
  rewrite decide_True; [done|]. apply elem_of_zrange, Ht. unfold tree in E. rewrite lookup_fmap in E. by destruct (mprocs s !! q).
Qed.
Lemma adopt_reap p q t t' : rtc reap t t' → rtc reap (alter (adopt1 p) q t) (alter (adopt1 p) q t').
Proof.
  induction 1 as [|t1 t2 t3 (c & pid & pp & H & ->) _ IH]; [done|]. eapply rtc_l; [|exact IH]. destruct (decide (q = c)) as [->|Hne].
  - exists c, pid, (if pp =? p then INIT_PROC_NR else pp). rewrite lookup_alter_eq, H. split; [done|].
    apply map_eq. intros k. destruct (decide (k = c)) as [->|Hk]; [by rewrite lookup_alter_eq, !lookup_insert_eq|].
    by rewrite lookup_alter_ne, !lookup_insert_ne, lookup_alter_ne by done.
  - exists c, pid, pp. rewrite lookup_alter_ne by done. split; [done|]. by rewrite alter_insert_ne.
Qed.
Lemma adopt_in_reap p l t t' : rtc reap t t' → rtc reap (adopt_in p l t) (adopt_in p l t').
Proof. revert t t'. induction l as [|q l IH]; intros t t' H; [done|]. cbn. by apply IH, adopt_reap. Qed.

(** [cleanup] of a slot that is in use. *)
Lemma tree_lookup s p r : mprocs s !! p = Some r → tree s !! p = Some (slot_of r).
Proof. intros H. unfold tree. by rewrite lookup_fmap, H. Qed.
Lemma cleanup_count c s a s' x : cleanup c s = Ret a s' → tree s !! c = Some x → in_use x = true → count_ok s → count_ok s'.
Proof.
  intros (Ht & Hp & _)%cleanup_tree Hc Hx [H1 H2]. rewrite (used_free _ _ _ Hc Hx) in H1, H2. split; rewrite Ht; [|lia].
  unfold NR_PROCS in *. rewrite Hp, H1, s32_id; lia.
Qed.

Lemma getp_ret p s r s' : getp p s = Ret r s' → s' = s ∧ mprocs s !! p = Some r.
Proof. unfold getp. destruct (mprocs s !! p) as [q|]; [|done]. by intros [= <- <-]. Qed.
Lemma slot_in_use r : in_use (slot_of r) = band (mp_flags r) IN_USE.
Proof. unfold slot_of. destruct (band _ IN_USE), (band _ ZOMBIE); done. Qed.
Lemma slot_zombie r : band (mp_flags r) IN_USE = true → band (mp_flags r) ZOMBIE = true → slot_of r = Zombie (mp_pid r) (mp_parent r).
Proof. unfold slot_of. by intros -> ->. Qed.

Lemma disinherit_step p q s a s' : disinherit p q s = Ret a s' →
  rtc reap (alter (adopt1 p) q (tree s)) (tree s') ∧ (count_ok s → count_ok s').
Proof.
  unfold disinherit. intros H. minv H. apply getp_ret in H0 as [-> Hr]. apply tree_lookup in Hr as Ht.
  destruct (band (mp_flags a0) IN_USE) eqn:Hu; cbn [andb] in H.
  2: { injection H as _ <-. split; [|done]. rewrite (alter_id _ _ q); [done|]. rewrite Ht. intros x [= <-]. unfold slot_of. by rewrite Hu. }
  assert (Hs : ∀ z, adopt1 p (slot_of a0) = slot_of (a0.[mp_parent := z]) ↔ (if mp_parent a0 =? p then INIT_PROC_NR else mp_parent a0) = z).
  { intros z. unfold slot_of. cbn. rewrite Hu. destruct (band _ ZOMBIE); cbn; split; intros H1; congruence. }
  destruct (mp_parent a0 =? p) eqn:Hp.
  2: { injection H as _ <-. split; [|done]. rewrite (alter_id _ _ q); [done|]. rewrite Ht. intros x [= <-]. by apply (Hs (mp_parent a0)). }
  minv H. apply tree_putp in H0 as Hw. destruct Hw as (r & Hr' & Hm & Ht'). rewrite Hr in Hr'. injection Hr' as <-.
  assert (Hp' : procs_in_use s0 = procs_in_use s) by (revert H0; unfold putp; case_match; [|done]; by intros [= _ <-]).
  assert (Ha : alter (adopt1 p) q (tree s) = tree s0).
  { rewrite Ht'. apply map_eq. intros k. destruct (decide (k = q)) as [->|Hk].
    - rewrite lookup_alter_eq, lookup_insert_eq, Ht. cbn [fmap option_fmap option_map]. f_equal. by apply Hs.
    - by rewrite lookup_alter_ne, lookup_insert_ne by done. }
  rewrite Ha. assert (Hc : count_ok s → count_ok s0).
  { unfold count_ok. rewrite Hp', <-Ha. rewrite (used_ext (alter (adopt1 p) q (tree s)) (tree s)); [done|].
    intros k. destruct (decide (k = q)) as [->|Hk]; [|by rewrite lookup_alter_ne by done].
    rewrite lookup_alter_eq, Ht. cbn [fmap option_fmap option_map]. by rewrite adopt1_in_use. }
  minv H. apply getp_ret in H1 as [-> _]. minv H. apply getp_ret in H1 as [-> Hq]. apply tree_lookup in Hq as Htq.
  destruct (band (mp_flags a2) WAITING); [|by injection H as _ <-]. destruct (band (mp_flags a3) ZOMBIE) eqn:Hz; [|by injection H as _ <-].
  assert (Hz' : slot_of a3 = Zombie (mp_pid a3) (mp_parent a3)).
  { apply slot_zombie; [|done]. rewrite Hm, lookup_insert_eq in Hq. by injection Hq as <-. }
  rewrite Hz' in Htq. cbn [andb when] in H. split.
  - apply cleanup_tree in H as [-> _]. apply rtc_once. by exists q, (mp_pid a3), (mp_parent a3).
  - intros Hk. apply Hc in Hk. by eapply cleanup_count.
Qed.
Lemma disinherit_all p s a s' : in_table s → for_list (zrange 0 NR_PROCS) (disinherit p) s = Ret a s' →
  rtc reap (adopt p (tree s)) (tree s') ∧ (count_ok s → count_ok s').
Proof.
  intros Ht. rewrite <-adopt_in_all by done. clear Ht. generalize (zrange 0 NR_PROCS). intros l. revert s a.
  induction l as [|q l IH]; intros s a H; [by injection H as _ <-|]. change (bind (disinherit p q) (λ _, for_list l (disinherit p)) s = Ret a s') in H.
  minv H. apply disinherit_step in H0 as [H1 H2]. apply IH in H as [G1 G2]. split; [|auto].
  cbn. etransitivity; [|exact G1]. by apply adopt_in_reap.
Qed.

(** From the end of the process to the adoption of its children. *)
Definition ended (p : Z) (s s' : pms) : Prop :=
  ∃ x pid pp, tree s !! p = Some x ∧ pid_of x = Some pid ∧ parent_of x = Some pp ∧
    (tree s' = <[p := Free]> (tree s) ∨ tree s' = <[p := Zombie pid pp]> (tree s)) ∧ (count_ok s → count_ok s').

Lemma ended_lives p s s' : ended p s s' → lives s' = lives s ∖ {[p]}.
Proof. intros (x & pid & pp & _ & _ & _ & [H|H] & _); by eapply lives_insert. Qed.
Lemma ended_tree p s s' : p ≠ INIT_PROC_NR → ended p s s' → rtc tstep (tree s) (adopt p (tree s')).
Proof.
  intros Hp (x & pid & pp & Hx & H1 & H2 & H & _).
  assert (He : tstep (tree s) (adopt p (<[p := Zombie pid pp]> (tree s)))) by by eapply TExit.
  destruct H as [-> | ->]; [|by apply rtc_once]. eapply rtc_l; [exact He|]. rewrite !adopt_insert. apply rtc_once.
  rewrite <-(insert_insert_eq (adopt p (tree s)) p (adopt1 p Free) (adopt1 p (Zombie pid pp))).
  eapply TReap. by rewrite lookup_insert_eq.
Qed.

(** The step [H] keeps the tree. *)
Ltac kept H S :=
  lazymatch type of H with
  | ?m ?s = Ret ?a ?s' => assert (S : same_skel s s') by (refine ((_ : pres same_skel m) s a s' H); skel)
  end.
Ltac skip_kept S := etransitivity; [apply same_follows, skel_same_tree; exact S|].

Section exits.
Context (kernel : list kcall → kcall → kreply).

Lemma exit_end ex p r w s a s' : tree s !! p = Some (slot_of r) → in_use (slot_of r) = true →
  (if w : bool then cleanup p
   else putp p (λ r, r.[mp_flags := Z.lor IN_USE ZOMBIE]);;; sig_proc_with kernel ex (mp_parent r) SIGCHLD) s = Ret a s' →
  ended p s s'.
Proof.
  intros Hp Hu H. assert (Hx : ∃ pid pp, pid_of (slot_of r) = Some pid ∧ parent_of (slot_of r) = Some pp).
  { destruct (slot_of r); [done|by do 2 eexists..]. }
  destruct Hx as (pid & pp & H1 & H2). exists (slot_of r), pid, pp. split_and!; [done..| |].
  - destruct w; [apply cleanup_tree in H as [-> _]; by left|]. right. minv H. apply skel_sig_ignored in H; [|reflexivity].
    rewrite (same_skel_tree _ _ H). destruct (tree_putp _ _ _ _ _ H0) as (q & Hq & _ & ->). f_equal.
    apply tree_lookup in Hq. rewrite Hp in Hq. injection Hq as Hq. rewrite Hq in H1, H2.
    change (Zombie (mp_pid q) (mp_parent q) = Zombie pid pp). unfold slot_of in H1, H2.
    destruct (negb _); [done|]. destruct (band (mp_flags q) ZOMBIE); cbn in H1, H2; congruence.
  - destruct w; [intros Hc; by eapply cleanup_count|]. minv H. apply skel_sig_ignored in H; [|reflexivity].
    apply skel_same_tree in H as [Ht Hn]. destruct (tree_putp _ _ _ _ _ H0) as (q & Hq & _ & Hz).
    assert (Hn' : procs_in_use s0 = procs_in_use s) by (revert H0; unfold putp; case_match; [|done]; by intros [= _ <-]).
    unfold count_ok. rewrite Hn, Hn', Ht. rewrite (used_ext (tree s0) (tree s)); [done|]. intros k. rewrite Hz.
    destruct (decide (k = p)) as [->|Hk]; [|by rewrite lookup_insert_ne]. rewrite lookup_insert_eq, Hp. cbn [fmap option_fmap option_map].
    by rewrite Hu.
Qed.

Definition ends_well (ex : Z → Z → P unit) : Prop :=
  ∀ p x s a s' y, tree s !! p = Some y → in_use y = true → ex p x s = Ret a s' → follows s s'.

Lemma adopted_follows p s s' s'' a : ended p s s' → for_list (zrange 0 NR_PROCS) (disinherit p) s' = Ret a s'' → follows s s''.
Proof.
  intros He Hl. assert (Hd : dom (tree s') = dom (tree s)).
  { destruct He as (x & pid & pp & Hx & _ & _ & [-> | ->] & _); apply dom_insert_lookup_L; by eexists. }
  assert (Hf : fewer s' s'') by (eapply (pres_for_list fewer); [|exact Hl]; intros; presto).
  assert (Hc : count_ok s' → count_ok s'').
  { assert (PreOrder (λ s s', count_ok s → count_ok s')) by (split; [by intros t|intros t t' t'' G1 G2; auto]).
    refine (pres_for_list (λ s s', count_ok s → count_ok s') _ _ _ _ _ _ Hl). intros q t b t' [_ G]%disinherit_step. exact G. }
  split_and!.
  - unfold fewer in *. rewrite (ended_lives _ _ _ He) in Hf. etransitivity; [exact Hf|]. by apply subseteq_difference_l.
  - intros Ht. apply (table_tree s'); [|by apply (table_tree s)]. apply (table_tree s s') in Ht; [|done].
    apply disinherit_all in Hl as [Hl _]; [|done]. apply reap_dom in Hl. rewrite Hl. apply dom_fmap_L.
  - intros Ht Hi. apply (table_tree s s') in Ht; [|done]. apply disinherit_all in Hl as [Hl _]; [|done].
    etransitivity; [apply (ended_tree p)|]; [|done|by apply reap_tstep].
    apply Hf in Hi. rewrite (ended_lives _ _ _ He) in Hi. set_solver.
  - intros H. apply Hc. destruct He as (_ & _ & _ & _ & _ & _ & _ & He). auto.
Qed.

Lemma exit_with_follows ex ck p x : (∀ q z, pres follows (ck q z)) → ∀ s a s' y, tree s !! p = Some y → in_use y = true →
  pm_exit_with kernel (sig_proc_with kernel ex) ck p x s = Ret a s' → follows s s'.
Proof.
  intros Hck s a s' y Hp Hy H. unfold pm_exit_with in H. minv H. apply getp_ret in H0 as [-> Hr].
  minv H. injection H0 as <- <-. minv H. apply getp_ret in H0 as [-> _]. cbv zeta in H. minv H.
  apply skel_release in H0. assert (H1 := same_skel_tree _ _ H0). minv H. apply getp_ret in H2 as [-> _]. minv H.
  apply tree_lookup in Hr. rewrite Hp in Hr. injection Hr as ->. rewrite <-H1 in Hp. apply exit_end in H2; [|done..].
  minv H. apply (adopted_follows _ _ _ _ _ H2) in H3.
  assert (Hs : follows s s0) by (by apply same_follows, skel_same_tree). etransitivity; [exact Hs|]. etransitivity; [exact H3|].
  destruct (negb _); [|by injection H as _ <-]. minv H. injection H as _ <-. by eapply Hck.
Qed.

Lemma terminate_follows ex p x s a s' y : ends_well ex → tree s !! p = Some y → in_use y = true →
  terminate_with kernel ex p x s = Ret a s' → follows s s'.
Proof.
  intros Hex Hp Hy H. unfold terminate_with in H. destruct (sigismember ign_sset x); [by injection H as _ <-|].
  minv H. kept H0 S0. minv H. kept H1 S1.
  assert (S2 : same_skel s s1) by (by etransitivity). skip_kept S2.
  eapply Hex; [|exact Hy|exact H]. by rewrite (same_skel_tree _ _ S2).
Qed.
Lemma sig_follows ex p x : ends_well ex → pres follows (sig_proc_with kernel ex p x).
Proof.
  intros Hex s a s' H. unfold sig_proc_with in H. minv H. apply getp_ret in H0 as [-> Hr]. apply tree_lookup in Hr.
  destruct (alive a0) eqn:Ha; [|done]. cbn [negb] in H.
  assert (Hu : in_use (slot_of a0) = true) by (rewrite slot_in_use; rewrite alive_band in Ha; by destruct (band _ IN_USE)).
  destruct (_ && _); [kept H S0; by skip_kept S0|]. destruct (sigismember (mp_ignore a0) x); [by injection H as _ <-|].
  destruct (sigismember (mp_sigmask a0) x); [kept H S0; by skip_kept S0|].
  minv H. kept H0 S0. skip_kept S0. rewrite <-(same_skel_tree _ _ S0) in Hr.
  destruct (sigismember (mp_catch a0) x).
  - minv H. kept H1 S1. skip_kept S1. destruct a2; [by injection H as _ <-|].
    rewrite <-(same_skel_tree _ _ S1) in Hr. by eapply terminate_follows.
  - destruct (sigismember (mp_sig2mess a0) x); [kept H S1; by skip_kept S1|]. by eapply terminate_follows.
Qed.
Lemma check_follows sp id sig : (∀ p x, pres follows (sp p x)) → pres follows (check_sig_with sp id sig).
Proof. intros H. unfold check_sig_with, check_step. presto. Qed.
Lemma exit_n_follows n : ends_well (pm_exit_n kernel (λ _ _, spin) n).
Proof.
  induction n as [|n IH]; intros p x s a s' y Hp Hy H; [done|]. cbn [pm_exit_n] in H.
  eapply exit_with_follows; [|exact Hp|exact Hy|exact H]. intros q z. apply check_follows. intros. by apply sig_follows.
Qed.
Lemma exit_follows : ends_well (pm_exit kernel).
Proof. exact (exit_n_follows proc_fuel). Qed.
Lemma sig_proc_follows p x : pres follows (sig_proc kernel p x).
Proof. apply sig_follows, exit_follows. Qed.
Lemma check_sig_follows id sig : pres follows (check_sig kernel id sig).
Proof. apply check_follows, sig_proc_follows. Qed.
End exits.
#[export] Hint Resolve sig_proc_follows check_sig_follows : pres.

(** ** The other calls *)
#[local] Opaque pm_exit.
Section handlers.
Context (kernel : list kcall → kcall → kreply) (layout : Z → pms → list Z).

Lemma follows_pending p : pres follows (check_pending kernel p).
Proof. unfold check_pending. presto. Qed.
Hint Resolve follows_pending : pres.
Lemma follows_sigaction : pres follows (do_sigaction kernel).
Proof.
  assert (H : ∀ p n h, pres follows (putp p (set_action n h))).
  { intros. apply follows_putp. intros r. unfold set_action. by repeat case_match. }
  unfold do_sigaction. presto.
Qed.
Lemma follows_sigprocmask : pres follows (do_sigprocmask kernel).
Proof. unfold do_sigprocmask. presto. Qed.
Lemma follows_sigsuspend : pres follows (do_sigsuspend kernel).
Proof. unfold do_sigsuspend. presto. Qed.
Lemma follows_sigreturn : pres follows (do_sigreturn kernel).
Proof. unfold do_sigreturn. presto. Qed.
Lemma follows_kill : pres follows (do_kill kernel).
Proof. unfold do_kill. presto. Qed.
Lemma follows_ksig : pres follows (ksig_pending kernel).
Proof. unfold ksig_pending, ksig_round, handle_ksig. presto. Qed.
Lemma follows_expire now : pres follows (pm_expire_timers kernel now).
Proof. unfold pm_expire_timers, tmrs_exptimers, exp_step, head_time, tload, tstore, run_watchdog, cause_sigalrm. presto. Qed.
Lemma follows_getset : pres follows (do_getset kernel).
Proof.
  assert (Hu : ∀ p u b, pres follows (putp p (λ r, set_uid r u b))) by (intros; apply follows_putp; intros; by destruct b).
  assert (Hg : ∀ p u b, pres follows (putp p (λ r, set_gid r u b))) by (intros; apply follows_putp; intros; by destruct b).
  unfold do_getset, reply. presto.
Qed.
Lemma follows_times : pres follows (do_times kernel).
Proof. unfold do_times, reply. presto. Qed.
Lemma follows_stime : pres follows (do_stime kernel).
Proof. unfold do_stime. presto. Qed.
Lemma follows_time : pres follows (do_time kernel).
Proof. unfold do_time, reply. presto. Qed.
Lemma follows_reboot : pres follows (do_reboot kernel).
Proof. unfold do_reboot. presto. Qed.
Lemma follows_procnr : pres follows (do_getprocnr kernel).
Proof. unfold do_getprocnr, reply. presto. Qed.
Lemma follows_find_param name : pres follows (find_param name).
Proof. unfold find_param, param_step. presto. Qed.
Hint Resolve follows_find_param : pres.
Lemma follows_svrctl : pres follows (do_svrctl kernel).
Proof. unfold do_svrctl. presto. destruct (_ =? MMSETPARAM); unfold set_param, get_param, fetch; presto. Qed.
Lemma follows_from_pid pid : pres follows (proc_from_pid pid).
Proof. unfold proc_from_pid. presto. Qed.
Hint Resolve follows_from_pid : pres.
Lemma follows_vmmreq : pres follows (do_vmmreq kernel).
Proof. unfold do_vmmreq, vmm_load, vmm_kill, reply. presto. Qed.
Lemma follows_priority : pres follows (do_getsetpriority kernel).
Proof. unfold do_getsetpriority. presto. Qed.
Lemma follows_sysinfo : pres follows (do_getsysinfo kernel layout).
Proof. unfold do_getsysinfo. presto. Qed.
Lemma follows_procstat : pres follows do_procstat.
Proof. unfold do_procstat, reply. presto. Qed.
Lemma follows_allocmem : pres follows do_allocmem.
Proof. unfold do_allocmem, reply. presto. Qed.
Lemma follows_freemem : pres follows do_freemem.
Proof. unfold do_freemem. presto. Qed.
Lemma follows_brk : pres follows (do_brk kernel).
Proof. unfold do_brk. presto. Qed.
Lemma follows_alarm : pres follows (do_alarm kernel).
Proof. unfold do_alarm. presto. Qed.
Lemma follows_sep : pres follows (do_getsep kernel).
Proof. unfold do_getsep. presto. Qed.
Lemma follows_sigpending : pres follows do_sigpending.
Proof. unfold do_sigpending. presto. Qed.
Lemma follows_pause : pres follows do_pause.
Proof. unfold do_pause. presto. Qed.
Lemma follows_vmid : pres follows do_getvmid.
Proof. unfold do_getvmid. presto. Qed.

(** [exec] sets no flag but SEPARATE. *)
Definition gives {A} (m : P A) (Q : A → Prop) : Prop := ∀ s a s', m s = Ret a s' → Q a.
Lemma gives_ret {A} (a : A) (Q : A → Prop) : Q a → gives (ret a) Q.
Proof. by intros H s b s' [= <- _]. Qed.
Lemma gives_bind {A B} (m : P A) (k : A → P B) (Q : A → Prop) (R : B → Prop) :
  gives m Q → (∀ a, Q a → gives (k a) R) → gives (bind m k) R.
Proof. intros Hm Hk s b s' H. minv H. exact (Hk a (Hm _ _ _ H0) _ _ _ H). Qed.
Lemma gives_any {A} (m : P A) : gives m (λ _, True).
Proof. by intros s a s' _. Qed.
Lemma pres_gives {A B} (m : P A) (k : A → P B) (Q : A → Prop) :
  pres follows m → gives m Q → (∀ a, Q a → pres follows (k a)) → pres follows (bind m k).
Proof. intros Hm Hg Hk s b s' H. minv H. etransitivity; [by eapply Hm|]. exact (Hk a (Hg _ _ _ H0) _ _ _ H). Qed.

Definition ft_ok (h : header) : Prop := Z.land (h_ft h) (Z.lor IN_USE ZOMBIE) = 0.
Lemma read_header_ft fd sc : gives (read_header kernel fd sc) (λ r, ft_ok r.2).
Proof.
  unfold read_header. eapply gives_bind; [apply gives_any|]. intros r _. cbv zeta.
  do 8 (lazymatch goal with |- gives (if ?b then _ else _) _ => destruct b end;
    [by apply gives_ret; unfold ft_ok; cbn [snd h_ft]; try destruct (band _ A_SEP)|]).
  eapply gives_bind; [apply gives_any|]. intros _ _. apply gives_ret. unfold ft_ok. cbn.
  by destruct (band _ A_SEP).
Qed.
Lemma open_file_ft name n : gives (open_file kernel name n) (λ r, match r with inl _ => True | inr x => ft_ok x.2 end).
Proof.
  unfold open_file. do 2 (eapply gives_bind; [apply gives_any|]; intros ? _). eapply gives_bind; [apply gives_any|]. intros [fd st] _.
  case_match; [by apply gives_ret|]. eapply gives_bind; [apply read_header_ft|]. intros [m h] Hh. by apply gives_ret.
Qed.
Lemma open_image_ft name f n : gives (open_image kernel name f n) (λ r, match r with inl _ => True | inr x => ft_ok x.1.1.1.1.1.2 end).
Proof.
  unfold open_image. eapply gives_bind; [apply open_file_ft|]. intros [e|[[[fd st] m] h]] Hf; [by apply gives_ret|].
  case_match; [by apply gives_ret|]. eapply gives_bind; [apply gives_any|]. intros [[[i|] stack] sb] _; [|by apply gives_ret].
  eapply gives_bind; [apply open_file_ft|]. intros [e|[[[fd' st'] m'] h']] Hs; by apply gives_ret.
Qed.

Lemma follows_open name n : pres follows (open_file kernel name n).
Proof. unfold open_file, allowed, read_header. presto. Qed.
Hint Resolve follows_open : pres.
Lemma follows_insert f n a r : pres follows (insert_arg f n a r).
Proof. unfold insert_arg. presto. Qed.
Hint Resolve follows_insert : pres.
Lemma follows_words n l f k i : pres follows (insert_words n l f k i).
Proof. revert l f k i. induction n as [|n IH]; intros l f k i; cbn [insert_words]; presto. Qed.
Hint Resolve follows_words : pres.
Lemma follows_image name f n : pres follows (open_image kernel name f n).
Proof. unfold open_image, patch_stack. presto. Qed.
Lemma follows_new_mem sh t d b k n : pres follows (new_mem kernel sh t d b k n).
Proof.
  assert (Hi : ∀ p m t d g st a, pres follows (putp p (image_map m t d g st a))) by (intros; by apply follows_putp).
  unfold new_mem. presto.
Qed.
Lemma follows_ids st : pres follows (set_ids kernel st).
Proof. unfold set_ids. presto. Qed.
Hint Resolve follows_image follows_new_mem follows_ids : pres.
Lemma follows_load v sh x : ft_ok x.1.1.1.1.1.2 → pres follows (load_image kernel v sh x).
Proof.
  destruct x as [[[[[[[fd m] h] stack] n] st0] st] name]. intros H. change (ft_ok h) in H.
  assert (H1 : ∀ p, pres follows (set_flags p (h_ft h))) by (intros; by apply follows_set_flags).
  assert (H2 : ∀ p sn, pres follows (putp p (reset_caught sn))).
  { intros. apply follows_putp. intros r. unfold reset_caught. by case_match. }
  assert (H3 : ∀ p l, pres follows (putp p (set_name l))) by (intros; by apply follows_putp).
  unfold load_image. presto.
Qed.
Lemma follows_exec : pres follows (do_exec kernel).
Proof.
  unfold do_exec. repeat (cbv beta; first [refine (pres_gives _ _ _ _ (open_image_ft _ _ _) _); [presto|]|presto_step]).
  by apply follows_load.
Qed.

Lemma reap_follows c s a s' pid pp : tree s !! c = Some (Zombie pid pp) → cleanup c s = Ret a s' → follows s s'.
Proof.
  intros Hc H. split_and!; [by eapply cleanup_fewer| | |intros; by eapply cleanup_count]; apply cleanup_tree in H as [H _].
  - apply table_tree. rewrite H. apply dom_insert_lookup_L. by eexists.
  - intros _ _. rewrite H. apply rtc_once. by eapply TReap.
Qed.
Lemma follows_wait pidarg x : pres follows (wait_step pidarg x).
Proof.
  destruct x as [p n]. unfold wait_step. intros s a s' H. destruct (NR_PROCS <=? p); [by injection H as _ <-|].
  minv H. apply getp_ret in H0 as [-> Hr]. minv H. injection H0 as <- <-.
  destruct (band (mp_flags a0) IN_USE) eqn:Hu; [|by injection H as _ <-]. cbn [andb negb] in H.
  do 3 (lazymatch type of H with (if ?b then _ else _) _ = _ => destruct b; [by injection H as _ <-|] end).
  destruct (band (mp_flags a0) ZOMBIE) eqn:Hz.
  - minv H. injection H as _ <-. apply tree_lookup in Hr. rewrite slot_zombie in Hr by done. by eapply reap_follows.
  - revert H. apply (skel_follows (if band (mp_flags a0) STOPPED && negb (mp_sigstatus a0 =? 0) then _ else _)). skel.
Qed.
Hint Resolve follows_wait : pres.
Lemma follows_waitpid : pres follows do_waitpid.
Proof. unfold do_waitpid. presto. Qed.

(** The caller is in use. *)
Lemma follows_exit s a s' y : tree s !! mp s = Some y → in_use y = true → do_pm_exit kernel s = Ret a s' → follows s s'.
Proof.
  intros Hp Hy H. unfold do_pm_exit in H. minv H. injection H0 as <- <-. minv H. injection H as _ <-. by eapply exit_follows.
Qed.
Lemma find_in_use f s c : find (λ p, match mprocs s !! p with Some r => band (mp_flags r) IN_USE && f r | None => false end)
  (zrange 0 NR_PROCS) = Some c → ∃ y, tree s !! c = Some y ∧ in_use y = true.
Proof.
  intros [_ H]%find_some. destruct (mprocs s !! c) as [r|] eqn:E; [|done]. exists (slot_of r).
  rewrite slot_in_use. split; [by apply tree_lookup|]. by destruct (band (mp_flags r) IN_USE).
Qed.
Lemma follows_passed c : pres follows (trace_passed kernel c).
Proof. unfold trace_passed. presto. Qed.
Hint Resolve follows_passed : pres.
Lemma follows_trace : pres follows (do_trace kernel).
Proof.
  intros s a s' H. unfold do_trace in H. minv H. injection H0 as <- <-. cbv zeta in H.
  destruct (_ =? T_OK); [kept H S0; by skip_kept S0|]. minv H. unfold find_proc in H0. minv H0. injection H1 as <- <-.
  injection H0 as Hf <-. destruct a0 as [c|]; [|by injection H as _ <-]. apply (find_in_use (λ r, mp_pid r =? _)) in Hf as (y & Hc & Hy).
  minv H. apply getp_ret in H0 as [-> _]. destruct (negb _); [by injection H as _ <-|]. destruct (_ =? T_EXIT).
  - minv H. etransitivity; [by eapply exit_follows|]. revert H. apply (skel_follows (putp _ _;;; ret OK)). skel.
  - revert H. match goal with |- ?m _ = _ → _ => assert (Hm : pres follows m) by presto end. apply Hm.
Qed.

Lemma free_pid_gives s pid s' : get_free_pid s = Ret pid s' → same_skel s s' ∧ mprocs s' = mprocs s ∧ pid_taken pid (mprocs s) = false.
Proof.
  unfold get_free_pid. generalize pid_fuel. intros n. revert s. induction n as [|n IH]; intros s H; [done|].
  rewrite loop_S in H. unfold pid_round in H. cbn in H. destruct (pid_taken _ (mprocs s)) eqn:E.
  - apply IH in H as (H1 & H2 & H3). split_and!; [|done..]. etransitivity; [|exact H1]. done.
  - injection H as <- <-. split_and!; done.
Qed.

(** ** [fork] *)
Lemma fork_slot_live p b r pid : alive r = true → slot_of ((fork_slot p b r).[mp_pid := pid]) = Live pid p.
Proof.
  rewrite alive_band. intros [Hu _]%andb_true_iff.
  assert (Hf : mp_flags (fork_slot p b r) = Z.land (mp_flags r) INHERITED) by (unfold fork_slot; by destruct (negb _)).
  assert (Hp : mp_parent (fork_slot p b r) = p) by (unfold fork_slot; by destruct (negb _)).
  unfold slot_of. change (mp_flags (_.[mp_pid := ?x])) with (mp_flags (fork_slot p b r)).
  change (mp_parent (_.[mp_pid := ?x])) with (mp_parent (fork_slot p b r)). cbn [mp_pid]. rewrite Hf, Hp.
  unfold band in *. rewrite <-!Z.land_assoc. change (Z.land INHERITED IN_USE) with IN_USE. change (Z.land INHERITED ZOMBIE) with 0.
  by rewrite Hu, Z.land_0_r.
Qed.
Lemma taken_pid pid s q x : in_table s → pid_taken pid (mprocs s) = false → tree s !! q = Some x → pid_of x ≠ Some pid.
Proof.
  intros Ht Hp Hq Hx. unfold tree in Hq. rewrite lookup_fmap in Hq. destruct (mprocs s !! q) as [r|] eqn:E; [|done]. injection Hq as <-.
  assert (Hm : mp_pid r = pid).
  { unfold slot_of in Hx. destruct (negb _); [done|]. destruct (band _ ZOMBIE); by injection Hx. }
  assert (pid_taken pid (mprocs s) = true); [|congruence]. unfold pid_taken. apply existsb_exists. exists q.
  split; [apply list_elem_of_In, elem_of_zrange, Ht; by exists r|]. rewrite E, Hm, Z.eqb_refl. done.
Qed.

(** What a call that may fork does to the tree. *)
Definition grows (s s' : pms) : Prop :=
  (in_table s → in_table s') ∧ (in_table s → INIT_PROC_NR ∈ lives s' → rtc tstep (tree s) (tree s')) ∧ (count_ok s → count_ok s').
Lemma follows_grows s s' : follows s s' → grows s s'.
Proof. by intros (_ & H1 & H2 & H3). Qed.

(** The slot of the new process is filled in. *)
Lemma fork_child c p b r pid s s1 s2 s3 :
  alive r = true → tree s1 = tree s → procs_in_use s1 = procs_in_use s + 1 → procs_in_use s ≠ NR_PROCS →
  tree s !! c = Some Free → tree s !! p = Some (slot_of r) → in_table s →
  putp c (λ _, fork_slot p b r) s1 = Ret tt s2 → same_skel s2 s3 → mprocs s3 = mprocs s2 → pid_taken pid (mprocs s3) = false → ∀ s4,
  putp c (λ r, r.[mp_pid := pid]) s3 = Ret tt s4 →
  tstep (tree s) (tree s4) ∧ (count_ok s → count_ok s4) ∧ (in_table s → in_table s4).
Proof.
  intros Hr Ht Hn Hmax Hc Hp Hi H2 S3 Hm3 Hpid s4 H4.
  assert (N2 : procs_in_use s2 = procs_in_use s1) by (revert H2; unfold putp; case_match; [|done]; by intros [= <-]).
  assert (N4 : procs_in_use s4 = procs_in_use s3) by (revert H4; unfold putp; case_match; [|done]; by intros [= <-]).
  destruct (tree_putp _ _ _ _ _ H2) as (r1 & Hr1 & Hm2 & Ht2). destruct (tree_putp _ _ _ _ _ H4) as (r3 & Hr3 & _ & Ht4).
  rewrite Hm3, Hm2, lookup_insert_eq in Hr3. injection Hr3 as <-. rewrite fork_slot_live in Ht4 by done.
  assert (Ht3 : tree s3 = <[c := slot_of (fork_slot p b r)]> (tree s)) by (rewrite (same_skel_tree _ _ S3), Ht2, Ht; done).
  assert (E : tree s4 = <[c := Live pid p]> (tree s)) by (rewrite Ht4, Ht3; apply insert_insert_eq).
  assert (Hi3 : in_table s3) by (apply (table_tree s); [rewrite Ht3; apply dom_insert_lookup_L; by eexists|done]).
  assert (Hl : slot_of r = Live (mp_pid r) (mp_parent r)).
  { rewrite alive_band in Hr. unfold slot_of. by destruct (band _ IN_USE), (band _ ZOMBIE). }
  split_and!.
  - rewrite E. eapply TFork; [by rewrite Hp, Hl|done|]. intros q x Hq. destruct (decide (q = c)) as [->|Hne].
    + rewrite Hc in Hq. by injection Hq as <-.
    + eapply (taken_pid pid s3 q); [done..|]. by rewrite Ht3, lookup_insert_ne.
  - intros [C1 C2]. unfold count_ok. rewrite E, used_live by done. destruct S3 as (_ & N3 & _). unfold NR_PROCS in *. lia.
  - intros _. apply (table_tree s); [|done]. rewrite E. apply dom_insert_lookup_L. by eexists.
Qed.

Lemma skel_slots n k : pres same_skel (loop n slot_step k).
Proof. unfold slot_step. presto. Qed.
Hint Resolve skel_slots : pres.
Lemma gett_mprocs t s r s' : gett t s = Ret r s' → mprocs s' = mprocs s.
Proof. unfold gett. case_match; [|done]. by intros [= _ <-]. Qed.
Lemma putt_mprocs t f s r s' : putt t f s = Ret r s' → mprocs s' = mprocs s.
Proof. unfold putt. case_match; [|done]. by intros [= _ <-]. Qed.

Lemma grows_follows s s1 s2 : grows s s1 → follows s1 s2 → grows s s2.
Proof.
  intros (H1 & H2 & H3) (G1 & G2 & G3 & G4). split_and!; [auto| |auto]. intros Ht Hi.
  etransitivity; [apply H2; [done|by apply G1]|apply G3; [by apply H1|done]].
Qed.
Lemma same_grows s s1 s2 : same_tree s s1 → grows s1 s2 → grows s s2.
Proof.
  intros H0 (G1 & G2 & G3). assert (F := same_follows _ _ H0). destruct F as (_ & F1 & _ & F3). destruct H0 as [Ht _].
  split_and!; [auto| |auto]. intros Hi Hl. rewrite <-Ht. auto.
Qed.
Lemma fork_grows s a s' r : in_table s → mprocs s !! mp s = Some r → alive r = true → who_p s = mp s → do_fork kernel s = Ret a s' → grows s s'.
Proof.
  intros Hi Hr Ha Hw H. unfold do_fork in H. minv H. injection H0 as <- <-. minv H. apply getp_ret in H0 as [-> Hr'].
  rewrite Hr in Hr'. injection Hr' as <-. destruct (_ || _) eqn:Hmax; [injection H as _ <-; by apply follows_grows|].
  apply orb_false_iff in Hmax as [Hmax%Z.eqb_neq _]. cbv zeta in H. minv H. kept H0 S0.
  destruct (_ =? NO_MEM); [injection H as _ <-; by apply follows_grows, same_follows, skel_same_tree|].
  minv H. kept H1 S1. destruct (_ <? 0); [done|]. minv H. kept H2 S2. destruct (_ <? _); [done|].
  minv H. injection H3 as <- <-. minv H. apply getp_ret in H3 as [-> Hc].
  destruct (band (mp_flags a3) IN_USE) eqn:Hf; [done|].
  assert (S : same_skel s s2) by (etransitivity; [exact S0|etransitivity; eassumption]).
  assert (Hcs : tree s !! next_child s2 = Some Free).
  { rewrite <-(same_skel_tree _ _ S). apply tree_lookup in Hc. rewrite Hc. unfold slot_of. by rewrite Hf. }
  assert (Hw2 : who_p s2 = mp s) by (destruct S as (_ & _ & _ & ->); done).
  assert (T : tree s2 = tree s) by (by apply same_skel_tree). assert (N : procs_in_use s2 = procs_in_use s) by apply S.
  minv H. injection H3 as _ <-. minv H. rewrite Hw2 in H3. minv H. kept H4 S4. minv H. kept H5 S5. minv H.
  apply free_pid_gives in H6 as (S6 & M6 & P6). minv H.
  kept H S7. assert (S36 : same_skel s3 s6) by (etransitivity; [exact S4|etransitivity; eassumption]).
  apply gett_mprocs in H4. apply putt_mprocs in H5. destruct a5, a9.
  destruct (fork_child (next_child s2) (mp s) a0 r a8 s (s2.[procs_in_use := procs_in_use s2 + 1]) s3 s6) with (s4 := s7)
    as (G1 & G2 & G3); [done|done|by rewrite <-N|done|done|by apply tree_lookup|done|done|done|congruence|congruence|done|].
  eapply grows_follows; [|apply same_follows, skel_same_tree; exact S7].
  split_and!; [done|intros _ _; by apply rtc_once|done].
Qed.

(** ** A round of the main loop *)
Hint Resolve follows_pending follows_sigaction follows_sigprocmask follows_sigsuspend follows_sigreturn follows_kill follows_ksig
  follows_expire follows_getset follows_times follows_stime follows_time follows_reboot follows_procnr follows_svrctl
  follows_vmmreq follows_priority follows_sysinfo follows_procstat follows_allocmem follows_freemem follows_brk follows_alarm
  follows_sep follows_sigpending follows_pause follows_vmid follows_exec follows_waitpid follows_trace : pres.
Lemma follows_call nr : nr ≠ EXIT → nr ≠ FORK → pres follows (call_vec kernel layout nr).
Proof. intros H1 H2. unfold call_vec, no_sys. repeat case_match; try (by subst); presto. Qed.

(** The sender is a live process or it is a notification. *)
Definition sender_ok (s : pms) (m : message) : Prop :=
  NCALLS ≤ u32 (m_type m) ∨ ∃ r, mprocs s !! ENDPOINT_P (m_source m) = Some r ∧ alive r = true.

Lemma isokendpt_gives e : gives (pm_isokendpt kernel e) (λ x, x.2 = ENDPOINT_P e).
Proof.
  unfold pm_isokendpt. case_match; [by apply gives_ret|]. eapply gives_bind; [apply gives_any|]. intros u _. case_match; [|by apply gives_ret].
  eapply gives_bind; [apply gives_any|]. intros r _. case_match; by apply gives_ret.
Qed.
Lemma get_work_gives m s a s' : get_work kernel m s = Ret a s' →
  same_tree s s' ∧ call_nr s' = m_type m ∧ who_p s' = ENDPOINT_P (m_source m) ∧
  mp s' = (if ENDPOINT_P (m_source m) <? 0 then PM_PROC_NR else ENDPOINT_P (m_source m)).
Proof.
  intros H. unfold get_work in H. minv H. injection H0 as _ <-. minv H. destruct a1 as [res p].
  assert (p = ENDPOINT_P (m_source m)) as -> by (exact (isokendpt_gives _ _ _ _ H0)).
  kept H0 S0. destruct (negb _); [done|]. minv H. injection H1 as _ <-.
  assert (Hs : same_skel (s.[m_in := m].[who_e := m_source m]) s0) by done. apply skel_same_tree in Hs as [Ht Hn].
  set (s1 := s0.[who_p := _].[call_nr := _].[mp := _]) in H. assert (S1 : s' = s1).
  { destruct (0 <=? _); [|by injection H as _ <-]. minv H. apply getp_ret in H1 as [-> _].
    destruct (negb _); [done|]. by injection H as _ <-. }
  subst s'. split_and!; [split; [exact Ht|exact Hn]|done..].
Qed.

Lemma dispatch_grows s a s' : in_table s →
  (u32 (call_nr s) < NCALLS → who_p s = mp s ∧ ∃ r, mprocs s !! mp s = Some r ∧ alive r = true) →
  pm_dispatch kernel layout s = Ret a s' → grows s s'.
Proof.
  intros Hi Hl H. unfold pm_dispatch in H. minv H. injection H0 as <- <-.
  destruct (call_nr s =? SYN_ALARM); [apply follows_grows; revert H; apply pres_bind; [apply _|presto..]|].
  destruct (call_nr s =? SYS_SIG).
  { apply follows_grows. revert H. match goal with |- ?m _ = _ → _ => assert (Hm : pres follows m) by presto end. apply Hm. }
  destruct (NCALLS <=? u32 (call_nr s)) eqn:Hn; [injection H as _ <-; by apply follows_grows|].
  apply Z.leb_gt in Hn. apply Hl in Hn as (Hw & r & Hr & Ha).
  destruct (decide (call_nr s = EXIT)) as [E|H1].
  - rewrite E in H. apply follows_grows. eapply (follows_exit s a s' (slot_of r)); [by apply tree_lookup| |exact H].
    rewrite slot_in_use. rewrite alive_band in Ha. by destruct (band _ IN_USE).
  - destruct (decide (call_nr s = FORK)) as [E|H2]; [rewrite E in H; by eapply fork_grows|].
    apply follows_grows. by eapply follows_call.
Qed.

Lemma round_tree m s s' :
  in_table s → count_ok s → sender_ok s m → pm_round kernel layout m s = Ret tt s' →
  in_table s' ∧ count_ok s' ∧ (INIT_PROC_NR ∈ lives s' → rtc tstep (tree s) (tree s')).
Proof.
  intros Hi Hc Hs H. unfold pm_round in H. minv H. apply get_work_gives in H0 as (G0 & Gc & Gw & Gm).
  assert (F0 := same_follows _ _ G0). minv H. apply dispatch_grows in H0 as F1.
  - minv H. injection H1 as <- <-.
    assert (F2 : follows s1 s').
    { revert H. match goal with |- ?m _ = _ → _ => assert (Hm : pres follows m) by (unfold send_reply; presto) end. apply Hm. }
    assert (F : grows s s') by (eapply same_grows; [exact G0|by eapply grows_follows]). destruct F as (K1 & K2 & K3). auto.
  - by apply F0.
  - rewrite Gc. intros Hn. destruct Hs as [Hs|(r & Hr & Ha)]; [lia|].
    destruct (Hi (ENDPOINT_P (m_source m))) as [Hp _]; [by eexists|]. apply Z.ltb_ge in Hp. rewrite Hp in Gm.
    split; [by rewrite Gw, Gm|]. rewrite Gm. assert (Hl : ENDPOINT_P (m_source m) ∈ lives s0).
    { rewrite (lives_tree s s0) by apply G0. apply elem_of_lives. by exists r. }
    by apply elem_of_lives in Hl.
Qed.
(** C21. One round of the main loop of PM refines the tree of processes: whatever message
    comes (a call of a live process, or a notification) and whatever the kernel and the
    file system answer, what has happened to the table when the round is over is a number
    of forks with a fresh pid, of exits whose children INIT adopts, and of collected zombies,
    as long as INIT lives; and [procs_in_use] remains the number of slots in use. *)
Theorem pm_round_refines m s s' :
  in_table s → count_ok s → sender_ok s m → pm_round kernel layout m s = Ret tt s' →
  in_table s' ∧ count_ok s' ∧ (INIT_PROC_NR ∈ lives s' → rtc tstep (tree s) (tree s')).
Proof. apply round_tree. Qed.
End handlers.

(** ** The family

    INIT lives; every process, zombies included, has a live parent; and no two processes
    share a pid. *)
Definition lives_at (t : gmap Z slot) (p : Z) : bool := if t !! p is Some (Live _ _) then true else false.
Definition family (t : gmap Z slot) : Prop :=
  lives_at t INIT_PROC_NR = true ∧
  map_Forall (λ _ x, match parent_of x with Some pp => lives_at t pp = true | None => True end) t ∧
  map_Forall (λ c x, map_Forall (λ d y, pid_of x = pid_of y → pid_of x ≠ None → c = d) t) t.

Lemma lives_at_insert t p c x : lives_at (<[c := x]> t) p = if decide (p = c) then is_live x else lives_at t p.
Proof.
  unfold lives_at. destruct (decide (p = c)) as [->|H]; [rewrite lookup_insert_eq; by destruct x|by rewrite lookup_insert_ne].
Qed.
Lemma lives_at_adopt t p q : lives_at (adopt p t) q = lives_at t q.
Proof. unfold lives_at. rewrite adopt_lookup. by destruct (t !! q) as [[]|]. Qed.
Lemma pid_adopt p x : pid_of (adopt1 p x) = pid_of x.
Proof. by destruct x. Qed.
Lemma parent_adopt p x : parent_of (adopt1 p x) = (λ q, if q =? p then INIT_PROC_NR else q) <$> parent_of x.
Proof. by destruct x. Qed.

Lemma family_fork t p c pid ppid pp : t !! p = Some (Live ppid pp) → t !! c = Some Free →
  (∀ q x, t !! q = Some x → pid_of x ≠ Some pid) → family t → family (<[c := Live pid p]> t).
Proof.
  intros Hp Hc Hf (H1 & H2 & H3).
  assert (Hl : ∀ q, lives_at t q = true → lives_at (<[c := Live pid p]> t) q = true).
  { intros q Hq. rewrite lives_at_insert. by destruct (decide (q = c)). }
  split_and!; [auto|..].
  - intros q x. destruct (decide (q = c)) as [->|Hq]; [rewrite lookup_insert_eq|rewrite lookup_insert_ne by done].
    + intros [= <-]. cbn. apply Hl. unfold lives_at. by rewrite Hp.
    + intros Hx. specialize (H2 q x Hx). cbn in H2. destruct (parent_of x); auto.
  - intros q x Hx d y Hy E Hn. rewrite lookup_insert_Some in Hx. rewrite lookup_insert_Some in Hy.
    destruct Hx as [[<- <-]|[Hq Hx]], Hy as [[<- <-]|[Hd Hy]]; [done| | |by eapply H3].
    + by apply Hf in Hy.
    + by apply Hf in Hx.
Qed.
Lemma family_exit t p x pid pp : t !! p = Some x → pid_of x = Some pid → parent_of x = Some pp → p ≠ INIT_PROC_NR →
  family t → family (adopt p (<[p := Zombie pid pp]> t)).
Proof.
  intros Hx Hpid Hpp Hi (H1 & H2 & H3).
  assert (Hl : ∀ q, lives_at (adopt p (<[p := Zombie pid pp]> t)) q = if decide (q = p) then false else lives_at t q).
  { intros q. rewrite lives_at_adopt, lives_at_insert. by case_decide. }
  assert (Hs : ∀ q y, adopt p (<[p := Zombie pid pp]> t) !! q = Some y → ∃ z, t !! q = Some z ∧ pid_of y = pid_of z ∧
    parent_of y = (λ q, if q =? p then INIT_PROC_NR else q) <$> parent_of z).
  { intros q y. rewrite adopt_lookup. destruct (decide (q = p)) as [->|Hq]; [rewrite lookup_insert_eq|rewrite lookup_insert_ne by done].
    - intros [= <-]. exists x. by rewrite Hpid, Hpp.
    - destruct (t !! q) as [z|] eqn:E; [|done]. intros [= <-]. exists z. by rewrite pid_adopt, parent_adopt. }
  split_and!.
  - rewrite Hl, decide_False by done. done.
  - intros q y (z & Hz & _ & E)%Hs. rewrite E. specialize (H2 q z Hz). cbn in H2. destruct (parent_of z) as [r|]; [|done].
    cbn. destruct (r =? p) eqn:Hr; rewrite Hl.
    + by rewrite decide_False.
    + apply Z.eqb_neq in Hr. by rewrite decide_False.
  - intros q y (z & Hz & E & _)%Hs d y' (z' & Hz' & E' & _)%Hs. rewrite E, E'. by apply (H3 q z Hz d z').
Qed.
Lemma family_reap t c pid pp : t !! c = Some (Zombie pid pp) → family t → family (<[c := Free]> t).
Proof.
  intros Hc (H1 & H2 & H3).
  assert (Hl : ∀ q, lives_at t q = true → lives_at (<[c := Free]> t) q = true).
  { intros q Hq. rewrite lives_at_insert. destruct (decide (q = c)) as [->|]; [|done]. unfold lives_at in Hq. by rewrite Hc in Hq. }
  split_and!; [auto|..].
  - intros q x. destruct (decide (q = c)) as [->|Hq]; [rewrite lookup_insert_eq; by intros [= <-]|rewrite lookup_insert_ne by done].
    intros Hx. specialize (H2 q x Hx). cbn in H2. destruct (parent_of x); auto.
  - intros q x Hx d y Hy E Hn. rewrite lookup_insert_Some in Hx. rewrite lookup_insert_Some in Hy.
    destruct Hx as [[<- <-]|[Hq Hx]]; [done|]. destruct Hy as [[<- <-]|[Hd Hy]]; [by rewrite E in Hn|by eapply H3].
Qed.
Lemma family_steps t t' : rtc tstep t t' → family t → family t'.
Proof.
  induction 1 as [|t1 t2 t3 H _ IH]; [done|]. intros Hf. apply IH. destruct H; [by eapply family_fork|by eapply family_exit|by eapply family_reap].
Qed.

(** ** Runs of the main loop *)
Section rounds.
Context (kernel : list kcall → kcall → kreply) (layout : Z → pms → list Z).

(** A run, with the state and the message that each round began with. *)
Inductive runs : list (pms * message) → pms → pms → Prop :=
  | RunsNil s : runs [] s s
  | RunsCons m tr s s1 s2 : pm_round kernel layout m s = Ret tt s1 → runs tr s1 s2 → runs ((s, m) :: tr) s s2.
(** INIT has ended at some point of the run. *)
Definition init_ended (tr : list (pms * message)) (s' : pms) : Prop :=
  INIT_PROC_NR ∉ lives s' ∨ Exists (λ '(s, _), INIT_PROC_NR ∉ lives s) tr.

Lemma runs_counts tr s s' : runs tr s s' → in_table s → count_ok s → Forall (λ '(s, m), sender_ok s m) tr →
  in_table s' ∧ count_ok s'.
Proof.
  induction 1 as [s|m tr s s1 s2 Hr _ IH]; intros Hi Hc Hs; [done|]. apply Forall_cons in Hs as [Hs Hss].
  assert (Hk : in_table s1 ∧ count_ok s1 ∧ (INIT_PROC_NR ∈ lives s1 → rtc tstep (tree s) (tree s1))) by by eapply round_tree.
  destruct Hk as (? & ? & _). by apply IH.
Qed.

(** C22. The family is kept, in every state that the main loop reaches from a sound one through
    messages that are notifications or come from processes that PM has as live: [procs_in_use] is
    the number of slots in use and, unless INIT has ended on the way, INIT lives, the parent of each
    process, zombies included, is a live process, and no two slots in use have the same pid. *)
Theorem family_kept tr s s' :
  in_table s → count_ok s → family (tree s) → runs tr s s' → Forall (λ '(s, m), sender_ok s m) tr →
  in_table s' ∧ count_ok s' ∧ (family (tree s') ∨ init_ended tr s').
Proof.
  intros Hi Hc Hf H Hs. assert (G : family (tree s) ∨ INIT_PROC_NR ∉ lives s) by by left. clear Hf. revert Hi Hc Hs G.
  induction H as [s|m tr s s1 s2 Hr Hrun IH]; intros Hi Hc Hs G.
  { split_and!; [done..|]. destruct G; [by left|right; by left]. }
  apply Forall_cons in Hs as [Hs Hss]. assert (Hk : in_table s1 ∧ count_ok s1 ∧ (INIT_PROC_NR ∈ lives s1 → rtc tstep (tree s) (tree s1))) by by eapply round_tree.
  destruct Hk as (Hi1 & Hc1 & Ht). destruct G as [Hf|Hd].
  - destruct IH as (? & ? & Hend); [done..| |].
    + destruct (decide (INIT_PROC_NR ∈ lives s1)) as [Hl|Hl]; [left; eapply family_steps; [by apply Ht|done]|by right].
    + split_and!; [done..|]. destruct Hend as [?|[?|?]]; [by left|right; by left|right; right; by constructor 2].
  - assert (D : init_ended ((s, m) :: tr) s2) by (right; by constructor 1).
    destruct (decide (INIT_PROC_NR ∈ lives s1)) as [Hl|Hl].
    + destruct (runs_counts tr s1 s2) as [? ?]; [done..|]. split_and!; [done..|by right].
    + destruct IH as (? & ? & _); [done..|by right|]. split_and!; [done..|by right].
Qed.
End rounds.

(** ** A machine: PM, FS, RS and INIT *)
Definition slot0 : mproc :=
  MProc (MemMap 0 0 0) (MemMap 0 0 0) (MemMap 0 0 0) 0 0 0 0 0 0 0 0 0 0 0 0 0 0 0 0 0 0 0 0 0 0
    (replicate 24 (SigAction 0 0 0)) 0 0 0 (Message 0 0 0 0 0 0 0 0 0) 0 [] 0.
Definition pm_bss : pms :=
  Pms (list_to_map (map (λ p, (p, slot0)) (zrange 0 NR_PROCS))) 0 0 0 0 0 (Message 0 0 0 0 0 0 0 0 0) 0 (INIT_PID + 1) 0
    (TQueue None (list_to_map (map (λ p, (timer_of p, Timer None TMR_NEVER 0 None)) (zrange 0 NR_PROCS))))
    (PmState ∅ None None 0 0) [] [] [].
Local Open Scope string_scope.
Local Open Scope Z_scope.
Definition pm_image : list boot_image :=
  map (λ '(n, prio, name), BootImage n 0 8 prio 0 0 0 name n)
    [(SYSTEM, 0, "system"); (FS_PROC_NR, 4, "fs"); (PM_PROC_NR, 3, "pm"); (RS_PROC_NR, 3, "rs"); (INIT_PROC_NR, 7, "init")].
Definition pm_params : list Z := chars_of "memory=100000:200000" ++ [0; 0].

(** Every call succeeds; the segments of a process are of 16 and 8 clicks. *)
Definition demo_kernel (_ : list kcall) (c : kcall) : kreply :=
  match c with
  | SysGetproc _ => KReply OK [0; 0x37000; 0; 0x10; 0x10; 0; 0x20; 0x10; 0x30; 0x50; 0x8]
  | SysFork _ child => KReply OK [child]
  | SysUptime => KReply OK [1000]
  | SysTimes _ => KReply OK [3; 4; 0; 0; 1000]
  | SysGetksig => KReply OK [NONE; 0]
  | _ => KReply OK []
  end.
Definition final {A} (m : P A) (s : pms) : pms := match m s with Ret _ s' => s' | _ => s end.
Definition booted : pms := final (pm_init demo_kernel pm_params pm_image) pm_bss.
Definition msg (who nr a b : Z) : message := Message who nr a b 0 0 0 0 0.
Definition go (m : message) (s : pms) : pms := final (pm_round demo_kernel (λ _ _, []) m) s.

(** INIT forks process 3, which forks process 4 and exits; INIT waits for it. *)
Definition parent_s : pms := go (msg INIT_PROC_NR FORK 0 0) booted.
Definition child_s : pms := go (msg 3 FORK 0 0) parent_s.
Definition orphan_s : pms := go (msg 3 EXIT 7 0) child_s.
Definition reaped_s : pms := go (msg INIT_PROC_NR WAIT 0 0) orphan_s.

Example tree_orphan : tree orphan_s !! 3 = Some (Zombie 6 INIT_PROC_NR) ∧ tree orphan_s !! 4 = Some (Live 7 INIT_PROC_NR).
Proof. split; by vm_compute. Qed.
Example tree_reaped : tree reaped_s !! 3 = Some Free ∧ procs_in_use reaped_s = 5.
Proof. split; by vm_compute. Qed.

Lemma table_check s : bool_decide (map_Forall (λ q _, 0 ≤ q < NR_PROCS) (mprocs s)) = true → in_table s.
Proof. intros H%bool_decide_eq_true q [r Hr]. by apply (H q r). Qed.
Lemma count_check s : (procs_in_use s =? Z.of_nat (used (tree s))) && (Z.of_nat (used (tree s)) <=? NR_PROCS) = true → count_ok s.
Proof. intros [H1%Z.eqb_eq H2%Z.leb_le]%andb_true_iff. done. Qed.
Lemma sender_check s m : match mprocs s !! ENDPOINT_P (m_source m) with Some r => alive r | None => false end = true → sender_ok s m.
Proof. intros H. right. destruct (mprocs s !! _) as [r|]; [by exists r|done]. Qed.
Lemma live_check s : lives_at (tree s) INIT_PROC_NR = true → INIT_PROC_NR ∈ lives s.
Proof.
  unfold lives_at, lives. intros H. apply elem_of_dom. destruct (tree s !! INIT_PROC_NR) as [x|] eqn:E; [|done].
  exists x. apply map_lookup_filter_Some. split; [done|]. by destruct x.
Qed.
#[local] Instance family_dec t : Decision (family t).
Proof.
  unfold family. apply and_dec; [apply _|]. apply and_dec; apply map_Forall_dec; intros c x; [destruct (parent_of x); apply _|].
  apply map_Forall_dec. intros d y. apply _.
Defined.
Lemma family_check t : bool_decide (family t) = true → family t.
Proof. apply bool_decide_eq_true. Qed.

Lemma pm_exit_depth_witness :
  in_table child_s ∧ (proc_fuel ≤ 150)%nat ∧ pm_exit_n demo_kernel (λ _ _, crash) 150 3 7 child_s = pm_exit demo_kernel 3 7 child_s.
Proof.
  assert (H : in_table child_s) by (apply table_check; by vm_compute).
  assert (Hn : (proc_fuel ≤ 150)%nat) by (apply Nat.leb_le; reflexivity).
  exact (conj H (conj Hn (pm_exit_depth demo_kernel (λ _ _, crash) 150 3 7 child_s H Hn))).
Defined.

Lemma pm_round_refines_witness :
  in_table orphan_s ∧ count_ok orphan_s ∧ (INIT_PROC_NR ∈ lives orphan_s → rtc tstep (tree child_s) (tree orphan_s)).
Proof.
  apply (pm_round_refines demo_kernel (λ _ _, []) (msg 3 EXIT 7 0)).
  - apply table_check. by vm_compute.
  - apply count_check. by vm_compute.
  - apply sender_check. by vm_compute.
  - by vm_compute.
Defined.

Lemma family_kept_witness :
  in_table reaped_s ∧ count_ok reaped_s ∧ family (tree reaped_s).
Proof.
  destruct (family_kept demo_kernel (λ _ _, [])
    [(booted, msg INIT_PROC_NR FORK 0 0); (parent_s, msg 3 FORK 0 0); (child_s, msg 3 EXIT 7 0); (orphan_s, msg INIT_PROC_NR WAIT 0 0)]
    booted reaped_s) as (H1 & H2 & [H3|[H3|H3]]); [..|exact (conj H1 (conj H2 H3))| |].
  - apply table_check. by vm_compute.
  - apply count_check. by vm_compute.
  - apply family_check. by vm_compute.
  - apply (RunsCons _ _ _ _ _ parent_s); [by vm_compute|]. apply (RunsCons _ _ _ _ _ child_s); [by vm_compute|].
    apply (RunsCons _ _ _ _ _ orphan_s); [by vm_compute|]. apply (RunsCons _ _ _ _ _ reaped_s); [by vm_compute|]. apply RunsNil.
  - repeat apply Forall_cons_2; [apply sender_check; by vm_compute..|apply Forall_nil_2].
  - destruct H3. apply live_check. by vm_compute.
  - exfalso. revert H3. apply Forall_not_Exists. repeat apply Forall_cons_2; [intros H; apply H, live_check; by vm_compute..|apply Forall_nil_2].
Defined.
