(* ===== verification/PmThms.v ===== *)
(** * The process manager: theorems on pids and signals

    The search for a free pid ([get_free_pid_first]), who may be signalled
    ([check_sig_probe]) and SIGKILL, which no process can block, ignore or catch
    ([kill_safe_kept], [kill_ends]). *)
From stdpp Require Import base gmap list numbers strings relations.
From Stdlib Require Import ZArith Lia.
From S2P Require Import Prelude.
From S2P Require Import Timers.
From S2P Require Import KTypes.
From S2P Require Import PmAlloc.
From S2P Require Import PmTypes.
From S2P Require Import PmProc.
From S2P Require Import PmTree.
From S2P Require Import PmCalls.
From S2P Require Import PmExec.
From S2P Require Import PmMain.
From S2P Require Import PmTreeThms.

(** ** Free pids *)

(** The [j]-th candidate from [pid] on. *)
Definition candidate (pid : Z) (j : nat) : Z := Nat.iter j bump_pid pid.
Definition pid_ok (pid : Z) : Prop := INIT_PID < pid ≤ NR_PIDS.
Definition in_use_pids (t : gmap Z mproc) : list Z :=
  flat_map (λ p, match t !! p with Some r => [mp_pid r; mp_procgrp r] | None => [] end) (zrange 0 NR_PROCS).

Lemma candidate_eq pid j : pid_ok pid → candidate pid j = 2 + (pid - 2 + Z.of_nat j) mod (NR_PIDS - 1).
Proof.
  unfold pid_ok, INIT_PID, NR_PIDS. intros H. induction j as [|j IH].
  - cbn. rewrite Z.add_0_r, Z.mod_small; lia.
  - change (candidate pid (Datatypes.S j)) with (bump_pid (candidate pid j)). rewrite IH. unfold bump_pid, NR_PIDS, INIT_PID.
    assert (E : pid - 2 + Z.of_nat (Datatypes.S j) = pid - 2 + Z.of_nat j + 1) by lia. rewrite E.
    generalize (pid - 2 + Z.of_nat j). intros x. case_match; Z.div_mod_to_equations; lia.
Qed.
Lemma candidate_ok pid j : pid_ok pid → pid_ok (candidate pid j).
Proof. intros H. rewrite candidate_eq by done. unfold pid_ok, INIT_PID, NR_PIDS in *. Z.div_mod_to_equations; lia. Qed.
Lemma candidate_inj pid i j : pid_ok pid → Z.of_nat i < NR_PIDS - 1 → Z.of_nat j < NR_PIDS - 1 →
  candidate pid i = candidate pid j → i = j.
Proof.
  intros H Hi Hj. rewrite !candidate_eq by done. unfold pid_ok, INIT_PID, NR_PIDS in *. intros E. Z.div_mod_to_equations. lia.
Qed.
Lemma taken_in pid t : pid_taken pid t = true → pid ∈ in_use_pids t.
Proof.
  unfold pid_taken, in_use_pids. intros [p [Hp H]]%existsb_exists. apply list_elem_of_In, in_flat_map. exists p.
  split; [done|]. destruct (t !! p) as [r|]; [|done]. apply orb_true_iff in H as [->%Z.eqb_eq | ->%Z.eqb_eq]; [by left|right; by left].
Qed.
Lemma in_use_length t : (length (in_use_pids t) ≤ 200)%nat.
Proof.
  unfold in_use_pids. change 200%nat with (2 * length (zrange 0 NR_PROCS))%nat. induction (zrange 0 NR_PROCS) as [|p l IH]; [done|].
  cbn [flat_map length]. rewrite length_app. destruct (t !! p); cbn [length]; lia.
Qed.

Lemma some_candidate_free pid t : pid_ok pid → ∃ j, (j < pid_fuel)%nat ∧ pid_taken (candidate pid (Datatypes.S j)) t = false.
Proof.
  intros H. destruct (decide (Forall (λ j, pid_taken (candidate pid (Datatypes.S j)) t = true) (seq 0 pid_fuel))) as [Ha|Hn].
  - exfalso. set (l := (λ j, candidate pid (Datatypes.S j)) <$> seq 0 pid_fuel).
    assert (Hl : (length l ≤ length (in_use_pids t))%nat).
    { apply submseteq_length, NoDup_submseteq.
      - apply NoDup_fmap_2_strong; [|apply NoDup_seq]. intros i j Hi%elem_of_seq Hj%elem_of_seq E.
        unfold pid_fuel in *. apply candidate_inj in E; [lia|done|unfold NR_PIDS; lia..].
      - intros x (j & -> & Hj)%list_elem_of_fmap. apply taken_in. by eapply Forall_forall in Ha. }
    unfold l in Hl. rewrite length_fmap, length_seq in Hl. assert (Hu := in_use_length t). unfold pid_fuel in Hl. lia.
  - apply not_Forall_Exists, Exists_exists in Hn; [|apply _]. destruct Hn as (j & Hj%elem_of_seq & Ht). exists j.
    split; [lia|]. by apply not_true_is_false.
Qed.

Lemma pid_loop n s :
  match loop n pid_round tt s with
  | Ret pid s' => ∃ k, pid = candidate (next_pid s) (Datatypes.S k) ∧ pid_taken pid (mprocs s) = false ∧
      (∀ j, (j < k)%nat → pid_taken (candidate (next_pid s) (Datatypes.S j)) (mprocs s) = true) ∧ s' = s.[next_pid := pid]
  | Crash => False
  | Spin => ∀ j, (j < n)%nat → pid_taken (candidate (next_pid s) (Datatypes.S j)) (mprocs s) = true
  end.
Proof.
  revert s. induction n as [|n IH]; intros s; [intros j Hj; lia|]. rewrite loop_S.
  assert (Hr : pid_round tt s = Ret (if pid_taken (bump_pid (next_pid s)) (mprocs s) then inl tt else inr (bump_pid (next_pid s)))
    (s.[next_pid := bump_pid (next_pid s)])) by reflexivity.
  rewrite Hr. clear Hr. destruct (pid_taken (bump_pid (next_pid s)) (mprocs s)) eqn:E.
  - specialize (IH (s.[next_pid := bump_pid (next_pid s)])).
    change (mprocs (s.[next_pid := ?x])) with (mprocs s) in IH. change (next_pid (s.[next_pid := ?x])) with x in IH.
    assert (Hc : ∀ j, candidate (bump_pid (next_pid s)) j = candidate (next_pid s) (Datatypes.S j)).
    { intros j. unfold candidate. by rewrite Nat.iter_succ_r. }
    destruct (loop n pid_round tt _) as [pid s'| |]; [|done|].
    + destruct IH as (k & -> & H1 & H2 & ->). exists (Datatypes.S k). split_and!; [apply Hc|exact H1| |done].
      intros [|j] Hj; [exact E|]. rewrite <-Hc. apply H2. lia.
    + intros [|j] Hj; [exact E|]. rewrite <-Hc. apply IH. lia.
  - exists 0%nat. split_and!; [done|done|intros j Hj; lia|done].
Qed.

(** C27. [get_free_pid] always returns, within [pid_fuel] rounds whatever is in the table: the
    pid is the first one after [next_pid], in circular order, that no slot has as its pid or
    as its process group; it lies between [INIT_PID + 1] and [NR_PIDS], and nothing but
    [next_pid] has changed. *)
Theorem get_free_pid_first s : pid_ok (next_pid s) →
  ∃ k, let pid := candidate (next_pid s) (Datatypes.S k) in
    get_free_pid s = Ret pid (s.[next_pid := pid]) ∧ pid_ok pid ∧
    (∀ p r, 0 ≤ p < NR_PROCS → mprocs s !! p = Some r → mp_pid r ≠ pid ∧ mp_procgrp r ≠ pid) ∧
    (∀ j, (j < k)%nat → ∃ p r, mprocs s !! p = Some r ∧
       (mp_pid r = candidate (next_pid s) (Datatypes.S j) ∨ mp_procgrp r = candidate (next_pid s) (Datatypes.S j))).
Proof.
  intros Hp. assert (H := pid_loop pid_fuel s). unfold get_free_pid. destruct (loop pid_fuel pid_round tt s) as [pid s'| |]; [|done|].
  - destruct H as (k & -> & Hf & Hb & ->). exists k. split_and!; [done|by apply candidate_ok| |].
    + intros p r Hr Hl. assert (Ht : ¬ (mp_pid r = candidate (next_pid s) (Datatypes.S k) ∨ mp_procgrp r = candidate (next_pid s) (Datatypes.S k)));
        [|split; intros E; apply Ht; auto]. intros E. rewrite <-not_true_iff_false in Hf. apply Hf, existsb_exists. exists p.
      split; [by apply list_elem_of_In, elem_of_zrange|]. rewrite Hl. apply orb_true_iff. by rewrite !Z.eqb_eq.
    + intros j Hj. apply Hb in Hj as [p [_ Ht]]%existsb_exists. destruct (mprocs s !! p) as [r|] eqn:E; [|done].
      exists p, r. split; [done|]. apply orb_true_iff in Ht. by rewrite !Z.eqb_eq in Ht.
  - destruct (some_candidate_free (next_pid s) (mprocs s) Hp) as (j & Hj & E). by rewrite H in E.
Qed.

(** ** Who may be signalled *)
Definition full_table (s : pms) : Prop := ∀ p, 0 ≤ p < NR_PROCS → is_Some (mprocs s !! p).
(** The slots that [f] holds of. *)
Definition slots_with (s : pms) (f : mproc → bool) (l : list Z) : list Z :=
  List.filter (λ p, match mprocs s !! p with Some r => f r | None => false end) l.

Section probe.
Context (kernel : list kcall → kcall → kreply).

Lemma probe_loop id sig s caller n p count e :
  full_table s → mprocs s !! mp s = Some caller → 0 ≤ p ≤ NR_PROCS → NR_PROCS - p < Z.of_nat n →
  (sig = 0 ∨ slots_with s (λ r, selected caller r id sig && may_signal caller r) (zrange 0 NR_PROCS) = []) →
  loop n (check_step (sig_proc kernel) id sig) (p, count, e) s =
  Ret (count + Z.of_nat (length (slots_with s (λ r, selected caller r id sig && may_signal caller r) (zrange p NR_PROCS))),
       match slots_with s (λ r, selected caller r id sig && negb (may_signal caller r)) (zrange p NR_PROCS) with [] => e | _ => EPERM end) s.
Proof.
  intros Hf Hc Hp Hn Hs. revert p count e Hp Hn. induction n as [|n IH]; intros p count e Hp Hn; [unfold NR_PROCS in *; lia|].
  rewrite loop_S. unfold check_step at 1. cbv beta iota. destruct (NR_PROCS <=? p) eqn:E.
  { apply Z.leb_le in E. rewrite (zrange_nil p) by lia. cbn. by rewrite Z.add_0_r. }
  apply Z.leb_gt in E. destruct (Hf p) as [r Hr]; [lia|].
  assert (Hg : ∀ q x, mprocs s !! q = Some x → getp q s = Ret x s) by (intros q x Hq; unfold getp; by rewrite Hq).
  erewrite bind_Ret; [|by apply Hg]. erewrite bind_Ret; [|reflexivity]. erewrite bind_Ret; [|by apply Hg].
  rewrite (zrange_cons p) by done. unfold slots_with. cbn [List.filter]. rewrite Hr.
  fold (slots_with s (λ r, selected caller r id sig && may_signal caller r) (zrange (p + 1) NR_PROCS)).
  fold (slots_with s (λ r, selected caller r id sig && negb (may_signal caller r)) (zrange (p + 1) NR_PROCS)).
  destruct (selected caller r id sig) eqn:Hsel; cbn [negb andb]; [|apply IH; lia].
  destruct (may_signal caller r) eqn:Hm; cbn [negb].
  - destruct Hs as [-> | Hs].
    + cbn [Z.eqb]. unfold ret. rewrite IH by lia. f_equal. f_equal. cbn [length]. lia.
    + exfalso. assert (Hin : In p []); [|done]. rewrite <-Hs. apply filter_In.
      split; [apply list_elem_of_In, elem_of_zrange; lia|]. by rewrite Hr, Hsel, Hm.
  - unfold ret. rewrite IH by lia. f_equal. f_equal. by by case_match.
Qed.

(** A signal harms nobody whom the caller may not signal: when no slot that the request
    selects belongs to a process that the caller may signal (its own user, or the caller
    is the superuser), [check_sig] returns and nothing at all has changed; so it does for
    signal 0, the probe.  The answer is OK when some selected process may be signalled, EPERM when there
    are only others, ESRCH when none is selected. *)
Theorem check_sig_probe id sig s caller :
  full_table s → mprocs s !! mp s = Some caller → alive caller = true →
  0 ≤ sig ≤ _NSIG → ¬ (id = INIT_PID ∧ sig = SIGKILL) →
  let may := slots_with s (λ r, selected caller r id sig && may_signal caller r) (zrange 0 NR_PROCS) in
  let others := slots_with s (λ r, selected caller r id sig && negb (may_signal caller r)) (zrange 0 NR_PROCS) in
  (sig = 0 ∨ may = []) →
  check_sig kernel id sig s = Ret (if decide (may = []) then (if decide (others = []) then ESRCH else EPERM) else OK) s.
Proof.
  intros Hf Hc Ha Hsig Hid may others Hs. unfold check_sig, check_sig_with.
  assert (E1 : (sig <? 0) || (_NSIG <? sig) = false) by (apply orb_false_iff; split; apply Z.ltb_ge; lia).
  assert (E2 : (id =? INIT_PID) && (sig =? SIGKILL) = false).
  { apply not_true_iff_false. by rewrite andb_true_iff, !Z.eqb_eq. }
  rewrite E1, E2. erewrite bind_Ret; [|apply (probe_loop id sig s caller); [done|done|done|done|done]]. fold may others.
  cbv beta iota. erewrite bind_Ret; [|reflexivity]. unfold getp at 1. erewrite bind_Ret; [|by rewrite Hc]. rewrite Ha.
  cbn [negb]. unfold ret. f_equal. destruct may as [|x may]; cbn [length].
  - rewrite decide_True by done. by destruct others.
  - rewrite decide_False by done. by destruct others.
Qed.
End probe.

(** ** SIGKILL

    No process but PM ignores, catches or blocks it, turns it into a message or blocks it
    while it handles a signal. *)
Definition no_kill (set : Z) : Prop := sigismember set SIGKILL = false.
Definition kill_ok (r : mproc) : Prop :=
  no_kill (mp_ignore r) ∧ no_kill (mp_catch r) ∧ no_kill (mp_sig2mess r) ∧ no_kill (mp_sigmask r) ∧
  Forall (λ a, no_kill (sa_mask a)) (mp_sigact r).
Definition kill_safe (s : pms) : Prop := ∀ p r, mprocs s !! p = Some r → p ≠ PM_PROC_NR → kill_ok r.
Definition keeps (s s' : pms) : Prop := kill_safe s → kill_safe s'.
#[export] Instance unarmed_preorder : PreOrder keeps.
Proof. split; [intros s H; exact H|]. intros s s1 s2 H1 H2 H. auto. Qed.


Lemma member_bit set n : 0 ≤ n ≤ _NSIG → sigismember set n = Z.testbit set n.
Proof.
  intros H. unfold sigismember, sigisvalid, _NSIG in *. rewrite (proj2 (Z.leb_le (u32 n) 23)).
  - apply band_shiftl. lia.
  - unfold u32. rewrite Z.mod_small; lia.
Qed.
Lemma no_kill_bit set : no_kill set ↔ Z.testbit set SIGKILL = false.
Proof. unfold no_kill. by rewrite member_bit. Qed.
Lemma no_kill_add set n : n ≠ SIGKILL → no_kill set → no_kill (sigaddset set n).
Proof.
  rewrite !no_kill_bit. unfold sigaddset. intros Hn H. destruct (sigisvalid n); [|done].
  rewrite Z.lor_spec, H, Z.shiftl_spec by done. cbn [orb]. change 1 with (2 ^ 0). apply Z.pow2_bits_false. lia.
Qed.
Lemma no_kill_del set n : no_kill set → no_kill (sigdelset set n).
Proof.
  rewrite !no_kill_bit. unfold sigdelset, bclr. intros H. destruct (sigisvalid n); [|done]. by rewrite Z.land_spec, H.
Qed.
Lemma no_kill_deleted set : no_kill (sigdelset set SIGKILL).
Proof. rewrite no_kill_bit. unfold sigdelset, bclr. change (sigisvalid SIGKILL) with true. cbv iota. rewrite Z.land_spec, Z.lnot_spec by done. apply andb_false_r. Qed.
Lemma no_kill_lor a b : no_kill a → no_kill b → no_kill (Z.lor a b).
Proof. rewrite !no_kill_bit. intros H1 H2. by rewrite Z.lor_spec, H1, H2. Qed.
Lemma no_kill_block set mask l : no_kill set → no_kill mask →
  no_kill (foldl (λ mask i, if sigismember set i then sigaddset mask i else mask) mask l).
Proof.
  intros Hs. revert mask. induction l as [|i l IH]; intros mask Hm; [done|]. cbn. apply IH. destruct (sigismember set i) eqn:E; [|done].
  apply no_kill_add; [|done]. intros ->. by rewrite Hs in E.
Qed.
Lemma no_kill_unblock set mask l : no_kill mask →
  no_kill (foldl (λ mask i, if sigismember set i then sigdelset mask i else mask) mask l).
Proof.
  revert mask. induction l as [|i l IH]; intros mask Hm; [done|]. cbn. apply IH. destruct (sigismember set i); [by apply no_kill_del|done].
Qed.
#[export] Hint Resolve no_kill_del no_kill_deleted no_kill_lor : mh.

Lemma unarmed_modify f : (∀ s, mprocs (f s) = mprocs s) → pres keeps (modify f).
Proof. intros H. apply pres_modify. intros s Hs p r. rewrite H. apply Hs. Qed.
Lemma unarmed_putp p g : (p ≠ PM_PROC_NR → ∀ r, kill_ok r → kill_ok (g r)) → pres keeps (putp p g).
Proof.
  intros Hg s a s' (r & Hr & Hm & _)%tree_putp Hs q x Hq Hn. rewrite Hm in Hq.
  destruct (decide (q = p)) as [->|Hne]; [|rewrite lookup_insert_ne in Hq by done; by eapply Hs].
  rewrite lookup_insert_eq in Hq. injection Hq as <-. apply Hg; [done|]. by eapply Hs.
Qed.
Lemma unarmed_same {A} (m : P A) : (∀ s a s', m s = Ret a s' → mprocs s' = mprocs s) → pres keeps m.
Proof. intros H s a s' Hm Hs p r. rewrite (H _ _ _ Hm). apply Hs. Qed.
Lemma unarmed_getp p : pres keeps (getp p).
Proof. apply unarmed_same. by intros s a s' [-> _]%getp_ret. Qed.
Lemma unarmed_gett t : pres keeps (gett t).
Proof. apply unarmed_same. apply gett_mprocs. Qed.
Lemma unarmed_putt t f : pres keeps (putt t f).
Proof. apply unarmed_same. apply putt_mprocs. Qed.
Lemma unarmed_mem {A} (m : M pmstate A) : pres keeps (mem m).
Proof. apply unarmed_same. intros s a s'. unfold mem. case_match; [|done..]. by intros [= _ <-]. Qed.
#[export] Hint Resolve unarmed_getp unarmed_gett unarmed_putt unarmed_mem unarmed_preorder : pres.
#[export] Hint Extern 1 (pres keeps (modify _)) => (apply unarmed_modify; intros; reflexivity) : pres.
#[export] Hint Extern 1 (pres keeps (putp _ _)) =>
  (apply unarmed_putp; let H := fresh in intros _ ? H; exact H) : pres.
#[export] Hint Extern 1 (pres keeps (set_flags _ _)) => (unfold set_flags) : pres.
#[export] Hint Extern 1 (pres keeps (clr_flags _ _)) => (unfold clr_flags) : pres.

Section kills.
Context (kernel : list kcall → kcall → kreply) (layout : Z → pms → list Z).

Lemma unarmed_call c : pres keeps (call kernel c).
Proof. apply unarmed_same. by intros s a s' [= _ <-]. Qed.
Hint Resolve unarmed_call : pres.
Lemma unarmed_must c : pres keeps (must kernel c).
Proof. unfold must. presto. Qed.
Hint Resolve unarmed_must : pres.
Lemma unarmed_stack_ptr e : pres keeps (get_stack_ptr kernel e).
Proof. unfold get_stack_ptr. presto. Qed.
Lemma unarmed_isokendpt e : pres keeps (pm_isokendpt kernel e).
Proof. unfold pm_isokendpt. presto. Qed.
Lemma unarmed_tell_fs w a b c : pres keeps (tell_fs kernel w a b c).
Proof. unfold tell_fs. presto. Qed.
Lemma unarmed_setreply p r : pres keeps (setreply p r).
Proof. unfold setreply. presto. Qed.
Hint Resolve unarmed_stack_ptr unarmed_isokendpt unarmed_tell_fs unarmed_setreply : pres.
Lemma unarmed_set_timer p t w a : pres keeps (pm_set_timer kernel p t w a).
Proof. unfold pm_set_timer, tmrs_settimer, tmrs_clrtimer, set_scan, clr_scan, head_time, tload, tstore. presto. Qed.
Lemma unarmed_cancel p : pres keeps (pm_cancel_timer kernel p).
Proof. unfold pm_cancel_timer, tmrs_clrtimer, clr_scan, head_time, tload, tstore. presto. Qed.
Hint Resolve unarmed_set_timer unarmed_cancel : pres.
Lemma unarmed_set_alarm e sec : pres keeps (set_alarm kernel e sec).
Proof. unfold set_alarm. presto. Qed.
Lemma unarmed_find_share p i d c : pres keeps (find_share p i d c).
Proof. unfold find_share. presto. Qed.
Lemma unarmed_rw_seg rw fd e seg n : pres keeps (rw_seg kernel rw fd e seg n).
Proof. unfold rw_seg, seg_step. presto. Qed.
Lemma unarmed_adjust p d sp : pres keeps (adjust kernel p d sp).
Proof. unfold adjust. presto. Qed.
Lemma unarmed_unpause p : pres keeps (unpause kernel p).
Proof. unfold unpause. presto. Qed.
Lemma unarmed_stop p sig : pres keeps (stop_proc kernel p sig).
Proof. unfold stop_proc. presto. Qed.
Hint Resolve unarmed_set_alarm unarmed_find_share unarmed_rw_seg unarmed_adjust unarmed_unpause unarmed_stop : pres.
Lemma unarmed_dump p : pres keeps (dump_core kernel p).
Proof. unfold dump_core, trace_step. presto. Qed.
Hint Resolve unarmed_dump : pres.
(** The rest of a run keeps it. *)
Ltac keep_rest H :=
  lazymatch type of H with
  | ?m ?s = Ret ?a ?s' => change (keeps s s'); refine ((_ : pres keeps m) s a s' H); presto
  end.

Lemma catching_ok sig a r : sig ≠ SIGKILL → no_kill (sa_mask a) → kill_ok r → kill_ok (catching sig a r).
Proof.
  intros Hn Ha (H1 & H2 & H3 & H4 & H5).
  assert (Hm : no_kill (if band (sa_flags a) SA_NODEFER then sigdelset (Z.lor (mp_sigmask r) (sa_mask a)) sig
    else sigaddset (Z.lor (mp_sigmask r) (sa_mask a)) sig)).
  { destruct (band _ _); [by apply no_kill_del, no_kill_lor|by apply no_kill_add; [|apply no_kill_lor]]. }
  unfold catching. destruct (band (sa_flags a) SA_RESETHAND); split_and!; try done.
  - by apply no_kill_del.
  - by apply Forall_insert.
Qed.
Lemma unarmed_catch p sig a : (p ≠ PM_PROC_NR → sig ≠ SIGKILL ∧ no_kill (sa_mask a)) → pres keeps (catch_signal kernel p sig a).
Proof.
  intros H. assert (Hc : pres keeps (putp p (catching sig a))).
  { apply unarmed_putp. intros Hp r. destruct (H Hp). by apply catching_ok. }
  unfold catch_signal. presto.
Qed.
Lemma unarmed_release p st : pres keeps (exit_release kernel p st).
Proof. unfold exit_release. presto. Qed.
Lemma unarmed_cleanup c : pres keeps (cleanup c).
Proof. unfold cleanup. presto. Qed.
Hint Resolve unarmed_release unarmed_cleanup : pres.
Lemma unarmed_disinherit p q : pres keeps (disinherit p q).
Proof. unfold disinherit. presto. Qed.
Hint Resolve unarmed_disinherit : pres.

Lemma unarmed_sig_with ex p sig : (∀ p x, pres keeps (ex p x)) → pres keeps (sig_proc_with kernel ex p sig).
Proof.
  intros He s a s' H. assert (Ht : pres keeps (terminate_with kernel ex p sig)) by (unfold terminate_with; presto).
  unfold sig_proc_with in H. minv H. apply getp_ret in H0 as [-> Hr].
  destruct (negb (alive a0)); [done|]. destruct (_ && _); [keep_rest H|].
  destruct (sigismember (mp_ignore a0) sig); [by injection H as _ <-|]. destruct (sigismember (mp_sigmask a0) sig).
  { revert H. apply unarmed_putp. intros Hp r (K1 & K2 & K3 & K4 & K5). by split_and!. }
  minv H. destruct (aget (mp_sigact a0) sig) as [x|] eqn:Ex; [|done]. injection H0 as <- <-.
  destruct (sigismember (mp_catch a0) sig) eqn:Em; [|keep_rest H]. minv H. intros Hs.
  assert (Hc : pres keeps (catch_signal kernel p sig x)).
  { apply unarmed_catch. intros Hp. destruct (Hs p a0 Hr Hp) as (_ & K2 & _ & _ & K5). split; [by intros ->; rewrite K2 in Em|].
    unfold aget in Ex. destruct (0 <=? sig); [|done]. by eapply Forall_lookup in K5. }
  apply Hc in H0. apply H0 in Hs. revert Hs. keep_rest H.
Qed.
Lemma unarmed_check_with sp id sig : (∀ p x, pres keeps (sp p x)) → pres keeps (check_sig_with sp id sig).
Proof. intros H. unfold check_sig_with, check_step. presto. Qed.
Lemma unarmed_exit_n n p x : pres keeps (pm_exit_n kernel (λ _ _, spin) n p x).
Proof.
  revert p x. induction n as [|n IH]; intros p x; [apply pres_spin|]. cbn [pm_exit_n].
  assert (Hs : ∀ q y, pres keeps (sig_proc_with kernel (pm_exit_n kernel (λ _ _, spin) n) q y)) by (intros; by apply unarmed_sig_with).
  assert (Hc : ∀ q y, pres keeps (check_sig_with (sig_proc_with kernel (pm_exit_n kernel (λ _ _, spin) n)) q y)) by (intros; by apply unarmed_check_with).
  unfold pm_exit_with. presto.
Qed.
Lemma unarmed_exit p x : pres keeps (pm_exit kernel p x).
Proof. exact (unarmed_exit_n proc_fuel p x). Qed.
#[local] Opaque pm_exit.
Lemma unarmed_sig_proc p x : pres keeps (sig_proc kernel p x).
Proof. apply unarmed_sig_with, unarmed_exit. Qed.
Lemma unarmed_check_sig id sig : pres keeps (check_sig kernel id sig).
Proof. apply unarmed_check_with, unarmed_sig_proc. Qed.
Hint Resolve unarmed_exit unarmed_sig_proc unarmed_check_sig : pres.

Lemma unarmed_pending p : pres keeps (check_pending kernel p).
Proof. unfold check_pending. presto. Qed.
Hint Resolve unarmed_pending : pres.
Lemma set_action_ok n h r : n ≠ SIGKILL → kill_ok r → kill_ok (set_action n h r).
Proof.
  intros Hn (H1 & H2 & H3 & H4 & H5). unfold set_action.
  repeat case_match; split_and!; cbn; auto using no_kill_del, no_kill_add.
Qed.
Lemma unarmed_sigaction : pres keeps (do_sigaction kernel).
Proof.
  intros s a s' H. unfold do_sigaction in H. minv H. injection H0 as <- <-. cbv zeta in H.
  destruct (m_w1 (m_in s) =? SIGKILL) eqn:Hk; [by injection H as _ <-|]. apply Z.eqb_neq in Hk.
  assert (H1 : ∀ p h, pres keeps (putp p (set_action (m_w1 (m_in s)) h))).
  { intros. apply unarmed_putp. intros _ r. by apply set_action_ok. }
  assert (H2 : ∀ p c z, pres keeps (putp p (λ r, r
    .[mp_sigact := <[Z.to_nat (m_w1 (m_in s)) := SigAction (out c 0) (sigdelset (u32 (out c 1)) SIGKILL) (out c 2)]> (mp_sigact r)]
    .[mp_sigreturn := z]))).
  { intros. apply unarmed_putp. intros _ r (K1 & K2 & K3 & K4 & K5). split_and!; [done..|]. apply Forall_insert; [done|]. apply no_kill_deleted. }
  keep_rest H.
Qed.
Lemma unarmed_mask p g : (∀ r, no_kill (mp_sigmask r) → no_kill (g r)) → pres keeps (putp p (λ r, r.[mp_sigmask := g r])).
Proof. intros Hg. apply unarmed_putp. intros _ r (K1 & K2 & K3 & K4 & K5). split_and!; [done..| |done]. by apply Hg. Qed.
Lemma unarmed_sigprocmask : pres keeps (do_sigprocmask kernel).
Proof.
  assert (H1 : ∀ p set l, no_kill set → pres keeps (putp p (λ r, r.[mp_sigmask :=
    foldl (λ mask i, if sigismember set i then sigaddset mask i else mask) (mp_sigmask r) l]))).
  { intros p set l Hs. apply unarmed_mask. intros r Hr. by apply no_kill_block. }
  assert (H2 : ∀ p set l, pres keeps (putp p (λ r, r.[mp_sigmask :=
    foldl (λ mask i, if sigismember set i then sigdelset mask i else mask) (mp_sigmask r) l]))).
  { intros p set l. apply unarmed_mask. intros r Hr. by apply no_kill_unblock. }
  assert (H3 : ∀ set, no_kill (sigdelset (sigdelset set SIGKILL) SIGSTOP)) by (intros; apply no_kill_del, no_kill_deleted).
  assert (H4 : ∀ p set, pres keeps (putp p (λ r, r.[mp_sigmask := sigdelset (sigdelset set SIGKILL) SIGSTOP]))).
  { intros p set. apply unarmed_mask. intros r _. apply H3. }
  unfold do_sigprocmask. presto.
Qed.
Lemma unarmed_sigsuspend : pres keeps (do_sigsuspend kernel).
Proof.
  assert (H : ∀ p set, pres keeps (putp p (λ r, r.[mp_sigmask2 := mp_sigmask r].[mp_sigmask := sigdelset set SIGKILL]))).
  { intros p set. apply unarmed_putp. intros _ r (K1 & K2 & K3 & K4 & K5). split_and!; [done..| |done]. apply no_kill_deleted. }
  unfold do_sigsuspend. presto.
Qed.
Lemma unarmed_sigreturn : pres keeps (do_sigreturn kernel).
Proof.
  assert (H : ∀ p set, pres keeps (putp p (λ r, r.[mp_sigmask := sigdelset set SIGKILL]))).
  { intros p set. apply unarmed_mask. intros r _. apply no_kill_deleted. }
  unfold do_sigreturn. presto.
Qed.
Lemma unarmed_kill : pres keeps (do_kill kernel).
Proof. unfold do_kill. presto. Qed.
Lemma unarmed_ksig : pres keeps (ksig_pending kernel).
Proof. unfold ksig_pending, ksig_round, handle_ksig. presto. Qed.
Lemma unarmed_expire now : pres keeps (pm_expire_timers kernel now).
Proof. unfold pm_expire_timers, tmrs_exptimers, exp_step, head_time, tload, tstore, run_watchdog, cause_sigalrm. presto. Qed.
Lemma unarmed_getset : pres keeps (do_getset kernel).
Proof.
  assert (Hu : ∀ p u b, pres keeps (putp p (λ r, set_uid r u b))) by (intros; apply unarmed_putp; intros _ r K; destruct b; exact K).
  assert (Hg : ∀ p u b, pres keeps (putp p (λ r, set_gid r u b))) by (intros; apply unarmed_putp; intros _ r K; destruct b; exact K).
  unfold do_getset, reply. presto.
Qed.
Lemma unarmed_times : pres keeps (do_times kernel).
Proof. unfold do_times, reply. presto. Qed.
Lemma unarmed_stime : pres keeps (do_stime kernel).
Proof. unfold do_stime. presto. Qed.
Lemma unarmed_time : pres keeps (do_time kernel).
Proof. unfold do_time, reply. presto. Qed.
Lemma unarmed_reboot : pres keeps (do_reboot kernel).
Proof. unfold do_reboot. presto. Qed.
Lemma unarmed_procnr : pres keeps (do_getprocnr kernel).
Proof. unfold do_getprocnr, reply. presto. Qed.
Lemma unarmed_find_param name : pres keeps (find_param name).
Proof. unfold find_param, param_step. presto. Qed.
Hint Resolve unarmed_find_param : pres.
Lemma unarmed_svrctl : pres keeps (do_svrctl kernel).
Proof. unfold do_svrctl. presto. destruct (_ =? MMSETPARAM); unfold set_param, get_param, fetch; presto. Qed.
Lemma unarmed_from_pid pid : pres keeps (proc_from_pid pid).
Proof. unfold proc_from_pid. presto. Qed.
Hint Resolve unarmed_from_pid : pres.
Lemma unarmed_vmmreq : pres keeps (do_vmmreq kernel).
Proof. unfold do_vmmreq, vmm_load, vmm_kill, reply. presto. Qed.
Lemma unarmed_priority : pres keeps (do_getsetpriority kernel).
Proof. unfold do_getsetpriority. presto. Qed.
Lemma unarmed_sysinfo : pres keeps (do_getsysinfo kernel layout).
Proof. unfold do_getsysinfo. presto. Qed.
Lemma unarmed_procstat : pres keeps do_procstat.
Proof. unfold do_procstat, reply. presto. Qed.
Lemma unarmed_allocmem : pres keeps do_allocmem.
Proof. unfold do_allocmem, reply. presto. Qed.
Lemma unarmed_freemem : pres keeps do_freemem.
Proof. unfold do_freemem. presto. Qed.
Lemma unarmed_brk : pres keeps (do_brk kernel).
Proof. unfold do_brk. presto. Qed.
Lemma unarmed_alarm : pres keeps (do_alarm kernel).
Proof. unfold do_alarm. presto. Qed.
Lemma unarmed_sep : pres keeps (do_getsep kernel).
Proof. unfold do_getsep. presto. Qed.
Lemma unarmed_sigpending : pres keeps do_sigpending.
Proof. unfold do_sigpending. presto. Qed.
Lemma unarmed_pause : pres keeps do_pause.
Proof. unfold do_pause. presto. Qed.
Lemma unarmed_vmid : pres keeps do_getvmid.
Proof. unfold do_getvmid. presto. Qed.
Lemma unarmed_waitpid : pres keeps do_waitpid.
Proof. unfold do_waitpid, wait_step. presto. Qed.
Lemma unarmed_do_exit : pres keeps (do_pm_exit kernel).
Proof. unfold do_pm_exit. presto. Qed.
Lemma unarmed_trace : pres keeps (do_trace kernel).
Proof. unfold do_trace, find_proc, trace_passed. presto. Qed.

Lemma unarmed_insert f n a r : pres keeps (insert_arg f n a r).
Proof. unfold insert_arg. presto. Qed.
Hint Resolve unarmed_insert : pres.
Lemma unarmed_words n l f k i : pres keeps (insert_words n l f k i).
Proof. revert l f k i. induction n as [|n IH]; intros l f k i; cbn [insert_words]; presto. Qed.
Hint Resolve unarmed_words : pres.
Lemma unarmed_open name n : pres keeps (open_file kernel name n).
Proof. unfold open_file, allowed, read_header. presto. Qed.
Hint Resolve unarmed_open : pres.
Lemma unarmed_image name f n : pres keeps (open_image kernel name f n).
Proof. unfold open_image, patch_stack. presto. Qed.
Lemma unarmed_new_mem sh t d b k n : pres keeps (new_mem kernel sh t d b k n).
Proof.
  assert (Hi : ∀ p m t d g st a, pres keeps (putp p (image_map m t d g st a))) by (intros; apply unarmed_putp; intros _ r K; exact K).
  unfold new_mem. presto.
Qed.
Lemma unarmed_ids st : pres keeps (set_ids kernel st).
Proof. unfold set_ids. presto. Qed.
Hint Resolve unarmed_image unarmed_new_mem unarmed_ids : pres.
Lemma reset_ok sn r : kill_ok r → kill_ok (reset_caught sn r).
Proof.
  intros (H1 & H2 & H3 & H4 & H5). unfold reset_caught. destruct (sigismember (mp_catch r) sn); [|by split_and!].
  split_and!; [done|by apply no_kill_del|done..|]. apply Forall_alter; [done|]. intros x _ _. done.
Qed.
Lemma unarmed_load v sh x : pres keeps (load_image kernel v sh x).
Proof.
  destruct x as [[[[[[[fd m] h] stack] n] st0] st] name].
  assert (H2 : ∀ p sn, pres keeps (putp p (reset_caught sn))) by (intros; apply unarmed_putp; intros _ r; apply reset_ok).
  assert (H3 : ∀ p l, pres keeps (putp p (set_name l))) by (intros; apply unarmed_putp; intros _ r K; exact K).
  unfold load_image. presto.
Qed.
Hint Resolve unarmed_load : pres.
Lemma unarmed_exec : pres keeps (do_exec kernel).
Proof. unfold do_exec. presto. Qed.

Lemma unarmed_free_pid : pres keeps get_free_pid.
Proof. unfold get_free_pid, pid_round. presto. Qed.
Lemma unarmed_slots n k : pres keeps (loop n slot_step k).
Proof. unfold slot_step. presto. Qed.
Hint Resolve unarmed_free_pid unarmed_slots : pres.
(** The child has the sets of its parent. *)
Lemma unarmed_fork s a s' : mp s ≠ PM_PROC_NR → do_fork kernel s = Ret a s' → keeps s s'.
Proof.
  intros Hn H Hs. revert Hs. unfold do_fork in H. minv H. injection H0 as <- <-. minv H. apply getp_ret in H0 as [-> Hr].
  intros Hs. specialize (Hs _ _ Hr Hn) as Hk. revert Hs.
  assert (Hf : ∀ p q b, pres keeps (putp p (λ _, fork_slot q b a0))).
  { intros. apply unarmed_putp. intros _ r _. unfold fork_slot. destruct (negb (band _ SEPARATE)); exact Hk. }
  keep_rest H.
Qed.

Hint Resolve unarmed_pending unarmed_sigaction unarmed_sigprocmask unarmed_sigsuspend unarmed_sigreturn unarmed_kill unarmed_ksig
  unarmed_expire unarmed_getset unarmed_times unarmed_stime unarmed_time unarmed_reboot unarmed_procnr unarmed_svrctl
  unarmed_vmmreq unarmed_priority unarmed_sysinfo unarmed_procstat unarmed_allocmem unarmed_freemem unarmed_brk unarmed_alarm
  unarmed_sep unarmed_sigpending unarmed_pause unarmed_vmid unarmed_exec unarmed_waitpid unarmed_do_exit unarmed_trace : pres.
Lemma unarmed_call_vec nr : nr ≠ FORK → pres keeps (call_vec kernel layout nr).
Proof. intros H. unfold call_vec, no_sys. repeat case_match; try (by subst); presto. Qed.

(** C24. No process but PM can arm itself against SIGKILL: a round of the main loop keeps it
    out of the sets of ignored, caught, blocked and redirected signals and out of the
    masks of the handlers of every process, whatever a process asks for ([sigaction],
    [sigprocmask], [sigsuspend], [sigreturn], [exec]) and whatever a child inherits.  (Before a
    signal gets that far, [check_sig] passes over the processes with VM_PROC.) *)
Theorem kill_safe_kept m s s' : in_table s → sender_ok s m → ENDPOINT_P (m_source m) ≠ PM_PROC_NR →
  kill_safe s → pm_round kernel layout m s = Ret tt s' → kill_safe s'.
Proof.
  intros Hi Hs Hn Hk H. unfold pm_round in H. minv H. apply get_work_gives in H0 as W. destruct W as (_ & Gc & _ & Gm).
  assert (K0 : keeps s s0) by (unfold get_work in H0; keep_rest H0). minv H.
  assert (K1 : keeps s0 s1).
  { unfold pm_dispatch in H1. minv H1. injection H2 as <- <-. destruct (call_nr s0 =? SYN_ALARM); [keep_rest H1|].
    destruct (call_nr s0 =? SYS_SIG); [keep_rest H1|]. destruct (NCALLS <=? u32 (call_nr s0)) eqn:E; [by injection H1 as _ <-|].
    destruct (decide (call_nr s0 = FORK)) as [F|F]; [|eapply unarmed_call_vec; [exact F|exact H1]]. rewrite F in H1.
    eapply unarmed_fork; [|exact H1]. rewrite Gm. apply Z.leb_gt in E. rewrite Gc in E.
    destruct Hs as [Hs|(r & Hr & _)]; [lia|]. destruct (Hi (ENDPOINT_P (m_source m))) as [Hp _]; [by eexists|].
    apply Z.ltb_ge in Hp. by rewrite Hp. }
  assert (K2 : keeps s1 s') by (unfold send_reply in H; keep_rest H). auto.
Qed.

End kills.

Section ends.
Context (kernel : list kcall → kcall → kreply).
Lemma exit_dead ex ck p x s a s' : (∀ q y, pres fewer (ck q y)) →
  pm_exit_with kernel (sig_proc_with kernel ex) ck p x s = Ret a s' → p ∉ lives s'.
Proof.
  intros Hck H. unfold pm_exit_with in H. do 5 minv H. cbv zeta in H. minv H. minv H.
  assert (Hd : p ∉ lives s5).
  { destruct (_ && _); [rewrite (cleanup_lives _ _ _ _ H5); set_solver|]. minv H5. apply zombify_lives in H7.
    apply skel_sig_ignored in H5; [|reflexivity]. apply same_skel_tree, lives_tree in H5. rewrite H5, H7. set_solver. }
  assert (Hf : fewer s5 s'); [|by intros Hl%Hf].
  assert (F1 : fewer s5 s6) by (revert H6; apply (pres_for_list fewer); intros; presto). etransitivity; [exact F1|].
  revert H. match goal with |- ?m _ = _ → _ => assert (Hm : pres fewer m) by presto end. apply Hm.
Qed.

Lemma exit_n_dead n p x s a s' : pm_exit_n kernel (λ _ _, spin) n p x s = Ret a s' → p ∉ lives s'.
Proof.
  destruct n as [|n]; [done|]. cbn [pm_exit_n]. apply exit_dead. intros q y. apply check_fewer. intros. apply sig_fewer. intros.
  apply exit_fewer. intros. presto.
Qed.
#[local] Transparent pm_exit.
Lemma pm_exit_dead p x s a s' : pm_exit kernel p x s = Ret a s' → p ∉ lives s'.
Proof. exact (exit_n_dead proc_fuel p x s a s'). Qed.
#[local] Opaque pm_exit.

(** C25. SIGKILL ends: in a state where no process but PM is armed against it ([kill_safe]), the
    live process that [sig_proc] delivers it to, PM excepted, is dead when [sig_proc] returns, traced
    or stopped, a system process or not.  ([check_sig], which [kill] goes through, delivers no signal
    to a process with VM_PROC.) *)
Theorem kill_ends p s s' : kill_safe s → p ≠ PM_PROC_NR → sig_proc kernel p SIGKILL s = Ret tt s' → p ∈ lives s ∧ p ∉ lives s'.
Proof.
  intros Hs Hp H. unfold sig_proc, sig_proc_with in H. minv H. apply getp_ret in H0 as [-> Hr].
  destruct (Hs _ _ Hr Hp) as (K1 & K2 & K3 & K4 & _). unfold no_kill in *.
  destruct (alive a) eqn:Ha; [|done]. split; [apply elem_of_lives; by exists a|]. cbn [negb] in H.
  rewrite Z.eqb_refl, andb_false_r, K1, K4 in H. minv H. rewrite K2, K3 in H. unfold terminate_with in H.
  change (sigismember ign_sset SIGKILL) with false in H. cbv iota in H. minv H. minv H.
  by eapply pm_exit_dead.
Qed.
End ends.

(** ** Waiting for children *)
Definition child_of (parent pidarg : Z) (r : mproc) : bool :=
  band (mp_flags r) IN_USE && (mp_parent r =? parent) &&
  negb ((0 <? pidarg) && negb (pidarg =? mp_pid r)) && negb ((pidarg <? -1) && negb (- pidarg =? mp_procgrp r)).
(** It has exited, or the tracer has not been told that it is stopped. *)
Definition has_news (r : mproc) : bool :=
  band (mp_flags r) ZOMBIE || band (mp_flags r) STOPPED && negb (mp_sigstatus r =? 0).
Definition slot_is (s : pms) (f : mproc → bool) (p : Z) : bool := match mprocs s !! p with Some r => f r | None => false end.

(** What the parent gets of the child [p]. *)
Definition take_news (p : Z) (r : mproc) : P Z :=
  if band (mp_flags r) ZOMBIE then cleanup p;;; ret SUSPEND
  else
    let* s := get in
    putp (mp s) (λ q, q.[mp_reply := (mp_reply q).[m2_i1 := stop_status (mp_sigstatus r)]]);;;
    putp p (λ r, r.[mp_sigstatus := 0]);;;
    ret (mp_pid r).

Lemma wait_loop pidarg s n p children :
  full_table s → 0 ≤ p ≤ NR_PROCS → NR_PROCS - p < Z.of_nat n →
  loop n (wait_step pidarg) (p, children) s =
  match find (slot_is s (λ r, child_of (who_p s) pidarg r && has_news r)) (zrange p NR_PROCS) with
  | Some q => (let* r := getp q in let* x := take_news q r in ret (inl x)) s
  | None => Ret (inr (children + Z.of_nat (length (slots_with s (child_of (who_p s) pidarg) (zrange p NR_PROCS))))) s
  end.
Proof.
  intros Hf Hp Hn. revert p children Hp Hn. induction n as [|n IH]; intros p children Hp Hn; [unfold NR_PROCS in *; lia|].
  rewrite loop_S. unfold wait_step at 1. cbv beta iota. destruct (NR_PROCS <=? p) eqn:E.
  { apply Z.leb_le in E. rewrite (zrange_nil p) by lia. cbn. by rewrite Z.add_0_r. }
  apply Z.leb_gt in E. destruct (Hf p) as [r Hr]; [lia|].
  assert (Hg : getp p s = Ret r s) by (unfold getp; by rewrite Hr).
  rewrite (zrange_cons p) by done. unfold slots_with. cbn [List.filter find].
  fold (slots_with s (child_of (who_p s) pidarg) (zrange (p + 1) NR_PROCS)). unfold slot_is at 1. rewrite Hr.
  erewrite bind_Ret; [|exact Hg]. erewrite bind_Ret; [|reflexivity]. unfold child_of at 1 3.
  destruct (band (mp_flags r) IN_USE && (mp_parent r =? who_p s)); cbn [negb andb]; [|unfold ret; apply IH; lia].
  destruct ((0 <? pidarg) && negb (pidarg =? mp_pid r)); cbn [negb andb]; [unfold ret; apply IH; lia|].
  destruct ((pidarg <? -1) && negb (- pidarg =? mp_procgrp r)); cbn [negb andb]; [unfold ret; apply IH; lia|].
  unfold has_news at 1. destruct (band (mp_flags r) ZOMBIE) eqn:Ez; cbn [orb].
  - erewrite (bind_Ret (getp p)); [|exact Hg]. unfold take_news. rewrite Ez. unfold bind, ret. by destruct (cleanup p s).
  - destruct (band (mp_flags r) STOPPED && negb (mp_sigstatus r =? 0)).
    + erewrite (bind_Ret (getp p)); [|exact Hg]. unfold take_news. rewrite Ez.
      unfold bind, ret, get. destruct (putp (mp s) _ s) as [u s1| |]; [|done..]. by destruct (putp p _ s1).
    + unfold ret. rewrite IH by lia. destruct (find _ _); [done|]. f_equal. f_equal. cbn [length]. lia.
Qed.

(** C26. [do_waitpid]: the first slot of a child of the caller that [pidarg] names (a pid, a group,
    0 for the caller's own group, -1 for any) and that has news, a zombie or a traced process
    that has stopped, is dealt with and no other; without news the call waits, or returns 0 at once
    with WNOHANG; without such a child it answers ECHILD and changes nothing. *)
Theorem do_waitpid_spec s r :
  full_table s → mprocs s !! mp s = Some r →
  let pidarg := if call_nr s =? WAIT then -1 else m1_i1 (m_in s) in
  let options := if call_nr s =? WAIT then 0 else m1_i2 (m_in s) in
  let pidarg := if pidarg =? 0 then - mp_procgrp r else pidarg in
  let child := child_of (who_p s) pidarg in
  do_waitpid s =
  match find (slot_is s (λ r, child r && has_news r)) (zrange 0 NR_PROCS) with
  | Some q => (let* r := getp q in take_news q r) s
  | None =>
      if existsb (slot_is s child) (zrange 0 NR_PROCS) then
        if band options WNOHANG then Ret 0 s
        else Ret SUSPEND (s.[mprocs := <[mp s := r.[mp_flags := Z.lor (mp_flags r) WAITING].[mp_wpid := pidarg]]> (mprocs s)])
      else Ret ECHILD s
  end.
Proof.
  intros Hf Hr pidarg options pidarg' child. unfold do_waitpid. erewrite bind_Ret; [|reflexivity].
  assert (Hg : getp (mp s) s = Ret r s) by (unfold getp; by rewrite Hr). erewrite bind_Ret; [|exact Hg].
  cbv zeta. fold pidarg. fold options. fold pidarg'. unfold bind at 1.
  rewrite (wait_loop pidarg' s proc_fuel 0 0 Hf); [|unfold NR_PROCS; lia|unfold NR_PROCS, proc_fuel; lia].
  fold child. destruct (find _ _) as [q|] eqn:Ef.
  - unfold bind, ret. destruct (getp q s) as [x s1| |]; [|done..]. by destruct (take_news q x s1).
  - assert (Hb : (0 <? 0 + Z.of_nat (length (slots_with s child (zrange 0 NR_PROCS)))) = existsb (slot_is s child) (zrange 0 NR_PROCS)).
    { unfold slots_with. fold (slot_is s child). generalize (zrange 0 NR_PROCS). intros l. induction l as [|x l IH]; [done|].
      cbn [List.filter existsb]. change (match mprocs s !! x with Some r => child r | None => false end) with (slot_is s child x).
      destruct (slot_is s child x); [done|exact IH]. }
    rewrite Hb. destruct (existsb _ _); [|done]. destruct (band options WNOHANG); [done|].
    unfold set_flags, putp, bind, ret. rewrite Hr. cbn. rewrite lookup_insert_eq. cbn. by rewrite insert_insert_eq.
Qed.

(** ** The machine of [PmTreeThms]: INIT, process 3 (pid 6) and its child 4 (pid 7) *)
Lemma full_check s : forallb (λ p, bool_decide (is_Some (mprocs s !! p))) (zrange 0 NR_PROCS) = true → full_table s.
Proof.
  intros H p Hp. apply (proj1 (forallb_forall _ _)) with (x := p) in H; [by apply bool_decide_eq_true in H|].
  by apply list_elem_of_In, elem_of_zrange.
Qed.
Definition kill_ok_b (r : mproc) : bool :=
  forallb (λ set, negb (sigismember set SIGKILL)) ([mp_ignore r; mp_catch r; mp_sig2mess r; mp_sigmask r] ++ map sa_mask (mp_sigact r)).
Lemma kill_check s : forallb (λ x, (x.1 =? PM_PROC_NR) || kill_ok_b x.2) (map_to_list (mprocs s)) = true → kill_safe s.
Proof.
  intros H p r Hr Hp. apply elem_of_map_to_list, list_elem_of_In in Hr. apply (proj1 (forallb_forall _ _)) with (x := (p, r)) in H; [|done].
  apply orb_true_iff in H as [H%Z.eqb_eq|H]; [done|]. unfold kill_ok_b in H. cbn [fst snd map app forallb] in H.
  rewrite !andb_true_iff, !negb_true_iff in H. destruct H as (H1 & H2 & H3 & H4 & H5). split_and!; [done..|].
  apply Forall_forall. intros a Ha%list_elem_of_In. apply (proj1 (forallb_forall _ _)) with (x := sa_mask a) in H5; [|by apply in_map].
  by apply negb_true_iff in H5.
Qed.

Lemma get_free_pid_first_witness : ∃ pid, get_free_pid booted = Ret pid (booted.[next_pid := pid]) ∧ pid_ok pid.
Proof.
  destruct (get_free_pid_first booted) as (k & H1 & H2 & _); [by vm_compute|].
  exists (candidate (next_pid booted) (Datatypes.S k)). exact (conj H1 H2).
Defined.

(** Process 4 is a user with uid 7 and asks for the end of process 3, of the superuser. *)
Definition user_s : pms :=
  child_s.[mprocs := alter (λ r, r.[mp_realuid := 7].[mp_effuid := 7]) 4 (mprocs child_s)].[mp := 4].
Definition user_r : mproc := default slot0 (mprocs user_s !! 4).
Lemma check_sig_probe_witness : check_sig demo_kernel 6 SIGKILL user_s = Ret EPERM user_s.
Proof.
  rewrite (check_sig_probe demo_kernel 6 SIGKILL user_s user_r).
  - reflexivity.
  - apply full_check. by vm_compute.
  - by vm_compute.
  - by vm_compute.
  - by vm_compute.
  - intros [? ?]. done.
  - right. by vm_compute.
Defined.

Definition kill_msg : message := Message INIT_PROC_NR 37 6 SIGKILL 0 0 0 0 0.
Lemma kill_safe_kept_witness : kill_safe (go kill_msg child_s).
Proof.
  apply (kill_safe_kept demo_kernel (λ _ _, []) kill_msg child_s).
  - apply table_check. by vm_compute.
  - apply sender_check. by vm_compute.
  - done.
  - apply kill_check. by vm_compute.
  - by vm_compute.
Defined.

Lemma kill_ends_witness : 3 ∈ lives child_s ∧ 3 ∉ lives (final (sig_proc demo_kernel 3 SIGKILL) child_s).
Proof.
  apply (kill_ends demo_kernel 3 child_s).
  - apply kill_check. by vm_compute.
  - done.
  - by vm_compute.
Defined.

(** INIT waits while process 3 is a zombie. *)
Definition wait_s : pms := orphan_s.[mp := INIT_PROC_NR].[who_p := INIT_PROC_NR].[call_nr := WAIT].
Definition init_r : mproc := default slot0 (mprocs wait_s !! INIT_PROC_NR).
Lemma do_waitpid_spec_witness : do_waitpid wait_s = (cleanup 3;;; ret SUSPEND) wait_s.
Proof.
  rewrite (do_waitpid_spec wait_s init_r).
  - by vm_compute.
  - apply full_check. by vm_compute.
  - by vm_compute.
Defined.
