(* ===== verification/VmServer.v ===== *)
(** * The virtual machine manager

    [src/servers/vmm] ([main.c], [table.c], [glo.h], [utility.c]): the table of virtual
    machines and the calls by which the loader and [vmmcmd] load, start and kill them.
    What the kernel, PM and the loader answer is an argument [world], as in the process
    manager; a copy out of the table carries the descriptors, [None] for one behind the
    table.  [uninit] is the value of a variable that was not set; the words of a message
    that are not set are zero.  [MHDBG] is defined ([config.h]), so the debugging output is
    compiled in: what is printed is left out, but the strings that are printed are read, and
    to read one that does not end within its array, or an element behind an array, is a crash.
    The unused [ds_publish_vm], [vmm_allowed], [vmm_read] and [vmm_tell_fs] are left out. *)
From stdpp Require Import base gmap list numbers strings.
From Stdlib Require Import ZArith Lia.
From S2P Require Import Prelude.
From S2P Require Import KTypes.

(** ** Constants ([vmachine.h], [com.h], [errno.h], [callnr.h]) *)
Definition VM_STOPPED : Z := 4.
Definition VM_SUSPENDED : Z := 8.
Definition VM_WAITING : Z := 16.
Definition VM_NAME_LEN : Z := 16.
Definition PRIO_PROCESS : Z := 0.
Definition ENAMETOOLONG : Z := -36.
Definition EPROXYSVR : Z := -404.
Definition VMM_RQ_BASE : Z := 0x900.
Definition VMM_NCALLS : Z := 13.
Definition VMM_START : Z := 0x902.
Definition VMMCMD : Z := 97.
Definition KILL : Z := 37.
Definition TTY_PROC_NR : Z := 5.
Definition SYS_GETVMID : Z := KERNEL_CALL + 31.
Definition SYS_VMMREQ : Z := KERNEL_CALL + 32.

Abbreviation m1_i1 := m_w0 (only parsing).
Abbreviation m1_i2 := m_w1 (only parsing).
Abbreviation m1_i3 := m_w2 (only parsing).
Abbreviation m1_p1 := m_w3 (only parsing).
Abbreviation m1_p2 := m_w4 (only parsing).
Abbreviation m1_p3 := m_w5 (only parsing).
(** A message of up to four words. *)
Definition msg1 (i1 i2 i3 p1 : Z) : message := Message 0 0 i1 i2 i3 p1 0 0 0.

(** ** Data *)
Set Primitive Projections.
(** [vmm_img] and [vmm_bootprocs] are the bytes copied from the loader. *)
Record vmm_desc_s := VmDesc {
  vmm_id : Z; vmm_flags : Z; vmm_nice : Z; vmm_endpoint : Z; vmm_pid : Z; vmm_size : Z;
  vmm_stkptr : Z; vmm_bsize : Z; vmm_tokens : Z; vmm_proc_utime : Z; vmm_proc_stime : Z;
  vmm_img : list Z; vmm_bootprocs : list Z; vmm_name : list Z }.

Inductive vcall :=
  | VSendrec (who : Z) (m : message)
  | VSend (e : Z) (m : message)
  | VReceive (e : Z)
  | VCopyIn (src_e src bytes : Z)
  | VCopyOut (dst_e dst : Z) (rows : list (option vmm_desc_s))
  | VHdebug (code : Z).

(** The result, the message that was received and the bytes that were copied. *)
Record vreply := VReply { v_res : Z; v_msg : message; v_data : list Z }.

(** The global variables, and the static [vm_name] of [do_vm_waitvm]. *)
Record vms := Vms {
  vmm_desc : gmap Z vmm_desc_s;
  m_in : message; m_out : message;
  who_e : Z; call_nr : Z; nbprocs : Z; send_result : bool;
  vm_name : list Z;
  calls : list vcall }.
Unset Primitive Projections.

#[export] Instance vmm_desc_s_eta : Eta vmm_desc_s := λ d,
  VmDesc (vmm_id d) (vmm_flags d) (vmm_nice d) (vmm_endpoint d) (vmm_pid d) (vmm_size d) (vmm_stkptr d)
    (vmm_bsize d) (vmm_tokens d) (vmm_proc_utime d) (vmm_proc_stime d) (vmm_img d) (vmm_bootprocs d) (vmm_name d).
#[export] Instance vms_eta : Eta vms := λ s,
  Vms (vmm_desc s) (m_in s) (m_out s) (who_e s) (call_nr s) (nbprocs s) (send_result s) (vm_name s) (calls s).

Abbreviation V := (M vms).

Definition getd (i : Z) : V vmm_desc_s := λ s, match vmm_desc s !! i with Some d => Ret d s | None => Crash end.
Definition putd (i : Z) (f : vmm_desc_s → vmm_desc_s) : V unit := λ s,
  match vmm_desc s !! i with
  | Some d => Ret tt (s.[vmm_desc := <[i := f d]> (vmm_desc s)])
  | None => Crash
  end.

(** ** Strings *)

(** [strcpy] of a literal, and [strncpy], which writes [n] characters. *)
Definition strcpy (src dst : list Z) : list Z := src ++ 0 :: drop (length src + 1) dst.
Definition strncpy (n : nat) (src dst : list Z) : list Z :=
  let chars := take n (c_str src) in chars ++ replicate (n - length chars) 0 ++ drop n dst.
(** A copy of [n] bytes over a buffer. *)
Definition overwrite (n : nat) (src dst : list Z) : list Z := take n (src ++ replicate n 0) ++ drop n dst.

(** [imginfo_t] ([vmimage.h], [image.h]): 2812 bytes, with the headers [hdr] of 112 bytes, each with
    its [name] first, and the entries [image] of 44 bytes with their [proc_name]. *)
Definition PROCESS_MAX : Z := 16.
Definition sizeof_imginfo : Z := 2812.
Definition hdr_name (i : Z) : nat := Z.to_nat (140 + 112 * i).
Definition image_proc_name (i : Z) : nat := Z.to_nat (1932 + 44 * i + 32).
(** The loops that print the names of the boot processes stay within the image. *)
Definition names_shown (n : Z) (img : list Z) : bool :=
  if PROCESS_MAX <? n then false
  else forallb (λ i, str_in img (hdr_name i) 64 && str_in img (image_proc_name (i + NR_TASKS - 1)) 8) (zrange 0 n).

Definition VM_FREE_NAME : list Z := [86; 77; 32; 70; 82; 69; 69].
Definition VM0_NAME : list Z := [86; 77; 48].

Section vmm.
(** [desc_addr i] is the address of [vmm_desc[i]]. *)
Context (world : list vcall → vcall → vreply) (uninit : vms → Z) (desc_addr : Z → Z).

Definition call (c : vcall) : V vreply := λ s, Ret (world (calls s) c) (s.[calls := c :: calls s]).

(** ** The library: [_taskcall], [_syscall], [kill] and the copies *)
Definition _taskcall (who nr : Z) (m : message) : V (Z * message) :=
  let m := m.[m_type := nr] in
  let* r := call (VSendrec who m) in
  ret (if negb (v_res r =? 0) then (v_res r, m) else (m_type (v_msg r), v_msg r)).

Definition _syscall (who nr : Z) (m : message) : V (Z * message) :=
  let m := m.[m_type := nr] in
  let* r := call (VSendrec who m) in
  let m := if negb (v_res r =? 0) then m.[m_type := v_res r] else v_msg r in
  ret (if m_type m <? 0 then -1 else m_type m, m).

Definition kill (pid sig : Z) : V unit := _syscall PM_PROC_NR KILL (msg1 pid sig 0 0);;; skip.

(** [sys_vircopy] and [sys_datacopy] into VMM: the result and the bytes. *)
Definition copy_in (src_e src bytes : Z) : V (Z * list Z) :=
  if u32 bytes =? 0 then ret (OK, [])
  else let* r := call (VCopyIn src_e src (u32 bytes)) in ret (v_res r, v_data r).

(** ** The table *)
Definition alloc_vmdesc : V Z :=
  let* s := get in
  ret (match find (λ i, match vmm_desc s !! i with Some d => vmm_flags d =? VM_FREE | None => false end) (zrange 1 NR_VMS) with
       | Some i => i | None => NR_VMS end).

Definition freed (vmid : Z) (d : vmm_desc_s) : vmm_desc_s :=
  d.[vmm_id := vmid].[vmm_flags := VM_FREE].[vmm_nice := PRIO_PROCESS].[vmm_endpoint := 0].[vmm_pid := 0]
   .[vmm_size := 0].[vmm_stkptr := 0].[vmm_proc_utime := 0].[vmm_proc_stime := 0].[vmm_tokens := 0]
   .[vmm_name := strcpy VM_FREE_NAME (vmm_name d)].
Definition free_vmdesc (vmid : Z) : V unit :=
  if (vmid <? 1) || (NR_VMS <=? vmid) then skip
  else
    let* d := getd vmid in
    putd VM0 (λ d0, d0.[vmm_tokens := s32 (vmm_tokens d0 + vmm_tokens d)]);;;
    putd vmid (freed vmid).

(** The slot that the search for [vmm_id = vmid] ends at, the last one when it fails. *)
Definition find_vm (vmid : Z) : V Z :=
  let* s := get in
  ret (match find (λ i, match vmm_desc s !! i with Some d => vmm_id d =? vmid | None => false end) (zrange 1 NR_VMS) with
       | Some i => i | None => NR_VMS - 1 end).

(** ** The calls *)
Definition do_vm_info : V Z :=
  for_list (zrange 0 NR_VMS) (λ i,
    let* d := getd i in
    if negb (vmm_flags d =? VM_FREE) && negb (str_in (vmm_name d) 0 (Z.to_nat VM_NAME_LEN)) then crash else skip);;;
  ret OK.
Definition do_vm_stop : V Z := ret OK.
Definition do_vm_suspend : V Z := ret OK.
Definition do_vm_resume : V Z := ret OK.
Definition do_vm_save : V Z := ret OK.
Definition do_vm_restore : V Z := ret OK.

Definition sizeof_bootprocs : Z := 20 * 16.

Definition do_vm_load : V Z :=
  let* vmid := alloc_vmdesc in
  if vmid =? NR_VMS then ret ENOMEM
  else
    let* s := get in
    let m := m_in s in
    let vmpid := m1_i2 m in
    modify (λ s, s.[nbprocs := m1_i3 m]);;;
    let* ' (rcode, r) := _syscall PM_PROC_NR VMMCMD (msg1 VMM_LOAD vmpid vmid 0) in
    if negb (rcode =? 0) then ret rcode
    else if negb (m1_i2 r =? who_e s) then ret EBADSRCDST
    else
      let vmloadep := m1_i2 r in
      let* ' (rcode, img) := copy_in vmloadep (m1_p2 m) sizeof_imginfo in
      if negb (rcode =? OK) then ret rcode
      else
        putd vmid (λ d, d.[vmm_img := overwrite (Z.to_nat sizeof_imginfo) img (vmm_img d)]);;;
        let* d := getd vmid in
        let* s := get in
        if negb (names_shown (nbprocs s) (vmm_img d)) then crash
        else
        let* ' (rcode, procs) := copy_in vmloadep (m1_p1 m) sizeof_bootprocs in
        if negb (rcode =? OK) then ret rcode
        else
          putd vmid (λ d, d.[vmm_bootprocs := overwrite (Z.to_nat sizeof_bootprocs) procs (vmm_bootprocs d)].[vmm_id := vmid].[vmm_flags := VM_LOADED].[vmm_endpoint := vmloadep]
                           .[vmm_pid := vmpid].[vmm_size := m1_i3 r].[vmm_stkptr := m1_p3 m]);;;
          let* ' (rcode, _) :=
            _taskcall SYSTEM SYS_VMMREQ
              (r.[m1_i1 := VMM_LOAD].[m1_i2 := vmid].[m1_i3 := m1_i3 m].[m1_p1 := desc_addr vmid]) in
          ret (if negb (rcode =? 0) then rcode else OK).

Definition do_vm_start : V Z :=
  let* s := get in
  let vmid := m1_i2 (m_in s) in
  let vm_tokens := m1_p1 (m_in s) in
  if (vmid <? 1) || (NR_VMS <=? vmid) then ret (uninit s)
  else
    let* d0 := getd VM0 in
    if (vm_tokens <=? 0) || (vmm_tokens d0 <? vm_tokens) then ret (uninit s)
    else
      let* d := getd vmid in
      if negb (vmm_flags d =? Z.lor VM_LOADED VM_WAITING) then ret (-1)
      else if negb (names_shown (nbprocs s) (vmm_img d)) then crash
      else
        let* ' (rcode, m) := _taskcall SYSTEM SYS_VMMREQ (msg1 VMM_START vmid vm_tokens 0) in
        if negb (rcode =? 0) then
          let* r := call (VSend (vmm_endpoint d) (m.[m_type := rcode])) in
          ret (v_res r)
        else
          call (VSend (vmm_endpoint d) (m.[m_type := vmid]));;;
          putd vmid (λ d, d.[vmm_flags := Z.lor VM_RUNNING VM_LOADED].[vmm_bsize := vm_tokens].[vmm_tokens := vm_tokens]);;;
          putd VM0 (λ d, d.[vmm_tokens := s32 (vmm_tokens d - vm_tokens)]);;;
          ret OK.

Definition do_vm_kill : V Z :=
  let* s := get in
  let vmid := m1_i2 (m_in s) in
  if (vmid <? 1) || (NR_VMS <=? vmid) then ret (uninit s)
  else
    let* i := find_vm vmid in
    let* d := getd i in
    if (vmm_flags d =? VM_RUNNING) || (vmm_flags d =? VM_FREE) then ret (-1)
    else
      let* ' (rcode, m) := _syscall PM_PROC_NR VMMCMD (msg1 VMM_KILL (vmm_endpoint d) 0 0) in
      if negb (rcode =? 0) then ret rcode
      else
        let* ' (rcode, _) := _taskcall SYSTEM SYS_VMMREQ (m.[m1_i1 := VMM_KILL].[m1_i2 := vmid]) in
        if negb (rcode =? 0) then ret rcode
        else
          let* d := getd vmid in
          kill (vmm_pid d) SIGKILL;;;
          free_vmdesc vmid;;;
          ret OK.

(** The descriptors from slot [i] on, [n] of them. *)
Definition rows (i n : Z) (s : vms) : list (option vmm_desc_s) := map (λ j, vmm_desc s !! j) (zrange i (i + n)).
Definition copy_rows (i n : Z) : V Z :=
  let* s := get in
  let* r := call (VCopyOut (who_e s) (m1_p1 (m_in s)) (rows i n s)) in
  ret (v_res r).
Definition do_vm_tabdmp : V Z := copy_rows 0 NR_VMS.
Definition do_vm_vmdmp : V Z :=
  let* s := get in
  let vmid := m1_i2 (m_in s) in
  if (vmid <? 0) || (NR_VMS <? vmid) then ret EINVAL else copy_rows vmid 1.

(** The first loaded VM of this loader that does not wait or run. *)
Definition loaded_by (pid : Z) (s : vms) : option Z :=
  find (λ i, match vmm_desc s !! i with Some d => (vmm_pid d =? pid) && (vmm_flags d =? VM_LOADED) | None => false end)
    (zrange 0 NR_VMS).

(** A copy or a [strncpy] past the end of its buffer is a crash. *)
Definition do_vm_waitvm : V Z :=
  let* s := get in
  let vm_pid := m1_i2 (m_in s) in
  let vm_namelen := m1_i3 (m_in s) in
  if VM_NAME_LEN - 1 <? vm_namelen then ret ENAMETOOLONG
  else
    let* ' (rcode, bytes) := copy_in (who_e s) (m1_p1 (m_in s)) (vm_namelen + 1) in
    if negb (rcode =? OK) then ret rcode
    else if 4 * VM_NAME_LEN <? u32 (vm_namelen + 1) then crash
    else
      modify (λ s, s.[vm_name := overwrite (Z.to_nat (vm_namelen + 1)) bytes (vm_name s)]);;;
      let* s := get in
      if negb (str_in (vm_name s) 0 (4 * Z.to_nat VM_NAME_LEN)) then crash
      else
      match loaded_by vm_pid s with
      | Some i =>
          modify (λ s, s.[send_result := false]);;;
          if VM_NAME_LEN <? u32 vm_namelen then crash
          else
            putd i (λ d, d.[vmm_flags := Z.lor (vmm_flags d) VM_WAITING]
                          .[vmm_name := strncpy (Z.to_nat vm_namelen) (vm_name s) (vmm_name d)]);;;
            ret OK
      | None => ret EPROXYSVR
      end.

Definition do_vm_proc : V Z :=
  let* s := get in
  let m := m_in s in
  if (m1_i2 m <? 1) || (NR_VMS <=? m1_i2 m) then ret (uninit s)
  else
    let* i := find_vm (m1_i2 m) in
    let* d := getd i in
    if negb (vmm_flags d =? Z.lor VM_LOADED VM_WAITING) then ret EVMSTATUS
    else
      let* ' (rcode, _) := _taskcall SYSTEM SYS_VMMREQ (m.[m1_i3 := m_source m]) in
      ret (if negb (rcode =? 0) then rcode else OK).

(** ** [call_vec] ([table.c]) *)
Definition call_vec (nr : Z) : V Z :=
  match nr with
  | 0 => do_vm_info | 1 => do_vm_load | 2 => do_vm_start | 3 => do_vm_stop | 4 => do_vm_kill
  | 5 => do_vm_suspend | 6 => do_vm_resume | 7 => do_vm_save | 8 => do_vm_restore
  | 9 => do_vm_tabdmp | 10 => do_vm_vmdmp | 11 => do_vm_waitvm | 12 => do_vm_proc
  | _ => crash
  end.

(** ** Start-up *)
Definition do_getvmid : V Z :=
  let* ' (rcode, _) := _taskcall SYSTEM SYS_GETVMID (msg1 0 0 0 0) in
  ret rcode.

(** On another VM than VM0 the server tries a message to the terminal, and stays there. *)
Definition vmm_test (vmid : Z) : V unit :=
  call (VHdebug vmid);;;
  let* r := call (VSend TTY_PROC_NR (msg1 1 2 3 0)) in
  call (VHdebug (v_res r));;;
  let* r := call (VReceive TTY_PROC_NR) in
  let m := if v_res r =? OK then v_msg r else msg1 1 2 3 0 in
  for_list [v_res r; m1_i1 m; m1_i2 m; m1_i3 m] (λ c, call (VHdebug c);;; skip);;;
  spin.

(** Requests are refused as long as the kernel says that this is not VM0.  A sender that
    cannot be answered ends [vmm_init]: [Some] of what it then returns. *)
Definition refuse_round (_ : unit) : V (unit + option Z) :=
  let* vmid := do_getvmid in
  if vmid =? VM0 then ret (inr None)
  else
    let* r := call (VReceive ANY) in
    if negb (v_res r =? OK) then ret (inl tt)
    else
      modify (λ s, s.[m_in := v_msg r].[m_out := (m_out s).[m_type := EBADVMID]]);;;
      let* s := get in
      let* r := call (VSend (m_source (m_in s)) (m_out s)) in
      ret (if v_res r =? OK then inl tt else inr (Some (m_source (m_in s)))).
Definition refuse_fuel : nat := 1024.

Definition patch_vm0 (d : vmm_desc_s) : vmm_desc_s :=
  d.[vmm_flags := Z.lor VM_LOADED VM_RUNNING].[vmm_nice := PRIO_MAX].[vmm_tokens := MAXTOKENS]
   .[vmm_name := strcpy VM0_NAME (vmm_name d)].

Definition vmm_init : V Z :=
  let* s := get in
  let* r := call (VHdebug (uninit s)) in
  let* r := call (VHdebug (v_res r)) in
  when (negb (v_res r =? VM0)) (vmm_test (v_res r));;;
  let* early := loop refuse_fuel refuse_round tt in
  match early with
  | Some rcode => ret rcode
  | None =>
      for_list (zrange 0 NR_VMS) free_vmdesc;;;
      putd VM0 patch_vm0;;;
      ret OK
  end.

(** The variables before [main] runs. *)
Definition no_desc : vmm_desc_s := VmDesc 0 0 0 0 0 0 0 0 0 0 0 [] [] (replicate (Z.to_nat VM_NAME_LEN) 0).
Definition vmm_bss : vms :=
  Vms (list_to_map ((λ i, (i, no_desc)) <$> zrange 0 NR_VMS)) (msg1 0 0 0 0) (msg1 0 0 0 0) 0 0 0 false
    (replicate (Z.to_nat (4 * VM_NAME_LEN)) 0) [].

(** ** The main loop *)
Definition get_work : V unit :=
  modify (λ s, s.[send_result := true]);;;
  let* r := call (VReceive ANY) in
  if negb (v_res r =? OK) then skip
  else
    let m := v_msg r in
    modify (λ s, s.[m_in := m].[who_e := m_source m].[call_nr := VMM_NCALLS]);;;
    if NOTIFY_FROM PM_PROC_NR =? m_type m then modify (λ s, s.[send_result := false])
    else if negb (m_type m =? VMMCMD) then skip
    else modify (λ s, s.[call_nr := s32 (m1_i1 m - VMM_RQ_BASE)]).

(** The message about a reply that fails has a [%s] without an argument. *)
Definition send_reply (result : Z) : V unit :=
  modify (λ s, s.[m_out := (m_out s).[m_type := result]]);;;
  let* s := get in
  let* r := call (VSend (who_e s) (m_out s)) in
  if negb (v_res r =? OK) then crash else skip.

Definition vmm_dispatch : V Z :=
  let* s := get in
  if (VMM_NCALLS <=? call_nr s) || (call_nr s <? 0) then ret ENOSYS else call_vec (call_nr s).

(** One round of the loop. *)
Definition vmm_round : V unit :=
  get_work;;;
  let* result := vmm_dispatch in
  let* s := get in
  when (send_result s) (send_reply result).

(** [main] up to its loop. *)
Definition vmm_main : V unit :=
  let* result := vmm_init in
  when (negb (result =? OK)) crash.
End vmm.
