(* ===== verification/VmThms.v ===== *)
(** * Properties of the virtual machine manager

    The table of VMs as a state machine ([vm_step]): its rounds refine it, and they keep
    the tokens and the names right.  Then the start of a VM that the kernel refuses, and
    the names that [do_vm_waitvm] gives. *)
From stdpp Require Import base gmap list numbers strings.
From Stdlib Require Import ZArith Lia.
From S2P Require Import Prelude.
From S2P Require Import KTypes.
From S2P Require Import VmServer.

(** ** The abstract machine *)
Inductive vm_status := Idle | Loaded | Waiting | Running (tokens : Z).
#[export] Instance vm_status_dec : EqDecision vm_status.
Proof. solve_decision. Defined.

Definition status_of (d : vmm_desc_s) : vm_status :=
  if vmm_flags d =? VM_FREE then Idle
  else if vmm_flags d =? VM_LOADED then Loaded
  else if vmm_flags d =? Z.lor VM_LOADED VM_WAITING then Waiting
  else Running (vmm_tokens d).
Definition tokens_of (st : vm_status) : Z := match st with Running n => n | _ => 0 end.

Abbreviation table := (gmap Z vmm_desc_s).
(** The tokens that VM0 has, and the status of the other VMs. *)
Definition pool (t : table) : Z := match t !! VM0 with Some d => vmm_tokens d | None => 0 end.
Definition vms_of (t : table) : gmap Z vm_status := status_of <$> delete VM0 t.
Definition abs (t : table) : Z * gmap Z vm_status := (pool t, vms_of t).

(** The steps, with the number of the call that takes them: a load takes the first idle
    VM, a start moves tokens from VM0 to the VM and a kill gives them back. *)
Inductive vm_step : Z → Z * gmap Z vm_status → Z * gmap Z vm_status → Prop :=
  | step_load p m v : m !! v = Some Idle → (∀ w, 1 ≤ w < v → m !! w ≠ Some Idle) → vm_step 1 (p, m) (p, <[v := Loaded]> m)
  | step_wait p m v : m !! v = Some Loaded → vm_step 11 (p, m) (p, <[v := Waiting]> m)
  | step_start p m v n : m !! v = Some Waiting → 0 < n ≤ p → vm_step 2 (p, m) (p - n, <[v := Running n]> m)
  | step_kill p m v st : m !! v = Some st → st ≠ Idle → vm_step 4 (p, m) (p + tokens_of st, <[v := Idle]> m).

(** ** The invariant of the table *)

(** A name is in a field of 16 bytes, the last of which is NUL. *)
Definition name_ok (l : list Z) : Prop := length l = 16%nat ∧ l !! 15%nat = Some 0.
Definition flags_ok (i : Z) (d : vmm_desc_s) : Prop :=
  if i =? VM0 then vmm_flags d = Z.lor VM_LOADED VM_RUNNING ∧ 0 ≤ vmm_tokens d
  else (vmm_flags d = Z.lor VM_LOADED VM_RUNNING ∧ 0 < vmm_tokens d) ∨
       (vmm_flags d ∈ [VM_FREE; VM_LOADED; Z.lor VM_LOADED VM_WAITING] ∧ vmm_tokens d = 0).
Definition vm_ok (i : Z) (d : vmm_desc_s) : Prop := vmm_id d = i ∧ name_ok (vmm_name d) ∧ flags_ok i d.

Definition tokens_at (t : table) (i : Z) : Z := match t !! i with Some d => vmm_tokens d | None => 0 end.
Definition total (t : table) : Z := tokens_at t 0 + tokens_at t 1 + tokens_at t 2 + tokens_at t 3.

(** Four VMs, each in its slot, and all tokens distributed among them. *)
Record wf (t : table) : Prop := {
  wf_dom i : is_Some (t !! i) ↔ 0 ≤ i < NR_VMS;
  wf_ok i d : t !! i = Some d → vm_ok i d;
  wf_total : total t = MAXTOKENS }.

Lemma wf_get t i : wf t → 0 ≤ i < NR_VMS → ∃ d, t !! i = Some d ∧ vm_ok i d.
Proof. intros W Hi. destruct (proj2 (wf_dom _ W i) Hi) as [d Hd]. exists d. split; [done|by apply (wf_ok _ W)]. Qed.
Lemma wf_range t i d : wf t → t !! i = Some d → 0 ≤ i < NR_VMS.
Proof. intros W H. apply (wf_dom _ W). by eexists. Qed.

Lemma total_put t i d d' : 0 ≤ i < NR_VMS → t !! i = Some d → total (<[i := d']> t) = total t - vmm_tokens d + vmm_tokens d'.
Proof.
  unfold NR_VMS, total, tokens_at. intros Hi Hd.
  assert (i = 0 ∨ i = 1 ∨ i = 2 ∨ i = 3) as [-> | [-> | [-> | ->]]] by lia;
    rewrite lookup_insert_eq, !lookup_insert_ne, Hd by lia; lia.
Qed.

Lemma dom_put (t : table) i d d' : t !! i = Some d → ∀ j, is_Some (<[i := d']> t !! j) ↔ is_Some (t !! j).
Proof.
  intros Hd j. destruct (decide (j = i)) as [->|Hne]; [rewrite lookup_insert_eq, Hd|by rewrite lookup_insert_ne].
  split; by eexists.
Qed.

(** A change of one VM that leaves its tokens. *)
Lemma wf_put t i d d' : wf t → t !! i = Some d → vm_ok i d' → vmm_tokens d' = vmm_tokens d → wf (<[i := d']> t).
Proof.
  intros W Hd Hok Ht. split.
  - intros j. rewrite (dom_put _ _ _ _ Hd). apply (wf_dom _ W).
  - intros j e. destruct (decide (j = i)) as [->|Hne]; [rewrite lookup_insert_eq; by intros [= <-]|].
    rewrite lookup_insert_ne by done. apply (wf_ok _ W).
  - rewrite (total_put _ _ d), (wf_total _ W); [lia|by eapply wf_range|done].
Qed.

(** Tokens go from VM0 to a VM, or back. *)
Lemma wf_move t i d d' d0 d0' :
  wf t → i ≠ VM0 → t !! i = Some d → t !! VM0 = Some d0 → vm_ok i d' → vm_ok VM0 d0' →
  vmm_tokens d' + vmm_tokens d0' = vmm_tokens d + vmm_tokens d0 → wf (<[VM0 := d0']> (<[i := d']> t)).
Proof.
  intros W Hi Hd Hd0 Hok Hok0 Ht.
  assert (Hl : <[i := d']> t !! VM0 = Some d0) by by rewrite lookup_insert_ne. split.
  - intros j. rewrite (dom_put _ _ _ _ Hl), (dom_put _ _ _ _ Hd). apply (wf_dom _ W).
  - intros j e. destruct (decide (j = VM0)) as [->|H0]; [rewrite lookup_insert_eq; by intros [= <-]|].
    rewrite lookup_insert_ne by done.
    destruct (decide (j = i)) as [->|Hne]; [rewrite lookup_insert_eq; by intros [= <-]|].
    rewrite lookup_insert_ne by done. apply (wf_ok _ W).
  - rewrite (total_put _ _ d0), (total_put _ _ d), (wf_total _ W); [lia|by eapply wf_range|done|by unfold VM0, NR_VMS|done].
Qed.

(** ** The abstraction *)
Lemma abs_put t i d' : i ≠ VM0 → abs (<[i := d']> t) = (pool t, <[i := status_of d']> (vms_of t)).
Proof.
  intros Hi. unfold abs, pool, vms_of. rewrite lookup_insert_ne by done.
  by rewrite delete_insert_ne, fmap_insert by done.
Qed.
Lemma abs_put0 t d0 : abs (<[VM0 := d0]> t) = (vmm_tokens d0, vms_of t).
Proof. unfold abs, pool, vms_of. by rewrite lookup_insert_eq, delete_insert_eq. Qed.
Lemma status_at t i d : i ≠ VM0 → t !! i = Some d → vms_of t !! i = Some (status_of d).
Proof. intros Hi Hd. unfold vms_of. by rewrite lookup_fmap, lookup_delete_ne, Hd. Qed.
Lemma abs_same t i d d' : i ≠ VM0 → t !! i = Some d → status_of d' = status_of d → abs (<[i := d']> t) = abs t.
Proof.
  intros Hi Hd Hs. rewrite abs_put, Hs by done. unfold abs. f_equal. apply insert_id. by apply status_at.
Qed.

(** ** Names *)
Lemma strncpy_at n src dst : (n ≤ length dst)%nat →
  length (strncpy n src dst) = length dst ∧ ∀ k, (n ≤ k)%nat → strncpy n src dst !! k = dst !! k.
Proof.
  intros Hn. unfold strncpy. set (c := take n (c_str src)). cbv zeta.
  assert (Hc : (length c ≤ n)%nat) by (unfold c; rewrite length_take; lia).
  rewrite app_assoc. assert (Hl : length (c ++ replicate (n - length c) 0) = n) by (rewrite length_app, length_replicate; lia).
  split; [rewrite length_app, Hl, length_drop; lia|].
  intros k Hk. rewrite lookup_app_r by lia. rewrite Hl, lookup_drop. f_equal. lia.
Qed.
Lemma name_ok_strncpy n src l : name_ok l → (n ≤ 15)%nat → name_ok (strncpy n src l).
Proof. intros [H1 H2] Hn. destruct (strncpy_at n src l) as [G1 G2]; [lia|]. split; [lia|]. by rewrite G2. Qed.
Lemma name_ok_strcpy src l : name_ok l → (length src ≤ 14)%nat → name_ok (strcpy src l).
Proof.
  intros [H1 H2] Hn. unfold strcpy. split; [rewrite length_app; cbn; rewrite length_drop; lia|].
  rewrite lookup_app_r by lia. rewrite lookup_cons_ne_0 by lia. rewrite lookup_drop, <-H2. f_equal. lia.
Qed.

(** The buffer of [do_vm_waitvm] has 64 bytes, of which it never writes the last. *)
Definition buf_ok (l : list Z) : Prop := length l = 64%nat ∧ l !! 63%nat = Some 0.
Lemma buf_ok_shown l : buf_ok l → str_in l 0 (4 * Z.to_nat VM_NAME_LEN) = true.
Proof.
  intros [Hl H63]. unfold str_in. rewrite existsb_exists. exists 0. split; [|done].
  rewrite drop_0, take_ge by (rewrite Hl; done). by apply list_elem_of_In, (list_elem_of_lookup_2 _ 63).
Qed.
Lemma buf_ok_overwrite n src l : (n ≤ 16)%nat → buf_ok l → buf_ok (overwrite n src l).
Proof.
  intros Hn [Hl H63]. unfold overwrite.
  assert (H : length (take n (src ++ replicate n 0)) = n) by (rewrite length_take, length_app, length_replicate; lia). split.
  - rewrite length_app, H, length_drop. lia.
  - rewrite lookup_app_r by lia. rewrite H, lookup_drop, <-H63. f_equal. lia.
Qed.

(** ** Running the calls

    [does P m Q s]: [m] returns from [s] with [Q], or it crashes, which is only right when [P]. *)
Definition does {A} (P : Prop) (m : V A) (Q : A → vms → Prop) (s : vms) : Prop :=
  match m s with Ret a s' => Q a s' | Crash => P | Spin => False end.

Section does.
Context {P : Prop}.
Lemma does_eq {A} (m : V A) a s' Q s : m s = Ret a s' → Q a s' → does P m Q s.
Proof. unfold does. by intros ->. Qed.
Lemma does_ret {A} (a : A) Q s : Q a s → does P (ret a) Q s.
Proof. done. Qed.
Lemma does_crash {A} (Q : A → vms → Prop) s : P → does P crash Q s.
Proof. done. Qed.
Lemma does_bind {A B} (m : V A) (k : A → V B) Q s : does P m (λ a s', does P (k a) Q s') s → does P (bind m k) Q s.
Proof. unfold does, bind. by destruct (m s). Qed.
Lemma does_get (Q : vms → vms → Prop) s : Q s s → does P get Q s.
Proof. done. Qed.
Lemma does_modify f (Q : unit → vms → Prop) s : Q tt (f s) → does P (modify f) Q s.
Proof. done. Qed.
Lemma does_if {A} (b : bool) (m n : V A) Q s :
  (b = true → does P m Q s) → (b = false → does P n Q s) → does P (if b then m else n) Q s.
Proof. destruct b; auto. Qed.
Lemma does_getd i d Q s : vmm_desc s !! i = Some d → Q d s → does P (getd i) Q s.
Proof. intros Hd H. unfold does, getd. by rewrite Hd. Qed.
Lemma does_putd i d f (Q : unit → vms → Prop) s :
  vmm_desc s !! i = Some d → Q tt (s.[vmm_desc := <[i := f d]> (vmm_desc s)]) → does P (putd i f) Q s.
Proof. intros Hd H. unfold does, putd. by rewrite Hd. Qed.
Lemma does_mono {A} (m : V A) (Q Q' : A → vms → Prop) s : does P m Q s → (∀ a s', Q a s' → Q' a s') → does P m Q' s.
Proof. unfold does. destruct (m s); auto. Qed.
(** What others answer is not known. *)
Lemma does_call world c Q s : (∀ r cs, Q r (s.[calls := cs])) → does P (call world c) Q s.
Proof. intros H. apply H. Qed.
Lemma does_taskcall world who nr m Q s : (∀ x cs, Q x (s.[calls := cs])) → does P (_taskcall world who nr m) Q s.
Proof. intros H. apply H. Qed.
Lemma does_syscall world who nr m Q s : (∀ x cs, Q x (s.[calls := cs])) → does P (_syscall world who nr m) Q s.
Proof. intros H. apply H. Qed.
Lemma does_copy_in world e a n Q s : (∀ x cs, Q x (s.[calls := cs])) → does P (copy_in world e a n) Q s.
Proof. intros H. unfold copy_in. destruct (u32 n =? 0); [apply (H _ (calls s))|apply H]. Qed.
Lemma does_copy_image world e a (Q : Z * list Z → vms → Prop) s :
  (∀ r cs, Q (r, v_data (world (calls s) (VCopyIn e a sizeof_imginfo))) (s.[calls := cs])) → does P (copy_in world e a sizeof_imginfo) Q s.
Proof. intros H. apply H. Qed.
End does.

Ltac dostep :=
  cbv beta;
  lazymatch goal with
  | |- does _ (bind _ _) _ _ => apply does_bind
  | |- does _ (ret _) _ _ => apply does_ret
  | |- does _ skip _ _ => apply does_ret
  | |- does _ get _ _ => apply does_get
  | |- does _ (modify _) _ _ => apply does_modify
  | |- does _ (call _ _) _ _ => apply does_call; intros ? ?
  | |- does _ (let _ := _ in _) _ _ => cbv zeta
  | |- does _ (if _ then _ else _) _ _ => apply does_if; intros ?
  | |- does _ (when _ _) _ _ => unfold when
  | |- does _ crash _ _ => apply does_crash
  | |- does _ (match (_, _) with _ => _ end) _ _ => cbv iota
  | |- does _ (_taskcall _ _ _ _) _ _ => apply does_taskcall; intros [? ?] ?
  | |- does _ (_syscall _ _ _ _) _ _ => apply does_syscall; intros [? ?] ?
  | |- does _ (copy_in _ _ _ sizeof_imginfo) _ _ => apply does_copy_image; intros ? ?
  | |- does _ (copy_in _ _ _ _) _ _ => apply does_copy_in; intros [? ?] ?
  | |- does _ (kill _ _ _) _ _ => unfold kill
  end.

(** What a call of a number does to the table. *)
Definition call_post (nr : Z) (t t' : table) : Prop := wf t' ∧ (abs t' = abs t ∨ vm_step nr (abs t) (abs t')).
Lemma call_same nr t : wf t → call_post nr t t.
Proof. intros W. split; [done|by left]. Qed.
#[export] Hint Resolve call_same : core.

(** ** Ending a VM *)
Lemma status_tokens i d : i ≠ VM0 → vm_ok i d → tokens_of (status_of d) = vmm_tokens d.
Proof.
  intros Hi (_ & _ & Hf). unfold flags_ok in Hf. destruct (Z.eqb_spec i VM0); [done|].
  unfold status_of, tokens_of. destruct Hf as [[-> _]|[Hf Ht]]; [done|].
  rewrite !elem_of_cons, elem_of_nil in Hf. destruct Hf as [-> |[-> |[-> |[]]]]; by rewrite Ht.
Qed.
Lemma freed_ok i d : i ≠ VM0 → vm_ok i d → vm_ok i (freed i d).
Proof.
  intros Hi (_ & Hn & _). split_and!; [done|apply name_ok_strcpy; [done|cbn; lia]|].
  unfold flags_ok. destruct (Z.eqb_spec i VM0); [done|]. right. split; [left|done].
Qed.

(** No VM has more tokens than there are. *)
Lemma tokens_range t i d : wf t → t !! i = Some d → 0 ≤ vmm_tokens d ≤ MAXTOKENS.
Proof.
  intros W Hd.
  assert (Hpos : ∀ j e, t !! j = Some e → 0 ≤ vmm_tokens e).
  { intros j e (_ & _ & He)%(wf_ok _ W). unfold flags_ok in He.
    destruct (j =? VM0); [by apply He|]. destruct He as [[_ ?]|[_ ->]]; lia. }
  split; [by eapply Hpos|]. rewrite <-(wf_total _ W).
  assert (Hat : ∀ j, 0 ≤ tokens_at t j).
  { intros j. unfold tokens_at. destruct (t !! j) eqn:E; [by eapply Hpos|done]. }
  pose proof (Hat 0). pose proof (Hat 1). pose proof (Hat 2). pose proof (Hat 3).
  pose proof (wf_range _ _ _ W Hd) as Hi. unfold total, NR_VMS in *.
  assert (Hv : vmm_tokens d = tokens_at t i) by (unfold tokens_at; by rewrite Hd). rewrite Hv.
  assert (i = 0 ∨ i = 1 ∨ i = 2 ∨ i = 3) as [-> | [-> | [-> | ->]]] by lia; lia.
Qed.

Definition without (v : Z) (t : table) (d0 d : vmm_desc_s) : table :=
  <[v := freed v d]> (<[VM0 := d0.[vmm_tokens := s32 (vmm_tokens d0 + vmm_tokens d)]]> t).

Lemma without_post t v d d0 : wf t → 1 ≤ v < NR_VMS → t !! v = Some d → t !! VM0 = Some d0 →
  vmm_flags d ≠ VM_FREE → call_post 4 t (without v t d0 d).
Proof.
  intros W Hv Hd Hd0 Hf. assert (Hne : v ≠ VM0) by (unfold VM0; lia).
  pose proof (wf_ok _ W _ _ Hd) as Hok. pose proof (wf_ok _ W _ _ Hd0) as Hok0.
  pose proof (tokens_range _ _ _ W Hd). pose proof (tokens_range _ _ _ W Hd0).
  unfold without. rewrite s32_id by (unfold MAXTOKENS in *; lia). rewrite insert_insert_ne by done. split.
  - eapply wf_move; [done|done|done|done|by apply freed_ok| |cbn; lia].
    destruct Hok0 as (H1 & H2 & H3 & H4). split_and!; [done|done|]. split; [done|]. cbn. lia.
  - right. rewrite abs_put0. change (status_of (freed v d)) with Idle.
    assert (Hp : pool t = vmm_tokens d0) by (unfold pool; by rewrite Hd0).
    assert (Hs : vms_of (<[v := freed v d]> t) = <[v := Idle]> (vms_of t)).
    { pose proof (abs_put t v (freed v d) Hne) as E. unfold abs in E. by injection E. }
    rewrite Hs. unfold abs. rewrite Hp. cbn [vmm_tokens fupd].
    rewrite <-(status_tokens v d) by done.
    apply step_kill; [by apply status_at|]. unfold status_of.
    destruct (Z.eqb_spec (vmm_flags d) VM_FREE); [done|]. by repeat case_match.
Qed.

Section world.
Context (world : list vcall → vcall → vreply) (uninit : vms → Z) (desc_addr : Z → Z).

(** What can end in a crash.  A wait request with a length below zero, which is not refused; *)
Definition bad_wait (s : vms) : Prop := call_nr s = 11 ∧ m1_i3 (m_in s) < 0.
(** the names that are printed: of more boot processes than an image has, or without an end
    (the number is that of the request to load, or of the last one); *)
Definition bad_names (s : vms) : Prop :=
  (call_nr s = 1 ∧ ∃ h e a old,
     names_shown (m1_i3 (m_in s)) (overwrite (Z.to_nat sizeof_imginfo) (v_data (world h (VCopyIn e a sizeof_imginfo))) old) = false) ∨
  (call_nr s = 2 ∧ ∃ d, vmm_desc s !! m1_i2 (m_in s) = Some d ∧ names_shown (nbprocs s) (vmm_img d) = false).
(** and a reply that cannot be sent. *)
Definition no_reply (s : vms) : Prop := ∃ h m, v_res (world h (VSend (who_e s) m)) ≠ OK.

(** A call, which may change who gets an answer, but not its number. *)
Definition handled (nr : Z) (m : V Z) (s : vms) : Prop :=
  does (bad_wait s ∨ bad_names s) m (λ _ s', call_post nr (vmm_desc s) (vmm_desc s') ∧ call_nr s' = call_nr s ∧ who_e s' = who_e s ∧
    (buf_ok (vm_name s) → buf_ok (vm_name s'))) s.

Lemma copy_rows_handled nr i n s : wf (vmm_desc s) → handled nr (copy_rows world i n) s.
Proof. intros W. unfold handled, copy_rows. repeat dostep. auto. Qed.

Lemma find_vm_own vmid s : wf (vmm_desc s) → 1 ≤ vmid < NR_VMS → find_vm vmid s = Ret vmid s.
Proof.
  intros W Hv. unfold find_vm, get, bind, ret. change (zrange 1 NR_VMS) with [1; 2; 3]. cbn [List.find].
  assert (H : ∀ i, 0 ≤ i < NR_VMS → match vmm_desc s !! i with Some d => vmm_id d =? vmid | None => false end = (i =? vmid)).
  { intros i Hi. destruct (wf_get _ i W Hi) as (d & -> & Hid & _). by rewrite Hid. }
  unfold NR_VMS in *. rewrite !H by lia.
  assert (vmid = 1 ∨ vmid = 2 ∨ vmid = 3) as [-> | [-> | ->]] by lia; done.
Qed.

Lemma bad_vmid_range vmid : (vmid <? 1) || (NR_VMS <=? vmid) = false → 1 ≤ vmid < NR_VMS.
Proof. intros H. apply orb_false_iff in H as [H1%Z.ltb_ge H2%Z.leb_gt]. lia. Qed.

(** The names of the VMs end in their fields. *)
Lemma name_shown d : name_ok (vmm_name d) → str_in (vmm_name d) 0 (Z.to_nat VM_NAME_LEN) = true.
Proof.
  intros [Hl H15]. unfold str_in. rewrite existsb_exists. exists 0. split; [|done].
  rewrite drop_0, take_ge by (rewrite Hl; done). by apply list_elem_of_In, (list_elem_of_lookup_2 _ 15).
Qed.
Lemma do_vm_info_returns s : wf (vmm_desc s) → do_vm_info s = Ret OK s.
Proof.
  intros W. unfold do_vm_info. change (zrange 0 NR_VMS) with [0; 1; 2; 3]. cbn [for_list].
  assert (H : ∀ i, 0 ≤ i < NR_VMS → (let* d := getd i in
    if negb (vmm_flags d =? VM_FREE) && negb (str_in (vmm_name d) 0 (Z.to_nat VM_NAME_LEN)) then crash else skip) s = Ret tt s).
  { intros i Hi. destruct (wf_get _ i W Hi) as (d & Hd & _ & Hn & _). unfold getd, bind. rewrite Hd.
    rewrite (name_shown _ Hn), andb_false_r. done. }
  unfold NR_VMS in H.
  rewrite (bind_Ret _ _ _ tt s); [done|]. rewrite (bind_Ret _ _ _ _ _ (H 0 ltac:(done))), (bind_Ret _ _ _ _ _ (H 1 ltac:(done))), (bind_Ret _ _ _ _ _ (H 2 ltac:(done))), (bind_Ret _ _ _ _ _ (H 3 ltac:(done))). done.
Qed.

Lemma do_vm_kill_handled s : wf (vmm_desc s) → handled 4 (do_vm_kill world uninit) s.
Proof.
  intros W. unfold handled, do_vm_kill. repeat dostep; [auto|].
  apply bad_vmid_range in H as Hv. eapply does_eq; [by apply find_vm_own|].
  destruct (wf_get _ (m_w1 (m_in s)) W) as (d & Hd & Hok); [lia|]. repeat dostep.
  eapply does_getd; [done|]. repeat dostep; [auto|auto|auto|]. eapply does_getd; [done|]. repeat dostep.
  destruct (wf_get _ VM0 W) as (d0 & Hd0 & _); [done|]. unfold free_vmdesc. rewrite H. repeat dostep.
  eapply does_getd; [done|]. repeat dostep. eapply does_putd; [done|].
  eapply does_putd; [cbn; by rewrite lookup_insert_ne by (unfold VM0; lia)|]. repeat dostep.
  split_and!; [|done..]. apply without_post; [done..|]. by apply orb_false_iff in H0 as [_ H0%Z.eqb_neq].
Qed.

Lemma idle_flags d : status_of d = Idle ↔ vmm_flags d = VM_FREE.
Proof. unfold status_of. destruct (Z.eqb_spec (vmm_flags d) VM_FREE); [done|]. by repeat case_match. Qed.
Lemma idle_at t i d : i ≠ VM0 → t !! i = Some d → vms_of t !! i = Some Idle ↔ vmm_flags d = VM_FREE.
Proof. intros Hi Hd. rewrite (status_at _ _ _ Hi Hd), <-idle_flags. split; [congruence|by intros ->]. Qed.

(** The free slot that is taken is the first one. *)
Lemma alloc_vmdesc_first s : wf (vmm_desc s) → ∃ v, alloc_vmdesc s = Ret v s ∧
  (v = NR_VMS ∨ 1 ≤ v < NR_VMS ∧ vms_of (vmm_desc s) !! v = Some Idle ∧ ∀ w, 1 ≤ w < v → vms_of (vmm_desc s) !! w ≠ Some Idle).
Proof.
  intros W. unfold alloc_vmdesc, get, bind, ret. change (zrange 1 NR_VMS) with [1; 2; 3]. cbn [List.find].
  destruct (wf_get _ 1 W) as (d1 & H1 & _); [done|]. destruct (wf_get _ 2 W) as (d2 & H2 & _); [done|].
  destruct (wf_get _ 3 W) as (d3 & H3 & _); [done|]. rewrite H1, H2, H3.
  assert (G1 := idle_at _ 1 _ ltac:(done) H1). assert (G2 := idle_at _ 2 _ ltac:(done) H2). assert (G3 := idle_at _ 3 _ ltac:(done) H3).
  destruct (Z.eqb_spec (vmm_flags d1) VM_FREE) as [E1|E1].
  { exists 1. split; [done|right]. split_and!; [done|by unfold NR_VMS|by apply G1|lia]. }
  destruct (Z.eqb_spec (vmm_flags d2) VM_FREE) as [E2|E2].
  { exists 2. split; [done|right]. split_and!; [done|by unfold NR_VMS|by apply G2|].
    intros w Hw. assert (w = 1) as -> by lia. by rewrite G1. }
  destruct (Z.eqb_spec (vmm_flags d3) VM_FREE) as [E3|E3].
  { exists 3. split; [done|right]. split_and!; [done|by unfold NR_VMS|by apply G3|].
    intros w Hw. assert (w = 1 ∨ w = 2) as [-> | ->] by lia; [by rewrite G1|by rewrite G2]. }
  exists NR_VMS. split; [done|by left].
Qed.

(** A change that [vm_step] does not see. *)
Lemma unseen_post nr t i d d' : wf t → i ≠ VM0 → t !! i = Some d → vm_ok i d' → vmm_tokens d' = vmm_tokens d →
  status_of d' = status_of d → call_post nr t (<[i := d']> t).
Proof. intros W Hi Hd Hok Ht Hs. split; [by eapply wf_put|]. left. by eapply abs_same. Qed.

Lemma stopped_ok i d : i ≠ VM0 → name_ok (vmm_name d) →
  vmm_flags d ∈ [VM_FREE; VM_LOADED; Z.lor VM_LOADED VM_WAITING] → vmm_tokens d = 0 → vmm_id d = i → vm_ok i d.
Proof. intros Hi Hn Hf Ht Hid. split_and!; [done|done|]. unfold flags_ok. destruct (Z.eqb_spec i VM0); [done|]. by right. Qed.

Lemma do_vm_load_handled s : wf (vmm_desc s) → call_nr s = 1 → handled 1 (do_vm_load world desc_addr) s.
Proof.
  intros W Hnr. unfold handled, do_vm_load. apply does_bind.
  destruct (alloc_vmdesc_first s W) as (v & Hv & Hcase). eapply does_eq; [exact Hv|].
  dostep; [repeat dostep; auto|]. apply Z.eqb_neq in H. destruct Hcase as [->|(Hr & Hi & Hfst)]; [done|].
  assert (Hne : v ≠ VM0) by (unfold VM0; lia).
  destruct (wf_get _ v W) as (d & Hd & Hok); [lia|]. pose proof (proj1 (idle_at _ _ _ Hne Hd) Hi) as Hfree.
  repeat dostep; auto. eapply does_putd; [exact Hd|]. set (d1 := d.[vmm_img := _]). dostep.
  eapply does_getd; [apply lookup_insert_eq|]. dostep. dostep. dostep.
  { dostep. apply negb_true_iff in H3. right. left. split; [done|]. eauto. }
  assert (P1 : call_post 1 (vmm_desc s) (<[v := d1]> (vmm_desc s))) by (by eapply unseen_post).
  repeat dostep; [done|]. eapply does_putd; [apply lookup_insert_eq|]. repeat dostep. split_and!; [|done..].
  cbn [vmm_desc fupd]. rewrite insert_insert_eq.
  assert (Ht : vmm_tokens d = 0) by (rewrite <-(status_tokens v) by done; by rewrite (proj2 (idle_flags d) Hfree)). split.
  - eapply wf_put; [done|done| |done]. apply stopped_ok; [done|apply Hok|right; left|done|done].
  - right. rewrite abs_put by done. by apply step_load.
Qed.

(** ** The start of a VM *)
Definition started (n : Z) (d : vmm_desc_s) : vmm_desc_s :=
  d.[vmm_flags := Z.lor VM_RUNNING VM_LOADED].[vmm_bsize := n].[vmm_tokens := n].
Definition with_vm (v n : Z) (t : table) (d d0 : vmm_desc_s) : table :=
  <[VM0 := d0.[vmm_tokens := s32 (vmm_tokens d0 - n)]]> (<[v := started n d]> t).

Lemma with_vm_abs v n t d d0 : v ≠ VM0 → t !! VM0 = Some d0 → - 2 ^ 31 ≤ vmm_tokens d0 - n < 2 ^ 31 →
  abs (with_vm v n t d d0) = (pool t - n, <[v := Running n]> (vms_of t)).
Proof.
  intros Hne Hd0 Hr. unfold with_vm. rewrite s32_id, abs_put0 by done.
  pose proof (abs_put t v (started n d) Hne) as E. unfold abs in E. injection E as _ ->.
  unfold pool. by rewrite Hd0.
Qed.

Lemma with_vm_post v n t d d0 : wf t → 1 ≤ v < NR_VMS → t !! v = Some d → t !! VM0 = Some d0 →
  vmm_flags d = Z.lor VM_LOADED VM_WAITING → 0 < n ≤ vmm_tokens d0 → call_post 2 t (with_vm v n t d d0).
Proof.
  intros W Hv Hd Hd0 Hf Hn. assert (Hne : v ≠ VM0) by (unfold VM0; lia).
  destruct (wf_ok _ W _ _ Hd) as (Hid & Hname & _). pose proof (wf_ok _ W _ _ Hd0) as (H1 & H2 & H3 & H4).
  assert (Hs : status_of d = Waiting) by (unfold status_of; by rewrite Hf).
  assert (Ht : vmm_tokens d = 0) by (rewrite <-(status_tokens v d Hne (wf_ok _ W _ _ Hd)), Hs; done).
  pose proof (tokens_range _ _ _ W Hd0). unfold with_vm. rewrite s32_id by (unfold MAXTOKENS in *; lia). split.
  - eapply wf_move; [done|done|done|done| | |cbn; lia].
    + split_and!; [done|done|]. unfold flags_ok. destruct (Z.eqb_spec v VM0); [done|]. left. split; [done|cbn; lia].
    + split_and!; [done|done|]. split; [done|cbn; lia].
  - right. pose proof (with_vm_abs v n t d d0 Hne Hd0) as E. unfold with_vm in E. rewrite s32_id in E by (unfold MAXTOKENS in *; lia).
    rewrite E by (unfold MAXTOKENS in *; lia). apply step_start; [rewrite (status_at _ _ _ Hne Hd); congruence|].
    unfold pool. by rewrite Hd0.
Qed.

Lemma do_vm_start_handled s : wf (vmm_desc s) → call_nr s = 2 → handled 2 (do_vm_start world uninit) s.
Proof.
  intros W Hnr. unfold handled, do_vm_start. repeat dostep; [auto|]. apply bad_vmid_range in H as Hv.
  destruct (wf_get _ VM0 W) as (d0 & Hd0 & _); [done|]. destruct (wf_get _ (m_w1 (m_in s)) W) as (d & Hd & _); [lia|].
  eapply does_getd; [done|]. repeat dostep; [auto|]. eapply does_getd; [done|]. repeat dostep; [auto| |auto|].
  { right. right. split; [done|]. exists d. split; [done|]. by apply negb_true_iff. }
  eapply does_putd; [done|]. repeat dostep.
  eapply does_putd; [cbn; by rewrite lookup_insert_ne by (unfold VM0; lia)|]. repeat dostep.
  split_and!; [|done..]. apply orb_false_iff in H0 as [?%Z.leb_gt ?%Z.ltb_ge]. apply negb_false_iff, Z.eqb_eq in H1.
  by apply with_vm_post.
Qed.

(** ** Waiting and the rest *)
Lemma loaded_by_spec pid s i : loaded_by pid s = Some i →
  ∃ d, vmm_desc s !! i = Some d ∧ vmm_pid d = pid ∧ vmm_flags d = VM_LOADED.
Proof.
  intros [_ H]%List.find_some. destruct (vmm_desc s !! i) as [d|]; [|done].
  apply andb_true_iff in H as [?%Z.eqb_eq ?%Z.eqb_eq]. by exists d.
Qed.

Definition waits (n : Z) (name : list Z) (d : vmm_desc_s) : vmm_desc_s :=
  d.[vmm_flags := Z.lor (vmm_flags d) VM_WAITING].[vmm_name := strncpy (Z.to_nat n) name (vmm_name d)].
Lemma waits_post t i n name d : wf t → t !! i = Some d → vmm_flags d = VM_LOADED → n ≤ 15 →
  call_post 11 t (<[i := waits n name d]> t).
Proof.
  intros W Hd Hf Hn. destruct (wf_ok _ W _ _ Hd) as (Hid & Hname & Hfl).
  assert (Hne : i ≠ VM0) by (intros ->; unfold flags_ok in Hfl; rewrite Hf in Hfl; by destruct Hfl).
  assert (Hs : status_of d = Loaded) by (unfold status_of; by rewrite Hf).
  assert (Ht : vmm_tokens d = 0) by (rewrite <-(status_tokens i d Hne (wf_ok _ W _ _ Hd)), Hs; done).
  assert (Hw : vmm_flags (waits n name d) = Z.lor VM_LOADED VM_WAITING) by (cbn; by rewrite Hf). split.
  - eapply wf_put; [done|done| |done]. apply stopped_ok; [done|apply name_ok_strncpy; [done|lia]| |done|done].
    rewrite Hw. right. right. left.
  - right. rewrite abs_put by done. assert (Hs' : status_of (waits n name d) = Waiting) by (unfold status_of; by rewrite Hw).
    rewrite Hs'. apply step_wait. rewrite (status_at _ _ _ Hne Hd). congruence.
Qed.

Lemma do_vm_waitvm_handled s : wf (vmm_desc s) → buf_ok (vm_name s) → call_nr s = 11 → handled 11 (do_vm_waitvm world) s.
Proof.
  intros W B Hnr. unfold handled, bad_wait, do_vm_waitvm. rewrite Hnr.
  repeat dostep; [auto|auto|..]; apply Z.ltb_ge in H; unfold VM_NAME_LEN in H.
  { apply Z.ltb_lt in H1. left. split; [done|]. unfold VM_NAME_LEN in *.
    destruct (Z.ltb_spec (m_w2 (m_in s)) 0); [done|]. rewrite u32_id in H1 by lia. lia. }
  all: assert (B' : buf_ok (overwrite (Z.to_nat (m_w2 (m_in s) + 1)) l (vm_name s))) by (apply buf_ok_overwrite; [lia|done]).
  { apply buf_ok_shown in B'. cbn [vm_name fupd] in H2. by rewrite B' in H2. }
  destruct (loaded_by _ _) as [i|] eqn:E; [|repeat dostep; auto].
  apply loaded_by_spec in E as (d & Hd & _ & Hf). cbn in Hd. repeat dostep.
  { apply Z.ltb_lt in H3. left. split; [done|]. unfold VM_NAME_LEN in *.
    destruct (Z.ltb_spec (m_w2 (m_in s)) 0); [done|]. rewrite u32_id in H3 by lia. lia. }
  eapply does_putd; [done|]. repeat dostep. split_and!; [|done..]. apply waits_post; [done..|lia].
Qed.

Lemma do_vm_proc_handled s : wf (vmm_desc s) → handled 12 (do_vm_proc world uninit) s.
Proof.
  intros W. unfold handled, do_vm_proc. repeat dostep; [auto|]. apply bad_vmid_range in H as Hv.
  eapply does_eq; [by apply find_vm_own|]. destruct (wf_get _ (m_w1 (m_in s)) W) as (d & Hd & _); [lia|].
  repeat dostep. eapply does_getd; [done|]. repeat dostep; auto.
Qed.

Lemma do_vm_vmdmp_handled s : wf (vmm_desc s) → handled 10 (do_vm_vmdmp world) s.
Proof. intros W. unfold handled, do_vm_vmdmp. repeat dostep; [auto|]. by apply copy_rows_handled. Qed.

Lemma call_vec_handled s : wf (vmm_desc s) → buf_ok (vm_name s) → 0 ≤ call_nr s < VMM_NCALLS →
  handled (call_nr s) (call_vec world uninit desc_addr (call_nr s)) s.
Proof.
  intros W B Hn%elem_of_zrange. assert (H : ∀ nr, call_nr s = nr → nr ∈ zrange 0 VMM_NCALLS →
    handled nr (call_vec world uninit desc_addr nr) s); [|by apply H].
  intros nr E. change (zrange 0 VMM_NCALLS) with [0;1;2;3;4;5;6;7;8;9;10;11;12]. rewrite !elem_of_cons, elem_of_nil.
  intros [->|[->|[->|[->|[->|[->|[->|[->|[->|[->|[->|[->|[->|[]]]]]]]]]]]]]].
  all: first [by apply do_vm_load_handled|by apply do_vm_start_handled|by apply do_vm_kill_handled|by apply copy_rows_handled
    |by apply do_vm_vmdmp_handled|by apply do_vm_waitvm_handled|by apply do_vm_proc_handled
    |eapply does_eq; [by apply do_vm_info_returns|by auto]|by apply does_ret; auto].
Qed.

Lemma vmm_dispatch_handled s : wf (vmm_desc s) → buf_ok (vm_name s) →
  handled (call_nr s) (vmm_dispatch world uninit desc_addr) s.
Proof.
  intros W B. unfold handled, vmm_dispatch. repeat dostep; [auto|]. apply call_vec_handled; [done..|].
  apply orb_false_iff in H as [?%Z.leb_gt ?%Z.ltb_ge]. lia.
Qed.

Lemma get_work_same s : ∃ s', get_work world s = Ret tt s' ∧ vmm_desc s' = vmm_desc s ∧ vm_name s' = vm_name s.
Proof.
  unfold get_work, modify, call, bind, skip, ret. cbn. repeat case_match; simplify_eq/=; by eexists.
Qed.
Lemma send_reply_does (P : Prop) r s : (no_reply s → P) →
  does P (send_reply world r) (λ _ s', vmm_desc s' = vmm_desc s ∧ vm_name s' = vm_name s ∧ call_nr s' = call_nr s) s.
Proof.
  intros HP. unfold does, send_reply, modify, get, call, bind, skip, ret, crash. cbn.
  destruct (Z.eqb_spec (v_res (world (calls s) (VSend (who_e s) ((m_out s).[m_type := r])))) OK); cbn; [done|].
  apply HP. by eexists _, _.
Qed.

Definition round_ok (s : vms) : Prop :=
  match vmm_round world uninit desc_addr s with
  | Ret _ s' => wf (vmm_desc s') ∧ buf_ok (vm_name s') ∧
      (abs (vmm_desc s') = abs (vmm_desc s) ∨ vm_step (call_nr s') (abs (vmm_desc s)) (abs (vmm_desc s')))
  | Crash => ∃ s1, get_work world s = Ret tt s1 ∧ (bad_wait s1 ∨ bad_names s1 ∨ no_reply s1)
  | Spin => False
  end.
Lemma round_is_ok s : wf (vmm_desc s) → buf_ok (vm_name s) → round_ok s.
Proof.
  intros W B. destruct (get_work_same s) as (s1 & E1 & Ht & Hb). unfold round_ok, vmm_round. rewrite (bind_Ret _ _ _ _ _ E1).
  rewrite <-Ht in W |- *. rewrite <-Hb in B. pose proof (vmm_dispatch_handled s1 W B) as H. unfold handled, does in H. unfold bind.
  destruct (vmm_dispatch _ _ _ s1) as [res s2| |]; [|exists s1; tauto|done].
  destruct H as ([W2 H] & Hnr & Hwho & HB). rewrite <-Hnr in H. unfold get, when. cbv beta iota. destruct (send_result s2); [|cbn; by auto].
  set (P := ∃ s', get_work world s = Ret tt s' ∧ (bad_wait s' ∨ bad_names s' ∨ no_reply s')).
  assert (HP : no_reply s2 → P).
  { intros (h & m & Hm). exists s1. split; [done|]. right. right. exists h, m. by rewrite <-Hwho. }
  pose proof (send_reply_does P res s2 HP) as R. unfold does in R. destruct (send_reply _ _ s2) as [[] s3| |]; [|exact R|by destruct R].
  destruct R as (-> & -> & ->). auto.
Qed.

(** C17. A round of the VM manager, for any request and any answers of the kernel, PM and the
    loaders, takes at most one step of the life cycle of one VM, by the call of that step: a load
    takes the first free VM, a start moves at most the tokens VM0 has, a kill gives them back. It
    never spins, and it crashes only on a wait request with a negative length, on a load or a start
    that prints names of boot processes that are not in the image, and when a reply cannot be sent. *)
Theorem vmm_round_refines s : wf (vmm_desc s) → buf_ok (vm_name s) →
  match vmm_round world uninit desc_addr s with
  | Ret _ s' => wf (vmm_desc s') ∧ buf_ok (vm_name s') ∧
      (abs (vmm_desc s') = abs (vmm_desc s) ∨ vm_step (call_nr s') (abs (vmm_desc s)) (abs (vmm_desc s')))
  | Crash => ∃ s1, get_work world s = Ret tt s1 ∧ (bad_wait s1 ∨ bad_names s1 ∨ no_reply s1)
  | Spin => False
  end.
Proof. apply round_is_ok. Qed.

(** ** Every state of the server *)
Inductive reached : vms → Prop :=
  | reached_boot s : vmm_main world uninit vmm_bss = Ret tt s → reached s
  | reached_round s s' : reached s → vmm_round world uninit desc_addr s = Ret tt s' → reached s'.

(** The kernel says that this is VM0. *)
Definition on_vm0 : Prop := ∀ h,
  let r := world h (VSendrec SYSTEM ((msg1 0 0 0 0).[m_type := SYS_GETVMID])) in v_res r = 0 ∧ m_type (v_msg r) = VM0.

Definition boot_table : table :=
  list_to_map ((VM0, patch_vm0 no_desc) :: ((λ i, (i, freed i no_desc)) <$> zrange 1 NR_VMS)).

Lemma boot_wf : wf boot_table.
Proof.
  change boot_table with
    (<[0 := patch_vm0 no_desc]> (<[1 := freed 1 no_desc]> (<[2 := freed 2 no_desc]> (<[3 := freed 3 no_desc]> (∅ : table))))).
  split.
  - intros i. unfold NR_VMS. destruct (decide (0 ≤ i < 4)) as [Hi|Hi].
    + assert (i = 0 ∨ i = 1 ∨ i = 2 ∨ i = 3) as [-> | [-> | [-> | ->]]] by lia; (split; [done|by eexists]).
    + rewrite !lookup_insert_ne by lia. split; [by intros [? ?]|done].
  - intros i d. rewrite !lookup_insert_Some, lookup_empty.
    intros [[<- <-]|[_ [[<- <-]|[_ [[<- <-]|[_ [[<- <-]|[_ ?]]]]]]]]; [| | | |done].
    + by split_and!.
    + split_and!; [done..|]. right. split; [left|done].
    + split_and!; [done..|]. right. split; [left|done].
    + split_and!; [done..|]. right. split; [left|done].
  - reflexivity.
Qed.

Lemma refuse_none s : on_vm0 → ∃ cs, loop refuse_fuel (refuse_round world) tt s = Ret None (s.[calls := cs]).
Proof.
  intros Hw. destruct (Hw (calls s)) as [H1 H2]. unfold refuse_fuel. rewrite loop_S.
  unfold refuse_round, do_getvmid, _taskcall, call, bind, ret. rewrite H1, H2. by eexists.
Qed.
Lemma tables_freed s : vmm_desc s = vmm_desc vmm_bss →
  (for_list (zrange 0 NR_VMS) free_vmdesc;;; putd VM0 patch_vm0;;; ret OK) s = Ret OK (s.[vmm_desc := boot_table]).
Proof. destruct s; cbn -[vmm_bss]. intros ->. reflexivity. Qed.
Lemma vmm_test_stays v s a s' : vmm_test world v s ≠ Ret a s'.
Proof. unfold vmm_test, bind, call, for_list, skip, ret, spin. done. Qed.

Lemma main_boots s : on_vm0 → vmm_main world uninit vmm_bss = Ret tt s → vmm_desc s = boot_table ∧ buf_ok (vm_name s).
Proof.
  intros Hw (res & s1 & H & H')%bind_inv.
  apply bind_inv in H as (s0 & ? & [= <- <-] & H).
  apply bind_inv in H as (r1 & s2 & [= <- <-] & H). apply bind_inv in H as (r2 & s3 & [= <- <-] & H).
  apply bind_inv in H as ([] & s4 & Ht & H).
  assert (vmm_desc s4 = vmm_desc vmm_bss ∧ vm_name s4 = vm_name vmm_bss) as [Hd Hb].
  { unfold when in Ht. case_match; [by apply vmm_test_stays in Ht|]. by injection Ht as <-. }
  destruct (refuse_none s4 Hw) as (cs & E). rewrite (bind_Ret _ _ _ _ _ E), tables_freed in H by done.
  injection H as <- <-. injection H' as <-. split; [done|]. cbn. by rewrite Hb.
Qed.

Lemma reached_ok s : on_vm0 → reached s → wf (vmm_desc s) ∧ buf_ok (vm_name s).
Proof.
  intros Hw. induction 1 as [s H|s s' _ [IH B] H].
  { apply main_boots in H as [-> ?]; [|done]. split; [apply boot_wf|done]. }
  pose proof (round_is_ok s IH B) as R. unfold round_ok in R. rewrite H in R. split; apply R.
Qed.
Lemma reached_wf s : on_vm0 → reached s → wf (vmm_desc s).
Proof. intros Hw H. by apply reached_ok. Qed.

(** C18. In every state of the server, started on VM0, each VM is in its own slot, has a status of
    the life cycle and a name that ends in its field, and all 256 tokens are distributed among VM0
    and the running VMs. *)
Theorem vmm_kept s : on_vm0 → reached s → wf (vmm_desc s).
Proof. apply reached_wf. Qed.

(** A number that is one too large is not refused: the copy is of what lies behind the table. *)
Lemma vmdmp_past_table s : wf (vmm_desc s) → m1_i2 (m_in s) = NR_VMS →
  ∃ r s', do_vm_vmdmp world s = Ret r s' ∧ calls s' = VCopyOut (who_e s) (m1_p1 (m_in s)) [None] :: calls s.
Proof.
  intros W Hi. unfold do_vm_vmdmp, copy_rows, bind, get, call, ret. rewrite Hi. eexists _, _. split; [reflexivity|].
  cbn [calls fupd]. assert (Hn : rows NR_VMS 1 s = [None]); [|by rewrite Hn].
  unfold rows. change (zrange NR_VMS (NR_VMS + 1)) with [NR_VMS]. cbn [map].
  destruct (vmm_desc s !! NR_VMS) as [d|] eqn:E; [|done]. apply (wf_range _ _ _ W) in E. unfold NR_VMS in E. lia.
Qed.

(** ** What the start of a VM does, on every branch *)
Definition start_request (v n : Z) : message := (msg1 VMM_START v n 0).[m_type := SYS_VMMREQ].
Definition start_answer (s : vms) (v n : Z) : Z * message :=
  let r := world (calls s) (VSendrec SYSTEM (start_request v n)) in
  if v_res r =? 0 then (m_type (v_msg r), v_msg r) else (v_res r, start_request v n).

Lemma taskcall_start s v n : _taskcall world SYSTEM SYS_VMMREQ (msg1 VMM_START v n 0) s =
  Ret (start_answer s v n) (s.[calls := VSendrec SYSTEM (start_request v n) :: calls s]).
Proof.
  unfold _taskcall, start_answer, bind, call, ret. cbv zeta.
  change ((msg1 VMM_START v n 0).[m_type := SYS_VMMREQ]) with (start_request v n). by destruct (v_res _ =? 0).
Qed.
Lemma waiting_flags d : status_of d = Waiting ↔ vmm_flags d = Z.lor VM_LOADED VM_WAITING.
Proof.
  unfold status_of. repeat case_match; split; try done; intros H'; try (by rewrite H' in *); lia.
Qed.

(** C19. What do_vm_start answers, changes and sends on every branch: bad numbers of VM or tokens, a
    VM that does not wait, names of boot processes that cannot be printed (it crashes), a refusal of
    the kernel (the loader is told, the answer is the result of telling it, nothing changes) and
    success. *)
Theorem do_vm_start_spec s : wf (vmm_desc s) →
  let v := m1_i2 (m_in s) in let n := m1_p1 (m_in s) in
  let '(code, m) := start_answer s v n in
  match vmm_desc s !! v with
  | Some d =>
      if decide (v = VM0 ∨ ¬ 0 < n ≤ pool (vmm_desc s)) then do_vm_start world uninit s = Ret (uninit s) s
      else if decide (status_of d ≠ Waiting) then do_vm_start world uninit s = Ret (-1) s
      else if negb (names_shown (nbprocs s) (vmm_img d)) then do_vm_start world uninit s = Crash
      else
        let told := VSend (vmm_endpoint d) (m.[m_type := if code =? 0 then v else code]) in
        let asked := VSendrec SYSTEM (start_request v n) :: calls s in
        ∃ s', do_vm_start world uninit s = Ret (if code =? 0 then OK else v_res (world asked told)) s' ∧
          calls s' = told :: asked ∧
          if code =? 0 then abs (vmm_desc s') = (pool (vmm_desc s) - n, <[v := Running n]> (vms_of (vmm_desc s)))
          else vmm_desc s' = vmm_desc s
  | None => do_vm_start world uninit s = Ret (uninit s) s
  end.
Proof.
  clear desc_addr. intros W v n. destruct (start_answer s v n) as [code m] eqn:Ea. unfold start_answer in Ea.
  destruct (vmm_desc s !! v) as [d|] eqn:Hd.
  2: { unfold do_vm_start, bind, get, ret. fold v. destruct ((v <? 1) || (NR_VMS <=? v)) eqn:E; [done|].
       apply bad_vmid_range in E. destruct (wf_get _ v W) as (d & ? & _); [lia|congruence]. }
  destruct (wf_get _ VM0 W) as (d0 & Hd0 & _); [done|]. pose proof (wf_range _ _ _ W Hd) as Hv.
  pose proof (tokens_range _ _ _ W Hd0) as Ht. unfold pool. rewrite Hd0.
  unfold do_vm_start, bind, get, ret, getd. fold v n.
  destruct (decide _) as [Hbad|Hgood].
  { destruct ((v <? 1) || (NR_VMS <=? v)) eqn:E; [done|]. apply bad_vmid_range in E. cbv beta iota. rewrite Hd0.
    destruct Hbad as [->|Hbad]; [unfold VM0 in E; lia|].
    assert (E' : (n <=? 0) || (vmm_tokens d0 <? n) = true) by lia. cbv beta iota. by rewrite E'. }
  assert (Hne : v ≠ VM0) by tauto. assert (Hn : 0 < n ≤ vmm_tokens d0) by lia.
  assert (E : (v <? 1) || (NR_VMS <=? v) = false) by (unfold VM0, NR_VMS in *; lia). rewrite E.
  assert (E' : (n <=? 0) || (vmm_tokens d0 <? n) = false) by lia. cbv beta iota. rewrite Hd0. cbv beta iota. rewrite E'.
  cbv beta iota. rewrite Hd. cbv beta iota.
  destruct (decide _) as [Hw|Hw].
  { assert (Hf : (vmm_flags d =? Z.lor VM_LOADED VM_WAITING) = false) by (apply Z.eqb_neq; by rewrite <-waiting_flags). by rewrite Hf. }
  apply dec_stable in Hw. assert (Hf : (vmm_flags d =? Z.lor VM_LOADED VM_WAITING) = true) by (by apply Z.eqb_eq, waiting_flags).
  rewrite Hf. cbn [negb]. destruct (negb (names_shown _ _)); [done|]. rewrite taskcall_start. unfold start_answer. rewrite Ea. cbv beta iota. destruct (Z.eqb_spec code 0) as [->|Hc]; cbv beta iota zeta.
  - exists (Vms (with_vm v n (vmm_desc s) d d0) (m_in s) (m_out s) (who_e s) (call_nr s) (nbprocs s) (send_result s) (vm_name s)
      (VSend (vmm_endpoint d) (m.[m_type := v]) :: VSendrec SYSTEM (start_request v n) :: calls s)).
    split; [|split; [done|]].
    + unfold call, putd. cbn -[with_vm start_request]. rewrite Hd. cbn -[with_vm start_request].
      rewrite lookup_insert_ne, Hd0 by done. done.
    + cbn -[with_vm abs]. rewrite with_vm_abs by (try done; unfold MAXTOKENS in *; lia). unfold pool. by rewrite Hd0.
  - eexists. split; [reflexivity|done].
Qed.

(** ** The name of a VM *)
Lemma c_str_app l k : Forall (λ c, c ≠ 0) l → c_str (l ++ k) = l ++ c_str k.
Proof. induction 1 as [|c l Hc _ IH]; [done|]. cbn. destruct (Z.eqb_spec c 0); [done|]. by rewrite IH. Qed.
Lemma c_str_overwrite l buf n : Forall (λ c, c ≠ 0) l → n = Datatypes.S (length l) → c_str (overwrite n (l ++ [0]) buf) = l.
Proof.
  intros Hl ->. unfold overwrite. rewrite <-app_assoc, take_app. replace (Datatypes.S (length l) - length l)%nat with 1%nat by lia.
  rewrite take_ge by lia. cbn. rewrite <-app_assoc, c_str_app by done. cbn. by rewrite app_nil_r.
Qed.
Lemma c_str_strncpy l src dst : Forall (λ c, c ≠ 0) l → c_str src = l →
  c_str (strncpy (length l) src dst) = l ++ c_str (drop (length l) dst).
Proof.
  intros Hl Hs. unfold strncpy. rewrite Hs, take_ge by lia. cbv zeta. rewrite Nat.sub_diag. cbn. by apply c_str_app.
Qed.

(** C20. do_vm_waitvm leaves the loader of the first loaded VM of its pid waiting without an answer
    and names the VM: the name that is shown is the new one followed by the rest of the old one. *)
Theorem do_vm_waitvm_names s name :
  let pid := m1_i2 (m_in s) in let len := Z.of_nat (length name) in
  wf (vmm_desc s) → m1_i3 (m_in s) = len → len < VM_NAME_LEN → Forall (λ c, c ≠ 0) name →
  world (calls s) (VCopyIn (who_e s) (m1_p1 (m_in s)) (len + 1)) = VReply OK (msg1 0 0 0 0) (name ++ [0]) →
  ∃ s', match loaded_by pid s with
  | None => do_vm_waitvm world s = Ret EPROXYSVR s' ∧ vmm_desc s' = vmm_desc s ∧ send_result s' = send_result s
  | Some i => ∃ d d', vmm_desc s !! i = Some d ∧ vmm_pid d = pid ∧ status_of d = Loaded ∧
      do_vm_waitvm world s = Ret OK s' ∧ send_result s' = false ∧ vmm_desc s' = <[i := d']> (vmm_desc s) ∧
      status_of d' = Waiting ∧ c_str (vmm_name d') = name ++ c_str (drop (length name) (vmm_name d))
  end.
Proof.
  intros pid len W Hlen Hmax Hn Hcopy. unfold VM_NAME_LEN in Hmax.
  set (s1 := s.[calls := VCopyIn (who_e s) (m1_p1 (m_in s)) (len + 1) :: calls s]
              .[vm_name := overwrite (Z.to_nat (len + 1)) (name ++ [0]) (vm_name s)]).
  assert (Hc : copy_in world (who_e s) (m1_p1 (m_in s)) (len + 1) s = Ret (OK, name ++ [0]) (s1.[vm_name := vm_name s])).
  { unfold copy_in. rewrite u32_id by lia. replace (len + 1 =? 0) with false by lia.
    unfold bind, call, ret. by rewrite Hcopy. }
  assert (Hshow : str_in (vm_name s1) 0 (4 * Z.to_nat VM_NAME_LEN) = true).
  { unfold str_in, s1. cbn [vm_name fupd]. rewrite existsb_exists. exists 0. split; [|done]. apply list_elem_of_In.
    apply (list_elem_of_lookup_2 _ (length name)). rewrite drop_0, lookup_take_lt by (unfold VM_NAME_LEN; lia).
    unfold overwrite. rewrite lookup_app_l by (rewrite length_take, !length_app, length_replicate; cbn; lia).
    rewrite lookup_take_lt by lia. rewrite <-app_assoc, lookup_app_r by lia. by rewrite Nat.sub_diag. }
  assert (Hrun : ∀ o, loaded_by pid s = o → do_vm_waitvm world s =
    match o with
    | Some i => (modify (λ s, s.[send_result := false]);;; putd i (waits len (vm_name s1));;; ret OK) s1
    | None => Ret EPROXYSVR s1
    end).
  { intros o Ho. unfold do_vm_waitvm. unfold get at 1, bind at 1. cbv zeta beta iota. fold pid. rewrite Hlen.
    replace (VM_NAME_LEN - 1 <? len) with false by (unfold VM_NAME_LEN; lia). rewrite (bind_Ret _ _ _ _ _ Hc). cbv beta iota.
    rewrite u32_id by lia. replace (4 * VM_NAME_LEN <? len + 1) with false by (unfold VM_NAME_LEN; lia). cbn [negb Z.eqb OK].
    unfold modify at 1, bind at 1, get at 1, bind at 1. match goal with |- context [str_in ?x _ _] => change x with (vm_name s1) end. rewrite Hshow. cbn [negb]. change (loaded_by pid _) with (loaded_by pid s). rewrite Ho.
    destruct o as [i|]; [|done]. rewrite u32_id by lia. by replace (VM_NAME_LEN <? len) with false by (unfold VM_NAME_LEN; lia). }
  destruct (loaded_by pid s) as [i|] eqn:E.
  - destruct (loaded_by_spec _ _ _ E) as (d & Hd & Hp & Hf).
    exists (s1.[send_result := false].[vmm_desc := <[i := waits len (vm_name s1) d]> (vmm_desc s)]), d, (waits len (vm_name s1) d).
    rewrite (Hrun _ eq_refl). split_and!; [done|done|by unfold status_of; rewrite Hf| |done|done| |].
    + unfold bind, modify, putd, ret. change (vmm_desc (s1.[send_result := false])) with (vmm_desc s). by rewrite Hd.
    + apply waiting_flags. cbn. by rewrite Hf.
    + cbn -[strncpy c_str]. unfold len. rewrite Nat2Z.id. apply c_str_strncpy; [done|]. apply c_str_overwrite; [done|lia].
  - exists s1. by rewrite (Hrun _ eq_refl).
Qed.
End world.

(** ** An example: a VM is loaded, waits, is started and killed *)
Definition demo_script : list message :=
  [Message 50 VMMCMD 0x901 4 12 0x1000 0x2000 0x3000 0; Message 50 VMMCMD 0x90B 4 3 0x4000 0 0 0;
   Message 60 VMMCMD 0x902 1 0 100 0 0 0; Message 60 VMMCMD 0x904 1 0 0 0 0 0].
Definition is_receive (c : vcall) : bool := match c with VReceive _ => true | _ => false end.
(** PM knows the loader, the other requests succeed. *)
Definition demo_world (h : list vcall) (c : vcall) : vreply :=
  let received := length (List.filter is_receive h) in
  VReply OK
    (match c with
     | VReceive _ => nth received demo_script (msg1 0 0 0 0)
     | VSendrec _ m => if m_w0 m =? 0x901 then Message 0 0 0x901 50 2048 0 0 0 0 else Message 0 0 0 0 0 0 0 0 0
     | _ => msg1 0 0 0 0
     end)
    (match c with VCopyIn _ _ n => if n =? 4 then [97; 98; 99; 0] else [] | _ => [] end).

Definition demo_uninit (_ : vms) : Z := 77.
Definition demo_addr (i : Z) : Z := 0x8000 + i * 0x400.
Definition run_unit (m : V unit) (s : vms) : vms := match m s with Ret _ s' => s' | _ => s end.
Definition demo_round : vms → vms := run_unit (vmm_round demo_world demo_uninit demo_addr).
Definition demo_state (n : nat) : vms := Nat.iter n demo_round (run_unit (vmm_main demo_world demo_uninit) vmm_bss).

Example demo_life : (λ n, vms_of (vmm_desc (demo_state n)) !! 1) <$> [0; 1; 2; 3; 4]%nat =
  [Some Idle; Some Loaded; Some Waiting; Some (Running 100); Some Idle].
Proof. vm_compute. reflexivity. Qed.
Example demo_tokens : (λ n, pool (vmm_desc (demo_state n))) <$> [0; 3; 4]%nat = [256; 156; 256].
Proof. vm_compute. reflexivity. Qed.
(** A VM called abc is shown as abcFREE. *)
Example demo_name : match vmm_desc (demo_state 2) !! 1 with Some d => c_str (vmm_name d) | None => [] end
  = [97; 98; 99; 70; 82; 69; 69].
Proof. vm_compute. reflexivity. Qed.

Lemma demo_on_vm0 : on_vm0 demo_world.
Proof. by intros h. Defined.
Lemma demo_reached n : (n ≤ 4)%nat → reached demo_world demo_uninit demo_addr (demo_state n).
Proof.
  intros Hn. induction n as [|n IH]; [apply reached_boot; vm_compute; reflexivity|].
  eapply reached_round; [apply IH; lia|]. destruct n as [|[|[|[|n]]]]; [vm_compute; reflexivity..|lia].
Qed.

Lemma demo_wf n : (n ≤ 4)%nat → wf (vmm_desc (demo_state n)).
Proof. intros Hn. eapply reached_wf; [exact demo_on_vm0|by apply demo_reached]. Defined.
(** The state with the next request in [m_in]. *)
Definition demo_request (n : nat) : vms := run_unit (get_work demo_world) (demo_state n).
Lemma demo_request_wf n : (n ≤ 4)%nat → wf (vmm_desc (demo_request n)).
Proof.
  intros Hn. unfold demo_request, run_unit. destruct (get_work_same demo_world (demo_state n)) as (s' & -> & -> & _).
  by apply demo_wf.
Defined.

Lemma vmm_round_refines_witness :
  match vmm_round demo_world demo_uninit demo_addr (demo_state 2) with
  | Ret _ s' => wf (vmm_desc s') ∧ buf_ok (vm_name s') ∧
      (abs (vmm_desc s') = abs (vmm_desc (demo_state 2)) ∨
       vm_step (call_nr s') (abs (vmm_desc (demo_state 2))) (abs (vmm_desc s')))
  | Crash => ∃ s1, get_work demo_world (demo_state 2) = Ret tt s1 ∧ (bad_wait s1 ∨ bad_names demo_world s1 ∨ no_reply demo_world s1)
  | Spin => False
  end.
Proof. apply vmm_round_refines; [apply demo_wf; lia|split; vm_compute; reflexivity]. Defined.

Lemma vmm_kept_witness : wf (vmm_desc (demo_state 3)).
Proof. apply (vmm_kept demo_world demo_uninit demo_addr); [exact demo_on_vm0|apply demo_reached; lia]. Defined.

Lemma demo_pool : pool (vmm_desc (demo_request 2)) = 256.
Proof. vm_compute. reflexivity. Defined.

Lemma demo_names : ∃ d, vmm_desc (demo_request 2) !! 1 = Some d ∧ status_of d = Waiting ∧
  names_shown (nbprocs (demo_request 2)) (vmm_img d) = true.
Proof. eexists. split; [vm_compute; reflexivity|split; vm_compute; reflexivity]. Defined.
(** A second load, which PM refuses, leaves its number of processes: the VM cannot be started any more. *)
Example start_after_refused_load :
  let s := (demo_request 2).[nbprocs := 17] in do_vm_start demo_world demo_uninit s = Crash.
Proof. vm_compute. reflexivity. Qed.

Lemma do_vm_start_spec_witness : ∃ s', do_vm_start demo_world demo_uninit (demo_request 2) = Ret OK s' ∧
  abs (vmm_desc s') = (256 - 100, <[1 := Running 100]> (vms_of (vmm_desc (demo_request 2)))).
Proof.
  pose proof (do_vm_start_spec demo_world demo_uninit (demo_request 2) ltac:(apply demo_request_wf; lia)) as H.
  assert (E : m1_i2 (m_in (demo_request 2)) = 1 ∧ m1_p1 (m_in (demo_request 2)) = 100 ∧
    start_answer demo_world (demo_request 2) 1 100 = (0, Message 0 0 0 0 0 0 0 0 0)) by (vm_compute; auto).
  destruct E as (E1 & E2 & E3). cbv zeta in H. rewrite E1, E2, E3 in H.
  destruct demo_names as (d & Hd & Hs & Hn). rewrite Hd, demo_pool in H. cbv beta iota in H.
  rewrite decide_False in H by (unfold VM0; lia). rewrite decide_False in H by tauto.
  rewrite Hn in H. cbn [negb] in H. change (0 =? 0) with true in H. cbv iota in H. destruct H as (s' & H1 & _ & H2). exists s'. exact (conj H1 H2).
Defined.

Lemma do_vm_waitvm_names_witness : ∃ s' d', do_vm_waitvm demo_world (demo_request 1) = Ret OK s' ∧
  vmm_desc s' !! 1 = Some d' ∧ c_str (vmm_name d') = [97; 98; 99; 70; 82; 69; 69].
Proof.
  pose proof (do_vm_waitvm_names demo_world (demo_request 1) [97; 98; 99] ltac:(apply demo_request_wf; lia) ltac:(vm_compute; reflexivity)
    ltac:(vm_compute; reflexivity) ltac:(repeat constructor; lia) ltac:(vm_compute; reflexivity)) as [s' H].
  replace (loaded_by (m1_i2 (m_in (demo_request 1))) (demo_request 1)) with (Some 1) in H by (vm_compute; reflexivity).
  destruct H as (d & d' & Hd & _ & _ & Hr & _ & Ht & _ & Hn). exists s', d'. split_and!; [done|by rewrite Ht, lookup_insert_eq|].
  rewrite Hn. assert (Hv : vmm_name d = [86; 77; 32; 70; 82; 69; 69; 0; 0; 0; 0; 0; 0; 0; 0; 0]).
  { vm_compute in Hd. by injection Hd as <-. }
  by rewrite Hv.
Defined.
